(* ===== verification/_CoqProject ===== *)
-Q . S2P
Prelude.v
OrdMap.v
ByteBuffer.v
StringUtils.v
Guid.v
DbObject.v
Endian.v
BundleManifest.v
BundleMerger.v
LayoutManifest.v
ModResources.v
ModMerge.v
ManifestHooks.v
ResourceHooks.v
ShaderBlocks.v
Localization.v
Threads.v
Network.v
Server.v
DataContainers.v
AssetHandlers.v
TeamData.v
Handlers.v
Voip.v
Client.v
Events.v
Hosting.v
Lua.v
LuaData.v
Entities.v
Owners.v
Console.v
Management.v
Hooks.v
Plugins.v
PlayerBindings.v
Rpc.v
Startup.v
