(* ===== verification/Prelude.v ===== *)
(** * A verification of the Kyber module (src/Module)

    Kyber is a library loaded into a game. Its module replaces parts of the
    game at run time: it loads archives of mods, merges what they change into
    the catalogues the game reads, answers the game's reads of changed data,
    and adds servers, a network layer, plugins and voice chat. This development
    models the parts that compute, from the C++ sources, and proves what makes
    them correct.

    ** The parts and how they interact

    The loading of mods is a pipeline, and the files follow it:

    - [LoadMod] (Source/ModLoader/ModLoader.cpp) converts the resources of an
      archive and gives every resource with data a place in a cas file;
      [FinalizeModLoads] orders the mods by priority, finds for every asset the
      mod whose data win, and gives every bundle its list of resources. File
      [ModResources].
    - For every bundle, [MergeBundleManifest] changes the game's bundle manifest
      (names, sizes, types, texture metadata) and [MergeLayoutManifest] changes
      the layout, which says where the data of the manifest's entries are, by
      their position. The two passes are written separately and must agree
      entry by entry. File [ModMerge], over [BundleManifest]
      (Source/ModLoader/BundleMerger.cpp), [LayoutManifest]
      (Source/ModLoader/ManifestMerger.cpp) and [BundleMerger] (the
      catalogue of the game's own bundles).
    - The formats they read and write: [ByteBuffer] (the vendored buffer class,
      which is part of the repository and whose wrap-around of positions
      matters), [DbObject] (tagged objects with 7-bit lengths), [Endian], [Guid]
      and [StringUtils] (hashes, hex, splitting).
    - The hooks hand the results to the game. [ManifestHooks] has the hooks of
      bundle manifests and of the layout, and the table of cas files;
      [ResourceHooks] has the hooks of chunk reads, of the bundles being loaded
      and of the assets that wait for handlers; [ShaderBlocks] the hook that
      merges the mods' resources into a shader block depot
      (Source/ModLoader/ResourceMerger.cpp).
    - A handler merges one kind of asset. [Localization] models the text
      database; [DataContainers] the game's objects, references to them and
      their counts (Source/ModLoader/CustomAssetHandler.cpp); [AssetHandlers]
      the handlers of UI metadata, profile options, network registries and mesh
      variations; [TeamData] that of team data; [Handlers] the class template
      behind them, the table that picks a handler, and the hook that runs them.

    The rest is a program of threads and messages:

    - [Threads] models the pool of workers, the calls deferred to the game's
      threads and the queue of messages to the server management; [Events] the
      queue of events and the events of plugins with the chat hook.
    - [Network] models the sockets: the packets of proxied clients, the address
      to listen on, and the queue the web sockets fill.
    - [Server] models the map rotation, the levels that are loaded, the players
      that are let in, the shuffling of teams (a command of
      Source/Core/Console.cpp) and the bits of the unlocks
      (Source/Persistence/PersistenceManager.cpp), each in a Module.
    - [Voip] models voice chat and [Client] the client that joins and leaves
      servers. They share state with the server: a message the client sends is
      read by the hook of [Server.Joins], and [Client] composes the two.
    - [Hosting] models the life of a server (Source/Core/Server.cpp,
      Source/Network/SocketManager.cpp): its sockets, start and stop, its
      registration, the hooks of the game's server, its frames and startup
      commands, over the levels of [Server]; [Client] keeps the part of the
      server the client drives, and [Hosting] proves that part a view of the
      whole.
    - [Rpc] models the calls of the services (Public/RPC/AsyncRPCManager.h,
      Source/RPC/API): when callbacks are called and what they are given, the
      statistics and the metadata that are sent.
    - [Startup] composes them: the handshake of the module's thread with the
      game's (Source/Core/Program.cpp), the launcher's answer that starts a
      server or joins one (Source/RPC/API/Launcher.cpp), the requests of the
      interface (Source/RPC/Interface) and the console's commands for levels, over
      [Hosting] and [Client], and the
      stubs that take the place of the game's Lua functions.
    - [Management] models what a hosted server does beside the game: the
      statistics of its players (Source/Persistence), the messages to and from
      the server management (Source/RPC/API/ServerManagement.cpp), and the game
      messages that drive both and the map rotation (Source/Core/Program.cpp).
    - [Console] has the stream that parses the arguments of commands, the
      look-up of players (Source/SDK/SDK.cpp) and commands on players;
      [Hooks] the registry of function hooks (Source/Hook), which every hook of
      the other files goes through.

    Plugins and entities extend the game:

    - [Lua] models the part of Lua's interface that the bindings use, as a state
      monad over a stack, tables, userdata and the game's memory; [LuaData] the
      bindings that read and write the game's objects by the types of their
      fields (Source/Script/Lua.cpp, LuaDataContainer.cpp); [PlayerBindings] what
      plugins see of players and entities (LuaPlayerManager.cpp,
      LuaEntityManager.cpp), over the state of a process that runs a Lua state
      per plugin; [Plugins] the loading of plugins, their console commands and
      their sockets.
    - [Entities] models the factory that binds the module's entities to the
      game's, the types it registers, and the entities themselves
      (Source/Entity); [Owners] the trees of owners and buses the game keeps
      entities in, and what a live reload destroys
      (Source/ModLoader/LiveEditManager.cpp).

    ** Conventions

    A machine integer is a [Z]; where the code's arithmetic can leave its range
    the wrap-around is written out ([uwrap], [swrap]). Bytes are [byte], C
    strings are lists of bytes. A [std::map] is an ordered association list
    ([OrdMap]), so that iteration has the code's order; an unordered map is a
    [gmap] where its order is not observed and an argument where it is. Code
    that can fail returns a [result]: [Thrown] for an exception or a failed
    assertion, [Undefined] where the C++ has undefined behaviour (an access out
    of range, a null pointer, a variable without a value, a mutex locked twice
    by its holder), [OutOfFuel] where the model's fuel ran out. Readers are the
    state monad [Rd] over [ByteBuffer] with these errors, handlers the monad
    [GM] over the game's objects. The game's functions and third-party code are
    arguments; what the code has them do is recorded in the state, in order.
    Threads interleave as the steps of a relation or the elements of a history,
    and a critical section is one step.

    Fuel appears where recursion is not structural: the objects of a [DbObject]
    need one unit per byte of the buffer, and [DbObject.load_terminates] proves
    that this is enough on any input; a string in a buffer needs one unit per
    byte; padding needs as many as its alignment; the dispatch of an event needs
    one per event fired within an event; a loop that waits for the game
    ([ResourceHooks.Chunks.poll_loop], the retries of a handler in
    [Handlers.modify_loop]) needs as many as the game answers with "not yet",
    which is a hypothesis of its theorems. The walk over a table of Lua functions
    needs one unit per entry. The search for a field needs one unit
    per type of the chain of parents; walks over owners and buses need as many
    as there are owners and entities; the text of a 64-bit number has at most 20
    digits.

    ** What the theorems show

    - Merging ([ModMerge], [ModResources], [BundleManifest], [LayoutManifest]):
      the bundle merge and the layout merge agree on every bundle; the last mod
      with data for an asset wins in every bundle; the lists of the seven passes
      are those of a direct definition; the operations of both manifests on
      every branch, with the invariants they keep.
    - Formats ([DbObject], [BundleManifest], [LayoutManifest], [BundleMerger],
      [ShaderBlocks]): what is saved loads back, the offsets of a saved layout
      are what the game expects, loading terminates on any bytes, a merged depot
      reads back as the game's with the mods' resources in it.
    - Hooks ([ManifestHooks], [ResourceHooks]): what the game is handed is the
      merged manifest at the size it was told; a pending chunk is copied within
      its bounds; the bundles that count as loading and as loaded are those of
      the history;
      an asset's handlers run once per stage, in order.
    - Handlers ([Localization], [AssetHandlers], [TeamData], [Handlers]): the
      merged asset is the old one with what the mods change, references are
      resolved and counted, a handler only sees data of its own type (the hook
      runs as one without casts does), and a retried handler comes to an end.
    - Threads and events ([Threads], [Events]): the pool loses no wake-up and no
      task; a deferred call runs at its tick; an event is told once to those who
      listen when it is processed; a chat message passes unless the plugins'
      last decision is to cancel it.
    - Services and start ([Rpc], [Startup]): every call of a service that is started
      is called back once; the game waits for the module; a server or a join the
      launcher asks for comes about with what was asked; the state reported is that
      of the server; the game's Lua has no function left that reaches its files.
    - Servers and clients ([Server], [Hosting], [Network], [Client], [Voip],
      [Management]): which of the game's servers run on the module's sockets, for
      any history after a start; the sockets a manager lists are those that are
      open; startup commands run once on a server within the client and are lost
      on a dedicated one; the level
      asked for last is loaded; only authenticated players are created, and the
      client sends the token the server asks for; replies find their way through
      the proxy; teams are balanced; a client back in the menus keeps no address
      of a server; a player that leaves a dedicated server and comes back has its
      statistics, and on a client's server only what the game gave it; a kick
      reaches the player it names; the rotation is served in turn.
    - Plugins, entities and hooks ([LuaData], [PlayerBindings], [Plugins],
      [Entities], [Owners], [Console], [Hooks]): a field that is written is read back and no other
      byte changes; an array is extended and walked as a list; a plugin is
      given every player and every entity of a bus, in order; entities and the
      module's objects stay one to one, and a frame completes as long as no update
      frees what is still to be updated; types refer to what they name; commands
      never reach a deleted trigger; sockets are closed once; calls go through
      the hooks from the last to the first; a reload destroys what is below it;
      the three commands that set a team agree.
    - Some theorems show where the code does not do what it means to: names with
      equal hashes, reads of overridden chunks through [ReadChunkSync], a
      resource whose id changes, a missing asset of the game, the search for a
      block of characters, a pointer to a deleted resource of a depot, a
      reference that is not found, a lost wake-up of the sender, a client taken
      for a proxy, a voice channel that is left too early or joined too late,
      events that share one flag, a rotation entry that is skipped, a kick after
      the server has stopped, an answer for a player that has left, a hook that
      is taken out but still called, sockets closed twice, a chat message that is
      sent as the number of its channel, owners whose siblings are collected
      with them, hooks left armed by a server that is stopped early, a failed
      registration that is never retried, a level whose end is told twice,
      startup commands of dedicated servers, a server that starts again when
      it is left, statistics that could not be loaded, a join whose token is not
      stored, and a game that waits for ever for its launcher.

    ** Not modelled

    Parts that are calls into the game, into the operating system or into
    third-party libraries and keep no state of their own to speak of: the
    interface, the bindings of plugins to utilities, resources and the client's
    events, the settings, the tables of hooks, the channels of the services, crash reports, the drawing of
    cameras and latency, and the console commands that make one call of the
    game. Lua itself is modelled as far as the bindings use it, without garbage
    collection (apart from the collection of sockets and borrowed values) and
    without limits of its stack. The game's builder of types, its memory beyond
    what is read and written, and the machine code that is patched are
    arguments. Of [ModLoader], the opening of archives (FBRuntimeTweaker's
    work), the download and extraction of mods, and the progress messages. Of
    the deferred assets, what happens when a handler makes the game push to the
    queue that is being walked. Of live editing, what the game does with the
    data an editor sends. Of voice chat, the orientation of the listener
    (floating-point trigonometry) and its interface. The other
    programs of the repository (the launcher, the command line, the service and
    the proxy) are in other languages. *)

From Stdlib Require Export ZArith Lia.
From Stdlib Require String.
Export String.StringSyntax.
From coqutil Require Export Byte Word.LittleEndianList.
From stdpp Require Export base list gmap sorting numbers.

#[global] Open Scope Z_scope.

Declare Scope kyber_scope.
Delimit Scope kyber_scope with kyber.
#[global] Open Scope kyber_scope.

Create HintDb kyber.
Create Rewrite HintDb kyber.

(** ** Machine integers

    C++ integers are kept as [Z]; a w-bit unsigned value is brought back into
    range by [uwrap w], a signed one by [swrap w] (two's complement, as since
    C++20). *)

Definition uwrap (w z : Z) : Z := z mod 2 ^ w.
Definition swrap (w z : Z) : Z := (z + 2 ^ (w - 1)) mod 2 ^ w - 2 ^ (w - 1).

Abbreviation u8 := (uwrap 8).
Abbreviation u16 := (uwrap 16).
Abbreviation u32 := (uwrap 32).
Abbreviation u64 := (uwrap 64).
Abbreviation i32 := (swrap 32).
Abbreviation i64 := (swrap 64).

Definition urange (w z : Z) : Prop := 0 <= z < 2 ^ w.
Definition srange (w z : Z) : Prop := - 2 ^ (w - 1) <= z < 2 ^ (w - 1).

Abbreviation is_u8 := (urange 8).
Abbreviation is_u16 := (urange 16).
Abbreviation is_u32 := (urange 32).
Abbreviation is_u64 := (urange 64).
Abbreviation is_i32 := (srange 32).
Abbreviation is_i64 := (srange 64).

Lemma uwrap_small w z : urange w z -> uwrap w z = z.
Proof. intros H. apply Z.mod_small, H. Qed.

Lemma uwrap_range w z : 0 <= w -> urange w (uwrap w z).
Proof. intros H. apply Z.mod_pos_bound. by apply Z.pow_pos_nonneg. Qed.

Lemma swrap_small w z : 0 < w -> srange w z -> swrap w z = z.
Proof.
  intros Hw H. unfold swrap, srange in *.
  assert (Hp : 2 ^ w = 2 * 2 ^ (w - 1)).
  { rewrite <- Z.pow_succ_r by lia. f_equal. lia. }
  rewrite Z.mod_small; lia.
Qed.

Lemma uwrap_swrap w z : 0 < w -> uwrap w (swrap w z) = uwrap w z.
Proof.
  intros Hw. unfold uwrap, swrap.
  rewrite Zminus_mod_idemp_l. f_equal. lia.
Qed.

(** A signed value read back from its unsigned image. *)
Lemma swrap_uwrap w z : 0 < w -> srange w z -> swrap w (uwrap w z) = z.
Proof.
  intros Hw H. unfold swrap, uwrap. rewrite Zplus_mod_idemp_l.
  by apply swrap_small.
Qed.

#[export] Hint Rewrite uwrap_small using done : kyber.
#[export] Hint Resolve uwrap_range : kyber.

#[export] Instance byte_eq_dec : EqDecision byte.
Proof. intros x y. apply Byte.byte_eq_dec. Defined.

#[export] Instance byte_countable : Countable byte.
Proof. apply (inj_countable' byte.unsigned byte.of_Z). apply byte.of_Z_unsigned. Defined.

(** String literals as bytes. *)
Definition bstr (s : String.string) : list byte := String.list_byte_of_string s.
Arguments bstr s%_string_scope.

(** ** Failing computations

    [Undefined] is C++ undefined behaviour (an out-of-bounds access, an
    over-wide shift, a null dereference); [Unimplemented] the process exit of
    [KB_UNIMPLEMENTED]; [Thrown] an exception of the standard library that the
    module does not catch; [OutOfFuel] is the model's own bound on a loop, which
    the termination theorems exclude. *)

Inductive fault := Undefined | Unimplemented | Thrown | OutOfFuel.

#[export] Instance fault_eq_dec : EqDecision fault.
Proof. solve_decision. Defined.

Inductive result (A : Type) := Ok (a : A) | Fault (f : fault).
Arguments Ok {A} a.
Arguments Fault {A} f.

#[export] Instance result_ret : MRet result := fun A a => Ok a.
#[export] Instance result_bind : MBind result := fun A B f m =>
  match m with Ok a => f a | Fault e => Fault e end.
#[export] Instance result_fmap : FMap result := fun A B f m =>
  match m with Ok a => Ok (f a) | Fault e => Fault e end.

Definition of_option {A} (e : fault) (o : option A) : result A :=
  match o with Some a => Ok a | None => Fault e end.

Definition is_ok {A} (r : result A) : bool :=
  match r with Ok _ => true | Fault _ => false end.

Lemma result_bind_ok {A B} (m : result A) (f : A -> result B) b :
  m ≫= f = Ok b <-> exists a, m = Ok a /\ f a = Ok b.
Proof. destruct m; cbn; naive_solver. Qed.

(** A left fold that stops at the first fault: the shape of the loops whose
    body can fail. *)
Fixpoint foldM {A B} (f : A -> B -> result A) (a : A) (l : list B) : result A :=
  match l with
  | [] => Ok a
  | b :: l' => match f a b with Ok a' => foldM f a' l' | Fault e => Fault e end
  end.

Lemma foldM_app {A B} (f : A -> B -> result A) a l k :
  foldM f a (l ++ k) = foldM f a l ≫= fun a' => foldM f a' k.
Proof.
  revert a. induction l as [|b l IH]; intros a; cbn; [done|].
  destruct (f a b); cbn; [apply IH | done].
Qed.

Lemma forallb_ext {A} (f g : A -> bool) l : (forall x, f x = g x) -> forallb f l = forallb g l.
Proof. intros H. induction l as [|x l IH]; cbn; [done|]. by rewrite H, IH. Qed.

Lemma foldM_ext {A B} (f g : A -> B -> result A) a l :
  (forall a x, x ∈ l -> f a x = g a x) -> foldM f a l = foldM g a l.
Proof.
  revert a. induction l as [|x l IH]; intros a H; [done|]. cbn [foldM]. rewrite H by by left.
  destruct (g a x); [|done]. apply IH. intros a' y Hy. apply H. by right.
Qed.

(** An invariant of the body is an invariant of the loop. *)
Lemma foldM_inv {A B} (P : A -> Prop) (f : A -> B -> result A) l a a' :
  (forall a b a', b ∈ l -> P a -> f a b = Ok a' -> P a') ->
  P a -> foldM f a l = Ok a' -> P a'.
Proof.
  revert a. induction l as [|b l IH]; intros a Hf Ha; cbn.
  - by intros [= <-].
  - destruct (f a b) as [a1|] eqn:E; [|done]. intros H.
    eapply (IH a1); [|eapply Hf; [by left|done|done]|exact H].
    intros ??? Hin. apply Hf. by right.
Qed.

(** The shape of the search loops: change the first element that satisfies
    [p], or report that there is none. *)
Fixpoint update_first {A} (p : A -> bool) (f : A -> A) (l : list A) : option (list A) :=
  match l with
  | [] => None
  | x :: l' => if p x then Some (f x :: l') else cons x <$> update_first p f l'
  end.

Lemma update_first_Some {A} (p : A -> bool) f (l l' : list A) :
  update_first p f l = Some l' <->
  exists l1 x l2, l = l1 ++ x :: l2 /\ Forall (fun y => p y = false) l1 /\ p x = true /\
    l' = l1 ++ f x :: l2.
Proof.
  revert l'. induction l as [|x l IH]; intros l'; cbn.
  - split; [done|]. intros ([|] & ? & ? & ? & _); done.
  - destruct (p x) eqn:E.
    + split; [intros [= <-]; by exists [], x, l|].
      intros ([|y l1] & z & l2 & [= -> ->] & Hall & Hz & ->); [done|].
      apply list.Forall_cons in Hall as [? _]. congruence.
    + rewrite fmap_Some. setoid_rewrite IH. split.
      * intros (k & (l1 & z & l2 & -> & Hall & Hz & ->) & ->).
        exists (x :: l1), z, l2. split_and!; try done. by constructor.
      * intros ([|y l1] & z & l2 & [= -> ->] & Hall & Hz & ->); [congruence|].
        apply list.Forall_cons in Hall as [? Hall]. exists (l1 ++ f z :: l2).
        split; [by exists l1, z, l2|done].
Qed.

Lemma update_first_None {A} (p : A -> bool) f (l : list A) :
  update_first p f l = None <-> Forall (fun y => p y = false) l.
Proof.
  induction l as [|x l IH]; cbn; [done|].
  rewrite list.Forall_cons. destruct (p x); [naive_solver|]. rewrite fmap_None, IH. naive_solver.
Qed.

Lemma update_first_length {A} (p : A -> bool) f (l l' : list A) :
  update_first p f l = Some l' -> length l' = length l.
Proof.
  intros (l1 & x & l2 & -> & _ & _ & ->)%update_first_Some. by rewrite !length_app.
Qed.

(** Narrowing after a wider wrap. *)
Lemma uwrap_uwrap_le w w' z : 0 <= w <= w' -> uwrap w (uwrap w' z) = uwrap w z.
Proof.
  intros Hw. unfold uwrap. apply Z.mod_mod_divide. exists (2 ^ (w' - w)).
  rewrite <- Z.pow_add_r by lia. f_equal. lia.
Qed.

Lemma swrap_uwrap_le w w' z : 0 < w <= w' -> srange w z -> swrap w (uwrap w' z) = z.
Proof.
  intros Hw Hz. rewrite <- (swrap_uwrap w z) at 2 by (done || lia).
  rewrite <- (uwrap_uwrap_le w w' z) by lia. unfold swrap, uwrap.
  by rewrite Zplus_mod_idemp_l.
Qed.

(** Bit fields that do not overlap are added. *)
Lemma lor_shift_add acc x i :
  0 <= i -> 0 <= acc < 2 ^ i -> Z.lor acc (x * 2 ^ i) = acc + x * 2 ^ i.
Proof.
  intros Hi Hacc. rewrite <- Z.shiftl_mul_pow2 by lia.
  assert (Hand : Z.land acc (Z.shiftl x i) = 0).
  { apply Z.bits_inj'. intros n Hn. rewrite Z.land_spec, Z.bits_0.
    destruct (Z.ltb_spec n i).
    - rewrite (Z.shiftl_spec_low x) by lia. apply andb_false_r.
    - rewrite <- (Z.mod_small acc (2 ^ i)) by lia. by rewrite Z.mod_pow2_bits_high by lia. }
  by rewrite <- Z.lxor_lor, <- Z.add_nocarry_lxor.
Qed.

Lemma bind_ext_in {A B} (f g : A -> list B) l : (forall x, x ∈ l -> f x = g x) -> l ≫= f = l ≫= g.
Proof.
  induction l as [|x l IH]; [done|]. intros H. cbn. rewrite H by left. f_equal. apply IH. intros y Hy. apply H. by right.
Qed.
