(* ===== verification/OrdMap.v ===== *)
(** Ordered maps: [std::map] and [eastl::map].

    The code iterates over these maps and takes their first element, so the
    order of the entries is part of the model: a map is the list of its
    entries, strictly increasing in the key ([omap_wf]).  [omap_insert] is
    [m[k] = v], [omap_emplace] is [m.emplace(k, v)], which keeps an entry that
    is already there, and [omap_find] is [find]/[count]. *)

From S2P Require Import Prelude.

Class KeyOrder (K : Type) := key_compare : K -> K -> comparison.

Class KeyOrderOk (K : Type) {O : KeyOrder K} : Prop := {
  key_compare_eq : forall x y, key_compare x y = Eq <-> x = y;
  key_compare_antisym : forall x y, key_compare y x = CompOpp (key_compare x y);
  key_compare_trans : forall x y z,
    key_compare x y = Lt -> key_compare y z = Lt -> key_compare x z = Lt;
}.

Definition omap (K V : Type) : Type := list (K * V).

Section ops.
Context {K : Type} {O : KeyOrder K} {V : Type}.
Implicit Types (m : list (K * V)) (k : K) (v : V).

Fixpoint omap_find k m : option V :=
  match m with
  | [] => None
  | (k', v') :: m' =>
    match key_compare k k' with Eq => Some v' | _ => omap_find k m' end
  end.

Definition omap_count k m : bool := bool_decide (is_Some (omap_find k m)).

Fixpoint omap_insert k v m : list (K * V) :=
  match m with
  | [] => [(k, v)]
  | (k', v') :: m' =>
    match key_compare k k' with
    | Lt => (k, v) :: m
    | Eq => (k, v) :: m'
    | Gt => (k', v') :: omap_insert k v m'
    end
  end.

Definition omap_emplace k v m : list (K * V) :=
  match omap_find k m with Some _ => m | None => omap_insert k v m end.

Fixpoint omap_delete k m : list (K * V) :=
  match m with
  | [] => []
  | (k', v') :: m' =>
    match key_compare k k' with Eq => omap_delete k m' | _ => (k', v') :: omap_delete k m' end
  end.

Definition omap_keys m : list K := m.*1.

Definition entry_lt (x y : K * V) : Prop := key_compare x.1 y.1 = Lt.
Definition omap_wf m : Prop := StronglySorted entry_lt m.
End ops.

Section laws.
Context {K : Type} {O : KeyOrder K} {OK : KeyOrderOk K} {V : Type}.
Implicit Types (m : list (K * V)) (k : K) (v : V).

Lemma key_compare_refl k : key_compare k k = Eq.
Proof. by apply key_compare_eq. Qed.

Lemma key_compare_ne k k' : k <> k' -> key_compare k k' <> Eq.
Proof. by intros Hne ?%key_compare_eq. Qed.

Lemma key_compare_gt k k' : key_compare k k' = Gt -> key_compare k' k = Lt.
Proof. intros H. rewrite key_compare_antisym, H. done. Qed.

Lemma omap_find_insert_eq k v m : omap_find k (omap_insert k v m) = Some v.
Proof.
  induction m as [|[k' v'] m IH]; cbn; [by rewrite key_compare_refl|].
  destruct (key_compare k k') eqn:E; cbn; rewrite ?key_compare_refl; try done.
  by rewrite E.
Qed.

Lemma omap_find_insert_ne k k' v m :
  k <> k' -> omap_find k' (omap_insert k v m) = omap_find k' m.
Proof.
  intros Hne. assert (Hne' : key_compare k' k <> Eq) by (apply key_compare_ne; done).
  induction m as [|[k1 v1] m IH]; cbn.
  - destruct (key_compare k' k); done.
  - destruct (key_compare k k1) eqn:E; cbn.
    + apply key_compare_eq in E as <-. destruct (key_compare k' k); done.
    + destruct (key_compare k' k); done.
    + destruct (key_compare k' k1); done.
Qed.

Lemma omap_find_insert k k' v m :
  omap_find k' (omap_insert k v m) =
    match key_compare k k' with Eq => Some v | _ => omap_find k' m end.
Proof.
  destruct (key_compare k k') eqn:E.
  - apply key_compare_eq in E as <-. apply omap_find_insert_eq.
  - apply omap_find_insert_ne. intros ->. by rewrite key_compare_refl in E.
  - apply omap_find_insert_ne. intros ->. by rewrite key_compare_refl in E.
Qed.

Lemma elem_of_omap_insert k v m x :
  x ∈ omap_insert k v m -> x = (k, v) \/ x ∈ m.
Proof.
  induction m as [|[k1 v1] m IH]; cbn; [set_solver|].
  destruct (key_compare k k1) eqn:E; [set_solver..|].
  intros [->|Hx]%elem_of_cons; [set_solver|]. destruct (IH Hx); set_solver.
Qed.

Lemma omap_wf_nil : omap_wf (V:=V) [].
Proof. constructor. Qed.

Lemma omap_wf_cons k v m :
  omap_wf ((k, v) :: m) <->
  omap_wf m /\ forall k' v', (k', v') ∈ m -> key_compare k k' = Lt.
Proof.
  unfold omap_wf. split.
  - intros [Hm Hall]%StronglySorted_inv. split; [done|].
    rewrite list.Forall_forall in Hall. intros k' v' Hin. apply (Hall _ Hin).
  - intros [Hm Hall]. constructor; [done|]. apply list.Forall_forall.
    intros [k' v'] Hin. by eapply Hall.
Qed.

Lemma omap_insert_wf k v m : omap_wf m -> omap_wf (omap_insert k v m).
Proof.
  induction m as [|[k1 v1] m IH]; cbn.
  - intros _. apply omap_wf_cons. split; [constructor|]. intros ??. by intros ?%elem_of_nil.
  - intros Hwf. pose proof Hwf as [Hm Hall]%omap_wf_cons.
    destruct (key_compare k k1) eqn:E; apply omap_wf_cons.
    + apply key_compare_eq in E as <-. done.
    + split; [done|]. intros k' v' [[= -> ->]|Hin]%elem_of_cons; [done|].
      eapply key_compare_trans; [done|]. by eapply Hall.
    + split; [auto|]. intros k' v' [[= -> ->]|Hin]%elem_of_omap_insert.
      * by apply key_compare_gt.
      * by eapply Hall.
Qed.

Lemma omap_find_elem k v m : omap_find k m = Some v -> (k, v) ∈ m.
Proof.
  induction m as [|[k1 v1] m IH]; cbn; [done|].
  destruct (key_compare k k1) eqn:E.
  - apply key_compare_eq in E as <-. intros [= ->]. by left.
  - right. auto.
  - right. auto.
Qed.

Lemma omap_elem_find k v m : omap_wf m -> (k, v) ∈ m -> omap_find k m = Some v.
Proof.
  induction m as [|[k1 v1] m IH]; [by intros _ ?%elem_of_nil|].
  intros [Hm Hall]%omap_wf_cons [[= -> ->]|Hin]%elem_of_cons; cbn.
  - by rewrite key_compare_refl.
  - destruct (key_compare k k1) eqn:E; [|auto..].
    apply key_compare_eq in E as <-. specialize (Hall _ _ Hin).
    by rewrite key_compare_refl in Hall.
Qed.

Lemma omap_find_None k m : omap_find k m = None -> forall v, (k, v) ∉ m.
Proof.
  induction m as [|[k1 v1] m IH]; cbn; intros H v; [apply not_elem_of_nil|].
  destruct (key_compare k k1) eqn:E; [done|..];
    (apply not_elem_of_cons; split; [intros [= -> _]|by apply IH]);
    by rewrite key_compare_refl in E.
Qed.

(** Inserting a key larger than all others appends: a map written in key
    order and read back by insertions is rebuilt unchanged. *)
Lemma omap_insert_snoc k v m :
  (forall k' v', (k', v') ∈ m -> key_compare k' k = Lt) ->
  omap_insert k v m = m ++ [(k, v)].
Proof.
  induction m as [|[k1 v1] m IH]; cbn; intros Hall; [done|].
  assert (E : key_compare k k1 = Gt).
  { rewrite key_compare_antisym, (Hall k1 v1); [done|by left]. }
  rewrite E. f_equal. apply IH. intros ???. eapply Hall. by right.
Qed.

Lemma omap_emplace_snoc k v m :
  (forall k' v', (k', v') ∈ m -> key_compare k' k = Lt) ->
  omap_emplace k v m = m ++ [(k, v)].
Proof.
  intros Hall. unfold omap_emplace. destruct (omap_find k m) eqn:E.
  - apply omap_find_elem in E. specialize (Hall _ _ E).
    by rewrite key_compare_refl in Hall.
  - by apply omap_insert_snoc.
Qed.

Lemma omap_wf_app_inv m1 m2 x y :
  omap_wf (m1 ++ m2) -> x ∈ m1 -> y ∈ m2 -> entry_lt x y.
Proof.
  intros Hwf Hx Hy. induction m1 as [|[k1 v1] m1 IH]; [by apply elem_of_nil in Hx|].
  cbn in Hwf. apply omap_wf_cons in Hwf as [Hwf Hall].
  apply elem_of_cons in Hx as [->|Hx]; [|auto].
  destruct y as [k2 v2]. eapply Hall. apply elem_of_app. by right.
Qed.

Lemma omap_emplace_wf k v m : omap_wf m -> omap_wf (omap_emplace k v m).
Proof. unfold omap_emplace. destruct (omap_find k m); auto using omap_insert_wf. Qed.

Lemma omap_wf_NoDup_keys m : omap_wf m -> NoDup (omap_keys m).
Proof.
  induction m as [|[k v] m IH]; cbn; [constructor|].
  intros [Hm Hall]%omap_wf_cons. constructor; [|auto].
  intros ([k' v'] & -> & Hin)%list_elem_of_fmap. cbn in *. specialize (Hall _ _ Hin).
  by rewrite key_compare_refl in Hall.
Qed.

Lemma omap_find_keys k m : omap_wf m -> is_Some (omap_find k m) <-> k ∈ omap_keys m.
Proof.
  intros Hwf. split.
  - intros [v Hv%omap_find_elem]. apply list_elem_of_fmap. by exists (k, v).
  - intros ([k' v] & -> & Hin)%list_elem_of_fmap. exists v. by apply omap_elem_find.
Qed.

Lemma omap_wf_sorted_keys {W} (m : list (K * V)) (m' : list (K * W)) :
  m.*1 = m'.*1 -> omap_wf m -> omap_wf m'.
Proof.
  revert m'. induction m as [|[k v] m IH]; intros [|[k' w] m'] E Hwf; try done; [constructor|].
  injection E as <- E. apply omap_wf_cons in Hwf as [Hm Hall].
  constructor; [by apply (IH m')|]. apply list.Forall_forall. intros [k2 w2] Hin.
  assert (Hk : k2 ∈ m.*1).
  { change (m.*1 = m'.*1) in E. rewrite E. by apply (list_elem_of_fmap_2 fst m' (k2, w2)). }
  apply list_elem_of_fmap in Hk as ([k3 v3] & -> & Hin3). by eapply Hall.
Qed.

(** Replacing the value of a present key keeps the keys and their order. *)
Lemma omap_insert_keys k v m :
  omap_wf m -> is_Some (omap_find k m) ->
  omap_keys (omap_insert k v m) = omap_keys m.
Proof.
  induction m as [|[k1 v1] m IH]; cbn; [by intros _ [? ?]|].
  intros [Hm Hall]%omap_wf_cons Hs. destruct (key_compare k k1) eqn:E; cbn.
  - by apply key_compare_eq in E as <-.
  - destruct Hs as [v' Hs%omap_find_elem]. specialize (Hall _ _ Hs).
    pose proof (key_compare_trans _ _ _ E Hall) as Hc.
    by rewrite key_compare_refl in Hc.
  - f_equal. auto.
Qed.

Lemma elem_of_omap_delete k m x : x ∈ omap_delete k m -> x ∈ m /\ x.1 <> k.
Proof.
  induction m as [|[k1 v1] m IH]; cbn; [by intros ?%elem_of_nil|].
  destruct (key_compare k k1) eqn:E.
  - intros [H Hk]%IH. split; [by right|done].
  - intros [->|[H Hk]%IH]%elem_of_cons; (split; [set_solver|]); [|done].
    cbn. intros ->. by rewrite key_compare_refl in E.
  - intros [->|[H Hk]%IH]%elem_of_cons; (split; [set_solver|]); [|done].
    cbn. intros ->. by rewrite key_compare_refl in E.
Qed.

Lemma omap_delete_wf k m : omap_wf m -> omap_wf (omap_delete k m).
Proof.
  induction m as [|[k1 v1] m IH]; [done|]. intros [Hm Hall]%omap_wf_cons. cbn.
  destruct (key_compare k k1); [by apply IH|..]; (apply omap_wf_cons; split; [by apply IH|]);
    intros k' v' [Hin _]%elem_of_omap_delete; by eapply Hall.
Qed.

Lemma omap_find_delete_eq k m : omap_find k (omap_delete k m) = None.
Proof. induction m as [|[k1 v1] m IH]; [done|]. cbn. destruct (key_compare k k1) eqn:E; [done|..]; cbn; by rewrite E. Qed.

Lemma omap_find_delete_ne k k' m : k' <> k -> omap_find k' (omap_delete k m) = omap_find k' m.
Proof.
  intros Hne. induction m as [|[k1 v1] m IH]; [done|]. cbn. destruct (key_compare k k1) eqn:E; cbn; rewrite ?IH.
  - apply key_compare_eq in E as <-. by destruct (key_compare k' k) eqn:E; [apply key_compare_eq in E|..].
  - done.
  - done.
Qed.
(** Maps with the same entries are the same. *)
Lemma omap_ext (m m' : omap K V) : omap_wf m -> omap_wf m' -> (forall k, omap_find k m = omap_find k m') -> m = m'.
Proof.
  intros H H' He. assert (Ha : AntiSymm eq (entry_lt (V:=V))).
  { intros x y Hx Hy. exfalso. unfold entry_lt in *. pose proof (key_compare_trans _ _ _ Hx Hy) as E. by rewrite key_compare_refl in E. }
  apply (StronglySorted_unique entry_lt); [done..|].
  assert (Hs : forall l : omap K V, omap_wf l -> NoDup l) by (intros l Hl; by apply (NoDup_fmap_1 fst), omap_wf_NoDup_keys).
  apply NoDup_Permutation; [by apply Hs..|]. intros [k v]. split; intros Hk; apply omap_find_elem.
  - rewrite <- He. by apply omap_elem_find.
  - rewrite He. by apply omap_elem_find.
Qed.
End laws.

#[export] Hint Resolve omap_wf_nil omap_insert_wf omap_emplace_wf : kyber.

(** ** The key types the code uses *)

#[export] Instance Z_key_order : KeyOrder Z := Z.compare.
#[export] Instance Z_key_order_ok : KeyOrderOk Z.
Proof.
  split; unfold key_compare, Z_key_order.
  - apply Z.compare_eq_iff.
  - intros. apply Z.compare_antisym.
  - intros x y z. rewrite !Z.compare_lt_iff. lia.
Qed.

(** The keys of a map over numbers ascend; a list that ascends is known by its
    elements. *)
Lemma omap_keys_sorted {V} (m : omap Z V) : omap_wf m -> StronglySorted Z.lt (omap_keys m).
Proof.
  induction 1 as [|[k v] m _ IH Hall]; [constructor|]. constructor; [done|]. apply Forall_fmap.
  eapply list.Forall_impl; [exact Hall|]. intros [k' v'] H. by apply Z.compare_lt_iff.
Qed.

Lemma ascending_ext (l l' : list Z) :
  StronglySorted Z.lt l -> StronglySorted Z.lt l' -> (forall x, x ∈ l <-> x ∈ l') -> l = l'.
Proof.
  assert (Hnd : forall k : list Z, StronglySorted Z.lt k -> NoDup k).
  { induction 1 as [|x k _ IH Hall]; constructor; [|done]. intros Hin. rewrite list.Forall_forall in Hall. specialize (Hall x Hin). lia. }
  intros H H' Hx. assert (AntiSymm (=) Z.lt) by (intros x y; lia).
  eapply (StronglySorted_unique Z.lt); [done..|]. apply NoDup_Permutation; auto.
Qed.

(** [memcmp] order on bytes, lexicographic: [std::string]'s [<] and [Guid]'s. *)
Fixpoint bytes_compare (xs ys : list byte) : comparison :=
  match xs, ys with
  | [], [] => Eq
  | [], _ => Lt
  | _, [] => Gt
  | x :: xs', y :: ys' =>
    match byte.compare x y with Eq => bytes_compare xs' ys' | c => c end
  end.

Lemma byte_compare_eq x y : byte.compare x y = Eq <-> x = y.
Proof.
  unfold byte.compare. rewrite Z.compare_eq_iff. split; [apply byte.unsigned_inj|by intros ->].
Qed.

#[export] Instance bytes_key_order : KeyOrder (list byte) := bytes_compare.
#[export] Instance bytes_key_order_ok : KeyOrderOk (list byte).
Proof.
  split; unfold key_compare, bytes_key_order.
  - induction x as [|x xs IH]; intros [|y ys]; cbn; try done.
    destruct (byte.compare x y) eqn:E; split; try done.
    + apply byte_compare_eq in E as <-. intros H%IH. by subst.
    + intros [= -> ->]. by apply IH.
    + intros [= -> ->]. by rewrite (proj2 (byte_compare_eq _ _) eq_refl) in E.
    + intros [= -> ->]. by rewrite (proj2 (byte_compare_eq _ _) eq_refl) in E.
  - induction x as [|x xs IH]; intros [|y ys]; cbn; try done.
    unfold byte.compare. rewrite Z.compare_antisym.
    destruct (Z.compare (byte.unsigned x) (byte.unsigned y)); cbn; auto.
  - induction x as [|x xs IH]; intros [|y ys] [|z zs]; cbn; try done.
    unfold byte.compare.
    destruct (Z.compare_spec (byte.unsigned x) (byte.unsigned y));
    destruct (Z.compare_spec (byte.unsigned y) (byte.unsigned z));
    destruct (Z.compare_spec (byte.unsigned x) (byte.unsigned z)); try done; try lia; eauto.
Qed.
