(* ===== verification/ByteBuffer.v ===== *)
(** [bb::ByteBuffer] (Module/ThirdParty/ByteBuffer): the byte buffer every
    binary format of the module is read from and written to.

    The vector is a [list byte]; the two positions are [uint32_t], so they wrap
    at 2^32.  Numbers are little-endian in memory ([memcpy] of a [T] on the
    x64 target).  Checked reads ([read]) give 0 past the end and still advance;
    unchecked reads ([readUnsafe]) past the end are [Undefined]. *)

From S2P Require Import Prelude.

Abbreviation len l := (Z.of_nat (length l)).

Record ByteBuffer := mkBB {
  bb_buf : list byte;
  bb_rpos : Z;
  bb_wpos : Z;
}.

Definition bb_empty : ByteBuffer := mkBB [] 0 0.

Definition bb_size (b : ByteBuffer) : Z := u32 (len (bb_buf b)).
Definition bb_bytesRemaining (b : ByteBuffer) : Z := u32 (bb_size b - bb_rpos b).

Definition bb_setReadPos (r : Z) (b : ByteBuffer) : ByteBuffer := mkBB (bb_buf b) (u32 r) (bb_wpos b).
Definition bb_setWritePos (w : Z) (b : ByteBuffer) : ByteBuffer := mkBB (bb_buf b) (bb_rpos b) (u32 w).

(** ** Reading *)

Definition slice (i n : nat) (l : list byte) : list byte := take n (drop i l).

(** [read<T>(index)] with [sizeof(T) = n]. *)
Definition bb_read_at (n : nat) (i : Z) (b : ByteBuffer) : Z :=
  if i + Z.of_nat n <=? len (bb_buf b) then le_combine (slice (Z.to_nat i) n (bb_buf b)) else 0.

(** A reader is a function of the buffer; [mbind] threads the buffer. *)
Definition Rd (A : Type) : Type := ByteBuffer -> result (A * ByteBuffer).

#[export] Instance Rd_ret : MRet Rd := fun A a b => Ok (a, b).
#[export] Instance Rd_bind : MBind Rd := fun A B f m b =>
  match m b with Ok (a, b') => f a b' | Fault e => Fault e end.

Definition Rd_fault {A} (e : fault) : Rd A := fun _ => Fault e.
Definition Rd_modify (f : ByteBuffer -> ByteBuffer) : Rd unit := fun b => Ok (tt, f b).
Definition Rd_lift {A} (r : result A) : Rd A := fun b =>
  match r with Ok a => Ok (a, b) | Fault e => Fault e end.
Definition Rd_gets {A} (f : ByteBuffer -> A) : Rd A := fun b => Ok (f b, b).

(** [read<T>()]: checked, relative. *)
Definition bb_read (n : nat) : Rd Z := fun b =>
  Ok (bb_read_at n (bb_rpos b) b,
      mkBB (bb_buf b) (u32 (bb_rpos b + Z.of_nat n)) (bb_wpos b)).

(** [readUnsafe<T>()]: unchecked, relative. *)
Definition bb_readUnsafe (n : nat) : Rd Z := fun b =>
  if bb_rpos b + Z.of_nat n <=? len (bb_buf b) then bb_read n b else Fault Undefined.

(** [n] times the same reader: the counted loops. *)
Fixpoint Rd_repeat {A} (n : nat) (m : Rd A) : Rd (list A) :=
  match n with
  | O => mret []
  | S n' => x ← m; xs ← Rd_repeat n' m; mret (x :: xs)
  end.

Lemma Rd_bind_ok {A B} (m : Rd A) (f : A -> Rd B) b a b' : m b = Ok (a, b') -> (m ≫= f) b = f a b'.
Proof. unfold mbind, Rd_bind. by intros ->. Qed.

Definition bb_get : Rd Z := bb_read 1.
Definition bb_getShort : Rd Z := bb_read 2.
Definition bb_getInt : Rd Z := bb_read 4.
Definition bb_getLong : Rd Z := bb_read 8.

Fixpoint bb_getBytes (n : nat) : Rd (list byte) :=
  match n with
  | O => mret []
  | S n' => b ← bb_get; bs ← bb_getBytes n'; mret (byte.of_Z b :: bs)
  end.

(** The prefix of a C string before its terminator. *)
Fixpoint find_nul (l : list byte) : option nat :=
  match l with
  | [] => None
  | b :: l' => if decide (b = Byte.x00) then Some 0%nat else S <$> find_nul l'
  end.

Definition bb_getNullTerminatedString : Rd (list byte) := fun b =>
  let rest := drop (Z.to_nat (bb_rpos b)) (bb_buf b) in
  match find_nul rest with
  | Some k => Ok (take k rest, mkBB (bb_buf b) (u32 (bb_rpos b + Z.of_nat k + 1)) (bb_wpos b))
  | None => Fault Undefined
  end.

(** The two wide readers read checked units until a zero unit; [w] is the size
    of a unit (2 for [char16_t], 1 for [char]). *)
Fixpoint bb_readUnits (fuel : nat) (w : nat) : Rd (list Z) :=
  match fuel with
  | O => Rd_fault OutOfFuel
  | S fuel' =>
    c ← bb_read w;
    if c =? 0 then mret [] else s ← bb_readUnits fuel' w; mret (c :: s)
  end.

Definition bb_getNullTerminatedWideString : Rd (list Z) := fun b =>
  bb_readUnits (S (length (bb_buf b))) 2 b.

(** [s += (char16_t)c] with a [char c]: the value is sign-extended. *)
Definition char_to_char16 (c : Z) : Z := u16 (swrap 8 c).
Definition bb_getNullTerminatedWideStringAsAscii : Rd (list Z) := fun b =>
  match bb_readUnits (S (length (bb_buf b))) 1 b with
  | Ok (s, b') => Ok (char_to_char16 <$> s, b')
  | Fault e => Fault e
  end.

(** ** Writing *)

Definition bytes_resize (n : nat) (l : list byte) : list byte :=
  take n l ++ replicate (n - length l) Byte.x00.

(** [memcpy(&buf[i], src, n)] *)
Definition bytes_overwrite (i : nat) (src l : list byte) : list byte :=
  take i l ++ src ++ drop (i + length src) l.

(** [append] and [putBytes]: [memcpy] at the write position, after growing the
    vector. *)
Definition bb_append (src : list byte) (b : ByteBuffer) : ByteBuffer :=
  let need := u32 (bb_wpos b + len src) in
  let buf := if bb_size b <? need then bytes_resize (Z.to_nat need) (bb_buf b) else bb_buf b in
  mkBB (bytes_overwrite (Z.to_nat (bb_wpos b)) src buf) (bb_rpos b) need.

Definition bb_putBytes := bb_append.
Definition bb_put (v : Z) : ByteBuffer -> ByteBuffer := bb_append (le_split 1 v).
Definition bb_putShort (v : Z) : ByteBuffer -> ByteBuffer := bb_append (le_split 2 v).
Definition bb_putInt (v : Z) : ByteBuffer -> ByteBuffer := bb_append (le_split 4 v).
Definition bb_putLong (v : Z) : ByteBuffer -> ByteBuffer := bb_append (le_split 8 v).

(** [put(ByteBuffer* src)]: the bytes of [src], one by one. *)
Definition bb_putBuffer (src : ByteBuffer) (b : ByteBuffer) : ByteBuffer :=
  foldl (fun acc x => bb_append [x] acc) b (bb_buf src).

(** [strlen]-bounded prefix of a string whose [c_str()] is passed. *)
Definition c_str (s : list byte) : list byte :=
  match find_nul s with Some k => take k s | None => s end.

Definition bb_putNullTerminatedString (s : list byte) (b : ByteBuffer) : ByteBuffer :=
  bb_put 0 (foldl (fun acc x => bb_append [x] acc) b (c_str s)).

(** Each [wchar_t] is truncated to a byte; the first zero byte ends the loop.
    A [std::wstring]'s [c_str()] ends with a zero unit. *)
Fixpoint bb_putNullTerminatedWideString (s : list Z) (b : ByteBuffer) : ByteBuffer :=
  match s with
  | [] => bb_put 0 b
  | c :: s' =>
    if u8 c =? 0 then bb_put 0 b
    else bb_putNullTerminatedWideString s' (bb_put (u8 c) b)
  end.

(** ** Laws of reading

    [cur pre rest w] is the buffer [pre ++ rest] read up to the end of [pre]. *)

Definition cur (pre rest : list byte) (w : Z) : ByteBuffer := mkBB (pre ++ rest) (len pre) w.

Definition fits (l : list byte) : Prop := len l < 2 ^ 32.

Lemma fits_app_l l k : fits (l ++ k) -> fits l.
Proof. unfold fits. rewrite length_app. lia. Qed.
Lemma fits_app_r l k : fits (l ++ k) -> fits k.
Proof. unfold fits. rewrite length_app. lia. Qed.

Lemma fits_u32 l : fits l -> u32 (len l) = len l.
Proof. intros H. apply uwrap_small. unfold fits, urange in *. lia. Qed.

Ltac fits :=
  unfold fits in *;
  repeat first [progress cbn [length app] in * | progress rewrite ?length_app in *
               | progress rewrite ?length_le_split in *];
  lia.

Lemma cur_assoc pre bs rest w : cur pre (bs ++ rest) w = mkBB ((pre ++ bs) ++ rest) (len pre) w.
Proof. unfold cur. by rewrite <- app_assoc. Qed.

Lemma slice_app pre bs rest : slice (length pre) (length bs) (pre ++ bs ++ rest) = bs.
Proof. unfold slice. by rewrite drop_app_length, take_app_length. Qed.

Lemma bb_read_cur n pre bs rest w :
  length bs = n -> fits (pre ++ bs ++ rest) ->
  bb_read n (cur pre (bs ++ rest) w) = Ok (le_combine bs, cur (pre ++ bs) rest w).
Proof.
  intros <- Hf. unfold bb_read, bb_read_at, cur; cbn [bb_buf bb_rpos bb_wpos].
  rewrite Nat2Z.id, slice_app, <- app_assoc.
  destruct (Z.leb_spec (len pre + len bs) (len (pre ++ bs ++ rest))) as [_|Hc];
    [|rewrite !length_app in Hc; lia].
  rewrite uwrap_small by (unfold urange; fits). do 3 f_equal. rewrite length_app. lia.
Qed.

Lemma bb_readUnsafe_cur n pre bs rest w :
  length bs = n -> fits (pre ++ bs ++ rest) ->
  bb_readUnsafe n (cur pre (bs ++ rest) w) = Ok (le_combine bs, cur (pre ++ bs) rest w).
Proof.
  intros Hn Hf. unfold bb_readUnsafe. cbn [bb_buf bb_rpos cur].
  destruct (Z.leb_spec (len pre + Z.of_nat n) (len (pre ++ bs ++ rest))) as [_|Hc].
  - by apply bb_read_cur.
  - exfalso. rewrite !length_app in Hc. lia.
Qed.

(** A checked read past the end gives zero. *)
Lemma bb_read_at_end n b :
  len (bb_buf b) < bb_rpos b + Z.of_nat n ->
  bb_read n b = Ok (0, mkBB (bb_buf b) (u32 (bb_rpos b + Z.of_nat n)) (bb_wpos b)).
Proof.
  intros H. unfold bb_read, bb_read_at.
  by destruct (Z.leb_spec (bb_rpos b + Z.of_nat n) (len (bb_buf b))); [lia|].
Qed.

Lemma le_split_1_byte x : le_split 1 (byte.unsigned x) = [x].
Proof. cbn. unfold le_split. by rewrite byte.of_Z_unsigned. Qed.

Lemma bb_getBytes_cur pre bs rest w :
  fits (pre ++ bs ++ rest) ->
  bb_getBytes (length bs) (cur pre (bs ++ rest) w) = Ok (bs, cur (pre ++ bs) rest w).
Proof.
  revert pre. induction bs as [|b bs IH]; intros pre Hf.
  - cbn. unfold mret, Rd_ret. by rewrite app_nil_r.
  - cbn [length bb_getBytes app]. unfold mbind, Rd_bind, bb_get.
    change (b :: bs ++ rest) with ([b] ++ (bs ++ rest)).
    rewrite bb_read_cur by (done || (cbn; fits)).
    rewrite IH by (revert Hf; rewrite <- app_assoc; cbn; done).
    rewrite le_combine_1, byte.of_Z_unsigned, <- app_assoc. done.
Qed.

Lemma find_nul_app s rest :
  Byte.x00 ∉ s -> find_nul (s ++ Byte.x00 :: rest) = Some (length s).
Proof.
  induction s as [|c s IH]; cbn; [by rewrite decide_True|].
  intros [Hc Hs]%not_elem_of_cons. rewrite decide_False by done.
  by rewrite IH by done.
Qed.

Lemma find_nul_None s : Byte.x00 ∉ s -> find_nul s = None.
Proof.
  induction s as [|c s IH]; cbn; [done|].
  intros [Hc Hs]%not_elem_of_cons. rewrite decide_False by done. by rewrite IH by done.
Qed.

Lemma c_str_no_nul s : Byte.x00 ∉ c_str s.
Proof.
  unfold c_str. induction s as [|b s IH]; cbn [find_nul]; [apply not_elem_of_nil|].
  destruct (decide (b = Byte.x00)) as [->|Hb]; [apply not_elem_of_nil|].
  destruct (find_nul s); cbn [fmap option_fmap option_map take]; by apply not_elem_of_cons.
Qed.

Lemma c_str_id s : Byte.x00 ∉ s -> c_str s = s.
Proof. intros H. unfold c_str. by rewrite find_nul_None. Qed.

Lemma bb_getNullTerminatedString_cur pre s rest w :
  Byte.x00 ∉ s -> fits (pre ++ s ++ Byte.x00 :: rest) ->
  bb_getNullTerminatedString (cur pre (s ++ Byte.x00 :: rest) w)
    = Ok (s, cur (pre ++ s ++ [Byte.x00]) rest w).
Proof.
  intros Hs Hf. unfold bb_getNullTerminatedString, cur; cbn [bb_buf bb_rpos bb_wpos].
  rewrite Nat2Z.id, drop_app_length, find_nul_app by done.
  rewrite take_app_length, uwrap_small by (unfold urange; fits).
  do 3 f_equal; [by rewrite <- !app_assoc|]. rewrite !length_app; cbn. lia.
Qed.

(** ** Laws of writing

    [wr l] is a buffer holding [l], about to be appended to. *)

Definition wr (l : list byte) : ByteBuffer := mkBB l 0 (len l).

Lemma bb_append_wr l bs : fits (l ++ bs) -> bb_append bs (wr l) = wr (l ++ bs).
Proof.
  intros Hf. unfold bb_append, wr, bb_size; cbn [bb_buf bb_wpos bb_rpos].
  rewrite (fits_u32 l) by (by eapply fits_app_l).
  rewrite uwrap_small by (unfold urange; fits).
  f_equal; [|rewrite length_app; lia].
  unfold bytes_overwrite, bytes_resize. rewrite Nat2Z.id.
  destruct bs as [|b bs].
  - cbn [length]. rewrite Z.add_0_r, Z.ltb_irrefl, Nat.add_0_r.
    by rewrite app_nil_l, take_drop, app_nil_r.
  - destruct (Z.ltb_spec (len l) (len l + len (b :: bs))) as [_|Hc]; [|cbn in Hc; lia].
    set (n := Z.to_nat _). assert (Hn : n = (length l + length (b :: bs))%nat) by (subst n; lia).
    rewrite Hn, (take_ge l) by lia.
    rewrite take_app_length, drop_ge, app_nil_r; [done|].
    rewrite length_app, length_replicate. lia.
Qed.

Lemma byte_of_u8 v : byte.of_Z (u8 v) = byte.of_Z v.
Proof.
  apply byte.unsigned_inj. rewrite !byte.unsigned_of_Z. unfold byte.wrap, uwrap.
  by rewrite Z.mod_mod.
Qed.

Lemma le_split_1 v : le_split 1 v = [byte.of_Z v].
Proof. done. Qed.

Lemma bb_put_wr v l : fits (l ++ [byte.of_Z v]) -> bb_put v (wr l) = wr (l ++ [byte.of_Z v]).
Proof. intros H. unfold bb_put. rewrite le_split_1. by apply bb_append_wr. Qed.

Lemma foldl_append_wr l bs :
  fits (l ++ bs) -> foldl (fun acc x => bb_append [x] acc) (wr l) bs = wr (l ++ bs).
Proof.
  revert l. induction bs as [|b bs IH]; intros l Hf; cbn; [by rewrite app_nil_r|].
  rewrite bb_append_wr by fits. rewrite IH by (rewrite <- app_assoc; done).
  by rewrite <- app_assoc.
Qed.

Lemma bb_putBytes_wr l bs : fits (l ++ bs) -> bb_putBytes bs (wr l) = wr (l ++ bs).
Proof. apply bb_append_wr. Qed.

Lemma putLong_wr v l : fits (l ++ le_split 8 v) -> bb_putLong v (wr l) = wr (l ++ le_split 8 v).
Proof. apply bb_append_wr. Qed.
Lemma putInt_wr v l : fits (l ++ le_split 4 v) -> bb_putInt v (wr l) = wr (l ++ le_split 4 v).
Proof. apply bb_append_wr. Qed.
Lemma putShort_wr v l : fits (l ++ le_split 2 v) -> bb_putShort v (wr l) = wr (l ++ le_split 2 v).
Proof. apply bb_append_wr. Qed.

(** A loop of writes is the bytes of its elements. *)
Lemma foldl_wr {A} (put : ByteBuffer -> A -> ByteBuffer) (enc : A -> list byte) xs l :
  (forall x l, x ∈ xs -> fits (l ++ enc x) -> put (wr l) x = wr (l ++ enc x)) ->
  fits (l ++ mjoin (enc <$> xs)) -> foldl put (wr l) xs = wr (l ++ mjoin (enc <$> xs)).
Proof.
  intros H. revert l. induction xs as [|x xs IH]; intros l Hf; [by rewrite app_nil_r|].
  change (mjoin (enc <$> x :: xs)) with (enc x ++ mjoin (enc <$> xs)) in *. cbn [foldl].
  rewrite H; [|by left|fits]. rewrite IH; [by rewrite <- app_assoc| |by rewrite <- app_assoc].
  intros y k Hy. apply H. by right.
Qed.

Lemma bb_putNullTerminatedString_wr l s :
  Byte.x00 ∉ s -> fits (l ++ s ++ [Byte.x00]) ->
  bb_putNullTerminatedString s (wr l) = wr (l ++ s ++ [Byte.x00]).
Proof.
  intros Hs Hf. unfold bb_putNullTerminatedString. rewrite c_str_id by done.
  rewrite foldl_append_wr by fits. unfold bb_put.
  rewrite bb_append_wr; [by rewrite <- app_assoc|]. fits.
Qed.

(** Overwriting a field inside the buffer. *)
Lemma bytes_overwrite_mid pre old post src :
  length src = length old ->
  bytes_overwrite (length pre) src (pre ++ old ++ post) = pre ++ src ++ post.
Proof.
  intros Hl. unfold bytes_overwrite. rewrite take_app_length. do 2 f_equal.
  rewrite Hl, app_assoc. rewrite drop_app_ge by (rewrite length_app; lia).
  replace _ with 0%nat by (rewrite length_app; lia). done.
Qed.

Lemma bb_append_mid pre old post src r :
  length src = length old -> fits (pre ++ old ++ post) ->
  bb_append src (mkBB (pre ++ old ++ post) r (len pre))
    = mkBB (pre ++ src ++ post) r (len (pre ++ src)).
Proof.
  intros Hl Hf. unfold bb_append, bb_size; cbn [bb_buf bb_wpos bb_rpos].
  rewrite fits_u32, uwrap_small by (unfold urange; fits || done).
  destruct (Z.ltb_spec (len (pre ++ old ++ post)) (len pre + len src)) as [Hc|_];
    [rewrite !length_app in Hc; lia|].
  rewrite Nat2Z.id, bytes_overwrite_mid by done. f_equal. rewrite length_app. lia.
Qed.

(** ** Values through memory *)

Lemma le_combine_split_u n v : le_combine (le_split n v) = uwrap (Z.of_nat n * 8) v.
Proof. apply le_combine_split. Qed.

Lemma le_combine_split_small n v :
  urange (Z.of_nat n * 8) v -> le_combine (le_split n v) = v.
Proof. intros H. rewrite le_combine_split_u. by apply uwrap_small. Qed.

(** ** Termination of the wide readers

    Each unit read inside the buffer advances by its size, and the first read
    past the end gives the terminator. *)
Lemma bb_readUnits_total fuel w b :
  (0 < w)%nat -> 0 <= bb_rpos b -> len (bb_buf b) + Z.of_nat w < 2 ^ 32 ->
  len (bb_buf b) < bb_rpos b + Z.of_nat fuel ->
  (0 < fuel)%nat -> is_ok (bb_readUnits fuel w b) = true.
Proof.
  intros Hw. revert b. induction fuel as [|fuel IH]; intros b Hr Hlen Hfuel Hpos; [lia|].
  cbn. unfold mbind, Rd_bind.
  destruct (Z.leb_spec (bb_rpos b + Z.of_nat w) (len (bb_buf b))) as [Hin|Hout].
  - unfold bb_read. rewrite uwrap_small by (unfold urange; lia).
    destruct (_ =? 0); [done|].
    specialize (IH (mkBB (bb_buf b) (bb_rpos b + Z.of_nat w) (bb_wpos b))).
    cbn in IH. destruct (bb_readUnits fuel w _) as [[s b']|e]; [done|].
    apply IH; lia.
  - rewrite bb_read_at_end by lia. done.
Qed.

(** ** Parsing at a position of a fixed buffer

    [parses D w m bs a]: wherever the bytes [bs] stand in [D], the reader [m]
    started on them gives [a] and stops after them. *)

Definition parses {A} (D : list byte) (w : Z) (m : Rd A) (bs : list byte) (a : A) : Prop :=
  forall pre rest, D = pre ++ bs ++ rest ->
    m (mkBB D (len pre) w) = Ok (a, mkBB D (len (pre ++ bs)) w).

Section parses.
Context (D : list byte) (w : Z) (HD : fits D).

Lemma parses_ret {A} (a : A) : parses D w (mret a) [] a.
Proof. intros pre rest _. by rewrite app_nil_r. Qed.

Lemma parses_bind {A B} (m : Rd A) (f : A -> Rd B) bs1 bs2 a b :
  parses D w m bs1 a -> parses D w (f a) bs2 b -> parses D w (m ≫= f) (bs1 ++ bs2) b.
Proof.
  intros Hm Hf pre rest HD'. unfold mbind, Rd_bind. rewrite <- app_assoc in HD'.
  rewrite (Hm pre (bs2 ++ rest)) by done. rewrite app_assoc.
  rewrite <- app_assoc. rewrite (Hf (pre ++ bs1) rest) by (by rewrite <- app_assoc).
  by rewrite <- app_assoc.
Qed.

Lemma parses_map {A B} (m : Rd A) (f : A -> B) bs a :
  parses D w m bs a -> parses D w (x ← m; mret (f x)) bs (f a).
Proof.
  intros Hm. rewrite <- (app_nil_r bs). eapply parses_bind; [done|]. apply parses_ret.
Qed.

Lemma parses_map_eq {A B} (m : Rd A) (f : A -> B) bs a b :
  parses D w m bs a -> f a = b -> parses D w (x ← m; mret (f x)) bs b.
Proof. intros Hm <-. by apply parses_map. Qed.

(** Running a reader that starts with one that parses. *)
Lemma parses_run {A B} (rd : Rd A) (f : A -> Rd B) bs a pre rest :
  parses D w rd bs a -> D = pre ++ bs ++ rest ->
  (rd ≫= f) (mkBB D (len pre) w) = f a (mkBB D (len (pre ++ bs)) w).
Proof. intros Hp Heq. unfold mbind, Rd_bind. by rewrite (Hp pre rest Heq). Qed.

Lemma parses_readUnsafe n bs : length bs = n -> parses D w (bb_readUnsafe n) bs (le_combine bs).
Proof.
  intros Hn pre rest HD'. subst D. etransitivity; [exact (bb_readUnsafe_cur n pre bs rest w Hn HD)|].
  unfold cur. by rewrite <- app_assoc.
Qed.

(** A checked number of [n] bytes. *)
Lemma parses_read n v : urange (Z.of_nat n * 8) v -> parses D w (bb_read n) (le_split n v) v.
Proof.
  intros Hv pre rest HD'. subst D. etransitivity; [exact (bb_read_cur n pre (le_split n v) rest w (length_le_split n v) HD)|].
  rewrite le_combine_split_small by done. unfold cur. by rewrite <- app_assoc.
Qed.

Lemma parses_getBytes bs : parses D w (bb_getBytes (length bs)) bs bs.
Proof.
  intros pre rest HD'. subst D. etransitivity; [exact (bb_getBytes_cur pre bs rest w HD)|].
  unfold cur. by rewrite <- app_assoc.
Qed.

Lemma parses_string s : Byte.x00 ∉ s -> parses D w bb_getNullTerminatedString (s ++ [Byte.x00]) s.
Proof.
  intros Hs pre rest HD'. rewrite <- app_assoc in HD'. subst D.
  etransitivity; [exact (bb_getNullTerminatedString_cur pre s rest w Hs HD)|].
  unfold cur. by rewrite <- !app_assoc.
Qed.

Lemma parses_repeat {I A} (rd : Rd A) (out : I -> A) (enc : I -> list byte) ixs :
  (forall i, i ∈ ixs -> parses D w rd (enc i) (out i)) ->
  parses D w (Rd_repeat (length ixs) rd) (mjoin (enc <$> ixs)) (out <$> ixs).
Proof.
  induction ixs as [|i ixs IH]; intros Hi; [apply parses_ret|].
  change (mjoin (enc <$> i :: ixs)) with (enc i ++ mjoin (enc <$> ixs)). cbn [length Rd_repeat].
  eapply parses_bind; [apply Hi; by left|]. apply (parses_map _ (fun xs => out i :: xs)), IH. intros j Hj. apply Hi. by right.
Qed.

Lemma parses_repeat_id {A} (rd : Rd A) (enc : A -> list byte) l :
  (forall x, x ∈ l -> parses D w rd (enc x) x) -> parses D w (Rd_repeat (length l) rd) (mjoin (enc <$> l)) l.
Proof. intros Hi. rewrite <- (list_fmap_id l) at 3. by apply parses_repeat. Qed.

Lemma parses_mapM {I A B} (f : A -> Rd B) (inp : I -> A) (out : I -> B) (enc : I -> list byte) ixs :
  Forall (fun i => parses D w (f (inp i)) (enc i) (out i)) ixs ->
  parses D w (mapM f (inp <$> ixs)) (mjoin (enc <$> ixs)) (out <$> ixs).
Proof.
  induction 1 as [|i ixs Hi _ IH]; [apply parses_ret|].
  change (mjoin (enc <$> i :: ixs)) with (enc i ++ mjoin (enc <$> ixs)).
  cbn. eapply parses_bind; [done|]. by apply parses_map.
Qed.
End parses.

Ltac parse_step H :=
  erewrite (parses_run _ _ _ _ _ _ _ _ H); [|rewrite <- ?app_assoc; eassumption].

(** A jump to the end of a prefix. *)
Lemma bb_jump D w A B r : fits D -> D = A ++ B -> bb_setReadPos (len A) (mkBB D r w) = mkBB D (len A) w.
Proof.
  intros HD ->. unfold bb_setReadPos. cbn [bb_buf bb_wpos]. rewrite uwrap_small; [done|]. unfold urange. fits.
Qed.

(** A jump reads the string standing at its target. *)
Lemma bb_jump_string D w s A B r :
  fits D -> D = A ++ s ++ Byte.x00 :: B -> Byte.x00 ∉ s ->
  bb_getNullTerminatedString (bb_setReadPos (len A) (mkBB D r w))
    = Ok (s, mkBB D (len (A ++ s ++ [Byte.x00])) w).
Proof.
  intros HD Heq Hs. unfold bb_setReadPos. cbn [bb_buf bb_wpos].
  rewrite uwrap_small by (unfold urange; rewrite Heq in HD; fits).
  apply (parses_string D w HD s Hs A B). by rewrite <- app_assoc.
Qed.

(** ** What readers give

    [post P m]: whatever the reader [m] gives satisfies [P], and it leaves the
    bytes of the buffer alone. *)

Definition post {A} (P : A -> Prop) (m : Rd A) : Prop :=
  forall b a b', m b = Ok (a, b') -> P a /\ bb_buf b' = bb_buf b /\ bb_wpos b' = bb_wpos b.

Lemma post_ret {A} (P : A -> Prop) a : P a -> post P (mret a).
Proof. by intros H b ? ? [= <- <-]. Qed.

Lemma post_bind {A B} (P : A -> Prop) (Q : B -> Prop) (m : Rd A) (f : A -> Rd B) :
  post P m -> (forall a, P a -> post Q (f a)) -> post Q (m ≫= f).
Proof.
  intros Hm Hf b x b'. unfold mbind, Rd_bind. destruct (m b) as [[a b1]|] eqn:E; [|done]. intros H.
  destruct (Hm _ _ _ E) as (Ha & E1 & E2). destruct (Hf a Ha _ _ _ H) as (Hx & E3 & E4). split; [done|]. by rewrite E3, E4.
Qed.

Lemma post_true {A} (P : A -> Prop) m : post P m -> post (fun _ => True) m.
Proof. intros H b a b' E. by destruct (H _ _ _ E) as (_ & ?). Qed.

Lemma post_fault {A} (P : A -> Prop) e : post P (Rd_fault e).
Proof. done. Qed.

Lemma post_setReadPos p : post (fun _ => True) (Rd_modify (bb_setReadPos p)).
Proof. by intros b [] ? [= <-]. Qed.

Lemma slice_length_le i n l : (length (slice i n l) <= n)%nat.
Proof. unfold slice. rewrite length_take. lia. Qed.

Lemma post_read n : post (urange (Z.of_nat n * 8)) (bb_read n).
Proof.
  intros b v b' [= <- <-]. split; [|done]. unfold bb_read_at, urange. destruct (_ <=? _) eqn:E; [|split; [lia|by apply Z.pow_pos_nonneg; lia]].
  pose proof (le_combine_bound (slice (Z.to_nat (bb_rpos b)) n (bb_buf b))) as H. pose proof (slice_length_le (Z.to_nat (bb_rpos b)) n (bb_buf b)).
  split; [lia|]. eapply Z.lt_le_trans; [apply H|]. apply Z.pow_le_mono_r; lia.
Qed.

Lemma post_getBytes n : post (fun l => length l = n) (bb_getBytes n).
Proof.
  induction n as [|n IH]; [by apply post_ret|]. cbn [bb_getBytes]. eapply post_bind; [apply post_read|]. intros x _.
  eapply post_bind; [exact IH|]. intros l Hl. apply post_ret. cbn. by rewrite Hl.
Qed.

Lemma post_repeat {A} (P : A -> Prop) n m : post P m -> post (fun l => length l = n /\ Forall P l) (Rd_repeat n m).
Proof.
  intros H. induction n as [|n IH]; [by apply post_ret|]. cbn [Rd_repeat]. eapply post_bind; [exact H|]. intros x Hx.
  eapply post_bind; [exact IH|]. intros l [Hl Hf]. apply post_ret. cbn. split; [by rewrite Hl|]. by constructor.
Qed.
