(* ===== verification/StringUtils.v ===== *)
(** [StringUtils] (Source/Utilities/StringUtils.cpp): hashing, searching,
    splitting and replacing.

    A [std::string] is a [list byte]; where the code passes a [const char*]
    only the prefix before the first NUL ([c_str]) is seen. *)

From S2P Require Import Prelude ByteBuffer.

(** ** Hashes *)

(** [strcpy] stops at the first NUL. *)
Definition CopyWithArena (src : list byte) : list byte := c_str src.

Definition hash_seed : Z := 5381.

(** [hash = hash * 33 ^ c], in [uint32_t]. *)
Definition hash_step (hash : Z) (c : Z) : Z := Z.lxor (u32 (hash * 33)) c.

Definition HashQuick (str : list byte) : Z :=
  foldl (fun hash c => hash_step hash (byte.unsigned c)) hash_seed (c_str str).

(** [cond = (c - 'A') <= ('Z' - 'A')] is an unsigned comparison; ['A'] is 65,
    ['Z'] 90 and ['a' - 'A'] 32. *)
Definition lower_code (c : Z) : Z :=
  let cond := if u32 (c - 65) <=? 25 then 1 else 0 in u32 (c + 32 * cond).

Definition HashQuickLower (str : list byte) : Z :=
  foldl (fun hash c => hash_step hash (lower_code (byte.unsigned c))) hash_seed (c_str str).

Definition hex_digit (c : byte) : option Z :=
  let z := byte.unsigned c in
  if (48 <=? z) && (z <=? 57) then Some (z - 48)
  else if (97 <=? z) && (z <=? 102) then Some (z - 87)
  else if (65 <=? z) && (z <=? 70) then Some (z - 55)
  else None.

(** [strtoul] in base 16 after its "0x" prefix: the longest run of digits. *)
Fixpoint hex_value (acc : Z) (s : list byte) : Z :=
  match s with
  | [] => acc
  | c :: s' => match hex_digit c with Some d => hex_value (acc * 16 + d) s' | None => acc end
  end.

(** [std::stoul] throws [out_of_range] above [ULONG_MAX] (2^32 - 1 on the
    Windows target). *)
Definition HashHexCheck (str : list byte) : result Z :=
  match c_str str with
  | a :: b :: (_ :: _) as rest =>
    if decide (a = Byte.x30) then
      if decide (b = Byte.x78) then
        let v := hex_value 0 (drop 2 (c_str str)) in
        if v <? 2 ^ 32 then Ok v else Fault Thrown
      else Ok (HashQuick str)
    else Ok (HashQuick str)
  | _ => Ok (HashQuick str)
  end.

(** ** Searching *)

Fixpoint is_prefix (p s : list byte) : bool :=
  match p, s with
  | [], _ => true
  | a :: p', b :: s' => bool_decide (a = b) && is_prefix p' s'
  | _ :: _, [] => false
  end.

Fixpoint find_sub (needle s : list byte) : option nat :=
  if is_prefix needle s then Some 0%nat
  else match s with [] => None | _ :: s' => S <$> find_sub needle s' end.

(** [str.find(needle, pos)] *)
Definition str_find (needle s : list byte) (pos : nat) : option nat :=
  if decide (pos <= length s)%nat then Nat.add pos <$> find_sub needle (drop pos s) else None.

(** [str.rfind(start, 0) == 0] *)
Definition StartsWith (str start : list byte) : bool := is_prefix start str.

(** The loop of [Split] from position [prev]. *)
Fixpoint split_loop (fuel : nat) (str delimiter : list byte) (prev : nat) : result (list (list byte)) :=
  match fuel with
  | O => Fault OutOfFuel
  | S fuel' =>
    match str_find delimiter str prev with
    | None => Ok [drop prev str]
    | Some pos =>
      rest ← split_loop fuel' str delimiter (pos + length delimiter);
      Ok (slice prev (pos - prev) str :: rest)
    end
  end.

Definition Split (str delimiter : list byte) : result (list (list byte)) :=
  split_loop (S (length str)) str delimiter 0.

(** The loop of [Replace]: [str.replace(pos, strlen(find), replace)] and skip
    the replacement. *)
Fixpoint replace_loop (fuel : nat) (str find replace : list byte) (pos : nat) : result (list byte) :=
  match fuel with
  | O => Fault OutOfFuel
  | S fuel' =>
    match str_find find str pos with
    | None => Ok str
    | Some p =>
      replace_loop fuel' (take p str ++ replace ++ drop (p + length find) str) find replace
        (p + length replace)
    end
  end.

Definition Replace (src find replace : list byte) : result (list byte) :=
  replace_loop (S (length (c_str src))) (c_str src) (c_str find) (c_str replace) 0.

(** ** Formatting and checks *)

Definition hex_char (d : Z) : byte := byte.of_Z (if d <? 10 then 48 + d else 87 + d).

Definition HexStr (data : list byte) : list byte :=
  data ≫= fun b => [hex_char (byte.unsigned b / 16); hex_char (byte.unsigned b mod 16)].

(** [i > 10000 || str[i] < 32 || str[i] > 126] on a signed [char]. *)
Definition valid_char (i : nat) (c : byte) : bool :=
  negb ((10000 <? Z.of_nat i) || (swrap 8 (byte.unsigned c) <? 32) || (126 <? swrap 8 (byte.unsigned c))).

Definition IsValid (str : option (list byte)) : bool :=
  match str with
  | None => false
  | Some s => forallb (fun x => x) (imap valid_char (c_str s))
  end.

Definition Base64EncodeChar (encodedChar : Z) : list byte :=
  if encodedChar =? 61 then bstr "A"
  else if encodedChar =? 62 then bstr "B"
  else if encodedChar =? 63 then bstr "C"
  else [].

Definition base64_round (e : Z) (j : Z) : Z :=
  Z.lor (Z.shiftr e (2 * j)) (i32 (Z.shiftl (Z.land e 63) (5 * j))).

Definition Base64Encode (str : list byte) : list byte :=
  str ≫= fun c => Base64EncodeChar (foldl base64_round (swrap 8 (byte.unsigned c)) [0; 1; 2]).

(** ** Hash properties *)

Definition lower_byte (c : byte) : byte := byte.of_Z (lower_code (byte.unsigned c)).

Lemma lower_code_range c : is_u8 c -> is_u8 (lower_code c).
Proof.
  unfold lower_code, urange. intros Hc.
  destruct (Z.leb_spec (u32 (c - 65)) 25) as [H|H].
  - unfold uwrap in H |- *.
    destruct (Z_lt_le_dec c 65) as [Hlt|Hge].
    + rewrite <- (Z_mod_plus_full (c - 65) 1), Z.mod_small in H by lia. lia.
    + rewrite Z.mod_small in H by lia. rewrite Z.mod_small; lia.
  - rewrite Z.mul_0_r, Z.add_0_r, uwrap_small by (unfold urange; lia). lia.
Qed.

Lemma unsigned_lower_byte c : byte.unsigned (lower_byte c) = lower_code (byte.unsigned c).
Proof.
  unfold lower_byte. rewrite byte.unsigned_of_Z. apply Z.mod_small.
  apply lower_code_range. unfold urange. pose proof (byte.unsigned_range c). lia.
Qed.

Lemma lower_byte_nul c : lower_byte c = Byte.x00 <-> c = Byte.x00.
Proof. destruct c; by vm_compute. Qed.

Lemma c_str_lower s : c_str (lower_byte <$> s) = lower_byte <$> c_str s.
Proof.
  unfold c_str.
  assert (H : find_nul (lower_byte <$> s) = find_nul s).
  { induction s as [|c s IH]; cbn; [done|]. rewrite IH.
    destruct (decide (c = Byte.x00)) as [->|Hc]; [done|].
    rewrite decide_False; [done|]. by rewrite lower_byte_nul. }
  rewrite H. destruct (find_nul s); [|done]. by rewrite fmap_take.
Qed.

Lemma hash_foldl_lower s h :
  foldl (fun hash c => hash_step hash (byte.unsigned c)) h (lower_byte <$> s)
  = foldl (fun hash c => hash_step hash (lower_code (byte.unsigned c))) h s.
Proof.
  revert h. induction s as [|c s IH]; intros h; cbn; [done|].
  by rewrite unsigned_lower_byte, IH.
Qed.

(** the case-insensitive hash is the hash of the lower-cased string. *)
Theorem HashQuickLower_lower s : HashQuickLower s = HashQuick (lower_byte <$> s).
Proof.
  unfold HashQuickLower, HashQuick. by rewrite c_str_lower, hash_foldl_lower.
Qed.

Lemma hash_step_range h c : is_u8 c -> is_u32 (hash_step h c).
Proof.
  unfold hash_step, urange. intros Hc.
  pose proof (uwrap_range 32 (h * 33) ltac:(lia)) as Hu. unfold urange in Hu.
  assert (H0 : 0 <= Z.lxor (u32 (h * 33)) c) by (apply Z.lxor_nonneg; lia).
  split; [done|].
  assert (Hb : Z.lxor (u32 (h * 33)) c = u32 (Z.lxor (u32 (h * 33)) c)).
  { unfold uwrap at 2. rewrite <- Z.land_ones by lia.
    apply Z.bits_inj'. intros n Hn. rewrite Z.land_spec, Z.lxor_spec, Z.testbit_ones_nonneg by lia.
    destruct (Z.ltb_spec n 32) as [Hn'|Hn']; [by rewrite andb_true_r|]. rewrite andb_false_r.
    assert (Hz : forall x, 0 <= x < 2 ^ 32 -> Z.testbit x n = false).
    { intros x Hx. rewrite <- (Z.mod_small x (2 ^ 32)) by lia. by apply Z.mod_pow2_bits_high. }
    rewrite (Hz _ Hu), (Hz c) by lia. done. }
  rewrite Hb. by apply uwrap_range.
Qed.

Lemma HashQuick_range s : is_u32 (HashQuick s).
Proof.
  unfold HashQuick. assert (H : is_u32 hash_seed) by (unfold urange, hash_seed; lia).
  revert H. generalize hash_seed. induction (c_str s) as [|c l IH]; cbn; [done|].
  intros h _. apply IH, hash_step_range. unfold urange. pose proof (byte.unsigned_range c). lia.
Qed.

#[export] Hint Resolve HashQuick_range : kyber.

(** ** Searching *)

Lemma is_prefix_spec p s : is_prefix p s = true <-> exists r, s = p ++ r.
Proof.
  revert s. induction p as [|a p IH]; intros s; cbn; [naive_solver|].
  destruct s as [|b s]; [naive_solver|].
  rewrite andb_true_iff, bool_decide_eq_true, IH. naive_solver.
Qed.

Lemma find_sub_spec needle s k :
  find_sub needle s = Some k ->
  s = take k s ++ needle ++ drop (k + length needle) s /\ (k + length needle <= length s)%nat.
Proof.
  revert k. induction s as [|a s IH]; intros k; cbn [find_sub].
  - destruct (is_prefix needle []) eqn:E; [|done]. intros [= <-].
    apply is_prefix_spec in E as [r Hr]. destruct needle; [|done]. cbn. done.
  - destruct (is_prefix needle (a :: s)) eqn:E.
    + intros [= <-]. apply is_prefix_spec in E as [r ->].
      rewrite take_0, Nat.add_0_l, drop_app_length, length_app. split; [done|lia].
    + destruct (find_sub needle s) as [k'|]; [|done]. intros [= <-].
      destruct (IH k' eq_refl) as [Hs Hl]. cbn. split; [by f_equal|lia].
Qed.

Lemma find_sub_take needle s k :
  find_sub needle s = Some k -> needle <> [] -> find_sub needle (take k s) = None.
Proof.
  revert k. induction s as [|a s IH]; intros k; cbn [find_sub].
  - destruct (is_prefix needle []) eqn:E; [|done]. intros [= <-] Hn. cbn.
    destruct needle; done.
  - destruct (is_prefix needle (a :: s)) eqn:E.
    + intros [= <-] Hn. cbn. by destruct needle.
    + destruct (find_sub needle s) as [k'|] eqn:Es; [|done]. intros [= <-] Hn.
      cbn [take find_sub].
      rewrite (IH _ eq_refl Hn). destruct (is_prefix needle (a :: take k' s)) eqn:E'; [|done].
      apply is_prefix_spec in E' as [r Hr].
      assert (Hp : is_prefix needle (a :: s) = true); [|by rewrite Hp in E].
      apply is_prefix_spec. exists (r ++ drop k' s).
      rewrite app_assoc, <- Hr. cbn. by rewrite take_drop.
Qed.

Lemma str_find_spec needle s pos p :
  str_find needle s pos = Some p ->
  exists k, p = (pos + k)%nat /\ find_sub needle (drop pos s) = Some k /\
    (pos + k + length needle <= length s)%nat /\
    drop pos s = slice pos k s ++ needle ++ drop (p + length needle) s.
Proof.
  unfold str_find. destruct (decide _) as [Hpos|]; [|done].
  destruct (find_sub needle (drop pos s)) as [k|] eqn:E; [|done]. intros [= <-].
  exists k. destruct (find_sub_spec _ _ _ E) as [Hs Hl]. rewrite length_drop in Hl.
  split_and!; [done..|lia|]. rewrite Hs at 1. rewrite drop_drop. unfold slice.
  by rewrite Nat.add_assoc.
Qed.

Lemma str_find_None needle s pos :
  (pos <= length s)%nat -> str_find needle s pos = None -> find_sub needle (drop pos s) = None.
Proof.
  intros Hp. unfold str_find. rewrite decide_True by done. by destruct (find_sub _ _).
Qed.

(** The pieces joined with the delimiter. *)
Fixpoint join (d : list byte) (pieces : list (list byte)) : list byte :=
  match pieces with
  | [] => []
  | [p] => p
  | p :: ps => p ++ d ++ join d ps
  end.

Lemma join_cons d p ps : ps <> [] -> join d (p :: ps) = p ++ d ++ join d ps.
Proof. by destruct ps. Qed.

Lemma split_loop_spec fuel str d prev :
  d <> [] -> (prev <= length str)%nat -> (length str < prev + fuel)%nat ->
  exists ps, split_loop fuel str d prev = Ok ps /\ ps <> [] /\
    join d ps = drop prev str /\ Forall (fun p => find_sub d p = None) ps.
Proof.
  intros Hd. revert prev. induction fuel as [|fuel IH]; intros prev Hp Hf; [lia|].
  cbn [split_loop]. destruct (str_find d str prev) as [pos|] eqn:E.
  - destruct (str_find_spec _ _ _ _ E) as (k & -> & Hfs & Hl & Hdrop).
    assert (0 < length d)%nat by (destruct d; [done|cbn; lia]).
    destruct (IH (prev + k + length d)%nat) as (ps & -> & Hne & Hj & Hall); [lia..|].
    eexists. split; [reflexivity|]. split; [done|]. split.
    + rewrite join_cons by done. rewrite Hj, Hdrop. f_equal. unfold slice. f_equal. lia.
    + constructor; [|done]. replace (prev + k - prev)%nat with k by lia.
      by eapply find_sub_take.
  - eexists. split; [reflexivity|]. split; [done|]. split; [done|].
    constructor; [|done]. by apply str_find_None.
Qed.

(** for a non-empty delimiter [Split] terminates, its pieces joined with the
    delimiter are the input, and no piece contains the delimiter. *)
Theorem Split_join str d :
  d <> [] ->
  exists ps, Split str d = Ok ps /\ join d ps = str /\ Forall (fun p => find_sub d p = None) ps.
Proof.
  intros Hd. destruct (split_loop_spec (S (length str)) str d 0 Hd) as (ps & H & _ & Hj & Ha);
    [lia..|]. exists ps. by rewrite drop_0 in Hj.
Qed.

(** *** Pieces joined by one character *)

Lemma find_sub_not_in c s : find_sub [c] s = None <-> c ∉ s.
Proof.
  induction s as [|a s IH]; cbn [find_sub is_prefix]; [split; [by intros _ ?%elem_of_nil|done]|]. rewrite not_elem_of_cons, andb_true_r.
  case_bool_decide as E; [split; [done|intros [H _]; congruence]|]. rewrite <- IH. destruct (find_sub [c] s); naive_solver.
Qed.

Lemma app_sep_inj c (p q x y : list byte) : c ∉ p -> c ∉ q -> p ++ c :: x = q ++ c :: y -> p = q /\ x = y.
Proof.
  revert q. induction p as [|a p IH]; intros [|b q] Hp Hq; cbn.
  - by intros [= ->].
  - intros [= -> _]. exfalso. apply Hq. by left.
  - intros [= -> _]. exfalso. apply Hp. by left.
  - intros [= -> E]. destruct (IH q) as [-> ->]; [intros H; apply Hp; by right|intros H; apply Hq; by right|done|done].
Qed.

Lemma join_inj c ps qs : ps <> [] -> qs <> [] -> Forall (fun p => c ∉ p) ps -> Forall (fun p => c ∉ p) qs -> join [c] ps = join [c] qs -> ps = qs.
Proof.
  assert (Hone : forall p q qs, c ∉ p -> p = q ++ c :: qs -> False) by (intros p q l H ->; apply H, elem_of_app; right; by left).
  revert qs. induction ps as [|p ps IH]; [done|]. intros [|q qs] _ Hq; [done|]. intros [H1 H2]%list.Forall_cons [H3 H4]%list.Forall_cons.
  destruct ps as [|p' ps], qs as [|q' qs].
  - cbn. by intros ->.
  - rewrite (join_cons _ q) by done. intros E. cbn in E. by apply Hone in E.
  - rewrite (join_cons _ p) by done. intros E. symmetry in E. cbn in E. by apply Hone in E.
  - rewrite !join_cons by done. intros [-> E]%(app_sep_inj c); [|done..]. f_equal. by apply IH.
Qed.

Lemma Split_joined c ps : ps <> [] -> Forall (fun p => c ∉ p) ps -> Split (join [c] ps) [c] = Ok ps.
Proof.
  intros Hn Hp. destruct (split_loop_spec (S (length (join [c] ps))) (join [c] ps) [c] 0) as (qs & E & Hq & Hj & Hf); [done|lia..|].
  unfold Split. rewrite E. f_equal. apply (join_inj c); [done..| |done|by rewrite Hj, drop_0].
  apply (list.Forall_impl _ _ _ Hf). intros q. apply find_sub_not_in.
Qed.

Lemma split_loop_nonempty fuel str d prev ps : split_loop fuel str d prev = Ok ps -> ps <> [].
Proof.
  destruct fuel; cbn; [done|]. destruct (str_find _ _ _); [|by intros [= <-]].
  destruct (split_loop _ _ _ _); cbn; [|done]. by intros [= <-].
Qed.

Lemma replace_loop_split fuel str d r ps pre prev :
  d <> [] -> (prev <= length str)%nat ->
  split_loop fuel str d prev = Ok ps ->
  replace_loop fuel (pre ++ drop prev str) d r (length pre) = Ok (pre ++ join r ps).
Proof.
  intros Hd. revert ps pre prev. induction fuel as [|fuel IH]; intros ps pre prev Hp; [done|].
  cbn [split_loop replace_loop].
  assert (Hrel : str_find d (pre ++ drop prev str) (length pre)
                 = Nat.add (length pre) <$> find_sub d (drop prev str)).
  { unfold str_find. rewrite decide_True by (rewrite length_app; lia).
    by rewrite drop_app_length. }
  rewrite Hrel. unfold str_find. rewrite decide_True by done.
  destruct (find_sub d (drop prev str)) as [k|] eqn:E; cbn [fmap option_fmap option_map].
  - destruct (find_sub_spec _ _ _ E) as [_ Hl]. rewrite length_drop in Hl.
    destruct (split_loop fuel str d (prev + k + length d)) as [ps'|] eqn:Es; [|done].
    cbn. intros [= <-].
    specialize (IH ps' (pre ++ take k (drop prev str) ++ r) (prev + k + length d)%nat).
    rewrite join_cons by (by eapply split_loop_nonempty).
    replace (prev + k - prev)%nat with k by lia.
    rewrite take_app_add, <- Nat.add_assoc, drop_app_add, drop_drop, Nat.add_assoc.
    rewrite <- !app_assoc in IH. rewrite <- !app_assoc. unfold slice.
    rewrite <- IH by (done || lia). f_equal.
    rewrite !length_app, length_take, length_drop. lia.
  - by intros [= <-].
Qed.

(** [Replace] terminates for a non-empty pattern and puts the replacement
    in place of exactly the delimiters that [Split] finds. *)
Theorem Replace_split src f r :
  c_str f <> [] ->
  exists ps, Split (c_str src) (c_str f) = Ok ps /\ Replace src f r = Ok (join (c_str r) ps).
Proof.
  intros Hf. destruct (Split_join (c_str src) (c_str f) Hf) as (ps & Hs & _).
  exists ps. split; [done|].
  pose proof (replace_loop_split _ _ _ (c_str r) _ [] 0 Hf (Nat.le_0_l _) Hs) as H.
  by rewrite drop_0 in H.
Qed.
