(* ===== verification/Guid.v ===== *)
(** [Guid] (Public/SDK/SDK.h): the 16-byte identifier of chunks, partitions and
    instances.

    A guid is the list of its 16 bytes as they lie in memory ([data]); the
    integer members of the union are little-endian views of it. *)

From S2P Require Import Prelude OrdMap ByteBuffer StringUtils.

Abbreviation Guid := (list byte).

Definition guid_wf (g : Guid) : Prop := length g = 16%nat.
Definition guid_zero : Guid := replicate 16 Byte.x00.

Definition Guid_Equals (g h : Guid) : bool := bool_decide (g = h).

Fixpoint Guid_IsZero (g : Guid) : bool :=
  match g with
  | [] => true
  | b :: g' => if decide (b = Byte.x00) then Guid_IsZero g' else false
  end.

Definition Guid_FromFrostyLE (b : list byte) : Guid := b.
Definition Guid_ToFrostyLE (g : Guid) : list byte := g.

Definition byte_at (l : list byte) (i : nat) : byte := nth i l Byte.x00.

Definition Guid_FromFrostyBE (b : list byte) : Guid :=
  byte_at b <$> [3; 2; 1; 0; 5; 4; 7; 6; 8; 9; 10; 11; 12; 13; 14; 15]%nat.

Definition Guid_ToFrostyBE (g : Guid) : list byte :=
  (byte_at g <$> [3; 2; 1; 0; 5; 4; 7; 6]%nat) ++ ((fun i => byte_at g (8 + i)) <$> seq 0 8).

(** The overloads that read the 16 bytes from a buffer. *)
Definition Guid_readLE : Rd Guid := b ← bb_getBytes 16; mret (Guid_FromFrostyLE b).
Definition Guid_readBE : Rd Guid := b ← bb_getBytes 16; mret (Guid_FromFrostyBE b).

(** [sprintf("%0<n>x", v)] *)
Fixpoint hex_pad (n : nat) (v : Z) : list byte :=
  match n with
  | O => []
  | S n' => hex_pad n' (v / 16) ++ [hex_char (v mod 16)]
  end.

Definition dash : byte := Byte.x2d.

Definition guid_data1 (g : Guid) : Z := le_combine (slice 0 4 g).
Definition guid_data2 (g : Guid) : Z := le_combine (slice 4 2 g).
Definition guid_data3 (g : Guid) : Z := le_combine (slice 6 2 g).
Definition guid_data4 (g : Guid) (i : nat) : Z := byte.unsigned (byte_at g (8 + i)).

Definition Guid_ToString (g : Guid) : list byte :=
  hex_pad 8 (guid_data1 g) ++ dash :: hex_pad 4 (guid_data2 g) ++ dash ::
  hex_pad 4 (guid_data3 g) ++ dash ::
  hex_pad 2 (guid_data4 g 0) ++ hex_pad 2 (guid_data4 g 1) ++ dash ::
  hex_pad 2 (guid_data4 g 2) ++ hex_pad 2 (guid_data4 g 3) ++ hex_pad 2 (guid_data4 g 4) ++
  hex_pad 2 (guid_data4 g 5) ++ hex_pad 2 (guid_data4 g 6) ++ hex_pad 2 (guid_data4 g 7).

(** ** [sscanf]

    A conversion [%<w>x] skips white space, then takes at most [w] characters:
    an optional sign, an optional "0x" and at least one hexadecimal digit. The
    conversions stop at the first mismatch and leave the rest of the guid
    zero. *)

Definition is_space (c : byte) : bool :=
  let z := byte.unsigned c in (z =? 32) || ((9 <=? z) && (z <=? 13)).

Fixpoint skip_space (s : list byte) : list byte :=
  match s with
  | c :: s' => if is_space c then skip_space s' else s
  | [] => []
  end.

Fixpoint scan_digits (w : nat) (acc : Z) (s : list byte) : Z * list byte :=
  match w, s with
  | S w', c :: s' =>
    match hex_digit c with Some d => scan_digits w' (acc * 16 + d) s' | None => (acc, s) end
  | _, _ => (acc, s)
  end.

Definition scan_unsigned (w : nat) (s : list byte) : option (Z * list byte) :=
  match w, s with
  | S _, c :: _ => match hex_digit c with Some _ => Some (scan_digits w 0 s) | None => None end
  | _, _ => None
  end.

Definition scan_prefixed (w : nat) (s : list byte) : option (Z * list byte) :=
  match w, s with
  | S (S w'), a :: b :: s' =>
    if decide (a = Byte.x30 /\ (b = Byte.x78 \/ b = Byte.x58)) then scan_unsigned w' s'
    else scan_unsigned w s
  | _, _ => scan_unsigned w s
  end.

Definition scan_hex (w : nat) (s : list byte) : option (Z * list byte) :=
  match w, skip_space s with
  | S w', c :: s' =>
    if decide (c = Byte.x2d) then (fun x => (- x.1, x.2)) <$> scan_prefixed w' s'
    else if decide (c = Byte.x2b) then scan_prefixed w' s'
    else scan_prefixed w (c :: s')
  | _, _ => None
  end.

Inductive scan_item := ScanHex (w n : nat) | ScanLit (c : byte).

Fixpoint scan_guid (fmt : list scan_item) (s : list byte) : list byte :=
  match fmt with
  | [] => []
  | ScanLit c :: fmt' =>
    match s with
    | d :: s' => if decide (c = d) then scan_guid fmt' s' else []
    | [] => []
    end
  | ScanHex w n :: fmt' =>
    match scan_hex w s with
    | Some (v, s') => le_split n v ++ scan_guid fmt' s'
    | None => []
    end
  end.

Definition guid_format : list scan_item :=
  [ScanHex 8 4; ScanLit dash; ScanHex 4 2; ScanLit dash; ScanHex 4 2; ScanLit dash;
   ScanHex 2 1; ScanHex 2 1; ScanLit dash; ScanHex 2 1; ScanHex 2 1; ScanHex 2 1;
   ScanHex 2 1; ScanHex 2 1; ScanHex 2 1].

Definition Guid_FromString (str : list byte) : Guid :=
  bytes_resize 16 (scan_guid guid_format (c_str str)).

(** ** Properties *)

Ltac guid_bytes g H :=
  do 16 (destruct g as [|? g]; [done|]); destruct g; [clear H|done].

Lemma Guid_IsZero_spec g : Guid_IsZero g = true <-> g = replicate (length g) Byte.x00.
Proof.
  induction g as [|b g IH]; cbn; [done|].
  destruct (decide (b = Byte.x00)) as [->|Hb]; [rewrite IH; split; congruence|].
  split; [done|congruence].
Qed.

Lemma Guid_BE_roundtrip g : guid_wf g -> Guid_FromFrostyBE (Guid_ToFrostyBE g) = g.
Proof. intros H. unfold guid_wf in H. guid_bytes g H. reflexivity. Qed.

Lemma Guid_ToFrostyBE_length g : length (Guid_ToFrostyBE g) = 16%nat.
Proof. reflexivity. Qed.

Lemma Guid_readBE_cur pre g rest w :
  guid_wf g -> fits (pre ++ Guid_ToFrostyBE g ++ rest) ->
  Guid_readBE (cur pre (Guid_ToFrostyBE g ++ rest) w)
    = Ok (g, cur (pre ++ Guid_ToFrostyBE g) rest w).
Proof.
  intros Hg Hf. unfold Guid_readBE, mbind, Rd_bind.
  rewrite <- (Guid_ToFrostyBE_length g), bb_getBytes_cur by done.
  cbv beta iota. by rewrite Guid_BE_roundtrip.
Qed.

Lemma Guid_readLE_cur pre g rest w :
  guid_wf g -> fits (pre ++ g ++ rest) ->
  Guid_readLE (cur pre (g ++ rest) w) = Ok (g, cur (pre ++ g) rest w).
Proof.
  intros Hg Hf. unfold Guid_readLE, mbind, Rd_bind. rewrite <- Hg, bb_getBytes_cur by done.
  done.
Qed.

Lemma hex_digit_char d : 0 <= d < 16 -> hex_digit (hex_char d) = Some d.
Proof.
  assert (H : forallb (fun n => bool_decide (hex_digit (hex_char (Z.of_nat n)) = Some (Z.of_nat n)))
                (seq 0 16) = true) by (vm_compute; reflexivity).
  rewrite forallb_forall in H. intros Hd.
  specialize (H (Z.to_nat d)). rewrite Z2Nat.id in H by lia.
  eapply bool_decide_eq_true, H, in_seq. lia.
Qed.

Lemma hex_digit_facts c d :
  hex_digit c = Some d -> is_space c = false /\ c <> Byte.x2d /\ c <> Byte.x2b /\
    c <> Byte.x78 /\ c <> Byte.x58.
Proof. by destruct c; vm_compute; intros H; (split_and!; done) || discriminate. Qed.

Lemma hex_pad_snoc n v : hex_pad (S n) v = hex_pad n (v / 16) ++ [hex_char (v mod 16)].
Proof. done. Qed.

Lemma hex_pad_length n v : length (hex_pad n v) = n.
Proof. revert v. induction n as [|n IH]; intros v; cbn; [done|]. rewrite length_app, IH; cbn; lia. Qed.

Lemma hex_pad_digit n v c : c ∈ hex_pad n v -> exists d, hex_digit c = Some d.
Proof.
  revert v. induction n as [|n IH]; intros v; cbn; [by intros ?%elem_of_nil|].
  intros [?|Hc]%elem_of_app; [by eapply IH|]. apply list_elem_of_singleton in Hc as ->.
  eexists. apply hex_digit_char, Z.mod_pos_bound. lia.
Qed.

(** Digits are consumed left to right: scanning [w] padded digits after an
    accumulator. *)
Lemma scan_digits_pad w acc v rest :
  0 <= v < 16 ^ Z.of_nat w ->
  scan_digits w acc (hex_pad w v ++ rest) = (acc * 16 ^ Z.of_nat w + v, rest).
Proof.
  intros Hv.
  assert (Hgen : forall w k acc v rest, 0 <= v < 16 ^ Z.of_nat w ->
    scan_digits (w + k) acc (hex_pad w v ++ rest)
    = scan_digits k (acc * 16 ^ Z.of_nat w + v) rest).
  { clear. induction w as [|w IH]; intros k acc v rest Hv.
    - cbn [hex_pad app Nat.add]. f_equal. cbn in Hv. lia.
    - rewrite hex_pad_snoc, <- app_assoc.
      rewrite Nat2Z.inj_succ, Z.pow_succ_r in Hv |- * by lia.
      replace (S w + k)%nat with (w + S k)%nat by lia.
      rewrite IH by (split; [apply Z.div_pos; lia|apply Z.div_lt_upper_bound; lia]).
      cbn [app scan_digits]. rewrite hex_digit_char by (apply Z.mod_pos_bound; lia).
      f_equal. pose proof (Z.div_mod v 16). lia. }
  specialize (Hgen w 0%nat acc v rest Hv). rewrite Nat.add_0_r in Hgen. rewrite Hgen.
  by destruct rest.
Qed.

Lemma scan_hex_pad w v rest :
  0 <= v < 16 ^ Z.of_nat (S w) ->
  scan_hex (S w) (hex_pad (S w) v ++ rest) = Some (v, rest).
Proof.
  intros Hv. pose proof (scan_digits_pad (S w) 0 v rest Hv) as Hd.
  pose proof (hex_pad_digit (S w) v) as Hall. pose proof (hex_pad_length (S w) v) as Hl.
  destruct (hex_pad (S w) v) as [|c s] eqn:E; [done|].
  destruct (Hall c ltac:(by left)) as [d Hc]. pose proof (hex_digit_facts _ _ Hc) as (Hsp & Hm & Hp & _ & _).
  unfold scan_hex. cbn [app skip_space]. rewrite Hsp, !decide_False by done.
  assert (Hu : scan_unsigned (S w) (c :: s ++ rest) = Some (v, rest)).
  { unfold scan_unsigned. rewrite Hc. change (c :: s ++ rest) with ((c :: s) ++ rest).
    by rewrite Hd. }
  unfold scan_prefixed. destruct w as [|w]; [done|].
  destruct s as [|b s]; [done|]. cbn [app].
  destruct (Hall b ltac:(by right; left)) as [d' Hb].
  pose proof (hex_digit_facts _ _ Hb) as (_ & _ & _ & Hx & HX).
  rewrite decide_False by naive_solver. done.
Qed.

Lemma scan_guid_hex w n fmt v rest :
  0 <= v < 16 ^ Z.of_nat (S w) ->
  scan_guid (ScanHex (S w) n :: fmt) (hex_pad (S w) v ++ rest) = le_split n v ++ scan_guid fmt rest.
Proof. intros Hv. cbn [scan_guid]. by rewrite scan_hex_pad. Qed.

Lemma scan_guid_lit c fmt s : scan_guid (ScanLit c :: fmt) (c :: s) = scan_guid fmt s.
Proof. cbn. by rewrite decide_True. Qed.

Lemma Guid_ToString_no_nul g : Byte.x00 ∉ Guid_ToString g.
Proof.
  assert (Hp : forall n v, Byte.x00 ∉ hex_pad n v) by (intros n v [d Hd]%hex_pad_digit; done).
  unfold Guid_ToString.
  repeat first [apply Hp | apply not_elem_of_app; split | apply not_elem_of_cons; split; [done|]].
Qed.

Lemma le_combine_range n l : length l = n -> 0 <= le_combine l < 16 ^ (2 * Z.of_nat n).
Proof.
  intros <-. rewrite Z.pow_mul_r by lia. change (16 ^ 2) with (2 ^ 8).
  rewrite <- Z.pow_mul_r by lia. apply le_combine_bound.
Qed.

(** printing a guid and parsing it back gives the same 16 bytes. *)
Theorem Guid_string_roundtrip g : guid_wf g -> Guid_FromString (Guid_ToString g) = g.
Proof.
  intros H. unfold Guid_FromString. rewrite c_str_id by apply Guid_ToString_no_nul.
  unfold Guid_ToString, guid_format.
  assert (Hb : forall i, 0 <= guid_data4 g i < 16 ^ Z.of_nat 2).
  { intros i. apply byte.unsigned_range. }
  unfold guid_wf in H.
  assert (H1 : 0 <= guid_data1 g < 16 ^ Z.of_nat 8).
  { apply (le_combine_range 4). unfold slice. rewrite length_take, length_drop. lia. }
  assert (H2 : 0 <= guid_data2 g < 16 ^ Z.of_nat 4).
  { apply (le_combine_range 2). unfold slice. rewrite length_take, length_drop. lia. }
  assert (H3 : 0 <= guid_data3 g < 16 ^ Z.of_nat 4).
  { apply (le_combine_range 2). unfold slice. rewrite length_take, length_drop. lia. }
  repeat first [rewrite scan_guid_hex by auto | rewrite scan_guid_lit].
  rewrite <- (app_nil_r (hex_pad 2 (guid_data4 g 7))), scan_guid_hex by auto.
  unfold guid_data1, guid_data2, guid_data3, guid_data4. cbn [scan_guid].
  rewrite !split_le_combine', !le_split_1_byte by (unfold slice; rewrite length_take, length_drop; lia).
  guid_bytes g H. reflexivity.
Qed.
