(* ===== verification/DbObject.v ===== *)
(** [DbObject] (Source/ModLoader/DbObject.cpp): the tagged binary objects of
    bundle metadata.

    [DbValue] is the [std::variant]; a list or map of [shared_ptr<DbObject>]
    owns its elements, so values are nested directly.  The target is 64-bit
    Windows, where [long] has 32 bits. [DbObject_Save] and [DbObject_Load] keep
    the exits of [KB_UNIMPLEMENTED] and the unchecked shifts as faults. *)

From S2P Require Import Prelude OrdMap ByteBuffer.

Inductive DbType :=
| DbType_Invalid | DbType_List | DbType_Object | DbType_Boolean | DbType_String
| DbType_Int | DbType_Long | DbType_Float | DbType_Double | DbType_Guid
| DbType_Sha1 | DbType_ByteArray.

Definition DbType_code (t : DbType) : Z :=
  match t with
  | DbType_Invalid => 0 | DbType_List => 1 | DbType_Object => 2 | DbType_Boolean => 6
  | DbType_String => 7 | DbType_Int => 8 | DbType_Long => 9 | DbType_Float => 11
  | DbType_Double => 12 | DbType_Guid => 15 | DbType_Sha1 => 16 | DbType_ByteArray => 19
  end.

(** A [float] or [double] is its bit pattern: the code only moves it. *)
Inductive DbValue :=
| DbNull
| DbBool (b : bool)
| DbInt (i : Z)
| DbLong (l : Z)
| DbFloat (bits : Z)
| DbDouble (bits : Z)
| DbString (s : list byte)
| DbByteArray (l : list byte)
| DbGuid (g : list byte)
| DbSha1 (h : list byte)
| DbList (l : list DbValue)
| DbMap (m : list (list byte * DbValue)).

Definition DbObject_GetType (v : DbValue) : DbType :=
  match v with
  | DbNull => DbType_Invalid
  | DbBool _ => DbType_Boolean
  | DbInt _ => DbType_Int
  | DbLong _ => DbType_Long
  | DbFloat _ => DbType_Float
  | DbDouble _ => DbType_Double
  | DbString _ => DbType_String
  | DbByteArray _ => DbType_ByteArray
  | DbGuid _ => DbType_Guid
  | DbSha1 _ => DbType_Sha1
  | DbList _ => DbType_List
  | DbMap _ => DbType_Object
  end.

(** ** 7-bit encoded integers *)

(** The [while (true)] loop of both readers; a shift by 32 or more is
    undefined, so the loop makes at most five rounds. The shifted group is an
    [int] in both, and [long] has the width of [int]. *)
Fixpoint read7_loop (fuel : nat) (acc i : Z) : Rd Z :=
  match fuel with
  | O => Rd_fault OutOfFuel
  | S fuel' =>
    b ← bb_get;
    if 32 <=? i then Rd_fault Undefined
    else
      let acc' := Z.lor acc (i32 (Z.shiftl (Z.land b 127) i)) in
      if Z.shiftr b 7 =? 0 then mret acc' else read7_loop fuel' acc' (i + 7)
  end.

Definition read7BitEncodedInt : Rd Z := read7_loop 6 0 0.
Definition read7BitEncodedLong : Rd Z := read7_loop 6 0 0.

(** The [while (value >= 0x80)] loop of both writers. *)
Fixpoint write7_loop (fuel : nat) (value : Z) (buf : ByteBuffer) : result ByteBuffer :=
  match fuel with
  | O => Fault OutOfFuel
  | S fuel' =>
    if 128 <=? value then
      write7_loop fuel' (Z.shiftr value 7) (bb_put (u8 (Z.lor value 128)) buf)
    else Ok (bb_put (u8 value) buf)
  end.

Definition write7BitEncodedInt (buf : ByteBuffer) (value : Z) : result ByteBuffer :=
  write7_loop 5 (u32 value) buf.
Definition write7BitEncodedLong (buf : ByteBuffer) (value : Z) : result ByteBuffer :=
  write7_loop 10 (u64 value) buf.

(** ** [DbObject::Save] *)

(** The common tail of the list and map cases: length, contents, terminator. *)
Definition save_container (buf sub : ByteBuffer) : result ByteBuffer :=
  buf' ← write7BitEncodedLong buf (len (bb_buf sub) + 1);
  Ok (bb_put 0 (bb_putBytes (bb_buf sub) buf')).

Definition save_header (name : list byte) (v : DbValue) : ByteBuffer :=
  let dbFlags := match name with [] => 128 | _ => 0 end in
  let buf := bb_put (Z.lor dbFlags (DbType_code (DbObject_GetType v))) bb_empty in
  if Z.land dbFlags 128 =? 0 then bb_putNullTerminatedString name buf else buf.

Fixpoint DbObject_Save (name : list byte) (v : DbValue) {struct v} : result (list byte) :=
  let buf := save_header name v in
  bb_buf <$>
  match v with
  | DbBool b => Ok (bb_put (if b then 1 else 0) buf)
  | DbString s =>
    buf' ← write7BitEncodedInt buf (len s); Ok (bb_putBytes s buf')
  | DbInt i => Ok (bb_putInt i buf)
  | DbList l =>
    sub ← (fix go (l : list DbValue) (sub : ByteBuffer) : result ByteBuffer :=
             match l with
             | [] => Ok sub
             | item :: l' => buffer ← DbObject_Save [] item; go l' (bb_putBytes buffer sub)
             end) l bb_empty;
    save_container buf sub
  | DbMap m =>
    sub ← (fix go (m : list (list byte * DbValue)) (sub : ByteBuffer) : result ByteBuffer :=
             match m with
             | [] => Ok sub
             | (key, val) :: m' => buffer ← DbObject_Save key val; go m' (bb_putBytes buffer sub)
             end) m bb_empty;
    save_container buf sub
  | DbNull | DbLong _ | DbFloat _ | DbDouble _ | DbByteArray _ | DbGuid _ | DbSha1 _ =>
    Fault Unimplemented
  end.

(** ** [DbObject::Load] *)

(** [new char[size + 1]], [getBytes], and the copy up to the first NUL; a
    [long] has 32 bits, so the largest size overflows in [size + 1], a size of
    -1 writes the terminator before the array, and [new] throws below. *)
Definition load_string : Rd DbValue :=
  size ← read7BitEncodedInt;
  if size <? -1 then Rd_fault Thrown
  else if (size =? -1) || (2 ^ 31 - 1 <=? size) then Rd_fault Undefined
  else data ← bb_getBytes (Z.to_nat size); mret (DbString (c_str data)).

(** The [switch] on the type; the container loops are passed in. *)
Definition load_body (load_list load_map : Z -> Z -> Rd DbValue) (type : Z) : Rd (option DbValue) :=
  if type =? 1 then
    size ← read7BitEncodedLong; offset ← Rd_gets bb_rpos;
    values ← load_list size offset; mret (Some values)
  else if type =? 2 then
    size ← read7BitEncodedLong; offset ← Rd_gets bb_rpos;
    values ← load_map size offset; mret (Some values)
  else if type =? 6 then b ← bb_get; mret (Some (DbBool (b =? 1)))
  else if type =? 7 then s ← load_string; mret (Some s)
  else if type =? 8 then i ← bb_getInt; mret (Some (DbInt i))
  else if type =? 9 then l ← bb_getLong; mret (Some (DbLong l))
  else if type =? 11 then f ← bb_read 4; mret (Some (DbFloat f))
  else if type =? 12 then d ← bb_read 8; mret (Some (DbDouble d))
  else if (type =? 15) || (type =? 16) || (type =? 19) then Rd_fault Unimplemented
  else mret None.

(** [None] is the null [shared_ptr]; the name read is the out-parameter. Both
    container loops stop at a null element or after [size] bytes, compared as
    [unsigned long]. *)
Fixpoint load_object (fuel : nat) : Rd (option (list byte * DbValue)) :=
  match fuel with
  | O => Rd_fault OutOfFuel
  | S fuel' =>
    flags ← bb_get;
    let type := Z.land flags 31 in
    if type =? 0 then mret None else
    name ← (if Z.land flags 128 =? 0 then bb_getNullTerminatedString else mret []);
    o ← load_body (fun size offset => l ← load_list fuel' size offset []; mret (DbList l))
                  (fun size offset => m ← load_map fuel' size offset []; mret (DbMap m)) type;
    mret (match o with Some v => Some (name, v) | None => None end)
  end
with load_list (fuel : nat) (size offset : Z) (values : list DbValue) : Rd (list DbValue) :=
  match fuel with
  | O => Rd_fault OutOfFuel
  | S fuel' =>
    pos ← Rd_gets bb_rpos;
    if u32 (pos - offset) <? u32 size then
      o ← load_object fuel';
      match o with
      | None => mret values
      | Some (_, v) => load_list fuel' size offset (values ++ [v])
      end
    else mret values
  end
with load_map (fuel : nat) (size offset : Z) (values : omap (list byte) DbValue)
    : Rd (omap (list byte) DbValue) :=
  match fuel with
  | O => Rd_fault OutOfFuel
  | S fuel' =>
    pos ← Rd_gets bb_rpos;
    if u32 (pos - offset) <? u32 size then
      o ← load_object fuel';
      match o with
      | None => mret values
      | Some (name, v) => load_map fuel' size offset (omap_emplace name v values)
      end
    else mret values
  end.

(** Two units of fuel per byte of the buffer are enough ([load_terminates]). *)
Definition DbObject_Load : Rd (option (list byte * DbValue)) := fun b =>
  load_object (2 * length (bb_buf b) + 2) b.

(** ** Induction over nested values *)

Section DbValue_induction.
Variable P : DbValue -> Prop.
Hypothesis Hleaf : forall v, (forall l, v <> DbList l) -> (forall m, v <> DbMap m) -> P v.
Hypothesis Hlist : forall l, Forall P l -> P (DbList l).
Hypothesis Hmap : forall m, Forall (fun kv => P kv.2) m -> P (DbMap m).

Fixpoint DbValue_nested_ind (v : DbValue) : P v :=
  match v with
  | DbList l =>
    Hlist l ((fix go (l : list DbValue) : Forall P l :=
      match l with
      | [] => Forall_nil_2 P
      | x :: l' => Forall_cons_2 P x l' (DbValue_nested_ind x) (go l')
      end) l)
  | DbMap m =>
    Hmap m ((fix go (m : list (list byte * DbValue)) : Forall (fun kv => P kv.2) m :=
      match m with
      | [] => Forall_nil_2 _
      | (k, x) :: m' => Forall_cons_2 (fun kv => P kv.2) (k, x) m' (DbValue_nested_ind x) (go m')
      end) m)
  | v => Hleaf v ltac:(discriminate) ltac:(discriminate)
  end.
End DbValue_induction.

(** ** Reference serializer

    The bytes [Save] is meant to produce, as plain concatenations. *)

Fixpoint write7_bytes (fuel : nat) (value : Z) : list byte :=
  match fuel with
  | O => []
  | S fuel' =>
    if 128 <=? value then byte.of_Z (Z.lor value 128) :: write7_bytes fuel' (Z.shiftr value 7)
    else [byte.of_Z value]
  end.

Definition header_bytes (name : list byte) (v : DbValue) : list byte :=
  let code := DbType_code (DbObject_GetType v) in
  match name with
  | [] => [byte.of_Z (Z.lor 128 code)]
  | _ => byte.of_Z code :: name ++ [Byte.x00]
  end.

Lemma header_bytes_pos name v : (0 < length (header_bytes name v))%nat.
Proof. destruct name; cbn; lia. Qed.

Definition container_bytes (sub : list byte) : list byte :=
  write7_bytes 10 (len sub + 1) ++ sub ++ [Byte.x00].

Fixpoint db_bytes (name : list byte) (v : DbValue) : list byte :=
  header_bytes name v ++
  match v with
  | DbBool b => [if b then Byte.x01 else Byte.x00]
  | DbString s => write7_bytes 5 (len s) ++ s
  | DbInt i => le_split 4 i
  | DbList l => container_bytes (mjoin (db_bytes [] <$> l))
  | DbMap m => container_bytes (mjoin ((fun '(k, x) => db_bytes k x) <$> m))
  | _ => []
  end.

(** The values [Save] supports and [Load] can give back: no NUL inside strings
    and keys, 32-bit integers, maps in key order. *)
Fixpoint db_wf (v : DbValue) : Prop :=
  match v with
  | DbBool _ => True
  | DbInt i => is_u32 i
  | DbString s => Byte.x00 ∉ s
  | DbList l => Forall id (db_wf <$> l)
  | DbMap m => omap_wf m /\ Forall (fun kv => Byte.x00 ∉ kv.1) m /\ Forall id ((fun kv => db_wf kv.2) <$> m)
  | _ => False
  end.

Lemma db_wf_list l : db_wf (DbList l) <-> Forall db_wf l.
Proof. cbn. by rewrite Forall_fmap. Qed.

Lemma db_wf_map m :
  db_wf (DbMap m) <->
  omap_wf m /\ Forall (fun kv => Byte.x00 ∉ kv.1) m /\ Forall (fun kv => db_wf kv.2) m.
Proof. cbn. by rewrite Forall_fmap. Qed.

(** ** [Save] produces the reference bytes *)

Lemma write7_loop_wr fuel value l :
  (0 < fuel)%nat -> 0 <= value < 2 ^ (7 * Z.of_nat fuel) -> fits (l ++ write7_bytes fuel value) ->
  write7_loop fuel value (wr l) = Ok (wr (l ++ write7_bytes fuel value)).
Proof.
  revert value l. induction fuel as [|fuel IH]; intros value l Hpos Hv Hf; [lia|].
  cbn [write7_loop write7_bytes] in *.
  destruct (Z.leb_spec 128 value) as [H|H].
  - rewrite bb_put_wr; rewrite byte_of_u8; [|fits]. rewrite IH; [by rewrite <- app_assoc| | |by rewrite <- app_assoc].
    + destruct fuel; [change (2 ^ (7 * Z.of_nat 1)) with 128 in Hv|]; lia.
    + rewrite Z.shiftr_div_pow2 by lia. split; [apply Z.div_pos; lia|].
      apply Z.div_lt_upper_bound; [lia|]. rewrite <- Z.pow_add_r by lia.
      replace (7 + 7 * Z.of_nat fuel) with (7 * Z.of_nat (S fuel)) by lia. lia.
  - rewrite bb_put_wr; by rewrite byte_of_u8.
Qed.

Lemma write7_bytes_nonempty fuel v : (0 < fuel)%nat -> (1 <= length (write7_bytes fuel v))%nat.
Proof. destruct fuel; [lia|]. cbn. destruct (_ <=? _); cbn; lia. Qed.

Lemma save_header_wr name v :
  Byte.x00 ∉ name -> fits (header_bytes name v) ->
  save_header name v = wr (header_bytes name v).
Proof.
  intros Hn Hf. unfold save_header, header_bytes in *.
  change bb_empty with (wr []).
  destruct name as [|c name]; rewrite bb_put_wr by done; cbn [Z.land Z.eqb].
  - done.
  - rewrite Z.lor_0_l, bb_putNullTerminatedString_wr; [done..|]. fits.
Qed.

Lemma header_bytes_nonempty name v : (1 <= length (header_bytes name v))%nat.
Proof. destruct name; cbn; lia. Qed.

Lemma save_container_wr hd sub :
  fits (hd ++ container_bytes sub) ->
  save_container (wr hd) (wr sub) = Ok (wr (hd ++ container_bytes sub)).
Proof.
  unfold container_bytes. intros Hf.
  unfold save_container, write7BitEncodedLong. cbn [bb_buf wr].
  rewrite uwrap_small by (unfold urange; fits).
  rewrite write7_loop_wr; [|lia|split; [lia|change (2 ^ _) with (2 ^ 70); fits]|fits].
  cbn [mbind result_bind].
  rewrite bb_putBytes_wr by fits.
  unfold bb_put. rewrite bb_append_wr by fits. by rewrite <- !app_assoc.
Qed.

Lemma save_list_wr l sub :
  Forall (fun v => forall name, Byte.x00 ∉ name -> db_wf v -> fits (db_bytes name v) ->
    DbObject_Save name v = Ok (db_bytes name v)) l ->
  Forall db_wf l -> fits (sub ++ mjoin (db_bytes [] <$> l)) ->
  (fix go (l : list DbValue) (sub : ByteBuffer) : result ByteBuffer :=
     match l with
     | [] => Ok sub
     | item :: l' => buffer ← DbObject_Save [] item; go l' (bb_putBytes buffer sub)
     end) l (wr sub) = Ok (wr (sub ++ mjoin (db_bytes [] <$> l))).
Proof.
  intros Hl. revert sub. induction Hl as [|v l Hv Hl IH]; intros sub Hwf Hf.
  - cbn. by rewrite app_nil_r.
  - apply list.Forall_cons in Hwf as [Hwv Hwl]. cbn in Hf |- *.
    rewrite Hv by (first [done | fits | by apply not_elem_of_nil]). cbn [mbind result_bind].
    rewrite bb_putBytes_wr by fits.
    rewrite IH by (done || (rewrite <- app_assoc; done)). by rewrite <- app_assoc.
Qed.

Lemma save_map_wr m sub :
  Forall (fun kv => forall name, Byte.x00 ∉ name -> db_wf kv.2 -> fits (db_bytes name kv.2) ->
    DbObject_Save name kv.2 = Ok (db_bytes name kv.2)) m ->
  Forall (fun kv => Byte.x00 ∉ kv.1) m -> Forall (fun kv => db_wf kv.2) m ->
  fits (sub ++ mjoin ((fun '(k, x) => db_bytes k x) <$> m)) ->
  (fix go (m : list (list byte * DbValue)) (sub : ByteBuffer) : result ByteBuffer :=
     match m with
     | [] => Ok sub
     | (key, val) :: m' => buffer ← DbObject_Save key val; go m' (bb_putBytes buffer sub)
     end) m (wr sub) = Ok (wr (sub ++ mjoin ((fun '(k, x) => db_bytes k x) <$> m))).
Proof.
  intros Hm. revert sub. induction Hm as [|[k v] m Hv Hm IH]; intros sub Hk Hwf Hf.
  - cbn. by rewrite app_nil_r.
  - apply list.Forall_cons in Hwf as [Hwv Hwm]. apply list.Forall_cons in Hk as [Hkv Hkm]. cbn in *.
    rewrite Hv by (done || fits). cbn [mbind result_bind].
    rewrite bb_putBytes_wr by fits.
    rewrite IH by (done || (rewrite <- app_assoc; done)). by rewrite <- app_assoc.
Qed.

Lemma DbObject_Save_bytes v name :
  Byte.x00 ∉ name -> db_wf v -> fits (db_bytes name v) ->
  DbObject_Save name v = Ok (db_bytes name v).
Proof.
  revert name. induction v as [v Hnl Hnm|l IH|m IH] using DbValue_nested_ind; intros name Hn Hwf Hf.
  - destruct v; try (exfalso; exact Hwf); try (by edestruct Hnl); try (by edestruct Hnm);
      cbn [DbObject_Save db_bytes] in *; rewrite save_header_wr by (done || fits).
    + unfold bb_put. rewrite bb_append_wr by (destruct b; fits). by destruct b.
    + unfold bb_putInt. by rewrite bb_append_wr.
    + unfold write7BitEncodedInt. rewrite uwrap_small by (unfold urange; fits).
      rewrite write7_loop_wr; [|lia|split; [lia|change (2 ^ _) with (2 ^ 35); fits]|fits].
      cbn [mbind result_bind]. rewrite bb_putBytes_wr by fits.
      by rewrite <- app_assoc.
  - apply db_wf_list in Hwf. cbn [DbObject_Save db_bytes] in *.
    rewrite save_header_wr by (done || fits). change bb_empty with (wr []).
    rewrite save_list_wr by (done || (unfold container_bytes in Hf; fits)). cbn [mbind result_bind app].
    rewrite save_container_wr by done. done.
  - apply db_wf_map in Hwf as (_ & Hk & Hwf). cbn [DbObject_Save db_bytes] in *.
    rewrite save_header_wr by (done || fits). change bb_empty with (wr []).
    rewrite save_map_wr by (done || (unfold container_bytes in Hf; fits)). cbn [mbind result_bind app].
    rewrite save_container_wr by done. done.
Qed.

(** ** The 7-bit readers invert the writers *)

Lemma group_low v : Z.land (Z.lor v 128 mod 256) 127 = v mod 128.
Proof.
  change 127 with (Z.ones 7). rewrite Z.land_ones by lia. change (2 ^ 7) with 128.
  rewrite Z.mod_mod_divide by (by exists 2).
  change 128 with (2 ^ 7) at 2 3. rewrite <- !Z.land_ones, Z.land_lor_distr_l by lia.
  change (Z.land 128 (Z.ones 7)) with 0. by rewrite Z.lor_0_r.
Qed.

Lemma group_more v : Z.shiftr (Z.lor v 128 mod 256) 7 = 1.
Proof.
  rewrite Z.shiftr_div_pow2 by lia. change (2 ^ 7) with 128.
  change 256 with (128 * 2). rewrite Z.rem_mul_r, Z.add_comm, Z.mul_comm by lia.
  rewrite Z.div_add_l by lia. rewrite (Z.div_small (_ mod _)) by (apply Z.mod_pos_bound; lia).
  change 128 with (2 ^ 7) at 2. rewrite <- Z.shiftr_div_pow2, Z.shiftr_lor by lia.
  change (Z.shiftr 128 7) with 1. change 2 with (2 ^ 1). rewrite <- Z.land_ones, Z.land_lor_distr_l by lia.
  change (Z.land 1 (Z.ones 1)) with 1. rewrite Z.land_ones by lia. change (2 ^ 1) with 2.
  pose proof (Z.mod_pos_bound (Z.shiftr v 7) 2 ltac:(lia)) as Hm.
  assert (Z.shiftr v 7 mod 2 = 0 \/ Z.shiftr v 7 mod 2 = 1) as [-> | ->] by lia; done.
Qed.

Lemma read7_loop_write n m i acc v pre rest w :
  (0 < n)%nat -> (0 < m)%nat -> 0 <= i < 32 -> 0 <= acc < 2 ^ i -> 0 <= v ->
  v < 2 ^ (7 * Z.of_nat n) -> v < 2 ^ (7 * Z.of_nat m) -> (acc + v * 2 ^ i) < 2 ^ 31 ->
  fits (pre ++ write7_bytes n v ++ rest) ->
  read7_loop m acc i (cur pre (write7_bytes n v ++ rest) w)
    = Ok (acc + v * 2 ^ i, cur (pre ++ write7_bytes n v) rest w).
Proof.
  revert m i acc v pre. induction n as [|n IH]; intros m i acc v pre Hn Hm Hi Hacc Hv Hvn Hvm Hb Hf; [lia|].
  destruct m as [|m]; [lia|]. cbn [write7_bytes read7_loop] in *.
  assert (Hpow : 0 < 2 ^ i) by (apply Z.pow_pos_nonneg; lia).
  unfold mbind, Rd_bind, bb_get.
  destruct (Z.leb_spec 128 v) as [Hge|Hlt].
  - change (byte.of_Z (Z.lor v 128) :: write7_bytes n (Z.shiftr v 7))
      with ([byte.of_Z (Z.lor v 128)] ++ write7_bytes n (Z.shiftr v 7)) in *.
    rewrite <- app_assoc in *. rewrite bb_read_cur by done.
    rewrite le_combine_1, byte.unsigned_of_Z. unfold byte.wrap. change (2 ^ 8) with 256.
    destruct (Z.leb_spec 32 i) as [?|_]; [lia|]. rewrite group_low, group_more.
    cbn [Z.eqb]. rewrite Z.shiftl_mul_pow2 by lia.
    pose proof (Z.div_mod v 128 ltac:(lia)) as Hdm.
    pose proof (Z.mod_pos_bound v 128 ltac:(lia)) as Hmb.
    assert (Hdiv : 1 <= v / 128) by (apply Z.div_le_lower_bound; lia).
    assert (Hi7 : 2 ^ (i + 7) = 128 * 2 ^ i) by (rewrite Z.pow_add_r by lia; lia).
    rewrite (swrap_small 32) by (unfold srange; nia).
    rewrite lor_shift_add by lia. rewrite Z.shiftr_div_pow2 in * by lia.
    change (2 ^ 7) with 128 in *.
    assert (Hi31 : i + 7 < 31).
    { apply (Z.pow_lt_mono_r_iff 2); [lia..|]. rewrite Hi7. nia. }
    rewrite IH; [| | |lia|nia|lia| | |nia|].
    + rewrite Hi7. rewrite <- app_assoc. do 2 f_equal. nia.
    + destruct n; [|lia]. change (2 ^ (7 * Z.of_nat 1)) with 128 in Hvn. lia.
    + destruct m; [|lia]. change (2 ^ (7 * Z.of_nat 1)) with 128 in Hvm. lia.
    + apply Z.div_lt_upper_bound; [lia|]. change 128 with (2 ^ 7).
      rewrite <- Z.pow_add_r by lia. replace (7 + 7 * Z.of_nat n) with (7 * Z.of_nat (S n)) by lia. lia.
    + apply Z.div_lt_upper_bound; [lia|]. change 128 with (2 ^ 7).
      rewrite <- Z.pow_add_r by lia. replace (7 + 7 * Z.of_nat m) with (7 * Z.of_nat (S m)) by lia. lia.
    + by rewrite <- app_assoc.
  - rewrite bb_read_cur by done.
    rewrite le_combine_1, byte.unsigned_of_Z. unfold byte.wrap. change (2 ^ 8) with 256.
    rewrite (Z.mod_small v 256) by lia.
    destruct (Z.leb_spec 32 i) as [?|_]; [lia|].
    change 127 with (Z.ones 7). rewrite Z.land_ones, Z.mod_small, Z.shiftl_mul_pow2 by lia.
    rewrite (swrap_small 32) by (unfold srange; nia). rewrite lor_shift_add by lia.
    rewrite Z.shiftr_div_pow2, Z.div_small by lia. done.
Qed.

(** A length below 2^31 survives the 7-bit encoding. *)
Lemma read7_write7 n pre v rest w :
  (n = 5 \/ n = 10)%nat -> 0 <= v < 2 ^ 31 -> fits (pre ++ write7_bytes n v ++ rest) ->
  read7_loop 6 0 0 (cur pre (write7_bytes n v ++ rest) w)
    = Ok (v, cur (pre ++ write7_bytes n v) rest w).
Proof.
  intros Hn Hv Hf. rewrite read7_loop_write; try lia; try done.
  - by rewrite Z.pow_0_r, Z.mul_1_r.
  - destruct Hn as [-> | ->]; [change (2 ^ _) with (2 ^ 35)|change (2 ^ _) with (2 ^ 70)]; lia.
Qed.

(** ** Round trip *)

Fixpoint load_fuel (v : DbValue) : nat :=
  match v with
  | DbList l => S (2 + foldr (fun x n => S (load_fuel x + n)) 0 l)%nat
  | DbMap m => S (2 + foldr (fun kv n => S (load_fuel kv.2 + n)) 0 m)%nat
  | _ => 1%nat
  end.

Definition list_fuel (l : list DbValue) : nat :=
  (2 + foldr (fun x n => S (load_fuel x + n)) 0 l)%nat.
Definition map_fuel (m : list (list byte * DbValue)) : nat :=
  (2 + foldr (fun kv n => S (load_fuel kv.2 + n)) 0 m)%nat.

(** The bound under which sizes are non-negative [long]s. *)
Definition small (l : list byte) : Prop := len l < 2 ^ 31.

Ltac small := unfold small in *; fits.

Lemma small_fits l : small l -> fits l.
Proof. small. Qed.

(** What the induction says of one value: from any point of a buffer, [Load]
    reads back exactly the bytes of the value. *)
Definition loads (v : DbValue) : Prop :=
  forall name fuel pre rest w,
    Byte.x00 ∉ name -> db_wf v -> (load_fuel v <= fuel)%nat ->
    small (pre ++ db_bytes name v ++ rest) ->
    load_object fuel (cur pre (db_bytes name v ++ rest) w)
      = Ok (Some (name, v), cur (pre ++ db_bytes name v) rest w).

Lemma load_name name pre code rest w :
  Byte.x00 ∉ name -> 0 <= code < 32 ->
  let hd := match name with
            | [] => [byte.of_Z (Z.lor 128 code)]
            | _ => byte.of_Z code :: name ++ [Byte.x00] end in
  small (pre ++ hd ++ rest) ->
  exists flags b1,
    bb_get (cur pre (hd ++ rest) w) = Ok (flags, b1) /\ Z.land flags 31 = code /\
    (if Z.land flags 128 =? 0 then bb_getNullTerminatedString else mret []) b1
      = Ok (name, cur (pre ++ hd) rest w).
Proof.
  intros Hn Hc hd Hs.
  assert (Hall : forallb (fun c => (Z.land (Z.lor 128 c) 31 =? c) && (Z.land c 31 =? c)
      && negb (Z.land (Z.lor 128 c) 128 =? 0) && (Z.land c 128 =? 0) && (Z.lor 128 c <? 256))
      (Z.of_nat <$> seq 0 32) = true) by (vm_compute; reflexivity).
  rewrite forallb_forall in Hall. specialize (Hall code).
  rewrite !andb_true_iff, !Z.eqb_eq, negb_true_iff, Z.eqb_neq, Z.ltb_lt in Hall.
  destruct Hall as [[[[H1 H2] H3] H4] H5].
  { apply in_map_iff. exists (Z.to_nat code). rewrite in_seq. lia. }
  assert (H6 : 0 <= Z.lor 128 code) by (apply Z.lor_nonneg; lia).
  destruct name as [|c name]; subst hd; cbn beta iota in *.
  - eexists _, _. split; [apply bb_read_cur; [done|by apply small_fits]|].
    rewrite le_combine_1, byte.unsigned_of_Z. unfold byte.wrap.
    rewrite Z.mod_small by lia. split; [done|].
    by apply Z.eqb_neq in H3 as ->.
  - eexists _, _. split.
    { change (byte.of_Z code :: (c :: name) ++ [Byte.x00])
        with ([byte.of_Z code] ++ (c :: name) ++ [Byte.x00]).
      rewrite <- app_assoc. apply bb_read_cur; [done|].
      apply small_fits. revert Hs. cbn. done. }
    rewrite le_combine_1, byte.unsigned_of_Z. unfold byte.wrap.
    rewrite Z.mod_small by lia. split; [done|].
    rewrite H4, Z.eqb_refl. cbn [app].
    change (c :: (name ++ [Byte.x00]) ++ rest) with (((c :: name) ++ [Byte.x00]) ++ rest).
    rewrite <- (app_assoc (c :: name)). cbn [app].
    change (c :: name ++ Byte.x00 :: rest) with ((c :: name) ++ Byte.x00 :: rest).
    rewrite bb_getNullTerminatedString_cur; [by rewrite <- app_assoc|done|small].
Qed.

Lemma load_terminator fuel pre rest w :
  (0 < fuel)%nat -> small (pre ++ [Byte.x00] ++ rest) ->
  load_object fuel (cur pre ([Byte.x00] ++ rest) w) = Ok (None, cur (pre ++ [Byte.x00]) rest w).
Proof.
  intros Hf Hs. destruct fuel as [|fuel]; [lia|]. cbn [load_object].
  unfold mbind, Rd_bind, bb_get. rewrite bb_read_cur by (done || by apply small_fits). done.
Qed.

(** The loop condition holds as long as the terminator is unread. *)
Lemma load_continues pre rest offset size more :
  0 <= offset <= len pre -> small (pre ++ more ++ rest) ->
  len pre - offset + len more = size -> (0 < length more)%nat ->
  (u32 (len pre - offset) <? u32 size) = true.
Proof.
  intros Ho Hs Hsz Hm. apply Z.ltb_lt. rewrite !uwrap_small; [lia|unfold urange..]; small.
Qed.

Lemma load_list_items l values fuel size offset pre rest w :
  Forall loads l -> Forall db_wf l -> (list_fuel l <= fuel)%nat ->
  0 <= offset <= len pre ->
  len pre - offset + len (mjoin (db_bytes [] <$> l) ++ [Byte.x00]) = size ->
  small (pre ++ (mjoin (db_bytes [] <$> l) ++ [Byte.x00]) ++ rest) ->
  load_list fuel size offset values (cur pre ((mjoin (db_bytes [] <$> l) ++ [Byte.x00]) ++ rest) w)
    = Ok (values ++ l, cur (pre ++ mjoin (db_bytes [] <$> l) ++ [Byte.x00]) rest w).
Proof.
  intros Hl. revert values fuel pre. induction Hl as [|v l Hv Hl IH]; intros values fuel pre Hwf Hfuel Ho Hsz Hs.
  - destruct fuel as [|fuel]; [cbn in Hfuel; lia|]. cbn [load_list].
    unfold mbind, Rd_bind, Rd_gets. cbn [bb_rpos cur].
    erewrite load_continues; [|done|exact Hs|done|cbn; lia].
    cbn [mjoin list_join fmap list_fmap] in *. rewrite !app_nil_l in *.
    rewrite load_terminator by (done || (cbn in Hfuel; lia)). by rewrite app_nil_r.
  - apply list.Forall_cons in Hwf as [Hwv Hwl].
    destruct fuel as [|fuel]; [cbn in Hfuel; lia|]. cbn [load_list].
    unfold mbind at 1, Rd_bind at 1, Rd_gets at 1. cbn [bb_rpos cur].
    erewrite load_continues; [|done|exact Hs|done|rewrite length_app; cbn; lia].
    unfold list_fuel in Hfuel. cbn [foldr] in Hfuel.
    change (mjoin (db_bytes [] <$> v :: l)) with (db_bytes [] v ++ mjoin (db_bytes [] <$> l)) in *.
    unfold mbind, Rd_bind. rewrite <- !app_assoc.
    rewrite Hv; [|by apply not_elem_of_nil|done|lia|rewrite <- !app_assoc in Hs; done].
    rewrite (app_assoc (mjoin _)), IH; [|done|unfold list_fuel; lia| | |].
    + by rewrite <- !app_assoc.
    + rewrite length_app. lia.
    + rewrite <- Hsz, !length_app. cbn [length]. lia.
    + by rewrite <- !app_assoc in *.
Qed.

Lemma load_map_items m values fuel size offset pre rest w :
  Forall (fun kv => loads kv.2) m -> Forall (fun kv => Byte.x00 ∉ kv.1) m ->
  Forall (fun kv => db_wf kv.2) m -> omap_wf (values ++ m) -> (map_fuel m <= fuel)%nat ->
  0 <= offset <= len pre ->
  len pre - offset + len (mjoin ((fun '(k, x) => db_bytes k x) <$> m) ++ [Byte.x00]) = size ->
  small (pre ++ (mjoin ((fun '(k, x) => db_bytes k x) <$> m) ++ [Byte.x00]) ++ rest) ->
  load_map fuel size offset values
      (cur pre ((mjoin ((fun '(k, x) => db_bytes k x) <$> m) ++ [Byte.x00]) ++ rest) w)
    = Ok (values ++ m, cur (pre ++ mjoin ((fun '(k, x) => db_bytes k x) <$> m) ++ [Byte.x00]) rest w).
Proof.
  intros Hm. revert values fuel pre.
  induction Hm as [|[k v] m Hv Hm IH]; intros values fuel pre Hk Hwf Hord Hfuel Ho Hsz Hs.
  - destruct fuel as [|fuel]; [cbn in Hfuel; lia|]. cbn [load_map].
    unfold mbind, Rd_bind, Rd_gets. cbn [bb_rpos cur].
    erewrite load_continues; [|done|exact Hs|done|cbn; lia].
    cbn [mjoin list_join fmap list_fmap] in *. rewrite !app_nil_l in *.
    rewrite load_terminator by (done || (cbn in Hfuel; lia)). by rewrite app_nil_r.
  - apply list.Forall_cons in Hwf as [Hwv Hwl]. apply list.Forall_cons in Hk as [Hkv Hkl].
    cbn [fst snd] in *.
    destruct fuel as [|fuel]; [cbn in Hfuel; lia|]. cbn [load_map].
    unfold mbind at 1, Rd_bind at 1, Rd_gets at 1. cbn [bb_rpos cur].
    erewrite load_continues; [|done|exact Hs|done|rewrite length_app; cbn; lia].
    unfold map_fuel in Hfuel. cbn [foldr snd] in Hfuel.
    change (mjoin ((fun '(k, x) => db_bytes k x) <$> (k, v) :: m))
      with (db_bytes k v ++ mjoin ((fun '(k, x) => db_bytes k x) <$> m)) in *.
    unfold mbind, Rd_bind. rewrite <- !app_assoc.
    rewrite Hv; [|done|done|lia|rewrite <- !app_assoc in Hs; done].
    rewrite omap_emplace_snoc.
    2: { intros k' v' Hin. apply (omap_wf_app_inv _ _ (k', v') (k, v) Hord Hin). by left. }
    rewrite (app_assoc (mjoin _)), IH; [|done|done|by rewrite <- app_assoc|unfold map_fuel; lia| | |].
    + by rewrite <- !app_assoc.
    + rewrite length_app. lia.
    + rewrite <- Hsz, !length_app. cbn [length]. lia.
    + by rewrite <- !app_assoc in *.
Qed.


Lemma load_object_header fuel name v pre rest w :
  Byte.x00 ∉ name -> v <> DbNull -> small (pre ++ header_bytes name v ++ rest) ->
  load_object (S fuel) (cur pre (header_bytes name v ++ rest) w)
    = (o ← load_body (fun size offset => l ← load_list fuel size offset []; mret (DbList l))
                     (fun size offset => m ← load_map fuel size offset []; mret (DbMap m))
                     (DbType_code (DbObject_GetType v));
       mret (match o with Some v => Some (name, v) | None => None end))
      (cur (pre ++ header_bytes name v) rest w).
Proof.
  intros Hn Hv Hs.
  assert (Hcode : 0 < DbType_code (DbObject_GetType v) < 32) by (destruct v; done).
  destruct (load_name name pre (DbType_code (DbObject_GetType v)) rest w)
    as (flags & b1 & Hget & Hty & Hname); [done|lia|done|].
  cbn [load_object]. unfold mbind at 1, Rd_bind at 1. unfold header_bytes at 1. cbv zeta.
  rewrite Hget, Hty. destruct (Z.eqb_spec (DbType_code (DbObject_GetType v)) 0); [lia|].
  unfold mbind at 1, Rd_bind at 1. by rewrite Hname.
Qed.

Lemma read7_cur n pre v rest w :
  (n = 5 \/ n = 10)%nat -> 0 <= v < 2 ^ 31 -> small (pre ++ write7_bytes n v ++ rest) ->
  read7_loop 6 0 0 (cur pre (write7_bytes n v ++ rest) w) = Ok (v, cur (pre ++ write7_bytes n v) rest w).
Proof. intros. apply read7_write7; [done..|by apply small_fits]. Qed.

Lemma load_object_loads v : loads v.
Proof.
  induction v as [v Hnl Hnm|l IH|m IH] using DbValue_nested_ind;
    intros name fuel pre rest w Hn Hwf Hfuel Hs.
  - destruct fuel as [|fuel]; [destruct v; cbn in Hfuel; lia|].
    destruct v; try (exfalso; exact Hwf); try (by edestruct Hnl); try (by edestruct Hnm);
      cbn [db_bytes] in *; rewrite <- app_assoc in *;
      rewrite load_object_header by done; cbn [DbObject_GetType DbType_code];
      unfold load_body; cbn [Z.eqb Pos.eqb orb]; unfold mbind, Rd_bind.
    + unfold bb_get. rewrite bb_read_cur; [|done|by apply small_fits; rewrite <- app_assoc].
      rewrite le_combine_1, <- app_assoc. by destruct b.
    + unfold bb_getInt. rewrite bb_read_cur; [|by rewrite length_le_split|by apply small_fits; rewrite <- app_assoc].
      rewrite le_combine_split_small, <- app_assoc by done. done.
    + rewrite <- app_assoc in *. unfold load_string, read7BitEncodedInt, mbind, Rd_bind.
      rewrite read7_cur; [|by left|small|by rewrite <- app_assoc].
      destruct (Z.ltb_spec (len s) (-1)); [lia|]. destruct (Z.eqb_spec (len s) (-1)); [lia|].
      destruct (Z.leb_spec (2 ^ 31 - 1) (len s)) as [Hbig|_].
      { pose proof (header_bytes_pos name (DbString s)). exfalso. small. }
      cbn [orb].
      rewrite Nat2Z.id, bb_getBytes_cur by (apply small_fits; by rewrite <- !app_assoc).
      cbn [mret Rd_ret]. rewrite c_str_id, <- !app_assoc by done. done.
  - destruct fuel as [|fuel]; [cbn in Hfuel; lia|]. apply db_wf_list in Hwf.
    cbn [db_bytes] in *. unfold container_bytes in *. rewrite <- !app_assoc in *.
    rewrite load_object_header by done. cbn [DbObject_GetType DbType_code].
    unfold load_body, read7BitEncodedLong, Rd_gets. cbn [Z.eqb Pos.eqb]. unfold mbind, Rd_bind.
    rewrite read7_cur; [|by right|small|by rewrite <- !app_assoc]. cbn [bb_rpos cur].
    rewrite (app_assoc (mjoin _)), load_list_items; [|done|done| |lia| |].
    + by rewrite <- !app_assoc.
    + cbn in Hfuel |- *. unfold list_fuel. lia.
    + rewrite !length_app. cbn [length]. lia.
    + by rewrite <- !app_assoc.
  - destruct fuel as [|fuel]; [cbn in Hfuel; lia|]. apply db_wf_map in Hwf as (Hord & Hk & Hwf).
    cbn [db_bytes] in *. unfold container_bytes in *. rewrite <- !app_assoc in *.
    rewrite load_object_header by done. cbn [DbObject_GetType DbType_code].
    unfold load_body, read7BitEncodedLong, Rd_gets. cbn [Z.eqb Pos.eqb]. unfold mbind, Rd_bind.
    rewrite read7_cur; [|by right|small|by rewrite <- !app_assoc]. cbn [bb_rpos cur].
    rewrite (app_assoc (mjoin _)), load_map_items; [|done..| |lia| |].
    + by rewrite <- !app_assoc.
    + cbn in Hfuel |- *. unfold map_fuel. lia.
    + rewrite !length_app. cbn [length]. lia.
    + by rewrite <- !app_assoc.
Qed.

(** Two units of fuel per byte suffice for values that were saved. *)
Lemma load_fuel_bytes v name : (load_fuel v + 1 <= 2 * length (db_bytes name v))%nat.
Proof.
  revert name. induction v as [v Hnl Hnm|l IH|m IH] using DbValue_nested_ind; intros name;
    [pose proof (header_bytes_nonempty name v)|pose proof (header_bytes_nonempty name (DbList l))
    |pose proof (header_bytes_nonempty name (DbMap m))].
  - assert (load_fuel v = 1%nat) as -> by (destruct v; first [done | by edestruct Hnl | by edestruct Hnm]).
    destruct v; cbn [db_bytes]; rewrite length_app; lia.
  - cbn [db_bytes load_fuel]. unfold container_bytes. rewrite !length_app. cbn [length].
    enough (foldr (fun x n => S (load_fuel x + n)) 0 l <= 2 * length (mjoin (db_bytes [] <$> l)))%nat
      by (pose proof (write7_bytes_nonempty 10 (len (mjoin (db_bytes [] <$> l)) + 1)); lia).
    clear -IH. induction IH as [|x l Hx _ IH]; [cbn; lia|]. cbn [foldr].
    change (mjoin (db_bytes [] <$> x :: l)) with (db_bytes [] x ++ mjoin (db_bytes [] <$> l)).
    rewrite length_app. specialize (Hx []). lia.
  - cbn [db_bytes load_fuel]. unfold container_bytes. rewrite !length_app. cbn [length].
    enough (foldr (fun kv n => S (load_fuel kv.2 + n)) 0 m
              <= 2 * length (mjoin ((fun '(k, x) => db_bytes k x) <$> m)))%nat
      by (pose proof (write7_bytes_nonempty 10 (len (mjoin ((fun '(k, x) => db_bytes k x) <$> m)) + 1)); lia).
    clear -IH. induction IH as [|[k x] m Hx _ IH]; [cbn; lia|]. cbn [foldr snd].
    change (mjoin ((fun '(k, x) => db_bytes k x) <$> (k, x) :: m))
      with (db_bytes k x ++ mjoin ((fun '(k, x) => db_bytes k x) <$> m)).
    rewrite length_app. specialize (Hx k). cbn in Hx. lia.
Qed.

(** The bytes of a value, read from the point where they stand. *)
Lemma DbObject_Load_bytes name v pre rest w :
  Byte.x00 ∉ name -> db_wf v -> small (pre ++ db_bytes name v ++ rest) ->
  DbObject_Load (cur pre (db_bytes name v ++ rest) w)
    = Ok (Some (name, v), cur (pre ++ db_bytes name v) rest w).
Proof.
  intros Hn Hwf Hs. unfold DbObject_Load. apply load_object_loads; [done..| |done].
  pose proof (load_fuel_bytes v name). cbn [bb_buf cur]. rewrite !length_app. lia.
Qed.

(** C11: [Load] reads back what [Save] wrote, wherever it stands in a buffer. *)
Theorem DbObject_roundtrip name v pre rest w :
  Byte.x00 ∉ name -> db_wf v -> small (pre ++ db_bytes name v ++ rest) ->
  DbObject_Save name v = Ok (db_bytes name v) /\
  DbObject_Load (cur pre (db_bytes name v ++ rest) w)
    = Ok (Some (name, v), cur (pre ++ db_bytes name v) rest w).
Proof.
  intros Hn Hwf Hs. split; [apply DbObject_Save_bytes; [done..|small]|by apply DbObject_Load_bytes].
Qed.

(** ** Termination of [Load] on arbitrary bytes

    A reader [advances] when it leaves the buffer alone, moves the position
    into the given range and does not run out of fuel. *)

Definition advances {A} (r : result (A * ByteBuffer)) (b : ByteBuffer) (lo hi : Z) : Prop :=
  match r with
  | Ok (_, b') => bb_buf b' = bb_buf b /\ lo <= bb_rpos b' <= hi
  | Fault e => e <> OutOfFuel
  end.

Lemma advances_weaken {A} (r : result (A * ByteBuffer)) b lo hi lo' hi' :
  advances r b lo hi -> lo' <= lo -> hi <= hi' -> advances r b lo' hi'.
Proof. destruct r as [[a b']|e]; cbn; [|done]. intros [? ?] ??. split; [done|lia]. Qed.

Lemma advances_bind {A B} (m : Rd A) (f : A -> Rd B) b lo hi lo' hi' :
  advances (m b) b lo hi ->
  (forall a b', bb_buf b' = bb_buf b -> lo <= bb_rpos b' <= hi -> advances (f a b') b' lo' hi') ->
  advances ((m ≫= f) b) b lo' hi'.
Proof.
  unfold mbind, Rd_bind. destruct (m b) as [[a b']|e]; cbn [advances]; [|done].
  intros [Hb Hr] Hf. specialize (Hf a b' Hb Hr). destruct (f a b') as [[c b'']|e]; cbn in *; [|done].
  destruct Hf as [Hc ?]. split; [congruence|done].
Qed.

Lemma advances_ret {A} (a : A) b lo hi :
  lo <= bb_rpos b <= hi -> advances ((mret a : Rd A) b) b lo hi.
Proof. done. Qed.

Lemma bb_read_advances n b :
  0 <= bb_rpos b -> bb_rpos b + Z.of_nat n < 2 ^ 32 ->
  advances (bb_read n b) b (bb_rpos b + Z.of_nat n) (bb_rpos b + Z.of_nat n).
Proof. intros. cbn. rewrite uwrap_small by (unfold urange; lia). split; [done|lia]. Qed.

Lemma bb_getBytes_advances n b :
  0 <= bb_rpos b -> bb_rpos b + Z.of_nat n < 2 ^ 32 ->
  advances (bb_getBytes n b) b (bb_rpos b + Z.of_nat n) (bb_rpos b + Z.of_nat n).
Proof.
  revert b. induction n as [|n IH]; intros b H0 H1; [cbn; split; [done|lia]|].
  cbn [bb_getBytes]. eapply advances_bind; [apply bb_read_advances; lia|].
  intros a b' Hb Hr. eapply advances_bind; [apply IH; lia|].
  intros a' b'' Hb' Hr'. apply advances_ret. lia.
Qed.

Lemma find_nul_bound l k : find_nul l = Some k -> (k < length l)%nat.
Proof.
  revert k. induction l as [|c l IH]; intros k; cbn; [done|].
  destruct (decide _); [intros [= <-]; lia|].
  destruct (find_nul l) as [k'|]; [|done]. intros [= <-]. specialize (IH k' eq_refl). lia.
Qed.

Lemma getString_advances b :
  0 <= bb_rpos b -> len (bb_buf b) < 2 ^ 32 ->
  advances (bb_getNullTerminatedString b) b (bb_rpos b + 1) (len (bb_buf b)).
Proof.
  intros H0 H1. unfold bb_getNullTerminatedString.
  destruct (find_nul _) as [k|] eqn:E; [|done].
  apply find_nul_bound in E. rewrite length_drop in E. cbn.
  rewrite uwrap_small by (unfold urange; lia). split; [done|lia].
Qed.

Lemma read7_loop_advances m acc i b :
  (1 <= m <= 6)%nat -> 42 <= i + 7 * Z.of_nat m ->
  0 <= bb_rpos b -> bb_rpos b + Z.of_nat m < 2 ^ 32 ->
  advances (read7_loop m acc i b) b (bb_rpos b + 1) (bb_rpos b + Z.of_nat m).
Proof.
  revert acc i b. induction m as [|m IH]; intros acc i b Hm Hi H0 H1; [lia|].
  cbn [read7_loop]. eapply advances_bind; [apply bb_read_advances; lia|].
  intros c b' Hb Hr. destruct (Z.leb_spec 32 i); [done|].
  destruct (_ =? 0); [apply advances_ret; lia|].
  eapply advances_weaken; [apply IH; lia|lia..].
Qed.

Lemma read7_advances b :
  0 <= bb_rpos b -> bb_rpos b + 6 < 2 ^ 32 ->
  advances (read7_loop 6 0 0 b) b (bb_rpos b + 1) (bb_rpos b + 6).
Proof. intros. apply read7_loop_advances; lia. Qed.

Lemma read7_loop_int m acc i b :
  is_i32 acc -> match read7_loop m acc i b with Ok (v, _) => is_i32 v | Fault _ => True end.
Proof.
  revert acc i b. induction m as [|m IH]; intros acc i b Hacc; cbn [read7_loop]; [done|].
  unfold mbind, Rd_bind, bb_get. destruct (bb_read 1 b) as [[c b']|]; [|done].
  destruct (_ <=? _); [done|].
  assert (His : forall z, is_i32 z <-> Z.shiftr z 31 = 0 \/ Z.shiftr z 31 = -1).
  { intros z. rewrite Z.shiftr_div_pow2 by lia. unfold srange. change (2 ^ (32 - 1)) with (2 ^ 31).
    pose proof (Z.div_mod z (2 ^ 31) ltac:(lia)). pose proof (Z.mod_pos_bound z (2 ^ 31) ltac:(lia)). lia. }
  assert (Hlor : is_i32 (Z.lor acc (i32 (Z.shiftl (Z.land c 127) i)))).
  { assert (Hs : is_i32 (i32 (Z.shiftl (Z.land c 127) i))).
    { unfold swrap, srange. pose proof (Z.mod_pos_bound (Z.shiftl (Z.land c 127) i + 2 ^ (32 - 1)) (2 ^ 32) ltac:(lia)).
      change (2 ^ (32 - 1)) with (2 ^ 31) in *. lia. }
    apply His in Hacc, Hs. apply His. rewrite Z.shiftr_lor.
    destruct Hacc as [-> | ->], Hs as [-> | ->]; cbn; auto. }
  destruct (_ =? 0); [done|]. by apply IH.
Qed.

Lemma load_string_advances b :
  0 <= bb_rpos b -> bb_rpos b + 6 + 2 ^ 31 < 2 ^ 32 ->
  advances (load_string b) b (bb_rpos b + 1) (bb_rpos b + 6 + 2 ^ 31).
Proof.
  intros H0 H1. unfold load_string, read7BitEncodedInt.
  pose proof (read7_advances b) as Hadv.
  pose proof (read7_loop_int 6 0 0 b ltac:(done)) as Hint.
  unfold mbind at 1, Rd_bind at 1.
  destruct (read7_loop 6 0 0 b) as [[size b']|e]; [|apply Hadv; lia].
  destruct Hadv as [Hb Hr]; [lia..|]. unfold srange in Hint. change (2 ^ (32 - 1)) with (2 ^ 31) in Hint.
  destruct (Z.ltb_spec size (-1)); [done|]. destruct (Z.eqb_spec size (-1)); [done|].
  destruct (Z.leb_spec (2 ^ 31 - 1) size); [done|]. cbn [orb].
  pose proof (bb_getBytes_advances (Z.to_nat size) b') as Hg.
  unfold mbind, Rd_bind. destruct (bb_getBytes (Z.to_nat size) b') as [[data b'']|e]; [|apply Hg; lia].
  destruct Hg as [Hb' Hr']; [lia..|]. cbn. rewrite Hb'. split; [done|lia].
Qed.

(** Past the end of the buffer every object is null. *)
Lemma load_object_end fuel b :
  (1 <= fuel)%nat -> len (bb_buf b) <= bb_rpos b -> bb_rpos b + 1 < 2 ^ 32 ->
  load_object fuel b = Ok (None, mkBB (bb_buf b) (bb_rpos b + 1) (bb_wpos b)).
Proof.
  intros Hf He Hb. destruct fuel as [|fuel]; [lia|]. cbn [load_object].
  unfold mbind at 1, Rd_bind at 1, bb_get.
  rewrite bb_read_at_end, uwrap_small by (unfold urange; lia). done.
Qed.

Section termination.
Variable buf : list byte.
Let N := len buf.
Hypothesis Hbuf : N < 2 ^ 29.

(** How far past the end an object read from [r] can leave the position. *)
Definition reach (r : Z) : Z := N + 2 ^ 31 + 8 + (N - r).

Definition object_ok (fuel : nat) : Prop := forall b,
  bb_buf b = buf -> 0 <= bb_rpos b < N -> 2 * (N - bb_rpos b) + 1 <= Z.of_nat fuel ->
  advances (load_object fuel b) b (bb_rpos b + 1) (reach (bb_rpos b)).

Definition loop_ok {A} (loop : nat -> Rd A) (fuel : nat) : Prop := forall b,
  bb_buf b = buf -> 0 <= bb_rpos b -> bb_rpos b + 1 < 2 ^ 32 ->
  2 * Z.max 0 (N - bb_rpos b) + 2 <= Z.of_nat fuel ->
  advances (loop fuel b) b (bb_rpos b) (Z.max (bb_rpos b) (reach (bb_rpos b)) + 1).

(** One round of either container loop. *)
Lemma loop_round {A} (f : option (list byte * DbValue) -> Rd A) fuel b :
  bb_buf b = buf -> 0 <= bb_rpos b -> bb_rpos b + 1 < 2 ^ 32 ->
  2 * Z.max 0 (N - bb_rpos b) + 1 <= Z.of_nat fuel ->
  object_ok fuel ->
  (forall b, advances (f None b) b (bb_rpos b) (bb_rpos b)) ->
  (forall kv b', bb_buf b' = buf -> bb_rpos b + 1 <= bb_rpos b' <= reach (bb_rpos b) ->
     bb_rpos b < N -> advances (f (Some kv) b') b' (bb_rpos b') (Z.max (bb_rpos b') (reach (bb_rpos b')) + 1)) ->
  advances ((load_object fuel ≫= f) b) b (bb_rpos b) (Z.max (bb_rpos b) (reach (bb_rpos b)) + 1).
Proof.
  intros Hb H0 H1 Hfuel Hobj Hnone Hsome.
  assert (HN : len (bb_buf b) = N) by (by rewrite Hb).
  destruct (Z.ltb_spec (bb_rpos b) N) as [Hin|Hout].
  - specialize (Hobj b Hb ltac:(lia) ltac:(lia)).
    unfold mbind, Rd_bind. destruct (load_object fuel b) as [[o b']|e]; [|done].
    destruct Hobj as [Hb' Hr]. destruct o as [kv|].
    + specialize (Hsome kv b' ltac:(congruence) Hr Hin).
      destruct (f (Some kv) b') as [[a b'']|e]; [|done]. cbn in *. unfold reach in *.
      destruct Hsome. split; [congruence|]. lia.
    + specialize (Hnone b'). destruct (f None b') as [[a b'']|e]; [|done]. cbn in *. unfold reach in *.
      destruct Hnone. split; [congruence|]. lia.
  - unfold mbind, Rd_bind. rewrite load_object_end by lia.
    set (b' := mkBB _ _ _). specialize (Hnone b').
    destruct (f None b') as [[a b'']|e]; [|done]. subst b'. cbn in *. unfold reach in *.
    destruct Hnone. split; [congruence|]. lia.
Qed.

Lemma load_list_ok fuel :
  (forall size offset values, loop_ok (fun fuel => load_list fuel size offset values) fuel) ->
  object_ok fuel ->
  forall size offset values, loop_ok (fun fuel => load_list fuel size offset values) (S fuel).
Proof.
  intros IH Hobj size offset values b Hb H0 H1 Hf. cbn [load_list].
  unfold mbind at 1, Rd_bind at 1, Rd_gets. destruct (_ <? _); [|cbn; split; [done|lia]].
  apply loop_round; [done..|lia|done| |].
  - intros b'. apply advances_ret. lia.
  - intros [k v] b' Hb' Hr Hlt. apply IH; [done|lia|unfold reach in Hr; lia|lia].
Qed.

Lemma load_map_ok fuel :
  (forall size offset values, loop_ok (fun fuel => load_map fuel size offset values) fuel) ->
  object_ok fuel ->
  forall size offset values, loop_ok (fun fuel => load_map fuel size offset values) (S fuel).
Proof.
  intros IH Hobj size offset values b Hb H0 H1 Hf. cbn [load_map].
  unfold mbind at 1, Rd_bind at 1, Rd_gets. destruct (_ <? _); [|cbn; split; [done|lia]].
  apply loop_round; [done..|lia|done| |].
  - intros b'. apply advances_ret. lia.
  - intros [k v] b' Hb' Hr Hlt. apply IH; [done|lia|unfold reach in Hr; lia|lia].
Qed.

Lemma load_container_advances (loop : nat -> Z -> Z -> Rd DbValue) fuel b :
  bb_buf b = buf -> 0 < bb_rpos b <= N -> 2 * (N - bb_rpos b) + 2 <= Z.of_nat fuel ->
  (forall size offset, loop_ok (fun fuel => loop fuel size offset) fuel) ->
  advances ((size ← read7BitEncodedLong; offset ← Rd_gets bb_rpos;
             v ← loop fuel size offset; mret (Some v)) b)
    b (bb_rpos b) (reach (bb_rpos b - 1)).
Proof.
  intros Hb Hr Hf Hloop. eapply advances_bind; [apply read7_advances; lia|].
  intros size b' Hb' Hr'. unfold mbind at 1, Rd_bind at 1, Rd_gets.
  eapply advances_bind.
  - apply Hloop; [congruence|lia..].
  - intros v b'' Hb'' Hr''. apply advances_ret. unfold reach in *. lia.
Qed.

Lemma load_body_advances ll lm fuel type b :
  bb_buf b = buf -> 0 < bb_rpos b <= N -> 2 * (N - bb_rpos b) + 2 <= Z.of_nat fuel ->
  (forall size offset, loop_ok (fun fuel => ll fuel size offset) fuel) ->
  (forall size offset, loop_ok (fun fuel => lm fuel size offset) fuel) ->
  advances (load_body (ll fuel) (lm fuel) type b) b (bb_rpos b) (reach (bb_rpos b - 1)).
Proof.
  intros Hb Hr Hf Hll Hlm. unfold load_body.
  assert (Hread : forall n (f : Z -> DbValue), (n <= 8)%nat ->
    advances ((x ← bb_read n; mret (Some (f x))) b) b (bb_rpos b) (reach (bb_rpos b - 1))).
  { intros n f Hn. eapply advances_bind; [apply bb_read_advances; lia|].
    intros a b' Hb' Hr'. apply advances_ret. unfold reach. lia. }
  destruct (type =? 1); [by apply load_container_advances|].
  destruct (type =? 2); [by apply load_container_advances|].
  destruct (type =? 6); [apply (Hread 1%nat (fun b => DbBool (b =? 1))); lia|].
  destruct (type =? 7).
  { eapply advances_bind; [apply load_string_advances; lia|].
    intros a b' Hb' Hr'. apply advances_ret. unfold reach. lia. }
  destruct (type =? 8); [apply Hread; lia|]. destruct (type =? 9); [apply Hread; lia|].
  destruct (type =? 11); [apply Hread; lia|]. destruct (type =? 12); [apply Hread; lia|].
  destruct (_ || _); [done|]. apply advances_ret. unfold reach. lia.
Qed.

Lemma load_object_ok fuel :
  (forall size offset values, loop_ok (fun fuel => load_list fuel size offset values) fuel) ->
  (forall size offset values, loop_ok (fun fuel => load_map fuel size offset values) fuel) ->
  object_ok (S fuel).
Proof.
  intros Hll Hlm b Hb Hr Hf. cbn [load_object].
  assert (HN : len (bb_buf b) = N) by (by rewrite Hb).
  eapply advances_bind; [apply bb_read_advances; lia|].
  intros flags b1 Hb1 Hr1. destruct (_ =? 0); [apply advances_ret; unfold reach; lia|].
  eapply (advances_bind _ _ _ (bb_rpos b + 1) N).
  { destruct (_ =? 0).
    - eapply advances_weaken; [apply getString_advances|..]; rewrite ?Hb1; lia.
    - apply advances_ret. lia. }
  intros name b2 Hb2 Hr2. eapply (advances_bind _ _ _ (bb_rpos b + 1) (reach (bb_rpos b))).
  { eapply advances_weaken;
      [apply (load_body_advances
                (fun fuel size offset => l ← load_list fuel size offset []; mret (DbList l))
                (fun fuel size offset => m ← load_map fuel size offset []; mret (DbMap m)))
      |lia|unfold reach; lia]; [congruence|lia|lia|..];
    intros size offset b3 ????; (eapply advances_bind; [by first [apply Hll|apply Hlm]|]);
    intros; by apply advances_ret. }
  intros o b3 Hb3 Hr3. by apply advances_ret.
Qed.

Lemma load_all_ok fuel :
  object_ok fuel /\
  (forall size offset values, loop_ok (fun fuel => load_list fuel size offset values) fuel) /\
  (forall size offset values, loop_ok (fun fuel => load_map fuel size offset values) fuel).
Proof.
  induction fuel as [|fuel (IHo & IHl & IHm)].
  - split; [|split]; intros; intro b; intros; lia.
  - split; [by apply load_object_ok|]. split; [by apply load_list_ok|by apply load_map_ok].
Qed.
End termination.

(** C12: on any buffer below 512 MB, at any position, [Load] ends: with an
    object, with null, or with one of the code's own failures. *)
Theorem load_terminates b :
  len (bb_buf b) < 2 ^ 29 -> 0 <= bb_rpos b < 2 ^ 31 -> DbObject_Load b <> Fault OutOfFuel.
Proof.
  intros Hlen Hr. unfold DbObject_Load.
  destruct (Z.ltb_spec (bb_rpos b) (len (bb_buf b))) as [Hin|Hout].
  - destruct (load_all_ok (bb_buf b) Hlen (2 * length (bb_buf b) + 2)) as [Hobj _].
    specialize (Hobj b eq_refl ltac:(lia) ltac:(lia)).
    destruct (load_object _ b) as [[o b']|e]; [done|]. cbn in Hobj. congruence.
  - by rewrite load_object_end by lia.
Qed.

(** ** Concrete inputs *)

Definition sample_meta : DbValue :=
  DbList [DbMap [(bstr "firstMip", DbInt 1); (bstr "h32", DbInt 3735928559)]; DbString (bstr "x"); DbBool true].

Lemma DbObject_roundtrip_witness :
  DbObject_Load (cur [Byte.xff] (db_bytes (bstr "chunkMeta") sample_meta ++ [Byte.x00]) 0)
    = Ok (Some (bstr "chunkMeta", sample_meta), cur ([Byte.xff] ++ db_bytes (bstr "chunkMeta") sample_meta) [Byte.x00] 0).
Proof.
  refine (proj2 (DbObject_roundtrip (bstr "chunkMeta") sample_meta [Byte.xff] [Byte.x00] 0 _ _ _)).
  - apply (bool_decide_unpack _). vm_compute. exact I.
  - apply db_wf_list. repeat constructor; try done;
      try (unfold urange; lia); apply (bool_decide_unpack _); vm_compute; exact I.
  - vm_compute. reflexivity.
Defined.

Lemma load_terminates_witness :
  DbObject_Load (mkBB [Byte.x01; Byte.xff; Byte.x03; Byte.x07; Byte.x80] 0 0) <> Fault OutOfFuel.
Proof. apply load_terminates; vm_compute; split; congruence || reflexivity. Defined.

