(* ===== verification/Endian.v ===== *)
(** Byte order (Source/ModLoader/BundleMerger.cpp): the big-endian integers of
    the bundle formats, read and written through a swap. *)

From S2P Require Import Prelude ByteBuffer.

Definition _SwapEndiannessU32 (val : Z) : Z :=
  Z.lor (Z.lor (Z.lor (Z.land (Z.shiftr val 24) 0xff) (Z.land (u32 (Z.shiftl val 8)) 0xff0000))
    (Z.land (Z.shiftr val 8) 0xff00)) (Z.land (u32 (Z.shiftl val 24)) 0xff000000).

Definition _SwapEndiannessU64 (x : Z) : Z :=
  let x := Z.lor (u64 (Z.shiftl (Z.land x 0x00000000FFFFFFFF) 32))
                 (Z.shiftr (Z.land x 0xFFFFFFFF00000000) 32) in
  let x := Z.lor (u64 (Z.shiftl (Z.land x 0x0000FFFF0000FFFF) 16))
                 (Z.shiftr (Z.land x 0xFFFF0000FFFF0000) 16) in
  Z.lor (u64 (Z.shiftl (Z.land x 0x00FF00FF00FF00FF) 8))
        (Z.shiftr (Z.land x 0xFF00FF00FF00FF00) 8).

(** [_SwapEndiannessU32(buf.readUnsafe<uint32_t>())] and its 64-bit twin. *)
Definition readU32 : Rd Z := x ← bb_readUnsafe 4; mret (_SwapEndiannessU32 x).
Definition readU64 : Rd Z := x ← bb_readUnsafe 8; mret (_SwapEndiannessU64 x).

Definition putU32 (v : Z) : ByteBuffer -> ByteBuffer := bb_putInt (_SwapEndiannessU32 (u32 v)).
Definition putU64 (v : Z) : ByteBuffer -> ByteBuffer := bb_putLong (_SwapEndiannessU64 (u64 v)).

(** ** Laws *)

Ltac swap_bits :=
  repeat match goal with
  | |- context [Z.testbit ?x ?n] =>
    first [ rewrite (Z.testbit_neg_r x n) by reflexivity
          | lazymatch x with
            | Z.pos _ => let v := eval vm_compute in (Z.testbit x n) in change (Z.testbit x n) with v
            | Z.lor ?a ?b => rewrite (Z.lor_spec a b n)
            | Z.land ?a ?b => rewrite (Z.land_spec a b n)
            | Z.shiftr ?a ?k => rewrite (Z.shiftr_spec a k n) by discriminate
            | Z.shiftl ?a ?k => rewrite (Z.shiftl_spec a k n) by discriminate
            | ?a mod 2 ^ ?k => rewrite (Z.mod_pow2_bits_low a k n) by reflexivity
            end ];
    cbn [Z.add Z.sub Z.opp Z.pos_sub Pos.add Pos.add_carry Pos.succ Pos.pred_double Z.succ_double
         Z.pred_double Z.double]
  end.

Lemma small_cases (P : Z -> Prop) m n :
  0 <= n < Z.of_nat m -> Forall P (Z.of_nat <$> seq 0 m) -> P n.
Proof.
  intros Hn HP. rewrite list.Forall_forall in HP. apply HP.
  apply list_elem_of_fmap. exists (Z.to_nat n). rewrite elem_of_seq. lia.
Qed.

(** Bit [n] of a swapped word is the same bit of the mirrored byte. *)
Lemma swap32_bit v n :
  0 <= n < 32 -> Z.testbit (_SwapEndiannessU32 v) n = Z.testbit v (n + 24 - 16 * (n / 8)).
Proof.
  intros Hn. apply (small_cases (fun n => Z.testbit (_SwapEndiannessU32 v) n = Z.testbit v (n + 24 - 16 * (n / 8))) 32 n Hn).
  cbn [fmap list_fmap seq Z.of_nat]. repeat (apply list.Forall_cons; split; [|]); [..|constructor].
  all: unfold _SwapEndiannessU32, uwrap; cbn [Z.of_nat Pos.of_succ_nat Pos.succ]; swap_bits;
    by rewrite ?andb_false_r, ?andb_true_r, ?orb_false_r, ?orb_false_l.
Qed.

Lemma swap64_bit v n :
  0 <= n < 64 -> Z.testbit (_SwapEndiannessU64 v) n = Z.testbit v (n + 56 - 16 * (n / 8)).
Proof.
  intros Hn. apply (small_cases (fun n => Z.testbit (_SwapEndiannessU64 v) n = Z.testbit v (n + 56 - 16 * (n / 8))) 64 n Hn).
  cbn [fmap list_fmap seq Z.of_nat]. repeat (apply list.Forall_cons; split; [|]); [..|constructor].
  all: unfold _SwapEndiannessU64, uwrap; cbn [Z.of_nat Pos.of_succ_nat Pos.succ]; swap_bits;
    by rewrite ?andb_false_r, ?andb_true_r, ?orb_false_r, ?orb_false_l.
Qed.

(** A word none of whose bits is at or above [w]. *)
Lemma urange_bits w v : 0 <= w -> 0 <= v -> (forall n, w <= n -> Z.testbit v n = false) -> urange w v.
Proof.
  intros Hw Hv Hbits. split; [done|].
  destruct (Z.lt_ge_cases v (2 ^ w)) as [|Hge]; [done|exfalso].
  assert (Hlog : w <= Z.log2 v) by (apply Z.log2_le_pow2; lia).
  specialize (Hbits (Z.log2 v) Hlog). rewrite Z.bit_log2 in Hbits; [done|].
  assert (0 < 2 ^ w) by (apply Z.pow_pos_nonneg; lia). lia.
Qed.

Lemma urange_testbit w v n : urange w v -> 0 <= w <= n -> Z.testbit v n = false.
Proof. intros Hv Hn. rewrite <- (uwrap_small w v Hv). apply Z.mod_pow2_bits_high. lia. Qed.

Lemma swap32_range v : is_u32 v -> is_u32 (_SwapEndiannessU32 v).
Proof.
  intros Hv. apply urange_bits; [lia| |].
  - unfold _SwapEndiannessU32, uwrap, urange in *.
    rewrite !Z.lor_nonneg, !Z.land_nonneg, !Z.shiftr_nonneg. lia.
  - intros n Hn. unfold _SwapEndiannessU32, uwrap. rewrite !Z.lor_spec, !Z.land_spec.
    rewrite (urange_testbit 32 0xff n), (urange_testbit 32 0xff0000 n), (urange_testbit 32 0xff00 n),
      (urange_testbit 32 0xff000000 n) by (first [lia | split; done]).
    by rewrite !andb_false_r.
Qed.

Lemma swap_stage_range x m1 m2 k :
  0 <= k -> is_u64 m2 -> is_u64 (Z.lor (u64 (Z.shiftl (Z.land x m1) k)) (Z.shiftr (Z.land x m2) k)).
Proof.
  intros Hk Hm2. apply urange_bits; [lia| |].
  - apply Z.lor_nonneg. split; [apply Z.mod_pos_bound; lia|].
    apply Z.shiftr_nonneg, Z.land_nonneg. right. apply Hm2.
  - intros n Hn. rewrite Z.lor_spec, Z.shiftr_spec, Z.land_spec by lia.
    rewrite (urange_testbit 64 (u64 _) n), (urange_testbit 64 m2 (n + k))
      by (first [lia | done | by apply uwrap_range]).
    by rewrite andb_false_r.
Qed.

Lemma swap64_range v : is_u64 (_SwapEndiannessU64 v).
Proof. apply swap_stage_range; [lia|split; done]. Qed.

(** Swapping twice gives the word back. *)
Lemma swap32_involutive v : is_u32 v -> _SwapEndiannessU32 (_SwapEndiannessU32 v) = v.
Proof.
  intros Hv. apply Z.bits_inj'. intros n Hn.
  destruct (Z.lt_ge_cases n 32) as [Hlt|Hge].
  - pose proof (Z.div_mod n 8 ltac:(lia)). pose proof (Z.mod_pos_bound n 8 ltac:(lia)).
    rewrite swap32_bit by lia. rewrite swap32_bit by lia. f_equal.
    replace (n + 24 - 16 * (n / 8)) with ((3 - n / 8) * 8 + n mod 8) by lia.
    rewrite Z.div_add_l, (Z.div_small (n mod 8)) by lia. lia.
  - rewrite !(urange_testbit 32 _ n); [done|done|lia| |lia]. by apply swap32_range, swap32_range.
Qed.

Lemma swap64_involutive v : is_u64 v -> _SwapEndiannessU64 (_SwapEndiannessU64 v) = v.
Proof.
  intros Hv. apply Z.bits_inj'. intros n Hn.
  destruct (Z.lt_ge_cases n 64) as [Hlt|Hge].
  - pose proof (Z.div_mod n 8 ltac:(lia)). pose proof (Z.mod_pos_bound n 8 ltac:(lia)).
    rewrite swap64_bit by lia. rewrite swap64_bit by lia. f_equal.
    replace (n + 56 - 16 * (n / 8)) with ((7 - n / 8) * 8 + n mod 8) by lia.
    rewrite Z.div_add_l, (Z.div_small (n mod 8)) by lia. lia.
  - rewrite !(urange_testbit 64 _ n); [done|done|lia| |lia]. apply swap64_range.
Qed.

(** The bytes of a big-endian word. *)
Definition b32 (v : Z) : list byte := le_split 4 (_SwapEndiannessU32 v).
Definition b64 (v : Z) : list byte := le_split 8 (_SwapEndiannessU64 v).

Lemma b32_length v : length (b32 v) = 4%nat.
Proof. apply length_le_split. Qed.
Lemma b64_length v : length (b64 v) = 8%nat.
Proof. apply length_le_split. Qed.

Lemma putU32_wr v l : is_u32 v -> fits (l ++ b32 v) -> putU32 v (wr l) = wr (l ++ b32 v).
Proof. intros Hv Hf. unfold putU32. rewrite uwrap_small by done. by apply bb_append_wr. Qed.

Lemma parses_readU32 D w v : fits D -> is_u32 v -> parses D w readU32 (b32 v) v.
Proof.
  intros HD Hv. 
  assert (E : v = _SwapEndiannessU32 (le_combine (b32 v))).
  { unfold b32. rewrite le_combine_split_small by (by apply swap32_range). by rewrite swap32_involutive. }
  rewrite E at 2.
  apply (parses_map D w (bb_readUnsafe 4) _SwapEndiannessU32).
  apply parses_readUnsafe; [done|apply length_le_split].
Qed.

Lemma parses_readU64 D w v : fits D -> is_u64 v -> parses D w readU64 (b64 v) v.
Proof.
  intros HD Hv. 
  assert (E : v = _SwapEndiannessU64 (le_combine (b64 v))).
  { unfold b64. rewrite le_combine_split_small by apply swap64_range. by rewrite swap64_involutive. }
  rewrite E at 2.
  apply (parses_map D w (bb_readUnsafe 8) _SwapEndiannessU64).
  apply parses_readUnsafe; [done|apply length_le_split].
Qed.
