(* ===== verification/BundleManifest.v ===== *)
(** [BundleManifest] (Source/ModLoader/BundleMerger.cpp): the list of assets of
    one bundle, as the game's binary manifest holds it.

    [BundleManifest_Load] and [BundleManifest_Save] are the two codecs of the
    format; the [Add] and [Modify] operations are what the mod loader's merge
    step calls.  All integers of the format are big-endian: they are swapped
    after a read and before a write. *)

From stdpp Require pretty.
From S2P Require Import Prelude OrdMap ByteBuffer StringUtils Guid DbObject Endian.

(** ** Data *)

Record EbxEntry := mkEbx { ebx_name : list byte; ebx_originalSize : Z }.

Record ResEntry := mkRes {
  res_name : list byte;
  res_originalSize : Z;
  res_resType : Z;
  res_resMeta : list byte;
  res_resRid : Z;
}.

Record ChunkEntry := mkChunk {
  chunk_guid : Guid;
  chunk_logicalOffset : Z;
  chunk_logicalSize : Z;
}.

Inductive Result := Rt_Nop | Rt_Modified | Rt_Added.

(** The members [Load] fills from the header of the file. *)
Record ManifestHeader := mkHeader {
  m_totalCount : Z;
  m_ebxCount : Z;
  m_resCount : Z;
  m_chunkCount : Z;
  m_stringsOffset : Z;
  m_metaOffset : Z;
  m_metaSize : Z;
}.

Record BundleManifest := mkManifest {
  m_header : ManifestHeader;
  m_ebxEntries : list EbxEntry;
  m_resEntries : list ResEntry;
  m_chunkEntries : list ChunkEntry;
  m_meta : option DbValue;
  m_auditLog : list (list byte);
}.

Definition manifest_new : BundleManifest := mkManifest (mkHeader 0 0 0 0 0 0 0) [] [] [] None [].

#[export] Instance EbxEntry_eq_dec : EqDecision EbxEntry.
Proof. solve_decision. Defined.
#[export] Instance ResEntry_eq_dec : EqDecision ResEntry.
Proof. solve_decision. Defined.
#[export] Instance ChunkEntry_eq_dec : EqDecision ChunkEntry.
Proof. solve_decision. Defined.
#[export] Instance Result_eq_dec : EqDecision Result.
Proof. solve_decision. Defined.

Definition set_resType (t : Z) (e : ResEntry) : ResEntry :=
  mkRes (res_name e) (res_originalSize e) t (res_resMeta e) (res_resRid e).
Definition set_resMeta (x : list byte) (e : ResEntry) : ResEntry :=
  mkRes (res_name e) (res_originalSize e) (res_resType e) x (res_resRid e).
Definition set_resRid (r : Z) (e : ResEntry) : ResEntry :=
  mkRes (res_name e) (res_originalSize e) (res_resType e) (res_resMeta e) r.

(** ** [BundleManifest::Load] *)

Definition kMagic : Z := 0xED1CEDB8.
Definition kMagicSalt : Z := 0x7065636D.

Definition load_header : Rd ManifestHeader :=
  total ← readU32; ebx ← readU32; res ← readU32; chunk ← readU32;
  strings ← readU32; metaOff ← readU32; metaSize ← readU32;
  mret (mkHeader total ebx res chunk strings metaOff metaSize).

(** The loop that skips the hashes counts in [int]: it overflows past 2^31. *)
Definition skip_sha1s (n : Z) : Rd unit :=
  if 2 ^ 31 <=? n then Rd_fault Undefined
  else Rd_modify (Nat.iter (Z.to_nat n) (fun b => bb_setReadPos (bb_rpos b + 20) b)).

(** A name and a size: the name is read at its offset, and the position is
    restored. *)
Definition load_named (stringsOffset : Z) : Rd (list byte * Z) :=
  nameOffset ← readU32;
  originalSize ← readU32;
  currentPos ← Rd_gets bb_rpos;
  _ ← Rd_modify (bb_setReadPos (stringsOffset + nameOffset));
  name ← bb_getNullTerminatedString;
  _ ← Rd_modify (bb_setReadPos currentPos);
  mret (name, originalSize).

Definition load_ebx (stringsOffset : Z) : Rd EbxEntry :=
  x ← load_named stringsOffset; mret (mkEbx x.1 x.2).
(** [push_back({name, originalSize})]: the other members are zero. *)
Definition load_res (stringsOffset : Z) : Rd ResEntry :=
  x ← load_named stringsOffset; mret (mkRes x.1 x.2 0 (replicate 16 Byte.x00) 0).

Definition load_chunk : Rd ChunkEntry :=
  guid ← Guid_readBE; off ← readU32; size ← readU32; mret (mkChunk guid off size).

Definition load_meta (h : ManifestHeader) (meta : option DbValue) : Rd (option DbValue) :=
  if 0 <? m_metaSize h then
    _ ← Rd_modify (bb_setReadPos (m_metaOffset h));
    metaData ← bb_getBytes (Z.to_nat (m_metaSize h));
    o ← Rd_lift (DbObject_Load (mkBB metaData 0 (len metaData)));
    mret (snd <$> fst o)
  else mret meta.

Definition load_manifest (m : BundleManifest) : Rd BundleManifest :=
  magic ← readU32;
  if negb (Z.lxor magic kMagicSalt =? kMagic) then mret m else
  h ← load_header;
  _ ← skip_sha1s (m_totalCount h);
  ebx ← Rd_repeat (Z.to_nat (m_ebxCount h)) (load_ebx (m_stringsOffset h));
  res ← Rd_repeat (Z.to_nat (m_resCount h)) (load_res (m_stringsOffset h));
  res ← mapM (fun e => t ← readU32; mret (set_resType t e)) (m_resEntries m ++ res);
  res ← mapM (fun e => x ← bb_getBytes 16; mret (set_resMeta x e)) res;
  res ← mapM (fun e => r ← readU64; mret (set_resRid r e)) res;
  chunks ← Rd_repeat (Z.to_nat (m_chunkCount h)) load_chunk;
  meta ← load_meta h (m_meta m);
  mret (mkManifest h (m_ebxEntries m ++ ebx) res (m_chunkEntries m ++ chunks) meta (m_auditLog m)).

Definition BundleManifest_Load (data : list byte) (m : BundleManifest) : result BundleManifest :=
  fst <$> load_manifest m (mkBB data 0 (len data)).

(** ** [BundleManifest::Save] *)

(** The table of names: each name is stored once, found again by its hash. *)
Record NameTable := mkTable {
  nt_nameOffset : Z;
  nt_stringOffsets : omap Z Z;
  nt_strings : list (list byte);
}.

Definition table_empty : NameTable := mkTable 0 [] [].

Definition intern (name : list byte) (t : NameTable) : NameTable :=
  let hash := HashQuick name in
  if omap_count hash (nt_stringOffsets t) then t
  else mkTable (u32 (nt_nameOffset t + len name + 1))
         (omap_insert hash (nt_nameOffset t) (nt_stringOffsets t))
         (nt_strings t ++ [c_str name]).

(** [stringOffsets[hash]] *)
Definition name_offset (t : NameTable) (name : list byte) : Z :=
  default 0 (omap_find (HashQuick name) (nt_stringOffsets t)).

Definition save_named (name : list byte) (originalSize : Z) (st : ByteBuffer * NameTable)
    : ByteBuffer * NameTable :=
  let t := intern name st.2 in
  (putU32 originalSize (putU32 (name_offset t name) st.1), t).

Definition save_chunk (buf : ByteBuffer) (e : ChunkEntry) : ByteBuffer :=
  let buf := bb_putBytes (Guid_ToFrostyBE (chunk_guid e)) buf in
  putU32 (chunk_logicalSize e) (putU32 (chunk_logicalOffset e) buf).

(** [while (buf.getWritePos() % 16 != 0) buf.putChar(0x00);] at most 15 times. *)
Fixpoint pad16 (fuel : nat) (buf : ByteBuffer) : result ByteBuffer :=
  if bb_wpos buf mod 16 =? 0 then Ok buf
  else match fuel with
       | O => Fault OutOfFuel
       | S fuel' => pad16 fuel' (bb_put 0 buf)
       end.

(** The metadata, its offset and its size. *)
Definition save_meta (meta : option DbValue) (buf : ByteBuffer) : result (ByteBuffer * (Z * Z)) :=
  match meta with
  | None => Ok (buf, (0, 0))
  | Some v =>
    data ← DbObject_Save (bstr "chunkMeta") v;
    Ok (bb_putBytes data buf, (bb_wpos buf, u32 (len data)))
  end.

Definition save_counts (m : BundleManifest) : ByteBuffer :=
  let ebx := len (m_ebxEntries m) in
  let res := len (m_resEntries m) in
  let chunks := len (m_chunkEntries m) in
  putU32 chunks (putU32 res (putU32 ebx (putU32 (ebx + res + chunks) (putU32 0x9D798ED5 bb_empty)))).

(** The loops over the entries, after the gap left for the hashes. *)
Definition save_entries (m : BundleManifest) (buf : ByteBuffer) : ByteBuffer * NameTable :=
  let st := foldl (fun st e => save_named (ebx_name e) (ebx_originalSize e) st)
              (buf, table_empty) (m_ebxEntries m) in
  let st := foldl (fun st e => save_named (res_name e) (res_originalSize e) st) st (m_resEntries m) in
  let buf := foldl (fun b e => putU32 (res_resType e) b) st.1 (m_resEntries m) in
  let buf := foldl (fun b e => bb_putBytes (res_resMeta e) b) buf (m_resEntries m) in
  let buf := foldl (fun b e => putU64 (res_resRid e) b) buf (m_resEntries m) in
  (foldl save_chunk buf (m_chunkEntries m), st.2).

Definition BundleManifest_Save (m : BundleManifest) : result (list byte) :=
  let buf := save_counts m in
  let offsetsPos := bb_wpos buf in
  let buf := putU32 0 (putU32 0 (putU32 0 buf)) in
  let totalCount := u32 (len (m_ebxEntries m) + len (m_resEntries m) + len (m_chunkEntries m)) in
  let buf := Nat.iter (Z.to_nat totalCount) (fun b => bb_setWritePos (bb_wpos b + 20) b) buf in
  let st := save_entries m buf in
  '(buf, (metaOffset, metaSize)) ← save_meta (m_meta m) st.1;
  let stringsOffset := bb_wpos buf in
  let buf := foldl (fun b s => bb_putNullTerminatedString s b) buf (nt_strings st.2) in
  buf ← pad16 15 buf;
  let buf := bb_setWritePos offsetsPos buf in
  Ok (bb_buf (putU32 metaSize (putU32 metaOffset (putU32 stringsOffset buf)))).

(** ** Changing a manifest *)

Definition set_ebx (l : list EbxEntry) (m : BundleManifest) : BundleManifest :=
  mkManifest (m_header m) l (m_resEntries m) (m_chunkEntries m) (m_meta m) (m_auditLog m).
Definition set_res (l : list ResEntry) (m : BundleManifest) : BundleManifest :=
  mkManifest (m_header m) (m_ebxEntries m) l (m_chunkEntries m) (m_meta m) (m_auditLog m).
Definition set_chunks (l : list ChunkEntry) (m : BundleManifest) : BundleManifest :=
  mkManifest (m_header m) (m_ebxEntries m) (m_resEntries m) l (m_meta m) (m_auditLog m).
Definition set_meta (o : option DbValue) (m : BundleManifest) : BundleManifest :=
  mkManifest (m_header m) (m_ebxEntries m) (m_resEntries m) (m_chunkEntries m) o (m_auditLog m).

Definition PushAudit (log : list byte) (m : BundleManifest) : BundleManifest :=
  mkManifest (m_header m) (m_ebxEntries m) (m_resEntries m) (m_chunkEntries m) (m_meta m)
    (m_auditLog m ++ [log]).

Definition BundleManifest_Clear (m : BundleManifest) : BundleManifest :=
  set_meta (Some (DbList [])) (set_chunks [] (set_res [] (set_ebx [] m))).

Definition same_ebx (name : list byte) (e : EbxEntry) : bool := bool_decide (ebx_name e = c_str name).

Definition ModifyEbxEntry (name : list byte) (originalSize : Z) (m : BundleManifest) : BundleManifest :=
  match update_first (same_ebx name) (fun e => mkEbx (ebx_name e) originalSize) (m_ebxEntries m) with
  | Some l => set_ebx l m
  | None => m
  end.

Definition ModifyResEntry (entry : ResEntry) (m : BundleManifest) : BundleManifest :=
  match update_first (fun e => bool_decide (res_name e = res_name entry)) (fun _ => entry)
          (m_resEntries m) with
  | Some l => set_res l m
  | None => m
  end.

Definition AddEbxEntry (name : list byte) (originalSize : Z) (allowModify : bool) (m : BundleManifest)
    : Result * BundleManifest :=
  let modified :=
    if allowModify
    then update_first (same_ebx name) (fun e => mkEbx (ebx_name e) originalSize) (m_ebxEntries m)
    else None in
  match modified with
  | Some l => (Rt_Modified, set_ebx l m)
  | None => (Rt_Added, set_ebx (m_ebxEntries m ++ [mkEbx (c_str name) originalSize]) m)
  end.

Definition AddResEntry (entry : ResEntry) (allowModify : bool) (m : BundleManifest)
    : Result * BundleManifest :=
  let modified :=
    if allowModify
    then update_first (fun e => res_resRid e =? res_resRid entry) (fun _ => entry) (m_resEntries m)
    else None in
  match modified with
  | Some l => (Rt_Modified, set_res l m)
  | None => (Rt_Added, set_res (m_resEntries m ++ [entry]) m)
  end.

(** [*value->Get<T>()]: [Get] gives a null pointer on another alternative. *)
Definition get_list (v : DbValue) : result (list DbValue) :=
  match v with DbList l => Ok l | _ => Fault Undefined end.
Definition get_map (v : DbValue) : result (omap (list byte) DbValue) :=
  match v with DbMap m => Ok m | _ => Fault Undefined end.
Definition get_uint32 (v : DbValue) : result Z :=
  match v with DbInt i => Ok i | _ => Fault Undefined end.

(** [*map["h32"]->Get<uint32_t>()]: a missing key is inserted as a null pointer
    and dereferenced. *)
Definition meta_h32 (item : DbValue) : result Z :=
  map ← get_map item;
  v ← of_option Undefined (omap_find (bstr "h32") map);
  get_uint32 v.

Fixpoint meta_index_loop (h32 i : Z) (l : list DbValue) : result Z :=
  match l with
  | [] => Ok (-1)
  | item :: l' =>
    h ← meta_h32 item;
    if h =? u32 h32 then Ok i else meta_index_loop h32 (i + 1) l'
  end.

Definition GetMetaIndex (h32 : Z) (m : BundleManifest) : result Z :=
  match m_meta m with
  | None => Ok (-1)
  | Some meta => l ← get_list meta; meta_index_loop h32 0 l
  end.

(** The metadata of one texture chunk. *)
Definition chunk_meta (h32 firstMip : Z) : DbValue :=
  let map := omap_insert (bstr "h32") (DbInt (u32 h32)) [] in
  let meta := if firstMip =? -1 then [] else omap_insert (bstr "firstMip") (DbInt (u32 firstMip)) [] in
  DbMap (omap_insert (bstr "meta") (DbMap meta) map).

Definition audit_no_meta (h32 : Z) : list byte :=
  bstr "No existing meta index for H32 " ++ bstr (pretty.pretty h32).

(** The part of [AddChunkEntry] that keeps the metadata list in step. *)
Definition add_chunk_meta (existing : bool) (h32 firstMip : Z) (m : BundleManifest)
    : result BundleManifest :=
  if h32 =? 0 then Ok m else
  let m := match m_meta m with Some _ => m | None => set_meta (Some (DbList [])) m end in
  meta ← of_option Undefined (m_meta m);
  list ← get_list meta;
  if existing then
    metaIndex ← GetMetaIndex h32 m;
    Ok (if metaIndex =? -1 then PushAudit (audit_no_meta h32) m
        else set_meta (Some (DbList (<[Z.to_nat metaIndex := chunk_meta h32 firstMip]> list))) m)
  else Ok (set_meta (Some (DbList (list ++ [chunk_meta h32 firstMip]))) m).

Definition AddChunkEntry (entry : ChunkEntry) (h32 firstMip : Z) (allowNew allowModify : bool)
    (m : BundleManifest) : result (Result * BundleManifest) :=
  let modified :=
    if allowModify
    then update_first (fun e => Guid_Equals (chunk_guid e) (chunk_guid entry)) (fun _ => entry)
           (m_chunkEntries m)
    else None in
  match modified with
  | Some l => m' ← add_chunk_meta true h32 firstMip (set_chunks l m); Ok (Rt_Modified, m')
  | None =>
    if allowNew then
      m' ← add_chunk_meta false h32 firstMip (set_chunks (m_chunkEntries m ++ [entry]) m);
      Ok (Rt_Added, m')
    else Ok (Rt_Nop, m)
  end.

(** ** The bytes of a saved manifest *)

Definition zeros (n : nat) : list byte := replicate n Byte.x00.

Definition strings_bytes (l : list (list byte)) : list byte := mjoin ((fun s => s ++ [Byte.x00]) <$> l).

(** Names and sizes in the order they are written. *)
Definition manifest_named (m : BundleManifest) : list (list byte * Z) :=
  ((fun e => (ebx_name e, ebx_originalSize e)) <$> m_ebxEntries m) ++
  ((fun e => (res_name e, res_originalSize e)) <$> m_resEntries m).

Definition manifest_names (m : BundleManifest) : list (list byte) := fst <$> manifest_named m.

Definition intern_all (l : list (list byte * Z)) (t : NameTable) : NameTable :=
  foldl (fun t x => intern x.1 t) t l.
Definition manifest_table (m : BundleManifest) : NameTable := intern_all (manifest_named m) table_empty.

Definition named_bytes (t : NameTable) (x : list byte * Z) : list byte :=
  b32 (name_offset t x.1) ++ b32 x.2.
Definition chunk_bytes (e : ChunkEntry) : list byte :=
  Guid_ToFrostyBE (chunk_guid e) ++ b32 (chunk_logicalOffset e) ++ b32 (chunk_logicalSize e).
Definition meta_bytes (o : option DbValue) : list byte :=
  match o with Some v => db_bytes (bstr "chunkMeta") v | None => [] end.

Definition total_count (m : BundleManifest) : nat :=
  (length (m_ebxEntries m) + length (m_resEntries m) + length (m_chunkEntries m))%nat.

(** The entries, then everything between the header and the metadata. *)
Definition tables_bytes (m : BundleManifest) : list byte :=
  mjoin (named_bytes (manifest_table m) <$> manifest_named m) ++
  mjoin ((fun e => b32 (res_resType e)) <$> m_resEntries m) ++
  mjoin (res_resMeta <$> m_resEntries m) ++
  mjoin ((fun e => b64 (res_resRid e)) <$> m_resEntries m) ++
  mjoin (chunk_bytes <$> m_chunkEntries m).

Definition entries_bytes (m : BundleManifest) : list byte :=
  zeros (total_count m * 20) ++ tables_bytes m.

Definition counts_bytes (m : BundleManifest) : list byte :=
  b32 0x9D798ED5 ++ b32 (Z.of_nat (total_count m)) ++ b32 (len (m_ebxEntries m)) ++
  b32 (len (m_resEntries m)) ++ b32 (len (m_chunkEntries m)).

Definition saved_header (m : BundleManifest) : ManifestHeader :=
  let metaOffset := 32 + len (entries_bytes m) in
  let metaSize := len (meta_bytes (m_meta m)) in
  mkHeader (Z.of_nat (total_count m)) (len (m_ebxEntries m)) (len (m_resEntries m))
    (len (m_chunkEntries m)) (metaOffset + metaSize)
    (match m_meta m with Some _ => metaOffset | None => 0 end) metaSize.

Definition header_tail (h : ManifestHeader) : list byte :=
  b32 (m_stringsOffset h) ++ b32 (m_metaOffset h) ++ b32 (m_metaSize h).

Definition body_bytes (m : BundleManifest) : list byte :=
  entries_bytes m ++ meta_bytes (m_meta m) ++ strings_bytes (nt_strings (manifest_table m)).

(** Zero bytes up to the next multiple of 16. *)
Definition padding (l : list byte) : list byte := zeros (Z.to_nat ((- len l) mod 16)).

Definition manifest_bytes (m : BundleManifest) : list byte :=
  counts_bytes m ++ header_tail (saved_header m) ++ body_bytes m ++ padding (body_bytes m).

(** What [Save] and [Load] agree on: the values fit their fields, and no two
    names share a hash. *)
Record manifest_wf (m : BundleManifest) : Prop := {
  wf_names : Forall (fun x => (Byte.x00 ∉ x.1) /\ is_u32 x.2) (manifest_named m);
  wf_hashes : forall x y, x ∈ manifest_names m -> y ∈ manifest_names m ->
    HashQuick x = HashQuick y -> x = y;
  wf_res : Forall (fun e => is_u32 (res_resType e) /\ length (res_resMeta e) = 16%nat /\
    is_u64 (res_resRid e)) (m_resEntries m);
  wf_chunks : Forall (fun e => guid_wf (chunk_guid e) /\ is_u32 (chunk_logicalOffset e) /\
    is_u32 (chunk_logicalSize e)) (m_chunkEntries m);
  wf_meta : match m_meta m with Some v => db_wf v | None => True end;
  wf_size : small (manifest_bytes m);
}.

(** ** The table of names *)

Lemma strings_bytes_app l k : strings_bytes (l ++ k) = strings_bytes l ++ strings_bytes k.
Proof. unfold strings_bytes. by rewrite fmap_app, join_app. Qed.

(** The table of the names [names]: the recorded offset of a hash is where the
    string with that hash starts. *)
Record table_ok (names : list (list byte)) (t : NameTable) : Prop := {
  tb_next : nt_nameOffset t = len (strings_bytes (nt_strings t));
  tb_strings : forall s, s ∈ nt_strings t -> s ∈ names /\ Byte.x00 ∉ s;
  tb_offsets : forall h o, omap_find h (nt_stringOffsets t) = Some o ->
    exists l s k, nt_strings t = l ++ s :: k /\ HashQuick s = h /\ o = len (strings_bytes l);
}.

Lemma table_empty_ok names : table_ok names table_empty.
Proof. split; [done|by intros s ?%elem_of_nil|done]. Qed.

Lemma intern_strings name t : exists k, nt_strings (intern name t) = nt_strings t ++ k.
Proof. unfold intern. destruct (omap_count _ _); [exists []; by rewrite app_nil_r|by eexists]. Qed.

Lemma intern_all_cons x l t : intern_all (x :: l) t = intern_all l (intern x.1 t).
Proof. done. Qed.

Lemma intern_all_strings l t : exists k, nt_strings (intern_all l t) = nt_strings t ++ k.
Proof.
  revert t. induction l as [|x l IH]; intros t; [exists []; by rewrite app_nil_r|].
  rewrite intern_all_cons. destruct (IH (intern x.1 t)) as [k1 ->]. destruct (intern_strings x.1 t) as [k2 ->].
  rewrite <- app_assoc. by eexists.
Qed.

Lemma intern_fits name t :
  fits (strings_bytes (nt_strings (intern name t))) -> fits (strings_bytes (nt_strings t)).
Proof.
  destruct (intern_strings name t) as [k ->]. rewrite strings_bytes_app. apply fits_app_l.
Qed.

Lemma intern_all_fits l t :
  fits (strings_bytes (nt_strings (intern_all l t))) -> fits (strings_bytes (nt_strings t)).
Proof.
  destruct (intern_all_strings l t) as [k ->]. rewrite strings_bytes_app. apply fits_app_l.
Qed.

Lemma intern_ok names name t :
  table_ok names t -> name ∈ names -> Byte.x00 ∉ name ->
  fits (strings_bytes (nt_strings (intern name t))) -> table_ok names (intern name t).
Proof.
  intros [Hn Hs Ho] Hin Hnul. unfold intern. destruct (omap_count _ _); [done|].
  cbn [nt_strings]. intros Hf. rewrite c_str_id in * by done. rewrite strings_bytes_app in Hf.
  split; cbn [nt_strings nt_nameOffset nt_stringOffsets].
  - rewrite strings_bytes_app, Hn. cbn. rewrite app_nil_r, !length_app.
    cbn in *. rewrite app_nil_r in *. rewrite uwrap_small by (unfold urange; fits). cbn. lia.
  - intros s [Hs'| ->%list_elem_of_singleton]%elem_of_app; auto.
  - intros h o. rewrite omap_find_insert. destruct (key_compare (HashQuick name) h) eqn:E.
    + intros [= <-]. apply key_compare_eq in E. exists (nt_strings t), name, []. split_and!; done.
    + intros (l & s & k & -> & ? & ?)%Ho. exists l, s, (k ++ [name]). by rewrite <- app_assoc.
    + intros (l & s & k & -> & ? & ?)%Ho. exists l, s, (k ++ [name]). by rewrite <- app_assoc.
Qed.

Lemma intern_all_ok names l t :
  table_ok names t -> Forall (fun x => x.1 ∈ names /\ Byte.x00 ∉ x.1) l ->
  fits (strings_bytes (nt_strings (intern_all l t))) -> table_ok names (intern_all l t).
Proof.
  revert t. induction l as [|x l IH]; intros t Ht; [done|]. rewrite intern_all_cons.
  intros [[? ?] Hl]%list.Forall_cons Hf. apply IH; [|done|done].
  apply intern_ok; [done..|]. by eapply intern_all_fits.
Qed.

(** A recorded offset never changes, and an interned name has one. *)
Lemma intern_find name t h o :
  omap_find h (nt_stringOffsets t) = Some o -> omap_find h (nt_stringOffsets (intern name t)) = Some o.
Proof.
  intros H. unfold intern, omap_count. destruct (bool_decide_reflect (is_Some (omap_find (HashQuick name) (nt_stringOffsets t)))) as [|Hn]; [done|].
  cbn. rewrite omap_find_insert_ne; [done|]. intros <-. apply Hn. by eexists.
Qed.

Lemma intern_all_find l t h o :
  omap_find h (nt_stringOffsets t) = Some o -> omap_find h (nt_stringOffsets (intern_all l t)) = Some o.
Proof. revert t. induction l as [|x l IH]; intros t H; [done|]. by apply IH, intern_find. Qed.

Lemma intern_self name t : is_Some (omap_find (HashQuick name) (nt_stringOffsets (intern name t))).
Proof.
  unfold intern, omap_count. destruct (bool_decide_reflect (is_Some (omap_find (HashQuick name) (nt_stringOffsets t)))); [done|].
  cbn. rewrite omap_find_insert_eq. by eexists.
Qed.

Lemma intern_all_offset l name t :
  name_offset (intern_all l (intern name t)) name = name_offset (intern name t) name.
Proof.
  unfold name_offset. destruct (intern_self name t) as [o Ho].
  by rewrite Ho, (intern_all_find l _ _ _ Ho).
Qed.

Lemma intern_all_has l t name :
  name ∈ l.*1 -> is_Some (omap_find (HashQuick name) (nt_stringOffsets (intern_all l t))).
Proof.
  revert t. induction l as [|x l IH]; intros t; [by intros ?%elem_of_nil|].
  rewrite fmap_cons, intern_all_cons. intros [->|Hin]%elem_of_cons; [|by apply IH].
  destruct (intern_self x.1 t) as [o Ho]. exists o. by apply intern_all_find.
Qed.

(** Where names have different hashes, each is found at its offset. *)
Lemma table_name names t name :
  table_ok names t -> (forall y, y ∈ names -> HashQuick name = HashQuick y -> name = y) ->
  is_Some (omap_find (HashQuick name) (nt_stringOffsets t)) ->
  exists l k, nt_strings t = l ++ name :: k /\ name_offset t name = len (strings_bytes l).
Proof.
  intros [Hn Hs Ho] Hinj [o Hfind]. destruct (Ho _ _ Hfind) as (l & s & k & Heq & Hh & ->).
  exists l, k. unfold name_offset. rewrite Hfind. split; [|done].
  rewrite (Hinj s); [done| |done]. apply Hs. rewrite Heq. set_solver.
Qed.

(** ** [Save] writes the reference bytes

    [holds b l]: the buffer [b] stands for the bytes [l], the last of which may
    still be a gap of zeros that the next write materialises. *)

Definition holds (b : ByteBuffer) (l : list byte) : Prop :=
  exists hd n, b = mkBB hd 0 (len l) /\ l = hd ++ zeros n.

Lemma wr_holds l : holds (wr l) l.
Proof. exists l, 0%nat. by rewrite app_nil_r. Qed.

Lemma bb_append_holds b l src : holds b l -> fits (l ++ src) -> bb_append src b = wr (l ++ src).
Proof.
  intros (hd & n & -> & ->) Hf. unfold zeros in *.
  destruct n as [|n]; [cbn in *; rewrite app_nil_r in *; by apply bb_append_wr|].
  unfold bb_append, wr, bb_size; cbn [bb_buf bb_wpos bb_rpos].
  rewrite (fits_u32 hd) by (by do 2 eapply fits_app_l).
  assert (Hl : len (hd ++ replicate (S n) Byte.x00) = len hd + Z.of_nat (S n))
    by (rewrite length_app, length_replicate; lia).
  assert (Hf' : len hd + Z.of_nat (S n) + len src < 2 ^ 32)
    by (unfold fits in Hf; rewrite length_app in Hf; lia).
  rewrite Hl, uwrap_small by (unfold urange; lia).
  destruct (Z.ltb_spec (len hd) (len hd + Z.of_nat (S n) + len src)) as [_|Hc]; [|lia].
  f_equal; [|rewrite length_app; lia]. unfold bytes_overwrite, bytes_resize.
  rewrite (take_ge hd) by lia.
  replace (Z.to_nat (len hd + Z.of_nat (S n))) with (length (hd ++ replicate (S n) Byte.x00)) by lia.
  replace (Z.to_nat (len hd + Z.of_nat (S n) + len src) - length hd)%nat with (S n + length src)%nat by lia.
  rewrite replicate_add, (app_assoc hd (replicate (S n) Byte.x00)), take_app_length.
  rewrite (drop_ge _ (_ + length src)) by (rewrite !length_app, !length_replicate; lia).
  by rewrite app_nil_r.
Qed.

Lemma putU32_holds v b l :
  holds b l -> is_u32 v -> fits (l ++ b32 v) -> putU32 v b = wr (l ++ b32 v).
Proof. intros H Hv Hf. unfold putU32. rewrite uwrap_small by done. by apply bb_append_holds. Qed.

(** A loop of writes, from a buffer that may end in a gap. *)
Lemma foldl_holds {E} (step : ByteBuffer -> E -> ByteBuffer) (enc : E -> list byte) (ok : E -> Prop) es b l :
  (forall b l e, ok e -> holds b l -> fits (l ++ enc e) -> step b e = wr (l ++ enc e)) ->
  holds b l -> Forall ok es -> fits (l ++ mjoin (enc <$> es)) ->
  holds (foldl step b es) (l ++ mjoin (enc <$> es)) /\
  (es <> [] \/ b = wr l -> foldl step b es = wr (l ++ mjoin (enc <$> es))).
Proof.
  intros Hstep Hb Hok. revert b l Hb. induction Hok as [|e es He Hok IH]; intros b l Hb Hf.
  - cbn. rewrite app_nil_r. split; [done|]. by intros [?| ->].
  - change (mjoin (enc <$> e :: es)) with (enc e ++ mjoin (enc <$> es)) in *.
    cbn [foldl]. rewrite app_assoc in *.
    rewrite (Hstep b l e He Hb (fits_app_l _ _ Hf)).
    destruct (IH _ _ (wr_holds (l ++ enc e)) Hf) as [IH1 IH2].
    split; [done|]. intros _. apply IH2. by right.
Qed.

Definition save_named_all (st : ByteBuffer * NameTable) (l : list (list byte * Z)) :=
  foldl (fun st x => save_named x.1 x.2 st) st l.

Lemma save_named_all_manifest m b :
  foldl (fun st e => save_named (res_name e) (res_originalSize e) st)
    (foldl (fun st e => save_named (ebx_name e) (ebx_originalSize e) st) (b, table_empty) (m_ebxEntries m))
    (m_resEntries m) = save_named_all (b, table_empty) (manifest_named m).
Proof. unfold save_named_all, manifest_named. by rewrite foldl_app, !foldl_fmap. Qed.

Lemma name_offset_range names t name :
  table_ok names t -> fits (strings_bytes (nt_strings t)) -> is_u32 (name_offset t name).
Proof.
  intros [Hn Hs Ho] Hf. unfold name_offset. destruct (omap_find _ _) as [o|] eqn:E; [|done].
  apply Ho in E as (l & s & k & Heq & _ & ->). cbn. rewrite Heq, strings_bytes_app in Hf.
  unfold urange. fits.
Qed.

Lemma save_named_all_holds names l : forall t b pre,
  table_ok names t -> Forall (fun x => (x.1 ∈ names /\ Byte.x00 ∉ x.1) /\ is_u32 x.2) l ->
  let tf := intern_all l t in
  fits (strings_bytes (nt_strings tf)) -> holds b pre ->
  fits (pre ++ mjoin (named_bytes tf <$> l)) ->
  (save_named_all (b, t) l).2 = tf /\
  holds (save_named_all (b, t) l).1 (pre ++ mjoin (named_bytes tf <$> l)) /\
  (l <> [] \/ b = wr pre -> (save_named_all (b, t) l).1 = wr (pre ++ mjoin (named_bytes tf <$> l))).
Proof.
  induction l as [|x l IH]; intros t b pre Ht Hl tf Hfs Hb Hf.
  - cbn. rewrite app_nil_r. split; [done|]. split; [done|]. by intros [?| ->].
  - apply list.Forall_cons in Hl as [[[Hin Hnul] Hx] Hl].
    assert (Htf : tf = intern_all l (intern x.1 t)) by done.
    assert (Ht' : table_ok names (intern x.1 t)).
    { apply intern_ok; [done..|]. rewrite Htf in Hfs. by eapply intern_all_fits. }
    assert (Hoff : name_offset (intern x.1 t) x.1 = name_offset tf x.1)
      by (rewrite Htf; symmetry; apply intern_all_offset).
    assert (Hrange : is_u32 (name_offset tf x.1)).
    { rewrite <- Hoff. eapply name_offset_range; [done|]. rewrite Htf in Hfs. by eapply intern_all_fits. }
    change (mjoin (named_bytes tf <$> x :: l)) with (named_bytes tf x ++ mjoin (named_bytes tf <$> l)) in *.
    rewrite app_assoc in *. change (named_bytes tf x) with (b32 (name_offset tf x.1) ++ b32 x.2) in *.
    change (save_named_all (b, t) (x :: l)) with (save_named_all (save_named x.1 x.2 (b, t)) l).
    unfold save_named. cbn [fst snd]. rewrite Hoff.
    rewrite app_assoc in *.
    rewrite (putU32_holds _ b pre Hb Hrange) by (by do 2 eapply fits_app_l).
    rewrite putU32_wr by (done || by eapply fits_app_l).
    destruct (IH (intern x.1 t) (wr ((pre ++ b32 (name_offset tf x.1)) ++ b32 x.2)) _ Ht' Hl Hfs
                (wr_holds _) Hf) as (IH1 & IH2 & IH3).
    split; [done|]. split; [done|]. intros _. apply IH3. by right.
Qed.

Lemma pad16_wr fuel l :
  (Z.to_nat ((- len l) mod 16) <= fuel)%nat -> fits (l ++ padding l) ->
  pad16 fuel (wr l) = Ok (wr (l ++ padding l)).
Proof.
  unfold padding. revert l. induction fuel as [|fuel IH]; intros l Hn Hf;
    pose proof (Z.mod_pos_bound (- len l) 16 ltac:(lia));
    pose proof (Z.mod_pos_bound (len l) 16 ltac:(lia)); cbn [pad16]; cbn [wr bb_wpos].
  - destruct (Z.eqb_spec (len l mod 16) 0) as [E|E].
    + rewrite Z.mod_opp_l_z by lia. by rewrite app_nil_r.
    + rewrite Z.mod_opp_l_nz in Hn by lia. lia.
  - destruct (Z.eqb_spec (len l mod 16) 0) as [E|E].
    + rewrite Z.mod_opp_l_z by lia. by rewrite app_nil_r.
    + assert (Hk : Z.to_nat ((- len l) mod 16) = S (Z.to_nat ((- len (l ++ [Byte.x00])) mod 16))).
      { rewrite Z.mod_opp_l_nz, length_app by lia. cbn [length].
        replace (- Z.of_nat (length l + 1)) with (- len l + -1) by lia.
        rewrite <- Zplus_mod_idemp_l, Z.mod_opp_l_nz by lia.
        rewrite (Z.mod_small (16 - len l mod 16 + -1)) by lia. lia. }
      assert (Happ : forall k, l ++ zeros (S k) = (l ++ [Byte.x00]) ++ zeros k)
        by (intros k; by rewrite <- app_assoc).
      rewrite Hk, Happ in *.
      unfold bb_put. rewrite le_split_1. change (byte.of_Z 0) with Byte.x00.
      rewrite bb_append_wr by (by eapply fits_app_l). apply IH; [lia|done].
Qed.

Lemma putU64_holds v b l :
  holds b l -> is_u64 v -> fits (l ++ b64 v) -> putU64 v b = wr (l ++ b64 v).
Proof. intros H Hv Hf. unfold putU64. rewrite uwrap_small by done. by apply bb_append_holds. Qed.

Lemma save_chunk_holds b l e :
  is_u32 (chunk_logicalOffset e) -> is_u32 (chunk_logicalSize e) ->
  holds b l -> fits (l ++ chunk_bytes e) -> save_chunk b e = wr (l ++ chunk_bytes e).
Proof.
  intros Ho Hs Hb Hf. unfold save_chunk, chunk_bytes, bb_putBytes in *. rewrite !app_assoc in *.
  rewrite (bb_append_holds b l) by (done || by do 2 eapply fits_app_l).
  rewrite putU32_wr by (done || by eapply fits_app_l). by rewrite putU32_wr.
Qed.

Lemma sha1_gap n hd k :
  len hd + Z.of_nat (k + n * 20) < 2 ^ 32 ->
  Nat.iter n (fun b => bb_setWritePos (bb_wpos b + 20) b) (mkBB hd 0 (len hd + Z.of_nat k))
    = mkBB hd 0 (len hd + Z.of_nat (k + n * 20)).
Proof.
  intros Hb. induction n as [|n IH]; [by rewrite Nat.add_0_r|]. rewrite Nat.iter_succ.
  rewrite IH by lia. unfold bb_setWritePos. cbn [bb_buf bb_rpos bb_wpos].
  rewrite uwrap_small by (unfold urange; lia). f_equal. lia.
Qed.

Lemma manifest_table_ok m :
  manifest_wf m -> table_ok (manifest_names m) (manifest_table m) /\
    fits (strings_bytes (nt_strings (manifest_table m))) /\
    Forall (fun x => (x.1 ∈ manifest_names m /\ Byte.x00 ∉ x.1) /\ is_u32 x.2) (manifest_named m).
Proof.
  intros [Hn _ _ _ _ Hs].
  assert (Hf : fits (strings_bytes (nt_strings (manifest_table m)))).
  { apply small_fits in Hs. unfold manifest_bytes, body_bytes in Hs.
    do 2 apply fits_app_r in Hs. apply fits_app_l in Hs. by do 2 apply fits_app_r in Hs. }
  assert (Hall : Forall (fun x => (x.1 ∈ manifest_names m /\ Byte.x00 ∉ x.1) /\ is_u32 x.2) (manifest_named m)).
  { apply list.Forall_forall. intros x Hx. rewrite list.Forall_forall in Hn. destruct (Hn x Hx).
    split_and!; [|done..]. by apply list_elem_of_fmap_2. }
  split_and!; [|done|done]. apply intern_all_ok; [apply table_empty_ok| |done].
  eapply list.Forall_impl; [exact Hall|]. by intros x [? _].
Qed.

Lemma save_entries_holds m b pre :
  manifest_wf m -> holds b pre -> fits (pre ++ tables_bytes m) -> (0 < total_count m)%nat \/ b = wr pre ->
  save_entries m b = (wr (pre ++ tables_bytes m), manifest_table m).
Proof.
  intros Hwf Hb Hf Hpos. destruct (manifest_table_ok m Hwf) as (_ & Hfs & Hall).
  unfold save_entries. rewrite save_named_all_manifest. unfold tables_bytes in *.
  rewrite !app_assoc in *.
  assert (Hf4 := fits_app_l _ _ Hf). assert (Hf3 := fits_app_l _ _ Hf4).
  assert (Hf2 := fits_app_l _ _ Hf3). assert (Hf1 := fits_app_l _ _ Hf2).
  destruct (save_named_all_holds (manifest_names m) (manifest_named m) table_empty b pre
              (table_empty_ok _) Hall Hfs Hb Hf1) as (-> & H1 & E1).
  fold (manifest_table m) in *.
  assert (Hres := wf_res m Hwf). assert (Hch := wf_chunks m Hwf).
  destruct (foldl_holds (fun b e => putU32 (res_resType e) b) (fun e => b32 (res_resType e))
    _ _ _ _ (fun b l e He Hb => putU32_holds _ b l Hb (proj1 He)) H1 Hres Hf2) as [H2 E2].
  destruct (foldl_holds (fun b e => bb_putBytes (res_resMeta e) b) res_resMeta
    (fun _ => True) _ _ _ (fun b l e _ Hb => bb_append_holds b l _ Hb) H2 (list.Forall_true _ _ (fun _ => I)) Hf3) as [H3 E3].
  destruct (foldl_holds (fun b e => putU64 (res_resRid e) b) (fun e => b64 (res_resRid e))
    _ _ _ _ (fun b l e He Hb => putU64_holds _ b l Hb (proj2 (proj2 He))) H3 Hres Hf4) as [H4 E4].
  destruct (foldl_holds save_chunk chunk_bytes
    _ _ _ _ (fun b l e He => save_chunk_holds b l e (proj1 (proj2 He)) (proj2 (proj2 He))) H4 Hch Hf) as [_ E5].
  f_equal. apply E5. destruct Hpos as [Hpos| ->].
  - destruct (m_chunkEntries m) eqn:Ec; [right|by left]. apply E4.
    destruct (m_resEntries m) eqn:Er; [right|by left]. apply E3. right. apply E2. right. apply E1. left.
    unfold manifest_named, total_count in *. rewrite Er, Ec in *. cbn in Hpos.
    destruct (m_ebxEntries m); [cbn in Hpos; lia|done].
  - right. apply E4. right. apply E3. right. apply E2. right. apply E1. by right.
Qed.

Lemma foldl_wr_all {E} (step : ByteBuffer -> E -> ByteBuffer) (enc : E -> list byte) (ok : E -> Prop) es l :
  (forall l e, ok e -> fits (l ++ enc e) -> step (wr l) e = wr (l ++ enc e)) ->
  Forall ok es -> fits (l ++ mjoin (enc <$> es)) ->
  foldl step (wr l) es = wr (l ++ mjoin (enc <$> es)).
Proof.
  intros Hstep Hok. apply foldl_wr. intros e k He. apply Hstep. by eapply list.Forall_forall in Hok.
Qed.

Lemma putU32_mid v pre old post r :
  is_u32 v -> length old = 4%nat -> fits (pre ++ old ++ post) ->
  putU32 v (mkBB (pre ++ old ++ post) r (len pre)) = mkBB (pre ++ b32 v ++ post) r (len (pre ++ b32 v)).
Proof.
  intros Hv Hold Hf. unfold putU32. rewrite uwrap_small by done. unfold bb_putInt. apply bb_append_mid; [|done].
  by rewrite b32_length, Hold.
Qed.

(** The three fields of the header that are patched at the end. *)
Lemma backpatch a b c pre post :
  is_u32 a -> is_u32 b -> is_u32 c -> fits (pre ++ (b32 0 ++ b32 0 ++ b32 0) ++ post) ->
  bb_buf (putU32 c (putU32 b (putU32 a (bb_setWritePos (len pre) (wr (pre ++ (b32 0 ++ b32 0 ++ b32 0) ++ post))))))
    = pre ++ (b32 a ++ b32 b ++ b32 c) ++ post.
Proof.
  intros Ha Hb Hc Hf. unfold bb_setWritePos, wr. cbn [bb_buf bb_rpos].
  rewrite uwrap_small by (unfold urange; fits). rewrite <- !app_assoc in *.
  rewrite putU32_mid by (done || apply b32_length).
  rewrite app_assoc, putU32_mid by first [done | apply b32_length | by rewrite <- app_assoc; unfold fits in *; rewrite !length_app, !b32_length in *].
  rewrite app_assoc, putU32_mid by first [done | apply b32_length | by rewrite <- !app_assoc; unfold fits in *; rewrite !length_app, !b32_length in *].
  cbn [bb_buf]. by rewrite <- !app_assoc.
Qed.

Lemma save_meta_wr o l :
  match o with Some v => db_wf v | None => True end -> fits (l ++ meta_bytes o) ->
  save_meta o (wr l) = Ok (wr (l ++ meta_bytes o),
    (match o with Some _ => len l | None => 0 end, len (meta_bytes o))).
Proof.
  destruct o as [v|]; cbn [save_meta meta_bytes]; [|by rewrite app_nil_r].
  intros Hwf Hf. rewrite DbObject_Save_bytes; [|apply (bool_decide_unpack _); vm_compute; exact I|done|by eapply fits_app_r].
  cbn [mbind result_bind]. unfold bb_putBytes. rewrite bb_append_wr by done.
  rewrite fits_u32 by (by eapply fits_app_r). done.
Qed.

Lemma counts_length m : length (counts_bytes m) = 20%nat.
Proof. unfold counts_bytes. by rewrite !length_app, !b32_length. Qed.
Lemma header_tail_length h : length (header_tail h) = 12%nat.
Proof. unfold header_tail. by rewrite !length_app, !b32_length. Qed.

(** Every size and offset written is within the file. *)
Lemma manifest_size m :
  len (manifest_bytes m) = 32 + (Z.of_nat (total_count m * 20) + len (tables_bytes m)) +
    len (meta_bytes (m_meta m)) + len (strings_bytes (nt_strings (manifest_table m))) +
    len (padding (body_bytes m)).
Proof.
  unfold manifest_bytes, body_bytes at 1, entries_bytes at 1, zeros at 1.
  rewrite !length_app, counts_length, header_tail_length, length_replicate. lia.
Qed.

Lemma len_entries m : len (entries_bytes m) = Z.of_nat (total_count m * 20) + len (tables_bytes m).
Proof. unfold entries_bytes, zeros. rewrite length_app, length_replicate. lia. Qed.

Lemma save_counts_wr m : small (manifest_bytes m) -> save_counts m = wr (counts_bytes m).
Proof.
  intros Hs. unfold small in Hs. rewrite manifest_size in Hs. unfold total_count in Hs.
  unfold save_counts. change bb_empty with (wr []).
  rewrite putU32_wr; [|done|unfold fits; rewrite length_app, b32_length; cbn; lia].
  replace (len (m_ebxEntries m) + len (m_resEntries m) + len (m_chunkEntries m))
    with (Z.of_nat (total_count m)) by (unfold total_count; lia).
  do 4 (rewrite putU32_wr; [|unfold urange, total_count; lia|unfold fits; rewrite !length_app, !b32_length; cbn; lia]).
  unfold counts_bytes. by rewrite <- !app_assoc.
Qed.

Lemma padding_app h l : length h = 32%nat -> padding (h ++ l) = padding l.
Proof.
  intros Hh. unfold padding. rewrite length_app, Hh.
  replace (- Z.of_nat (32 + length l)) with (- len l + -2 * 16) by lia.
  by rewrite Z_mod_plus_full.
Qed.

Theorem BundleManifest_Save_bytes m :
  manifest_wf m -> BundleManifest_Save m = Ok (manifest_bytes m).
Proof.
  intros Hwf. pose proof (wf_size m Hwf) as Hs. unfold BundleManifest_Save.
  rewrite (save_counts_wr m Hs). unfold small in Hs. rewrite manifest_size in Hs.
  set (z12 := b32 0 ++ b32 0 ++ b32 0). set (head := counts_bytes m ++ z12).
  assert (Hhead : length head = 32%nat) by (unfold head, z12; rewrite !length_app, counts_length, !b32_length; lia).
  assert (E0 : putU32 0 (putU32 0 (putU32 0 (wr (counts_bytes m)))) = wr head).
  { do 3 (rewrite putU32_wr; [|done|unfold fits; rewrite !length_app, counts_length, ?b32_length; cbn; lia]).
    unfold head, z12. by rewrite <- !app_assoc. }
  rewrite E0. replace (len (m_ebxEntries m) + len (m_resEntries m) + len (m_chunkEntries m))
    with (Z.of_nat (total_count m)) by (unfold total_count; lia).
  rewrite uwrap_small, Nat2Z.id by (unfold urange; lia).
  replace (wr head) with (mkBB head 0 (len head + Z.of_nat 0)) by (unfold wr; f_equal; lia).
  rewrite sha1_gap by lia. cbn [Nat.add].
  set (t := manifest_table m). set (strs := strings_bytes (nt_strings t)).
  rewrite (save_entries_holds m _ (head ++ zeros (total_count m * 20))); [|done| | |].
  2: { exists head, (total_count m * 20)%nat. split; [|done]. unfold zeros.
       f_equal. rewrite length_app, length_replicate. lia. }
  2: { unfold fits, zeros. rewrite !length_app, length_replicate. lia. }
  2: { destruct (decide (total_count m = 0)%nat) as [->|]; [right|left; lia].
       cbn [Nat.mul zeros replicate Z.of_nat]. rewrite app_nil_r, Z.add_0_r. done. }
  rewrite <- app_assoc. fold (entries_bytes m). cbn [fst snd].
  pose proof (len_entries m) as Hent.
  rewrite save_meta_wr; [|by apply wf_meta|unfold fits; rewrite !length_app; lia].
  cbn [mbind result_bind].
  rewrite (foldl_wr_all (fun b s => bb_putNullTerminatedString s b) (fun s => s ++ [Byte.x00]) (fun s => Byte.x00 ∉ s));
    [|by intros; apply bb_putNullTerminatedString_wr| |].
  2: { apply list.Forall_forall. intros s Hin. destruct (manifest_table_ok m Hwf) as [[_ Hstr _] _].
       by apply Hstr. }
  2: { fold (strings_bytes (nt_strings (manifest_table m))). unfold fits. rewrite !length_app. lia. }
  fold (strings_bytes (nt_strings (manifest_table m))).
  replace (((head ++ entries_bytes m) ++ meta_bytes (m_meta m)) ++ strings_bytes (nt_strings (manifest_table m)))
    with (head ++ body_bytes m) by (unfold body_bytes; by rewrite <- !app_assoc).
  assert (Hpad : padding (head ++ body_bytes m) = padding (body_bytes m)) by (by apply padding_app).
  rewrite pad16_wr; [|pose proof (Z.mod_pos_bound (- len (head ++ body_bytes m)) 16 ltac:(lia)); lia|].
  2: { rewrite Hpad. unfold fits, body_bytes at 1. rewrite !length_app. lia. }
  cbn [mbind result_bind]. rewrite Hpad. cbn [bb_wpos wr].
  replace ((head ++ body_bytes m) ++ padding (body_bytes m))
    with (counts_bytes m ++ z12 ++ body_bytes m ++ padding (body_bytes m))
    by (unfold head; by rewrite <- !app_assoc).
  unfold z12. rewrite backpatch.
  - unfold manifest_bytes, header_tail, saved_header. cbn [m_stringsOffset m_metaOffset m_metaSize].
    rewrite !length_app, Hhead, !Nat2Z.inj_add. by destruct (m_meta m); rewrite ?Nat2Z.inj_add.
  - unfold urange. rewrite !length_app. lia.
  - unfold urange. destruct (m_meta m); [rewrite !length_app|]; lia.
  - unfold urange. lia.
  - unfold fits, body_bytes at 1. rewrite !length_app, counts_length, !b32_length. lia.
Qed.

(** ** [Load] reads the reference bytes *)

Section load.
Context (m : BundleManifest) (Hwf : manifest_wf m).
Let D := manifest_bytes m.
Let t := manifest_table m.
Let hd := saved_header m.
Let w := len D.

Lemma manifest_fits : fits D.
Proof. apply small_fits, (wf_size m Hwf). Qed.
Local Hint Resolve manifest_fits : core.

(** Each name stands at its offset in the string table. *)
Lemma manifest_name_at name :
  name ∈ manifest_names m ->
  exists A B, D = A ++ name ++ Byte.x00 :: B /\ len A = m_stringsOffset hd + name_offset t name /\
    (Byte.x00 ∉ name).
Proof.
  intros Hin. destruct (manifest_table_ok m Hwf) as (Htab & Hfs & Hall).
  destruct (table_name (manifest_names m) t name Htab) as (l & k & Hl & Ho).
  { intros y Hy. by apply (wf_hashes m Hwf). }
  { by apply intern_all_has. }
  exists (counts_bytes m ++ header_tail hd ++ entries_bytes m ++ meta_bytes (m_meta m) ++ strings_bytes l),
    (strings_bytes k ++ padding (body_bytes m)).
  split_and!.
  - unfold D, manifest_bytes, body_bytes at 1. fold hd t. rewrite Hl.
    change (l ++ name :: k) with (l ++ [name] ++ k). rewrite !strings_bytes_app.
    change (strings_bytes [name]) with ((name ++ [Byte.x00]) ++ []).
    rewrite app_nil_r, <- !app_assoc. done.
  - rewrite Ho, !length_app, counts_length, header_tail_length. cbn [hd saved_header m_stringsOffset]. lia.
  - apply list_elem_of_fmap in Hin as (x & -> & Hx). rewrite list.Forall_forall in Hall. by apply Hall.
Qed.

Lemma parses_load_named x :
  x ∈ manifest_named m -> parses D w (load_named (m_stringsOffset hd)) (named_bytes t x) x.
Proof.
  intros Hx. destruct (manifest_table_ok m Hwf) as (Htab & Hfs & Hall).
  assert (Hr : is_u32 (name_offset t x.1)) by exact (name_offset_range _ _ x.1 Htab Hfs).
  rewrite list.Forall_forall in Hall. destruct (Hall x Hx) as [[Hin _] Hsz].
  destruct (manifest_name_at x.1 Hin) as (A & B & HD & HA & Hnul).
  intros pre rest Hpre. pose proof manifest_fits as Hf. unfold named_bytes in *.
  unfold load_named. unfold mbind at 1, Rd_bind at 1.
  rewrite <- app_assoc in Hpre. rewrite (parses_readU32 D w _ Hf Hr pre (b32 x.2 ++ rest)) by done.
  unfold mbind at 1, Rd_bind at 1.
  rewrite (parses_readU32 D w _ Hf Hsz (pre ++ b32 (name_offset t x.1)) rest) by (by rewrite <- app_assoc).
  unfold mbind, Rd_bind, Rd_gets, Rd_modify. cbn [bb_rpos].
  rewrite <- HA, (bb_jump_string D w x.1 A B) by done.
  unfold bb_setReadPos. cbn [bb_buf bb_wpos]. rewrite uwrap_small.
  - destruct x. by rewrite <- app_assoc.
  - unfold urange. rewrite Hpre in Hf. clear -Hf. fits.
Qed.

Definition blank_res (e : ResEntry) : ResEntry :=
  mkRes (res_name e) (res_originalSize e) 0 (replicate 16 Byte.x00) 0.

Lemma parses_ebx :
  parses D w (Rd_repeat (length (m_ebxEntries m)) (load_ebx (m_stringsOffset hd)))
    (mjoin ((fun e => named_bytes t (ebx_name e, ebx_originalSize e)) <$> m_ebxEntries m)) (m_ebxEntries m).
Proof.
  rewrite <- (list_fmap_id (m_ebxEntries m)) at 3. apply parses_repeat. intros e He.
  unfold load_ebx. replace (id e) with (mkEbx (ebx_name e, ebx_originalSize e).1 (ebx_name e, ebx_originalSize e).2)
    by (by destruct e). apply (parses_map _ _ _ (fun x => mkEbx x.1 x.2)), parses_load_named.
  apply elem_of_app. left. by apply (list_elem_of_fmap_2 (fun e => (ebx_name e, ebx_originalSize e))).
Qed.

Lemma parses_res :
  parses D w (Rd_repeat (length (m_resEntries m)) (load_res (m_stringsOffset hd)))
    (mjoin ((fun e => named_bytes t (res_name e, res_originalSize e)) <$> m_resEntries m))
    (blank_res <$> m_resEntries m).
Proof.
  apply parses_repeat. intros e He.
  apply (parses_map _ _ _ (fun x => mkRes x.1 x.2 0 (replicate 16 Byte.x00) 0) _ (res_name e, res_originalSize e)).
  apply parses_load_named. apply elem_of_app. right.
  by apply (list_elem_of_fmap_2 (fun e => (res_name e, res_originalSize e))).
Qed.

(** The three passes that fill the resources. *)
Definition typed_res (e : ResEntry) : ResEntry := set_resType (res_resType e) (blank_res e).
Definition described_res (e : ResEntry) : ResEntry := set_resMeta (res_resMeta e) (typed_res e).

Lemma parses_res_types :
  parses D w (mapM (fun e => t ← readU32; mret (set_resType t e)) (blank_res <$> m_resEntries m))
    (mjoin ((fun e => b32 (res_resType e)) <$> m_resEntries m)) (typed_res <$> m_resEntries m).
Proof.
  pose proof manifest_fits as Hf. pose proof (wf_res m Hwf) as Hres. rewrite list.Forall_forall in Hres.
  apply parses_mapM, list.Forall_forall. intros e He.
  apply (parses_map _ _ _ (fun t => set_resType t (blank_res e))). by apply parses_readU32, Hres.
Qed.

Lemma parses_res_metas :
  parses D w (mapM (fun e => x ← bb_getBytes 16; mret (set_resMeta x e)) (typed_res <$> m_resEntries m))
    (mjoin (res_resMeta <$> m_resEntries m)) (described_res <$> m_resEntries m).
Proof.
  pose proof manifest_fits as Hf. pose proof (wf_res m Hwf) as Hres. rewrite list.Forall_forall in Hres.
  apply parses_mapM, list.Forall_forall. intros e He.
  apply (parses_map _ _ _ (fun x => set_resMeta x (typed_res e))).
  destruct (Hres e He) as (_ & <- & _). by apply parses_getBytes.
Qed.

Lemma parses_res_rids :
  parses D w (mapM (fun e => r ← readU64; mret (set_resRid r e)) (described_res <$> m_resEntries m))
    (mjoin ((fun e => b64 (res_resRid e)) <$> m_resEntries m)) (m_resEntries m).
Proof.
  pose proof manifest_fits as Hf. pose proof (wf_res m Hwf) as Hres. rewrite list.Forall_forall in Hres.
  rewrite <- (list_fmap_id (m_resEntries m)) at 3. apply parses_mapM, list.Forall_forall. intros e He.
  replace (id e) with (set_resRid (res_resRid e) (described_res e)) by (by destruct e).
  apply (parses_map _ _ _ (fun r => set_resRid r (described_res e))). by apply parses_readU64, Hres.
Qed.

Lemma parses_chunks :
  parses D w (Rd_repeat (length (m_chunkEntries m)) load_chunk)
    (mjoin (chunk_bytes <$> m_chunkEntries m)) (m_chunkEntries m).
Proof.
  pose proof manifest_fits as Hf. pose proof (wf_chunks m Hwf) as Hch. rewrite list.Forall_forall in Hch.
  rewrite <- (list_fmap_id (m_chunkEntries m)) at 3. apply parses_repeat. intros e He.
  destruct (Hch e He) as (Hg & Ho & Hs).
  unfold load_chunk, chunk_bytes. eapply parses_bind.
  { intros pre rest HD. pose proof (Guid_readBE_cur pre _ rest w Hg) as Hr. unfold cur in Hr.
    rewrite <- app_assoc, <- HD in Hr. by apply Hr. }
  eapply parses_bind; [by apply parses_readU32|].
  replace (id e) with (mkChunk (chunk_guid e) (chunk_logicalOffset e) (chunk_logicalSize e)) by (by destruct e).
  apply (parses_map _ _ _ (fun s => mkChunk _ _ s)). by apply parses_readU32.
Qed.

Lemma parses_header :
  parses D w load_header
    (b32 (m_totalCount hd) ++ b32 (m_ebxCount hd) ++ b32 (m_resCount hd) ++ b32 (m_chunkCount hd) ++ header_tail hd) hd.
Proof.
  pose proof manifest_fits as Hf. pose proof (wf_size m Hwf) as Hs. unfold small in Hs. rewrite manifest_size in Hs.
  pose proof (len_entries m) as Hent.
  assert (total_count m = length (m_ebxEntries m) + length (m_resEntries m) + length (m_chunkEntries m))%nat by done.
  unfold load_header, header_tail.
  do 6 (eapply parses_bind;
    [apply parses_readU32; [done|unfold urange; cbn [hd saved_header m_totalCount m_ebxCount m_resCount m_chunkCount
       m_stringsOffset m_metaOffset]; try destruct (m_meta m); lia]|]).
  replace (mret hd) with (mret (M := Rd) hd) by done.
  apply (parses_map D w readU32 (mkHeader _ _ _ _ _ _)). apply parses_readU32; [done|].
  unfold urange; cbn [hd saved_header m_metaSize]. lia.
Qed.

Lemma parses_sha1s :
  parses D w (skip_sha1s (m_totalCount hd)) (zeros (total_count m * 20)) tt.
Proof.
  intros pre rest HD. pose proof manifest_fits as Hf. pose proof (wf_size m Hwf) as Hs.
  unfold small in Hs. rewrite manifest_size in Hs.
  unfold skip_sha1s. cbn [hd saved_header m_totalCount]. destruct (Z.leb_spec (2 ^ 31) (Z.of_nat (total_count m))); [lia|].
  unfold Rd_modify. rewrite Nat2Z.id. do 2 f_equal. rewrite length_app. unfold zeros. rewrite length_replicate.
  assert (Hb : len pre + Z.of_nat (total_count m * 20) < 2 ^ 32).
  { rewrite HD in Hf. unfold fits, zeros in Hf. rewrite !length_app, length_replicate in Hf. lia. }
  clear -Hb. induction (total_count m) as [|n IH]; [cbn; f_equal; lia|].
  rewrite Nat.iter_succ, IH by lia. unfold bb_setReadPos. cbn [bb_buf bb_rpos bb_wpos].
  rewrite uwrap_small by (unfold urange; lia). f_equal. lia.
Qed.

Lemma load_meta_bytes r :
  exists r', load_meta hd None (mkBB D r w) = Ok (m_meta m, mkBB D r' w).
Proof.
  pose proof manifest_fits as Hf. unfold load_meta. cbn [hd saved_header m_metaSize m_metaOffset].
  pose proof (wf_meta m Hwf) as Hmeta. pose proof (wf_size m Hwf) as Hsz.
  destruct (m_meta m) as [v|] eqn:Em; [|by exists r].
  assert (Hpos : (1 <= length (meta_bytes (Some v)))%nat).
  { pose proof (header_bytes_nonempty (bstr "chunkMeta") v).
    cbn [meta_bytes]. destruct v; cbn [db_bytes]; rewrite length_app; lia. }
  destruct (Z.ltb_spec 0 (len (meta_bytes (Some v)))) as [_|]; [|lia].
  set (pre := counts_bytes m ++ header_tail hd ++ entries_bytes m).
  set (rest := strings_bytes (nt_strings t) ++ padding (body_bytes m)).
  assert (HD : D = pre ++ meta_bytes (Some v) ++ rest).
  { unfold D, manifest_bytes, body_bytes at 1, pre, rest. rewrite Em, <- !app_assoc. done. }
  unfold mbind, Rd_bind, Rd_modify, bb_setReadPos. cbn [bb_buf bb_wpos].
  replace (u32 (32 + len (entries_bytes m))) with (len pre).
  2: { rewrite uwrap_small; unfold pre; rewrite ?length_app, ?counts_length, ?header_tail_length; [lia|].
       rewrite HD in Hf. unfold pre in Hf. unfold urange. clear -Hf. unfold fits in Hf.
       rewrite !length_app, counts_length, header_tail_length in Hf. lia. }
  rewrite Nat2Z.id, (parses_getBytes D w Hf _ pre rest HD).
  exists (len (pre ++ meta_bytes (Some v))). cbn [meta_bytes] in *.
  pose proof (DbObject_Load_bytes (bstr "chunkMeta") v [] [] (len (db_bytes (bstr "chunkMeta") v))) as Hl.
  unfold cur in Hl. rewrite !app_nil_r, !app_nil_l in Hl. change (len (@nil byte)) with 0 in Hl.
  unfold Rd_lift.
  rewrite Hl; [done|apply (bool_decide_unpack _); vm_compute; exact I|done|].
  unfold small in *. fold D in Hsz. rewrite HD, !length_app in Hsz. lia.
Qed.

Lemma BundleManifest_Load_bytes :
  BundleManifest_Load (manifest_bytes m) manifest_new =
    Ok (mkManifest hd (m_ebxEntries m) (m_resEntries m) (m_chunkEntries m) (m_meta m) []).
Proof.
  pose proof manifest_fits as Hf. unfold BundleManifest_Load. fold D.
  assert (HD : D = b32 0x9D798ED5 ++
    (b32 (m_totalCount hd) ++ b32 (m_ebxCount hd) ++ b32 (m_resCount hd) ++ b32 (m_chunkCount hd) ++ header_tail hd) ++
    zeros (total_count m * 20) ++
    mjoin ((fun e => named_bytes t (ebx_name e, ebx_originalSize e)) <$> m_ebxEntries m) ++
    mjoin ((fun e => named_bytes t (res_name e, res_originalSize e)) <$> m_resEntries m) ++
    mjoin ((fun e => b32 (res_resType e)) <$> m_resEntries m) ++
    mjoin (res_resMeta <$> m_resEntries m) ++
    mjoin ((fun e => b64 (res_resRid e)) <$> m_resEntries m) ++
    mjoin (chunk_bytes <$> m_chunkEntries m) ++
    meta_bytes (m_meta m) ++ strings_bytes (nt_strings t) ++ padding (body_bytes m)).
  { unfold D, manifest_bytes, counts_bytes, body_bytes at 1, entries_bytes, tables_bytes, manifest_named.
    rewrite fmap_app, join_app, <- !list_fmap_compose, <- !app_assoc. done. }
  unfold load_manifest. change (mkBB D 0 (len D)) with (mkBB D (len (@nil byte)) w).
  rewrite (parses_run _ _ _ _ _ _ [] _ (parses_readU32 D w 0x9D798ED5 Hf ltac:(done)) HD).
  change (negb (Z.lxor 0x9D798ED5 kMagicSalt =? kMagic)) with false. cbn iota.
  assert (HD' := HD). rewrite <- !app_assoc in HD'.
  change (m_resEntries manifest_new ++ ?l) with l.
  parse_step parses_header. parse_step parses_sha1s.
  cbn [hd saved_header m_ebxCount m_resCount m_chunkCount]. rewrite !Nat2Z.id.
  parse_step parses_ebx. parse_step parses_res. parse_step parses_res_types.
  parse_step parses_res_metas. parse_step parses_res_rids. parse_step parses_chunks.
  unfold mbind, Rd_bind. change (m_meta manifest_new) with (@None DbValue).
  match goal with |- context [mkBB D ?r w] => destruct (load_meta_bytes r) as [r' ->] end.
  done.
Qed.
End load.

(** ** Properties *)

(** C3: A manifest whose names have different hashes is saved as its reference
    bytes, a whole number of 16-byte blocks, and loading them gives back every
    entry in order, the metadata and a header that matches the entries. *)
Theorem BundleManifest_roundtrip m :
  manifest_wf m ->
  exists data, BundleManifest_Save m = Ok data /\ len data mod 16 = 0 /\
    BundleManifest_Load data manifest_new =
      Ok (mkManifest (saved_header m) (m_ebxEntries m) (m_resEntries m) (m_chunkEntries m) (m_meta m) []).
Proof.
  intros Hwf. exists (manifest_bytes m).
  split; [by apply BundleManifest_Save_bytes|]. split; [|by apply BundleManifest_Load_bytes].
  unfold manifest_bytes, padding, zeros. rewrite !length_app, counts_length, header_tail_length, length_replicate.
  pose proof (Z.mod_pos_bound (- len (body_bytes m)) 16 ltac:(lia)).
  pose proof (Z.div_mod (- len (body_bytes m)) 16 ltac:(lia)).
  replace (Z.of_nat _) with ((2 - (- len (body_bytes m)) / 16) * 16) by lia.
  apply Z.mod_mul. lia.
Qed.

Definition sample_manifest : BundleManifest :=
  mkManifest (mkHeader 0 0 0 0 0 0 0)
    [mkEbx (bstr "levels/kashyyyk") 1024; mkEbx (bstr "weapons/e11") 77]
    [mkRes (bstr "weapons/e11") 4096 0x36F3F2C0 (replicate 16 Byte.x07) 0xDEADBEEF12345678]
    [mkChunk (replicate 16 Byte.xab) 0 65536]
    (Some (DbList [DbMap [(bstr "h32", DbInt 99); (bstr "meta", DbMap [(bstr "firstMip", DbInt 0)])]]))
    [].

Lemma sample_manifest_wf : manifest_wf sample_manifest.
Proof.
  split.
  - repeat constructor; try done; apply (bool_decide_unpack _); vm_compute; exact I.
  - unfold manifest_names, manifest_named. cbn.
    intros x y Hx Hy.
    repeat match goal with H : _ ∈ _ |- _ =>
      first [apply elem_of_nil in H; done | apply elem_of_cons in H as [->|H]] end;
      try done; intros E; vm_compute in E; discriminate E.
  - repeat constructor; done.
  - repeat constructor; done.
  - cbn. repeat constructor; try done; apply (bool_decide_unpack _); vm_compute; exact I.
  - vm_compute. reflexivity.
Qed.

Lemma BundleManifest_roundtrip_witness :
  exists data, BundleManifest_Save sample_manifest = Ok data /\ len data mod 16 = 0 /\
    BundleManifest_Load data manifest_new =
      Ok (mkManifest (saved_header sample_manifest) (m_ebxEntries sample_manifest)
            (m_resEntries sample_manifest) (m_chunkEntries sample_manifest) (m_meta sample_manifest) []).
Proof. exact (BundleManifest_roundtrip sample_manifest sample_manifest_wf). Defined.

(** The hypothesis on hashes is needed: [Save] finds a name again by its hash,
    so two different names with one hash are both written as the first. *)
Theorem BundleManifest_name_collision :
  exists m data h, (manifest_names m = [bstr "a7"; bstr "gq"]) /\ BundleManifest_Save m = Ok data /\
    ebx_name <$> m_ebxEntries h = [bstr "a7"; bstr "a7"] /\ BundleManifest_Load data manifest_new = Ok h.
Proof.
  set (m := set_ebx [mkEbx (bstr "a7") 1; mkEbx (bstr "gq") 2] manifest_new).
  destruct (BundleManifest_Save m) as [data|] eqn:E; [|vm_compute in E; discriminate E].
  destruct (BundleManifest_Load data manifest_new) as [h|] eqn:El;
    vm_compute in E; injection E as <-; vm_compute in El; [|discriminate El].
  injection El as <-. eexists m, _, _. split; [done|]. split; [vm_compute; reflexivity|].
  split; [|vm_compute; reflexivity]. reflexivity.
Qed.

(** *** Adding and modifying *)

(** The size of the first entry with a name. *)
Fixpoint find_ebx (name : list byte) (l : list EbxEntry) : option Z :=
  match l with
  | [] => None
  | e :: l' => if decide (ebx_name e = name) then Some (ebx_originalSize e) else find_ebx name l'
  end.

Lemma find_ebx_app_ne name l1 l2 :
  Forall (fun e => ebx_name e <> name) l1 -> find_ebx name (l1 ++ l2) = find_ebx name l2.
Proof. induction 1 as [|e l1 He _ IH]; cbn; [done|]. by rewrite decide_False. Qed.

Lemma find_ebx_replace n l1 x y l2 :
  ebx_name x = ebx_name y -> n <> ebx_name x -> find_ebx n (l1 ++ x :: l2) = find_ebx n (l1 ++ y :: l2).
Proof.
  intros Hxy Hn. induction l1 as [|e l1 IH]; cbn; [|by rewrite IH].
  rewrite !decide_False; [done|congruence..].
Qed.

Lemma find_ebx_snoc_ne n l y : n <> ebx_name y -> find_ebx n (l ++ [y]) = find_ebx n l.
Proof.
  intros Hn. induction l as [|e l IH]; cbn; [by rewrite decide_False|]. by rewrite IH.
Qed.

Lemma not_same_ebx name l :
  Byte.x00 ∉ name -> Forall (fun e => same_ebx name e = false) l -> Forall (fun e => ebx_name e <> name) l.
Proof.
  intros Hn H. eapply list.Forall_impl; [exact H|]. intros e He. unfold same_ebx in He.
  rewrite c_str_id in He by done. by apply bool_decide_eq_false in He.
Qed.

(** [AddEbxEntry] gives the name its size and leaves every other name alone; it
    answers [Rt_Modified] exactly when the name was there, and then no entry
    moves; otherwise the entry goes to the end. *)
Theorem AddEbxEntry_spec name size m :
  Byte.x00 ∉ name ->
  exists r m', AddEbxEntry name size true m = (r, m') /\
    find_ebx name (m_ebxEntries m') = Some size /\
    (forall n, n <> name -> find_ebx n (m_ebxEntries m') = find_ebx n (m_ebxEntries m)) /\
    ((r = Rt_Modified /\ name ∈ ebx_name <$> m_ebxEntries m /\
        ebx_name <$> m_ebxEntries m' = ebx_name <$> m_ebxEntries m) \/
     (r = Rt_Added /\ (name ∉ ebx_name <$> m_ebxEntries m) /\
        m_ebxEntries m' = m_ebxEntries m ++ [mkEbx name size])).
Proof.
  intros Hn. unfold AddEbxEntry.
  destruct (update_first _ _ _) as [l|] eqn:E; eexists _, _; (split; [reflexivity|]).
  - apply update_first_Some in E as (l1 & x & l2 & Hl & Hne & Hx & ->).
    apply (not_same_ebx name) in Hne; [|done].
    unfold same_ebx in Hx. rewrite c_str_id in Hx by done. apply bool_decide_eq_true in Hx.
    cbn [m_ebxEntries set_ebx]. rewrite Hl. split_and!.
    + rewrite find_ebx_app_ne by done. cbn. by rewrite decide_True.
    + intros n Hne'. apply find_ebx_replace; cbn; congruence.
    + left. split_and!; [done| |by rewrite !fmap_app].
      rewrite fmap_app. apply elem_of_app. right. cbn. rewrite Hx. by left.
  - apply update_first_None in E. apply (not_same_ebx name) in E; [|done].
    cbn [m_ebxEntries set_ebx]. rewrite c_str_id by done. split_and!.
    + rewrite find_ebx_app_ne by done. cbn. by rewrite decide_True.
    + intros n Hne'. by apply find_ebx_snoc_ne.
    + right. split_and!; [done| |done].
      intros (e & -> & He)%list_elem_of_fmap. rewrite list.Forall_forall in E. by apply (E e He).
Qed.

Lemma AddEbxEntry_spec_witness :
  exists r m', AddEbxEntry (bstr "weapons/e11") 5 true sample_manifest = (r, m') /\
    find_ebx (bstr "weapons/e11") (m_ebxEntries m') = Some 5 /\
    (forall n, n <> bstr "weapons/e11" ->
       find_ebx n (m_ebxEntries m') = find_ebx n (m_ebxEntries sample_manifest)) /\
    ((r = Rt_Modified /\ bstr "weapons/e11" ∈ ebx_name <$> m_ebxEntries sample_manifest /\
        ebx_name <$> m_ebxEntries m' = ebx_name <$> m_ebxEntries sample_manifest) \/
     (r = Rt_Added /\ (bstr "weapons/e11" ∉ ebx_name <$> m_ebxEntries sample_manifest) /\
        m_ebxEntries m' = m_ebxEntries sample_manifest ++ [mkEbx (bstr "weapons/e11") 5])).
Proof. apply AddEbxEntry_spec. apply (bool_decide_unpack _). vm_compute. exact I. Defined.

(** The metadata the chunk operations rely on: absent, or a list of objects
    each with an integer under "h32". *)
Definition meta_item_ok (item : DbValue) : Prop := exists h, meta_h32 item = Ok h.
Definition meta_ok (m : BundleManifest) : Prop :=
  match m_meta m with
  | None => True
  | Some (DbList l) => Forall meta_item_ok l
  | Some _ => False
  end.

Definition meta_count (m : BundleManifest) : nat :=
  match m_meta m with Some (DbList l) => length l | _ => 0%nat end.

Lemma chunk_meta_h32 h32 firstMip : meta_h32 (chunk_meta h32 firstMip) = Ok (u32 h32).
Proof. unfold chunk_meta. by destruct (firstMip =? -1). Qed.

Lemma meta_index_loop_ok h32 i l :
  0 <= i -> Forall meta_item_ok l ->
  meta_index_loop h32 i l = Ok (-1) \/
  exists k, meta_index_loop h32 i l = Ok (i + Z.of_nat k) /\ (k < length l)%nat.
Proof.
  intros Hi Hl. revert i Hi. induction Hl as [|x l [h Hh] _ IH]; intros i Hi; [by left|].
  cbn. rewrite Hh. cbn. destruct (_ =? _).
  - right. exists 0%nat. rewrite Z.add_0_r. split; [done|lia].
  - destruct (IH (i + 1)) as [->|(k & -> & Hk)]; [lia|by left|right].
    exists (S k). split; [f_equal; lia|lia].
Qed.

Lemma add_chunk_meta_existing h32 firstMip m :
  meta_ok m ->
  exists m', add_chunk_meta true h32 firstMip m = Ok m' /\ meta_ok m' /\
    m_chunkEntries m' = m_chunkEntries m /\ meta_count m' = meta_count m.
Proof.
  intros Hm. unfold add_chunk_meta. destruct (h32 =? 0); [by exists m|].
  unfold meta_ok in Hm. destruct (m_meta m) as [v|] eqn:Em.
  - destruct v as [| | | | | | | | | |l|]; try done. rewrite Em. cbn. unfold GetMetaIndex. rewrite Em. cbn.
    destruct (meta_index_loop_ok h32 0 l) as [->|(k & -> & Hk)]; [lia|done|..]; rewrite ?Z.add_0_l; cbn -[audit_no_meta].
    + eexists. split; [done|]. unfold meta_ok, meta_count, PushAudit. cbn. by rewrite Em.
    + destruct (Z.eqb_spec (Z.of_nat k) (-1)); [lia|]. eexists. split; [done|].
      unfold meta_ok, meta_count. cbn. rewrite Em, Nat2Z.id, length_insert. split; [|done].
      apply Forall_insert; [done|]. eexists. apply chunk_meta_h32.
  - cbn. eexists. split; [done|]. unfold meta_ok, meta_count. cbn. by rewrite Em.
Qed.

Lemma add_chunk_meta_new h32 firstMip m :
  meta_ok m ->
  exists m', add_chunk_meta false h32 firstMip m = Ok m' /\ meta_ok m' /\
    m_chunkEntries m' = m_chunkEntries m /\
    meta_count m' = (meta_count m + if (h32 =? 0)%Z then 0 else 1)%nat.
Proof.
  intros Hm. unfold add_chunk_meta. destruct (h32 =? 0); [exists m; by rewrite Nat.add_0_r|].
  assert (Hc : meta_item_ok (chunk_meta h32 firstMip)) by (eexists; apply chunk_meta_h32).
  unfold meta_ok in Hm. destruct (m_meta m) as [v|] eqn:Em.
  - destruct v as [| | | | | | | | | |l|]; try done. rewrite Em. cbn.
    eexists. split; [done|]. unfold meta_ok, meta_count. cbn. rewrite Em. split_and!; [|done|].
    + apply Forall_app. split; [done|]. by constructor.
    + by rewrite length_app.
  - cbn. eexists. split; [done|]. unfold meta_ok, meta_count. cbn. rewrite Em. split_and!; try done.
    by constructor.
Qed.

(** On metadata of that shape [AddChunkEntry] never fails and keeps the shape.
    A chunk that was there is replaced in place and the metadata keeps its
    length; a new one is appended, with its metadata when it has a texture
    hash; nothing changes when new chunks are not allowed. *)
Theorem AddChunkEntry_spec entry h32 firstMip allowNew allowModify m :
  meta_ok m ->
  exists r m', AddChunkEntry entry h32 firstMip allowNew allowModify m = Ok (r, m') /\ meta_ok m' /\
    (chunk_guid entry ∈ chunk_guid <$> m_chunkEntries m' \/ r = Rt_Nop) /\
    match r with
    | Rt_Nop => m' = m /\ allowNew = false
    | Rt_Modified => allowModify = true /\ meta_count m' = meta_count m /\
        chunk_guid <$> m_chunkEntries m' = chunk_guid <$> m_chunkEntries m
    | Rt_Added => m_chunkEntries m' = m_chunkEntries m ++ [entry] /\
        meta_count m' = (meta_count m + if (h32 =? 0)%Z then 0 else 1)%nat
    end.
Proof.
  intros Hm. unfold AddChunkEntry.
  destruct (if allowModify then _ else None) as [l|] eqn:E.
  - destruct allowModify; [|done].
    apply update_first_Some in E as (l1 & x & l2 & Hl & _ & Hx & ->).
    apply bool_decide_eq_true in Hx.
    assert (Hg : chunk_guid <$> (l1 ++ entry :: l2) = chunk_guid <$> m_chunkEntries m).
    { rewrite Hl, !fmap_app. cbn. by rewrite Hx. }
    destruct (add_chunk_meta_existing h32 firstMip (set_chunks (l1 ++ entry :: l2) m) Hm)
      as (m' & -> & Hm' & Hch & Hcount).
    exists Rt_Modified, m'. cbn. split_and!; try done.
    + left. rewrite Hch. cbn. rewrite fmap_app. set_solver.
    + by rewrite Hch.
  - destruct allowNew; [|exists Rt_Nop, m; split_and!; auto].
    destruct (add_chunk_meta_new h32 firstMip (set_chunks (m_chunkEntries m ++ [entry]) m) Hm)
      as (m' & -> & Hm' & Hch & Hcount).
    exists Rt_Added, m'. cbn. split_and!; try done.
    left. rewrite Hch. cbn. rewrite fmap_app. set_solver.
Qed.

Lemma AddChunkEntry_spec_witness :
  exists r m', AddChunkEntry (mkChunk (replicate 16 Byte.xcd) 8 16) 1234 (-1) true true sample_manifest = Ok (r, m') /\
    meta_ok m' /\
    (replicate 16 Byte.xcd ∈ chunk_guid <$> m_chunkEntries m' \/ r = Rt_Nop) /\
    match r with
    | Rt_Nop => m' = sample_manifest /\ true = false
    | Rt_Modified => true = true /\ meta_count m' = meta_count sample_manifest /\
        chunk_guid <$> m_chunkEntries m' = chunk_guid <$> m_chunkEntries sample_manifest
    | Rt_Added => m_chunkEntries m' = m_chunkEntries sample_manifest ++ [mkChunk (replicate 16 Byte.xcd) 8 16] /\
        meta_count m' = (meta_count sample_manifest + if (1234 =? 0)%Z then 0 else 1)%nat
    end.
Proof.
  apply (AddChunkEntry_spec (mkChunk (replicate 16 Byte.xcd) 8 16)).
  repeat constructor. eexists. reflexivity.
Defined.
