(* ===== verification/BundleMerger.v ===== *)
(** [BundleMerger] (Source/ModLoader/BundleMerger.cpp): the catalogue of the
    game's own bundles and assets, read from VanillaBundleAggregation.kb.

    The mod loader looks an asset up here to learn in which bundles, and at
    which positions, the game already has it. *)

From S2P Require Import Prelude OrdMap ByteBuffer StringUtils Guid DbObject Endian BundleManifest.

(** [LayoutManifest::FileInfo]: where an asset lies in a cas file. *)
Record FileInfo := mkFile { fi_file : Z; fi_offset : Z; fi_size : Z }.

#[export] Instance FileInfo_eq_dec : EqDecision FileInfo.
Proof. solve_decision. Defined.

(** [BundleMerger::BundleEntry]: the files of a vanilla bundle, and how many of
    them are ebx, resources and chunks. *)
Record BundleEntry := mkBundle {
  be_hash : Z;
  be_ebxCount : Z;
  be_resCount : Z;
  be_chunkCount : Z;
  be_files : list FileInfo;
}.

(** What [operator[]] inserts for a missing hash. *)
Definition BundleEntry_default : BundleEntry := mkBundle 0 0 0 0 [].

Record VanillaEbxEntry := mkVEbx {
  ve_entry : EbxEntry; ve_file : FileInfo; ve_bundleFileOffsets : omap Z Z }.
Record VanillaResEntry := mkVRes {
  vr_entry : ResEntry; vr_file : FileInfo; vr_bundleFileOffsets : omap Z Z }.
Record VanillaChunkEntry := mkVChunk {
  vc_entry : ChunkEntry; vc_file : FileInfo; vc_h32 : Z; vc_firstMip : Z;
  vc_bundleFileOffsets : omap Z Z }.

Record BundleMerger := mkMerger {
  m_catalogs : list (list byte);
  m_bundleEntries : gmap Z BundleEntry;
  m_vanillaEbxEntries : omap (list byte) VanillaEbxEntry;
  m_vanillaResEntries : omap (list byte) VanillaResEntry;
  m_vanillaChunkEntries : omap (list byte) VanillaChunkEntry;
}.

Definition BundleMerger_empty : BundleMerger := mkMerger [] ∅ [] [] [].

(** ** [LoadVanillaEntries] *)

(** Three 64-bit words; the first two are narrowed. *)
Definition read_file_info : Rd FileInfo :=
  file ← readU64; offset ← readU64; size ← readU64;
  mret (mkFile (i32 file) (u32 offset) (i64 size)).

(** The references of assets narrow all three to 32 bits. *)
Definition read_file_ref : Rd FileInfo :=
  fileRef ← readU64; fileOffset ← readU64; fileSize ← readU64;
  mret (mkFile (i32 (u32 fileRef)) (u32 fileOffset) (u32 fileSize)).

Definition read_bundle_entry : Rd BundleEntry :=
  hash ← readU32; ebx ← readU32; res ← readU32; chunk ← readU32;
  fileCount ← readU32;
  (* reserve of a negative int *)
  if i32 fileCount <? 0 then Rd_fault Thrown else
  files ← Rd_repeat (Z.to_nat (i32 fileCount)) read_file_info;
  mret (mkBundle hash ebx res chunk files).

Definition read_bundle_offset : Rd (Z * Z) :=
  bundleHash ← readU32; fileIndex ← readU32; mret (bundleHash, fileIndex).

Definition insert_all {K V} `{KeyOrder K} (l : list (K * V)) (m : omap K V) : omap K V :=
  foldl (fun m kv => omap_insert kv.1 kv.2 m) m l.

Definition read_bundle_offsets : Rd (omap Z Z) :=
  n ← readU32; l ← Rd_repeat (Z.to_nat n) read_bundle_offset; mret (insert_all l []).

Definition read_vanilla_ebx : Rd (list byte * VanillaEbxEntry) :=
  name ← bb_getNullTerminatedString;
  originalSize ← readU64;
  file ← read_file_ref;
  offsets ← read_bundle_offsets;
  mret (name, mkVEbx (mkEbx name (u32 originalSize)) file offsets).

Definition read_vanilla_res : Rd (list byte * VanillaResEntry) :=
  name ← bb_getNullTerminatedString;
  originalSize ← readU64; resType ← readU64;
  resMeta ← bb_getBytes 16; resRid ← readU64;
  file ← read_file_ref;
  offsets ← read_bundle_offsets;
  mret (name, mkVRes (mkRes name (u32 originalSize) (u32 resType) resMeta resRid) file offsets).

Definition read_vanilla_chunk : Rd (list byte * VanillaChunkEntry) :=
  name ← bb_getNullTerminatedString;
  file ← read_file_ref;
  logicalOffset ← readU64; logicalSize ← readU64; _ ← readU64;
  h32 ← readU32; firstMip ← readU64;
  offsets ← read_bundle_offsets;
  mret (name, mkVChunk (mkChunk (Guid_FromString name) (u32 logicalOffset) (u32 logicalSize)) file
                (i32 h32) (i32 firstMip) offsets).

(** A section of the file: a count and that many records. *)
Definition read_section {A} (rd : Rd A) : Rd (list A) :=
  n ← readU32; Rd_repeat (Z.to_nat n) rd.

Definition load_aggregation (g : BundleMerger) : Rd BundleMerger :=
  magic ← readU32;
  if negb (magic =? 0x77778888) then mret g else
  catalogs ← read_section bb_getNullTerminatedString;
  bundles ← read_section read_bundle_entry;
  ebx ← read_section read_vanilla_ebx;
  res ← read_section read_vanilla_res;
  chunks ← read_section read_vanilla_chunk;
  mret (mkMerger (m_catalogs g ++ catalogs)
          (foldl (fun m e => <[be_hash e := e]> m) (m_bundleEntries g) bundles)
          (insert_all ebx (m_vanillaEbxEntries g))
          (insert_all res (m_vanillaResEntries g))
          (insert_all chunks (m_vanillaChunkEntries g))).

(** [RT_LoadFile] gives the contents of the file, or fails: the merger is then
    left empty and an error is logged. *)
Definition LoadVanillaEntries (file : option (list byte)) (g : BundleMerger) : result BundleMerger :=
  match file with
  | None => Ok g
  | Some data => fst <$> load_aggregation g (mkBB data 0 (len data))
  end.

(** ** Lookups *)

Definition GetVanillaEbxEntry (name : list byte) (g : BundleMerger) : option VanillaEbxEntry :=
  omap_find (c_str name) (m_vanillaEbxEntries g).
Definition GetVanillaResEntry (name : list byte) (g : BundleMerger) : option VanillaResEntry :=
  omap_find (c_str name) (m_vanillaResEntries g).
Definition GetVanillaChunkEntry (name : list byte) (g : BundleMerger) : option VanillaChunkEntry :=
  omap_find (c_str name) (m_vanillaChunkEntries g).

Definition GetCatalogCount (g : BundleMerger) : Z := len (m_catalogs g).

(** [m_catalogs.at(index)] throws out of range. *)
Definition GetCatalog (index : Z) (g : BundleMerger) : result (list byte) :=
  if u32 index <? GetCatalogCount g then of_option Thrown (m_catalogs g !! Z.to_nat (u32 index))
  else Fault Thrown.

(** ** The file format

    The writer of the aggregation file is not part of the module; these are the
    bytes the reader above is meant for. *)

Definition file_bytes (f : FileInfo) : list byte :=
  b64 (u64 (fi_file f)) ++ b64 (fi_offset f) ++ b64 (u64 (fi_size f)).

Definition section_bytes {A} (enc : A -> list byte) (l : list A) : list byte :=
  b32 (len l) ++ mjoin (enc <$> l).

Definition bundle_entry_bytes (e : BundleEntry) : list byte :=
  b32 (be_hash e) ++ b32 (be_ebxCount e) ++ b32 (be_resCount e) ++ b32 (be_chunkCount e) ++
  section_bytes file_bytes (be_files e).

Definition offset_bytes (kv : Z * Z) : list byte := b32 kv.1 ++ b32 kv.2.

Definition vanilla_ebx_bytes (x : list byte * VanillaEbxEntry) : list byte :=
  x.1 ++ [Byte.x00] ++ b64 (ebx_originalSize (ve_entry x.2)) ++ file_bytes (ve_file x.2) ++
  section_bytes offset_bytes (ve_bundleFileOffsets x.2).

Definition vanilla_res_bytes (x : list byte * VanillaResEntry) : list byte :=
  let e := vr_entry x.2 in
  x.1 ++ [Byte.x00] ++ b64 (res_originalSize e) ++ b64 (res_resType e) ++ res_resMeta e ++
  b64 (res_resRid e) ++ file_bytes (vr_file x.2) ++
  section_bytes offset_bytes (vr_bundleFileOffsets x.2).

Definition vanilla_chunk_bytes (x : list byte * VanillaChunkEntry) : list byte :=
  let e := vc_entry x.2 in
  x.1 ++ [Byte.x00] ++ file_bytes (vc_file x.2) ++
  b64 (chunk_logicalOffset e) ++ b64 (chunk_logicalSize e) ++ b64 0 ++
  b32 (u32 (vc_h32 x.2)) ++ b64 (u64 (vc_firstMip x.2)) ++
  section_bytes offset_bytes (vc_bundleFileOffsets x.2).

Record aggregation := mkAggregation {
  ag_catalogs : list (list byte);
  ag_bundles : list BundleEntry;
  ag_ebx : list (list byte * VanillaEbxEntry);
  ag_res : list (list byte * VanillaResEntry);
  ag_chunks : list (list byte * VanillaChunkEntry);
}.

Definition aggregation_bytes (a : aggregation) : list byte :=
  b32 0x77778888 ++
  section_bytes (fun s => s ++ [Byte.x00]) (ag_catalogs a) ++
  section_bytes bundle_entry_bytes (ag_bundles a) ++
  section_bytes vanilla_ebx_bytes (ag_ebx a) ++
  section_bytes vanilla_res_bytes (ag_res a) ++
  section_bytes vanilla_chunk_bytes (ag_chunks a).

(** What the fields of a record can hold. *)
Definition file_wf (f : FileInfo) : Prop :=
  is_i32 (fi_file f) /\ is_u32 (fi_offset f) /\ is_i64 (fi_size f).
Definition file_ref_wf (f : FileInfo) : Prop :=
  is_i32 (fi_file f) /\ is_u32 (fi_offset f) /\ is_u32 (fi_size f).
Definition offsets_wf (m : omap Z Z) : Prop :=
  omap_wf m /\ Forall (fun kv => is_u32 kv.1 /\ is_u32 kv.2) m.
Definition bundle_entry_wf (e : BundleEntry) : Prop :=
  is_u32 (be_hash e) /\ is_u32 (be_ebxCount e) /\ is_u32 (be_resCount e) /\ is_u32 (be_chunkCount e) /\
  len (be_files e) < 2 ^ 31 /\ Forall file_wf (be_files e).
Definition vanilla_ebx_wf (x : list byte * VanillaEbxEntry) : Prop :=
  (Byte.x00 ∉ x.1) /\ ebx_name (ve_entry x.2) = x.1 /\ is_u32 (ebx_originalSize (ve_entry x.2)) /\
  file_ref_wf (ve_file x.2) /\ offsets_wf (ve_bundleFileOffsets x.2).
Definition vanilla_res_wf (x : list byte * VanillaResEntry) : Prop :=
  let e := vr_entry x.2 in
  (Byte.x00 ∉ x.1) /\ res_name e = x.1 /\ is_u32 (res_originalSize e) /\ is_u32 (res_resType e) /\
  length (res_resMeta e) = 16%nat /\ is_u64 (res_resRid e) /\
  file_ref_wf (vr_file x.2) /\ offsets_wf (vr_bundleFileOffsets x.2).
Definition vanilla_chunk_wf (x : list byte * VanillaChunkEntry) : Prop :=
  let e := vc_entry x.2 in
  (Byte.x00 ∉ x.1) /\ Guid_FromString x.1 = chunk_guid e /\ is_u32 (chunk_logicalOffset e) /\
  is_u32 (chunk_logicalSize e) /\ is_i32 (vc_h32 x.2) /\ is_i32 (vc_firstMip x.2) /\
  file_ref_wf (vc_file x.2) /\ offsets_wf (vc_bundleFileOffsets x.2).

Record aggregation_wf (a : aggregation) : Prop := {
  ag_wf_catalogs : Forall (fun s => Byte.x00 ∉ s) (ag_catalogs a);
  ag_wf_bundles : Forall bundle_entry_wf (ag_bundles a);
  ag_wf_ebx : Forall vanilla_ebx_wf (ag_ebx a);
  ag_wf_res : Forall vanilla_res_wf (ag_res a);
  ag_wf_chunks : Forall vanilla_chunk_wf (ag_chunks a);
  ag_wf_size : fits (aggregation_bytes a);
}.

(** ** [LoadVanillaEntries] reads that format *)

Lemma insert_all_sorted {K V} `{KeyOrderOk K} (l m : omap K V) :
  omap_wf (m ++ l) -> insert_all l m = m ++ l.
Proof.
  revert m. induction l as [|[k v] l IH]; intros m Hwf; [by rewrite app_nil_r|].
  unfold insert_all in *. cbn [foldl fst snd]. rewrite omap_insert_snoc.
  - rewrite IH; by rewrite <- app_assoc.
  - intros k' v' Hin. apply (omap_wf_app_inv _ _ (k', v') (k, v) Hwf Hin). by left.
Qed.

Section parsing.
Context (D : list byte) (w : Z) (HD : fits D).

Lemma mjoin_length_ge {A} (enc : A -> list byte) l :
  (forall x, 1 <= length (enc x))%nat -> (length l <= length (mjoin (enc <$> l)))%nat.
Proof.
  intros He. induction l as [|x l IH]; [cbn; lia|].
  change (mjoin (enc <$> x :: l)) with (enc x ++ mjoin (enc <$> l)).
  rewrite length_app. cbn [length]. specialize (He x). lia.
Qed.

(** The count of a section is right because the section is in the buffer. *)
Lemma parses_counted {A B} (rd : Rd A) (out : B -> A) (enc : B -> list byte) l (f : Z -> nat) :
  (forall x, 1 <= length (enc x))%nat -> (f (len l) = length l) ->
  (forall x, x ∈ l -> parses D w rd (enc x) (out x)) ->
  parses D w (n ← readU32; Rd_repeat (f n) rd) (section_bytes enc l) (out <$> l).
Proof.
  intros He Hf Hrd pre rest Hpre.
  assert (Hl : is_u32 (len l)).
  { pose proof (mjoin_length_ge enc l He). rewrite Hpre in HD. unfold section_bytes in HD.
    unfold urange. unfold fits in HD. rewrite !length_app in HD. lia. }
  refine (parses_bind D w readU32 _ _ _ _ _ (parses_readU32 D w _ HD Hl) _ pre rest Hpre).
  rewrite Hf. by apply parses_repeat.
Qed.

Lemma parses_section {A} (rd : Rd A) (enc : A -> list byte) l :
  (forall x, 1 <= length (enc x))%nat -> (forall x, x ∈ l -> parses D w rd (enc x) x) ->
  parses D w (read_section rd) (section_bytes enc l) l.
Proof.
  intros He Hrd. rewrite <- (list_fmap_id l) at 2.
  apply (parses_counted rd id enc l Z.to_nat He); [apply Nat2Z.id|done].
Qed.

Lemma u64_range z : is_u64 (u64 z).
Proof. by apply uwrap_range. Qed.

Lemma u32_u64 z : is_u32 z -> is_u64 z.
Proof. unfold urange. lia. Qed.

Local Hint Resolve u64_range u32_u64 : core.

(** Reading one field and going on, or reading the last one. *)
Ltac word := by first [apply parses_readU32 | apply parses_readU64]; auto.
Ltac field := eapply parses_bind; [word|].
Ltac last_field := eapply parses_map_eq; [word|].

Lemma parses_file_info f : file_wf f -> parses D w read_file_info (file_bytes f) f.
Proof.
  intros (Hf & Ho & Hs). unfold read_file_info, file_bytes. field. field. last_field.
  destruct f; cbn in *. by rewrite !swrap_uwrap_le, uwrap_small by (done || lia).
Qed.

Lemma parses_file_ref f : file_ref_wf f -> parses D w read_file_ref (file_bytes f) f.
Proof.
  intros (Hf & Ho & Hs). unfold read_file_ref, file_bytes. field. field. last_field.
  destruct f; cbn in *. rewrite !uwrap_uwrap_le, swrap_uwrap by (done || lia).
  by rewrite !uwrap_small.
Qed.

Lemma parses_bundle_entry e : bundle_entry_wf e -> parses D w read_bundle_entry (bundle_entry_bytes e) e.
Proof.
  intros (Hh & He & Hr & Hc & Hn & Hf). unfold read_bundle_entry, bundle_entry_bytes, section_bytes.
  do 4 field. eapply parses_bind; [apply parses_readU32; [done|unfold urange; lia]|].
  rewrite swrap_small by (lia || (unfold srange; lia)).
  destruct (Z.ltb_spec (len (be_files e)) 0); [lia|]. rewrite Nat2Z.id.
  eapply parses_map_eq; [apply parses_repeat_id|by destruct e].
  intros x Hx. rewrite list.Forall_forall in Hf. by apply parses_file_info, Hf.
Qed.

Lemma parses_bundle_offset kv :
  is_u32 kv.1 /\ is_u32 kv.2 -> parses D w read_bundle_offset (offset_bytes kv) kv.
Proof. intros [Hk Hv]. unfold read_bundle_offset, offset_bytes. field. last_field. by destruct kv. Qed.

Lemma offset_bytes_length kv : (1 <= length (offset_bytes kv))%nat.
Proof. unfold offset_bytes. rewrite length_app, b32_length. lia. Qed.

Lemma read_bundle_offsets_section b :
  read_bundle_offsets b = (l ← read_section read_bundle_offset; mret (insert_all l [])) b.
Proof.
  unfold read_bundle_offsets, read_section, mbind, Rd_bind. by destruct (readU32 b) as [[n b']|].
Qed.

Lemma parses_bundle_offsets m : offsets_wf m -> parses D w read_bundle_offsets (section_bytes offset_bytes m) m.
Proof.
  intros [Hm Hall] pre rest Hpre. rewrite list.Forall_forall in Hall. rewrite read_bundle_offsets_section.
  revert pre rest Hpre. fold (parses D w (l ← read_section read_bundle_offset; mret (insert_all l [])) (section_bytes offset_bytes m) m).
  eapply parses_map_eq; [apply parses_section; [apply offset_bytes_length|]|by apply (insert_all_sorted m [])].
  intros kv Hkv. by apply parses_bundle_offset, Hall.
Qed.

Lemma name_nonempty s (l : list byte) : (1 <= length (s ++ [Byte.x00] ++ l))%nat.
Proof. rewrite !length_app. cbn. lia. Qed.

Ltac name_field := rewrite ?(app_assoc _ [Byte.x00]); eapply parses_bind; [by apply parses_string|].

Lemma parses_vanilla_ebx x : vanilla_ebx_wf x -> parses D w read_vanilla_ebx (vanilla_ebx_bytes x) x.
Proof.
  intros (Hn & Hname & Hs & Hf & Ho). unfold read_vanilla_ebx, vanilla_ebx_bytes.
  name_field. field. eapply parses_bind; [by apply parses_file_ref|].
  eapply parses_map_eq; [by apply parses_bundle_offsets|].
  destruct x as [n [[] f o]]; cbn in *. rewrite uwrap_small by done. by subst.
Qed.

Lemma parses_vanilla_res x : vanilla_res_wf x -> parses D w read_vanilla_res (vanilla_res_bytes x) x.
Proof.
  intros (Hn & Hname & Hs & Ht & Hm & Hrid & Hf & Ho). unfold read_vanilla_res, vanilla_res_bytes.
  name_field. do 2 field. eapply parses_bind; [rewrite <- Hm; by apply parses_getBytes|].
  field. eapply parses_bind; [by apply parses_file_ref|].
  eapply parses_map_eq; [by apply parses_bundle_offsets|].
  destruct x as [n [[] f o]]; cbn in *. rewrite !uwrap_small by done. by subst.
Qed.

Lemma parses_vanilla_chunk x : vanilla_chunk_wf x -> parses D w read_vanilla_chunk (vanilla_chunk_bytes x) x.
Proof.
  intros (Hn & Hname & Hlo & Hls & Hh & Hm & Hf & Ho). unfold read_vanilla_chunk, vanilla_chunk_bytes.
  name_field. eapply parses_bind; [by apply parses_file_ref|]. do 2 field.
  eapply parses_bind; [by apply parses_readU64|].
  eapply parses_bind; [apply parses_readU32; [done|by apply uwrap_range]|]. field.
  eapply parses_map_eq; [by apply parses_bundle_offsets|].
  destruct x as [n [[] f h fm o]]; cbn in *.
  rewrite swrap_uwrap, swrap_uwrap_le, !uwrap_small by (done || lia). by subst.
Qed.
End parsing.

(** The state after loading an aggregation into an empty merger. *)
Definition aggregation_merger (a : aggregation) : BundleMerger :=
  mkMerger (ag_catalogs a) (foldl (fun m e => <[be_hash e := e]> m) ∅ (ag_bundles a))
    (insert_all (ag_ebx a) []) (insert_all (ag_res a) []) (insert_all (ag_chunks a) []).

(** C10: A well-formed aggregation file is read to its end: every catalogue, bundle,
    ebx, resource and chunk record is in the merger with all its fields. *)
Theorem LoadVanillaEntries_format a :
  aggregation_wf a ->
  LoadVanillaEntries (Some (aggregation_bytes a)) BundleMerger_empty = Ok (aggregation_merger a).
Proof.
  intros [Hc Hb He Hr Hk HD]. unfold LoadVanillaEntries.
  rewrite list.Forall_forall in Hc. rewrite list.Forall_forall in Hb. rewrite list.Forall_forall in He.
  rewrite list.Forall_forall in Hr. rewrite list.Forall_forall in Hk.
  enough (Hp : parses (aggregation_bytes a) (len (aggregation_bytes a)) (load_aggregation BundleMerger_empty)
                 (aggregation_bytes a) (aggregation_merger a)).
  { specialize (Hp [] [] (eq_sym (app_nil_r _))). change (len (@nil byte)) with 0 in Hp. by rewrite Hp. }
  unfold load_aggregation, aggregation_bytes at 3.
  eapply parses_bind; [by apply parses_readU32|].
  change (negb (0x77778888 =? 0x77778888)) with false. cbn iota.
  eapply parses_bind.
  { apply parses_section; [done|intros; rewrite length_app; cbn; lia|].
    intros s Hs. by apply parses_string, Hc. }
  eapply parses_bind.
  { apply parses_section; [done|intros; unfold bundle_entry_bytes; rewrite length_app, b32_length; lia|].
    intros. by apply parses_bundle_entry, Hb. }
  eapply parses_bind.
  { apply parses_section; [done|intros; apply name_nonempty|]. intros. by apply parses_vanilla_ebx, He. }
  eapply parses_bind.
  { apply parses_section; [done|intros; apply name_nonempty|]. intros. by apply parses_vanilla_res, Hr. }
  eapply parses_map_eq.
  { apply parses_section; [done|intros; apply name_nonempty|]. intros. by apply parses_vanilla_chunk, Hk. }
  done.
Qed.

Definition sample_file : FileInfo := mkFile 4097 65536 1024.

Definition sample_aggregation : aggregation :=
  mkAggregation [bstr "win32/installation/default"; bstr "win32/superbundle"]
    [mkBundle 77 1 1 1 [sample_file; mkFile (-2) 0 10; sample_file; sample_file]]
    [(bstr "levels/kashyyyk", mkVEbx (mkEbx (bstr "levels/kashyyyk") 900) sample_file [(77, 1)])]
    [(bstr "weapons/e11", mkVRes (mkRes (bstr "weapons/e11") 4 5 (replicate 16 Byte.x09) 123456789012)
                            sample_file [(77, 2)])]
    [(bstr "01020304-0506-0708-090a-0b0c0d0e0f10",
      mkVChunk (mkChunk (byte.of_Z <$> [4; 3; 2; 1; 6; 5; 8; 7; 9; 10; 11; 12; 13; 14; 15; 16]) 0 64)
        sample_file (-5) (-1) [(77, 3)])].

Lemma sample_aggregation_wf : aggregation_wf sample_aggregation.
Proof.
  split; try (repeat constructor; try done; first [by apply (bool_decide_unpack _); vm_compute | done]).
  all: repeat constructor; try done; try (unfold srange; lia); try (apply (bool_decide_unpack _); vm_compute; exact I).
Qed.

Lemma LoadVanillaEntries_format_witness :
  LoadVanillaEntries (Some (aggregation_bytes sample_aggregation)) BundleMerger_empty
    = Ok (aggregation_merger sample_aggregation).
Proof. exact (LoadVanillaEntries_format sample_aggregation sample_aggregation_wf). Defined.
