(* ===== verification/LayoutManifest.v ===== *)
(** [LayoutManifest] (Source/ModLoader/ManifestMerger.cpp): where the files of
    every bundle, and every chunk, lie in the game's archives.

    The files of a bundle are a list with one head entry followed by its ebx,
    its resources and its chunks; how many there are of each is kept by the
    bundle merger.  [AddFileToBundle] keeps the two in step: that is
    [AddFileToBundle_refines].  [Save] writes the layout the game reads back
    with fixed array sizes; [Load] is that reader. *)

From S2P Require Import Prelude OrdMap ByteBuffer StringUtils Guid DbObject Endian BundleManifest BundleMerger.

Inductive AssetType := Ebx | Res | Chunk.

Record BundleInfo := mkBundleInfo {
  bi_hash : Z;
  bi_files : list FileInfo;
  bi_unk1 : Z;
  bi_unk2 : Z;
}.

Record ChunkInfo := mkChunkInfo {
  ci_guid : Guid;
  ci_fileIndex : Z;
  ci_file : FileInfo;
}.

Record LayoutManifest := mkLayout {
  m_fileInfo : list FileInfo;
  m_bundleInfo : omap Z BundleInfo;
  m_chunkGuids : omap Guid ChunkInfo;
  lm_auditLog : omap Z (list (list byte));
}.

Definition LayoutManifest_new : LayoutManifest := mkLayout [] [] [] [].

Definition set_bundleInfo (b : omap Z BundleInfo) (m : LayoutManifest) : LayoutManifest :=
  mkLayout (m_fileInfo m) b (m_chunkGuids m) (lm_auditLog m).
Definition set_chunkGuids (c : omap Guid ChunkInfo) (m : LayoutManifest) : LayoutManifest :=
  mkLayout (m_fileInfo m) (m_bundleInfo m) c (lm_auditLog m).

(** ** The game's layout

    [NativeLayoutManifest] is a packed struct of three counts and three arrays;
    the array sizes, which fix where the arrays start, are a parameter. *)

Record NativeDims := mkDims { nd_files : Z; nd_bundles : Z; nd_chunks : Z }.
Definition native_dims : NativeDims := mkDims 1097786 4777 180913.

Definition native_at (n : nat) (data : list byte) (i : Z) : result Z :=
  if (0 <=? i) && (i + Z.of_nat n <=? len data) then Ok (le_combine (slice (Z.to_nat i) n data))
  else Fault Undefined.

Definition native_bytes (n : nat) (data : list byte) (i : Z) : result (list byte) :=
  if (0 <=? i) && (i + Z.of_nat n <=? len data) then Ok (slice (Z.to_nat i) n data)
  else Fault Undefined.

Definition files_start : Z := 12.
Definition bundles_start (d : NativeDims) : Z := files_start + 16 * nd_files d.
Definition chunks_start (d : NativeDims) : Z := bundles_start d + 20 * nd_bundles d.

Section native.
Context (d : NativeDims) (data : list byte).

Definition native_file (i : nat) : result FileInfo :=
  let at_ := files_start + 16 * Z.of_nat i in
  if Z.of_nat i <? nd_files d then
    file ← native_at 4 data at_; offset ← native_at 4 data (at_ + 4); size ← native_at 8 data (at_ + 8);
    Ok (mkFile (i32 file) offset (i64 size))
  else Fault Undefined.

(** [hash], [startIndex] and [count]. *)
Definition native_bundle (i : nat) : result (Z * Z * Z) :=
  let at_ := bundles_start d + 20 * Z.of_nat i in
  if Z.of_nat i <? nd_bundles d then
    hash ← native_at 4 data at_; start ← native_at 4 data (at_ + 4); count ← native_at 4 data (at_ + 8);
    Ok (hash, i32 start, i32 count)
  else Fault Undefined.

Definition native_chunk (i : nat) : result (Guid * Z) :=
  let at_ := chunks_start d + 20 * Z.of_nat i in
  if Z.of_nat i <? nd_chunks d then
    guid ← native_bytes 16 data at_; index ← native_at 4 data (at_ + 16);
    Ok (guid, i32 index)
  else Fault Undefined.

(** ** [LayoutManifest::Load]

    The files of a bundle are not taken from the layout but from the vanilla
    bundle of the same hash; [operator[]] adds an empty one if there is none. *)
Definition load_bundle (st : gmap Z BundleEntry * omap Z BundleInfo) (i : nat)
    : result (gmap Z BundleEntry * omap Z BundleInfo) :=
  '(hash, _, _) ← native_bundle i;
  let vanilla := default BundleEntry_default (st.1 !! hash) in
  Ok (<[hash := vanilla]> st.1, omap_insert hash (mkBundleInfo hash (be_files vanilla) 0 0) st.2).

Definition load_layout_chunk (files : list FileInfo) (c : omap Guid ChunkInfo) (i : nat)
    : result (omap Guid ChunkInfo) :=
  '(guid, index) ← native_chunk i;
  file ← of_option Undefined (if index <? 0 then None else files !! Z.to_nat index);
  Ok (omap_insert guid (mkChunkInfo guid index file) c).

Definition load_native (entries : gmap Z BundleEntry) (m : LayoutManifest)
    : result (gmap Z BundleEntry * LayoutManifest) :=
  fileCount ← native_at 4 data 0;
  bundleCount ← native_at 4 data 4;
  chunksCount ← native_at 4 data 8;
  files ← mapM native_file (seq 0 (Z.to_nat fileCount));
  let fileInfo := m_fileInfo m ++ files in
  '(entries, bundles) ← foldM load_bundle (entries, m_bundleInfo m) (seq 0 (Z.to_nat bundleCount));
  chunks ← foldM (load_layout_chunk fileInfo) (m_chunkGuids m) (seq 0 (Z.to_nat chunksCount));
  Ok (entries, mkLayout fileInfo bundles chunks (lm_auditLog m)).
End native.

Definition LayoutManifest_Load (data : list byte) := load_native native_dims data.

Definition GetCatalogIndex (value : Z) : Z := Z.shiftr value 12 - 1.

(** ** [LayoutManifest::Save] *)

(** The files in the order they are written, and where each bundle's start;
    the index map is keyed by [int32_t]. *)
Definition collect_bundle (st : list FileInfo * omap Z Z) (kv : Z * BundleInfo) : list FileInfo * omap Z Z :=
  (st.1 ++ bi_files kv.2, omap_insert (i32 kv.1) (u32 (len st.1)) st.2).

Definition collect_chunk (st : list FileInfo * list ChunkInfo) (c : ChunkInfo) : list FileInfo * list ChunkInfo :=
  let files := st.1 ++ [ci_file c] in
  (files, st.2 ++ [mkChunkInfo (ci_guid c) (i32 (len files - 1)) (ci_file c)]).

Definition put32 (v : Z) : ByteBuffer -> ByteBuffer := bb_putInt (u32 v).

Definition save_file (buf : ByteBuffer) (f : FileInfo) : ByteBuffer :=
  bb_putLong (u64 (fi_size f)) (put32 (fi_offset f) (put32 (fi_file f) buf)).

Definition save_bundle (fileIndices : omap Z Z) (buf : ByteBuffer) (kv : Z * BundleInfo) : result ByteBuffer :=
  let buf := put32 kv.1 buf in
  match omap_find (i32 kv.1) fileIndices with
  | None => (* logs the first file of the bundle *)
    match bi_files kv.2 with [] => Fault Undefined | _ => Ok buf end
  | Some index => Ok (put32 0 (put32 0 (put32 (len (bi_files kv.2)) (put32 index buf))))
  end.

Definition save_layout_chunk (buf : ByteBuffer) (c : ChunkInfo) : ByteBuffer :=
  put32 (ci_fileIndex c) (bb_putBytes (Guid_ToFrostyLE (ci_guid c)) buf).

Definition LayoutManifest_Save (m : LayoutManifest) : result (list byte) :=
  let chunkInfo := snd <$> m_chunkGuids m in
  let '(files, fileIndices) := foldl collect_bundle ([], []) (m_bundleInfo m) in
  let '(files, chunkInfo) := foldl collect_chunk (files, []) chunkInfo in
  let buf := put32 (len chunkInfo) (put32 (len (m_bundleInfo m)) (put32 (len files) bb_empty)) in
  let buf := foldl save_file buf files in
  buf ← foldM (save_bundle fileIndices) buf (m_bundleInfo m);
  Ok (bb_buf (foldl save_layout_chunk buf chunkInfo)).

(** ** Changing the layout *)

Definition vanilla_limits (e : BundleEntry) : bool :=
  (be_ebxCount e <=? 200000) && (be_resCount e <=? 2000000) && (be_chunkCount e <=? 2000000).

(** [vector::insert] at an iterator past the end is undefined. *)
Definition vector_insert {A} (i : Z) (x : A) (l : list A) : result (list A) :=
  if i <=? len l then Ok (take (Z.to_nat i) l ++ x :: drop (Z.to_nat i) l) else Fault Undefined.

(** The offset of the new file and the counts after it. *)
Definition file_slot (t : AssetType) (e : BundleEntry) : Z * BundleEntry :=
  let offset := 1 + be_ebxCount e in
  match t with
  | Ebx => (offset, mkBundle (be_hash e) (u32 (be_ebxCount e + 1)) (be_resCount e) (be_chunkCount e) (be_files e))
  | Res => (offset + be_resCount e,
            mkBundle (be_hash e) (be_ebxCount e) (u32 (be_resCount e + 1)) (be_chunkCount e) (be_files e))
  | Chunk => (offset + be_resCount e + be_chunkCount e,
              mkBundle (be_hash e) (be_ebxCount e) (be_resCount e) (u32 (be_chunkCount e + 1)) (be_files e))
  end.

(** The state a merge works on: the layout and the merger's bundle entries. *)
Record LayoutState := mkState { ls_entries : gmap Z BundleEntry; ls_layout : LayoutManifest }.

Definition AddFileToBundle (addedBundles : gset Z) (bundleHash : Z) (fileInfo : FileInfo) (assetType : AssetType)
    (st : LayoutState) : result LayoutState :=
  let m := ls_layout st in
  match omap_find bundleHash (m_bundleInfo m) with
  | None => Ok st
  | Some bundleInfo =>
    if negb (bi_hash bundleInfo =? bundleHash) then Ok st else
    let customBundle := bool_decide (bundleHash ∈ addedBundles) in
    let vanilla := default BundleEntry_default (ls_entries st !! bi_hash bundleInfo) in
    let st := mkState (<[bi_hash bundleInfo := vanilla]> (ls_entries st)) m in
    if negb customBundle && negb (be_hash vanilla =? bi_hash bundleInfo) then Ok st else
    if negb customBundle && negb (vanilla_limits vanilla) then Ok st else
    let '(offset, vanilla) := file_slot assetType vanilla in
    files ← vector_insert offset fileInfo (bi_files bundleInfo);
    Ok (mkState (<[bi_hash bundleInfo := vanilla]> (ls_entries st))
          (set_bundleInfo (omap_insert bundleHash
             (mkBundleInfo (bi_hash bundleInfo) files (bi_unk1 bundleInfo) (bi_unk2 bundleInfo))
             (m_bundleInfo m)) m))
  end.

(** [files[index] = fileInfo] *)
Definition SetFileInfo (bundleHash index : Z) (fileInfo : FileInfo) (m : LayoutManifest) : result LayoutManifest :=
  match omap_find bundleHash (m_bundleInfo m) with
  | None => Ok m
  | Some b =>
    if (0 <=? index) && (index <? len (bi_files b)) then
      Ok (set_bundleInfo (omap_insert bundleHash
            (mkBundleInfo (bi_hash b) (<[Z.to_nat index := fileInfo]> (bi_files b)) (bi_unk1 b) (bi_unk2 b))
            (m_bundleInfo m)) m)
    else Fault Undefined
  end.

Definition GetChunk (guid : Guid) (m : LayoutManifest) : option FileInfo :=
  ci_file <$> omap_find guid (m_chunkGuids m).

(** A write through the pointer [GetChunk] returns. *)
Definition SetChunk (guid : Guid) (f : FileInfo) (m : LayoutManifest) : LayoutManifest :=
  match omap_find guid (m_chunkGuids m) with
  | None => m
  | Some c => set_chunkGuids (omap_insert guid (mkChunkInfo (ci_guid c) (ci_fileIndex c) f) (m_chunkGuids m)) m
  end.

Definition AddChunk (guid : Guid) (f : FileInfo) (m : LayoutManifest) : LayoutManifest :=
  set_chunkGuids (omap_insert guid (mkChunkInfo guid 0 f) (m_chunkGuids m)) m.

(** A new bundle starts with the head entry of the first one. *)
Definition AddBundle (hash : Z) (m : LayoutManifest) : result LayoutManifest :=
  if omap_count hash (m_bundleInfo m) then Ok m else
  match m_bundleInfo m with
  | [] => Fault Undefined
  | (_, first) :: _ =>
    match bi_files first with
    | [] => Fault Undefined
    | head :: _ => Ok (set_bundleInfo (omap_insert hash (mkBundleInfo hash [head] 0 0) (m_bundleInfo m)) m)
    end
  end.

Definition LayoutPushAudit (bundleHash : Z) (log : list byte) (m : LayoutManifest) : LayoutManifest :=
  mkLayout (m_fileInfo m) (m_bundleInfo m) (m_chunkGuids m)
    (omap_insert (i32 bundleHash) (default [] (omap_find (i32 bundleHash) (lm_auditLog m)) ++ [log]) (lm_auditLog m)).

(** ** The layout of a bundle

    The abstract bundle: its head entry and the three regions. *)

Record regions := mkRegions { rg_head : FileInfo; rg_ebx : list FileInfo; rg_res : list FileInfo; rg_chunks : list FileInfo }.

Definition regions_files (r : regions) : list FileInfo := rg_head r :: rg_ebx r ++ rg_res r ++ rg_chunks r.

Definition regions_add (t : AssetType) (f : FileInfo) (r : regions) : regions :=
  match t with
  | Ebx => mkRegions (rg_head r) (rg_ebx r ++ [f]) (rg_res r) (rg_chunks r)
  | Res => mkRegions (rg_head r) (rg_ebx r) (rg_res r ++ [f]) (rg_chunks r)
  | Chunk => mkRegions (rg_head r) (rg_ebx r) (rg_res r) (rg_chunks r ++ [f])
  end.

(** The counts of the merger's entry are the lengths of the regions. *)
Record aligned (e : BundleEntry) (files : list FileInfo) (r : regions) : Prop := {
  al_files : files = regions_files r;
  al_ebx : be_ebxCount e = len (rg_ebx r);
  al_res : be_resCount e = len (rg_res r);
  al_chunks : be_chunkCount e = len (rg_chunks r);
}.

Definition entry_of (st : LayoutState) (h : Z) : BundleEntry := default BundleEntry_default (ls_entries st !! h).

Definition kMaxFiles : Z := 2 ^ 32 - 1.

(** A bundle is accepted when it was added by a mod, or when it is the game's
    and within the sanity limits. *)
Definition accepts (added : gset Z) (h : Z) (e : BundleEntry) : bool :=
  bool_decide (h ∈ added) || ((be_hash e =? h) && vanilla_limits e).

(** Every bundle of the layout is aligned, or is one the merger does not accept
    files for. *)
Record layout_ok (added : gset Z) (st : LayoutState) : Prop := {
  lo_wf : omap_wf (m_bundleInfo (ls_layout st));
  lo_bundles : forall h b, omap_find h (m_bundleInfo (ls_layout st)) = Some b ->
    bi_hash b = h /\
    ((exists r, aligned (entry_of st h) (bi_files b) r) \/ accepts added h (entry_of st h) = false);
}.

Lemma vector_insert_app {A} (x : A) l1 l2 i :
  i = len l1 -> vector_insert i x (l1 ++ l2) = Ok (l1 ++ x :: l2).
Proof.
  intros ->. unfold vector_insert. rewrite Nat2Z.id, take_app_length, drop_app_length.
  destruct (Z.leb_spec (len l1) (len (l1 ++ l2))) as [|Hc]; [done|rewrite length_app in Hc; lia].
Qed.

(** Inserting at the slot of a type appends to its region. *)
Lemma file_slot_insert t f e files r :
  aligned e files r -> len files < kMaxFiles ->
  exists files', vector_insert (file_slot t e).1 f files = Ok files' /\
    aligned (file_slot t e).2 files' (regions_add t f r) /\ be_hash (file_slot t e).2 = be_hash e.
Proof.
  intros [-> He Hr Hc] Hlen. unfold kMaxFiles in Hlen. destruct r as [hd ebx res chunks].
  unfold regions_files in *. cbn [rg_head rg_ebx rg_res rg_chunks] in *.
  cbn [length] in Hlen. rewrite !length_app in Hlen.
  exists (regions_files (regions_add t f (mkRegions hd ebx res chunks))).
  split; [|split; [|by destruct t]].
  - destruct t; unfold file_slot, regions_add, regions_files; cbn [fst rg_head rg_ebx rg_res rg_chunks].
    + rewrite <- app_assoc. apply (vector_insert_app f (hd :: ebx) (res ++ chunks)). cbn [length]. lia.
    + rewrite <- app_assoc. rewrite !(app_assoc ebx).
      apply (vector_insert_app f (hd :: ebx ++ res) chunks). cbn [length]. rewrite length_app. lia.
    + rewrite !(app_assoc ebx), !(app_assoc (ebx ++ res)).
      pose proof (vector_insert_app f (hd :: (ebx ++ res) ++ chunks) [] (1 + be_ebxCount e + be_resCount e + be_chunkCount e)) as Hv.
      rewrite app_nil_r in Hv. apply Hv. cbn [length]. rewrite !length_app. lia.
  - split; [done|destruct t; cbn; rewrite ?length_app; cbn [length]..];
      rewrite ?uwrap_small by (unfold urange; lia); lia.
Qed.

Lemma AddFileToBundle_accepted added h f t st b r :
  omap_find h (m_bundleInfo (ls_layout st)) = Some b -> bi_hash b = h ->
  aligned (entry_of st h) (bi_files b) r -> len (bi_files b) < kMaxFiles ->
  accepts added h (entry_of st h) = true ->
  exists files',
    AddFileToBundle added h f t st =
      Ok (mkState (<[h := (file_slot t (entry_of st h)).2]> (<[h := entry_of st h]> (ls_entries st)))
            (set_bundleInfo (omap_insert h (mkBundleInfo h files' (bi_unk1 b) (bi_unk2 b))
               (m_bundleInfo (ls_layout st))) (ls_layout st))) /\
    aligned (file_slot t (entry_of st h)).2 files' (regions_add t f r).
Proof.
  intros Hfind Hh Hal Hlen Hacc.
  destruct (file_slot_insert t f _ _ _ Hal Hlen) as (files' & Hins & Hal' & _).
  exists files'. split; [|done]. unfold AddFileToBundle. rewrite Hfind, Hh, Z.eqb_refl. cbn [negb].
  fold (entry_of st h). unfold accepts in Hacc.
  destruct (bool_decide (h ∈ added)); cbn [negb andb orb] in *.
  - destruct (file_slot t (entry_of st h)) as [o v]. cbn [fst snd] in *. by rewrite Hins.
  - apply andb_true_iff in Hacc as [-> ->]. cbn [negb].
    destruct (file_slot t (entry_of st h)) as [o v]. cbn [fst snd] in *. by rewrite Hins.
Qed.

Lemma AddFileToBundle_rejected added h f t st b :
  omap_find h (m_bundleInfo (ls_layout st)) = Some b -> bi_hash b = h ->
  accepts added h (entry_of st h) = false ->
  AddFileToBundle added h f t st = Ok (mkState (<[h := entry_of st h]> (ls_entries st)) (ls_layout st)).
Proof.
  intros Hfind Hh Hacc. unfold AddFileToBundle. rewrite Hfind, Hh, Z.eqb_refl. cbn [negb].
  fold (entry_of st h). unfold accepts in Hacc.
  destruct (bool_decide (h ∈ added)); cbn [negb andb orb] in *; [done|].
  destruct (be_hash (entry_of st h) =? h); cbn [negb andb] in *; [|done]. by rewrite Hacc.
Qed.

(** C4: [AddFileToBundle] on an aligned bundle that it accepts appends the file to
    its region, keeps the counts the lengths of the regions and touches no
    other bundle. *)
Theorem AddFileToBundle_refines added h f t st b r :
  omap_find h (m_bundleInfo (ls_layout st)) = Some b -> bi_hash b = h ->
  aligned (entry_of st h) (bi_files b) r -> len (bi_files b) < kMaxFiles ->
  accepts added h (entry_of st h) = true ->
  exists st' b', AddFileToBundle added h f t st = Ok st' /\
    omap_find h (m_bundleInfo (ls_layout st')) = Some b' /\ bi_hash b' = h /\
    aligned (entry_of st' h) (bi_files b') (regions_add t f r) /\
    m_chunkGuids (ls_layout st') = m_chunkGuids (ls_layout st) /\
    (forall h', h' <> h -> omap_find h' (m_bundleInfo (ls_layout st')) = omap_find h' (m_bundleInfo (ls_layout st)) /\
       entry_of st' h' = entry_of st h').
Proof.
  intros Hfind Hh Hal Hlen Hacc.
  destruct (AddFileToBundle_accepted added h f t st b r) as (files' & Hadd & Hal'); [done..|].
  eexists _, _. split; [exact Hadd|]. cbn [ls_layout ls_entries set_bundleInfo m_bundleInfo m_chunkGuids].
  split; [apply omap_find_insert_eq|]. split; [done|]. split; [|split; [done|]].
  - unfold entry_of. cbn [ls_entries]. by rewrite lookup_insert_eq.
  - intros h' Hne. split; [by apply omap_find_insert_ne|].
    unfold entry_of. cbn [ls_entries]. by rewrite !lookup_insert_ne.
Qed.

(** C9: The alignment of all bundles is an invariant: no operation of the layout
    breaks it, and [AddFileToBundle] never inserts out of range. *)
Theorem AddFileToBundle_layout_ok added h f t st :
  layout_ok added st ->
  (forall b, omap_find h (m_bundleInfo (ls_layout st)) = Some b -> len (bi_files b) < kMaxFiles) ->
  exists st', AddFileToBundle added h f t st = Ok st' /\ layout_ok added st'.
Proof.
  intros [Hwf Hb] Hlen.
  destruct (omap_find h (m_bundleInfo (ls_layout st))) as [b|] eqn:Hfind.
  2: { exists st. unfold AddFileToBundle. by rewrite Hfind. }
  destruct (Hb h b Hfind) as (Hh & Hal).
  destruct (accepts added h (entry_of st h)) eqn:Hacc.
  - destruct Hal as [[r Hal]|]; [|done].
    destruct (AddFileToBundle_accepted added h f t st b r) as (files' & Hadd & Hal'); [by auto..|].
    eexists. split; [exact Hadd|]. split; cbn [ls_layout ls_entries set_bundleInfo m_bundleInfo].
    + by apply omap_insert_wf.
    + intros h' b'. rewrite omap_find_insert. destruct (decide (h = h')) as [<-|Hne].
      * rewrite key_compare_refl. intros [= <-]. split; [done|]. left. eexists.
        unfold entry_of. cbn [ls_entries]. by rewrite lookup_insert_eq.
      * destruct (key_compare h h') eqn:E; [by apply key_compare_eq in E|..];
          (intros Hf; unfold entry_of; cbn [ls_entries]; rewrite !lookup_insert_ne by done; by apply Hb).
  - rewrite (AddFileToBundle_rejected added h f t st b) by done. eexists. split; [done|].
    split; [done|]. cbn [ls_layout]. intros h' b' Hf.
    enough (entry_of (mkState (<[h:=entry_of st h]> (ls_entries st)) (ls_layout st)) h' = entry_of st h') as -> by by apply Hb.
    unfold entry_of. cbn [ls_entries].
    destruct (decide (h = h')) as [<-|]; [by rewrite lookup_insert_eq|by rewrite lookup_insert_ne].
Qed.

(** A new bundle is aligned: it has a head and three empty regions. *)
Theorem AddBundle_layout_ok added h st k first f0 fs rest :
  layout_ok added st -> ls_entries st !! h = None ->
  m_bundleInfo (ls_layout st) = (k, first) :: rest -> bi_files first = f0 :: fs ->
  exists m', AddBundle h (ls_layout st) = Ok m' /\ layout_ok added (mkState (ls_entries st) m') /\
    is_Some (omap_find h (m_bundleInfo m')).
Proof.
  intros [Hwf Hb] Hnew Hne Hfirst. unfold AddBundle, omap_count.
  destruct (bool_decide_reflect (is_Some (omap_find h (m_bundleInfo (ls_layout st))))) as [Hs|Hs].
  { exists (ls_layout st). by destruct st. }
  rewrite Hne, Hfirst, <- Hne. eexists. split; [done|].
  cbn [ls_layout ls_entries set_bundleInfo m_bundleInfo]. split; [|rewrite omap_find_insert_eq; by eexists].
  split; cbn [ls_layout ls_entries set_bundleInfo m_bundleInfo]; [by apply omap_insert_wf|].
  intros h' b'. rewrite omap_find_insert. destruct (key_compare h h') eqn:Ec; [|by apply Hb..].
  apply key_compare_eq in Ec as <-. intros [= <-]. split; [done|]. left.
  exists (mkRegions f0 [] [] []). unfold entry_of. cbn [ls_entries]. by rewrite Hnew.
Qed.

(** ** What [Save] writes *)

Definition file_rec (f : FileInfo) : list byte :=
  le_split 4 (u32 (fi_file f)) ++ le_split 4 (u32 (fi_offset f)) ++ le_split 8 (u64 (fi_size f)).
Definition bundle_rec (x : Z * Z * Z) : list byte :=
  let '(hash, start, count) := x in
  le_split 4 (u32 hash) ++ le_split 4 (u32 start) ++ le_split 4 (u32 count) ++ le_split 4 0 ++ le_split 4 0.
Definition chunk_rec (c : ChunkInfo) : list byte := ci_guid c ++ le_split 4 (u32 (ci_fileIndex c)).

Definition bundle_files (l : omap Z BundleInfo) : list FileInfo := mjoin ((fun kv => bi_files kv.2) <$> l).
Definition layout_files (m : LayoutManifest) : list FileInfo :=
  bundle_files (m_bundleInfo m) ++ ((fun kv => ci_file kv.2) <$> m_chunkGuids m).

(** The records of the bundles, the first of which starts at [start]. *)
Fixpoint bundle_recs (start : Z) (l : omap Z BundleInfo) : list (Z * Z * Z) :=
  match l with
  | [] => []
  | (h, b) :: l' => (h, start, len (bi_files b)) :: bundle_recs (start + len (bi_files b)) l'
  end.

Fixpoint chunk_recs (index : Z) (l : list ChunkInfo) : list ChunkInfo :=
  match l with
  | [] => []
  | c :: l' => mkChunkInfo (ci_guid c) index (ci_file c) :: chunk_recs (index + 1) l'
  end.

Definition layout_bytes (m : LayoutManifest) : list byte :=
  (le_split 4 (len (layout_files m)) ++ le_split 4 (len (m_bundleInfo m)) ++ le_split 4 (len (m_chunkGuids m))) ++
  mjoin (file_rec <$> layout_files m) ++
  mjoin (bundle_rec <$> bundle_recs 0 (m_bundleInfo m)) ++
  mjoin (chunk_rec <$> chunk_recs (len (bundle_files (m_bundleInfo m))) (snd <$> m_chunkGuids m)).

Record layout_wf (m : LayoutManifest) : Prop := {
  lw_bundles : omap_wf (m_bundleInfo m);
  lw_hashes : Forall (fun kv => is_u32 kv.1) (m_bundleInfo m);
  lw_files : Forall file_wf (layout_files m);
  lw_guids : Forall (fun kv => guid_wf kv.1 /\ ci_guid kv.2 = kv.1) (m_chunkGuids m);
  lw_size : small (layout_bytes m);
}.

Lemma file_rec_length f : length (file_rec f) = 16%nat.
Proof. unfold file_rec. by rewrite !length_app, !length_le_split. Qed.
Lemma bundle_rec_length x : length (bundle_rec x) = 20%nat.
Proof. destruct x as [[h s] c]. unfold bundle_rec. by rewrite !length_app, !length_le_split. Qed.

Lemma bundle_recs_length start l : length (bundle_recs start l) = length l.
Proof. revert start. induction l as [|[h b] l IH]; intros start; cbn; auto. Qed.
Lemma chunk_recs_length i l : length (chunk_recs i l) = length l.
Proof. revert i. induction l as [|c l IH]; intros i; cbn; auto. Qed.

Lemma records_length {A} (enc : A -> list byte) k l :
  (forall x, x ∈ l -> length (enc x) = k) -> length (mjoin (enc <$> l)) = (k * length l)%nat.
Proof.
  induction l as [|x l IH]; intros Hk; [cbn; lia|].
  change (mjoin (enc <$> x :: l)) with (enc x ++ mjoin (enc <$> l)).
  rewrite length_app, Hk, IH by (intros; first [by left | apply Hk; by right]). cbn. lia.
Qed.

Lemma put32_wr v l : fits (l ++ le_split 4 (u32 v)) -> put32 v (wr l) = wr (l ++ le_split 4 (u32 v)).
Proof. apply bb_append_wr. Qed.

Lemma save_file_wr l f : fits (l ++ file_rec f) -> save_file (wr l) f = wr (l ++ file_rec f).
Proof.
  unfold save_file, file_rec. rewrite !app_assoc. intros Hf.
  rewrite put32_wr by (by do 2 eapply fits_app_l). rewrite put32_wr by (by eapply fits_app_l).
  by apply bb_append_wr.
Qed.

Lemma save_layout_chunk_wr l c :
  fits (l ++ chunk_rec c) -> save_layout_chunk (wr l) c = wr (l ++ chunk_rec c).
Proof.
  unfold save_layout_chunk, chunk_rec, Guid_ToFrostyLE. rewrite app_assoc. intros Hf.
  rewrite bb_putBytes_wr by (by eapply fits_app_l). by apply put32_wr.
Qed.

(** *** Where the bundles start *)

Lemma collect_bundle_files l st :
  (foldl collect_bundle st l).1 = st.1 ++ bundle_files l.
Proof.
  revert st. induction l as [|kv l IH]; intros st; cbn [foldl]; [by rewrite app_nil_r|].
  rewrite IH. unfold collect_bundle. cbn [fst].
  change (bundle_files (kv :: l)) with (bi_files kv.2 ++ bundle_files l). by rewrite app_assoc.
Qed.

Lemma i32_inj a b : is_u32 a -> is_u32 b -> i32 a = i32 b -> a = b.
Proof.
  intros Ha Hb H. apply (f_equal u32) in H. rewrite !uwrap_swrap, !uwrap_small in H by (done || lia). done.
Qed.

Lemma collect_bundle_other l st k :
  is_u32 k -> Forall (fun kv => is_u32 kv.1) l -> k ∉ omap_keys l ->
  omap_find (i32 k) (foldl collect_bundle st l).2 = omap_find (i32 k) st.2.
Proof.
  intros Hk Hl. revert st. induction Hl as [|kv l Hkv Hl IH]; intros st Hni; [done|].
  cbn [foldl]. unfold omap_keys in *. rewrite fmap_cons in Hni. apply not_elem_of_cons in Hni as [Hne Hni].
  rewrite IH by done. cbn [collect_bundle snd]. rewrite omap_find_insert_ne; [done|].
  intros E. apply i32_inj in E; [congruence|done..].
Qed.

Lemma collect_bundle_index l1 h b l2 st :
  is_u32 h -> Forall (fun kv => is_u32 kv.1) (l1 ++ (h, b) :: l2) -> NoDup (omap_keys (l1 ++ (h, b) :: l2)) ->
  omap_find (i32 h) (foldl collect_bundle st (l1 ++ (h, b) :: l2)).2 = Some (u32 (len (st.1 ++ bundle_files l1))).
Proof.
  intros Hh Hl Hnd. rewrite foldl_app. cbn [foldl].
  unfold omap_keys in Hnd. rewrite fmap_app in Hnd. apply list.NoDup_app in Hnd as (_ & _ & Hnd).
  apply list.NoDup_cons in Hnd as [Hni _]. apply Forall_app in Hl as [_ Hl]. apply list.Forall_cons in Hl as [_ Hl].
  rewrite collect_bundle_other by done. cbn [collect_bundle fst snd].
  by rewrite omap_find_insert_eq, collect_bundle_files.
Qed.

Lemma collect_chunk_all l st :
  len st.1 + len l < 2 ^ 31 ->
  foldl collect_chunk st l = (st.1 ++ (ci_file <$> l), st.2 ++ chunk_recs (len st.1) l).
Proof.
  revert st. induction l as [|c l IH]; intros [files cs] Hb; cbn [foldl fst snd] in *.
  - by rewrite !app_nil_r.
  - cbn [length] in Hb. rewrite IH; unfold collect_chunk; cbn [fst snd]; [|rewrite length_app; cbn [length]; lia].
    rewrite length_app. cbn [length chunk_recs fmap list_fmap].
    rewrite swrap_small by (lia || (unfold srange; lia)).
    rewrite <- !app_assoc. cbn [app].
    by replace (Z.of_nat (length files + 1) - 1) with (len files) by lia;
       replace (Z.of_nat (length files + 1)) with (len files + 1) by lia.
Qed.

Lemma save_bundles_wr idx l start pre :
  (forall l1 h b l2, l = l1 ++ (h, b) :: l2 ->
     omap_find (i32 h) idx = Some (u32 (start + len (bundle_files l1)))) ->
  fits (pre ++ mjoin (bundle_rec <$> bundle_recs start l)) ->
  foldM (save_bundle idx) (wr pre) l = Ok (wr (pre ++ mjoin (bundle_rec <$> bundle_recs start l))).
Proof.
  revert start pre. induction l as [|[h b] l IH]; intros start pre Hidx Hf; [cbn; by rewrite app_nil_r|].
  change (bundle_recs start ((h, b) :: l))
    with ((h, start, len (bi_files b)) :: bundle_recs (start + len (bi_files b)) l) in *.
  set (r := (h, start, len (bi_files b))) in *.
  change (mjoin (bundle_rec <$> r :: ?k)) with (bundle_rec r ++ mjoin (bundle_rec <$> k)) in *.
  rewrite app_assoc in *. assert (Hf1 := fits_app_l _ _ Hf).
  cbn [foldM]. unfold save_bundle at 1. cbn [fst snd].
  rewrite (Hidx [] h b l) by done. cbn [bundle_files fmap list_fmap mjoin list_join length Z.of_nat].
  rewrite Z.add_0_r.
  assert (Hput : put32 0 (put32 0 (put32 (len (bi_files b)) (put32 (u32 start) (put32 h (wr pre))))) = wr (pre ++ bundle_rec r)).
  { unfold r, bundle_rec in *. rewrite !app_assoc in *.
    rewrite put32_wr by (by do 4 eapply fits_app_l).
    assert (E : u32 (u32 start) = u32 start) by (apply uwrap_uwrap_le; lia).
    rewrite put32_wr by (rewrite E; by do 3 eapply fits_app_l). rewrite E.
    rewrite put32_wr by (by do 2 eapply fits_app_l). rewrite put32_wr by (by eapply fits_app_l).
    by rewrite put32_wr. }
  rewrite Hput. apply IH; [|done].
  intros l1 h' b' l2 ->. rewrite (Hidx ((h, b) :: l1) h' b' l2) by done.
  change (bundle_files ((h, b) :: l1)) with (bi_files b ++ bundle_files l1). rewrite length_app. do 2 f_equal. lia.
Qed.

Lemma chunk_recs_guids k l : Forall (fun c => guid_wf (ci_guid c)) l -> Forall (fun c => guid_wf (ci_guid c)) (chunk_recs k l).
Proof. intros Hl. revert k. induction Hl as [|c l Hc _ IH]; intros k; cbn; by constructor. Qed.

Lemma layout_chunk_guids m : layout_wf m -> Forall (fun c => guid_wf (ci_guid c)) (snd <$> m_chunkGuids m).
Proof.
  intros [_ _ _ Hg _]. apply Forall_fmap. eapply list.Forall_impl; [exact Hg|].
  intros kv [Hk He]. cbn. by rewrite He.
Qed.

Lemma chunk_rec_length c : guid_wf (ci_guid c) -> length (chunk_rec c) = 20%nat.
Proof. unfold guid_wf, chunk_rec. intros H. rewrite length_app, length_le_split. lia. Qed.

Lemma layout_sizes m :
  layout_wf m ->
  12 + 16 * len (layout_files m) + 20 * len (m_bundleInfo m) + 20 * len (m_chunkGuids m) = len (layout_bytes m) /\
  length (layout_files m) = (length (bundle_files (m_bundleInfo m)) + length (m_chunkGuids m))%nat.
Proof.
  intros Hwf. split; [|unfold layout_files; by rewrite length_app, length_fmap].
  unfold layout_bytes. rewrite !length_app, !length_le_split.
  rewrite (records_length file_rec 16), (records_length bundle_rec 20), (records_length chunk_rec 20).
  - rewrite bundle_recs_length, chunk_recs_length, length_fmap. lia.
  - intros c Hc. apply chunk_rec_length. revert c Hc. apply list.Forall_forall.
    by apply chunk_recs_guids, layout_chunk_guids.
  - intros x _. apply bundle_rec_length.
  - intros x _. apply file_rec_length.
Qed.

Lemma LayoutManifest_Save_bytes m : layout_wf m -> LayoutManifest_Save m = Ok (layout_bytes m).
Proof.
  intros Hwf. destruct (layout_sizes m Hwf) as [Hsz Hlen]. pose proof Hwf as [Hb Hh Hf Hg Hs].
  unfold small in Hs. unfold LayoutManifest_Save.
  destruct (foldl collect_bundle ([], []) (m_bundleInfo m)) as [files idx] eqn:E.
  assert (Hfiles : files = bundle_files (m_bundleInfo m)).
  { pose proof (collect_bundle_files (m_bundleInfo m) ([], [])) as H. by rewrite E in H. }
  assert (Hidx : forall l1 h b l2, m_bundleInfo m = l1 ++ (h, b) :: l2 ->
    omap_find (i32 h) idx = Some (u32 (0 + len (bundle_files l1)))).
  { intros l1 h b l2 Hl. rewrite Hl in Hh, Hb, E.
    pose proof (collect_bundle_index l1 h b l2 ([], [])) as H. rewrite E in H. apply H; [|done|].
    - rewrite list.Forall_forall in Hh. apply (Hh (h, b)). apply elem_of_app. right. by left.
    - by apply omap_wf_NoDup_keys. }
  rewrite collect_chunk_all by (cbn [fst]; rewrite Hfiles, length_fmap; lia). cbn [fst snd app].
  rewrite Hfiles, <- list_fmap_compose.
  change (bundle_files (m_bundleInfo m) ++ ((ci_file ∘ snd) <$> m_chunkGuids m)) with (layout_files m).
  rewrite chunk_recs_length, length_fmap. change bb_empty with (wr []).
  do 3 (rewrite put32_wr by (unfold fits; rewrite ?length_app, !length_le_split; cbn; lia)).
  rewrite !uwrap_small by (unfold urange; lia). cbn [app]. rewrite <- app_assoc.
  set (hd := le_split 4 (len (layout_files m)) ++ _).
  assert (Hall : fits (layout_bytes m)) by (unfold fits; lia). unfold layout_bytes in Hall. fold hd in Hall.
  rewrite !app_assoc in Hall. assert (H2 := fits_app_l _ _ Hall). assert (H1 := fits_app_l _ _ H2).
  rewrite (foldl_wr_all save_file file_rec (fun _ => True)); [|intros; by apply save_file_wr|by apply list.Forall_true|done].
  rewrite (save_bundles_wr idx _ 0) by done. cbn [mbind result_bind].
  rewrite (foldl_wr_all save_layout_chunk chunk_rec (fun _ => True)); [|intros; by apply save_layout_chunk_wr|by apply list.Forall_true|done].
  cbn [bb_buf wr]. unfold layout_bytes. fold hd. by rewrite <- !app_assoc.
Qed.

(** ** The game reads it back *)

Lemma native_bytes_mid pre bs rest n i :
  i = len pre -> length bs = n -> native_bytes n (pre ++ bs ++ rest) i = Ok bs.
Proof.
  intros -> <-. unfold native_bytes. rewrite Nat2Z.id, slice_app.
  destruct (Z.leb_spec 0 (len pre)); [|lia].
  destruct (Z.leb_spec (len pre + len bs) (len (pre ++ bs ++ rest))) as [|Hc]; [done|].
  rewrite !length_app in Hc. lia.
Qed.

Lemma native_at_mid pre bs rest n i :
  i = len pre -> length bs = n -> native_at n (pre ++ bs ++ rest) i = Ok (le_combine bs).
Proof.
  intros Hi Hn. pose proof (native_bytes_mid pre bs rest n i Hi Hn) as H.
  unfold native_bytes, native_at in *. destruct (_ && _); [|done]. by injection H as ->.
Qed.

(** The [i]-th record of a section of records of one length. *)
Lemma record_split {A} (enc : A -> list byte) k l i x :
  (forall y, y ∈ l -> length (enc y) = k) -> l !! i = Some x ->
  exists P R, mjoin (enc <$> l) = P ++ enc x ++ R /\ length P = (k * i)%nat.
Proof.
  intros Hk Hi. apply list_elem_of_split_length in Hi as (l1 & l2 & -> & ->).
  exists (mjoin (enc <$> l1)), (mjoin (enc <$> l2)). rewrite fmap_app, join_app. split; [done|].
  apply records_length. intros y Hy. apply Hk, elem_of_app. by left.
Qed.

Definition dims_of (m : LayoutManifest) : NativeDims :=
  mkDims (len (layout_files m)) (len (m_bundleInfo m)) (len (m_chunkGuids m)).

(** A layout in the game's structure: the records of [m] at the start of the
    three arrays, each followed by slots that are not used. *)
Definition native_layout (m : LayoutManifest) (p1 p2 p3 : list byte) : list byte :=
  (le_split 4 (len (layout_files m)) ++ le_split 4 (len (m_bundleInfo m)) ++ le_split 4 (len (m_chunkGuids m))) ++
  (mjoin (file_rec <$> layout_files m) ++ p1) ++
  (mjoin (bundle_rec <$> bundle_recs 0 (m_bundleInfo m)) ++ p2) ++
  mjoin (chunk_rec <$> chunk_recs (len (bundle_files (m_bundleInfo m))) (snd <$> m_chunkGuids m)) ++ p3.

(** The unused slots fill the arrays up to their sizes. *)
Record fills (d : NativeDims) (m : LayoutManifest) (p1 p2 : list byte) : Prop := {
  fl_files : 16 * len (layout_files m) + len p1 = 16 * nd_files d;
  fl_bundles : 20 * len (m_bundleInfo m) + len p2 = 20 * nd_bundles d;
  fl_chunks : len (m_chunkGuids m) <= nd_chunks d;
}.

Lemma native_layout_full m : native_layout m [] [] [] = layout_bytes m.
Proof. unfold native_layout. by rewrite !app_nil_r. Qed.

Lemma fills_dims_of m : fills (dims_of m) m [] [].
Proof. split; cbn; lia. Qed.

Section readback.
Context (d : NativeDims) (m : LayoutManifest) (p1 p2 p3 : list byte).
Context (Hwf : layout_wf m) (Hfill : fills d m p1 p2).
Let data := native_layout m p1 p2 p3.

Lemma native_file_saved i f : layout_files m !! i = Some f -> native_file d data i = Ok f.
Proof.
  intros Hi. pose proof (lookup_lt_Some _ _ _ Hi) as Hlt.
  destruct (record_split file_rec 16 _ i f (fun y _ => file_rec_length y) Hi) as (P & R & HPR & HP).
  pose proof (fl_files _ _ _ _ Hfill) as Hf1.
  unfold native_file. destruct (Z.ltb_spec (Z.of_nat i) (nd_files d)); [|lia].
  unfold data, native_layout. rewrite HPR. set (hd := le_split 4 (len (layout_files m)) ++ _).
  assert (Hhd : length hd = 12%nat) by (unfold hd; by rewrite !length_app, !length_le_split).
  unfold file_rec. rewrite <- !app_assoc.
  set (b1 := le_split 4 (u32 (fi_file f))). set (b2 := le_split 4 (u32 (fi_offset f))).
  set (b3 := le_split 8 (u64 (fi_size f))).
  assert (Hat : files_start + 16 * Z.of_nat i = len (hd ++ P)) by (rewrite length_app, Hhd, HP; unfold files_start; lia).
  assert (Hl1 : length b1 = 4%nat) by apply length_le_split. assert (Hl2 : length b2 = 4%nat) by apply length_le_split.
  rewrite Hat, (app_assoc hd P). set (p0 := hd ++ P).
  assert (Hp1 : len p0 + 4 = len (p0 ++ b1)) by (rewrite length_app; lia).
  assert (Hp2 : len p0 + 8 = len ((p0 ++ b1) ++ b2)) by (rewrite !length_app; lia).
  rewrite Hp1, Hp2. rewrite (native_at_mid p0 b1 _ 4 _ eq_refl Hl1). cbn [mbind result_bind].
  rewrite (app_assoc p0), (native_at_mid (p0 ++ b1) b2 _ 4 _ eq_refl Hl2). cbn [mbind result_bind].
  rewrite (app_assoc (p0 ++ b1)), (native_at_mid ((p0 ++ b1) ++ b2) b3 _ 8 _ eq_refl) by apply length_le_split.
  cbn [mbind result_bind]. pose proof (lw_files m Hwf) as Hf. rewrite list.Forall_forall in Hf.
  destruct (Hf f) as (H1 & H2 & H3); [by eapply list_elem_of_lookup_2|].
  unfold b1, b2, b3. rewrite !le_combine_split_u. change (Z.of_nat 4 * 8) with 32. change (Z.of_nat 8 * 8) with 64.
  destruct f as [a b c]. cbn in *.
  by rewrite !uwrap_uwrap_le, !swrap_uwrap, uwrap_small by (done || lia).
Qed.
Lemma bundle_recs_lookup start l i h b :
  l !! i = Some (h, b) ->
  bundle_recs start l !! i = Some (h, start + len (bundle_files (take i l)), len (bi_files b)).
Proof.
  revert start i. induction l as [|[h' b'] l IH]; intros start i; [done|].
  destruct i as [|i]; cbn [lookup list_lookup take bundle_recs].
  - intros [= -> ->]. cbn. by rewrite Z.add_0_r.
  - intros Hi. rewrite IH by done.
    change (bundle_files ((h', b') :: take i l)) with (bi_files b' ++ bundle_files (take i l)).
    rewrite length_app. do 3 f_equal. lia.
Qed.

Lemma chunk_recs_lookup k l i c :
  l !! i = Some c -> chunk_recs k l !! i = Some (mkChunkInfo (ci_guid c) (k + Z.of_nat i) (ci_file c)).
Proof.
  revert k i. induction l as [|c' l IH]; intros k i; [done|].
  destruct i as [|i]; cbn [lookup list_lookup chunk_recs].
  - intros [= ->]. by rewrite Z.add_0_r.
  - intros Hi. rewrite IH by done. do 2 f_equal. lia.
Qed.

Lemma bundle_files_take i l kv : l !! i = Some kv ->
  bundle_files l = bundle_files (take i l) ++ bi_files kv.2 ++ bundle_files (drop (S i) l).
Proof.
  intros Hi. rewrite <- (take_drop_middle l i kv Hi) at 1. unfold bundle_files.
  by rewrite fmap_app, join_app.
Qed.

Lemma native_bundle_saved i h b :
  m_bundleInfo m !! i = Some (h, b) ->
  native_bundle d data i = Ok (h, len (bundle_files (take i (m_bundleInfo m))), len (bi_files b)).
Proof.
  intros Hi. pose proof (lookup_lt_Some _ _ _ Hi) as Hlt. destruct (layout_sizes m Hwf) as [Hsz Hlen].
  pose proof (lw_size m Hwf) as Hs. unfold small in Hs.
  pose proof (bundle_recs_lookup 0 _ _ _ _ Hi) as Hrec. rewrite Z.add_0_l in Hrec.
  destruct (record_split bundle_rec 20 _ i _ (fun y _ => bundle_rec_length y) Hrec) as (P & R & HPR & HP).
  destruct Hfill as [Hf1 Hf2 _].
  unfold native_bundle. destruct (Z.ltb_spec (Z.of_nat i) (nd_bundles d)); [|lia].
  unfold data, native_layout. rewrite HPR.
  set (hd := le_split 4 (len (layout_files m)) ++ _). set (fs := mjoin (file_rec <$> layout_files m)).
  set (start := len (bundle_files _)). set (count := len (bi_files b)).
  assert (Hh : is_u32 h).
  { pose proof (lw_hashes m Hwf) as Hh. rewrite list.Forall_forall in Hh. apply (Hh (h, b)).
    by eapply list_elem_of_lookup_2. }
  assert (Hsc : 0 <= start /\ 0 <= count /\ start + count < 2 ^ 31).
  { subst start count. pose proof (bundle_files_take i _ _ Hi) as Hbf. cbn [snd] in Hbf.
    apply (f_equal length) in Hbf. rewrite !length_app in Hbf. lia. }
  unfold bundle_rec. rewrite <- !app_assoc.
  set (b1 := le_split 4 (u32 h)). set (b2 := le_split 4 (u32 start)). set (b3 := le_split 4 (u32 count)).
  assert (Hl1 : length b1 = 4%nat) by apply length_le_split. assert (Hl2 : length b2 = 4%nat) by apply length_le_split.
  assert (Hl3 : length b3 = 4%nat) by apply length_le_split.
  rewrite (app_assoc hd), (app_assoc (hd ++ fs) p1), (app_assoc ((hd ++ fs) ++ p1) P).
  set (p0 := ((hd ++ fs) ++ p1) ++ P).
  assert (Hat : bundles_start d + 20 * Z.of_nat i = len p0).
  { unfold p0, hd, fs. rewrite !length_app, !length_le_split, HP.
    rewrite (records_length file_rec 16) by (intros; apply file_rec_length).
    unfold bundles_start, files_start. lia. }
  rewrite Hat.
  assert (Hp1 : len p0 + 4 = len (p0 ++ b1)) by (rewrite length_app; lia).
  assert (Hp2 : len p0 + 8 = len ((p0 ++ b1) ++ b2)) by (rewrite !length_app; lia).
  rewrite Hp1, Hp2. rewrite (native_at_mid p0 b1 _ 4 _ eq_refl Hl1). cbn [mbind result_bind].
  rewrite (app_assoc p0), (native_at_mid (p0 ++ b1) b2 _ 4 _ eq_refl Hl2). cbn [mbind result_bind].
  rewrite (app_assoc (p0 ++ b1)), (native_at_mid ((p0 ++ b1) ++ b2) b3 _ 4 _ eq_refl Hl3). cbn [mbind result_bind].
  unfold b1, b2, b3. rewrite !le_combine_split_u. change (Z.of_nat 4 * 8) with 32.
  rewrite !uwrap_uwrap_le, (uwrap_small 32 h), !swrap_uwrap by (done || lia || (unfold srange; lia)). done.
Qed.

Lemma native_chunk_saved i guid c :
  m_chunkGuids m !! i = Some (guid, c) ->
  native_chunk d data i = Ok (guid, len (bundle_files (m_bundleInfo m)) + Z.of_nat i).
Proof.
  intros Hi. pose proof (lookup_lt_Some _ _ _ Hi) as Hlt. destruct (layout_sizes m Hwf) as [Hsz Hlen].
  pose proof (lw_size m Hwf) as Hs. unfold small in Hs.
  pose proof (lw_guids m Hwf) as Hg. rewrite list.Forall_forall in Hg.
  destruct (Hg (guid, c)) as [Hguid Hgc]; [by eapply list_elem_of_lookup_2|]. cbn in Hguid, Hgc.
  assert (Hi' : (snd <$> m_chunkGuids m) !! i = Some c) by (apply list_lookup_fmap_Some; exists (guid, c); by split).
  set (base := len (bundle_files (m_bundleInfo m))) in *.
  pose proof (chunk_recs_lookup base _ _ _ Hi') as Hrec.
  assert (Hrl : forall y, y ∈ chunk_recs base (snd <$> m_chunkGuids m) -> length (chunk_rec y) = 20%nat).
  { intros y Hy. apply chunk_rec_length. revert y Hy. apply list.Forall_forall.
    by apply chunk_recs_guids, layout_chunk_guids. }
  destruct (record_split chunk_rec 20 _ i _ Hrl Hrec) as (P & R & HPR & HP).
  destruct Hfill as [Hf1 Hf2 Hf3].
  unfold native_chunk. destruct (Z.ltb_spec (Z.of_nat i) (nd_chunks d)); [|lia].
  unfold data, native_layout. fold base. rewrite HPR.
  set (hd := le_split 4 (len (layout_files m)) ++ _). set (fs := mjoin (file_rec <$> layout_files m)).
  set (bs := mjoin (bundle_rec <$> _)).
  unfold chunk_rec. cbn [ci_guid ci_fileIndex]. rewrite Hgc, <- !app_assoc.
  set (b1 := le_split 4 (u32 (base + Z.of_nat i))).
  assert (Hl1 : length b1 = 4%nat) by apply length_le_split.
  rewrite (app_assoc hd), (app_assoc (hd ++ fs) p1), (app_assoc ((hd ++ fs) ++ p1) bs),
    (app_assoc (((hd ++ fs) ++ p1) ++ bs) p2), (app_assoc ((((hd ++ fs) ++ p1) ++ bs) ++ p2) P).
  set (p0 := ((((hd ++ fs) ++ p1) ++ bs) ++ p2) ++ P).
  assert (Hat : chunks_start d + 20 * Z.of_nat i = len p0).
  { unfold p0, hd, fs, bs. rewrite !length_app, !length_le_split, HP.
    rewrite (records_length file_rec 16) by (intros; apply file_rec_length).
    rewrite (records_length bundle_rec 20) by (intros; apply bundle_rec_length). rewrite bundle_recs_length.
    unfold chunks_start, bundles_start, files_start. lia. }
  rewrite Hat. assert (Hp1 : len p0 + 16 = len (p0 ++ guid)) by (unfold guid_wf in Hguid; rewrite length_app; lia).
  rewrite Hp1, (native_bytes_mid p0 guid _ 16 _ eq_refl Hguid). cbn [mbind result_bind].
  rewrite (app_assoc p0), (native_at_mid (p0 ++ guid) b1 _ 4 _ eq_refl Hl1). cbn [mbind result_bind].
  unfold b1. rewrite le_combine_split_u. change (Z.of_nat 4 * 8) with 32.
  rewrite uwrap_uwrap_le, swrap_uwrap by (lia || (unfold srange; lia)). done.
Qed.

Lemma native_counts :
  native_at 4 data 0 = Ok (len (layout_files m)) /\
  native_at 4 data 4 = Ok (len (m_bundleInfo m)) /\
  native_at 4 data 8 = Ok (len (m_chunkGuids m)).
Proof.
  destruct (layout_sizes m Hwf) as [Hsz _]. pose proof (lw_size m Hwf) as Hs. unfold small in Hs.
  unfold data, native_layout. rewrite <- !app_assoc.
  set (b1 := le_split 4 (len (layout_files m))). set (b2 := le_split 4 (len (m_bundleInfo m))).
  set (b3 := le_split 4 (len (m_chunkGuids m))).
  assert (Hl : length b1 = 4%nat /\ length b2 = 4%nat /\ length b3 = 4%nat) by (split_and!; apply length_le_split).
  destruct Hl as (H1 & H2 & H3).
  split_and!.
  - rewrite <- (app_nil_l (b1 ++ _)), (native_at_mid [] b1 _ 4 0) by done.
    unfold b1. rewrite le_combine_split_small; [done|unfold urange; lia].
  - rewrite (native_at_mid b1 b2 _ 4 4) by (done || lia).
    unfold b2. rewrite le_combine_split_small; [done|unfold urange; lia].
  - rewrite (app_assoc b1), (native_at_mid (b1 ++ b2) b3 _ 4 8) by (rewrite ?length_app; done || lia).
    unfold b3. rewrite le_combine_split_small; [done|unfold urange; lia].
Qed.

End readback.

(** The three counts at the start of a layout. *)
Definition read_dims (data : list byte) : result NativeDims :=
  files ← native_at 4 data 0; bundles ← native_at 4 data 4; chunks ← native_at 4 data 8;
  Ok (mkDims files bundles chunks).

Lemma mapM_ok {A B} (f : A -> result B) l k :
  length l = length k -> (forall i x y, l !! i = Some x -> k !! i = Some y -> f x = Ok y) -> mapM f l = Ok k.
Proof.
  revert k. induction l as [|x l IH]; intros [|y k] Hlen Hf; try done. cbn.
  rewrite (Hf 0%nat x y) by done. cbn. rewrite (IH k); [done|by injection Hlen|].
  intros i x' y' Hx Hy. by apply (Hf (S i)).
Qed.

(** C6: The saved layout holds its own counts: those at its start are the number
    of files (of the bundles, and one for each chunk), of bundles and of chunks,
    and the bytes are exactly the three arrays of these sizes after them.  Read
    with the counts it holds, the [i]-th bundle record has the bundle's hash, and
    its range of the file array is exactly its files; the [i]-th chunk record
    has the chunk's guid and the index of its file. *)
Theorem LayoutManifest_Save_readback m :
  layout_wf m ->
  exists data d, LayoutManifest_Save m = Ok data /\ read_dims data = Ok d /\
    d = mkDims (len (bundle_files (m_bundleInfo m)) + len (m_chunkGuids m)) (len (m_bundleInfo m)) (len (m_chunkGuids m)) /\
    len data = chunks_start d + 20 * nd_chunks d /\
    (forall i h b, m_bundleInfo m !! i = Some (h, b) ->
       exists start, native_bundle d data i = Ok (h, Z.of_nat start, len (bi_files b)) /\
         mapM (native_file d data) (seq start (length (bi_files b))) = Ok (bi_files b)) /\
    (forall i guid c, m_chunkGuids m !! i = Some (guid, c) ->
       exists index, native_chunk d data i = Ok (guid, Z.of_nat index) /\
         native_file d data index = Ok (ci_file c)).
Proof.
  intros Hwf. exists (layout_bytes m), (dims_of m).
  destruct (layout_sizes m Hwf) as [Hsz Hlen]. split; [by apply LayoutManifest_Save_bytes|].
  rewrite <- (native_layout_full m) at 1. unfold read_dims.
  destruct (native_counts m [] [] [] Hwf) as (-> & -> & ->). cbn [mbind result_bind].
  split; [done|]. split; [unfold dims_of; f_equal; lia|].
  split; [rewrite <- Hsz; unfold chunks_start, bundles_start, files_start; cbn; lia|].
  rewrite <- (native_layout_full m). pose proof (fills_dims_of m) as Hfill.
  split.
  - intros i h b Hi. exists (length (bundle_files (take i (m_bundleInfo m)))).
    split; [by apply native_bundle_saved|]. apply mapM_ok; [by rewrite length_seq|].
    intros j x f Hx Hf. apply lookup_seq in Hx as [-> Hj]. apply native_file_saved; [done..|].
    unfold layout_files. rewrite (bundle_files_take i _ _ Hi), <- !app_assoc.
    rewrite lookup_app_r by lia. rewrite lookup_app_l by (cbn [snd]; lia).
    cbn [snd]. rewrite <- Hf. f_equal. lia.
  - intros i guid c Hi. exists (length (bundle_files (m_bundleInfo m)) + i)%nat. split.
    + rewrite (native_chunk_saved _ m _ _ [] Hwf Hfill i guid c Hi). do 2 f_equal. lia.
    + apply native_file_saved; [done..|]. unfold layout_files. rewrite lookup_app_r by lia.
      apply list_lookup_fmap_Some. exists (guid, c). split; [done|]. rewrite <- Hi. f_equal. lia.
Qed.

(** ** [Load] *)

Lemma foldM_seq {A B} (f : A -> nat -> result A) (g : A -> B -> result A) l k a :
  (forall a i x, l !! i = Some x -> f a (k + i)%nat = g a x) ->
  foldM f a (seq k (length l)) = foldM g a l.
Proof.
  revert k a. induction l as [|x l IH]; intros k a Hf; [done|]. cbn [length seq foldM].
  rewrite <- (Nat.add_0_r k) at 1. rewrite (Hf a 0%nat x) by done. destruct (g a x) as [a'|]; [|done].
  apply IH. intros a0 i y Hy. rewrite <- (Hf a0 (S i) y) by done. f_equal. lia.
Qed.

Lemma foldM_pure {A B} (g : A -> B -> A) l a : foldM (fun a x => Ok (g a x)) a l = Ok (foldl g a l).
Proof. revert a. induction l as [|x l IH]; intros a; cbn; auto. Qed.

Definition loaded_bundle (entries : gmap Z BundleEntry) (h : Z) : BundleInfo :=
  mkBundleInfo h (be_files (default BundleEntry_default (entries !! h))) 0 0.

Definition step_bundle (st : gmap Z BundleEntry * omap Z BundleInfo) (kv : Z * BundleInfo) :=
  let vanilla := default BundleEntry_default (st.1 !! kv.1) in
  (<[kv.1 := vanilla]> st.1, omap_insert kv.1 (mkBundleInfo kv.1 (be_files vanilla) 0 0) st.2).

Lemma step_bundle_all entries l st :
  (forall h, default BundleEntry_default (st.1 !! h) = default BundleEntry_default (entries !! h)) ->
  omap_wf st.2 ->
  let st' := foldl step_bundle st l in
  (forall h, default BundleEntry_default (st'.1 !! h) = default BundleEntry_default (entries !! h)) /\
  omap_wf st'.2 /\
  (forall h b, omap_find h st'.2 = Some b -> b = loaded_bundle entries h \/ omap_find h st.2 = Some b) /\
  (forall h, h ∈ omap_keys l -> is_Some (omap_find h st'.2)) /\
  (forall h, is_Some (omap_find h st.2) -> is_Some (omap_find h st'.2)).
Proof.
  revert st. induction l as [|[k v] l IH]; intros st Hst Hwf; cbn [foldl].
  - split_and!; auto. by intros h ?%elem_of_nil.
  - destruct (IH (step_bundle st (k, v))) as (H1 & H2 & H3 & H4 & H5).
    + intros h. cbn. destruct (decide (k = h)) as [<-|]; [rewrite lookup_insert_eq; apply Hst|rewrite lookup_insert_ne by done; apply Hst].
    + cbn. by apply omap_insert_wf.
    + assert (Hkeep : forall h, is_Some (omap_find h st.2) \/ h = k -> is_Some (omap_find h (step_bundle st (k, v)).2)).
      { intros h [?| ->]; cbn; [|rewrite omap_find_insert_eq; by eexists].
        rewrite omap_find_insert. by destruct (key_compare k h). }
      split_and!; [done|done| | |auto].
      * intros h b Hf. destruct (H3 h b Hf) as [->|Hf']; [by left|]. revert Hf'. cbn.
        rewrite omap_find_insert. destruct (key_compare k h) eqn:E; [|by right..].
        intros [= <-]. apply key_compare_eq in E as <-. left. unfold loaded_bundle. by rewrite Hst.
      * unfold omap_keys in *. intros h [->|Hin]%elem_of_cons; [apply H5, Hkeep; by right|by apply H4].
Qed.

Lemma step_bundle_keys l st h :
  is_Some (omap_find h (foldl step_bundle st l).2) -> is_Some (omap_find h st.2) \/ h ∈ omap_keys l.
Proof.
  revert st. induction l as [|[k v] l IH]; intros st Hs; cbn [foldl] in *; [by left|].
  unfold omap_keys in *. rewrite fmap_cons.
  destruct (IH _ Hs) as [Hs'|]; [|right; by right]. revert Hs'. cbn. rewrite omap_find_insert.
  destruct (key_compare k h) eqn:E; [|by left..]. apply key_compare_eq in E as <-. right. by left.
Qed.

(** The chunks with the indices they were given when they were written. *)
Fixpoint reindexed (base : nat) (l : omap Guid ChunkInfo) : omap Guid ChunkInfo :=
  match l with
  | [] => []
  | (k, c) :: l' => (k, mkChunkInfo k (Z.of_nat base) (ci_file c)) :: reindexed (S base) l'
  end.

Lemma reindexed_keys base l : (reindexed base l).*1 = l.*1.
Proof. revert base. induction l as [|[k c] l IH]; intros base; [done|]. cbn. by rewrite IH. Qed.

Lemma reindexed_find base l g : ci_file <$> omap_find g (reindexed base l) = ci_file <$> omap_find g l.
Proof.
  revert base. induction l as [|[k c] l IH]; intros base; [done|].
  cbn [reindexed omap_find]. destruct (key_compare g k); [done|apply IH..].
Qed.

Lemma load_chunks_saved d m p1 p2 p3 files l acc :
  layout_wf m -> fills d m p1 p2 -> files = layout_files m ->
  (exists pre, m_chunkGuids m = pre ++ l /\ length pre = length acc) ->
  omap_wf (acc ++ l) ->
  foldM (load_layout_chunk d (native_layout m p1 p2 p3) files) acc (seq (length acc) (length l))
    = Ok (acc ++ reindexed (length (bundle_files (m_bundleInfo m)) + length acc) l).
Proof.
  intros Hwf Hfill ->. revert acc. induction l as [|[k c] l IH]; intros acc (pre & Hpre & Hlen) Hs.
  - cbn. by rewrite app_nil_r.
  - cbn [length seq foldM]. unfold load_layout_chunk at 1.
    assert (Hi : m_chunkGuids m !! length acc = Some (k, c)) by (rewrite Hpre, <- Hlen; by apply list_lookup_middle).
    rewrite (native_chunk_saved d m p1 p2 p3 Hwf Hfill _ _ _ Hi). cbn [mbind result_bind].
    set (base := length (bundle_files (m_bundleInfo m))).
    destruct (Z.ltb_spec (Z.of_nat base + Z.of_nat (length acc)) 0); [lia|].
    replace (Z.to_nat _) with (base + length acc)%nat by lia.
    assert (Hf : layout_files m !! (base + length acc)%nat = Some (ci_file c)).
    { unfold layout_files. rewrite lookup_app_r by lia. apply list_lookup_fmap_Some. exists (k, c).
      split; [done|]. rewrite <- Hi. f_equal. lia. }
    rewrite Hf. cbn [of_option mbind result_bind].
    rewrite omap_insert_snoc.
    2: { intros k' v' Hin. apply (omap_wf_app_inv _ _ (k', v') (k, c) Hs Hin). by left. }
    set (c' := mkChunkInfo k _ _).
    specialize (IH (acc ++ [(k, c')])). rewrite length_app in IH. cbn [length] in IH.
    rewrite Nat.add_1_r in IH. rewrite IH.
    + rewrite <- app_assoc. cbn [app reindexed]. rewrite Nat.add_succ_r.
      unfold c'. by rewrite Nat2Z.inj_add.
    + exists (pre ++ [(k, c)]). rewrite <- app_assoc, length_app. cbn. split; [done|lia].
    + rewrite <- app_assoc. eapply omap_wf_sorted_keys; [|exact Hs]. by rewrite !fmap_app.
Qed.

(** The vanilla entries a layout is loaded against: each is filed under its own
    hash and its counts describe its files. *)
Definition entries_ok (entries : gmap Z BundleEntry) : Prop :=
  forall h e, entries !! h = Some e -> be_hash e = h /\ exists r, aligned e (be_files e) r.

Lemma step_bundle_find entries l h b :
  omap_wf l -> omap_find h l = Some b ->
  omap_find h (foldl step_bundle (entries, []) l).2 = Some (loaded_bundle entries h).
Proof.
  intros Hwf Hf. destruct (step_bundle_all entries l (entries, [])) as (_ & _ & H3 & H4 & _); [done|constructor|].
  destruct (H4 h) as [b' Hb'].
  { apply omap_find_keys; [done|by eexists]. }
  destruct (H3 h b' Hb') as [->|?]; done.
Qed.

(** C5: [Load] reads a layout in the game's structure (its fixed array sizes, the
    slots past the counts being anything) back completely; the bytes [Save]
    writes are such a layout without unused slots.  The file array and the
    file of every chunk are the saved ones, the bundles are the saved ones and
    no others, each with the files its vanilla entry lists: the saved files
    whenever the entry lists them, as it does in the game's own layout.  The
    result satisfies the invariant of the merge. *)
Theorem LayoutManifest_Load_saved m p1 p2 p3 entries added :
  layout_wf m -> omap_wf (m_chunkGuids m) -> entries_ok entries -> fills native_dims m p1 p2 ->
  (forall h, h ∈ omap_keys (m_bundleInfo m) -> is_Some (entries !! h) \/ (h <> 0 /\ h ∉ added)) ->
  LayoutManifest_Save m = Ok (native_layout m [] [] []) /\
  exists st, LayoutManifest_Load (native_layout m p1 p2 p3) entries LayoutManifest_new = Ok st /\
    m_fileInfo st.2 = layout_files m /\
    (forall g, GetChunk g st.2 = GetChunk g m) /\
    (forall h, omap_find h (m_bundleInfo st.2) = (fun _ => loaded_bundle entries h) <$> omap_find h (m_bundleInfo m)) /\
    (forall h b, omap_find h (m_bundleInfo m) = Some b -> be_files <$> entries !! h = Some (bi_files b) ->
       bi_files <$> omap_find h (m_bundleInfo st.2) = Some (bi_files b)) /\
    layout_ok added (mkState st.1 st.2).
Proof.
  intros Hwf Hcw Hent Hfill Hadded. split; [rewrite native_layout_full; by apply LayoutManifest_Save_bytes|].
  destruct (native_counts m p1 p2 p3 Hwf) as (Hc1 & Hc2 & Hc3).
  unfold LayoutManifest_Load, load_native. rewrite Hc1, Hc2, Hc3. cbn [mbind result_bind]. rewrite !Nat2Z.id.
  rewrite (mapM_ok _ _ (layout_files m)); [|by rewrite length_seq|].
  2: { intros i x f Hx Hf. apply lookup_seq in Hx as [-> Hi]. by apply native_file_saved. }
  cbn [mbind result_bind]. change (m_fileInfo LayoutManifest_new ++ ?l) with l.
  rewrite (foldM_seq _ (fun st kv => Ok (step_bundle st kv)) (m_bundleInfo m)).
  2: { intros st i [h b] Hi. unfold load_bundle. cbn [Nat.add]. by rewrite (native_bundle_saved _ m p1 p2 p3 Hwf Hfill i h b Hi). }
  rewrite foldM_pure. cbn [mbind result_bind].
  destruct (step_bundle_all entries (m_bundleInfo m) (entries, m_bundleInfo LayoutManifest_new)) as (H1 & H2 & _);
    [done|constructor|].
  assert (Hb : forall h, omap_find h (foldl step_bundle (entries, m_bundleInfo LayoutManifest_new) (m_bundleInfo m)).2
                = (fun _ => loaded_bundle entries h) <$> omap_find h (m_bundleInfo m)).
  { intros h. destruct (omap_find h (m_bundleInfo m)) as [b|] eqn:Hf.
    - by apply (step_bundle_find entries _ h b (lw_bundles m Hwf)).
    - apply eq_None_not_Some. intros Hs. apply step_bundle_keys in Hs as [[? ?]|Hin]; [done|].
      apply omap_find_keys in Hin; [|exact (lw_bundles m Hwf)]. rewrite Hf in Hin. by destruct Hin. }
  destruct (foldl step_bundle _ _) as [entries' bundles] eqn:Efold. cbn [fst snd] in *.
  change (seq 0 (length (m_chunkGuids m))) with (seq (length (m_chunkGuids LayoutManifest_new)) (length (m_chunkGuids m))).
  rewrite (load_chunks_saved _ m p1 p2 p3 (layout_files m) (m_chunkGuids m) (m_chunkGuids LayoutManifest_new)); try done; [|by exists []].
  cbn [mbind result_bind]. eexists. split; [done|]. cbn [fst snd m_bundleInfo m_chunkGuids m_fileInfo].
  split_and!; [done|intros g; apply reindexed_find|done| |].
  - intros h b Hf He. rewrite Hb, Hf. cbn. destruct (entries !! h) as [e|]; [|done]. cbn in *. congruence.
  - split; cbn [ls_layout m_bundleInfo]; [done|]. intros h b Hf.
    rewrite Hb in Hf. apply fmap_Some in Hf as (b0 & Hf0 & ->).
    split; [done|]. unfold entry_of. cbn [ls_entries loaded_bundle bi_files]. rewrite H1.
    destruct (Hadded h) as [[e He]|[Hne Hna]].
    { apply omap_find_keys; [exact (lw_bundles m Hwf)|by eexists]. }
    + left. rewrite He. cbn. by apply (Hent h).
    + destruct (entries !! h) as [e|] eqn:He; [left; by apply (Hent h)|right].
      unfold accepts. rewrite bool_decide_eq_false_2 by done.
      change (be_hash (default BundleEntry_default None)) with 0.
      by rewrite (proj2 (Z.eqb_neq 0 h)) by done.
Qed.

(** ** Concrete inputs *)

Definition sample_entries : gmap Z BundleEntry :=
  {[ 77 := mkBundle 77 1 1 1 [sample_file; mkFile 1 0 10; mkFile 2 5 20; mkFile 3 9 30] ]}.

Definition sample_layout : LayoutManifest :=
  mkLayout []
    [(77, mkBundleInfo 77 [sample_file; mkFile 1 0 10; mkFile 2 5 20; mkFile 3 9 30] 0 0);
     (4000000000, mkBundleInfo 4000000000 [mkFile (-7) 8 9] 0 0)]
    [(replicate 16 Byte.x01, mkChunkInfo (replicate 16 Byte.x01) 0 (mkFile 5 6 7));
     (replicate 16 Byte.xff, mkChunkInfo (replicate 16 Byte.xff) 0 (mkFile 50 60 70))]
    [].

Lemma sample_layout_wf : layout_wf sample_layout.
Proof.
  split.
  - repeat constructor.
  - repeat (apply list.Forall_cons; split); unfold urange; cbn [fst]; lia || constructor.
  - unfold layout_files, bundle_files. cbn. repeat (apply list.Forall_cons; split); try constructor;
      unfold file_wf, urange, srange; cbn; lia.
  - repeat constructor.
  - vm_compute. reflexivity.
Qed.

Definition sample_state : LayoutState := mkState sample_entries sample_layout.

Lemma sample_entries_ok : entries_ok sample_entries.
Proof.
  intros h e He. unfold sample_entries in He. apply lookup_singleton_Some in He as [<- <-].
  split; [done|]. by exists (mkRegions sample_file [mkFile 1 0 10] [mkFile 2 5 20] [mkFile 3 9 30]).
Qed.

Lemma sample_state_ok : layout_ok ∅ sample_state.
Proof.
  split; [repeat constructor|]. intros h b. cbn [sample_state ls_layout sample_layout m_bundleInfo omap_find].
  destruct (key_compare h 77) eqn:E1; [|destruct (key_compare h 4000000000) eqn:E2..]; try done.
  all: intros [= <-]; apply key_compare_eq in E1 || apply key_compare_eq in E2; subst h.
  - split; [done|]. left. by exists (mkRegions sample_file [mkFile 1 0 10] [mkFile 2 5 20] [mkFile 3 9 30]).
  - by split; [|right].
  - by split; [|right].
Qed.

Lemma AddFileToBundle_refines_witness :
  exists st' b', AddFileToBundle ∅ 77 (mkFile 9 9 9) Res sample_state = Ok st' /\
    omap_find 77 (m_bundleInfo (ls_layout st')) = Some b' /\ bi_hash b' = 77 /\
    aligned (entry_of st' 77) (bi_files b')
      (regions_add Res (mkFile 9 9 9) (mkRegions sample_file [mkFile 1 0 10] [mkFile 2 5 20] [mkFile 3 9 30])) /\
    m_chunkGuids (ls_layout st') = m_chunkGuids (ls_layout sample_state) /\
    (forall h', h' <> 77 -> omap_find h' (m_bundleInfo (ls_layout st')) = omap_find h' (m_bundleInfo (ls_layout sample_state)) /\
       entry_of st' h' = entry_of sample_state h').
Proof.
  eapply (AddFileToBundle_refines ∅ 77 (mkFile 9 9 9) Res sample_state);
    [reflexivity|reflexivity|split; reflexivity|reflexivity|vm_compute; reflexivity].
Defined.

Lemma AddFileToBundle_layout_ok_witness :
  exists st', AddFileToBundle ∅ 77 (mkFile 9 9 9) Chunk sample_state = Ok st' /\ layout_ok ∅ st'.
Proof.
  apply (AddFileToBundle_layout_ok ∅ 77 (mkFile 9 9 9) Chunk sample_state sample_state_ok).
  intros b Hb. vm_compute in Hb. injection Hb as <-. reflexivity.
Defined.

Lemma AddBundle_layout_ok_witness :
  exists m', AddBundle 12 (ls_layout sample_state) = Ok m' /\ layout_ok ∅ (mkState (ls_entries sample_state) m') /\
    is_Some (omap_find 12 (m_bundleInfo m')).
Proof. by eapply (AddBundle_layout_ok ∅ 12 sample_state _ _ _ _ _ sample_state_ok). Defined.

Lemma LayoutManifest_Save_readback_witness :
  exists data d, LayoutManifest_Save sample_layout = Ok data /\ read_dims data = Ok d /\
    d = mkDims (len (bundle_files (m_bundleInfo sample_layout)) + len (m_chunkGuids sample_layout))
          (len (m_bundleInfo sample_layout)) (len (m_chunkGuids sample_layout)) /\
    len data = chunks_start d + 20 * nd_chunks d /\
    (forall i h b, m_bundleInfo sample_layout !! i = Some (h, b) ->
       exists start, native_bundle d data i = Ok (h, Z.of_nat start, len (bi_files b)) /\
         mapM (native_file d data) (seq start (length (bi_files b))) = Ok (bi_files b)) /\
    (forall i guid c, m_chunkGuids sample_layout !! i = Some (guid, c) ->
       exists index, native_chunk d data i = Ok (guid, Z.of_nat index) /\
         native_file d data index = Ok (ci_file c)).
Proof. exact (LayoutManifest_Save_readback sample_layout sample_layout_wf). Defined.

(** The unused slots of the arrays when the game's structure holds [m]. *)
Definition free_files (m : LayoutManifest) : list byte :=
  replicate (Z.to_nat (16 * (nd_files native_dims - len (layout_files m)))) Byte.x00.
Definition free_bundles (m : LayoutManifest) : list byte :=
  replicate (Z.to_nat (20 * (nd_bundles native_dims - len (m_bundleInfo m)))) Byte.x00.

Lemma sample_fills : fills native_dims sample_layout (free_files sample_layout) (free_bundles sample_layout).
Proof.
  unfold free_files, free_bundles. split; [rewrite length_replicate, Z2Nat.id; cbn; lia..|cbn; lia].
Qed.

Lemma LayoutManifest_Load_saved_witness :
  LayoutManifest_Save sample_layout = Ok (native_layout sample_layout [] [] []) /\
  exists st, LayoutManifest_Load (native_layout sample_layout (free_files sample_layout) (free_bundles sample_layout) [])
      sample_entries LayoutManifest_new = Ok st /\
    m_fileInfo st.2 = layout_files sample_layout /\
    (forall g, GetChunk g st.2 = GetChunk g sample_layout) /\
    (forall h, omap_find h (m_bundleInfo st.2) =
       (fun _ => loaded_bundle sample_entries h) <$> omap_find h (m_bundleInfo sample_layout)) /\
    (forall h b, omap_find h (m_bundleInfo sample_layout) = Some b -> be_files <$> sample_entries !! h = Some (bi_files b) ->
       bi_files <$> omap_find h (m_bundleInfo st.2) = Some (bi_files b)) /\
    layout_ok ∅ (mkState st.1 st.2).
Proof.
  apply (LayoutManifest_Load_saved sample_layout _ _ [] sample_entries ∅ sample_layout_wf).
  - repeat constructor.
  - exact sample_entries_ok.
  - exact sample_fills.
  - intros h Hh. apply elem_of_cons in Hh as [->|Hh]; [left; by eexists|].
    apply list_elem_of_singleton in Hh as ->. right. split; [done|]. apply not_elem_of_empty.
Defined.
