(* ===== verification/ModResources.v ===== *)
(** Loading mods (Source/ModLoader/ModLoader.cpp, Public/ModLoader/KyberMod.h):
    [LoadMod] turns a parsed mod archive into resources, [FinalizeModLoads]
    orders the resources of all mods by priority and distributes them over the
    bundles, [GetNextModFile] numbers the archive of the next mod.

    Parsing and decompressing the archives is the work of the FBRuntimeTweaker
    C library: its results are arguments here. *)

From stdpp Require pretty.
From S2P Require Import Prelude OrdMap ByteBuffer StringUtils Guid DbObject Endian BundleManifest.
From S2P Require Import BundleMerger LayoutManifest.

(** ** Data *)

Inductive FrostyResourceType :=
| FrostyResourceType_Invalid | FrostyResourceType_Embedded | FrostyResourceType_Ebx
| FrostyResourceType_Res | FrostyResourceType_Chunk | FrostyResourceType_Bundle.

#[export] Instance FrostyResourceType_eq_dec : EqDecision FrostyResourceType.
Proof. solve_decision. Defined.

Definition type_code (t : FrostyResourceType) : Z :=
  match t with
  | FrostyResourceType_Invalid => 0 | FrostyResourceType_Embedded => 1 | FrostyResourceType_Ebx => 2
  | FrostyResourceType_Res => 3 | FrostyResourceType_Chunk => 4 | FrostyResourceType_Bundle => 5
  end.

Record ModResourceData := mkData {
  rd_size : Z;
  rd_originalSize : Z;
  rd_buffer : option (list byte);
  rd_fbFile : Z;
  rd_dataOffset : Z;
  rd_resType : Z;
  rd_resRid : Z;
  rd_resMeta : list byte;
  rd_rangeStart : Z;
  rd_rangeEnd : Z;
  rd_logicalOffset : Z;
  rd_logicalSize : Z;
  rd_h32 : Z;
  rd_firstMip : Z;
}.

Record ModResource := mkResource {
  mr_type : FrostyResourceType;
  mr_name : list byte;
  mr_bundles : list Z;
  mr_handlerHash : Z;
  mr_resourceIndex : Z;
  mr_dupedWithHandler : bool;
  mr_modName : list byte;
  mr_modIndex : Z;
  mr_data : ModResourceData;
  mr_uniqueIdWithType : Z;
}.

Definition ContainsBundle (hash : Z) (r : ModResource) : bool := bool_decide (hash ∈ mr_bundles r).

Record KyberMod := mkMod { km_path : list byte; km_fbFile : Z; km_resources : list ModResource }.

Record KyberHandledModResource := mkHandled { hr_handlerHash : Z; hr_dupedWithHandler : bool }.

(** The members of [ModLoader] that loading changes. *)
Record ModLoader := mkLoader {
  m_mods : list KyberMod;
  m_addedBundles : gset Z;
  m_requiredFiles : gset Z;
  m_modResources : list ModResource;
  m_handlerResources : gmap (list byte) KyberHandledModResource;
  m_bundleResources : omap Z (list ModResource);
}.

Definition ModLoader_new : ModLoader := mkLoader [] ∅ ∅ [] ∅ [].

(** ** [GetNextModFile] *)

(** The number of cas files each catalogue of the game already has. *)
Definition kCatalogSizes : list Z := [10; 5; 3; 12; 7; 3; 6].
Definition kNumCatalogs : nat := length kCatalogSizes.

(** The [while] loop over the catalogues; [casIndex] is unsigned. Past the last
    catalogue the assertion fails. *)
Fixpoint catalog_loop (sizes : list Z) (catalogIndex casIndex : Z) : result (Z * Z * Z) :=
  match sizes with
  | [] => Fault Thrown
  | size :: sizes' =>
    let availableCatalogSpace := 0xFF - size in
    if availableCatalogSpace <? casIndex
    then catalog_loop sizes' (catalogIndex + 1) (casIndex - availableCatalogSpace)
    else Ok (catalogIndex, casIndex, size)
  end.

Definition GetNextModFile (modCount : Z) : result Z :=
  '(catalogIndex, casIndex, size) ← catalog_loop kCatalogSizes 0 modCount;
  let casIndex := casIndex + size in
  Ok (Z.lor (Z.shiftl (catalogIndex + 1) 12) (Z.land (casIndex - 1) 0xFF)).

(** ** [LoadMod] *)

(** A resource of a parsed archive, as far as the loader looks at it. *)
Record FrostyResource := mkFrosty {
  fr_type : FrostyResourceType;
  fr_resourceIndex : Z;
  fr_name : list byte;
  fr_size : Z;
  fr_handlerHash : Z;
  fr_addedBundles : list Z;
  fr_resType : Z;
  fr_resRid : Z;
  fr_resMeta : list byte;
  fr_rangeStart : Z;
  fr_rangeEnd : Z;
  fr_logicalOffset : Z;
  fr_logicalSize : Z;
  fr_h32 : Z;
  fr_firstMip : Z;
}.

Record FrostyMod := mkFrostyMod {
  fm_dataOffset : Z;
  fm_dataCount : Z;
  fm_title : list byte;
  fm_resources : list FrostyResource;
  fm_file : list byte;
}.

(** [fread] of an [int64_t] that was zero: bytes past the end stay zero. *)
Definition read_int64 (file : list byte) (pos : Z) : Z := i64 (le_combine (slice (Z.to_nat pos) 8 file)).

(** The offset of a resource's data in the archive, and its size. *)
Definition resource_extent (frosty : FrostyMod) (resourceIndex : Z) : Z * Z :=
  if resourceIndex =? -1 then (0, 0)
  else
    let pos := fm_dataOffset frosty + resourceIndex * 16 in
    let dataOffset := read_int64 (fm_file frosty) pos in
    let dataSize := read_int64 (fm_file frosty) (pos + 8) in
    (i64 (fm_dataOffset frosty + fm_dataCount frosty * 16 + dataOffset), dataSize).

Definition unique_id (type : FrostyResourceType) (name : list byte) : Z :=
  HashQuickLower (bstr (pretty.pretty (type_code type)) ++ [Byte.x5f] ++ c_str name).

Section LoadMod.
(** [RT_FrostyReadModResource]: the decompressed data of a resource, or an
    error. *)
Context (readModResource : FrostyMod -> FrostyResource -> option (list byte)).
Context (merger : BundleMerger).

(** The resource the loader keeps, or [None] if it is skipped. *)
Definition convert_resource (frosty : FrostyMod) (fbFile modIndex : Z) (r : FrostyResource) : option ModResource :=
  let '(offset, dataSize) := resource_extent frosty (fr_resourceIndex r) in
  let handled := negb (fr_resourceIndex r =? -1) && negb (fr_handlerHash r =? 0) in
  let buffer := if handled then readModResource frosty r else None in
  if handled && bool_decide (buffer = None) then None else
  let bundles := u32 <$> fr_addedBundles r in
  if negb (bool_decide (fr_type r = FrostyResourceType_Bundle)) && (fr_resourceIndex r =? -1)
     && bool_decide (bundles = []) then None else
  Some (mkResource (fr_type r) (fr_name r) bundles (fr_handlerHash r) (fr_resourceIndex r)
    (negb (fr_handlerHash r =? 0) && negb (bool_decide (bundles = []))
     && bool_decide (GetVanillaEbxEntry (fr_name r) merger = None))
    (fm_title frosty) modIndex
    (mkData (u64 dataSize) (u64 (fr_size r)) buffer fbFile (Z.land offset 0xFFFFFFFF)
       (fr_resType r) (fr_resRid r)
       (if decide (fr_type r = FrostyResourceType_Res) then fr_resMeta r else replicate 16 Byte.x00)
       (fr_rangeStart r) (fr_rangeEnd r) (fr_logicalOffset r) (fr_logicalSize r) (fr_h32 r) (fr_firstMip r))
    (unique_id (fr_type r) (fr_name r))).

(** The game file an unmodified resource lies in. *)
Definition vanilla_file (type : FrostyResourceType) (name : list byte) : option Z :=
  match type with
  | FrostyResourceType_Ebx => (fun e => fi_file (ve_file e)) <$> GetVanillaEbxEntry name merger
  | FrostyResourceType_Res => (fun e => fi_file (vr_file e)) <$> GetVanillaResEntry name merger
  | FrostyResourceType_Chunk => (fun e => fi_file (vc_file e)) <$> GetVanillaChunkEntry name merger
  | _ => None
  end.

Record LoadState := mkLoad { ld_resources : list ModResource; ld_added : gset Z; ld_required : gset Z }.

Definition load_resource (frosty : FrostyMod) (fbFile modIndex : Z) (st : LoadState) (r : FrostyResource) : LoadState :=
  match convert_resource frosty fbFile modIndex r with
  | None => st
  | Some mr =>
    let resources := ld_resources st ++ [mr] in
    if decide (fr_type r = FrostyResourceType_Bundle)
    then mkLoad resources ({[HashQuickLower (fr_name r)]} ∪ ld_added st) (ld_required st)
    else if mr_resourceIndex mr =? -1 then
      match vanilla_file (fr_type r) (mr_name mr) with
      | None => mkLoad resources (ld_added st) (ld_required st)
      | Some f => mkLoad resources (ld_added st) ({[f]} ∪ ld_required st)
      end
    else mkLoad resources (ld_added st) (ld_required st)
  end.

(** A stable sort by resource type. *)
Fixpoint insert_by_type (x : ModResource) (l : list ModResource) : list ModResource :=
  match l with
  | [] => [x]
  | y :: l' =>
    if type_code (mr_type y) <? type_code (mr_type x) then y :: insert_by_type x l' else x :: l
  end.
Definition stable_sort_by_type (l : list ModResource) : list ModResource := foldr insert_by_type [] l.

(** [parsed] is the result of opening and parsing the archive. *)
Definition LoadMod (parsed : option FrostyMod) (relativeFileName : list byte) (ml : ModLoader) : result ModLoader :=
  match parsed with
  | None => Ok ml
  | Some frosty =>
    fbFile ← GetNextModFile (len (m_mods ml));
    let st := foldl (load_resource frosty fbFile (len (m_mods ml)))
                (mkLoad [] (m_addedBundles ml) (m_requiredFiles ml)) (fm_resources frosty) in
    Ok (mkLoader (m_mods ml ++ [mkMod relativeFileName fbFile (stable_sort_by_type (ld_resources st))])
          (ld_added st) (ld_required st) (m_modResources ml) (m_handlerResources ml) (m_bundleResources ml))
  end.
End LoadMod.

(** ** [FinalizeModLoads] *)

(** Stage 1: the last mod has the highest priority and comes first. *)
Definition collect_resources (mods : list KyberMod) : list ModResource :=
  stable_sort_by_type (mjoin (km_resources <$> rev mods)).

Definition has_source (r : ModResource) : bool :=
  (mr_handlerHash r =? 0) && negb (mr_resourceIndex r =? -1).

(** Stage 2: the first resource with data of each id. [globalOverrides] holds
    pointers into the list: positions. *)
Definition find_sources (l : list ModResource) : gmap Z ModResourceData * gmap Z nat :=
  foldl (fun st ir =>
    let r : ModResource := ir.2 in
    if has_source r then
      match st.1 !! mr_uniqueIdWithType r with
      | Some _ => st
      | None => (<[mr_uniqueIdWithType r := mr_data r]> st.1, <[mr_uniqueIdWithType r := ir.1]> st.2)
      end
    else st) (∅, ∅) (imap pair l).

(** Stage 3. *)
Definition fill_source (sources : gmap Z ModResourceData) (r : ModResource) : ModResource :=
  if negb (mr_handlerHash r =? 0) || negb (mr_resourceIndex r =? -1) then r else
  match sources !! mr_uniqueIdWithType r with
  | None => r
  | Some d => mkResource (mr_type r) (mr_name r) (mr_bundles r) (mr_handlerHash r) 0 (mr_dupedWithHandler r)
                (mr_modName r) (mr_modIndex r) d (mr_uniqueIdWithType r)
  end.

(** Stage 4. *)
Definition collect_handled (st : gmap (list byte) KyberHandledModResource * gset Z) (r : ModResource) :=
  if bool_decide (mr_type r = FrostyResourceType_Ebx) && bool_decide (is_Some (rd_buffer (mr_data r)))
     && negb (mr_handlerHash r =? 0) && negb (bool_decide (mr_uniqueIdWithType r ∈ st.2))
  then (<[mr_name r := mkHandled (mr_handlerHash r) (mr_dupedWithHandler r)]> st.1, {[mr_uniqueIdWithType r]} ∪ st.2)
  else st.

(** Stages 5 to 7 pass over the resources and their bundles in the same way,
    and visit each id once per bundle. *)
Definition distributes (r : ModResource) : bool := (mr_handlerHash r =? 0) || mr_dupedWithHandler r.

Section visit.
Context {S : Type} (act : S -> ModResource -> Z -> S).

Definition visit_bundle (r : ModResource) (st : S * gmap Z (gset Z)) (h : Z) : S * gmap Z (gset Z) :=
  let seen := default ∅ (st.2 !! h) in
  if bool_decide (mr_uniqueIdWithType r ∈ seen) then (st.1, <[h := seen]> st.2)
  else (act st.1 r h, <[h := {[mr_uniqueIdWithType r]} ∪ seen]> st.2).

Definition visit_resource (st : S * gmap Z (gset Z)) (r : ModResource) : S * gmap Z (gset Z) :=
  if distributes r then foldl (visit_bundle r) st (mr_bundles r) else st.
End visit.

(** Stage 5 counts; stage 6 reserves, which creates the bundles' entries. *)
Definition count_bundle (counts : omap Z Z) (_ : ModResource) (h : Z) : omap Z Z :=
  omap_insert h (u32 (default 0 (omap_find h counts) + 1)) counts.

Definition reserve_bundles (counts : omap Z Z) (b : omap Z (list ModResource)) : omap Z (list ModResource) :=
  foldl (fun b kv => omap_insert kv.1 (default [] (omap_find kv.1 b)) b) b counts.

(** Stage 7: the resource a bundle gets in place of [r]. *)
Definition assign (l : list ModResource) (overrides : gmap Z nat) (r : ModResource) : ModResource :=
  if bool_decide (mr_bundles r = []) then r
  else match overrides !! mr_uniqueIdWithType r with
       | Some i => default r (l !! i)
       | None => r
       end.

Definition push_bundle (l : list ModResource) (overrides : gmap Z nat)
    (b : omap Z (list ModResource)) (r : ModResource) (h : Z) : omap Z (list ModResource) :=
  omap_insert h (default [] (omap_find h b) ++ [assign l overrides r]) b.

Definition FinalizeModLoads (ml : ModLoader) : ModLoader :=
  let l1 := collect_resources (m_mods ml) in
  let '(sources, overrides) := find_sources l1 in
  let l := fill_source sources <$> l1 in
  let handled := (foldl collect_handled (m_handlerResources ml, ∅) l).1 in
  let counts := (foldl (visit_resource count_bundle) ([], ∅) l).1 in
  let b := reserve_bundles counts (m_bundleResources ml) in
  let b := (foldl (visit_resource (push_bundle l overrides)) (b, ∅) l).1 in
  mkLoader (m_mods ml) (m_addedBundles ml) (m_requiredFiles ml) l handled b.

(** ** Numbering mods *)

(** How many mods the seven catalogues can number. *)
Definition kModLimit : Z := 1739.

Lemma file_fields c k : 0 <= c < 2 ^ 19 -> 0 <= k < 256 ->
  let f := Z.lor (Z.shiftl (c + 1) 12) (Z.land k 0xFF) in
  f = (c + 1) * 4096 + k /\ GetCatalogIndex f = c /\ Z.land f 0xFF = k.
Proof.
  intros Hc Hk f. assert (Hf : f = (c + 1) * 4096 + k).
  { subst f. change 0xFF with (Z.ones 8). rewrite Z.land_ones by lia.
    rewrite (Z.mod_small k) by lia. rewrite Z.shiftl_mul_pow2 by lia.
    rewrite Z.lor_comm, lor_shift_add by lia. change (2 ^ 12) with 4096. lia. }
  rewrite Hf. split; [done|]. unfold GetCatalogIndex. rewrite Z.shiftr_div_pow2 by lia.
  change (2 ^ 12) with 4096. change 0xFF with (Z.ones 8). rewrite Z.land_ones by lia. change (2 ^ 8) with 256.
  rewrite Z.div_add_l, (Z.div_small k 4096) by lia. split; [lia|].
  replace ((c + 1) * 4096) with ((c + 1) * 16 * 256) by lia.
  rewrite Z.add_comm, Z_mod_plus_full. by apply Z.mod_small.
Qed.

Ltac catalog_cases :=
  unfold GetNextModFile, kCatalogSizes; cbn [catalog_loop];
  repeat match goal with |- context [if ?a <? ?b then _ else _] => destruct (Z.ltb_spec a b) end;
  cbn [mbind result_bind].

(** The catalogue and the index within it. *)
Lemma GetNextModFile_at n :
  0 <= n <= kModLimit ->
  exists c k size, GetNextModFile n = Ok (Z.lor (Z.shiftl (c + 1) 12) (Z.land k 0xFF)) /\
    0 <= c < 7 /\ kCatalogSizes !! Z.to_nat c = Some size /\ 0 <= k <= 254 /\
    (n = 0 -> k = size - 1) /\ (n <> 0 -> size <= k).
Proof.
  unfold kModLimit. intros Hl. catalog_cases; try lia;
    [exists 6|exists 5|exists 4|exists 3|exists 2|exists 1|exists 0];
    (eexists _, _; split; [reflexivity|]; split; [lia|]; split; [reflexivity|]; lia).
Qed.

Theorem GetNextModFile_increasing a b fa fb :
  0 <= a < b -> GetNextModFile a = Ok fa -> GetNextModFile b = Ok fb -> fa < fb.
Proof.
  intros Hab.
  assert (H : forall n, 0 <= n -> match GetNextModFile n with
    | Ok f => exists c k, f = (c + 1) * 4096 + k /\ 0 <= k < 255 /\
        ((n <= 245 /\ c = 0 /\ k = n + 9) \/ (245 < n <= 495 /\ c = 1 /\ k = n - 241) \/
         (495 < n <= 747 /\ c = 2 /\ k = n - 493) \/ (747 < n <= 990 /\ c = 3 /\ k = n - 736) \/
         (990 < n <= 1238 /\ c = 4 /\ k = n - 984) \/ (1238 < n <= 1490 /\ c = 5 /\ k = n - 1236) \/
         (1490 < n <= 1739 /\ c = 6 /\ k = n - 1485))
    | Fault _ => True end).
  { intros n Hn. catalog_cases; try done;
      (eexists _, _; split; [apply file_fields; lia|]; lia). }
  pose proof (H a ltac:(lia)) as Ha. pose proof (H b ltac:(lia)) as Hb.
  intros Ea Eb. rewrite Ea in Ha. rewrite Eb in Hb.
  destruct Ha as (c & k & -> & ? & Ha), Hb as (c' & k' & -> & ? & Hb).
  destruct Ha as [?|[?|[?|[?|[?|[?|?]]]]]], Hb as [?|[?|[?|[?|[?|[?|?]]]]]]; lia.
Qed.

(** Not a file of the game's patch: bit 8 is clear. *)
Lemma file_not_patch c k : 0 <= k < 256 -> Z.land ((c + 1) * 4096 + k) 0x100 = 0.
Proof.
  intros Hk. apply Z.bits_inj'. intros i Hi. rewrite Z.land_spec, Z.bits_0.
  change 0x100 with (2 ^ 8). rewrite Z.pow2_bits_eqb by lia. destruct (Z.eqb_spec 8 i) as [<-|]; [|apply andb_false_r].
  rewrite andb_true_r. change (Z.testbit ?x 8) with (Z.testbit x (0 + 8)). rewrite <- Z.div_pow2_bits by lia. change (2 ^ 8) with 256.
  replace ((c + 1) * 4096 + k) with ((c + 1) * 16 * 256 + k) by lia.
  rewrite Z.div_add_l, (Z.div_small k) by lia. rewrite Z.add_0_r, Z.bit0_odd.
  replace ((c + 1) * 16) with (2 * ((c + 1) * 8)) by lia. by rewrite Z.odd_mul.
Qed.

(** C14: The mods are counted from 0 and 1740 of them get a file of one of the
    seven catalogues, each a file of its own and numbered upwards, never past
    index 254. From the second mod on the index is past those of the cas files
    the catalogue already has; the first mod gets the last of those itself,
    an overlap. One mod more, and the assertion fails. *)
Theorem GetNextModFile_spec n :
  0 <= n ->
  (n <= kModLimit -> exists f size, GetNextModFile n = Ok f /\
     kCatalogSizes !! Z.to_nat (GetCatalogIndex f) = Some size /\ 0 <= GetCatalogIndex f /\
     Z.land f 0x100 = 0 /\ Z.land f 0xFF <= 254 /\
     (n <> 0 -> size <= Z.land f 0xFF) /\ (n = 0 -> Z.land f 0xFF = size - 1) /\
     (forall n', 0 <= n' < n -> exists f', GetNextModFile n' = Ok f' /\ f' < f)) /\
  (kModLimit < n -> GetNextModFile n = Fault Thrown).
Proof.
  intros Hn. split; intros Hl; [|unfold kModLimit in Hl; catalog_cases; done || lia].
  destruct (GetNextModFile_at n ltac:(lia)) as (c & k & size & Ef & Hc & Hsz & Hk & Hfirst & Hmin).
  destruct (file_fields c k ltac:(lia) ltac:(lia)) as (Hf & Hcat & Hlow).
  eexists _, size. split; [exact Ef|]. rewrite Hcat, Hlow. split_and!; try done; try lia.
  - rewrite Hf. apply file_not_patch. lia.
  - intros n' Hn'. destruct (GetNextModFile_at n' ltac:(lia)) as (c' & k' & size' & Ef' & _).
    eexists. split; [exact Ef'|]. apply (GetNextModFile_increasing n' n); [lia|exact Ef'|exact Ef].
Qed.

(** ** What a bundle gets

    The reference definition: of the resources that name the bundle, the first
    of each id, each replaced by the highest-priority source of its id. *)

Fixpoint dedup_ids (seen : gset Z) (l : list ModResource) : list ModResource :=
  match l with
  | [] => []
  | r :: l' =>
    if bool_decide (mr_uniqueIdWithType r ∈ seen) then dedup_ids seen l'
    else r :: dedup_ids ({[mr_uniqueIdWithType r]} ∪ seen) l'
  end.

Definition bundle_reference (l : list ModResource) (overrides : gmap Z nat) (h : Z) : list ModResource :=
  assign l overrides <$> dedup_ids ∅ (filter (fun r => distributes r && ContainsBundle h r = true) l).

Definition bundle_of (h : Z) (b : omap Z (list ModResource)) : list ModResource := default [] (omap_find h b).
Definition seen_of (h : Z) (seen : gmap Z (gset Z)) : gset Z := default ∅ (seen !! h).

Section distribution.
Context (l : list ModResource) (ov : gmap Z nat) (h : Z).

Lemma push_bundle_self b r : bundle_of h (push_bundle l ov b r h) = bundle_of h b ++ [assign l ov r].
Proof. unfold bundle_of, push_bundle. by rewrite omap_find_insert_eq. Qed.

Lemma push_bundle_other b r k : k <> h -> bundle_of h (push_bundle l ov b r k) = bundle_of h b.
Proof. intros Hk. unfold bundle_of, push_bundle. by rewrite omap_find_insert_ne. Qed.

Lemma visit_other r st k :
  k <> h ->
  bundle_of h (visit_bundle (push_bundle l ov) r st k).1 = bundle_of h st.1 /\
  seen_of h (visit_bundle (push_bundle l ov) r st k).2 = seen_of h st.2.
Proof.
  intros Hk. unfold visit_bundle. destruct (bool_decide _); cbn [fst snd];
    (split; [first [done | by apply push_bundle_other]|unfold seen_of; by rewrite lookup_insert_ne]).
Qed.

Lemma visit_seen r st :
  mr_uniqueIdWithType r ∈ seen_of h st.2 ->
  bundle_of h (visit_bundle (push_bundle l ov) r st h).1 = bundle_of h st.1 /\
  seen_of h (visit_bundle (push_bundle l ov) r st h).2 = seen_of h st.2.
Proof.
  intros Hin. unfold visit_bundle. fold (seen_of h st.2). rewrite bool_decide_eq_true_2 by done. cbn [fst snd].
  split; [done|]. unfold seen_of. by rewrite lookup_insert_eq.
Qed.

Lemma visit_new r st :
  mr_uniqueIdWithType r ∉ seen_of h st.2 ->
  bundle_of h (visit_bundle (push_bundle l ov) r st h).1 = bundle_of h st.1 ++ [assign l ov r] /\
  seen_of h (visit_bundle (push_bundle l ov) r st h).2 = {[mr_uniqueIdWithType r]} ∪ seen_of h st.2.
Proof.
  intros Hin. unfold visit_bundle. fold (seen_of h st.2). rewrite bool_decide_eq_false_2 by done. cbn [fst snd].
  split; [apply push_bundle_self|]. unfold seen_of. by rewrite lookup_insert_eq.
Qed.

(** Once seen, the other mentions of the bundle by one resource do nothing. *)
Lemma visit_all_seen r hs st :
  mr_uniqueIdWithType r ∈ seen_of h st.2 ->
  bundle_of h (foldl (visit_bundle (push_bundle l ov) r) st hs).1 = bundle_of h st.1 /\
  seen_of h (foldl (visit_bundle (push_bundle l ov) r) st hs).2 = seen_of h st.2.
Proof.
  revert st. induction hs as [|k hs IH]; intros st Hin; [done|]. cbn [foldl].
  assert (H : bundle_of h (visit_bundle (push_bundle l ov) r st k).1 = bundle_of h st.1 /\
              seen_of h (visit_bundle (push_bundle l ov) r st k).2 = seen_of h st.2).
  { destruct (decide (k = h)) as [->|]; [by apply visit_seen|by apply visit_other]. }
  destruct H as [H1 H2]. rewrite <- H2 in Hin. destruct (IH _ Hin) as [-> ->]. done.
Qed.

Lemma visit_all_new r hs st :
  mr_uniqueIdWithType r ∉ seen_of h st.2 ->
  bundle_of h (foldl (visit_bundle (push_bundle l ov) r) st hs).1
    = bundle_of h st.1 ++ (if bool_decide (h ∈ hs) then [assign l ov r] else []) /\
  seen_of h (foldl (visit_bundle (push_bundle l ov) r) st hs).2
    = (if bool_decide (h ∈ hs) then {[mr_uniqueIdWithType r]} else ∅) ∪ seen_of h st.2.
Proof.
  revert st. induction hs as [|k hs IH]; intros st Hin.
  - rewrite bool_decide_eq_false_2 by apply not_elem_of_nil. cbn [foldl].
    by rewrite app_nil_r, (left_id_L ∅ (∪)).
  - cbn [foldl]. destruct (decide (k = h)) as [->|Hk].
    + destruct (visit_new r st Hin) as [H1 H2].
      destruct (visit_all_seen r hs (visit_bundle (push_bundle l ov) r st h)) as [-> ->]; [rewrite H2; set_solver|].
      rewrite bool_decide_eq_true_2 by by left. done.
    + destruct (visit_other r st k Hk) as [H1 H2]. rewrite <- H2 in Hin.
      destruct (IH _ Hin) as [-> ->]. rewrite H1, H2.
      assert (E : bool_decide (h ∈ k :: hs) = bool_decide (h ∈ hs)).
      { apply bool_decide_ext. rewrite elem_of_cons. naive_solver. }
      by rewrite E.
Qed.

Lemma visit_resources_spec rs st :
  bundle_of h (foldl (visit_resource (push_bundle l ov)) st rs).1 =
    bundle_of h st.1 ++
    (assign l ov <$> dedup_ids (seen_of h st.2) (filter (fun r => distributes r && ContainsBundle h r = true) rs)).
Proof.
  revert st. induction rs as [|r rs IH]; intros st; [by rewrite app_nil_r|]. cbn [foldl]. rewrite IH.
  unfold visit_resource. rewrite filter_cons. destruct (distributes r); cbn [andb]; [|done].
  destruct (decide (mr_uniqueIdWithType r ∈ seen_of h st.2)) as [Hin|Hin].
  - destruct (visit_all_seen r (mr_bundles r) st Hin) as [-> ->].
    destruct (decide (ContainsBundle h r = true)); [|done].
    cbn [dedup_ids]. by rewrite bool_decide_eq_true_2.
  - destruct (visit_all_new r (mr_bundles r) st Hin) as [-> ->].
    fold (ContainsBundle h r). destruct (ContainsBundle h r) eqn:E.
    + rewrite decide_True by done. cbn [dedup_ids]. rewrite bool_decide_eq_false_2 by done.
      by rewrite <- app_assoc.
    + rewrite decide_False by done. by rewrite app_nil_r, (left_id_L ∅ (∪)).
Qed.

Lemma reserve_bundles_of counts b : bundle_of h (reserve_bundles counts b) = bundle_of h b.
Proof.
  unfold reserve_bundles. revert b. induction counts as [|[k n] counts IH]; intros b; [done|]. cbn [foldl].
  rewrite IH. unfold bundle_of. cbn [fst]. destruct (decide (k = h)) as [->|]; [|by rewrite omap_find_insert_ne].
  by rewrite omap_find_insert_eq.
Qed.
End distribution.

(** C7: The bundle lists after loading are the reference ones. *)
Theorem FinalizeModLoads_bundles ml h :
  m_bundleResources ml = [] ->
  let ml' := FinalizeModLoads ml in
  bundle_of h (m_bundleResources ml') =
    bundle_reference (m_modResources ml') (find_sources (collect_resources (m_mods ml))).2 h.
Proof.
  intros Hb. unfold FinalizeModLoads. destruct (find_sources _) as [sources ov]. cbn [m_bundleResources m_modResources snd].
  rewrite visit_resources_spec. cbn [fst snd]. rewrite reserve_bundles_of, Hb. done.
Qed.

Lemma dedup_ids_NoDup seen l :
  NoDup (mr_uniqueIdWithType <$> dedup_ids seen l) /\
  forall r, r ∈ dedup_ids seen l -> (mr_uniqueIdWithType r ∉ seen) /\ r ∈ l.
Proof.
  revert seen. induction l as [|r l IH]; intros seen; cbn; [split; [constructor|by intros ? ?%elem_of_nil]|].
  destruct (bool_decide_reflect (mr_uniqueIdWithType r ∈ seen)) as [Hin|Hin].
  - destruct (IH seen) as [H1 H2]. split; [done|]. intros x Hx. destruct (H2 x Hx). split; [done|by right].
  - destruct (IH ({[mr_uniqueIdWithType r]} ∪ seen)) as [H1 H2]. split.
    + cbn. constructor; [|done]. intros (x & Hx & Hin')%list_elem_of_fmap.
      destruct (H2 x Hin') as [Hn _]. rewrite <- Hx in Hn. set_solver.
    + intros x [->|Hx]%elem_of_cons; [split; [done|by left]|].
      destruct (H2 x Hx) as [Hn Hl]. split; [set_solver|by right].
Qed.

(** *** Priorities *)

Definition source_of (u : Z) (r : ModResource) : Prop := has_source r = true /\ mr_uniqueIdWithType r = u.
#[export] Instance source_of_dec u r : Decision (source_of u r).
Proof. apply _. Defined.

Definition source_step (st : gmap Z ModResourceData * gmap Z nat) (ir : nat * ModResource) :=
  if has_source ir.2 then
    match st.1 !! mr_uniqueIdWithType ir.2 with
    | Some _ => st
    | None => (<[mr_uniqueIdWithType ir.2 := mr_data ir.2]> st.1, <[mr_uniqueIdWithType ir.2 := ir.1]> st.2)
    end
  else st.

Lemma find_sources_snoc l r : find_sources (l ++ [r]) = source_step (find_sources l) (length l, r).
Proof. unfold find_sources. rewrite imap_app, foldl_app. cbn. by rewrite Nat.add_0_r. Qed.

(** The source of an id is the first resource with data that has it. *)
Lemma find_sources_spec u l :
  match head (filter (source_of u) l) with
  | None => (find_sources l).1 !! u = None /\ (find_sources l).2 !! u = None
  | Some s => (find_sources l).1 !! u = Some (mr_data s) /\
      exists i, (find_sources l).2 !! u = Some i /\ l !! i = Some s
  end.
Proof.
  induction l as [|r l IH] using rev_ind; [done|].
  rewrite find_sources_snoc, list.filter_app, filter_cons, filter_nil. unfold source_step. cbn [fst snd].
  destruct (filter (source_of u) l) as [|s fl]; cbn [head app] in *.
  - destruct IH as [H1 H2]. destruct (decide (source_of u r)) as [[Hs <-]|Hn].
    + rewrite Hs, H1. cbn. split; [by rewrite lookup_insert_eq|].
      exists (length l). split; [by rewrite lookup_insert_eq|by apply list_lookup_middle].
    + destruct (has_source r) eqn:Hs; [|done].
      destruct (decide (mr_uniqueIdWithType r = u)) as [Hu|Hu]; [by destruct Hn|].
      cbn [list.head]. destruct ((find_sources l).1 !! mr_uniqueIdWithType r); [done|].
      cbn [fst snd]. by rewrite !lookup_insert_ne.
  - destruct IH as (H1 & i & H2 & H3).
    assert (Hi : (l ++ [r]) !! i = Some s) by by apply lookup_app_l_Some.
    destruct (has_source r); [|by split; [|exists i]].
    destruct ((find_sources l).1 !! mr_uniqueIdWithType r) eqn:E; [by split; [|exists i]|].
    destruct (decide (mr_uniqueIdWithType r = u)) as [Hu|Hu]; [congruence|].
    cbn [fst snd]. rewrite !lookup_insert_ne by done. split; [done|by exists i].
Qed.

(** Sorting by type does not reorder the resources of one id. *)
Lemma insert_by_type_filter (P : ModResource -> Prop) `{!forall r, Decision (P r)} t x l :
  (forall r, r ∈ x :: l -> P r -> mr_type r = t) ->
  filter P (insert_by_type x l) = filter P (x :: l).
Proof.
  induction l as [|y l IH]; intros Ht; [done|]. cbn [insert_by_type].
  destruct (Z.ltb_spec (type_code (mr_type y)) (type_code (mr_type x))) as [Hlt|]; [|done].
  rewrite filter_cons, IH by set_solver. rewrite !filter_cons.
  destruct (decide (P x)) as [Hx|]; [|done]. destruct (decide (P y)) as [Hy|]; [|done].
  rewrite (Ht x), (Ht y) in Hlt by (done || set_solver). lia.
Qed.

Lemma insert_by_type_perm x l : insert_by_type x l ≡ₚ x :: l.
Proof.
  induction l as [|y l IH]; [done|]. cbn. destruct (_ <? _); [|done]. rewrite IH. constructor.
Qed.

Lemma stable_sort_by_type_perm l : stable_sort_by_type l ≡ₚ l.
Proof. induction l as [|x l IH]; [done|]. cbn. by rewrite insert_by_type_perm, IH. Qed.

Lemma stable_sort_by_type_filter (P : ModResource -> Prop) `{!forall r, Decision (P r)} t l :
  (forall r, r ∈ l -> P r -> mr_type r = t) -> filter P (stable_sort_by_type l) = filter P l.
Proof.
  induction l as [|x l IH]; intros Ht; [done|]. cbn [stable_sort_by_type foldr].
  fold (stable_sort_by_type l). rewrite (insert_by_type_filter P t).
  - rewrite !filter_cons, IH by set_solver. done.
  - intros r. rewrite stable_sort_by_type_perm. apply Ht.
Qed.

(** The resources come sorted by type, and sorting keeps them all. *)
Lemma insert_by_type_Sorted x l :
  Sorted (fun a b => type_code (mr_type a) <= type_code (mr_type b)) l ->
  Sorted (fun a b => type_code (mr_type a) <= type_code (mr_type b)) (insert_by_type x l).
Proof.
  induction 1 as [|y l Hs IH Hd]; cbn; [by repeat constructor|].
  destruct (Z.ltb_spec (type_code (mr_type y)) (type_code (mr_type x))) as [Hlt|Hge].
  - constructor; [done|]. destruct Hd as [|z l Hz]; cbn; [constructor; lia|].
    destruct (_ <? _); constructor; lia.
  - constructor; [by constructor|]. constructor. lia.
Qed.

Lemma stable_sort_by_type_Sorted l :
  Sorted (fun a b => type_code (mr_type a) <= type_code (mr_type b)) (stable_sort_by_type l).
Proof. induction l; [constructor|]. cbn. by apply insert_by_type_Sorted. Qed.

Lemma filter_none (P : ModResource -> Prop) `{!forall r, Decision (P r)} l :
  (forall r, r ∈ l -> ~ P r) -> filter P l = [].
Proof.
  induction l as [|x l IH]; intros Hnone; [done|].
  rewrite filter_cons, decide_False by (apply Hnone; by left). apply IH. intros r Hr. apply Hnone. by right.
Qed.

Lemma filter_mjoin_none (P : ModResource -> Prop) `{!forall r, Decision (P r)} ll :
  (forall l, l ∈ ll -> forall r, r ∈ l -> ~ P r) -> filter P (mjoin ll) = [].
Proof.
  intros Hnone. apply filter_none. intros r (l & Hr & Hl)%list_elem_of_join. by eapply Hnone.
Qed.

Section priority.
Context (ml : ModLoader) (before after : list KyberMod) (m : KyberMod) (u : Z) (s : ModResource).
Context (Hmods : m_mods ml = before ++ m :: after).
Context (Hafter : forall k, k ∈ after -> forall r, r ∈ km_resources k -> ~ source_of u r).
Context (Hfirst : head (filter (source_of u) (km_resources m)) = Some s).
Context (Htype : forall k, k ∈ m_mods ml -> forall r, r ∈ km_resources k -> source_of u r -> mr_type r = mr_type s).

Lemma collect_first : head (filter (source_of u) (collect_resources (m_mods ml))) = Some s.
Proof.
  unfold collect_resources. rewrite (stable_sort_by_type_filter _ (mr_type s)).
  - rewrite Hmods, rev_app_distr. cbn [rev]. rewrite !fmap_app, !join_app, !list.filter_app.
    rewrite filter_mjoin_none.
    + cbn [fmap list_fmap mjoin list_join app]. rewrite list.filter_app, filter_nil, app_nil_r.
      destruct (filter (source_of u) (km_resources m)); [done|]. exact Hfirst.
    + intros l (k & -> & Hk)%list_elem_of_fmap r Hr. apply (Hafter k); [|done]. by apply list_elem_of_In, in_rev, list_elem_of_In.
  - intros r (l & Hr & (k & -> & Hk)%list_elem_of_fmap)%list_elem_of_join. apply (Htype k); [|done].
    by apply list_elem_of_In, in_rev, list_elem_of_In.
Qed.
End priority.

(** Filling in sources leaves the sources alone and changes no id or bundle. *)
Lemma fill_source_id sources r :
  mr_uniqueIdWithType (fill_source sources r) = mr_uniqueIdWithType r /\
  mr_bundles (fill_source sources r) = mr_bundles r /\
  (has_source r = true -> fill_source sources r = r).
Proof.
  unfold fill_source, has_source.
  destruct (mr_handlerHash r =? 0), (mr_resourceIndex r =? -1); cbn; try done.
  by destruct (sources !! _).
Qed.

Lemma dedup_ids_in seen l r : r ∈ dedup_ids seen l -> r ∈ l.
Proof. apply dedup_ids_NoDup. Qed.

(** What stands at the position of a source. *)
Lemma override_at sources l i u :
  (find_sources l).2 !! u = Some i ->
  exists s, head (filter (source_of u) l) = Some s /\ (fill_source sources <$> l) !! i = Some s /\
    mr_uniqueIdWithType s = u.
Proof.
  intros Hi. pose proof (find_sources_spec u l) as H.
  destruct (head (filter (source_of u) l)) as [s|] eqn:Hs; [|by destruct H; congruence].
  destruct H as (_ & j & Hj & Hl). assert (i = j) as -> by congruence.
  assert (Hin : s ∈ filter (source_of u) l).
  { destruct (filter (source_of u) l); [done|]. cbn in Hs. injection Hs as ->. by left. }
  apply list_elem_of_filter in Hin as [[Hsrc Hu] _].
  exists s. split; [done|]. split; [|done]. rewrite list_lookup_fmap, Hl. cbn.
  by rewrite (proj2 (proj2 (fill_source_id sources s))).
Qed.

Lemma assign_id sources l r :
  let l' := fill_source sources <$> l in
  mr_uniqueIdWithType (assign l' (find_sources l).2 r) = mr_uniqueIdWithType r.
Proof.
  cbn zeta. unfold assign. destruct (bool_decide _); [done|].
  destruct ((find_sources l).2 !! mr_uniqueIdWithType r) as [i|] eqn:Hi; [|done].
  destruct (override_at sources l i _ Hi) as (s & _ & -> & Hid). done.
Qed.

Lemma FinalizeModLoads_bundle ml h :
  m_bundleResources ml = [] ->
  let l := collect_resources (m_mods ml) in
  let l' := fill_source (find_sources l).1 <$> l in
  bundle_of h (m_bundleResources (FinalizeModLoads ml)) = bundle_reference l' (find_sources l).2 h.
Proof.
  intros Hb. unfold FinalizeModLoads. destruct (find_sources _) as [sources ov]. cbn [m_bundleResources fst snd].
  by rewrite visit_resources_spec; cbn [fst snd]; rewrite reserve_bundles_of, Hb.
Qed.

(** No bundle gets two resources of one id. *)
Theorem FinalizeModLoads_NoDup ml h :
  m_bundleResources ml = [] ->
  NoDup (mr_uniqueIdWithType <$> bundle_of h (m_bundleResources (FinalizeModLoads ml))).
Proof.
  intros Hb. rewrite (FinalizeModLoads_bundle ml h Hb). unfold bundle_reference.
  rewrite <- list_fmap_compose.
  rewrite (list_fmap_ext _ mr_uniqueIdWithType); [apply dedup_ids_NoDup|].
  intros i r _. apply assign_id.
Qed.

(** C2: The mod loaded last wins: if it has data for an asset, every bundle that
    gets the asset gets its resource, and not one of an earlier mod. *)
Theorem FinalizeModLoads_priority ml before after m u s h x :
  m_mods ml = before ++ m :: after ->
  (forall k, k ∈ after -> forall r, r ∈ km_resources k -> ~ source_of u r) ->
  head (filter (source_of u) (km_resources m)) = Some s ->
  (forall k, k ∈ m_mods ml -> forall r, r ∈ km_resources k -> source_of u r -> mr_type r = mr_type s) ->
  m_bundleResources ml = [] ->
  x ∈ bundle_of h (m_bundleResources (FinalizeModLoads ml)) -> mr_uniqueIdWithType x = u -> x = s.
Proof.
  intros Hmods Hafter Hfirst Htype Hb Hx Hu.
  pose proof (collect_first ml before after m u s Hmods Hafter Hfirst Htype) as Hs.
  rewrite (FinalizeModLoads_bundle ml h Hb) in Hx. unfold bundle_reference in Hx.
  apply list_elem_of_fmap in Hx as (r & -> & Hr). rewrite assign_id in Hu.
  apply dedup_ids_in, list_elem_of_filter in Hr as [[_ Hc]%andb_prop _].
  unfold assign. unfold ContainsBundle in Hc. apply bool_decide_eq_true in Hc.
  rewrite bool_decide_eq_false_2 by (intros Hn; rewrite Hn in Hc; by apply elem_of_nil in Hc).
  pose proof (find_sources_spec u (collect_resources (m_mods ml))) as Hspec. rewrite Hs in Hspec.
  destruct Hspec as (_ & i & Hi & _). rewrite Hu, Hi.
  destruct (override_at (find_sources (collect_resources (m_mods ml))).1 _ _ _ Hi) as (s' & Hs' & -> & _).
  cbn. congruence.
Qed.

(** *** A load order of two mods

    Both replace the same asset in the same bundle. *)

Definition sample_data (size : Z) : ModResourceData :=
  mkData size size None 0x1009 0 0 0 [] 0 0 0 0 0 0.
Definition sample_resource (size index : Z) (bundles : list Z) : ModResource :=
  mkResource FrostyResourceType_Ebx (bstr "levels/x") bundles 0 index false (bstr "mod") 0 (sample_data size) 77.
Definition sample_mods : ModLoader :=
  mkLoader [mkMod (bstr "a") 0x1009 [sample_resource 10 0 [5]; sample_resource 11 1 [5; 6]];
            mkMod (bstr "b") 0x100a [sample_resource 20 0 []]] ∅ ∅ [] ∅ [].

Lemma FinalizeModLoads_bundles_witness :
  m_bundleResources sample_mods = [] /\
  bundle_of 5 (m_bundleResources (FinalizeModLoads sample_mods)) =
    bundle_reference (m_modResources (FinalizeModLoads sample_mods))
      (find_sources (collect_resources (m_mods sample_mods))).2 5 /\
  bundle_of 5 (m_bundleResources (FinalizeModLoads sample_mods)) = [sample_resource 20 0 []].
Proof.
  split; [reflexivity|]. split; [exact (FinalizeModLoads_bundles sample_mods 5 eq_refl)|vm_compute; reflexivity].
Defined.

Lemma FinalizeModLoads_NoDup_witness :
  NoDup (mr_uniqueIdWithType <$> bundle_of 5 (m_bundleResources (FinalizeModLoads sample_mods))).
Proof. exact (FinalizeModLoads_NoDup sample_mods 5 eq_refl). Defined.

Lemma FinalizeModLoads_priority_witness :
  exists x, x ∈ bundle_of 6 (m_bundleResources (FinalizeModLoads sample_mods)) /\ x = sample_resource 20 0 [].
Proof.
  exists (sample_resource 20 0 []).
  assert (Hin : sample_resource 20 0 [] ∈ bundle_of 6 (m_bundleResources (FinalizeModLoads sample_mods))).
  { apply list_elem_of_In. vm_compute. left. reflexivity. }
  split; [exact Hin|].
  apply (FinalizeModLoads_priority sample_mods
    [mkMod (bstr "a") 0x1009 [sample_resource 10 0 [5]; sample_resource 11 1 [5; 6]]] []
    (mkMod (bstr "b") 0x100a [sample_resource 20 0 []]) 77 (sample_resource 20 0 []) 6).
  - reflexivity.
  - by intros k Hk%elem_of_nil.
  - reflexivity.
  - intros k Hk r Hr _. cbn in Hk. apply list_elem_of_In in Hk. apply list_elem_of_In in Hr.
    destruct Hk as [<-|[<-|[]]]; cbn in Hr; intuition (subst; reflexivity).
  - reflexivity.
  - exact Hin.
  - reflexivity.
Defined.

Lemma GetNextModFile_spec_witness :
  (exists f size, GetNextModFile 0 = Ok f /\ kCatalogSizes !! Z.to_nat (GetCatalogIndex f) = Some size /\ Z.land f 0xFF = size - 1) /\
  (exists f size, GetNextModFile 1000 = Ok f /\ kCatalogSizes !! Z.to_nat (GetCatalogIndex f) = Some size /\ size <= Z.land f 0xFF) /\
  GetNextModFile 1740 = Fault Thrown.
Proof.
  split; [|split].
  - destruct (GetNextModFile_spec 0) as [H _]; [lia|]. destruct H as (f & size & H1 & H2 & _ & _ & _ & _ & H3 & _); [unfold kModLimit; lia|].
    exists f, size. split; [exact H1|]. split; [exact H2|by apply H3].
  - destruct (GetNextModFile_spec 1000) as [H _]; [lia|]. destruct H as (f & size & H1 & H2 & _ & _ & _ & H3 & _); [unfold kModLimit; lia|].
    exists f, size. split; [exact H1|]. split; [exact H2|by apply H3].
  - destruct (GetNextModFile_spec 1740) as [_ H]; [lia|]. apply H. unfold kModLimit. lia.
Defined.
