(* ===== verification/ModMerge.v ===== *)
(** Merging mods into the game's manifests (Source/ModLoader/ModLoader.cpp):
    [MergeBundleManifest] changes the manifest of the bundle that is being
    loaded, [MergeLayoutManifest] changes the layout of all bundles.

    The game finds the data of the n-th entry of a bundle's manifest through the
    n-th file of the bundle in the layout, so the two functions have to agree on
    every entry they add or modify; the theorems at the end show when they do. *)

From stdpp Require pretty.
From S2P Require Import Prelude OrdMap ByteBuffer StringUtils Guid DbObject Endian BundleManifest.
From S2P Require Import BundleMerger LayoutManifest ModResources.

(** ** [MergeBundleManifest] *)

Definition res_entry (r : ModResource) : ResEntry :=
  mkRes (c_str (mr_name r)) (u32 (rd_originalSize (mr_data r))) (rd_resType (mr_data r))
    (rd_resMeta (mr_data r)) (rd_resRid (mr_data r)).

Definition chunk_entry (r : ModResource) : ChunkEntry :=
  mkChunk (Guid_FromString (mr_name r)) (rd_logicalOffset (mr_data r)) (rd_logicalSize (mr_data r)).

(** Resources with data of their own, and not the work of a handler. *)
Definition has_data (r : ModResource) : bool :=
  (mr_handlerHash r =? 0) && negb (mr_resourceIndex r =? -1).

Section merge_bundle.
Context (g : BundleMerger) (dupedHandlerSources : gmap Z (list byte)).

Definition modify_vanilla (bundleHash : Z) (r : ModResource) (m : BundleManifest) : result BundleManifest :=
  match mr_type r with
  | FrostyResourceType_Ebx =>
    match GetVanillaEbxEntry (mr_name r) g with
    | None => Ok m
    | Some e =>
      if negb (omap_count bundleHash (ve_bundleFileOffsets e)) then Ok m
      else Ok (ModifyEbxEntry (mr_name r) (u32 (rd_originalSize (mr_data r))) m)
    end
  | FrostyResourceType_Res =>
    match GetVanillaResEntry (mr_name r) g with
    | None => Ok m
    | Some e =>
      if negb (omap_count bundleHash (vr_bundleFileOffsets e)) then Ok m
      else Ok (ModifyResEntry (res_entry r) m)
    end
  | FrostyResourceType_Chunk =>
    match GetVanillaChunkEntry (mr_name r) g with
    | None => Ok m
    | Some e =>
      if negb (omap_count bundleHash (vc_bundleFileOffsets e)) then Ok m
      else snd <$> AddChunkEntry (chunk_entry r) (rd_h32 (mr_data r)) (rd_firstMip (mr_data r)) false true m
    end
  | _ => Ok m
  end.

Definition vanilla_pass_step (bundleHash : Z) (st : gset Z * BundleManifest) (r : ModResource)
    : result (gset Z * BundleManifest) :=
  if ContainsBundle bundleHash r then Ok st else
  if (mr_resourceIndex r =? -1) || negb (mr_handlerHash r =? 0) then Ok st else
  if bool_decide (mr_uniqueIdWithType r ∈ st.1) then Ok st else
  m ← modify_vanilla bundleHash r st.2;
  Ok ({[mr_uniqueIdWithType r]} ∪ st.1, m).

(** A resource with data that the mod puts into the bundle. *)
Definition add_data (r : ModResource) (m : BundleManifest) : result BundleManifest :=
  match mr_type r with
  | FrostyResourceType_Ebx => Ok (AddEbxEntry (mr_name r) (u32 (rd_originalSize (mr_data r))) true m).2
  | FrostyResourceType_Res => Ok (AddResEntry (res_entry r) true m).2
  | FrostyResourceType_Chunk =>
    snd <$> AddChunkEntry (chunk_entry r) (rd_h32 (mr_data r)) (rd_firstMip (mr_data r)) true true m
  | _ => Ok m
  end.

(** [m_dupedHandlerSources[hash]]: the empty name when there is none. *)
Definition source_name (r : ModResource) : list byte :=
  if negb (mr_dupedWithHandler r) then mr_name r else default [] (dupedHandlerSources !! u32 (mr_handlerHash r)).

(** A game asset that the mod puts into the bundle as it is. *)
Definition add_unchanged (r : ModResource) (m : BundleManifest) : result BundleManifest :=
  match mr_type r with
  | FrostyResourceType_Ebx =>
    let originalSize :=
      match GetVanillaEbxEntry (source_name r) g with
      | None => 1000000
      | Some e => i32 (ebx_originalSize (ve_entry e))
      end in
    Ok (AddEbxEntry (mr_name r) (u32 originalSize) false m).2
  | FrostyResourceType_Res =>
    match GetVanillaResEntry (mr_name r) g with
    | None => Ok m
    | Some e => Ok (AddResEntry (vr_entry e) false m).2
    end
  | FrostyResourceType_Chunk =>
    match GetVanillaChunkEntry (mr_name r) g with
    | None => Ok m
    | Some e =>
      snd <$> AddChunkEntry
        (mkChunk (Guid_FromString (mr_name r)) (chunk_logicalOffset (vc_entry e)) (chunk_logicalSize (vc_entry e)))
        (rd_h32 (mr_data r)) (rd_firstMip (mr_data r)) true false m
    end
  | _ => Ok m
  end.

Definition bundle_pass_step (m : BundleManifest) (r : ModResource) : result BundleManifest :=
  if has_data r then add_data r m else add_unchanged r m.

Definition bundle_hash (loadingBundleName : list byte) : Z :=
  HashQuickLower (c_str (bstr "win32/" ++ loadingBundleName)).

(** [m_bundleResources[bundleHash]] leaves an empty list behind for a bundle
    that has none. *)
Definition MergeBundleManifest (loadingBundleName : list byte) (ml : ModLoader) (manifest : BundleManifest)
    : result (ModLoader * BundleManifest) :=
  let bundleHash := bundle_hash loadingBundleName in
  let isCustomBundle := bool_decide (bundleHash ∈ m_addedBundles ml) in
  let manifest := if isCustomBundle then BundleManifest_Clear manifest else manifest in
  manifest ←
    (if negb isCustomBundle
     then snd <$> foldM (vanilla_pass_step bundleHash) (∅, manifest) (m_modResources ml)
     else Ok manifest);
  let rs := bundle_of bundleHash (m_bundleResources ml) in
  manifest ← foldM bundle_pass_step manifest rs;
  Ok (mkLoader (m_mods ml) (m_addedBundles ml) (m_requiredFiles ml) (m_modResources ml)
        (m_handlerResources ml) (omap_insert bundleHash rs (m_bundleResources ml)), manifest).
End merge_bundle.

(** ** [MergeLayoutManifest] *)

Definition set_layout (m : LayoutManifest) (st : LayoutState) : LayoutState := mkState (ls_entries st) m.

(** First pass: new chunks and new bundles. *)
Definition new_chunk_step (st : gset (list byte) * LayoutManifest) (r : ModResource)
    : result (gset (list byte) * LayoutManifest) :=
  match mr_type r with
  | FrostyResourceType_Chunk =>
    if mr_resourceIndex r =? -1 then Ok st else
    if bool_decide (mr_name r ∈ st.1) then Ok st else
    let fileInfo := mkFile (rd_fbFile (mr_data r)) (u32 (rd_dataOffset (mr_data r))) (u32 (rd_size (mr_data r))) in
    Ok ({[mr_name r]} ∪ st.1, AddChunk (Guid_FromString (mr_name r)) fileInfo st.2)
  | FrostyResourceType_Bundle =>
    m ← AddBundle (HashQuickLower (c_str (mr_name r))) st.2; Ok (st.1, m)
  | _ => Ok st
  end.

(** Where the data of a resource lies. A chunk may give a range of it. *)
Definition resource_file (r : ModResource) : FileInfo :=
  let d := mr_data r in
  match mr_type r with
  | FrostyResourceType_Chunk =>
    mkFile (rd_fbFile d) (u32 (u32 (rd_dataOffset d) + rd_rangeStart d))
      (if rd_rangeStart d =? 0 then u32 (rd_size d) else u32 (rd_rangeEnd d - rd_rangeStart d))
  | _ => mkFile (rd_fbFile d) (u32 (rd_dataOffset d)) (u32 (rd_size d))
  end.

(** The hash a modified (resource, bundle) pair is remembered by. *)
Definition modification_id (r : ModResource) (bundleHash : Z) : Z :=
  HashQuickLower (bstr (pretty.pretty (mr_uniqueIdWithType r)) ++ [Byte.x5f] ++ bstr (pretty.pretty bundleHash)).

Section merge_layout.
Context (g : BundleMerger) (dupedHandlerSources : gmap Z (list byte)).

(** The bundles the game has an asset in, and its position there. *)
Definition vanilla_offsets (r : ModResource) : option (omap Z Z) :=
  match mr_type r with
  | FrostyResourceType_Ebx => ve_bundleFileOffsets <$> GetVanillaEbxEntry (mr_name r) g
  | FrostyResourceType_Res => vr_bundleFileOffsets <$> GetVanillaResEntry (mr_name r) g
  | FrostyResourceType_Chunk => vc_bundleFileOffsets <$> GetVanillaChunkEntry (mr_name r) g
  | _ => None
  end.

(** Second pass: replace the data of assets where the game has them. *)
Definition modify_offset_step (r : ModResource) (st : gset Z * LayoutManifest) (entry : Z * Z)
    : result (gset Z * LayoutManifest) :=
  if ContainsBundle (u32 entry.1) r then Ok st else
  let unique := modification_id r entry.1 in
  if bool_decide (unique ∈ st.1) then Ok st else
  m ← SetFileInfo (u32 entry.1) (i32 entry.2) (resource_file r) st.2;
  Ok ({[unique]} ∪ st.1, m).

Definition modify_pass_step (st : gset Z * LayoutManifest) (r : ModResource) : result (gset Z * LayoutManifest) :=
  if (mr_resourceIndex r =? -1) || negb (mr_handlerHash r =? 0) then Ok st else
  match vanilla_offsets r with
  | None => Ok st
  | Some offsets => foldM (modify_offset_step r) st offsets
  end.

(** Third pass: the resources of each bundle. Additions wait until the
    modifications of the bundle are done, whose positions are the game's. *)
Definition asset_type (t : FrostyResourceType) : option AssetType :=
  match t with
  | FrostyResourceType_Ebx => Some Ebx
  | FrostyResourceType_Res => Some Res
  | FrostyResourceType_Chunk => Some Chunk
  | _ => None
  end.

Definition data_step (bundleHash : Z) (r : ModResource) (st : list (AssetType * FileInfo) * LayoutManifest)
    : result (list (AssetType * FileInfo) * LayoutManifest) :=
  match asset_type (mr_type r) with
  | None => Ok st
  | Some t =>
    match vanilla_offsets r ≫= omap_find bundleHash with
    | Some index => m ← SetFileInfo bundleHash (i32 index) (resource_file r) st.2; Ok (st.1, m)
    | None => Ok (st.1 ++ [(t, resource_file r)], st.2)
    end
  end.

(** A missing ebx or res entry is reported as if a default were used, and then
    dereferenced. *)
Definition unchanged_step (r : ModResource) (st : list (AssetType * FileInfo) * LayoutManifest)
    : result (list (AssetType * FileInfo) * LayoutManifest) :=
  match mr_type r with
  | FrostyResourceType_Ebx =>
    e ← of_option Undefined (GetVanillaEbxEntry (source_name dupedHandlerSources r) g);
    Ok (st.1 ++ [(Ebx, ve_file e)], st.2)
  | FrostyResourceType_Res =>
    e ← of_option Undefined (GetVanillaResEntry (mr_name r) g);
    Ok (st.1 ++ [(Res, vr_file e)], st.2)
  | FrostyResourceType_Chunk =>
    match GetVanillaChunkEntry (mr_name r) g with
    | None => Ok st
    | Some e => Ok (st.1 ++ [(Chunk, vc_file e)], st.2)
    end
  | _ => Ok st
  end.

Definition layout_resource_step (bundleHash : Z) (st : list (AssetType * FileInfo) * LayoutManifest) (r : ModResource) :=
  if has_data r then data_step bundleHash r st else unchanged_step r st.

Definition add_file_step (added : gset Z) (bundleHash : Z) (st : LayoutState) (x : AssetType * FileInfo) :=
  AddFileToBundle added bundleHash x.2 x.1 st.

Definition layout_bundle_step (added : gset Z) (st : LayoutState) (entry : Z * list ModResource) : result LayoutState :=
  '(deferredFileAdds, m) ← foldM (layout_resource_step entry.1) ([], ls_layout st) entry.2;
  foldM (add_file_step added entry.1) (set_layout m st) deferredFileAdds.

(** The layout, and the merger's bundle entries, whose counts
    [AddFileToBundle] keeps. *)
Definition MergeLayoutManifest (ml : ModLoader) (st : LayoutState) : result LayoutState :=
  '(_, m) ← foldM new_chunk_step (∅, ls_layout st) (m_modResources ml);
  '(_, m) ← foldM modify_pass_step (∅, m) (m_modResources ml);
  foldM (layout_bundle_step (m_addedBundles ml)) (set_layout m st) (m_bundleResources ml).
End merge_layout.

(** ** Agreement of the two merges

    The assets of a manifest, as one type, and what identifies them: the name
    of an ebx, the id of a resource, the guid of a chunk. *)

Inductive asset := AEbx (e : EbxEntry) | ARes (e : ResEntry) | AChunk (e : ChunkEntry).
Inductive asset_key := KName (n : list byte) | KRid (rid : Z) | KGuid (guid : Guid).

#[export] Instance asset_key_eq_dec : EqDecision asset_key.
Proof. solve_decision. Defined.
#[export] Instance AssetType_eq_dec : EqDecision AssetType.
Proof. solve_decision. Defined.

Definition asset_kind (a : asset) : AssetType :=
  match a with AEbx _ => Ebx | ARes _ => Res | AChunk _ => Chunk end.
Definition akey (a : asset) : asset_key :=
  match a with
  | AEbx e => KName (ebx_name e) | ARes e => KRid (res_resRid e) | AChunk e => KGuid (chunk_guid e)
  end.

Definition column (t : AssetType) (m : BundleManifest) : list asset :=
  match t with
  | Ebx => AEbx <$> m_ebxEntries m | Res => ARes <$> m_resEntries m | Chunk => AChunk <$> m_chunkEntries m
  end.
Definition region (t : AssetType) (r : regions) : list FileInfo :=
  match t with Ebx => rg_ebx r | Res => rg_res r | Chunk => rg_chunks r end.

(** The position of the first entry with a key. *)
Definition key_index (k : asset_key) (l : list asset) : option nat := fst <$> list_find (fun x => akey x = k) l.

Definition upsert (allowModify : bool) (a : asset) (l : list asset) : list asset :=
  match (if allowModify then key_index (akey a) l else None) with
  | Some i => <[i := a]> l
  | None => l ++ [a]
  end.

Lemma key_index_cons k x l :
  key_index k (x :: l) = if decide (akey x = k) then Some 0%nat else S <$> key_index k l.
Proof.
  unfold key_index. cbn [list_find]. destruct (decide (akey x = k)); [done|].
  by destruct (list_find _ l) as [[]|].
Qed.

Lemma key_index_app k l1 l2 :
  key_index k (l1 ++ l2) = match key_index k l1 with
    | Some i => Some i | None => (fun i => (length l1 + i)%nat) <$> key_index k l2 end.
Proof.
  induction l1 as [|x l1 IH]; [cbn [app]; by destruct (key_index k l2)|]. cbn [app]. rewrite !key_index_cons, IH.
  destruct (decide (akey x = k)); [done|]. destruct (key_index k l1); [done|]. by destruct (key_index k l2).
Qed.

Lemma key_index_Some k l i : key_index k l = Some i -> exists a, l !! i = Some a /\ akey a = k.
Proof.
  unfold key_index. intros ([j a] & (H & Hk & _)%list_find_Some & ->)%fmap_Some. by exists a.
Qed.

(** Replacing an entry by one of the same key moves no other key. *)
Lemma key_index_insert k i a x l :
  l !! i = Some x -> akey x <> k -> akey a <> k -> key_index k (<[i := a]> l) = key_index k l.
Proof.
  intros Hx Hxk Hak. revert i Hx. induction l as [|y l IH]; intros [|i] Hx; try done.
  - cbn in Hx. injection Hx as ->. change (<[0%nat := a]> (x :: l)) with (a :: l). by rewrite !key_index_cons, !decide_False.
  - cbn in Hx. change (<[S i := a]> (y :: l)) with (y :: <[i := a]> l). by rewrite !key_index_cons, IH.
Qed.

(** The search loops of the manifest are [upsert]s of its columns. *)
Lemma update_first_upsert {A} (c : A -> asset) (p : A -> bool) (f : A -> A) a y l :
  (forall x, p x = true <-> akey (c x) = akey a) -> (forall x, p x = true -> c (f x) = a) -> c y = a ->
  c <$> default (l ++ [y]) (update_first p f l) = upsert true a (c <$> l).
Proof.
  intros Hp Hf Hy. induction l as [|x l IH]; [cbn; by rewrite Hy|].
  unfold upsert in *. cbn [update_first fmap list_fmap]. rewrite key_index_cons.
  destruct (p x) eqn:E.
  - cbn [default]. rewrite decide_True by by apply Hp. cbn. by rewrite Hf.
  - rewrite decide_False by (intros H; apply Hp in H; congruence).
    fold (fmap (M:=list) c l) in *.
    destruct (update_first p f l) as [l'|], (key_index (akey a) (c <$> l)) as [i|]; cbn in *; by rewrite IH.
Qed.

(** *** What a resource adds *)

Section agreement.
Context (g : BundleMerger) (dup : gmap Z (list byte)).

Definition asset_of (r : ModResource) : option asset :=
  match mr_type r with
  | FrostyResourceType_Ebx =>
    Some (AEbx (mkEbx (c_str (mr_name r))
      (u32 (if has_data r then rd_originalSize (mr_data r) else
              match GetVanillaEbxEntry (source_name dup r) g with
              | None => 1000000 | Some e => i32 (ebx_originalSize (ve_entry e)) end))))
  | FrostyResourceType_Res =>
    if has_data r then Some (ARes (res_entry r)) else (fun e => ARes (vr_entry e)) <$> GetVanillaResEntry (mr_name r) g
  | FrostyResourceType_Chunk =>
    if has_data r then Some (AChunk (chunk_entry r))
    else (fun e => AChunk (mkChunk (Guid_FromString (mr_name r)) (chunk_logicalOffset (vc_entry e))
           (chunk_logicalSize (vc_entry e)))) <$> GetVanillaChunkEntry (mr_name r) g
  | _ => None
  end.

Definition file_of (r : ModResource) : option FileInfo :=
  if has_data r then Some (resource_file r) else
  match mr_type r with
  | FrostyResourceType_Ebx => ve_file <$> GetVanillaEbxEntry (source_name dup r) g
  | FrostyResourceType_Res => vr_file <$> GetVanillaResEntry (mr_name r) g
  | FrostyResourceType_Chunk => vc_file <$> GetVanillaChunkEntry (mr_name r) g
  | _ => None
  end.

Lemma AddEbxEntry_column name size allow m :
  let m' := (AddEbxEntry name size allow m).2 in
  m_meta m' = m_meta m /\ column Ebx m' = upsert allow (AEbx (mkEbx (c_str name) size)) (column Ebx m) /\
  column Res m' = column Res m /\ column Chunk m' = column Chunk m.
Proof.
  unfold AddEbxEntry. destruct allow; cbn [column].
  - rewrite <- (update_first_upsert AEbx (same_ebx name) (fun e => mkEbx (ebx_name e) size) _ (mkEbx (c_str name) size)).
    + by destruct (update_first _ _ _).
    + intros x. unfold same_ebx. rewrite bool_decide_eq_true. cbn. split; congruence.
    + intros x Hx. unfold same_ebx in Hx. apply bool_decide_eq_true in Hx. cbn. by rewrite Hx.
    + done.
  - cbn. unfold upsert. by rewrite fmap_app.
Qed.

Lemma AddResEntry_column e allow m :
  let m' := (AddResEntry e allow m).2 in
  m_meta m' = m_meta m /\ column Res m' = upsert allow (ARes e) (column Res m) /\
  column Ebx m' = column Ebx m /\ column Chunk m' = column Chunk m.
Proof.
  unfold AddResEntry. destruct allow; cbn [column].
  - rewrite <- (update_first_upsert ARes (fun x => res_resRid x =? res_resRid e) (fun _ => e) _ e).
    + by destruct (update_first _ _ _).
    + intros x. rewrite Z.eqb_eq. cbn. split; congruence.
    + done.
    + done.
  - cbn. unfold upsert. by rewrite fmap_app.
Qed.

Lemma add_chunk_meta_columns existing h32 firstMip m m' :
  add_chunk_meta existing h32 firstMip m = Ok m' -> forall t, column t m' = column t m.
Proof.
  unfold add_chunk_meta. destruct (h32 =? 0); [by intros [= ->]|]. cbn zeta.
  intros (v & _ & (l & _ & H)%result_bind_ok)%result_bind_ok t.
  assert (Hm : column t (match m_meta m with Some _ => m | None => set_meta (Some (DbList [])) m end) = column t m)
    by (destruct (m_meta m); by destruct t).
  rewrite <- Hm. set (m1 := match m_meta m with Some _ => m | None => _ end) in *. clearbody m1.
  destruct existing.
  - apply result_bind_ok in H as (i & _ & [= <-]). destruct (i =? -1); by destruct t.
  - injection H as <-. by destruct t.
Qed.

Lemma AddChunkEntry_column e h32 firstMip allow m :
  meta_ok m ->
  exists r m', AddChunkEntry e h32 firstMip true allow m = Ok (r, m') /\ meta_ok m' /\
    column Chunk m' = upsert allow (AChunk e) (column Chunk m) /\
    column Ebx m' = column Ebx m /\ column Res m' = column Res m.
Proof.
  intros Hm. unfold AddChunkEntry.
  assert (Hup : AChunk <$> default (m_chunkEntries m ++ [e])
      (if allow then update_first (fun x => Guid_Equals (chunk_guid x) (chunk_guid e)) (fun _ => e) (m_chunkEntries m) else None)
    = upsert allow (AChunk e) (column Chunk m)).
  { destruct allow; [|unfold upsert; cbn; by rewrite fmap_app].
    apply update_first_upsert; try done. intros x. unfold Guid_Equals. rewrite bool_decide_eq_true. cbn. split; congruence. }
  destruct (if allow then _ else None) as [l|]; cbn [default] in Hup.
  - destruct (add_chunk_meta_existing h32 firstMip (set_chunks l m) Hm) as (m' & E & Hm' & _ & _).
    rewrite E. cbn [mbind result_bind]. eexists _, m'. split; [done|]. split; [done|].
    rewrite (add_chunk_meta_columns _ _ _ _ _ E Chunk), (add_chunk_meta_columns _ _ _ _ _ E Ebx),
      (add_chunk_meta_columns _ _ _ _ _ E Res). done.
  - destruct (add_chunk_meta_new h32 firstMip (set_chunks (m_chunkEntries m ++ [e]) m) Hm) as (m' & E & Hm' & _ & _).
    rewrite E. cbn [mbind result_bind]. eexists _, m'. split; [done|]. split; [done|].
    rewrite (add_chunk_meta_columns _ _ _ _ _ E Chunk), (add_chunk_meta_columns _ _ _ _ _ E Ebx),
      (add_chunk_meta_columns _ _ _ _ _ E Res). done.
Qed.

Definition upsert_opt (allow : bool) (o : option asset) (t : AssetType) (l : list asset) : list asset :=
  match o with
  | Some a => if decide (asset_kind a = t) then upsert allow a l else l
  | None => l
  end.

(** One step of the bundle pass, on the columns. *)
Lemma bundle_pass_step_column r m :
  meta_ok m ->
  exists m', bundle_pass_step g dup m r = Ok m' /\ meta_ok m' /\
    forall t, column t m' = upsert_opt (has_data r) (asset_of r) t (column t m).
Proof.
  intros Hm. unfold bundle_pass_step, add_data, add_unchanged, asset_of.
  assert (Hebx : forall name size allow, meta_ok (AddEbxEntry name size allow m).2 /\
    forall t, column t (AddEbxEntry name size allow m).2 =
      upsert_opt allow (Some (AEbx (mkEbx (c_str name) size))) t (column t m)).
  { intros name size allow. destruct (AddEbxEntry_column name size allow m) as (H1 & H2 & H3 & H4).
    split; [unfold meta_ok; by rewrite H1|]. by intros []. }
  assert (Hres : forall e allow, meta_ok (AddResEntry e allow m).2 /\
    forall t, column t (AddResEntry e allow m).2 = upsert_opt allow (Some (ARes e)) t (column t m)).
  { intros e allow. destruct (AddResEntry_column e allow m) as (H1 & H2 & H3 & H4).
    split; [unfold meta_ok; by rewrite H1|]. by intros []. }
  assert (Hchunk : forall e h32 firstMip allow, exists m', snd <$> AddChunkEntry e h32 firstMip true allow m = Ok m' /\
    meta_ok m' /\ forall t, column t m' = upsert_opt allow (Some (AChunk e)) t (column t m)).
  { intros e h32 firstMip allow. destruct (AddChunkEntry_column e h32 firstMip allow m Hm) as (x & m' & -> & H1 & H2 & H3 & H4).
    exists m'. split; [done|]. split; [done|]. by intros []. }
  destruct (has_data r), (mr_type r); try (exists m; by split);
    try (eexists; split; [reflexivity|]; first [apply Hebx|apply Hres]); try apply Hchunk.
  - destruct (GetVanillaResEntry (mr_name r) g); [eexists; split; [reflexivity|]; apply Hres|by exists m].
  - destruct (GetVanillaChunkEntry (mr_name r) g); [apply Hchunk|by exists m].
Qed.
End agreement.

(** *** A column of the manifest and its region of the layout

    [A] are the entries of one kind in the manifest, [F] the files at the game's
    positions and [E] the files waiting to be added; [A0] and [F0] are those at
    the start, [keys] the keys handled so far. *)
Record col_inv (t : AssetType) (keys : list asset_key) (seen : list (asset * FileInfo))
    (A : list asset) (F E : list FileInfo) (A0 : list asset) (F0 : list FileInfo) : Prop := {
  ci_len : length A = (length F + length E)%nat;
  ci_base : length F = length F0;
  ci_seen : forall a f, (a, f) ∈ seen -> akey a ∈ keys /\
    (asset_kind a = t -> exists i, A !! i = Some a /\ (F ++ E) !! i = Some f);
  ci_find : forall k, (k ∉ keys) -> key_index k A = key_index k A0;
  ci_keep : forall i a, A0 !! i = Some a -> (akey a ∉ keys) -> A !! i = Some a /\ F !! i = F0 !! i;
}.

Lemma col_inv_start t A F : length A = length F -> col_inv t [] [] A F [] A F.
Proof.
  intros Hl. split; try done.
  - cbn. lia.
  - by intros a f ?%elem_of_nil.
Qed.

(** An asset of another kind. *)
Lemma col_inv_skip t keys seen A F E A0 F0 a f :
  col_inv t keys seen A F E A0 F0 -> asset_kind a <> t ->
  col_inv t (akey a :: keys) ((a, f) :: seen) A F E A0 F0.
Proof.
  intros [H1 H2 H3 H4 H5] Ha. split; try done.
  - intros a' f' [[= -> ->]|Hin]%elem_of_cons; [split; [by left|done]|].
    destruct (H3 a' f' Hin). split; [by right|done].
  - intros k Hk. apply H4. set_solver.
  - intros i a' Hi Hk. apply H5; [done|set_solver].
Qed.

(** An asset the game has in the bundle. *)
Lemma col_inv_modify t keys seen A F E A0 F0 a f i :
  col_inv t keys seen A F E A0 F0 -> akey a ∉ keys ->
  key_index (akey a) A = Some i -> (i < length F)%nat ->
  col_inv t (akey a :: keys) ((a, f) :: seen) (<[i := a]> A) (<[i := f]> F) E A0 F0.
Proof.
  intros [H1 H2 H3 H4 H5] Ha Hi HF. apply key_index_Some in Hi as (x & Hx & Hkx).
  assert (Hother : forall j b, A !! j = Some b -> akey b <> akey a -> i <> j) by congruence.
  split; rewrite ?length_insert; try done.
  - intros a' f' [[= -> ->]|Hin]%elem_of_cons.
    + split; [by left|]. intros _. exists i. split; [apply list_lookup_insert_eq; by eapply lookup_lt_Some|].
      rewrite lookup_app_l by by rewrite length_insert. by apply list_lookup_insert_eq.
    + destruct (H3 a' f' Hin) as [Hk Hat]. split; [by right|]. intros Ht.
      destruct (Hat Ht) as (j & Hj & Hf). assert (i <> j) by (apply (Hother j a' Hj); congruence).
      exists j. rewrite list_lookup_insert_ne by done. split; [done|].
      rewrite <- insert_app_l by done. by rewrite list_lookup_insert_ne.
  - intros k Hk. rewrite <- H4 by set_solver. apply (key_index_insert k i a x); [done|set_solver..].
  - intros j b Hj Hb. destruct (H5 j b Hj) as [HA HF0]; [set_solver|].
    assert (i <> j) by (apply (Hother j b HA); set_solver). by rewrite !list_lookup_insert_ne.
Qed.

(** An asset that is new in the bundle. *)
Lemma col_inv_append t keys seen A F E A0 F0 a f :
  col_inv t keys seen A F E A0 F0 -> akey a ∉ keys ->
  col_inv t (akey a :: keys) ((a, f) :: seen) (A ++ [a]) F (E ++ [f]) A0 F0.
Proof.
  intros [H1 H2 H3 H4 H5] Ha. split; rewrite ?length_app; cbn [length]; try lia.
  - intros a' f' [[= -> ->]|Hin]%elem_of_cons.
    + split; [by left|]. intros _. exists (length A). split; [by apply list_lookup_middle|].
      rewrite app_assoc. apply list_lookup_middle. rewrite length_app. lia.
    + destruct (H3 a' f' Hin) as [Hk Hat]. split; [by right|]. intros Ht.
      destruct (Hat Ht) as (j & Hj & Hf). exists j. rewrite app_assoc. split; by apply lookup_app_l_Some.
  - intros k Hk. rewrite key_index_app, key_index_cons, decide_False by set_solver.
    rewrite H4 by set_solver. by destruct (key_index k A0).
  - intros j b Hj Hb. destruct (H5 j b Hj) as [HA HF0]; [set_solver|].
    split; [by apply lookup_app_l_Some|done].
Qed.

(** *** A bundle of the layout *)

(** Where a region starts. *)
Definition slot_start (t : AssetType) (r : regions) : nat :=
  match t with
  | Ebx => 1 | Res => 1 + length (rg_ebx r) | Chunk => 1 + length (rg_ebx r) + length (rg_res r)
  end.

Definition region_set (t : AssetType) (i : nat) (f : FileInfo) (r : regions) : regions :=
  match t with
  | Ebx => mkRegions (rg_head r) (<[i := f]> (rg_ebx r)) (rg_res r) (rg_chunks r)
  | Res => mkRegions (rg_head r) (rg_ebx r) (<[i := f]> (rg_res r)) (rg_chunks r)
  | Chunk => mkRegions (rg_head r) (rg_ebx r) (rg_res r) (<[i := f]> (rg_chunks r))
  end.

Lemma region_region_set t t' i f r :
  region t' (region_set t i f r) = if decide (t = t') then <[i := f]> (region t r) else region t' r.
Proof. by destruct t, t'. Qed.

Lemma region_regions_add t t' f r :
  region t' (regions_add t f r) = if decide (t = t') then region t r ++ [f] else region t' r.
Proof. by destruct t, t'. Qed.

Lemma regions_files_set t i f r :
  (i < length (region t r))%nat ->
  (slot_start t r + i < length (regions_files r))%nat /\
  <[(slot_start t r + i)%nat := f]> (regions_files r) = regions_files (region_set t i f r).
Proof.
  intros Hi. unfold regions_files. destruct r as [hd e s c], t; cbn [region slot_start region_set rg_head rg_ebx rg_res rg_chunks] in *;
    cbn [length]; rewrite !length_app; (split; [lia|]);
    rewrite <- ?Nat.add_assoc; cbn [Nat.add]; change (<[S ?n := f]> (hd :: ?l)) with (hd :: <[n := f]> l).
  - by rewrite insert_app_l.
  - by rewrite insert_app_r, insert_app_l.
  - by rewrite !insert_app_r.
Qed.

(** The bundle [h] of a layout has the regions [r]. *)
Definition layout_has (h : Z) (r : regions) (m : LayoutManifest) : Prop :=
  exists b, omap_find h (m_bundleInfo m) = Some b /\ bi_hash b = h /\ bi_files b = regions_files r.

Lemma SetFileInfo_region h t i f r m :
  layout_has h r m -> (i < length (region t r))%nat ->
  exists m', SetFileInfo h (Z.of_nat (slot_start t r + i)) f m = Ok m' /\ layout_has h (region_set t i f r) m'.
Proof.
  intros (b & Hb & Hh & Hf) Hi. destruct (regions_files_set t i f r Hi) as [Hlt Hset].
  unfold SetFileInfo. rewrite Hb, Hf, Nat2Z.id, Hset.
  destruct (Z.leb_spec 0 (Z.of_nat (slot_start t r + i))), (Z.ltb_spec (Z.of_nat (slot_start t r + i)) (len (regions_files r))); try lia.
  eexists. split; [done|]. eexists. split; [apply omap_find_insert_eq|done].
Qed.

(** The files that wait for a region. *)
Definition waiting (t : AssetType) (l : list (AssetType * FileInfo)) : list FileInfo :=
  snd <$> filter (fun x => x.1 = t) l.

Lemma waiting_app t l t' f : waiting t (l ++ [(t', f)]) = if decide (t' = t) then waiting t l ++ [f] else waiting t l.
Proof.
  unfold waiting. rewrite list.filter_app, fmap_app, filter_cons, filter_nil. cbn [fst].
  destruct (decide (t' = t)); [done|by rewrite app_nil_r].
Qed.

Definition state_has (h : Z) (r : regions) (st : LayoutState) : Prop :=
  exists b, omap_find h (m_bundleInfo (ls_layout st)) = Some b /\ bi_hash b = h /\ aligned (entry_of st h) (bi_files b) r.

(** The bundle can take [n] more files. *)
Definition room (added : gset Z) (h : Z) (n : Z) (e : BundleEntry) (r : regions) : Prop :=
  len (regions_files r) + n < kMaxFiles /\
  (h ∈ added \/ (be_hash e = h /\ be_ebxCount e + n <= 200000 /\ be_resCount e + n <= 2000000 /\ be_chunkCount e + n <= 2000000)).

Lemma regions_files_length r :
  length (regions_files r) = (1 + length (rg_ebx r) + length (rg_res r) + length (rg_chunks r))%nat.
Proof. unfold regions_files. cbn [length]. rewrite !length_app. lia. Qed.

Lemma room_mono added h n n' e r r' :
  room added h n e r -> length (regions_files r') = length (regions_files r) -> n' <= n -> room added h n' e r'.
Proof.
  intros [R1 R2] Hr Hn. split; [lia|]. destruct R2 as [?|(?&?&?&?)]; [by left|right]. split_and!; try done; lia.
Qed.

Lemma add_files_regions added h l st r :
  state_has h r st -> room added h (len l) (entry_of st h) r ->
  exists st', foldM (add_file_step added h) st l = Ok st' /\
    state_has h (foldl (fun r x => regions_add x.1 x.2 r) r l) st'.
Proof.
  revert st r. induction l as [|[t f] l IH]; intros st r Hst Hroom; [by exists st|].
  destruct Hst as (b & Hb & Hh & Hal), Hroom as [Hsize Hacc]. cbn [length] in *.
  assert (Hcounts := al_files _ _ _ Hal).
  destruct (AddFileToBundle_accepted added h f t st b r Hb Hh Hal) as (files & E & Hal').
  { rewrite Hcounts. lia. }
  { unfold accepts. destruct Hacc as [Hin|(He & H1 & H2 & H3)]; [by rewrite bool_decide_eq_true_2|].
    rewrite He, Z.eqb_refl. unfold vanilla_limits. apply orb_true_intro. right.
    rewrite (proj2 (Z.leb_le _ _)), (proj2 (Z.leb_le _ _)), (proj2 (Z.leb_le _ _)) by lia. done. }
  cbn [foldM foldl]. unfold add_file_step at 1. cbn [fst snd]. rewrite E.
  set (st1 := mkState _ _).
  assert (He1 : entry_of st1 h = (file_slot t (entry_of st h)).2).
  { unfold entry_of at 1. cbn [ls_entries st1]. by rewrite lookup_insert_eq. }
  apply IH.
  - eexists. split; [cbn; apply omap_find_insert_eq|]. split; [done|]. by rewrite He1.
  - rewrite He1. pose proof (al_ebx _ _ _ Hal). pose proof (al_res _ _ _ Hal). pose proof (al_chunks _ _ _ Hal).
    assert (Hn : len (regions_files (regions_add t f r)) = len (regions_files r) + 1).
    { unfold regions_files. destruct t; cbn; rewrite !length_app; cbn; lia. }
    assert (Hc : forall x, 0 <= x <= len (regions_files r) -> u32 (x + 1) = x + 1).
    { intros x Hx. apply uwrap_small. unfold kMaxFiles in Hsize. unfold urange. lia. }
    assert (Hle : len (rg_ebx r) + len (rg_res r) + len (rg_chunks r) <= len (regions_files r))
      by (unfold regions_files; cbn; rewrite !length_app; lia).
    split; [lia|]. destruct Hacc as [Hin|(He & Ha1 & Ha2 & Ha3)]; [by left|right].
    destruct t; cbn; rewrite Hc by lia; split_and!; try done; lia.
Qed.

Lemma regions_add_all t r l : region t (foldl (fun r x => regions_add x.1 x.2 r) r l) = region t r ++ waiting t l.
Proof.
  revert r. induction l as [|[t' f] l IH]; intros r; cbn [foldl]; [by rewrite app_nil_r|].
  rewrite IH, region_regions_add. unfold waiting. rewrite filter_cons. cbn [fst snd].
  destruct (decide (t' = t)) as [->|]; [|done]. by rewrite <- app_assoc.
Qed.

(** *** The two passes over the resources of one bundle *)

Section one_bundle.
Context (g : BundleMerger) (dup : gmap Z (list byte)) (h : Z).
Context (m0 : BundleManifest) (rg0 : regions).

(** The aggregation file describes the bundle the game loads: it gives an
    asset's position in the bundle exactly when the manifest has the asset. *)
Definition described (r : ModResource) : Prop :=
  forall a, asset_of g dup r = Some a -> has_data r = true ->
    vanilla_offsets g r ≫= omap_find h =
      (fun i => Z.of_nat (slot_start (asset_kind a) rg0 + i)) <$> key_index (akey a) (column (asset_kind a) m0).

(** An unchanged ebx or res asset is one the game has. *)
Definition sourced (r : ModResource) : Prop :=
  has_data r = false ->
  (mr_type r = FrostyResourceType_Ebx -> is_Some (GetVanillaEbxEntry (source_name dup r) g)) /\
  (mr_type r = FrostyResourceType_Res -> is_Some (GetVanillaResEntry (mr_name r) g)).

Definition assets (rs : list ModResource) : list asset := mjoin ((fun r => option_list (asset_of g dup r)) <$> rs).

Lemma layout_resource_step_asset r D m :
  sourced r ->
  match asset_of g dup r with
  | None => layout_resource_step g dup h (D, m) r = Ok (D, m)
  | Some a => exists f, file_of g dup r = Some f /\ layout_resource_step g dup h (D, m) r =
      match (if has_data r then vanilla_offsets g r ≫= omap_find h else None) with
      | Some index => m' ← SetFileInfo h (i32 index) f m; Ok (D, m')
      | None => Ok (D ++ [(asset_kind a, f)], m)
      end
  end.
Proof.
  intros Hs. unfold sourced in Hs. unfold layout_resource_step, asset_of, file_of, data_step, unchanged_step.
  destruct (has_data r), (mr_type r) eqn:Ht; cbn [asset_type]; try done;
    try (eexists; split; [reflexivity|]; by destruct (vanilla_offsets g r ≫= omap_find h)).
  - destruct (Hs eq_refl) as [[e ->] _]; [done|]. cbn. by eexists.
  - destruct (Hs eq_refl) as [_ [e ->]]; [done|]. cbn. by eexists.
  - destruct (GetVanillaChunkEntry (mr_name r) g); [cbn; by eexists|done].
Qed.

Lemma slot_start_base t rg keys seen A E A0 :
  (forall t, col_inv t keys seen (A t) (region t rg) (E t) (A0 t) (region t rg0)) ->
  slot_start t rg = slot_start t rg0.
Proof.
  intros H. pose proof (ci_base _ _ _ _ _ _ _ _ (H Ebx)) as H1. pose proof (ci_base _ _ _ _ _ _ _ _ (H Res)) as H2.
  destruct t; cbn in *; congruence.
Qed.

Record merged (rs : list ModResource) (keys : list asset_key) (seen : list (asset * FileInfo))
    (m : BundleManifest) (D : list (AssetType * FileInfo)) (l : LayoutManifest) (rg : regions) : Prop := {
  mg_meta : meta_ok m;
  mg_layout : layout_has h rg l;
  mg_cols : forall t, col_inv t keys seen (column t m) (region t rg) (waiting t D) (column t m0) (region t rg0);
  mg_keys : forall k, k ∈ keys <-> k ∈ akey <$> assets rs;
  mg_seen : forall r a f, r ∈ rs -> asset_of g dup r = Some a -> file_of g dup r = Some f -> (a, f) ∈ seen;
  mg_waiting : len D <= len rs;
}.

Lemma assets_snoc rs r : assets (rs ++ [r]) = assets rs ++ option_list (asset_of g dup r).
Proof. unfold assets. rewrite fmap_app, join_app. cbn. by rewrite app_nil_r. Qed.

Lemma merged_step_asset rs r a f keys seen m D l rg m' D' l' rg' :
  merged rs keys seen m D l rg -> asset_of g dup r = Some a -> file_of g dup r = Some f ->
  meta_ok m' -> layout_has h rg' l' -> len D' <= len D + 1 ->
  (forall t, col_inv t (akey a :: keys) ((a, f) :: seen) (column t m') (region t rg') (waiting t D') (column t m0) (region t rg0)) ->
  merged (rs ++ [r]) (akey a :: keys) ((a, f) :: seen) m' D' l' rg'.
Proof.
  intros [H1 H2 H3 H4 H5 H6] Ha Hf Hm Hl HD Hcol. split; try done.
  - intros k. rewrite assets_snoc, Ha, elem_of_cons, H4. cbn [option_list]. rewrite fmap_app, elem_of_app. cbn.
    rewrite list_elem_of_singleton. tauto.
  - intros r' a' f' [Hin| ->%list_elem_of_singleton]%elem_of_app Ha' Hf'; [right; by eapply H5|].
    rewrite Ha in Ha'. rewrite Hf in Hf'. injection Ha' as <-. injection Hf' as <-. by left.
  - rewrite length_app. cbn [length]. lia.
Qed.

Context (Hlen : forall t, length (column t m0) = length (region t rg0)).
Context (Hsmall : len (regions_files rg0) < 2 ^ 31).

(** An asset the game has in the bundle. *)
Lemma merged_step_modify rs r a f i keys seen m m' D l rg :
  merged rs keys seen m D l rg -> asset_of g dup r = Some a -> file_of g dup r = Some f -> (akey a ∉ keys) ->
  key_index (akey a) (column (asset_kind a) m) = Some i -> meta_ok m' ->
  (forall t, column t m' = if decide (asset_kind a = t) then <[i := a]> (column t m) else column t m) ->
  exists l' rg', SetFileInfo h (i32 (Z.of_nat (slot_start (asset_kind a) rg0 + i))) f l = Ok l' /\
    merged (rs ++ [r]) (akey a :: keys) ((a, f) :: seen) m' D l' rg'.
Proof.
  intros Hm Ha Hf Hnew Hi Hmeta Hcol. set (t := asset_kind a) in *. pose proof (mg_cols _ _ _ _ _ _ _ Hm) as Hcols.
  pose proof Hi as Hi0. rewrite (ci_find _ _ _ _ _ _ _ _ (Hcols t) _ Hnew) in Hi0.
  assert (Hlt : (i < length (region t rg))%nat).
  { rewrite (ci_base _ _ _ _ _ _ _ _ (Hcols t)), <- Hlen. apply key_index_Some in Hi0 as (x & Hx & _). by eapply lookup_lt_Some. }
  rewrite <- (slot_start_base t rg _ _ (fun t => column t m) (fun t => waiting t D) _ Hcols).
  destruct (SetFileInfo_region h t i f rg l (mg_layout _ _ _ _ _ _ _ Hm) Hlt) as (l' & E & Hl').
  assert (Hlens : length (regions_files rg) = length (regions_files rg0)).
  { pose proof (ci_base _ _ _ _ _ _ _ _ (Hcols Ebx)). pose proof (ci_base _ _ _ _ _ _ _ _ (Hcols Res)).
    pose proof (ci_base _ _ _ _ _ _ _ _ (Hcols Chunk)). unfold regions_files. cbn in *. rewrite !length_app. lia. }
  destruct (regions_files_set t i f rg Hlt) as [Hslot _].
  exists l', (region_set t i f rg). split.
  { rewrite swrap_small; [exact E|lia|unfold srange; lia]. }
  apply (merged_step_asset rs r a f keys seen m D l rg); try done; [lia|].
  intros t'. rewrite Hcol, region_region_set. subst t. destruct (decide (asset_kind a = t')) as [<-|Hne].
  - by apply col_inv_modify.
  - by apply col_inv_skip.
Qed.

Lemma merged_step_append rs r a f keys seen m m' D l rg :
  merged rs keys seen m D l rg -> asset_of g dup r = Some a -> file_of g dup r = Some f -> (akey a ∉ keys) -> meta_ok m' ->
  (forall t, column t m' = if decide (asset_kind a = t) then column t m ++ [a] else column t m) ->
  merged (rs ++ [r]) (akey a :: keys) ((a, f) :: seen) m' (D ++ [(asset_kind a, f)]) l rg.
Proof.
  intros Hm Ha Hf Hnew Hmeta Hcol. apply (merged_step_asset rs r a f keys seen m D l rg); try done.
  - by destruct Hm.
  - rewrite length_app. cbn. lia.
  - pose proof (mg_cols _ _ _ _ _ _ _ Hm) as Hcols. intros t'. rewrite Hcol, waiting_app.
    destruct (decide (asset_kind a = t')) as [<-|Hne]; [by apply col_inv_append|by apply col_inv_skip].
Qed.

Lemma merged_step rs r keys seen m D l rg :
  described r -> sourced r -> NoDup (akey <$> assets (rs ++ [r])) ->
  merged rs keys seen m D l rg ->
  exists keys' seen' m' D' l' rg', bundle_pass_step g dup m r = Ok m' /\
    layout_resource_step g dup h (D, l) r = Ok (D', l') /\ merged (rs ++ [r]) keys' seen' m' D' l' rg'.
Proof.
  intros Hd Hs Hnd Hm. destruct (bundle_pass_step_column g dup r m (mg_meta _ _ _ _ _ _ _ Hm)) as (m' & E & Hmeta & Hcol).
  pose proof (layout_resource_step_asset r D l Hs) as Hstep. rewrite assets_snoc in Hnd. rewrite E.
  destruct (asset_of g dup r) as [a|] eqn:Ha; cbn [option_list upsert_opt] in *.
  2: { exists keys, seen, m', D, l, rg. split; [done|]. split; [done|]. destruct Hm as [H1 H2 H3 H4 H5 H6].
    split; try done.
    - intros t. by rewrite Hcol.
    - intros k. by rewrite assets_snoc, Ha, app_nil_r.
    - intros r' a f [Hin| ->%list_elem_of_singleton]%elem_of_app Ha' Hf; [by eapply H5|congruence].
    - rewrite length_app. cbn [length]. lia. }
  destruct Hstep as (f & Hf & ->).
  assert (Hnew : akey a ∉ keys).
  { intros Hin. rewrite (mg_keys _ _ _ _ _ _ _ Hm) in Hin. rewrite fmap_app in Hnd.
    apply list.NoDup_app in Hnd as (_ & Hdis & _). apply (Hdis _ Hin). cbn. by left. }
  pose proof (ci_find _ _ _ _ _ _ _ _ (mg_cols _ _ _ _ _ _ _ Hm (asset_kind a)) _ Hnew) as Hfind.
  destruct (has_data r) eqn:Hdata; [rewrite (Hd a Ha Hdata), <- Hfind|].
  - unfold upsert in Hcol. destruct (key_index (akey a) (column (asset_kind a) m)) as [i|] eqn:Hi; cbn [fmap option_fmap option_map].
    + destruct (merged_step_modify rs r a f i keys seen m m' D l rg) as (l' & rg' & -> & Hm'); try done.
      { intros t. rewrite Hcol. destruct (decide (asset_kind a = t)) as [<-|]; [by rewrite Hi|done]. }
      eexists _, _, m', D, l', rg'. split; [done|]. by split.
    + eexists _, _, m', _, l, rg. split; [done|]. split; [done|]. apply (merged_step_append rs r a f keys seen m m' D l rg); try done.
      intros t. rewrite Hcol. destruct (decide (asset_kind a = t)) as [<-|]; [by rewrite Hi|done].
  - eexists _, _, m', _, l, rg. split; [done|]. split; [done|]. by apply (merged_step_append rs r a f keys seen m m' D l rg).
Qed.

Lemma merged_all rs l :
  meta_ok m0 -> layout_has h rg0 l ->
  Forall described rs -> Forall sourced rs -> NoDup (akey <$> assets rs) ->
  exists keys seen m D l' rg, foldM (bundle_pass_step g dup) m0 rs = Ok m /\
    foldM (layout_resource_step g dup h) ([], l) rs = Ok (D, l') /\ merged rs keys seen m D l' rg.
Proof.
  intros Hmeta Hl Hd Hs Hnd. induction rs as [|r rs IH] using rev_ind.
  - exists [], [], m0, [], l, rg0. split; [done|]. split; [done|]. split; try done.
    + intros t. apply col_inv_start, Hlen.
    + intros r a f Hr%elem_of_nil. done.
  - apply Forall_app in Hd as [Hd Hdr]. apply Forall_app in Hs as [Hs Hsr].
    apply list.Forall_cons in Hdr as [Hdr _]. apply list.Forall_cons in Hsr as [Hsr _].
    assert (Hnd' : NoDup (akey <$> assets rs)).
    { rewrite assets_snoc, fmap_app in Hnd. by apply list.NoDup_app in Hnd as [Hnd _]. }
    destruct (IH Hd Hs Hnd') as (keys & seen & m & D & l' & rg & E1 & E2 & Hm).
    destruct (merged_step rs r keys seen m D l' rg Hdr Hsr Hnd Hm) as (keys' & seen' & m' & D' & l'' & rg' & F1 & F2 & Hm').
    exists keys', seen', m', D', l'', rg'. rewrite !foldM_app, E1, E2. cbn [mbind result_bind foldM]. by rewrite F1, F2.
Qed.
End one_bundle.

(** C1: The two merges agree on a bundle. Let the layout have as many files for the
    bundle as the manifest has entries, and let the aggregation file describe
    the bundle. Then for resources that each bring an asset of their own both
    merges succeed, and again every entry of the manifest has its file: the one
    of the mod's asset for the entries the mods add or replace, and the old one
    for the others. *)
Theorem merges_agree g dup added h m0 rg0 st rs :
  state_has h rg0 st -> meta_ok m0 -> (forall t, length (column t m0) = length (region t rg0)) ->
  len (regions_files rg0) < 2 ^ 31 -> room added h (len rs) (entry_of st h) rg0 ->
  Forall (described g dup h m0 rg0) rs -> Forall (sourced g dup) rs -> NoDup (akey <$> assets g dup rs) ->
  exists m st' rg, foldM (bundle_pass_step g dup) m0 rs = Ok m /\
    layout_bundle_step g dup added st (h, rs) = Ok st' /\ state_has h rg st' /\
    (forall t, length (column t m) = length (region t rg)) /\
    (forall r a, r ∈ rs -> asset_of g dup r = Some a ->
       exists i f, column (asset_kind a) m !! i = Some a /\ region (asset_kind a) rg !! i = Some f /\
         file_of g dup r = Some f) /\
    (forall t i a, column t m0 !! i = Some a -> (akey a ∉ akey <$> assets g dup rs) ->
       column t m !! i = Some a /\ region t rg !! i = region t rg0 !! i).
Proof.
  intros (b & Hb & Hh & Hal) Hmeta Hlen Hsmall Hroom Hd Hs Hnd.
  assert (Hl : layout_has h rg0 (ls_layout st)) by (exists b; split; [done|]; split; [done|]; apply Hal).
  destruct (merged_all g dup h m0 rg0 Hlen Hsmall rs _ Hmeta Hl Hd Hs Hnd) as (keys & seen & m & D & l' & rg & E1 & E2 & Hm).
  pose proof (mg_cols _ _ _ _ _ _ _ _ _ _ _ _ Hm) as Hcols.
  destruct (mg_layout _ _ _ _ _ _ _ _ _ _ _ _ Hm) as (b' & Hb' & Hh' & Hf').
  pose proof (ci_base _ _ _ _ _ _ _ _ (Hcols Ebx)) as B1. pose proof (ci_base _ _ _ _ _ _ _ _ (Hcols Res)) as B2.
  pose proof (ci_base _ _ _ _ _ _ _ _ (Hcols Chunk)) as B3. cbn [region] in B1, B2, B3.
  assert (Hst : state_has h rg (set_layout l' st)).
  { exists b'. split; [done|]. split; [done|]. destruct Hal as [_ A1 A2 A3]. unfold entry_of, set_layout in *. cbn [ls_entries].
    split; [done|..]; lia. }
  assert (Hroom' : room added h (len D) (entry_of (set_layout l' st) h) rg).
  { apply (room_mono added h (len rs) (len D) (entry_of st h) rg0 rg Hroom);
      [by rewrite !regions_files_length, B1, B2, B3|apply (mg_waiting _ _ _ _ _ _ _ _ _ _ _ _ Hm)]. }
  destruct (add_files_regions added h D _ rg Hst Hroom') as (st' & E3 & Hst').
  eexists m, st', _. split; [done|]. split.
  { unfold layout_bundle_step. cbn [fst snd]. rewrite E2. exact E3. }
  split; [exact Hst'|]. split_and!.
  - intros t. rewrite regions_add_all, length_app. apply (ci_len _ _ _ _ _ _ _ _ (Hcols t)).
  - intros r a Hr Ha.
    pose proof (layout_resource_step_asset g dup h r [] l' (proj1 (list.Forall_forall _ _) Hs r Hr)) as Hx.
    rewrite Ha in Hx. destruct Hx as (f & Hf & _).
    destruct (ci_seen _ _ _ _ _ _ _ _ (Hcols (asset_kind a)) a f (mg_seen _ _ _ _ _ _ _ _ _ _ _ _ Hm r a f Hr Ha Hf)) as [_ Hat].
    destruct (Hat eq_refl) as (i & Hi & Hfi). exists i, f. by rewrite regions_add_all.
  - intros t i a Hi Ha. rewrite <- (mg_keys _ _ _ _ _ _ _ _ _ _ _ _ Hm) in Ha.
    destruct (ci_keep _ _ _ _ _ _ _ _ (Hcols t) i a Hi Ha) as [HA HF]. split; [done|].
    rewrite regions_add_all. rewrite <- HF. apply lookup_app_l.
    rewrite (ci_base _ _ _ _ _ _ _ _ (Hcols t)), <- Hlen. by eapply lookup_lt_Some.
Qed.

(** An unchanged ebx that the game does not have: the bundle merge adds it with
    a default size of 1000000, the layout merge reports the same default and
    then reads through the null pointer. *)
Theorem unchanged_ebx_missing g dup h r m st :
  mr_type r = FrostyResourceType_Ebx -> has_data r = false -> GetVanillaEbxEntry (source_name dup r) g = None ->
  bundle_pass_step g dup m r = Ok (AddEbxEntry (mr_name r) 1000000 false m).2 /\
  layout_resource_step g dup h st r = Fault Undefined.
Proof.
  intros Ht Hd Hg. unfold bundle_pass_step, layout_resource_step, add_unchanged, unchanged_step.
  by rewrite Hd, Ht, Hg.
Qed.

(** *** A bundle of one ebx and one resource *)

Definition sample_head : FileInfo := mkFile 0x1001 0 0.
Definition sample_file_a : FileInfo := mkFile 0x1001 100 10.
Definition sample_file_r : FileInfo := mkFile 0x1001 200 20.
Definition sample_meta16 : list byte := replicate 16 Byte.x00.

Definition sample_merger : BundleMerger :=
  mkMerger [] (<[7 := mkBundle 7 1 1 0 [sample_head; sample_file_a; sample_file_r]]> ∅)
    [(bstr "a", mkVEbx (mkEbx (bstr "a") 15) sample_file_a [(7, 1)])]
    [(bstr "r", mkVRes (mkRes (bstr "r") 25 9 sample_meta16 55) sample_file_r [(7, 2)])] [].

Definition merge_sample_manifest : BundleManifest :=
  mkManifest (mkHeader 0 0 0 0 0 0 0) [mkEbx (bstr "a") 15] [mkRes (bstr "r") 25 9 sample_meta16 55] [] None [].

Definition merge_sample_regions : regions := mkRegions sample_head [sample_file_a] [sample_file_r] [].

Definition merge_sample_state : LayoutState :=
  mkState (m_bundleEntries sample_merger)
    (mkLayout [] [(7, mkBundleInfo 7 [sample_head; sample_file_a; sample_file_r] 0 0)] [] []).

Definition mod_resource (t : FrostyResourceType) (name : list byte) (size offset rid : Z) : ModResource :=
  mkResource t name [7] 0 0 false (bstr "mod") 0
    (mkData size (size + 5) None 0x1009 offset 9 rid sample_meta16 0 0 0 0 0 0) (unique_id t name).

Definition merge_sample_resources : list ModResource :=
  [mod_resource FrostyResourceType_Ebx (bstr "b") 30 0 0; mod_resource FrostyResourceType_Ebx (bstr "a") 40 30 0;
   mod_resource FrostyResourceType_Res (bstr "r") 50 70 55].

Lemma merge_sample_state_has : state_has 7 merge_sample_regions merge_sample_state.
Proof. eexists. split; [reflexivity|]. split; [reflexivity|]. by split. Qed.

Lemma merge_sample_room : room ∅ 7 3 (entry_of merge_sample_state 7) merge_sample_regions.
Proof. split; [reflexivity|]. right. change (entry_of merge_sample_state 7) with (mkBundle 7 1 1 0 [sample_head; sample_file_a; sample_file_r]). cbn. lia. Qed.

Lemma merge_sample_described :
  Forall (described sample_merger ∅ 7 merge_sample_manifest merge_sample_regions) merge_sample_resources.
Proof.
  repeat constructor; intros a Ha _; vm_compute in Ha; injection Ha as <-; vm_compute; reflexivity.
Qed.

Lemma merges_agree_witness :
  exists m st' rg, foldM (bundle_pass_step sample_merger ∅) merge_sample_manifest merge_sample_resources = Ok m /\
    layout_bundle_step sample_merger ∅ ∅ merge_sample_state (7, merge_sample_resources) = Ok st' /\
    state_has 7 rg st' /\ (forall t, length (column t m) = length (region t rg)).
Proof.
  destruct (merges_agree sample_merger ∅ ∅ 7 merge_sample_manifest merge_sample_regions merge_sample_state merge_sample_resources)
    as (m & st' & rg & H1 & H2 & H3 & H4 & _).
  - exact merge_sample_state_has.
  - exact I.
  - intros t. destruct t; reflexivity.
  - reflexivity.
  - exact merge_sample_room.
  - exact merge_sample_described.
  - apply list.Forall_forall. intros r Hr Hd. apply list_elem_of_In in Hr. destruct Hr as [<-|[<-|[<-|[]]]]; discriminate Hd.
  - apply (bool_decide_unpack _). vm_compute. exact I.
  - exists m, st', rg. split; [exact H1|]. split; [exact H2|]. split; [exact H3|exact H4].
Defined.

Lemma unchanged_ebx_missing_witness :
  let r := mkResource FrostyResourceType_Ebx (bstr "z") [7] 0 (-1) false (bstr "mod") 0
    (mkData 0 0 None 0 0 0 0 [] 0 0 0 0 0 0) 1 in
  bundle_pass_step sample_merger ∅ merge_sample_manifest r
    = Ok (AddEbxEntry (bstr "z") 1000000 false merge_sample_manifest).2 /\
  layout_resource_step sample_merger ∅ 7 ([], ls_layout merge_sample_state) r = Fault Undefined.
Proof.
  exact (unchanged_ebx_missing sample_merger ∅ 7 (mkResource FrostyResourceType_Ebx (bstr "z") [7] 0 (-1) false (bstr "mod") 0
    (mkData 0 0 None 0 0 0 0 [] 0 0 0 0 0 0) 1) merge_sample_manifest _ eq_refl eq_refl eq_refl).
Defined.

(** A mod that replaces a resource of the game and gives it another id: the
    manifest, which looks for the id, gets a second entry; the layout, which
    looks for the name, replaces the file of the first, and has no file for the
    second. *)
Theorem res_id_change_disagrees :
  exists m st' rg, let r := mod_resource FrostyResourceType_Res (bstr "r") 50 70 56 in
    foldM (bundle_pass_step sample_merger ∅) merge_sample_manifest [r] = Ok m /\
    layout_bundle_step sample_merger ∅ ∅ merge_sample_state (7, [r]) = Ok st' /\ state_has 7 rg st' /\
    length (column Res m) = 2%nat /\ length (region Res rg) = 1%nat.
Proof.
  eexists _, _, (mkRegions sample_head [sample_file_a] [mkFile 0x1009 70 50] []). cbv zeta.
  split; [vm_compute; reflexivity|]. split; [vm_compute; reflexivity|].
  split; [eexists; split; [reflexivity|]; split; [reflexivity|]; by split|]. by split.
Qed.
