(* ===== verification/ManifestHooks.v ===== *)
(** The hooks that pass merged manifests to the game (BundleMerger.cpp,
    ManifestMerger.cpp), and the cas files the game is told to load. *)

From stdpp Require pretty.
From S2P Require Import Prelude OrdMap ByteBuffer StringUtils Guid DbObject Endian BundleManifest.
From S2P Require Import BundleMerger LayoutManifest ModResources ModMerge.

(** ** The bundle manifest *)

(** The arguments of the game's loader: the memory from [buffer] on, and the size. *)
Record ManifestLoadCall := mkLoadCall { lc_inst : Z; lc_buffer : list byte; lc_manifestSize : Z; lc_magicSalt : Z }.

Section bundle_hook.
Context {S : Type}.

(** [merger] is the function the mod loader set, if it did; the result is the
    call of the game's own function. [Load] takes the size as 32 bits and reads
    so many bytes. *)
Definition BundleManifestLoadHk (merger : option (S -> BundleManifest -> result (S * BundleManifest)))
    (call : ManifestLoadCall) (st : S) : result (S * ManifestLoadCall) :=
  match merger with
  | None => Ok (st, call)
  | Some merge =>
    let size := u32 (lc_manifestSize call) in
    if len (lc_buffer call) <? size then Fault Undefined else
    manifest ← BundleManifest_Load (take (Z.to_nat size) (lc_buffer call)) manifest_new;
    merged ← merge st manifest;
    modified ← BundleManifest_Save merged.2;
    let manifestSize := len modified in
    Ok (merged.1, mkLoadCall (lc_inst call) modified manifestSize (lc_magicSalt call))
  end.
End bundle_hook.

(** ** The layout manifest *)

(** The data and size fields of the game's buffer. *)
Record ManifestBuf := mkBuf { mb_data : list byte; mb_size : Z }.

Section layout_hook.
Context (dims : NativeDims).

(** What the game's function sees, and the merger's entries afterwards; the
    buffer and its size are put back. *)
Definition ProcessManifestHk (merger : option (LayoutState -> result LayoutState)) (buf : ManifestBuf)
    (entries : gmap Z BundleEntry) : result (ManifestBuf * ManifestBuf * gmap Z BundleEntry) :=
  match merger with
  | None => Ok (buf, buf, entries)
  | Some merge =>
    loaded ← load_native dims (mb_data buf) entries LayoutManifest_new;
    st ← merge (mkState loaded.1 loaded.2);
    modified ← LayoutManifest_Save (ls_layout st);
    Ok (mkBuf modified (u32 (len modified)), buf, ls_entries st)
  end.
End layout_hook.

(** ** The files the game loads *)

(** [std::setw(2) << std::setfill('0')] *)
Definition pad2 (n : Z) : list byte :=
  let digits := bstr (pretty.pretty n) in replicate (2 - length digits) Byte.x30 ++ digits.

Definition cas_path (g : BundleMerger) (file : Z) : result (list byte) :=
  let catalogIndex := Z.shiftr file 12 - 1 in
  let isInPatch := negb (Z.land file 0x100 =? 0) in
  let casIndex := Z.land file 0xFF + 1 in
  catalog ← GetCatalog catalogIndex g;
  Ok (bstr "/native_data/" ++ (if isInPatch then bstr "Patch/" else bstr "Data/") ++
      c_str catalog ++ bstr "/cas_" ++ pad2 casIndex ++ bstr ".cas").

(** The calls of [LoadFile], in order: the set of required files is ordered. *)
Definition LoadCatEntriesHk (g : BundleMerger) (ml : ModLoader) : result (list (Z * list byte)) :=
  files ← mapM (fun file => path ← cas_path g file; Ok (file, path)) (merge_sort Z.le (elements (m_requiredFiles ml)));
  Ok (files ++ ((fun m => (km_fbFile m, km_path m)) <$> m_mods ml)).

(** ** What the game reads *)

(** C19: The game reads the merged manifest: if the manifest lies at the start of
    the buffer at the size the hook is told, whatever follows it, and the merge
    turns it into one that can be saved, the game's function is called with the
    bytes of the merged manifest and with exactly their number as the size, the
    other arguments unchanged, and these bytes load as the entries and metadata
    of the merged manifest. *)
Theorem BundleManifestLoadHk_merged g dup name ml m ml' merged inst rest salt :
  manifest_wf m ->
  MergeBundleManifest g dup name ml
    (mkManifest (saved_header m) (m_ebxEntries m) (m_resEntries m) (m_chunkEntries m) (m_meta m) []) = Ok (ml', merged) ->
  manifest_wf merged ->
  exists call, BundleManifestLoadHk (Some (MergeBundleManifest g dup name))
      (mkLoadCall inst (manifest_bytes m ++ rest) (len (manifest_bytes m)) salt) ml = Ok (ml', call) /\
    lc_inst call = inst /\ lc_magicSalt call = salt /\
    lc_manifestSize call = len (manifest_bytes merged) /\ len (lc_buffer call) = lc_manifestSize call /\
    BundleManifest_Load (lc_buffer call) manifest_new =
      Ok (mkManifest (saved_header merged) (m_ebxEntries merged) (m_resEntries merged) (m_chunkEntries merged) (m_meta merged) []).
Proof.
  intros Hm Hmerge Hmerged. exists (mkLoadCall inst (manifest_bytes merged) (len (manifest_bytes merged)) salt).
  split; [|split_and!; try done; by apply BundleManifest_Load_bytes].
  unfold BundleManifestLoadHk. cbn [lc_manifestSize lc_buffer lc_inst lc_magicSalt].
  rewrite uwrap_small by (pose proof (wf_size m Hm) as Hs; unfold small in Hs; unfold urange; lia).
  destruct (Z.ltb_spec (len (manifest_bytes m ++ rest)) (len (manifest_bytes m))) as [Hlt|_]; [rewrite length_app in Hlt; lia|].
  rewrite Nat2Z.id, take_app_length, BundleManifest_Load_bytes by done. cbn [mbind result_bind].
  rewrite Hmerge. cbn [mbind result_bind fst snd]. by rewrite BundleManifest_Save_bytes.
Qed.

Lemma BundleManifestLoadHk_merged_witness :
  exists call, BundleManifestLoadHk (Some (MergeBundleManifest sample_merger ∅ (bstr "x")))
      (mkLoadCall 1 (manifest_bytes sample_manifest ++ [Byte.x00]) (len (manifest_bytes sample_manifest)) 2) ModLoader_new
    = Ok (mkLoader [] ∅ ∅ [] ∅ [(bundle_hash (bstr "x"), [])], call) /\ len (lc_buffer call) = lc_manifestSize call.
Proof.
  destruct (BundleManifestLoadHk_merged sample_merger ∅ (bstr "x") ModLoader_new sample_manifest
    (mkLoader [] ∅ ∅ [] ∅ [(bundle_hash (bstr "x"), [])])
    (mkManifest (saved_header sample_manifest) (m_ebxEntries sample_manifest) (m_resEntries sample_manifest)
       (m_chunkEntries sample_manifest) (m_meta sample_manifest) []) 1 [Byte.x00] 2) as (call & H & _ & _ & _ & Hlen & _).
  - exact sample_manifest_wf.
  - reflexivity.
  - destruct sample_manifest_wf. split; assumption.
  - exists call. split; [exact H|exact Hlen].
Defined.

(** ** File names *)

Definition file_number (catalog : Z) (patch : bool) (cas : Z) : Z := (catalog + 1) * 4096 + (if patch then 256 else 0) + cas.

Lemma file_number_fields catalog patch cas :
  0 <= catalog -> 0 <= cas < 256 ->
  let f := file_number catalog patch cas in
  Z.shiftr f 12 - 1 = catalog /\ negb (Z.land f 0x100 =? 0) = patch /\ Z.land f 0xFF = cas.
Proof.
  intros Hc Hk f. subst f. unfold file_number. set (p := if patch then 256 else 0).
  assert (Hp : 0 <= p <= 256) by (subst p; destruct patch; lia). split_and!.
  - rewrite Z.shiftr_div_pow2 by lia. change (2 ^ 12) with 4096.
    rewrite <- Z.add_assoc, Z.div_add_l, (Z.div_small (p + cas)) by lia. lia.
  - assert (Hbit : Z.testbit ((catalog + 1) * 4096 + p + cas) 8 = patch).
    { change 8 with (0 + 8). rewrite <- Z.div_pow2_bits by lia. change (2 ^ 8) with 256.
      assert (Hq : ((catalog + 1) * 4096 + p + cas) / 256 = 2 * ((catalog + 1) * 8) + Z.b2z patch).
      { subst p. symmetry. apply (Z.div_unique _ _ _ cas); [lia|]. destruct patch; cbn [Z.b2z]; lia. }
      rewrite Hq. apply Z.testbit_0_r. }
    assert (Hl : Z.land ((catalog + 1) * 4096 + p + cas) 0x100 = if patch then 256 else 0).
    { apply Z.bits_inj'. intros i Hi. rewrite Z.land_spec. change 0x100 with (2 ^ 8). rewrite Z.pow2_bits_eqb by lia.
      destruct (Z.eqb_spec 8 i) as [<-|Hne]; [rewrite Hbit; by destruct patch|rewrite andb_false_r].
      destruct patch; [|by rewrite Z.bits_0]. change 256 with (2 ^ 8). by rewrite Z.pow2_bits_false by lia. }
    rewrite Hl. by destruct patch.
  - change 0xFF with (Z.ones 8). rewrite Z.land_ones by lia. change (2 ^ 8) with 256.
    replace ((catalog + 1) * 4096 + p + cas) with (cas + ((catalog + 1) * 16 + Z.b2z patch) * 256) by (subst p; destruct patch; cbn [Z.b2z]; lia).
    rewrite Z_mod_plus_full. by apply Z.mod_small.
Qed.

Lemma NoDup_fmap_inj_on {A B} (f : A -> B) l x y : NoDup (f <$> l) -> x ∈ l -> y ∈ l -> f x = f y -> x = y.
Proof.
  intros Hnd [i Hi]%list_elem_of_lookup [j Hj]%list_elem_of_lookup Hxy.
  assert (i = j) as ->; [|congruence].
  eapply NoDup_lookup; [done|by rewrite list_lookup_fmap, Hi|by rewrite list_lookup_fmap, Hj, Hxy].
Qed.

Lemma pad2_inj a b : 1 <= a <= 256 -> 1 <= b <= 256 -> pad2 a = pad2 b -> a = b.
Proof.
  intros Ha Hb. apply (NoDup_fmap_inj_on pad2 (seqZ 1 256)).
  - apply (bool_decide_unpack _). vm_compute. exact I.
  - apply elem_of_seqZ. lia.
  - apply elem_of_seqZ. lia.
Qed.

Definition slash : byte := Byte.x2f.

Lemma pad2_no_slash a : 1 <= a <= 256 -> slash ∉ pad2 a.
Proof.
  intros Ha. assert (H : Forall (fun a => slash ∉ pad2 a) (seqZ 1 256)).
  { apply (bool_decide_unpack _). vm_compute. exact I. }
  rewrite list.Forall_forall in H. apply H. apply elem_of_seqZ. lia.
Qed.

(** The part after the last slash is determined. *)
Lemma last_slash (a b t u : list byte) :
  (slash ∉ t) -> (slash ∉ u) -> a ++ slash :: t = b ++ slash :: u -> a = b /\ t = u.
Proof.
  assert (Hin : forall k (l : list byte), slash ∈ k ++ slash :: l) by (intros k l; apply elem_of_app; right; by left).
  intros Ht Hu H. apply app_eq_inv in H as [(k & -> & Hk)|(k & -> & Hk)];
    (destruct k as [|c k]; cbn in Hk; [injection Hk as ->; by rewrite app_nil_r|injection Hk as _ ->]).
  - destruct Hu. apply Hin.
  - destruct Ht. apply Hin.
Qed.

(** Different cas files are loaded from different paths, as long as the
    catalogues have different names. *)
Theorem cas_path_inj g c1 p1 k1 c2 p2 k2 path :
  NoDup (c_str <$> m_catalogs g) -> 0 <= c1 < 2 ^ 19 -> 0 <= c2 < 2 ^ 19 -> 0 <= k1 < 256 -> 0 <= k2 < 256 ->
  cas_path g (file_number c1 p1 k1) = Ok path -> cas_path g (file_number c2 p2 k2) = Ok path ->
  c1 = c2 /\ p1 = p2 /\ k1 = k2.
Proof.
  intros Hnd Hc1 Hc2 Hk1 Hk2. unfold cas_path.
  destruct (file_number_fields c1 p1 k1) as (-> & -> & ->); [lia..|].
  destruct (file_number_fields c2 p2 k2) as (-> & -> & ->); [lia..|].
  unfold GetCatalog. rewrite !uwrap_small by (unfold urange; lia).
  destruct (Z.ltb_spec c1 (GetCatalogCount g)), (Z.ltb_spec c2 (GetCatalogCount g)); try done.
  destruct (m_catalogs g !! Z.to_nat c1) as [n1|] eqn:E1; [|done]. destruct (m_catalogs g !! Z.to_nat c2) as [n2|] eqn:E2; [|done].
  cbn [of_option mbind result_bind]. intros [= <-] [= Hpath].
  assert (Hsplit : forall p n k, bstr "/native_data/" ++ (if p : bool then bstr "Patch/" else bstr "Data/") ++ c_str n ++ bstr "/cas_" ++ pad2 k ++ bstr ".cas"
    = (bstr "/native_data/" ++ (if p : bool then bstr "Patch/" else bstr "Data/") ++ c_str n) ++ slash :: bstr "cas_" ++ pad2 k ++ bstr ".cas").
  { intros p n k. by rewrite <- !app_assoc. }
  assert (Hno : forall k, 0 <= k < 256 -> slash ∉ bstr "cas_" ++ pad2 (k + 1) ++ bstr ".cas").
  { intros k Hk. rewrite !not_elem_of_app. split_and!; [|apply pad2_no_slash; lia|];
      apply (bool_decide_unpack _); vm_compute; exact I. }
  assert (Heq : (bstr "/native_data/" ++ (if p2 then bstr "Patch/" else bstr "Data/") ++ c_str n2) ++ slash :: bstr "cas_" ++ pad2 (k2 + 1) ++ bstr ".cas"
    = (bstr "/native_data/" ++ (if p1 then bstr "Patch/" else bstr "Data/") ++ c_str n1) ++ slash :: bstr "cas_" ++ pad2 (k1 + 1) ++ bstr ".cas").
  { rewrite <- !Hsplit. apply (f_equal (app (bstr "/native_data/"))) in Hpath. exact Hpath. }
  apply last_slash in Heq as [Ha Hb]; [|by apply Hno..].
  apply app_inv_head in Ha, Hb. apply app_inv_tail in Hb. apply pad2_inj in Hb; [|lia..].
  assert (p1 = p2 /\ c_str n1 = c_str n2) as [-> Hn].
  { destruct p1, p2; try done; apply app_inv_head in Ha; by split. }
  split; [|split; [done|lia]]. apply Z2Nat.inj; [lia..|].
  eapply NoDup_lookup; [exact Hnd|by rewrite list_lookup_fmap, E1|by rewrite list_lookup_fmap, E2, Hn].
Qed.

Definition sample_catalogs : BundleMerger := mkMerger [bstr "a"; bstr "b/c"] ∅ [] [] [].

Lemma cas_path_inj_witness :
  cas_path sample_catalogs (file_number 1 true 9) = Ok (bstr "/native_data/Patch/b/c/cas_10.cas") /\ 1 = 1 /\ true = true /\ 9 = 9.
Proof.
  split; [vm_compute; reflexivity|].
  apply (cas_path_inj sample_catalogs 1 true 9 1 true 9 (bstr "/native_data/Patch/b/c/cas_10.cas")); try lia.
  - apply (bool_decide_unpack _). vm_compute. exact I.
  - vm_compute. reflexivity.
  - vm_compute. reflexivity.
Defined.
