(* ===== verification/ResourceHooks.v ===== *)
(** The hooks into the game's resource manager (Source/ModLoader/ModLoader.cpp):
    reads of overridden chunks, the bundles that are being loaded, and the queue
    of assets whose handlers run once their references are resolved.

    What the hooked functions of the game do is a parameter. *)

From S2P Require Import Prelude OrdMap ByteBuffer StringUtils Guid DbObject Endian BundleManifest.
From S2P Require Import BundleMerger LayoutManifest ModResources.

(** ** Reads of overridden chunks *)

Module Chunks.
Record PendingChunk := mkPending {
  pc_handle : Z; pc_src : Z; pc_srcSize : Z; pc_dst : Z; pc_dstSize : Z; pc_dstOffset : Z }.

Record ModifiedChunk := mkModified { mc_guid : Guid; mc_data : Z; mc_size : Z }.

(** [s_pendingChunksMap], [s_modifiedChunksMap], and the memory the pointers
    point into. *)
Record ChunkState := mkChunks {
  s_pendingChunksMap : omap Z PendingChunk;
  s_modifiedChunksMap : omap Guid ModifiedChunk;
  cs_memory : gmap Z byte;
}.

(** [MemoryUtils::Patch]: [memcpy] with the page made writable. *)
Definition patch_byte (mem : gmap Z byte) (dst src : Z) (m : gmap Z byte) (i : Z) : result (gmap Z byte) :=
  match mem !! (src + i), m !! (dst + i) with
  | Some b, Some _ => Ok (<[dst + i := b]> m)
  | _, _ => Fault Undefined
  end.

Definition Patch (dst src size : Z) (mem : gmap Z byte) : result (gmap Z byte) :=
  foldM (patch_byte mem dst src) mem (seqZ 0 size).

Definition ModifyChunk (guid : Guid) (data size : Z) (st : ChunkState) : ChunkState :=
  mkChunks (s_pendingChunksMap st) (omap_insert guid (mkModified guid data size) (s_modifiedChunksMap st)) (cs_memory st).

(** [rand] is what [rand()] returns. The hook writes the id to [*handleId] and
    returns the handle; [None] stands for the call of the game's function. *)
Definition BeginChunkRead (rand : Z) (guid : Guid) (buffer size : Z) (st : ChunkState) : option (Z * Z * ChunkState) :=
  match omap_find guid (s_modifiedChunksMap st) with
  | None => None
  | Some chunk =>
    let handleId := rand mod 100000 in
    let pending := mkPending handleId (mc_data chunk) (mc_size chunk) buffer (u32 size) 0 in
    Some (handleId, Z.lor (Z.shiftl 2 56) (u64 handleId),
          mkChunks (omap_emplace handleId pending (s_pendingChunksMap st)) (s_modifiedChunksMap st) (cs_memory st))
  end.

(** The first pending chunk whose key equals the handle, compared as unsigned. *)
Definition find_pending (handle : Z) (st : ChunkState) : option (Z * PendingChunk) :=
  snd <$> list_find (fun kv => u64 kv.1 = handle) (s_pendingChunksMap st).

(** [PollChunkOperation] and its [Ex] variant: [None] stands for the game's answer. *)
Definition PollChunkOperation (handle : Z) (st : ChunkState) : option bool :=
  match find_pending handle st with Some _ => Some true | None => None end.

(** [EndChunkRead] and its [Ex] variant. *)
Definition EndChunkRead (handle : Z) (st : ChunkState) : option (result ChunkState) :=
  match find_pending handle st with
  | None => None
  | Some (key, p) =>
    Some (mem ← Patch (pc_dst p) (pc_src p) (Z.min (pc_dstSize p) (pc_srcSize p)) (cs_memory st);
          Ok (mkChunks (omap_delete key (s_pendingChunksMap st)) (s_modifiedChunksMap st) mem))
  end.

Section game.
(** The game's functions: the handle of a read, whether the n-th poll succeeds,
    and what ending the read does to the memory. *)
Context (game_begin : Guid -> Z -> Z -> Z) (game_poll : Z -> nat -> bool)
  (game_end : Z -> gmap Z byte -> gmap Z byte).

Fixpoint poll_loop (fuel n : nat) (handle : Z) (st : ChunkState) : result nat :=
  match fuel with
  | O => Fault OutOfFuel
  | S fuel =>
    if default (game_poll handle n) (PollChunkOperation handle st) then Ok n
    else poll_loop fuel (S n) handle st
  end.

Definition ReadChunkSync (fuel : nat) (rand : Z) (guid : Guid) (dstBuffer size : Z) (st : ChunkState) : result ChunkState :=
  let '(handle, st) :=
    match BeginChunkRead rand guid dstBuffer size st with
    | Some (_, handle, st) => (handle, st)
    | None => (game_begin guid dstBuffer size, st)
    end in
  _ ← poll_loop fuel 0 handle st;
  match EndChunkRead handle st with
  | Some r => r
  | None => Ok (mkChunks (s_pendingChunksMap st) (s_modifiedChunksMap st) (game_end handle (cs_memory st)))
  end.
End game.

(** *** Copying *)

Lemma Patch_spec dst src n mem :
  (forall i, 0 <= i < n -> is_Some (mem !! (src + i)) /\ is_Some (mem !! (dst + i))) ->
  exists mem', Patch dst src n mem = Ok mem' /\
    (forall i, 0 <= i < n -> mem' !! (dst + i) = mem !! (src + i)) /\
    (forall a, (a < dst \/ dst + n <= a) -> mem' !! a = mem !! a).
Proof.
  intros Hmap. unfold Patch.
  assert (H : forall k, (Z.of_nat k <= n) -> exists mem',
    foldM (patch_byte mem dst src) mem (seqZ 0 (Z.of_nat k)) = Ok mem' /\
    (forall i, 0 <= i < Z.of_nat k -> mem' !! (dst + i) = mem !! (src + i)) /\
    (forall a, (a < dst \/ dst + Z.of_nat k <= a) -> mem' !! a = mem !! a)).
  { induction k as [|k IH]; intros Hk.
    - exists mem. split; [done|]. split; [lia|done].
    - destruct IH as (m & E & H1 & H2); [lia|].
      replace (Z.of_nat (S k)) with (Z.of_nat k + 1) by lia. rewrite seqZ_app, foldM_app, E by lia.
      rewrite Z.add_0_l, seqZ_cons, seqZ_nil by lia. cbn [mbind result_bind foldM]. unfold patch_byte.
      destruct (Hmap (Z.of_nat k)) as [[b Hb] [c Hc]]; [lia|]. rewrite Hb, H2, Hc by lia.
      eexists. split; [done|]. split.
      + intros i Hi. destruct (decide (i = Z.of_nat k)) as [->|]; [by rewrite lookup_insert_eq|].
        rewrite lookup_insert_ne by lia. apply H1. lia.
      + intros a Ha. rewrite lookup_insert_ne by lia. apply H2. lia. }
  destruct (Z.le_ge_cases n 0) as [Hn|Hn].
  - exists mem. rewrite seqZ_nil by lia. split; [done|]. split; [lia|done].
  - destruct (H (Z.to_nat n)) as (m & E & H1 & H2); [lia|]. rewrite Z2Nat.id in * by lia. by exists m.
Qed.

(** Pending ids are the ones [BeginChunkRead] hands out. *)
Definition pending_wf (st : ChunkState) : Prop := Forall (fun kv => 0 <= kv.1 < 100000) (s_pendingChunksMap st).

Lemma find_pending_id key st :
  omap_wf (s_pendingChunksMap st) -> pending_wf st -> 0 <= key < 100000 ->
  find_pending key st = (fun p => (key, p)) <$> omap_find key (s_pendingChunksMap st).
Proof.
  intros Hwf Hall Hk. unfold find_pending, pending_wf in *. rewrite list.Forall_forall in Hall.
  destruct (omap_find key (s_pendingChunksMap st)) as [p|] eqn:E; cbn.
  - apply omap_find_elem in E. destruct (list_find_elem_of (fun kv => u64 kv.1 = key) _ (key, p) E) as [[i [k q]] Hf].
    { cbn. apply uwrap_small. unfold urange. lia. }
    rewrite Hf. cbn. apply list_find_Some in Hf as (Hi & Hq & _). apply list_elem_of_lookup_2 in Hi. cbn in Hq.
    specialize (Hall _ Hi). cbn in Hall. rewrite uwrap_small in Hq by (unfold urange; lia). subst k.
    apply (omap_elem_find _ _ _ Hwf) in Hi. apply (omap_elem_find _ _ _ Hwf) in E. congruence.
  - destruct (list_find _ _) as [[i [k q]]|] eqn:Hf; [|done]. cbn.
    apply list_find_Some in Hf as (Hi & Hq & _). apply list_elem_of_lookup_2 in Hi. cbn in Hq.
    specialize (Hall _ Hi). cbn in Hall. rewrite uwrap_small in Hq by (unfold urange; lia). subst k.
    by apply (omap_find_None _ _ E) in Hi.
Qed.

Lemma find_pending_handle key st :
  pending_wf st -> 0 <= key < 100000 -> find_pending (Z.lor (Z.shiftl 2 56) key) st = None.
Proof.
  intros Hall Hk. unfold find_pending, pending_wf in *. rewrite list.Forall_forall in Hall.
  destruct (list_find _ _) as [[i [k q]]|] eqn:Hf; [|done].
  apply list_find_Some in Hf as (Hi & Hq & _). apply list_elem_of_lookup_2 in Hi. cbn in Hq.
  specialize (Hall _ Hi). cbn in Hall. rewrite uwrap_small in Hq by (unfold urange; lia).
  change (Z.shiftl 2 56) with (2 ^ 57) in Hq. assert (H57 : Z.testbit (Z.lor (2 ^ 57) key) 57 = true).
  { rewrite Z.lor_spec, Z.pow2_bits_true by lia. done. }
  rewrite <- Hq in H57. rewrite Z.bits_above_log2 in H57; [done|lia|].
  destruct (Z.eq_dec k 0) as [->|]; [done|]. apply Z.log2_lt_pow2; lia.
Qed.

(** C25: A pending chunk ended by its id is copied, as much of it as fits the
    buffer, and is no longer pending. *)
Theorem EndChunkRead_copies st key p :
  omap_wf (s_pendingChunksMap st) -> pending_wf st -> omap_find key (s_pendingChunksMap st) = Some p ->
  let n := Z.min (pc_dstSize p) (pc_srcSize p) in
  (forall i, 0 <= i < n -> is_Some (cs_memory st !! (pc_src p + i)) /\ is_Some (cs_memory st !! (pc_dst p + i))) ->
  PollChunkOperation key st = Some true /\
  exists st', EndChunkRead key st = Some (Ok st') /\
    (forall i, 0 <= i < n -> cs_memory st' !! (pc_dst p + i) = cs_memory st !! (pc_src p + i)) /\
    (forall a, (a < pc_dst p \/ pc_dst p + n <= a) -> cs_memory st' !! a = cs_memory st !! a) /\
    omap_find key (s_pendingChunksMap st') = None /\ PollChunkOperation key st' = None.
Proof.
  intros Hwf Hall Hkey n Hmem.
  assert (Hk : 0 <= key < 100000).
  { unfold pending_wf in Hall. rewrite list.Forall_forall in Hall. apply omap_find_elem in Hkey. apply (Hall _ Hkey). }
  pose proof (find_pending_id key st Hwf Hall Hk) as Hfind. rewrite Hkey in Hfind. cbn in Hfind.
  unfold PollChunkOperation at 1, EndChunkRead. rewrite Hfind. split; [done|].
  destruct (Patch_spec (pc_dst p) (pc_src p) n (cs_memory st) Hmem) as (mem & E & H1 & H2). fold n. rewrite E. cbn.
  eexists. split; [done|]. split; [done|]. split; [done|]. cbn.
  assert (Hdel := omap_find_delete_eq key (s_pendingChunksMap st)). split; [done|].
  unfold PollChunkOperation. rewrite find_pending_id; [cbn; by rewrite Hdel|by apply omap_delete_wf| |done].
  unfold pending_wf in *. cbn. rewrite list.Forall_forall in *. intros kv Hin. apply elem_of_omap_delete in Hin as [Hin _]. by apply Hall.
Qed.

(** A handle that is not pending is polled until the game accepts it. *)
Lemma poll_loop_first game_poll k j n handle st :
  PollChunkOperation handle st = None ->
  game_poll handle k = true -> (forall n, (n < k)%nat -> game_poll handle n = false) ->
  (n + j = k)%nat -> poll_loop game_poll (S j) n handle st = Ok k.
Proof.
  intros Hpoll Hk Hlt. revert n. induction j as [|j IH]; intros n Hn.
  - assert (n = k) as -> by lia. unfold poll_loop. by rewrite Hpoll, Hk.
  - replace (poll_loop game_poll (S (S j)) n handle st) with
      (if default (game_poll handle n) (PollChunkOperation handle st) then Ok n
       else poll_loop game_poll (S j) (S n) handle st) by done.
    rewrite Hpoll. cbn [default]. rewrite Hlt by lia. apply IH. lia.
Qed.

(** But the handle [BeginChunkRead] returns is not that id: neither the poll nor
    the end of a synchronous read finds the pending chunk. Both are left to the
    game, the overriding data is never copied, and the read is over only when
    the game says so of a handle it did not give. *)
Theorem ReadChunkSync_modified_not_served game_begin game_poll game_end rand guid dst size st chunk :
  0 <= rand -> pending_wf st -> omap_find guid (s_modifiedChunksMap st) = Some chunk ->
  exists handle st',
    BeginChunkRead rand guid dst size st = Some (rand mod 100000, handle, st') /\ cs_memory st' = cs_memory st /\
    (forall fuel, (forall n, game_poll handle n = false) ->
       ReadChunkSync game_begin game_poll game_end fuel rand guid dst size st = Fault OutOfFuel) /\
    (forall k, game_poll handle k = true -> (forall n, (n < k)%nat -> game_poll handle n = false) ->
       ReadChunkSync game_begin game_poll game_end (S k) rand guid dst size st =
         Ok (mkChunks (s_pendingChunksMap st') (s_modifiedChunksMap st') (game_end handle (cs_memory st)))).
Proof.
  intros Hr Hall Hc. set (id := rand mod 100000). assert (Hid : 0 <= id < 100000) by (apply Z.mod_pos_bound; lia).
  set (p := mkPending id (mc_data chunk) (mc_size chunk) dst (u32 size) 0).
  set (st' := mkChunks (omap_emplace id p (s_pendingChunksMap st)) (s_modifiedChunksMap st) (cs_memory st)).
  assert (Hall' : pending_wf st').
  { unfold pending_wf in *. cbn. unfold omap_emplace. destruct (omap_find id (s_pendingChunksMap st)); [done|].
    rewrite list.Forall_forall in *. intros kv Hin. apply elem_of_omap_insert in Hin as [->|Hin]; [done|]. by apply Hall. }
  pose proof (find_pending_handle id st' Hall' Hid) as Hnone. set (h := Z.lor (Z.shiftl 2 56) id) in *.
  assert (Hb : BeginChunkRead rand guid dst size st = Some (id, h, st')).
  { unfold BeginChunkRead. rewrite Hc. fold id. rewrite (uwrap_small 64 id) by (unfold urange; lia). done. }
  assert (Hpoll : PollChunkOperation h st' = None) by (unfold PollChunkOperation; by rewrite Hnone).
  exists h, st'. split; [exact Hb|]. split; [done|]. unfold ReadChunkSync. rewrite Hb. split.
  - intros fuel Hg. enough (forall n, poll_loop game_poll fuel n h st' = Fault OutOfFuel) as -> by done.
    induction fuel as [|fuel IH]; intros n; [done|]. cbn [poll_loop]. rewrite Hpoll. cbn [default]. by rewrite Hg.
  - intros k Hk Hlt. unfold EndChunkRead. rewrite Hnone.
    by rewrite (poll_loop_first game_poll k k 0 h st' Hpoll Hk Hlt eq_refl).
Qed.

(** A chunk of four bytes overridden by two. *)
Definition sample_guid : Guid := replicate 16 Byte.xab.
Definition sample_chunks : ChunkState :=
  ModifyChunk sample_guid 100 2
    (mkChunks [(7, mkPending 7 100 2 200 4 0)] []
       (list_to_map [(100, Byte.x01); (101, Byte.x02); (200, Byte.x00); (201, Byte.x00); (202, Byte.x00); (203, Byte.x00)])).

Lemma sample_chunks_wf : omap_wf (s_pendingChunksMap sample_chunks) /\ pending_wf sample_chunks.
Proof. split; [apply omap_wf_cons; split; [constructor|]; by intros ? ? ?%elem_of_nil|]. constructor; [cbn; lia|constructor]. Qed.

Lemma EndChunkRead_copies_witness :
  exists st', EndChunkRead 7 sample_chunks = Some (Ok st') /\
    cs_memory st' !! 200 = Some Byte.x01 /\ cs_memory st' !! 202 = Some Byte.x00.
Proof.
  destruct (EndChunkRead_copies sample_chunks 7 (mkPending 7 100 2 200 4 0)) as (_ & st' & H1 & H2 & H3 & _).
  - apply sample_chunks_wf.
  - apply sample_chunks_wf.
  - reflexivity.
  - cbn. intros i Hi. assert (i = 0 \/ i = 1) as [-> | ->] by lia; split; eexists; reflexivity.
  - exists st'. split; [exact H1|]. split.
    + apply (H2 0). cbn. lia.
    + apply (H3 202). cbn. lia.
Defined.

Lemma ReadChunkSync_modified_not_served_witness :
  exists st', ReadChunkSync (fun _ _ _ => 0) (fun _ n => Nat.eqb n 3) (fun _ m => m) 4 41 sample_guid 200 4 sample_chunks = Ok st' /\
    cs_memory st' = cs_memory sample_chunks.
Proof.
  destruct (ReadChunkSync_modified_not_served (fun _ _ _ => 0) (fun _ n => Nat.eqb n 3) (fun _ m => m) 41 sample_guid 200 4
    sample_chunks (mkModified sample_guid 100 2)) as (h & st' & _ & _ & _ & H).
  - lia.
  - apply sample_chunks_wf.
  - reflexivity.
  - eexists. split; [apply (H 3%nat); [reflexivity|]|reflexivity].
    intros n Hn. apply Nat.eqb_neq. lia.
Defined.
End Chunks.

(** ** The bundles that are being loaded *)

Module Bundles.
Record Bundle := mkBundle { b_name : list byte; b_loaded : bool }.

(** The globals of the hooks; compartments are told apart by their address. *)
Record BundleState := mkBundles {
  initialized : bool;
  loadingBundleName : list byte;
  debugCompartments : omap Z (list Bundle);
  m_compartmentToBundleId : omap Z Z;
  m_domainLoadedPartitions : gmap Z (omap Guid Z);
}.

Definition BundleState_new : BundleState := mkBundles false [] [] [] ∅.

(** The hook of [onBeginBundle]: the flag says whether it calls
    [onResourceManagerInitialized]. *)
Definition OnBeginBundle (inst compartment : Z) (bundleName : list byte) (st : BundleState) : bool * BundleState :=
  let first := negb (initialized st) && bool_decide (bundleName = bstr "Systems/FrostbiteStartupData") in
  (first,
   mkBundles (initialized st || first) bundleName
     (omap_insert inst (default [] (omap_find inst (debugCompartments st)) ++ [mkBundle bundleName false]) (debugCompartments st))
     (omap_insert compartment (HashQuickLower (c_str (bstr "win32/" ++ bundleName))) (m_compartmentToBundleId st))
     (m_domainLoadedPartitions st)).

Definition set_loaded (b : Bundle) : Bundle := mkBundle (b_name b) true.

(** The hook of [resolveReferences] marks the bundles of every compartment. *)
Definition ResolveReferences (st : BundleState) : BundleState :=
  mkBundles (initialized st) (loadingBundleName st) 
    (fmap (M:=list) (fun kv : Z * list Bundle => (kv.1, set_loaded <$> kv.2)) (debugCompartments st))
    (m_compartmentToBundleId st) (m_domainLoadedPartitions st).

Definition EndClear (inst domain : Z) (st : BundleState) : BundleState :=
  mkBundles (initialized st) (loadingBundleName st) (omap_delete inst (debugCompartments st))
    (m_compartmentToBundleId st) (base.delete domain (m_domainLoadedPartitions st)).

Definition all_bundles (st : BundleState) : list Bundle := mjoin (fmap (M:=list) snd (debugCompartments st)).

Definition find_bundle (bundleName : list byte) (st : BundleState) : option Bundle :=
  snd <$> list_find (fun b => b_name b = bundleName) (all_bundles st).

Definition IsBundleLoaded (bundleName : list byte) (st : BundleState) : bool :=
  match find_bundle bundleName st with Some b => b_loaded b | None => false end.
Definition IsBundleLoading (bundleName : list byte) (st : BundleState) : bool :=
  match find_bundle bundleName st with Some _ => true | None => false end.
Definition AnyBundlesLoading (st : BundleState) : bool := existsb (fun b => negb (b_loaded b)) (all_bundles st).

(** *** Histories *)

Inductive event := Begin (inst compartment : Z) (name : list byte) | Resolve | Clear (inst domain : Z).

Definition step (st : BundleState) (e : event) : BundleState :=
  match e with
  | Begin inst c name => (OnBeginBundle inst c name st).2
  | Resolve => ResolveReferences st
  | Clear inst d => EndClear inst d st
  end.

Definition run (es : list event) : BundleState := foldl step BundleState_new es.

(** The bundle was begun in the compartment, and the compartment was not
    cleared since. *)
Definition live (inst : Z) (name : list byte) (es : list event) : Prop :=
  exists e1 c e2, es = e1 ++ Begin inst c name :: e2 /\ forall d, Clear inst d ∉ e2.

(** Nor were references resolved since. *)
Definition unresolved (inst : Z) (name : list byte) (es : list event) : Prop :=
  exists e1 c e2, es = e1 ++ Begin inst c name :: e2 /\ (Resolve ∉ e2) /\ forall d, Clear inst d ∉ e2.

Definition bundles_at (inst : Z) (st : BundleState) : list Bundle := default [] (omap_find inst (debugCompartments st)).

Lemma bundles_at_resolve inst st : bundles_at inst (ResolveReferences st) = set_loaded <$> bundles_at inst st.
Proof.
  unfold bundles_at, ResolveReferences. cbn. induction (debugCompartments st) as [|[k l] m IH]; [done|]. cbn.
  by destruct (key_compare inst k).
Qed.

Lemma bundles_at_begin inst inst' c name st :
  bundles_at inst (OnBeginBundle inst' c name st).2 =
    if decide (inst = inst') then bundles_at inst st ++ [mkBundle name false] else bundles_at inst st.
Proof.
  unfold bundles_at, OnBeginBundle. cbn. destruct (decide (inst = inst')) as [->|];
    [by rewrite omap_find_insert_eq|by rewrite omap_find_insert_ne].
Qed.

Lemma bundles_at_clear inst inst' d st :
  bundles_at inst (EndClear inst' d st) = if decide (inst = inst') then [] else bundles_at inst st.
Proof.
  unfold bundles_at, EndClear. cbn. destruct (decide (inst = inst')) as [->|];
    [by rewrite omap_find_delete_eq|by rewrite omap_find_delete_ne].
Qed.

Lemma debug_wf es : omap_wf (debugCompartments (run es)).
Proof.
  induction es as [|e es IH] using rev_ind; [constructor|]. unfold run in *. rewrite foldl_app. cbn [foldl step].
  destruct e as [i c n| |i d]; cbn.
  - by apply omap_insert_wf.
  - clear -IH. induction (debugCompartments (foldl step BundleState_new es)) as [|[k l] m IH']; [done|].
    apply omap_wf_cons in IH as [Hm Hall]. cbn. apply omap_wf_cons. split; [by apply IH'|].
    intros k' v' ([k2 v2] & [= -> ->] & Hin)%list_elem_of_fmap. by eapply Hall.
  - by apply omap_delete_wf.
Qed.

Lemma all_bundles_at es b : b ∈ all_bundles (run es) <-> exists inst, b ∈ bundles_at inst (run es).
Proof.
  pose proof (debug_wf es) as Hwf. unfold all_bundles, bundles_at. rewrite list_elem_of_join. split.
  - intros (l & Hb & ([k l'] & -> & Hin)%list_elem_of_fmap). exists k. by rewrite (omap_elem_find k l' _ Hwf Hin).
  - intros [inst Hb]. destruct (omap_find inst _) as [l|] eqn:E; cbn in Hb; [|by apply elem_of_nil in Hb].
    exists l. split; [done|]. apply list_elem_of_fmap. exists (inst, l). split; [done|]. by apply omap_find_elem.
Qed.

(** One more event, as seen by a past [Begin]. *)
Lemma history_snoc (Q : list event -> Prop) inst name es e :
  (forall l, Q (l ++ [e]) <-> Q l /\ Q [e]) ->
  (exists e1 c e2, es ++ [e] = e1 ++ Begin inst c name :: e2 /\ Q e2) <->
  ((exists c, e = Begin inst c name) /\ Q []) \/ ((exists e1 c e2, es = e1 ++ Begin inst c name :: e2 /\ Q e2) /\ Q [e]).
Proof.
  intros HQ. split.
  - intros (e1 & c & e2 & Heq & Hq). destruct e2 as [|x e2 _] using rev_ind.
    + apply app_inj_tail in Heq as [-> ->]. left. split; [by exists c|done].
    + rewrite app_comm_cons, app_assoc in Heq. apply app_inj_tail in Heq as [-> ->].
      apply HQ in Hq as [H1 H2]. right. split; [by exists e1, c, e2|done].
  - intros [[[c ->] Hq]|[(e1 & c & e2 & -> & Hq) He]].
    + by exists es, c, [].
    + exists e1, c, (e2 ++ [e]). rewrite app_comm_cons, app_assoc. split; [done|]. by apply HQ.
Qed.

Lemma live_snoc inst name es e :
  live inst name (es ++ [e]) <->
  (exists c, e = Begin inst c name) \/ (live inst name es /\ forall d, e <> Clear inst d).
Proof.
  unfold live. rewrite (history_snoc (fun l => forall d, Clear inst d ∉ l)).
  - split.
    + intros [[H1 H2]|[H1 H2]]; [by left|right]. split; [done|]. intros d. specialize (H2 d). set_solver.
    + intros [H1|[H1 H2]]; [left|right]; (split; [done|]); intros d; [set_solver|]. specialize (H2 d). set_solver.
  - intros l. split; [intros H; split; intros d; specialize (H d); set_solver|].
    intros [H1 H2] d. specialize (H1 d). specialize (H2 d). set_solver.
Qed.

Lemma unresolved_snoc inst name es e :
  unresolved inst name (es ++ [e]) <->
  (exists c, e = Begin inst c name) \/ (unresolved inst name es /\ e <> Resolve /\ forall d, e <> Clear inst d).
Proof.
  unfold unresolved. rewrite (history_snoc (fun l => (Resolve ∉ l) /\ forall d, Clear inst d ∉ l)).
  - split.
    + intros [[H1 H2]|[H1 [H2 H3]]]; [by left|right]. split; [done|]. split; [set_solver|]. intros d. specialize (H3 d). set_solver.
    + intros [H1|[H1 [H2 H3]]]; [left|right]; (split; [done|]); (split; [set_solver|]); intros d; [set_solver|]. specialize (H3 d). set_solver.
  - intros l. split.
    + intros [H1 H2]. split; (split; [set_solver|]); intros d; specialize (H2 d); set_solver.
    + intros [[H1 H2] [H3 H4]]. split; [set_solver|]. intros d. specialize (H2 d). specialize (H4 d). set_solver.
Qed.

(** References were resolved since. *)
Definition resolved (inst : Z) (name : list byte) (es : list event) : Prop :=
  exists e1 c e2, es = e1 ++ Begin inst c name :: e2 /\ (Resolve ∈ e2) /\ forall d, Clear inst d ∉ e2.

Lemma resolved_snoc inst name es e :
  resolved inst name (es ++ [e]) <->
  (live inst name es /\ e = Resolve) \/ (resolved inst name es /\ forall d, e <> Clear inst d).
Proof.
  split.
  - intros (e1 & c & e2 & Heq & Hr & Hc). destruct e2 as [|x e2 _] using rev_ind; [by apply elem_of_nil in Hr|].
    rewrite app_comm_cons, app_assoc in Heq. apply app_inj_tail in Heq as [-> ->].
    assert (Hc2 : forall d, Clear inst d ∉ e2) by (intros d; specialize (Hc d); set_solver).
    apply elem_of_app in Hr as [Hr|Hr%list_elem_of_singleton].
    + right. split; [by exists e1, c, e2|]. intros d. specialize (Hc d). set_solver.
    + left. split; [by exists e1, c, e2|done].
  - intros [[(e1 & c & e2 & -> & Hc) ->]|[(e1 & c & e2 & -> & Hr & Hc) He]].
    + exists e1, c, (e2 ++ [Resolve]). rewrite app_comm_cons, app_assoc. split; [done|]. split; [set_solver|].
      intros d. specialize (Hc d). set_solver.
    + exists e1, c, (e2 ++ [e]). rewrite app_comm_cons, app_assoc. split; [done|]. split; [set_solver|].
      intros d. specialize (Hc d). specialize (He d). set_solver.
Qed.

Lemma bundles_at_history inst name es :
  ((exists l, mkBundle name l ∈ bundles_at inst (run es)) <-> live inst name es) /\
  (mkBundle name false ∈ bundles_at inst (run es) <-> unresolved inst name es) /\
  (mkBundle name true ∈ bundles_at inst (run es) <-> resolved inst name es).
Proof.
  induction es as [|e es (IH1 & IH2 & IH3)] using rev_ind.
  - split_and!; split; try (by intros ([|] & ? & ? & ? & _)); [intros [l Hl]|intros Hl..]; by apply elem_of_nil in Hl.
  - rewrite live_snoc, unresolved_snoc, resolved_snoc, <- IH1, <- IH2, <- IH3. unfold run. rewrite foldl_app. cbn [foldl]. fold (run es).
    destruct e as [i c n| |i d]; cbn [step].
    + rewrite bundles_at_begin. destruct (decide (inst = i)) as [<-|Hi].
      * setoid_rewrite elem_of_app. setoid_rewrite list_elem_of_singleton. naive_solver.
      * naive_solver.
    + rewrite bundles_at_resolve. setoid_rewrite list_elem_of_fmap. split_and!; split.
      * intros (l & [n' l'] & [= -> ->] & Hin). right. split; [by exists l'|done].
      * intros [[c ?]|[[l Hl] _]]; [done|]. exists true, (mkBundle name l). by split.
      * intros ([n' l'] & [=] & _).
      * naive_solver.
      * intros ([n' l'] & [= ->] & Hin). left. split; [by exists l'|done].
      * intros [[[l Hl] _]|[Hl _]]; by eexists (mkBundle name _).
    + rewrite bundles_at_clear. destruct (decide (inst = i)) as [<-|Hi].
      * setoid_rewrite elem_of_nil. naive_solver.
      * naive_solver.
Qed.

Lemma find_bundle_known name st : is_Some (find_bundle name st) <-> exists l, mkBundle name l ∈ all_bundles st.
Proof.
  unfold find_bundle. rewrite fmap_is_Some. split.
  - intros [[i [n l]] (Hi & Hn & _)%list_find_Some]. cbn in Hn. subst n. exists l. by eapply list_elem_of_lookup_2.
  - intros [l Hl]. by apply (list_find_elem_of _ _ (mkBundle name l)).
Qed.

(** *** The bundle found for a name *)

Definition find_name (name : list byte) (l : list Bundle) : option Bundle := snd <$> list_find (fun b => b_name b = name) l.

Lemma find_name_app name l1 l2 : find_name name (l1 ++ l2) = match find_name name l1 with Some b => Some b | None => find_name name l2 end.
Proof.
  unfold find_name. destruct (list_find _ l1) as [[i b]|] eqn:E.
  - by erewrite list_find_app_l.
  - rewrite list_find_app_r by done. by destruct (list_find _ l2) as [[i b]|].
Qed.

Lemma find_name_None name l : find_name name l = None <-> forall v, mkBundle name v ∉ l.
Proof.
  unfold find_name. rewrite fmap_None, list_find_None, list.Forall_forall. split.
  - intros H v Hin. by apply (H _ Hin).
  - intros H [n v] Hin Hn. cbn in Hn. subst n. by apply (H v).
Qed.

(** The compartments are walked by their addresses. *)
Lemma find_name_first name (m : omap Z (list Bundle)) b :
  omap_wf m -> find_name name (mjoin (fmap (M:=list) snd m)) = Some b <->
  exists k l, omap_find k m = Some l /\ find_name name l = Some b /\
    forall k' v, k' < k -> mkBundle name v ∉ default [] (omap_find k' m).
Proof.
  induction m as [|[k0 l0] m IH]; intros Hwf; [split; [done|intros (k & l & ? & _); done]|].
  apply omap_wf_cons in Hwf as [Hm Hall]. specialize (IH Hm). cbn [fmap list_fmap mjoin list_join snd].
  assert (Habove : forall k l, omap_find k m = Some l -> k0 < k).
  { intros k l Hf%omap_find_elem. apply Z.compare_lt_iff. by apply (Hall k l). }
  assert (Hfind : forall k, omap_find k ((k0, l0) :: m) = if decide (k = k0) then Some l0 else omap_find k m).
  { intros k. cbn. destruct (decide (k = k0)) as [->|Hne]; [by rewrite key_compare_refl|].
    by destruct (key_compare k k0) eqn:E; [apply key_compare_eq in E|..]. }
  rewrite find_name_app. destruct (find_name name l0) as [b0|] eqn:E0.
  - split.
    + intros [= <-]. exists k0, l0. rewrite Hfind, decide_True by done. split; [done|]. split; [done|].
      intros k' v Hk. rewrite Hfind, decide_False by lia.
      destruct (omap_find k' m) as [l'|] eqn:Ef; [apply Habove in Ef; lia|apply not_elem_of_nil].
    + intros (k & l & Hf & Hb & Hlow). rewrite Hfind in Hf. destruct (decide (k = k0)) as [->|Hne]; [injection Hf as <-; congruence|].
      specialize (Habove k l Hf). assert (Hn : find_name name l0 = None); [|congruence]. apply find_name_None. intros v.
      specialize (Hlow k0 v Habove). by rewrite Hfind, decide_True in Hlow.
  - rewrite IH. rewrite find_name_None in E0. split; intros (k & l & Hf & Hb & Hlow); exists k, l; rewrite Hfind in *.
    + pose proof (Habove k l Hf). rewrite decide_False by lia. split; [done|]. split; [done|]. intros k' v Hk. rewrite Hfind.
      destruct (decide (k' = k0)); [apply E0|by apply Hlow].
    + destruct (decide (k = k0)) as [->|Hne].
      { injection Hf as ->. apply find_name_None in E0. congruence. }
      split; [done|]. split; [done|]. intros k' v Hk. specialize (Hlow k' v Hk). rewrite Hfind in Hlow.
      destruct (decide (k' = k0)) as [->|]; [|done].
      destruct (omap_find k0 m) as [l'|] eqn:Ef; [apply Habove in Ef; lia|apply not_elem_of_nil].
Qed.

(** Within a compartment the bundles that are loaded come first. *)
Lemma loaded_first inst es :
  exists l1 l2, bundles_at inst (run es) = l1 ++ l2 /\ Forall (fun b => b_loaded b = true) l1 /\ Forall (fun b => b_loaded b = false) l2.
Proof.
  induction es as [|e es (l1 & l2 & IH & H1 & H2)] using rev_ind; [by exists [], []|].
  unfold run. rewrite foldl_app. cbn [foldl]. fold (run es). destruct e as [i c n| |i d]; cbn [step].
  - rewrite bundles_at_begin, IH. destruct (decide _); [|by exists l1, l2].
    exists l1, (l2 ++ [mkBundle n false]). rewrite app_assoc. split; [done|]. split; [done|]. apply Forall_app. split; [done|by repeat constructor].
  - rewrite bundles_at_resolve. eexists _, []. rewrite app_nil_r. split; [done|]. split; [|constructor].
    apply Forall_fmap, list.Forall_true. done.
  - rewrite bundles_at_clear. destruct (decide _); [by exists [], []|by exists l1, l2].
Qed.

Lemma find_loaded inst name es :
  (exists b, find_name name (bundles_at inst (run es)) = Some b /\ b_loaded b = true) <-> mkBundle name true ∈ bundles_at inst (run es).
Proof.
  destruct (loaded_first inst es) as (l1 & l2 & -> & H1 & H2). rewrite list.Forall_forall in H1, H2. split.
  - intros (b & Hf & Hb). unfold find_name in Hf. apply fmap_Some in Hf as ([i b'] & Hf & ->). cbn in Hb.
    apply list_find_Some in Hf as (Hi & Hn & _). apply list_elem_of_lookup_2 in Hi. destruct b' as [n v]. cbn in *. by subst.
  - rewrite find_name_app. intros [Hin|Hin]%elem_of_app; [|by specialize (H2 _ Hin)].
    destruct (find_name name l1) as [b|] eqn:E.
    + exists b. split; [done|]. apply H1. unfold find_name in E. apply fmap_Some in E as ([i b'] & Hf & ->).
      apply list_find_Some in Hf as (Hi & _). by eapply list_elem_of_lookup_2.
    + by apply (proj1 (find_name_None _ _) E) in Hin.
Qed.

(** C27: After any history of the hooks: some bundle counts as loading exactly when
    one was begun whose compartment was not cleared and since when no references
    were resolved.  [IsBundleLoading] of a name only asks whether it was begun
    and not cleared.  [IsBundleLoaded] of a name asks the compartment of the lowest
    address in which it was begun and not cleared: whether references were resolved
    there since it was begun. *)
Theorem loading_history es name :
  (AnyBundlesLoading (run es) = true <-> exists inst n, unresolved inst n es) /\
  (IsBundleLoading name (run es) = true <-> exists inst, live inst name es) /\
  (IsBundleLoaded name (run es) = true <->
     exists inst, resolved inst name es /\ forall inst', inst' < inst -> ~ live inst' name es).
Proof.
  split; [|split].
  - unfold AnyBundlesLoading. rewrite existsb_exists. split.
    + intros ([n l] & Hin & Hl). cbn in Hl. apply list_elem_of_In, all_bundles_at in Hin as [inst Hin].
      destruct l; [done|]. exists inst, n. by apply bundles_at_history.
    + intros (inst & n & H). exists (mkBundle n false). split; [|done].
      apply list_elem_of_In, all_bundles_at. exists inst. by apply bundles_at_history.
  - unfold IsBundleLoading. transitivity (is_Some (find_bundle name (run es))).
    { destruct (find_bundle name (run es)); split; try done; by intros []. }
    rewrite find_bundle_known. split.
    + intros [l Hl%all_bundles_at]. destruct Hl as [inst Hl]. exists inst. apply bundles_at_history. by exists l.
    + intros [inst H]. apply bundles_at_history in H as [l Hl]. exists l. apply all_bundles_at. by exists inst.
  - transitivity (exists b, find_bundle name (run es) = Some b /\ b_loaded b = true).
    { unfold IsBundleLoaded. destruct (find_bundle name (run es)) as [b|]; naive_solver. }
    change (find_bundle name (run es)) with (find_name name (all_bundles (run es))). setoid_rewrite find_name_first; [|apply debug_wf].
    split.
    + intros (b & (inst & l & Hl & Hf & Hlow) & Hb). exists inst. split.
      * apply bundles_at_history, find_loaded. exists b. split; [|done]. unfold bundles_at. by rewrite Hl.
      * intros inst' Hlt H. apply bundles_at_history in H as [v Hv]. by apply (Hlow inst' v).
    + intros (inst & Hr & Hlow). apply bundles_at_history, find_loaded in Hr as (b & Hf & Hb). exists b. split; [|done].
      unfold bundles_at in Hf. destruct (omap_find inst _) as [l|] eqn:El; [|done]. exists inst, l. split; [done|]. split; [done|].
      intros k' v Hk Hin. apply (Hlow k' Hk), bundles_at_history. by exists v.
Qed.

(** So a bundle that is loaded still counts as loading. *)
Theorem loaded_bundle_still_loading inst c name :
  let st := run [Begin inst c name; Resolve] in
  IsBundleLoaded name st = true /\ IsBundleLoading name st = true /\ AnyBundlesLoading st = false.
Proof.
  unfold IsBundleLoaded, IsBundleLoading, find_bundle. cbn. rewrite decide_True by done. done.
Qed.
End Bundles.

(** ** Assets with handlers *)

Module Deferred.
Inductive CustomAssetHandlerLoadStage := ReferencesResolved | PostLoad.

#[export] Instance LoadStage_eq_dec : EqDecision CustomAssetHandlerLoadStage.
Proof. solve_decision. Defined.

Record ContainerCreationInfo := mkInfo {
  runtimeDatabaseDomain : Z;
  i_compartment : Z;
  container : Z;
  i_name : list byte;
  referencesResolved : bool;
  i_dupedWithHandler : bool;
}.

#[export] Instance ContainerCreationInfo_eq_dec : EqDecision ContainerCreationInfo.
Proof. solve_decision. Defined.

Definition resolve (i : ContainerCreationInfo) : ContainerCreationInfo :=
  mkInfo (runtimeDatabaseDomain i) (i_compartment i) (container i) (i_name i) true (i_dupedWithHandler i).

(** *** [RunHandler] *)

(** A handler, as the virtual functions of [CustomAssetHandler]: [D] are its
    merge data and [W] is the state of the game it changes. *)
Record CustomAssetHandler (D W : Type) := mkHandler {
  GetLoadStage : CustomAssetHandlerLoadStage;
  Create : D;
  Load : list byte -> ByteBuffer -> D -> result D;
  Modify : Z -> bool -> Z -> D -> W -> result (bool * D * W);
}.
Arguments mkHandler {D W}.
Arguments GetLoadStage {D W}.
Arguments Create {D W}.
Arguments Load {D W}.
Arguments Modify {D W}.

Section run_handler.
Context {D W : Type} (m_handlers : gmap Z (CustomAssetHandler D W)) (forceUpdate : W -> W).

(** [m_handlers[hash]]: a hash without a handler gives a null pointer. *)
Definition handler_of (hash : Z) : result (CustomAssetHandler D W) := of_option Undefined (m_handlers !! u32 hash).

(** The resources of an asset for a stage, highest priority first. *)
Definition select_resource (name : list byte) (stage : CustomAssetHandlerLoadStage) (acc : list ModResource)
    (r : ModResource) : result (list ModResource) :=
  if negb (bool_decide (mr_type r = FrostyResourceType_Ebx)) || negb (bool_decide (mr_name r = name)) then Ok acc else
  if mr_handlerHash r =? 0 then Ok acc else
  h ← handler_of (mr_handlerHash r);
  Ok (if bool_decide (GetLoadStage h = stage) then acc ++ [r] else acc).

Definition create_data (data : omap Z D) (r : ModResource) : result (omap Z D) :=
  h ← handler_of (mr_handlerHash r); Ok (omap_insert (u32 (mr_handlerHash r)) (Create h) data).

(** The bytes of a resource; its buffer holds [size] bytes or the read is out of
    bounds. The log line reads the string the data starts with. *)
Definition resource_buffer (r : ModResource) : result ByteBuffer :=
  bytes ← of_option Undefined (rd_buffer (mr_data r));
  if len bytes <? rd_size (mr_data r) then Fault Undefined else
  let bytes := take (Z.to_nat (rd_size (mr_data r))) bytes in
  snd <$> bb_getNullTerminatedString (mkBB bytes 0 (len bytes)).

Definition load_data (data : omap Z D) (r : ModResource) : result (omap Z D) :=
  buf ← resource_buffer r;
  h ← handler_of (mr_handlerHash r);
  d ← of_option Undefined (omap_find (u32 (mr_handlerHash r)) data);
  d ← Load h (mr_modName r) buf d;
  Ok (omap_insert (u32 (mr_handlerHash r)) d data).

(** [Modify] is called until it succeeds. *)
Fixpoint modify_loop (fuel : nat) (h : CustomAssetHandler D W) (info : ContainerCreationInfo) (d : D) (w : W) : result W :=
  match fuel with
  | O => Fault OutOfFuel
  | S fuel =>
    match Modify h (runtimeDatabaseDomain info) (i_dupedWithHandler info) (container info) d w with
    | Fault e => Fault e
    | Ok (finished, d, w) => if (finished : bool) then Ok w else modify_loop fuel h info d (forceUpdate w)
    end
  end.

Definition modify_data (fuel : nat) (info : ContainerCreationInfo) (w : W) (kd : Z * D) : result W :=
  h ← handler_of kd.1; modify_loop fuel h info kd.2 w.

Definition load_all (modResources : list ModResource) : result (omap Z D) :=
  data ← foldM create_data [] modResources;
  foldM load_data data (rev modResources).

Definition RunHandler (fuel : nat) (all : list ModResource) (info : ContainerCreationInfo)
    (stage : CustomAssetHandlerLoadStage) (w : W) : result W :=
  modResources ← foldM (select_resource (i_name info) stage) [] all;
  if bool_decide (modResources = []) then Ok w else
  data ← load_all modResources;
  foldM (modify_data fuel info) w data.
End run_handler.

(** *** The queue *)

Section queue.
Context {W : Type} (run : ContainerCreationInfo -> CustomAssetHandlerLoadStage -> W -> result W).

(** The hook of [readEbxPartitionFromStream], once the game has read the
    partition: [hasHandler] says whether the mods handle an asset of the name,
    and whether the asset is a copy of theirs. *)
Definition ReadEbxPartition (handlerResources : gmap (list byte) KyberHandledModResource) (hasHandler : Z -> bool)
    (inst compartment primaryInstance : Z) (name : list byte) (queue : list ContainerCreationInfo) : list ContainerCreationInfo :=
  match handlerResources !! name with
  | None => queue
  | Some resource =>
    if negb (hasHandler (u32 (hr_handlerHash resource))) then queue
    else queue ++ [mkInfo inst compartment primaryInstance name false (hr_dupedWithHandler resource)]
  end.

(** [partitions] are the primary instances of the partitions loaded. *)
Definition fetch_step (inst : Z) (partitions : list Z) (st : list ContainerCreationInfo * W) (info : ContainerCreationInfo)
    : result (list ContainerCreationInfo * W) :=
  if negb (bool_decide (container info ∈ partitions)) then Ok (st.1 ++ [info], st.2) else
  if referencesResolved info || negb (inst =? runtimeDatabaseDomain info) then Ok (st.1 ++ [info], st.2) else
  w ← run info ReferencesResolved st.2;
  Ok (st.1 ++ [resolve info], w).

(** The hook of [fetchNewlyLoadedPartitions]. *)
Definition FetchNewlyLoadedPartitions (inst : Z) (partitions : list Z) (queue : list ContainerCreationInfo) (w : W)
    : result (list ContainerCreationInfo * W) :=
  foldM (fetch_step inst partitions) ([], w) queue.

Definition update_step (st : list ContainerCreationInfo * W) (info : ContainerCreationInfo)
    : result (list ContainerCreationInfo * W) :=
  if negb (referencesResolved info) then Ok (st.1 ++ [info], st.2) else
  w ← run info PostLoad st.2;
  Ok (st.1, w).

(** The hook of [updateResources]; [running] guards against a call from a
    handler. The erased entry's successor moves to its place. *)
Definition UpdateResources (running : bool) (queue : list ContainerCreationInfo) (w : W)
    : result (list ContainerCreationInfo * W) :=
  if running then Ok (queue, w) else foldM update_step ([], w) queue.
End queue.

(** *** What the handlers of one asset see *)

Section run_handler_laws.
Context {D W : Type} (m_handlers : gmap Z (CustomAssetHandler D W)).

(** The resources of one handler. *)
Definition of_handler (hash : Z) (r : ModResource) : Prop := u32 (mr_handlerHash r) = hash.
#[export] Instance of_handler_dec hash r : Decision (of_handler hash r).
Proof. unfold of_handler. apply _. Defined.

(** What one resource does to the data of its handler. *)
Definition load_one (d : D) (r : ModResource) : result D :=
  buf ← resource_buffer r; h ← handler_of m_handlers (mr_handlerHash r); Load h (mr_modName r) buf d.

Lemma load_data_own data r data' hash d :
  load_data m_handlers data r = Ok data' -> omap_find hash data = Some d -> of_handler hash r ->
  exists d', load_one d r = Ok d' /\ omap_find hash data' = Some d'.
Proof.
  unfold of_handler. intros H Hd Hh. unfold load_data in H. rewrite Hh in H.
  apply result_bind_ok in H as (buf & Hbuf & H). apply result_bind_ok in H as (h & Hh' & H).
  rewrite Hd in H. cbn [of_option mbind result_bind] in H.
  apply result_bind_ok in H as (d' & Hd' & [= <-]). exists d'.
  unfold load_one. rewrite Hbuf, Hh'. cbn. split; [done|]. by rewrite omap_find_insert_eq.
Qed.

Lemma load_data_other data r data' hash :
  load_data m_handlers data r = Ok data' -> ~ of_handler hash r -> omap_find hash data' = omap_find hash data.
Proof.
  unfold of_handler, load_data. intros H Hh. apply result_bind_ok in H as (buf & _ & H).
  apply result_bind_ok in H as (h & _ & H). apply result_bind_ok in H as (d & _ & H).
  apply result_bind_ok in H as (d' & _ & [= <-]). rewrite omap_find_insert_ne; congruence.
Qed.

Lemma load_data_handler rs data data' hash d :
  foldM (load_data m_handlers) data rs = Ok data' -> omap_find hash data = Some d ->
  exists d', foldM load_one d (filter (of_handler hash) rs) = Ok d' /\ omap_find hash data' = Some d'.
Proof.
  revert data d. induction rs as [|r rs IH]; intros data d H Hd; [injection H as <-; by exists d|].
  cbn [foldM] in H. destruct (load_data m_handlers data r) as [data1|] eqn:E; [|done].
  rewrite filter_cons. destruct (decide (of_handler hash r)) as [Hh|Hh].
  - destruct (load_data_own _ _ _ _ _ E Hd Hh) as (d1 & H1 & H2). cbn [foldM]. rewrite H1. by eapply IH.
  - eapply IH; [done|]. by rewrite (load_data_other _ _ _ _ E Hh).
Qed.

Lemma create_data_all rs data data' hash :
  foldM (create_data m_handlers) data rs = Ok data' -> (exists r, r ∈ rs /\ of_handler hash r) ->
  exists h, m_handlers !! hash = Some h /\ omap_find hash data' = Some (Create h).
Proof.
  revert data data'. induction rs as [|r rs IH] using rev_ind; intros data data' H (r0 & Hin & Hh); [by apply elem_of_nil in Hin|].
  rewrite foldM_app in H. apply result_bind_ok in H as (data1 & H1 & H2). cbn [foldM] in H2.
  unfold create_data in H2 at 1. unfold handler_of in H2. unfold of_handler in *.
  destruct (m_handlers !! u32 (mr_handlerHash r)) as [h|] eqn:E; [|done]. cbn in H2. injection H2 as <-.
  destruct (decide (hash = u32 (mr_handlerHash r))) as [->|Hne].
  - exists h. split; [done|]. by rewrite omap_find_insert_eq.
  - rewrite omap_find_insert_ne by done. apply (IH data data1 H1). exists r0. split; [|done].
    apply elem_of_app in Hin as [Hin| ->%list_elem_of_singleton]; [done|congruence].
Qed.
End run_handler_laws.

(** Every handler of an asset starts from fresh data and loads exactly its own
    resources, the one of lowest priority first: what the other handlers of the
    asset load makes no difference to it. *)
Theorem load_all_spec {D W} (m_handlers : gmap Z (CustomAssetHandler D W)) rs data hash :
  load_all m_handlers rs = Ok data -> (exists r, r ∈ rs /\ of_handler hash r) ->
  exists h d, m_handlers !! hash = Some h /\ omap_find hash data = Some d /\
    foldM (load_one m_handlers) (Create h) (filter (of_handler hash) (rev rs)) = Ok d.
Proof.
  intros H Hex. unfold load_all in H. apply result_bind_ok in H as (data0 & H1 & H2).
  destruct (create_data_all m_handlers rs [] data0 hash H1 Hex) as (h & Hh & Hd).
  destruct (load_data_handler m_handlers (rev rs) data0 data hash (Create h) H2 Hd) as (d & H3 & H4).
  by exists h, d.
Qed.

(** *** The life of a deferred asset *)

Inductive event := Deferred (i : ContainerCreationInfo) | Ran (i : ContainerCreationInfo) (stage : CustomAssetHandlerLoadStage).

#[export] Instance event_eq_dec : EqDecision event.
Proof. solve_decision. Defined.

(** The asset as it was put into the queue. *)
Definition unresolve (i : ContainerCreationInfo) : ContainerCreationInfo :=
  mkInfo (runtimeDatabaseDomain i) (i_compartment i) (container i) (i_name i) false (i_dupedWithHandler i).

Definition log_run (i : ContainerCreationInfo) (stage : CustomAssetHandlerLoadStage) (w : list event) : result (list event) :=
  Ok (w ++ [Ran (unresolve i) stage]).

(** The hooks, with the runs of handlers logged. *)
Inductive step : list ContainerCreationInfo * list event -> list ContainerCreationInfo * list event -> Prop :=
| step_defer queue log handlers hasHandler inst compartment instance name queue' :
    ReadEbxPartition handlers hasHandler inst compartment instance name queue = queue' ->
    step (queue, log) (queue', log ++ (Deferred <$> drop (length queue) queue'))
| step_fetch queue log inst partitions st' :
    FetchNewlyLoadedPartitions log_run inst partitions queue log = Ok st' -> step (queue, log) st'
| step_update queue log running st' :
    UpdateResources log_run running queue log = Ok st' -> step (queue, log) st'.























(** A handler whose data are the first bytes it read. *)
Definition sample_handler : CustomAssetHandler (list Z) unit :=
  mkHandler PostLoad [] (fun _ buf d => v ← fst <$> bb_get buf; Ok (d ++ [v])) (fun _ _ _ d w => Ok (true, d, w)).

Definition sample_resource (value : byte) (hash : Z) : ModResource :=
  mkResource FrostyResourceType_Ebx (bstr "x") [] hash 0 false (bstr "mod") 0
    (mkData 3 3 (Some [Byte.x61; Byte.x00; value]) 0 0 0 0 [] 0 0 0 0 0 0) 1.

Definition sample_handlers : gmap Z (CustomAssetHandler (list Z) unit) := <[5 := sample_handler]> (<[6 := sample_handler]> ∅).

Lemma load_all_spec_witness :
  let rs := [sample_resource Byte.x02 5; sample_resource Byte.x07 6; sample_resource Byte.x01 5] in
  exists h : CustomAssetHandler (list Z) unit, foldM (load_one sample_handlers) (Create h) (filter (of_handler 5) (rev rs)) = Ok [1; 2].
Proof.
  cbv zeta.
  destruct (load_all_spec sample_handlers
    [sample_resource Byte.x02 5; sample_resource Byte.x07 6; sample_resource Byte.x01 5] [(5, [1; 2]); (6, [7])] 5)
    as (h & d & _ & Hd & H).
  - vm_compute. reflexivity.
  - exists (sample_resource Byte.x02 5). split; [by left|reflexivity].
  - exists h. cbn in Hd. injection Hd as <-. exact H.
Defined.
End Deferred.
