(* ===== verification/ShaderBlocks.v ===== *)
(** The merge of shader block depots (Source/ModLoader/ResourceMerger.cpp): the
    hook of the game's loader reads a depot, replaces the resources that mods
    bring, and writes the depot anew with its relocation table.

    Resources are objects known by their addresses, with the null pointer 0,
    because a resource holds pointers to others and the merge deletes some. *)

From S2P Require Import Prelude OrdMap ByteBuffer StringUtils Guid ModResources.
From S2P Require Import ResourceHooks.

(** ** Resources *)

Record ParameterEntry := mkParameter {
  p_nameHash : Z; p_typeHash : Z; p_used : Z; p_value : list byte; p_parameterHash : Z }.

(** The classes derived from [ShaderBlockResource], by the number of their type:
    [ShaderBlockEntry] (0) and [ShaderStaticParamDbBlock] (2), which it derives
    from, [ShaderPersistentParamDbBlock] (1), [MeshParamDbBlock] (3) and
    [ShaderBlockMeshVariationEntry] (4). A reference is of type [P]: a pointer in
    an object, an index in a file. *)
Inductive Body (P : Type) :=
  StaticParams (isEntry : bool) (resources : list P)
| PersistentParams (parameters : list ParameterEntry)
| MeshParams (guid : Guid) (lodIndex : Z) (parameters : list ParameterEntry)
| MeshVariation (rvmShaderRefs : list (Guid * Z)).
Arguments StaticParams {P}.
Arguments PersistentParams {P}.
Arguments MeshParams {P}.
Arguments MeshVariation {P}.

Definition type_of {P} (b : Body P) : Z :=
  match b with
  | StaticParams true _ => 0 | PersistentParams _ => 1 | StaticParams false _ => 2 | MeshParams _ _ _ => 3 | MeshVariation _ => 4
  end.

(** A new object of a type; [None] for an unknown type. *)
Definition new_body {P} (type : Z) : option (Body P) :=
  match type with
  | 0 => Some (StaticParams true []) | 1 => Some (PersistentParams []) | 2 => Some (StaticParams false [])
  | 3 => Some (MeshParams guid_zero 0 []) | 4 => Some (MeshVariation []) | _ => None
  end.

Record ShaderBlockResource := mkBlock { m_index : Z; m_hash : Z; m_body : Body Z }.

(** ** Reading *)

Definition kITexture : Z := 0xad0abfd3.

(** A vector cannot be resized to a negative size. *)
Definition read_parameter : Rd ParameterEntry :=
  parameterHash ← bb_getLong; typeHash ← bb_getInt; used ← bb_getShort; hi ← bb_getShort; size ← bb_getInt;
  let nameHash := u32 (Z.lor (Z.shiftl hi 16) (Z.land (Z.shiftr parameterHash 48) 0xFFFF)) in
  let size := if typeHash =? kITexture then 16 else i32 size in
  if size <? 0 then Rd_fault Thrown else
  value ← bb_getBytes (Z.to_nat size);
  mret (mkParameter nameHash typeHash used value parameterHash).

Definition read_shader_ref : Rd (Guid * Z) := guid ← bb_getBytes 16; i ← bb_getInt; mret (guid, i32 i).

(** The loops that count up to a 64-bit size with 32 bits do not end for a larger
    one, but run out of memory. *)
Definition loop_count (size : Z) : Rd nat := if 2 ^ 32 <=? size then Rd_fault Thrown else mret (Z.to_nat size).

(** The hash and the body of a resource of a type, with indices for references. *)
Definition read_block (type : Z) : Rd (Z * Body Z) :=
  hash ← bb_getLong;
  match type with
  | 1 =>
    offset ← bb_getLong; _ ← bb_getLong; _ ← Rd_modify (bb_setReadPos offset);
    count ← bb_getInt; params ← Rd_repeat (Z.to_nat count) read_parameter;
    mret (hash, PersistentParams params)
  | 3 =>
    offset ← bb_getLong; _ ← bb_getInt; lod ← bb_getInt; guid ← bb_getBytes 16; _ ← Rd_modify (bb_setReadPos offset);
    count ← bb_getInt; params ← Rd_repeat (Z.to_nat count) read_parameter;
    mret (hash, MeshParams guid (i32 lod) params)
  | 4 =>
    offset ← bb_getLong; size ← bb_getLong; _ ← Rd_modify (bb_setReadPos offset);
    n ← loop_count size; refs ← Rd_repeat n read_shader_ref;
    mret (hash, MeshVariation refs)
  | _ =>
    offset ← bb_getLong; size ← bb_getLong; _ ← Rd_modify (bb_setReadPos offset);
    n ← loop_count size; refs ← Rd_repeat n (i ← bb_getInt; mret (i32 i));
    mret (hash, StaticParams (type =? 0) refs)
  end.

(** Indexing the list of entries: without a list of entries, or out of its range, undefined. *)
Definition resolve_entry (entries : option (list Z)) (index : Z) : result Z :=
  entries ← of_option Undefined entries;
  if index <? 0 then Fault Undefined else of_option Undefined (entries !! Z.to_nat index).

Definition map_body {P Q} (f : P -> result Q) (b : Body P) : result (Body Q) :=
  match b with
  | StaticParams e refs => refs ← mapM f refs; Ok (StaticParams e refs)
  | PersistentParams ps => Ok (PersistentParams ps)
  | MeshParams g lod ps => Ok (MeshParams g lod ps)
  | MeshVariation refs => Ok (MeshVariation refs)
  end.

(** [ShaderBlockResource::Read] of an object of the type. *)
Definition Read (type : Z) (entries : option (list Z)) (index : Z) : Rd ShaderBlockResource :=
  raw ← read_block type;
  body ← Rd_lift (map_body (resolve_entry entries) raw.2);
  mret (mkBlock index raw.1 body).

(** ** Writing *)

Fixpoint WritePadding (fuel : nat) (alignment : Z) (buf : ByteBuffer) : result ByteBuffer :=
  match fuel with
  | O => Fault OutOfFuel
  | S fuel => if bb_wpos buf mod alignment =? 0 then Ok buf else WritePadding fuel alignment (bb_put 0 buf)
  end.

Definition write_parameter (buf : ByteBuffer) (p : ParameterEntry) : ByteBuffer :=
  let buf := bb_putShort (u16 (Z.shiftr (p_nameHash p) 16))
    (bb_putShort (p_used p) (bb_putInt (p_typeHash p) (bb_putLong (p_parameterHash p) buf))) in
  bb_putBytes (p_value p) (bb_putInt (if p_typeHash p =? kITexture then 1 else u32 (len (p_value p))) buf).

Definition write_parameters (ps : list ParameterEntry) (buf : ByteBuffer) : ByteBuffer :=
  foldl write_parameter (bb_putInt (u32 (len ps)) buf) ps.

Definition write_shader_ref (buf : ByteBuffer) (r : Guid * Z) : ByteBuffer := bb_putInt (u32 r.2) (bb_putBytes r.1 buf).

(** The buffer, the relocation table, and where the resource starts. *)
Definition Written : Type := ByteBuffer * list Z * Z.

(** [ShaderBlockResource::Write]. *)
Definition write_hash (hash : Z) (table : list Z) (buf : ByteBuffer) : Written :=
  let buf' := bb_putLong hash buf in (buf', table ++ [bb_wpos buf'], bb_wpos buf).

(** The overrides, for a body whose references are the indices of their targets. *)
Definition write_block (hash : Z) (b : Body Z) (table : list Z) (buf : ByteBuffer) : result Written :=
  let offset := bb_wpos buf in
  match b with
  | StaticParams _ refs =>
    buf ← WritePadding 8 8 (foldl (fun buf i => bb_putInt i buf) buf refs);
    let '(buf, table, start) := write_hash hash table buf in
    Ok (bb_putLong (len refs) (bb_putLong offset buf), table, start)
  | PersistentParams ps =>
    let buf := write_parameters ps buf in
    let size := u32 (bb_wpos buf - offset) in
    buf ← WritePadding 8 8 buf;
    let '(buf, table, start) := write_hash hash table buf in
    Ok (bb_putLong size (bb_putLong offset buf), table, start)
  | MeshParams guid lod ps =>
    let buf := write_parameters ps buf in
    let size := u32 (bb_wpos buf - offset) in
    buf ← WritePadding 8 8 buf;
    let '(buf, table, start) := write_hash hash table buf in
    Ok (bb_putBytes guid (bb_putInt (u32 lod) (bb_putInt size (bb_putLong offset buf))), table, start)
  | MeshVariation refs =>
    buf ← WritePadding 8 8 (foldl write_shader_ref buf refs);
    let '(buf, table, start) := write_hash hash table buf in
    Ok (bb_putLong (len refs) (bb_putLong offset buf), table, start)
  end.

(** ** The objects *)

Record Heap := mkHeap { h_objects : gmap Z ShaderBlockResource; h_next : Z }.

Definition alloc (b : ShaderBlockResource) (h : Heap) : Z * Heap :=
  (h_next h, mkHeap (<[h_next h := b]> (h_objects h)) (h_next h + 1)).
Definition put_object (a : Z) (b : ShaderBlockResource) (h : Heap) : Heap := mkHeap (<[a := b]> (h_objects h)) (h_next h).
Definition delete_object (a : Z) (h : Heap) : Heap := mkHeap (base.delete a (h_objects h)) (h_next h).
Definition object (a : Z) (h : Heap) : result ShaderBlockResource := of_option Undefined (h_objects h !! a).

(** [Write] through a pointer: the references are read through theirs. *)
Definition Write (a : Z) (h : Heap) (table : list Z) (buf : ByteBuffer) : result Written :=
  b ← object a h;
  body ← map_body (fun p => m_index <$> object p h) (m_body b);
  write_block (m_hash b) body table buf.

(** ** The mods' resources *)

(** [m_hashes] and [m_resources]: the resources a mod brings for a depot. *)
Definition Depot : Type := list (Z * Z).

Definition find_hash (hash : Z) (d : Depot) : option Z := snd <$> (snd <$> list_find (fun kv => kv.1 = hash) d).
Definition ContainsHash (hash : Z) (d : Depot) : bool := bool_decide (is_Some (find_hash hash d)).
Definition AddResource (d : Depot) (kv : Z * Z) : Depot := if ContainsHash kv.1 d then d else d ++ [kv].

Fixpoint ReadPadding (fuel : nat) (alignment : Z) : Rd unit :=
  match fuel with
  | O => Rd_fault OutOfFuel
  | S fuel => fun buf =>
    if bb_rpos buf mod alignment =? 0 then Ok (tt, buf)
    else ReadPadding fuel alignment (bb_setReadPos (bb_rpos buf + 1) buf)
  end.

Definition read_header : Rd (Z * Z) := offset ← bb_getLong; type ← bb_getLong; mret (offset, type).

(** A resource of an unknown type is null: [__debugbreak] ends the process. *)
Definition load_block (header : Z * Z) : Rd ShaderBlockResource :=
  match new_body (P := Z) header.2 with
  | None => Rd_fault Thrown
  | Some _ => _ ← Rd_modify (bb_setReadPos header.1); Read header.2 None 0
  end.

Fixpoint alloc_all (bs : list ShaderBlockResource) (h : Heap) : list (Z * Z) * Heap :=
  match bs with
  | [] => ([], h)
  | b :: bs => let '(a, h) := alloc b h in let '(l, h) := alloc_all bs h in ((m_hash b, a) :: l, h)
  end.

Definition replace_all (found : Depot) (d : Depot) : Depot :=
  (fun kv => (kv.1, default kv.2 (find_hash kv.1 found))) <$> d.

(** [ModifiedShaderBlockDepot::Load]: later resources of a hash replace earlier
    ones, but within one file the first of a hash counts. *)
Definition Depot_Load (st : Depot * Heap) : Rd (Depot * Heap) :=
  count ← bb_getInt;
  _ ← ReadPadding 16 16;
  headers ← Rd_repeat (Z.to_nat count) read_header;
  blocks ← mapM load_block headers;
  let '(found, h) := alloc_all blocks st.2 in
  mret (foldl AddResource (replace_all found st.1) found, h).

(** The data of a resource behind the name of its type. *)
Definition depot_buffer (r : ModResource) : result ByteBuffer :=
  buf ← Deferred.resource_buffer r;
  let rest := drop (Z.to_nat (bb_rpos buf)) (bb_buf buf) in
  Ok (mkBB rest 0 (len rest)).

Definition collect_step (resName : list byte) (st : Depot * Heap) (r : ModResource) : result (Depot * Heap) :=
  if negb (bool_decide (mr_type r = FrostyResourceType_Res)) || negb (bool_decide (mr_name r = resName)) then Ok st else
  if mr_handlerHash r =? 0 then Ok st else
  buf ← depot_buffer r;
  fst <$> Depot_Load st buf.

Definition Collect (resName : list byte) (modResources : list ModResource) (h : Heap) : result (Depot * Heap) :=
  foldM (collect_step resName) ([], h) modResources.

(** ** The hook *)

(** The objects of a depot's headers, in order; an unknown type gives null. *)
Fixpoint new_resources (headers : list (Z * Z)) (h : Heap) : list Z * Heap :=
  match headers with
  | [] => ([], h)
  | header :: headers =>
    let '(a, h) := match new_body header.2 with Some b => alloc (mkBlock 0 0 b) h | None => (0, h) end in
    let '(l, h) := new_resources headers h in (a :: l, h)
  end.

(** The pass that reads the resource at an index, or takes the mods' one instead
    and deletes what was read. *)
Definition fixup_step (d : Depot) (i : nat) (offset : Z) (st : list Z * Heap) : Rd (list Z * Heap) :=
  _ ← Rd_modify (bb_setReadPos offset);
  a ← Rd_lift (of_option Undefined (st.1 !! i));
  old ← Rd_lift (object a st.2);
  b ← Read (type_of (m_body old)) (Some st.1) (m_index old);
  let h := put_object a b st.2 in
  let '(resources, h) :=
    match find_hash (m_hash b) d with
    | Some existing => if existing =? 0 then (st.1, h) else (<[i := existing]> st.1, delete_object a h)
    | None => (st.1, h)
    end in
  a ← Rd_lift (of_option Undefined (resources !! i));
  b ← Rd_lift (object a h);
  mret (resources, put_object a (mkBlock (Z.of_nat i) (m_hash b) (m_body b)) h).

Fixpoint fixup_read (d : Depot) (i : nat) (headers : list (Z * Z)) (st : list Z * Heap) : Rd (list Z * Heap) :=
  match headers with
  | [] => mret st
  | header :: headers => st ← fixup_step d i header.1 st; fixup_read d (S i) headers st
  end.

(** The pass that writes the resources: the start of each, and the table. *)
Fixpoint fixup_write (h : Heap) (i : Z) (resources : list Z) (buf : ByteBuffer) (table : list Z)
    : result (ByteBuffer * list Z * list Z) :=
  match resources with
  | [] => Ok (buf, table, [])
  | a :: resources =>
    '(buf, table, start) ← Write a h table buf;
    '(buf, table, starts) ← fixup_write h (i + 1) resources buf (table ++ [i * 16]);
    Ok (buf, table, start :: starts)
  end.

Definition put_header (buf : ByteBuffer) (header : Z * Z) : ByteBuffer := bb_putLong header.2 (bb_putLong header.1 buf).

Definition fixup_headers (h : Heap) (resources starts : list Z) (buf : ByteBuffer) : result ByteBuffer :=
  types ← mapM (fun a => (fun b => type_of (m_body b)) <$> object a h) resources;
  Ok (foldl put_header (bb_setWritePos 0 buf) (zip starts types)).

(** What the loader is handed: the depot's bytes and its relocations. *)
Record Fixup := mkFixup { fx_bytes : list byte; fx_relocs : list Z; fx_count : Z }.

(** [ShaderBlockDepotLoaderFixupTurboBulkHk], up to the call of the game: [bytes] are
    the depot's, [sbResourceCount] is what its metadata say. *)
Definition FixupTurboBulk (modResources : list ModResource) (name : list byte) (sbResourceCount : Z) (bytes : list byte)
    : result Fixup :=
  '(d, h) ← Collect name modResources (mkHeap ∅ 1);
  '(headers, buf) ← Rd_repeat (Z.to_nat sbResourceCount) read_header (mkBB bytes 0 (len bytes));
  let st := new_resources headers h in
  '(resources, h) ← fst <$> fixup_read d 0 headers st buf;
  let buf := foldl (fun buf _ => bb_putLong 0 (bb_putLong 0 buf)) bb_empty resources in
  '(buf, table, starts) ← fixup_write h 0 resources buf [];
  buf ← WritePadding 16 16 buf;
  let fullSize := bb_wpos buf in
  buf ← fixup_headers h resources starts buf;
  Ok (mkFixup (take (Z.to_nat fullSize) (bb_buf buf)) table (len resources)).

(** ** The bytes of a resource *)

Definition parameter_bytes (p : ParameterEntry) : list byte :=
  le_split 8 (p_parameterHash p) ++ le_split 4 (p_typeHash p) ++ le_split 2 (p_used p) ++
  le_split 2 (Z.shiftr (p_nameHash p) 16) ++
  le_split 4 (if p_typeHash p =? kITexture then 1 else len (p_value p)) ++ p_value p.

Definition parameters_bytes (ps : list ParameterEntry) : list byte :=
  le_split 4 (len ps) ++ mjoin (parameter_bytes <$> ps).

Definition shader_ref_bytes (r : Guid * Z) : list byte := r.1 ++ le_split 4 (u32 r.2).

(** What stands before the resource. *)
Definition data_bytes (b : Body Z) : list byte :=
  match b with
  | StaticParams _ refs => mjoin (le_split 4 <$> refs)
  | PersistentParams ps | MeshParams _ _ ps => parameters_bytes ps
  | MeshVariation refs => mjoin (shader_ref_bytes <$> refs)
  end.

(** The resource, whose data are at an offset. *)
Definition record_bytes (hash offset : Z) (b : Body Z) : list byte :=
  le_split 8 hash ++ le_split 8 offset ++
  match b with
  | StaticParams _ refs => le_split 8 (len refs)
  | PersistentParams ps => le_split 8 (len (parameters_bytes ps))
  | MeshParams guid lod ps => le_split 4 (len (parameters_bytes ps)) ++ le_split 4 (u32 lod) ++ guid
  | MeshVariation refs => le_split 8 (len refs)
  end.

Definition padding (alignment n : Z) : list byte := replicate (Z.to_nat ((- n) mod alignment)) Byte.x00.

(** Where the resource starts when its data start at [n], and all its bytes. *)
Definition start_of (n : Z) (b : Body Z) : Z := let m := n + len (data_bytes b) in m + len (padding 8 m).
Definition block_bytes (n hash : Z) (b : Body Z) : list byte :=
  data_bytes b ++ padding 8 (n + len (data_bytes b)) ++ record_bytes hash n b.

(** ** Well-formed resources *)

(** The name's hash repeats the upper bits of the parameter's. *)
Record parameter_wf (p : ParameterEntry) : Prop := {
  pw_hash : urange 64 (p_parameterHash p);
  pw_type : urange 32 (p_typeHash p);
  pw_used : urange 16 (p_used p);
  pw_name : urange 32 (p_nameHash p);
  pw_upper : p_nameHash p mod 2 ^ 16 = p_parameterHash p / 2 ^ 48;
  pw_size : len (p_value p) < 2 ^ 31;
  pw_texture : p_typeHash p = kITexture -> length (p_value p) = 16%nat;
}.

Definition body_wf (b : Body Z) : Prop :=
  match b with
  | StaticParams _ refs => Forall (urange 31) refs
  | PersistentParams ps => Forall parameter_wf ps
  | MeshParams guid lod ps => guid_wf guid /\ srange 32 lod /\ Forall parameter_wf ps
  | MeshVariation refs => Forall (fun r => guid_wf r.1 /\ srange 32 r.2) refs
  end.

(** ** Writing gives the bytes *)

Lemma WritePadding_wr k alignment l fuel :
  0 < alignment -> (k < fuel)%nat -> fits (l ++ replicate k Byte.x00) ->
  (len l + Z.of_nat k) mod alignment = 0 -> (forall j, (j < k)%nat -> (len l + Z.of_nat j) mod alignment <> 0) ->
  WritePadding fuel alignment (wr l) = Ok (wr (l ++ replicate k Byte.x00)).
Proof.
  intros Ha. revert l fuel. induction k as [|k IH]; intros l [|fuel] Hk Hf H0 Hn; try lia; cbn [WritePadding]; cbn [bb_wpos wr].
  - rewrite Z.add_0_r in H0. rewrite H0. cbn. by rewrite app_nil_r.
  - specialize (Hn 0%nat ltac:(lia)) as Hn0. rewrite Z.add_0_r in Hn0. rewrite (proj2 (Z.eqb_neq _ _)) by done.
    change (mkBB l 0 (len l)) with (wr l). rewrite bb_put_wr by (cbn [replicate] in Hf; fits).
    rewrite IH; [by rewrite <- app_assoc|lia|by rewrite <- app_assoc| |].
    + rewrite length_app. cbn [length]. replace (Z.of_nat (length l + 1) + Z.of_nat k) with (len l + Z.of_nat (S k)) by lia. done.
    + intros j Hj. rewrite length_app. cbn [length]. replace (Z.of_nat (length l + 1) + Z.of_nat j) with (len l + Z.of_nat (S j)) by lia.
      apply Hn. lia.
Qed.

Lemma WritePadding_spec alignment l fuel :
  0 < alignment -> alignment <= Z.of_nat fuel -> fits (l ++ padding alignment (len l)) ->
  WritePadding fuel alignment (wr l) = Ok (wr (l ++ padding alignment (len l))).
Proof.
  intros Ha Hfuel Hf. pose proof (Z.mod_pos_bound (- len l) alignment Ha) as Hb. unfold padding in *.
  apply WritePadding_wr; [done|lia|done| |].
  - rewrite Z2Nat.id by lia. rewrite Z.add_mod_idemp_r by lia. by rewrite Z.add_opp_diag_r, Z.mod_0_l by lia.
  - intros j Hj H0. apply Z.mod_divide in H0 as [q Hq]; [|lia].
    assert (Hj' : Z.of_nat j < (- len l) mod alignment) by lia.
    replace (- len l) with (Z.of_nat j + (- q) * alignment) in Hj' by lia.
    rewrite Z.mod_add, Z.mod_small in Hj' by lia. lia.
Qed.

Lemma write_parameter_wr p l :
  parameter_wf p -> fits (l ++ parameter_bytes p) -> write_parameter (wr l) p = wr (l ++ parameter_bytes p).
Proof.
  intros [_ _ _ Hn _ Hs _] Hf. unfold write_parameter. unfold parameter_bytes in *.
  assert (E1 : u16 (Z.shiftr (p_nameHash p) 16) = Z.shiftr (p_nameHash p) 16).
  { apply uwrap_small. rewrite Z.shiftr_div_pow2 by lia. unfold urange in *. split; [apply Z.div_pos; lia|apply Z.div_lt_upper_bound; lia]. }
  assert (E2 : u32 (len (p_value p)) = len (p_value p)) by (apply uwrap_small; unfold urange; lia). rewrite E1, E2.
  rewrite putLong_wr by fits. rewrite putInt_wr by fits. rewrite putShort_wr by fits. rewrite putShort_wr by fits.
  rewrite putInt_wr by fits. rewrite bb_putBytes_wr by fits. by rewrite <- !app_assoc.
Qed.

Lemma write_parameters_wr ps l :
  Forall parameter_wf ps -> len ps < 2 ^ 32 -> fits (l ++ parameters_bytes ps) ->
  write_parameters ps (wr l) = wr (l ++ parameters_bytes ps).
Proof.
  intros Hps Hlen Hf. unfold write_parameters. unfold parameters_bytes in *. rewrite uwrap_small by (unfold urange; lia).
  rewrite putInt_wr by fits. rewrite (foldl_wr _ parameter_bytes); [by rewrite <- app_assoc| |by rewrite <- app_assoc].
  intros p k Hp. apply write_parameter_wr. by eapply list.Forall_forall in Hps.
Qed.

Lemma parameters_bytes_count ps : (length ps <= length (parameters_bytes ps))%nat.
Proof.
  unfold parameters_bytes. rewrite length_app. induction ps as [|p ps IH]; [cbn; lia|].
  change (mjoin (parameter_bytes <$> p :: ps)) with (parameter_bytes p ++ mjoin (parameter_bytes <$> ps)).
  rewrite length_app. assert (1 <= length (parameter_bytes p))%nat by (unfold parameter_bytes; rewrite length_app, length_le_split; lia).
  rewrite !length_le_split in *. cbn [length]. lia.
Qed.

Lemma write_refs_wr refs l :
  fits (l ++ mjoin (le_split 4 <$> refs)) -> foldl (fun buf i => bb_putInt i buf) (wr l) refs = wr (l ++ mjoin (le_split 4 <$> refs)).
Proof. apply foldl_wr. intros x k _. apply putInt_wr. Qed.

Lemma write_shader_refs_wr refs l :
  fits (l ++ mjoin (shader_ref_bytes <$> refs)) -> foldl write_shader_ref (wr l) refs = wr (l ++ mjoin (shader_ref_bytes <$> refs)).
Proof.
  apply foldl_wr. intros r k _ Hf. unfold write_shader_ref, shader_ref_bytes in *.
  rewrite bb_putBytes_wr by fits. rewrite putInt_wr by fits. by rewrite <- app_assoc.
Qed.

Lemma write_hash_wr hash table l :
  fits (l ++ le_split 8 hash) -> write_hash hash table (wr l) = (wr (l ++ le_split 8 hash), table ++ [len l + 8], len l).
Proof. intros Hf. unfold write_hash. rewrite putLong_wr by done. cbn [bb_wpos wr]. do 4 f_equal. rewrite length_app, length_le_split. lia. Qed.

(** Where a resource is written, and the relocation of its offset. *)
Lemma write_block_wr hash b table l :
  body_wf b -> fits (l ++ block_bytes (len l) hash b) ->
  write_block hash b table (wr l) =
    Ok (wr (l ++ block_bytes (len l) hash b), table ++ [start_of (len l) b + 8], start_of (len l) b).
Proof.
  intros Hb Hf.
  set (m := len l + len (data_bytes b)).
  assert (Hm : len (l ++ data_bytes b) = m) by (unfold m; rewrite length_app; lia).
  assert (Hs : len ((l ++ data_bytes b) ++ padding 8 m) = start_of (len l) b) by (unfold start_of; fold m; rewrite length_app; lia).
  unfold block_bytes in *. fold m in Hf |- *. unfold record_bytes in *.
  assert (Hf1 : fits (l ++ data_bytes b)) by fits. assert (Hf2 : fits ((l ++ data_bytes b) ++ padding 8 m)) by fits.
  assert (Hpad : WritePadding 8 8 (wr (l ++ data_bytes b)) = Ok (wr ((l ++ data_bytes b) ++ padding 8 m))).
  { rewrite <- Hm. apply WritePadding_spec; [lia..|]. by rewrite Hm. }
  assert (Hsz : u32 (len (l ++ data_bytes b) - len l) = len (data_bytes b)).
  { rewrite length_app. rewrite uwrap_small; [lia|]. unfold urange. fits. }
  unfold write_block. cbn [bb_wpos wr]. change (mkBB l 0 (len l)) with (wr l). destruct b as [e refs|ps|guid lod ps|refs]; cbn [data_bytes] in *.
  - rewrite write_refs_wr, Hpad by done. cbn [mbind result_bind]. rewrite write_hash_wr by fits. rewrite Hs.
    rewrite putLong_wr by fits. rewrite putLong_wr by fits. by rewrite <- !app_assoc.
  - pose proof (parameters_bytes_count ps). rewrite write_parameters_wr by (done || fits). cbn [bb_wpos wr]. rewrite Hsz, Hpad.
    cbn [mbind result_bind]. rewrite write_hash_wr by fits. rewrite Hs.
    rewrite putLong_wr by fits. rewrite putLong_wr by fits. by rewrite <- !app_assoc.
  - destruct Hb as (_ & _ & Hps). pose proof (parameters_bytes_count ps). rewrite write_parameters_wr by (done || fits).
    cbn [bb_wpos wr]. rewrite Hsz, Hpad. cbn [mbind result_bind]. rewrite write_hash_wr by fits. rewrite Hs.
    rewrite putLong_wr by fits. rewrite putInt_wr by fits. rewrite putInt_wr by fits. rewrite bb_putBytes_wr by fits.
    by rewrite <- !app_assoc.
  - rewrite write_shader_refs_wr, Hpad by done. cbn [mbind result_bind]. rewrite write_hash_wr by fits. rewrite Hs.
    rewrite putLong_wr by fits. rewrite putLong_wr by fits. by rewrite <- !app_assoc.
Qed.

(** ** Reading the bytes back *)

Section read.
Context (D : list byte) (w : Z) (HD : fits D).

Lemma parses_parameter p : parameter_wf p -> parses D w read_parameter (parameter_bytes p) p.
Proof.
  intros [H1 H2 H3 H4 H5 H6 H7]. unfold read_parameter, parameter_bytes.
  do 3 (eapply parses_bind; [by apply parses_read|]).
  assert (E1 : urange 16 (Z.shiftr (p_nameHash p) 16)).
  { rewrite Z.shiftr_div_pow2 by lia. unfold urange in *. split; [apply Z.div_pos; lia|apply Z.div_lt_upper_bound; lia]. }
  eapply parses_bind; [by apply parses_read|].
  eapply parses_bind; [apply parses_read; [done|destruct (_ =? _); unfold urange; lia]|].
  assert (E2 : (if p_typeHash p =? kITexture then 16 else i32 (if p_typeHash p =? kITexture then 1 else len (p_value p))) = len (p_value p)).
  { destruct (Z.eqb_spec (p_typeHash p) kITexture) as [E|_]; [by rewrite (H7 E)|]. apply swrap_small; [lia|]. unfold srange. lia. }
  rewrite E2. rewrite (proj2 (Z.ltb_ge _ _)), Nat2Z.id by lia.
  apply (parses_map_eq D w (bb_getBytes _) (fun v => mkParameter _ _ _ v _) _ (p_value p)); [by apply parses_getBytes|].
  assert (E3 : u32 (Z.lor (Z.shiftl (Z.shiftr (p_nameHash p) 16) 16) (Z.land (Z.shiftr (p_parameterHash p) 48) 0xFFFF)) = p_nameHash p).
  { assert (Hlo : Z.land (Z.shiftr (p_parameterHash p) 48) 0xFFFF = p_nameHash p mod 2 ^ 16).
    { rewrite H5, Z.shiftr_div_pow2 by lia. change 0xFFFF with (Z.ones 16). rewrite Z.land_ones by lia.
      rewrite Z.mod_small; [done|]. unfold urange in H1. split; [apply Z.div_pos; lia|apply Z.div_lt_upper_bound; lia]. }
    rewrite Hlo. rewrite Z.shiftl_mul_pow2, Z.shiftr_div_pow2 by lia.
    assert (Hlor : Z.lor (p_nameHash p / 2 ^ 16 * 2 ^ 16) (p_nameHash p mod 2 ^ 16) = p_nameHash p).
    { rewrite Z.lor_comm, lor_shift_add by (lia || by apply Z.mod_pos_bound). rewrite Z.add_comm, Z.mul_comm. symmetry. by apply Z.div_mod. }
    rewrite Hlor. by apply uwrap_small. }
  rewrite E3. by destruct p.
Qed.

Lemma parses_parameters {B} (f : list ParameterEntry -> B) ps :
  Forall parameter_wf ps -> len ps < 2 ^ 32 ->
  parses D w (count ← bb_getInt; ps ← Rd_repeat (Z.to_nat count) read_parameter; mret (f ps)) (parameters_bytes ps) (f ps).
Proof.
  intros Hps Hlen. unfold parameters_bytes. eapply parses_bind; [apply parses_read; [done|unfold urange; lia]|].
  rewrite Nat2Z.id. apply parses_map, parses_repeat_id. intros p Hp. apply parses_parameter. by eapply list.Forall_forall in Hps.
Qed.

Lemma parses_refs refs :
  Forall (urange 31) refs -> parses D w (Rd_repeat (length refs) (i ← bb_getInt; mret (i32 i))) (mjoin (le_split 4 <$> refs)) refs.
Proof.
  intros Hr. apply parses_repeat_id. intros i Hi. eapply list.Forall_forall in Hr; [|exact Hi].
  apply (parses_map_eq D w bb_getInt i32 _ i); [apply parses_read; [done|unfold urange in *; lia]|].
  apply swrap_small; [lia|]. unfold urange, srange in *. lia.
Qed.

Lemma parses_shader_refs refs :
  Forall (fun r => guid_wf r.1 /\ srange 32 r.2) refs ->
  parses D w (Rd_repeat (length refs) read_shader_ref) (mjoin (shader_ref_bytes <$> refs)) refs.
Proof.
  intros Hr. apply parses_repeat_id. intros [g i] Hi. eapply list.Forall_forall in Hr as [Hg Hr]; [|exact Hi]. cbn in Hg, Hr.
  unfold read_shader_ref, shader_ref_bytes. cbn [fst snd]. eapply parses_bind; [unfold guid_wf in Hg; rewrite <- Hg; by apply parses_getBytes|].
  apply (parses_map_eq D w bb_getInt (fun i => (g, i32 i)) _ (u32 i)); [apply parses_read; [done|by apply uwrap_range]|].
  by rewrite swrap_uwrap.
Qed.

(** A reader that jumps to [A] and parses what stands there. *)
Lemma jump_parses {B} (rd : Rd B) A bs b rest r :
  D = A ++ bs ++ rest -> parses D w rd bs b ->
  (_ ← Rd_modify (bb_setReadPos (len A)); rd) (mkBB D r w) = Ok (b, mkBB D (len (A ++ bs)) w).
Proof.
  intros Hd Hp. unfold mbind at 1, Rd_bind at 1, Rd_modify. rewrite (bb_jump D w A (bs ++ rest) r HD Hd). by apply (Hp A rest).
Qed.

Lemma jump_parses_map {B C} (rd : Rd B) (f : B -> C) A bs b rest r :
  D = A ++ bs ++ rest -> parses D w rd bs b ->
  (_ ← Rd_modify (bb_setReadPos (len A)); x ← rd; mret (f x)) (mkBB D r w) = Ok (f b, mkBB D (len (A ++ bs)) w).
Proof. intros Hd Hp. apply (jump_parses _ A bs (f b) rest r Hd). by apply parses_map. Qed.

Lemma mjoin_count {X} (enc : X -> list byte) (xs : list X) : (forall x, (1 <= length (enc x))%nat) -> (length xs <= length (mjoin (enc <$> xs)))%nat.
Proof.
  intros H. induction xs as [|x xs IH]; [done|]. change (mjoin (enc <$> x :: xs)) with (enc x ++ mjoin (enc <$> xs)).
  rewrite length_app. specialize (H x). cbn [length]. lia.
Qed.

Lemma loop_count_ok n buf : Z.of_nat n < 2 ^ 32 -> loop_count (Z.of_nat n) buf = Ok (n, buf).
Proof. intros H. unfold loop_count. rewrite (proj2 (Z.leb_gt _ _)), Nat2Z.id by lia. done. Qed.

Lemma parses_loop_count {B} n (f : nat -> Rd B) bs b :
  Z.of_nat n < 2 ^ 32 -> parses D w (f n) bs b -> parses D w (n ← loop_count (Z.of_nat n); f n) bs b.
Proof. intros Hn Hp pre rest Hd. unfold mbind, Rd_bind. rewrite loop_count_ok by done. by apply (Hp pre rest). Qed.

(** A resource reads back from wherever it was written. *)
Lemma read_block_saved A P rest hash b :
  D = A ++ data_bytes b ++ P ++ record_bytes hash (len A) b ++ rest -> urange 64 hash -> body_wf b ->
  read_block (type_of b) (mkBB D (len (A ++ data_bytes b ++ P)) w) = Ok ((hash, b), mkBB D (len (A ++ data_bytes b)) w).
Proof.
  intros Hd Hh Hb. pose proof HD as HD'. rewrite Hd in HD'.
  assert (HA : urange 64 (len A)) by (unfold urange; fits).
  unfold record_bytes in Hd, HD'. rewrite <- !app_assoc in Hd.
  unfold read_block. parse_step (parses_read D w HD 8 hash Hh).
  destruct b as [e refs|ps|guid lod ps|refs]; cbn [data_bytes body_wf type_of] in *.
  - assert (Hlen : len refs < 2 ^ 32) by (pose proof (mjoin_count (le_split 4) refs ltac:(intros; rewrite length_le_split; lia)); fits).
    assert (E : forall (X : Rd (Z * Body Z)) Y Z, match (if e then 0 else 2) with 1 => X | 3 => Y | 4 => Z | _ =>
       offset ← bb_getLong; size ← bb_getLong; _ ← Rd_modify (bb_setReadPos offset);
       n ← loop_count size; refs ← Rd_repeat n (i ← bb_getInt; mret (i32 i)); mret (hash, StaticParams ((if e then 0 else 2) =? 0) refs) end =
       (offset ← bb_getLong; size ← bb_getLong; _ ← Rd_modify (bb_setReadPos offset);
       n ← loop_count size; refs ← Rd_repeat n (i ← bb_getInt; mret (i32 i)); mret (hash, StaticParams e refs))) by by destruct e.
    rewrite E. parse_step (parses_read D w HD 8 _ HA). parse_step (parses_read D w HD 8 (len refs) ltac:(unfold urange; lia)).
    eapply (jump_parses _ A _ _ _ _ Hd). apply (parses_loop_count (length refs)); [done|].
    apply (parses_map D w _ (fun l => (hash, StaticParams e l))). by apply parses_refs.
  - pose proof (parameters_bytes_count ps) as Hc.
    parse_step (parses_read D w HD 8 _ HA). parse_step (parses_read D w HD 8 (len (parameters_bytes ps)) ltac:(unfold urange; fits)).
    eapply (jump_parses _ A _ _ _ _ Hd). apply (parses_parameters (fun l => (hash, PersistentParams l)) ps Hb). fits.
  - destruct Hb as (Hg & Hl & Hps). pose proof (parameters_bytes_count ps) as Hc.
    rewrite <- !app_assoc in Hd.
    parse_step (parses_read D w HD 8 _ HA). parse_step (parses_read D w HD 4 (len (parameters_bytes ps)) ltac:(unfold urange; fits)).
    parse_step (parses_read D w HD 4 (u32 lod) ltac:(by apply uwrap_range)).
    replace 16%nat with (length guid) by exact Hg. parse_step (parses_getBytes D w HD guid).
    rewrite swrap_uwrap by done.
    eapply (jump_parses _ A _ _ _ _ Hd). apply (parses_parameters (fun l => (hash, MeshParams guid lod l)) ps Hps). fits.
  - assert (Hlen : len refs < 2 ^ 32).
    { pose proof (mjoin_count shader_ref_bytes refs ltac:(intros; unfold shader_ref_bytes; rewrite length_app, length_le_split; lia)). fits. }
    parse_step (parses_read D w HD 8 _ HA). parse_step (parses_read D w HD 8 (len refs) ltac:(unfold urange; lia)).
    eapply (jump_parses _ A _ _ _ _ Hd). apply (parses_loop_count (length refs)); [done|].
    apply (parses_map D w _ (fun l => (hash, MeshVariation l))). by apply parses_shader_refs.
Qed.
End read.

(** *** Whatever is read is well formed *)

Lemma post_parameter : post parameter_wf read_parameter.
Proof.
  unfold read_parameter. eapply post_bind; [apply post_read|]. intros hash Hh. eapply post_bind; [apply post_read|]. intros type Ht.
  eapply post_bind; [apply post_read|]. intros used Hu. eapply post_bind; [apply post_read|]. intros hi Hi.
  eapply post_bind; [apply post_read|]. intros size Hs. cbn zeta. set (n := if type =? kITexture then 16 else i32 size).
  assert (Hn : n < 2 ^ 31).
  { unfold n. destruct (_ =? _); [done|]. unfold swrap. pose proof (Z.mod_pos_bound (size + 2 ^ (32 - 1)) (2 ^ 32)). lia. }
  destruct (Z.ltb_spec n 0); [apply post_fault|]. eapply post_bind; [apply post_getBytes|]. intros value Hv. apply post_ret.
  change (Z.of_nat 8 * 8) with 64 in Hh. change (Z.of_nat 2 * 8) with 16 in Hi.
  assert (Hb : Z.land (Z.shiftr hash 48) 0xFFFF = hash / 2 ^ 48 /\ 0 <= hash / 2 ^ 48 < 2 ^ 16).
  { unfold urange in Hh. change 0xFFFF with (Z.ones 16). rewrite Z.land_ones, Z.shiftr_div_pow2 by lia.
    assert (0 <= hash / 2 ^ 48 < 2 ^ 16) by (split; [apply Z.div_pos; lia|apply Z.div_lt_upper_bound; lia]). by rewrite Z.mod_small. }
  destruct Hb as [Hb Hr]. rewrite Hb, Z.shiftl_mul_pow2, Z.lor_comm, lor_shift_add by lia.
  unfold urange in Hi. rewrite uwrap_small by (unfold urange; lia).
  split; cbn; try done; try lia.
  - unfold urange. lia.
  - rewrite Z.mod_add by done. by apply Z.mod_small.
  - rewrite Hv. lia.
  - intros ->. rewrite Hv. unfold n. by rewrite Z.eqb_refl.
Qed.

Lemma srange_i32 v : srange 32 (i32 v).
Proof. unfold srange, swrap. pose proof (Z.mod_pos_bound (v + 2 ^ (32 - 1)) (2 ^ 32)). lia. Qed.

Lemma post_shader_ref : post (fun r => guid_wf r.1 /\ srange 32 r.2) read_shader_ref.
Proof.
  eapply post_bind; [apply post_getBytes|]. intros g Hg. eapply post_bind; [apply post_read|]. intros i _.
  apply post_ret. split; [done|apply srange_i32].
Qed.

Lemma post_loop_count size : post (fun _ => True) (loop_count size).
Proof. unfold loop_count. destruct (_ <=? _); [apply post_fault|by apply post_ret]. Qed.

(** As [body_wf], before the references were found to be in range. *)
Definition body_read (b : Body Z) : Prop :=
  match b with StaticParams _ refs => Forall (srange 32) refs | _ => body_wf b end.

Definition known_type (t : Z) : Prop := is_Some (new_body (P := Z) t).

Lemma known_types t : known_type t -> t ∈ [0; 1; 2; 3; 4].
Proof.
  unfold known_type, new_body. rewrite !elem_of_cons. intros [b H]. destruct t as [|p|p]; [tauto| |discriminate].
  do 3 (destruct p as [p|p|]; try discriminate; try tauto).
Qed.

Lemma post_read_block t :
  known_type t -> post (fun hb => urange 64 hb.1 /\ body_read hb.2 /\ type_of hb.2 = t) (read_block t).
Proof.
  intros Ht%known_types. unfold read_block. eapply post_bind; [apply post_read|]. intros hash Hh.
  assert (Hparams : forall (f : list ParameterEntry -> Body Z), (forall ps, Forall parameter_wf ps -> body_read (f ps) /\ type_of (f ps) = t) ->
    post (fun hb => urange 64 hb.1 /\ body_read hb.2 /\ type_of hb.2 = t)
      (count ← bb_getInt; params ← Rd_repeat (Z.to_nat count) read_parameter; mret (hash, f params))).
  { intros f Hf. eapply post_bind; [apply post_read|]. intros n _. eapply post_bind; [apply post_repeat, post_parameter|].
    intros ps [_ Hps]. apply post_ret. by split; [|apply Hf]. }
  assert (Hstatic : t = 0 \/ t = 2 -> post (fun hb => urange 64 hb.1 /\ body_read hb.2 /\ type_of hb.2 = t)
    (offset ← bb_getLong; size ← bb_getLong; _ ← Rd_modify (bb_setReadPos offset);
     n ← loop_count size; refs ← Rd_repeat n (i ← bb_getInt; mret (i32 i)); mret (hash, StaticParams (t =? 0) refs))).
  { intros Ht'. do 2 (eapply post_bind; [apply post_read|intros ? _]). eapply post_bind; [apply post_setReadPos|intros _ _].
    eapply post_bind; [apply post_loop_count|intros n _].
    eapply post_bind; [apply (post_repeat (srange 32)); eapply post_bind; [apply post_read|intros i _; apply post_ret, srange_i32]|].
    intros refs [_ Hr]. apply post_ret. split; [done|]. split; [done|]. by destruct Ht' as [-> | ->]. }
  rewrite !elem_of_cons in Ht. destruct Ht as [->|[->|[->|[->|[->|Ht]]]]]; [by apply Hstatic; left| |by apply Hstatic; right| | |by apply elem_of_nil in Ht].
  - do 2 (eapply post_bind; [apply post_read|intros ? _]). eapply post_bind; [apply post_setReadPos|intros _ _].
    by apply (Hparams PersistentParams).
  - do 2 (eapply post_bind; [apply post_read|intros ? _]). eapply post_bind; [apply post_read|intros lod _].
    eapply post_bind; [apply post_getBytes|intros g Hg]. eapply post_bind; [apply post_setReadPos|intros _ _].
    apply (Hparams (fun ps => MeshParams g (i32 lod) ps)). intros ps Hps. split; [|done]. split; [done|]. split; [apply srange_i32|done].
  - do 2 (eapply post_bind; [apply post_read|intros ? _]). eapply post_bind; [apply post_setReadPos|intros _ _].
    eapply post_bind; [apply post_loop_count|intros n _]. eapply post_bind; [apply post_repeat, post_shader_ref|].
    intros refs [_ Hr]. by apply post_ret.
Qed.

(** ** Depots as files *)

(** A file of [n] resources: the headers, then the resources where they say. *)
Definition read_at_header (header : Z * Z) : Rd (Z * Body Z) :=
  match new_body (P := Z) header.2 with
  | None => Rd_fault Undefined
  | Some _ => _ ← Rd_modify (bb_setReadPos header.1); read_block header.2
  end.
Definition read_depot (n : nat) : Rd (list (Z * Body Z)) := headers ← Rd_repeat n read_header; mapM read_at_header headers.

Fixpoint blocks_bytes (n : Z) (blocks : list (Z * Body Z)) : list byte :=
  match blocks with
  | [] => []
  | (hash, b) :: blocks => block_bytes n hash b ++ blocks_bytes (n + len (block_bytes n hash b)) blocks
  end.
Fixpoint block_starts (n : Z) (blocks : list (Z * Body Z)) : list Z :=
  match blocks with
  | [] => []
  | (hash, b) :: blocks => start_of n b :: block_starts (n + len (block_bytes n hash b)) blocks
  end.

(** The positions of the pointers: the offset in each resource, and the header's. *)
Fixpoint block_relocs (i n : Z) (blocks : list (Z * Body Z)) : list Z :=
  match blocks with
  | [] => []
  | (hash, b) :: blocks => start_of n b + 8 :: i * 16 :: block_relocs (i + 1) (n + len (block_bytes n hash b)) blocks
  end.

Definition header_bytes (header : Z * Z) : list byte := le_split 8 header.1 ++ le_split 8 header.2.
Definition header_size (blocks : list (Z * Body Z)) : Z := 16 * len blocks.
Definition depot_headers (blocks : list (Z * Body Z)) : list (Z * Z) :=
  zip (block_starts (header_size blocks) blocks) ((fun hb => type_of hb.2) <$> blocks).
Definition depot_body (blocks : list (Z * Body Z)) : list byte :=
  let b := blocks_bytes (header_size blocks) blocks in b ++ padding 16 (header_size blocks + len b).
Definition depot_bytes (blocks : list (Z * Body Z)) : list byte := mjoin (header_bytes <$> depot_headers blocks) ++ depot_body blocks.

Definition block_wf (hb : Z * Body Z) : Prop := urange 64 hb.1 /\ body_wf hb.2.

Lemma block_starts_length n blocks : length (block_starts n blocks) = length blocks.
Proof. revert n. induction blocks as [|[h b] blocks IH]; intros n; [done|]. cbn. by rewrite IH. Qed.

Lemma headers_length headers : length (mjoin (header_bytes <$> headers)) = (16 * length headers)%nat.
Proof.
  induction headers as [|h hs IH]; [done|]. change (mjoin (header_bytes <$> h :: hs)) with (header_bytes h ++ mjoin (header_bytes <$> hs)).
  rewrite length_app, IH. unfold header_bytes. rewrite length_app, !length_le_split. cbn [length]. lia.
Qed.

Lemma depot_headers_length blocks : length (depot_headers blocks) = length blocks.
Proof. unfold depot_headers. rewrite length_zip, length_fmap, block_starts_length. lia. Qed.

Lemma header_size_length blocks : len (mjoin (header_bytes <$> depot_headers blocks)) = header_size blocks.
Proof. rewrite headers_length, depot_headers_length. unfold header_size. lia. Qed.

Lemma new_body_type_of {P} (b : Body P) : known_type (type_of b).
Proof. destruct b as [[]| | |]; by eexists. Qed.

Lemma read_at_header_saved D w A hash b rest r :
  fits D -> D = A ++ block_bytes (len A) hash b ++ rest -> urange 64 hash -> body_wf b ->
  read_at_header (start_of (len A) b, type_of b) (mkBB D r w) = Ok ((hash, b), mkBB D (len (A ++ data_bytes b)) w).
Proof.
  intros HD Hd Hh Hb. set (m := len A + len (data_bytes b)).
  assert (Hd1 : D = A ++ data_bytes b ++ padding 8 m ++ record_bytes hash (len A) b ++ rest).
  { rewrite Hd. unfold block_bytes. fold m. by rewrite <- !app_assoc. }
  assert (Hs : start_of (len A) b = len (A ++ data_bytes b ++ padding 8 m)) by (unfold start_of; fold m; rewrite !length_app; lia).
  unfold read_at_header. cbn [fst snd]. destruct (new_body_type_of (P := Z) b) as [b0 E0]. rewrite E0.
  unfold mbind, Rd_bind, Rd_modify. rewrite Hs.
  rewrite (bb_jump D w _ (record_bytes hash (len A) b ++ rest) r HD) by (rewrite Hd1; by rewrite <- !app_assoc).
  by apply (read_block_saved D w HD A (padding 8 m) rest).
Qed.

(** Reading the resources of a file that holds them from [A] on. *)
Lemma read_blocks_saved D w blocks A rest r :
  fits D -> D = A ++ blocks_bytes (len A) blocks ++ rest -> Forall block_wf blocks ->
  exists r', mapM read_at_header (zip (block_starts (len A) blocks) ((fun hb => type_of hb.2) <$> blocks)) (mkBB D r w) = Ok (blocks, mkBB D r' w).
Proof.
  intros HD. revert A r. induction blocks as [|[hash b] blocks IH]; intros A r Hd Hwf; [by exists r|].
  apply list.Forall_cons in Hwf as [[Hh Hb] Hwf]. cbn [fst snd] in Hh, Hb. cbn [blocks_bytes] in Hd.
  rewrite <- app_assoc in Hd.
  change (mapM read_at_header _) with
    (hb ← read_at_header (start_of (len A) b, type_of b);
     hbs ← mapM read_at_header (zip (block_starts (len A + len (block_bytes (len A) hash b)) blocks) ((fun hb => type_of hb.2) <$> blocks));
     mret (hb :: hbs)).
  rewrite (Rd_bind_ok _ _ _ _ _ (read_at_header_saved D w A hash b _ r HD Hd Hh Hb)).
  assert (Hl : len A + len (block_bytes (len A) hash b) = len (A ++ block_bytes (len A) hash b)) by (rewrite length_app; lia).
  rewrite Hl in *. rewrite app_assoc in Hd.
  destruct (IH (A ++ block_bytes (len A) hash b) (len (A ++ data_bytes b)) Hd Hwf) as [r' E].
  exists r'. by rewrite (Rd_bind_ok _ _ _ _ _ E).
Qed.

Lemma block_starts_bound n blocks : 0 <= n -> Forall (fun s => 0 <= s <= n + len (blocks_bytes n blocks)) (block_starts n blocks).
Proof.
  revert n. induction blocks as [|[hash b] blocks IH]; intros n Hn; [constructor|]. cbn [block_starts blocks_bytes].
  assert (Hb : start_of n b <= n + len (block_bytes n hash b)).
  { unfold start_of, block_bytes. rewrite !length_app. lia. }
  constructor.
  - unfold start_of in *. rewrite length_app. lia.
  - eapply list.Forall_impl; [apply IH; lia|]. intros s Hs. cbn in Hs. rewrite length_app. lia.
Qed.

Lemma type_of_range {P} (b : Body P) : 0 <= type_of b <= 4.
Proof. destruct b as [[]| | |]; cbn; lia. Qed.

Lemma depot_headers_range blocks h :
  fits (depot_bytes blocks) -> h ∈ depot_headers blocks -> urange 64 h.1 /\ urange 64 h.2.
Proof.
  intros HD Hin. assert (Hs : len (blocks_bytes (header_size blocks) blocks) + header_size blocks < 2 ^ 32).
  { unfold depot_bytes, depot_body in HD. cbn zeta in HD. pose proof (header_size_length blocks). unfold fits in HD. rewrite !length_app in HD. lia. }
  destruct h as [s t]. apply elem_of_zip_l in Hin as H1. apply elem_of_zip_r in Hin as H2. cbn [fst snd].
  pose proof (block_starts_bound (header_size blocks) blocks ltac:(unfold header_size; lia)) as Hb.
  eapply list.Forall_forall in Hb; [|exact H1]. cbn in Hb.
  apply list_elem_of_fmap in H2 as ([hash b] & -> & _). pose proof (type_of_range b). cbn [snd]. unfold urange. lia.
Qed.

Lemma read_depot_saved w blocks :
  Forall block_wf blocks -> fits (depot_bytes blocks) ->
  exists r, read_depot (length blocks) (mkBB (depot_bytes blocks) 0 w) = Ok (blocks, mkBB (depot_bytes blocks) r w).
Proof.
  intros Hwf HD. set (D := depot_bytes blocks) in *. unfold read_depot. set (hs := depot_headers blocks).
  assert (HDe : D = [] ++ mjoin (header_bytes <$> hs) ++ depot_body blocks) by done.
  assert (Hhs : parses D w (Rd_repeat (length hs) read_header) (mjoin (header_bytes <$> hs)) hs).
  { apply parses_repeat_id. intros [s t] Hin. destruct (depot_headers_range blocks _ HD Hin) as [H1 H2].
    unfold read_header, header_bytes. eapply parses_bind; [by apply parses_read|].
    apply (parses_map D w bb_getLong (fun x => (s, x))). by apply parses_read. }
  replace (length blocks) with (length hs) by apply depot_headers_length. change (mkBB D 0 w) with (mkBB D (len (@nil byte)) w).
  erewrite (parses_run D w _ _ _ _ [] _ Hhs); [|exact HDe]. cbn [app].
  unfold hs at 1. unfold depot_headers. rewrite <- (header_size_length blocks). fold hs.
  eapply (read_blocks_saved D w blocks (mjoin (header_bytes <$> hs)) _ _ HD); [|done].
  unfold hs. rewrite header_size_length. exact HDe.
Qed.

(** ** Writing a depot *)

(** The resource behind a pointer, with the indices of the objects it refers to. *)
Definition shows (h : Heap) (a : Z) (hb : Z * Body Z) : Prop :=
  exists b, object a h = Ok b /\ m_hash b = hb.1 /\ map_body (fun p => m_index <$> object p h) (m_body b) = Ok hb.2.

Lemma type_of_map_body {P Q} (f : P -> result Q) b b' : map_body f b = Ok b' -> type_of b' = type_of b.
Proof.
  destruct b as [e refs|ps|g lod ps|refs]; cbn; [|by intros [= <-]..]. by intros (refs' & _ & [= <-])%result_bind_ok.
Qed.

Lemma Write_shows h a hb table l :
  shows h a hb -> block_wf hb -> fits (l ++ block_bytes (len l) hb.1 hb.2) ->
  Write a h table (wr l) = Ok (wr (l ++ block_bytes (len l) hb.1 hb.2), table ++ [start_of (len l) hb.2 + 8], start_of (len l) hb.2).
Proof.
  intros (b & Ha & Hh & Hb) [_ Hwf] Hf. unfold Write. rewrite Ha. cbn [mbind result_bind]. rewrite Hb. cbn [mbind result_bind].
  rewrite Hh. by apply write_block_wr.
Qed.

Lemma fixup_write_shows h i as_ blocks l table :
  Forall2 (shows h) as_ blocks -> Forall block_wf blocks -> fits (l ++ blocks_bytes (len l) blocks) ->
  fixup_write h i as_ (wr l) table =
    Ok (wr (l ++ blocks_bytes (len l) blocks), table ++ block_relocs i (len l) blocks, block_starts (len l) blocks).
Proof.
  intros H. revert i l table. induction H as [|a [hash b] as_ blocks Ha _ IH]; intros i l table Hwf Hf.
  - cbn [fixup_write block_relocs block_starts blocks_bytes]. by rewrite !app_nil_r.
  - apply list.Forall_cons in Hwf as [Hb Hwf]. cbn [blocks_bytes block_relocs block_starts] in *.
    assert (Hl : len l + len (block_bytes (len l) hash b) = len (l ++ block_bytes (len l) hash b)) by (rewrite length_app; lia).
    rewrite Hl in *. rewrite app_assoc in Hf.
    cbn [fixup_write]. rewrite (Write_shows h a (hash, b)) by (done || by eapply fits_app_l). cbn [mbind result_bind fst snd].
    rewrite IH by done. cbn [mbind result_bind]. by rewrite <- !app_assoc.
Qed.

Lemma put_headers hs k (rest : list byte) r :
  fits (mjoin (header_bytes <$> k) ++ mjoin (header_bytes <$> hs) ++ rest) ->
  foldl put_header (mkBB (mjoin (header_bytes <$> k) ++ replicate (16 * length hs) Byte.x00 ++ rest) r (len (mjoin (header_bytes <$> k)))) hs =
    mkBB (mjoin (header_bytes <$> (k ++ hs)) ++ rest) r (len (mjoin (header_bytes <$> (k ++ hs)))).
Proof.
  revert k. induction hs as [|h hs IH]; intros k Hf; [cbn; by rewrite !app_nil_r|].
  change (mjoin (header_bytes <$> h :: hs)) with (header_bytes h ++ mjoin (header_bytes <$> hs)) in Hf.
  assert (Hk : mjoin (header_bytes <$> (k ++ [h])) = mjoin (header_bytes <$> k) ++ header_bytes h).
  { rewrite fmap_app, join_app. cbn. by rewrite app_nil_r. }
  cbn [foldl]. replace (k ++ h :: hs) with ((k ++ [h]) ++ hs) by by rewrite <- app_assoc.
  rewrite <- IH by (rewrite Hk, <- !app_assoc in *; exact Hf). f_equal. rewrite Hk. unfold put_header, header_bytes.
  replace (16 * length (h :: hs))%nat with (8 + (8 + 16 * length hs))%nat by (cbn [length]; lia). rewrite !replicate_add, <- !app_assoc.
  assert (Hlen : forall v, length (le_split 8 v) = length (replicate 8 Byte.x00)) by (intros v; by rewrite length_le_split).
  unfold bb_putLong. set (zs := replicate 8 Byte.x00) in *. unfold header_bytes in Hf.
  assert (Hz : len zs = 8) by done.
  rewrite (bb_append_mid (mjoin ((fun header => le_split 8 header.1 ++ le_split 8 header.2) <$> k)) zs _ (le_split 8 h.1) r (Hlen _)).
  - rewrite (app_assoc _ (le_split 8 h.1)). rewrite (bb_append_mid _ zs _ (le_split 8 h.2) r (Hlen _)).
    + rewrite <- !app_assoc. done.
    + unfold fits in *. rewrite !length_app in *. rewrite length_replicate. rewrite !length_le_split in *.
      pose proof (headers_length hs) as Hhs. unfold header_bytes in Hhs. lia.
  - unfold fits in *. rewrite !length_app in *. rewrite length_replicate. rewrite !length_le_split in *.
    pose proof (headers_length hs) as Hhs. unfold header_bytes in Hhs. lia.
Qed.

Lemma write_zero_headers (xs : list Z) l :
  fits (l ++ replicate (16 * length xs) Byte.x00) ->
  foldl (fun buf _ => bb_putLong 0 (bb_putLong 0 buf)) (wr l) xs = wr (l ++ replicate (16 * length xs) Byte.x00).
Proof.
  revert l. induction xs as [|x xs IH]; intros l Hf; [cbn; by rewrite app_nil_r|]. cbn [foldl].
  replace (16 * length (x :: xs))%nat with (8 + (8 + 16 * length xs))%nat in * by (cbn [length]; lia).
  rewrite !replicate_add in *. change (replicate 8 Byte.x00) with (le_split 8 0) in *.
  rewrite putLong_wr by fits. rewrite putLong_wr by fits. rewrite IH by (rewrite <- !app_assoc; exact Hf). by rewrite <- !app_assoc.
Qed.

Lemma fixup_headers_shows h as_ blocks :
  Forall2 (shows h) as_ blocks ->
  mapM (fun a => (fun b => type_of (m_body b)) <$> object a h) as_ = Ok ((fun hb => type_of hb.2) <$> blocks).
Proof.
  induction 1 as [|a hb as_ blocks (b & Ha & _ & Hb) _ IH]; [done|]. cbn [mapM]. rewrite Ha. cbn [fmap result_fmap mbind result_bind].
  rewrite IH. cbn.
  by rewrite <- (type_of_map_body _ _ _ Hb).
Qed.

(** The second half of the hook, on resources that show [blocks]. *)
Lemma fixup_write_depot h as_ blocks :
  Forall2 (shows h) as_ blocks -> Forall block_wf blocks -> fits (depot_bytes blocks) ->
  (let buf := foldl (fun buf _ => bb_putLong 0 (bb_putLong 0 buf)) bb_empty as_ in
   '(buf, table, starts) ← fixup_write h 0 as_ buf [];
   buf ← WritePadding 16 16 buf;
   let fullSize := bb_wpos buf in
   buf ← fixup_headers h as_ starts buf;
   Ok (mkFixup (take (Z.to_nat fullSize) (bb_buf buf)) table (len as_))) =
  Ok (mkFixup (depot_bytes blocks) (block_relocs 0 (header_size blocks) blocks) (len blocks)).
Proof.
  intros Hs Hwf Hf. assert (Hlen : length as_ = length blocks) by (by eapply list.Forall2_length). cbn zeta.
  set (zs := replicate (16 * length as_) Byte.x00).
  assert (Hzs : len zs = header_size blocks) by (unfold zs, header_size; rewrite length_replicate; lia).
  set (bs := blocks_bytes (header_size blocks) blocks).
  set (pad := padding 16 (header_size blocks + len bs)).
  assert (Hf' : fits (zs ++ bs ++ pad)).
  { unfold depot_bytes, depot_body in Hf. cbn zeta in Hf. fold bs pad in Hf. unfold fits in *. rewrite !length_app in *.
    pose proof (header_size_length blocks). lia. }
  change bb_empty with (wr []). rewrite write_zero_headers by (cbn [app]; fold zs; fits). cbn [app]. fold zs.
  rewrite (fixup_write_shows h 0 as_ blocks zs []) by (rewrite ?Hzs; done || (fold bs; fits)). rewrite Hzs. fold bs.
  cbn [mbind result_bind app].
  assert (Hpad : WritePadding 16 16 (wr (zs ++ bs)) = Ok (wr ((zs ++ bs) ++ pad))).
  { unfold pad. rewrite <- Hzs. replace (len zs + len bs) with (len (zs ++ bs)) by (rewrite length_app; lia).
    apply WritePadding_spec; [lia..|]. rewrite length_app, Nat2Z.inj_add, Hzs. fold pad. by rewrite <- app_assoc. }
  rewrite Hpad. cbn [mbind result_bind bb_wpos wr]. unfold fixup_headers. rewrite (fixup_headers_shows _ _ _ Hs). cbn [mbind result_bind].
  fold (depot_headers blocks). set (hs := depot_headers blocks). assert (Hhs : length hs = length as_) by (unfold hs; rewrite depot_headers_length; lia).
  assert (E : foldl put_header (bb_setWritePos 0 (wr ((zs ++ bs) ++ pad))) hs = mkBB (depot_bytes blocks) 0 (len (mjoin (header_bytes <$> hs)))).
  { unfold bb_setWritePos. cbn [bb_buf bb_rpos wr]. rewrite <- app_assoc. unfold zs. rewrite <- Hhs.
    etransitivity; [apply (put_headers hs [] (bs ++ pad) 0)|done]. exact Hf. }
  change (mkBB ((zs ++ bs) ++ pad) 0 (len ((zs ++ bs) ++ pad))) with (wr ((zs ++ bs) ++ pad)). rewrite E. cbn [bb_buf].
  do 2 f_equal; [|lia]. rewrite Nat2Z.id. apply firstn_all2. unfold depot_bytes, depot_body. cbn zeta. fold bs pad.
  rewrite !length_app. pose proof (header_size_length blocks). lia.
Qed.

(** ** The mods' resources as files *)

(** A mod's file is read without a list of entries, so a resource in it must not
    refer to others. *)
Definition closed (b : Body Z) : bool := match b with StaticParams _ (_ :: _) => false | _ => true end.

Definition read_mod_block (header : Z * Z) : Rd (Z * Body Z) :=
  match new_body (P := Z) header.2 with
  | None => Rd_fault Thrown
  | Some _ => _ ← Rd_modify (bb_setReadPos header.1); hb ← read_block header.2; if closed hb.2 then mret hb else Rd_fault Undefined
  end.
Definition read_mod_file : Rd (list (Z * Body Z)) :=
  count ← bb_getInt; _ ← ReadPadding 16 16; headers ← Rd_repeat (Z.to_nat count) read_header; mapM read_mod_block headers.

Definition mod_file_step (name : list byte) (files : list (list (Z * Body Z))) (r : ModResource) : result (list (list (Z * Body Z))) :=
  if negb (bool_decide (mr_type r = FrostyResourceType_Res)) || negb (bool_decide (mr_name r = name)) then Ok files else
  if mr_handlerHash r =? 0 then Ok files else
  buf ← depot_buffer r; file ← fst <$> read_mod_file buf; Ok (files ++ [file]).
Definition mod_files (name : list byte) (rs : list ModResource) : result (list (list (Z * Body Z))) := foldM (mod_file_step name) [] rs.

(** The mods' resource of a hash: of the last file that has one, the first. *)
Definition find_block (hash : Z) (file : list (Z * Body Z)) : option (Body Z) := snd <$> (snd <$> list_find (fun hb => hb.1 = hash) file).
Definition or_else {A} (o o' : option A) : option A := match o with Some a => Some a | None => o' end.
Definition mod_block (files : list (list (Z * Body Z))) (hash : Z) : option (Body Z) :=
  foldl (fun o file => or_else (find_block hash file) o) None files.

Lemma closed_map {P} (f : Z -> result P) b : closed b = true -> exists b', map_body f b = Ok b' /\ type_of b' = type_of b.
Proof. destruct b as [e [|k refs]|ps|g lod ps|refs]; try done; intros _; by eexists. Qed.

Lemma closed_map_id (f : Z -> result Z) b : closed b = true -> map_body f b = Ok b.
Proof. by destruct b as [e [|k refs]|ps|g lod ps|refs]. Qed.

Lemma load_block_closed header buf hb buf' :
  read_mod_block header buf = Ok (hb, buf') -> load_block header buf = Ok (mkBlock 0 hb.1 hb.2, buf').
Proof.
  unfold read_mod_block, load_block. destruct (new_body header.2); [|done].
  unfold mbind at 1, Rd_bind at 1, Rd_modify. unfold mbind at 1, Rd_bind at 1.
  destruct (read_block header.2 _) as [[[hash body] buf1]|] eqn:E; [|done]. destruct (closed _) eqn:Ec; [|done]. intros [= <- <-].
  unfold mbind, Rd_bind. unfold Read, mbind, Rd_bind. rewrite E. cbn [fst snd] in *. unfold Rd_lift.
  by rewrite (closed_map_id _ _ Ec).
Qed.

Lemma load_blocks_closed headers buf hbs buf' :
  mapM read_mod_block headers buf = Ok (hbs, buf') ->
  mapM load_block headers buf = Ok ((fun hb => mkBlock 0 hb.1 hb.2) <$> hbs, buf').
Proof.
  revert buf hbs. induction headers as [|header headers IH]; intros buf hbs; [by intros [= <- <-]|].
  change (mapM read_mod_block (header :: headers)) with (hb ← read_mod_block header; l ← mapM read_mod_block headers; mret (hb :: l)).
  change (mapM load_block (header :: headers)) with (hb ← load_block header; l ← mapM load_block headers; mret (hb :: l)).
  unfold mbind at 1, Rd_bind at 1. destruct (read_mod_block header buf) as [[hb buf1]|] eqn:E; [|done].
  rewrite (Rd_bind_ok _ _ _ _ _ (load_block_closed _ _ _ _ E)).
  destruct (mapM read_mod_block headers buf1) as [[l buf2]|] eqn:El; [|unfold mbind, Rd_bind in *; by rewrite El].
  rewrite (Rd_bind_ok _ _ _ _ _ El). intros [= <- <-]. by rewrite (Rd_bind_ok _ _ _ _ _ (IH _ _ El)).
Qed.

(** *** Finding by hash *)

Lemma find_hash_cons hash k a (d : Depot) : find_hash hash ((k, a) :: d) = if decide (k = hash) then Some a else find_hash hash d.
Proof. unfold find_hash. cbn. destruct (decide (k = hash)); [done|]. by destruct (list_find _ d) as [[i [k' a']]|]. Qed.

Lemma find_block_cons hash k b file : find_block hash ((k, b) :: file) = if decide (k = hash) then Some b else find_block hash file.
Proof. unfold find_block. cbn. destruct (decide (k = hash)); [done|]. by destruct (list_find _ file) as [[i [k' b']]|]. Qed.

Lemma find_hash_app hash d1 d2 : find_hash hash (d1 ++ d2) = or_else (find_hash hash d1) (find_hash hash d2).
Proof. induction d1 as [|[k a] d1 IH]; [done|]. cbn [app]. rewrite !find_hash_cons. by destruct (decide (k = hash)). Qed.

Lemma find_hash_replace hash found d :
  find_hash hash (replace_all found d) = (fun a => default a (find_hash hash found)) <$> find_hash hash d.
Proof.
  induction d as [|[k a] d IH]; [done|]. unfold replace_all in *. cbn [fmap list_fmap fst snd]. rewrite !find_hash_cons, IH.
  by destruct (decide (k = hash)) as [->|].
Qed.

Lemma find_hash_add hash l d : find_hash hash (foldl AddResource d l) = or_else (find_hash hash d) (find_hash hash l).
Proof.
  revert d. induction l as [|[k a] l IH]; intros d; [change (foldl AddResource d []) with d; by destruct (find_hash hash d)|]. cbn [foldl]. rewrite IH, find_hash_cons.
  unfold AddResource, ContainsHash. cbn [fst]. case_bool_decide as Hk.
  - destruct (decide (k = hash)) as [->|]; [|done]. by destruct Hk as [x ->].
  - apply eq_None_not_Some in Hk. rewrite find_hash_app, find_hash_cons. destruct (decide (k = hash)) as [->|].
    + by rewrite Hk.
    + by destruct (find_hash hash d).
Qed.

Lemma find_hash_load hash found d :
  find_hash hash (foldl AddResource (replace_all found d) found) = or_else (find_hash hash found) (find_hash hash d).
Proof. rewrite find_hash_add, find_hash_replace. by destruct (find_hash hash d), (find_hash hash found). Qed.

(** *** What the mods' objects hold *)

Definition heap_ok (h : Heap) : Prop := 0 < h_next h /\ forall p, is_Some (h_objects h !! p) -> 0 < p < h_next h.

(** The depot finds for every hash an object that holds the mods' resource. *)
Definition holds (d : Depot) (h : Heap) (mods : Z -> option (Body Z)) : Prop :=
  heap_ok h /\ forall hash,
    match mods hash with
    | Some b => exists a i, find_hash hash d = Some a /\ h_objects h !! a = Some (mkBlock i hash b) /\ closed b = true /\ block_wf (hash, b)
    | None => find_hash hash d = None
    end.

Lemma alloc_all_spec bs h :
  heap_ok h ->
  let r := alloc_all ((fun hb => mkBlock 0 hb.1 hb.2) <$> bs) h in
  heap_ok r.2 /\ h_next h <= h_next r.2 /\ (forall p, p < h_next h -> h_objects r.2 !! p = h_objects h !! p) /\
  forall hash, match find_block hash bs with
               | Some b => exists a, find_hash hash r.1 = Some a /\ h_objects r.2 !! a = Some (mkBlock 0 hash b)
               | None => find_hash hash r.1 = None
               end.
Proof.
  revert h. induction bs as [|[k b] bs IH]; intros h Hh; [cbn; split_and!; try done; lia|].
  set (h1 := mkHeap (<[h_next h := mkBlock 0 k b]> (h_objects h)) (h_next h + 1)).
  assert (Hh1 : heap_ok h1).
  { destruct Hh as [H0 H1]. split; cbn; [lia|]. intros p. destruct (decide (p = h_next h)) as [->|]; [lia|].
    rewrite lookup_insert_ne by done. intros Hp. specialize (H1 p Hp). lia. }
  specialize (IH h1 Hh1). cbn zeta in *. cbn [fmap list_fmap alloc_all fst snd alloc]. fold h1.
  destruct (alloc_all _ h1) as [l h2]. cbn [fst snd m_hash] in *. destruct IH as (I1 & I2 & I3 & I4). cbn in I2. split_and!; [done|lia| |].
  - intros p Hp. rewrite I3 by (cbn; lia). cbn. apply lookup_insert_ne. lia.
  - intros hash. specialize (I4 hash). rewrite find_block_cons, find_hash_cons. destruct (decide (k = hash)) as [->|]; [|exact I4].
    eexists. split; [done|]. rewrite I3 by (cbn; lia). cbn. by rewrite lookup_insert_eq.
Qed.

Lemma body_read_closed b : body_read b -> closed b = true -> body_wf b.
Proof. destruct b as [e [|k refs]|ps|g lod ps|refs]; try done. intros _ _. constructor. Qed.

Lemma post_read_mod_block header : post (fun hb => closed hb.2 = true /\ block_wf hb) (read_mod_block header).
Proof.
  unfold read_mod_block. destruct (new_body header.2) eqn:E; [|apply post_fault].
  eapply post_bind; [apply post_setReadPos|intros _ _]. eapply post_bind; [apply post_read_block; by eexists|].
  intros hb (H1 & H2 & _). destruct (closed hb.2) eqn:Ec; [|apply post_fault]. apply post_ret. split; [done|]. split; [done|].
  by apply body_read_closed.
Qed.

Lemma post_mapM {A B} (P : B -> Prop) (f : A -> Rd B) l : (forall a, post P (f a)) -> post (Forall P) (mapM f l).
Proof.
  intros H. induction l as [|a l IH]; [apply post_ret; constructor|]. cbn [mapM]. eapply post_bind; [apply H|]. intros b Hb.
  eapply post_bind; [exact IH|]. intros l' Hl. apply post_ret. by constructor.
Qed.

Lemma post_ReadPadding fuel a : post (fun _ => True) (ReadPadding fuel a).
Proof.
  induction fuel as [|fuel IH]; [apply post_fault|]. intros b [] b'. cbn [ReadPadding]. destruct (_ =? 0); [by intros [= <-]|].
  intros H. apply IH in H as (_ & E1 & E2). done.
Qed.

Lemma post_read_mod_file : post (Forall (fun hb => closed hb.2 = true /\ block_wf hb)) read_mod_file.
Proof.
  eapply post_bind; [apply post_read|intros n _]. eapply post_bind; [apply post_ReadPadding|intros _ _].
  assert (Hh : post (fun _ => True) read_header).
  { eapply post_bind; [apply post_read|intros o _]. eapply post_bind; [apply post_read|intros t _]. by apply post_ret. }
  eapply post_bind; [apply (post_repeat _ _ _ Hh)|intros headers _]. apply post_mapM, post_read_mod_block.
Qed.

Lemma find_block_elem hash file b : find_block hash file = Some b -> (hash, b) ∈ file.
Proof.
  induction file as [|[k b'] file IH]; [done|]. rewrite find_block_cons. destruct (decide (k = hash)) as [->|].
  - intros [= ->]. by left.
  - intros H. right. by apply IH.
Qed.

Lemma Depot_Load_holds d h mods buf file buf' :
  holds d h mods -> read_mod_file buf = Ok (file, buf') ->
  exists d' h', Depot_Load (d, h) buf = Ok ((d', h'), buf') /\ holds d' h' (fun hash => or_else (find_block hash file) (mods hash)).
Proof.
  intros [Hh Hd] H. destruct (post_read_mod_file _ _ _ H) as [Hf _]. unfold read_mod_file in H. unfold Depot_Load.
  unfold mbind at 1, Rd_bind at 1 in H. destruct (bb_getInt buf) as [[count buf1]|] eqn:E1; [|done].
  rewrite (Rd_bind_ok _ _ _ _ _ E1). unfold mbind at 1, Rd_bind at 1 in H.
  destruct (ReadPadding 16 16 buf1) as [[[] buf2]|] eqn:E2; [|done]. rewrite (Rd_bind_ok _ _ _ _ _ E2).
  unfold mbind at 1, Rd_bind at 1 in H. destruct (Rd_repeat _ read_header buf2) as [[headers buf3]|] eqn:E3; [|done].
  rewrite (Rd_bind_ok _ _ _ _ _ E3). rewrite (Rd_bind_ok _ _ _ _ _ (load_blocks_closed _ _ _ _ H)). cbn [fst snd].
  destruct (alloc_all_spec file h Hh) as (A1 & A2 & A3 & A4). destruct (alloc_all _ h) as [found h']. cbn [fst snd] in *.
  eexists _, h'. split; [done|]. split; [done|]. intros hash. specialize (A4 hash). specialize (Hd hash). rewrite find_hash_load.
  destruct (find_block hash file) as [b|] eqn:Eb; cbn [or_else].
  - destruct A4 as (a & -> & Ha). exists a, 0. apply find_block_elem in Eb. eapply list.Forall_forall in Hf as [Hc Hw]; [|exact Eb]. done.
  - rewrite A4. cbn [or_else]. destruct (mods hash) as [b|]; [|done]. destruct Hd as (a & i & Hfind & Ha & Hc & Hw). exists a, i.
    split_and!; try done. rewrite A3; [done|]. apply Hh. by rewrite Ha.
Qed.

Lemma mod_block_snoc files file hash : mod_block (files ++ [file]) hash = or_else (find_block hash file) (mod_block files hash).
Proof. unfold mod_block. by rewrite foldl_app. Qed.

Lemma Collect_holds name rs files :
  mod_files name rs = Ok files -> exists d h, Collect name rs (mkHeap ∅ 1) = Ok (d, h) /\ holds d h (mod_block files).
Proof.
  unfold mod_files, Collect. enough (H : forall fs d h, holds d h (mod_block fs) -> foldM (mod_file_step name) fs rs = Ok files ->
    exists d' h', foldM (collect_step name) (d, h) rs = Ok (d', h') /\ holds d' h' (mod_block files)).
  { apply H. split; [split; [done|intros p Hp; cbn in Hp; rewrite lookup_empty in Hp; by destruct Hp]|done]. }
  induction rs as [|r rs IH]; intros fs d h Hd; [intros [= ->]; by exists d, h|]. cbn [foldM].
  unfold mod_file_step at 1, collect_step at 1. destruct (_ || _); [by apply IH|]. destruct (mr_handlerHash r =? 0); [by apply IH|].
  destruct (depot_buffer r) as [buf|]; [|done]. cbn [mbind result_bind].
  destruct (read_mod_file buf) as [[file buf']|] eqn:E; [|done]. cbn [fmap result_fmap mbind result_bind fst].
  destruct (Depot_Load_holds d h _ buf file buf' Hd E) as (d' & h' & -> & Hd'). cbn [fst]. apply IH.
  destruct Hd' as [Hh Hd']. split; [done|]. intros hash. rewrite mod_block_snoc. apply Hd'.
Qed.

(** ** Reading and replacing *)

Lemma new_body_known (t : Z) (b : Body Z) : new_body t = Some b -> type_of b = t.
Proof. destruct t as [|p|p]; [by intros [= <-]| |done]. cbn. repeat (destruct p as [p|p|]; try done); by intros [= <-]. Qed.

(** Objects for headers, at consecutive addresses. *)
Lemma new_resources_spec headers h :
  Forall (fun hd => known_type hd.2) headers ->
  let r := new_resources headers h in
  r.1 = (fun j => h_next h + Z.of_nat j) <$> seq 0 (length headers) /\
  (forall p, p < h_next h -> h_objects r.2 !! p = h_objects h !! p) /\
  forall j hd, headers !! j = Some hd ->
    exists b, h_objects r.2 !! (h_next h + Z.of_nat j) = Some (mkBlock 0 0 b) /\ type_of b = hd.2.
Proof.
  intros Hk. revert h. induction Hk as [|hd headers [b Hb] _ IH]; intros h; [done|]. cbn zeta in *. cbn [new_resources].
  rewrite Hb. cbn [alloc]. set (h1 := mkHeap _ _). specialize (IH h1). destruct (new_resources headers h1) as [l h2]. cbn [fst snd] in *.
  destruct IH as (I1 & I2 & I3). cbn [h_next h1] in *. split_and!.
  - cbn [length seq fmap list_fmap]. f_equal; [lia|]. rewrite I1. rewrite <- fmap_S_seq, <- list_fmap_compose.
    apply list_fmap_ext. intros i x _. cbn. lia.
  - intros p Hp. rewrite I2 by lia. cbn. apply lookup_insert_ne. lia.
  - intros [|j] hd' Hj; cbn in Hj.
    + injection Hj as <-. exists b. rewrite Z.add_0_r. split; [|by apply new_body_known]. rewrite I2 by lia. cbn. by rewrite lookup_insert_eq.
    + destruct (I3 j hd' Hj) as (b' & E & Ht). exists b'. split; [|done]. rewrite <- E. f_equal. lia.
Qed.

Lemma resolve_ok entries k a : 0 <= k -> entries !! Z.to_nat k = Some a -> resolve_entry (Some entries) k = Ok a.
Proof. intros Hk Ha. unfold resolve_entry. cbn [of_option mbind result_bind]. rewrite (proj2 (Z.ltb_ge k 0)) by lia. by rewrite Ha. Qed.

Lemma object_ok a h b : h_objects h !! a = Some b -> object a h = Ok b.
Proof. unfold object. by intros ->. Qed.

Lemma Read_ok t entries index buf raw buf' body :
  read_block t buf = Ok (raw, buf') -> map_body (resolve_entry entries) raw.2 = Ok body ->
  Read t entries index buf = Ok (mkBlock index raw.1 body, buf').
Proof. intros E Eb. unfold Read. rewrite (Rd_bind_ok _ _ _ _ _ E), Eb. done. Qed.

(** What is read at a header does not depend on where the reader stood. *)
Lemma read_at_headers_each D w headers blocks buf :
  bb_buf buf = D -> bb_wpos buf = w -> (exists buf', mapM read_at_header headers buf = Ok (blocks, buf')) ->
  Forall2 (fun hd hb => known_type hd.2 /\ type_of hb.2 = hd.2 /\ urange 64 hb.1 /\ body_read hb.2 /\
    forall r, exists r', read_block hd.2 (bb_setReadPos hd.1 (mkBB D r w)) = Ok (hb, mkBB D r' w)) headers blocks.
Proof.
  revert blocks buf. induction headers as [|hd headers IH]; intros blocks buf HD Hw [buf' H]; [injection H as <- <-; constructor|].
  change (mapM read_at_header (hd :: headers)) with (hb ← read_at_header hd; l ← mapM read_at_header headers; mret (hb :: l)) in H.
  unfold mbind at 1, Rd_bind at 1 in H. destruct (read_at_header hd buf) as [[hb buf1]|] eqn:E; [|done].
  destruct (mapM read_at_header headers buf1) as [[l buf2]|] eqn:El; [|unfold mbind, Rd_bind in H, El; by rewrite El in H].
  rewrite (Rd_bind_ok _ _ _ _ _ El) in H. injection H as <- <-.
  unfold read_at_header in E. destruct (new_body hd.2) as [b0|] eqn:Eb; [|done]. assert (Hk : known_type hd.2) by by eexists.
  unfold mbind, Rd_bind, Rd_modify in E. destruct (post_read_block hd.2 Hk _ _ _ E) as ((P1 & P2 & P3) & P4 & P5). cbn in P4, P5.
  constructor.
  - split; [done|]. split; [done|]. split; [done|]. split; [done|]. intros r. exists (bb_rpos buf1).
    assert (Es : bb_setReadPos hd.1 (mkBB D r w) = bb_setReadPos hd.1 buf) by (unfold bb_setReadPos; cbn; by rewrite HD, Hw).
    rewrite Es, E. do 2 f_equal. destruct buf1; cbn in *. congruence.
  - apply (IH l buf1); [congruence..|]. by exists buf2.
Qed.

Section fixup.
Context (d : Depot) (h0 : Heap) (mods : Z -> option (Body Z)) (Hholds : holds d h0 mods).
Context (blocks : list (Z * Body Z)) (Hnodup : NoDup (blocks.*1)).
Context (D : list byte) (w : Z).

Let base := h_next h0.

(** The address of a resource before and after the pass, and during it. *)
Definition final_at (j : nat) : Z :=
  default (base + Z.of_nat j) (hb ← blocks !! j; find_hash hb.1 d).
Definition address_at (i j : nat) : Z := if (j <? i)%nat then final_at j else base + Z.of_nat j.
Definition addresses (i : nat) : list Z := address_at i <$> seq 0 (length blocks).

Definition replaced (hash : Z) : Prop := is_Some (mods hash).

(** References are in range. *)
Definition refs_in_range : Prop :=
  forall i hash e refs k, blocks !! i = Some (hash, StaticParams e refs) -> k ∈ refs -> 0 <= k < len blocks.
Context (Hrange : refs_in_range).

(** The resource at [i] stays and refers to one that is replaced later. *)
Definition dangling (i : nat) : Prop :=
  exists hash e refs k hb, blocks !! i = Some (hash, StaticParams e refs) /\ ~ replaced hash /\ k ∈ refs /\
    blocks !! Z.to_nat k = Some hb /\ replaced hb.1 /\ (i < Z.to_nat k)%nat.

Definition pointers (addr : nat -> Z) (b : Body Z) : Body Z :=
  match b with
  | StaticParams e refs => StaticParams e ((fun k => addr (Z.to_nat k)) <$> refs)
  | PersistentParams ps => PersistentParams ps | MeshParams g lod ps => MeshParams g lod ps | MeshVariation refs => MeshVariation refs
  end.

(** The pointers of a resource that stays are those of the moment it was read. *)
Definition final_body (j : nat) (hash : Z) (b : Body Z) : Body Z := default (pointers (address_at j) b) (mods hash).

Lemma addresses_lookup i k : (k < length blocks)%nat -> addresses i !! k = Some (address_at i k).
Proof. intros Hk. unfold addresses. rewrite list_lookup_fmap, lookup_seq_lt by done. done. Qed.

Lemma addresses_S i :
  addresses (S i) = <[i := final_at i]> (addresses i).
Proof.
  apply list_eq. intros k. destruct (decide (k < length blocks)%nat) as [Hk|Hk].
  - rewrite addresses_lookup by done. unfold address_at at 1. destruct (decide (k = i)) as [->|Hne].
    + rewrite list_lookup_insert_eq by (unfold addresses; rewrite length_fmap, length_seq; lia).
      by rewrite (proj2 (Nat.ltb_lt _ _)) by lia.
    + rewrite list_lookup_insert_ne, addresses_lookup by done. unfold address_at. f_equal.
      destruct (Nat.ltb_spec k (S i)), (Nat.ltb_spec k i); try done; lia.
  - rewrite !lookup_ge_None_2; [done| |]; unfold addresses; rewrite ?length_insert, length_fmap, length_seq; lia.
Qed.

Lemma holds_find hash : find_hash hash d = None <-> mods hash = None.
Proof. destruct Hholds as [_ H]. specialize (H hash). destruct (mods hash) as [b|]; [|done]. destruct H as (a & i & -> & _). done. Qed.

Lemma holds_below hash a : find_hash hash d = Some a -> 0 < a < base.
Proof.
  intros Ha. destruct Hholds as [[_ Hb] H]. specialize (H hash). destruct (mods hash) as [b|]; [|congruence].
  destruct H as (a' & i & Ha' & Ho & _). replace a with a' by congruence. apply Hb. by rewrite Ho.
Qed.

Lemma final_at_kept j hb : blocks !! j = Some hb -> ~ replaced hb.1 -> final_at j = base + Z.of_nat j.
Proof.
  intros Hj Hr. unfold final_at. rewrite Hj. cbn. destruct (find_hash hb.1 d) eqn:E; [|done].
  exfalso. apply Hr. unfold replaced. destruct (mods hb.1) eqn:E'; [by eexists|]. apply holds_find in E'. congruence.
Qed.

Lemma final_at_replaced j hash b a : blocks !! j = Some (hash, b) -> find_hash hash d = Some a -> final_at j = a.
Proof. intros Hj Ha. unfold final_at. rewrite Hj. cbn. by rewrite Ha. Qed.

(** Addresses are told apart. *)
Lemma final_at_inj j k hj bj hk bk :
  blocks !! j = Some (hj, bj) -> blocks !! k = Some (hk, bk) -> final_at j = final_at k -> j = k.
Proof.
  intros Hj Hk E. unfold final_at in E. rewrite Hj, Hk in E. cbn in E.
  destruct (find_hash hj d) as [a|] eqn:Ea, (find_hash hk d) as [a'|] eqn:Ea'; cbn in E.
  - subst a'. assert (hj = hk).
    { destruct Hholds as [_ H]. pose proof (H hj) as H1. pose proof (H hk) as H2.
      destruct (mods hj); [|congruence]. destruct (mods hk); [|congruence].
      destruct H1 as (a1 & i1 & F1 & O1 & _), H2 as (a2 & i2 & F2 & O2 & _). assert (a1 = a2) as -> by congruence. congruence. }
    subst hk. eapply NoDup_lookup; [exact Hnodup| |]; rewrite list_lookup_fmap; [by rewrite Hj|by rewrite Hk].
  - apply holds_below in Ea. lia.
  - apply holds_below in Ea'. lia.
  - lia.
Qed.

Lemma resolve_addresses i hash b :
  blocks !! i = Some (hash, b) -> map_body (resolve_entry (Some (addresses i))) b = Ok (pointers (address_at i) b).
Proof.
  intros Hi. destruct b as [e refs|ps|g lod ps|refs]; try done. cbn [map_body pointers].
  assert (Hres : forall l, (forall k, k ∈ l -> k ∈ refs) ->
    mapM (resolve_entry (Some (addresses i))) l = Ok ((fun k => address_at i (Z.to_nat k)) <$> l)).
  { induction l as [|k l IH]; intros Hl; [done|]. cbn [mapM fmap list_fmap].
    pose proof (Hrange i hash e refs k Hi (Hl k ltac:(by left))) as Hk.
    rewrite (resolve_ok _ k (address_at i (Z.to_nat k))) by (lia || (apply addresses_lookup; lia)). cbn [mbind result_bind].
    rewrite IH; [done|]. intros k' Hk'. apply Hl. by right. }
  by rewrite (Hres refs ltac:(done)).
Qed.

(** The objects during the pass: those before [i] are done, the others wait, and
    the mods' are as they were until they are placed. *)
Record fixup_inv (i : nat) (h : Heap) : Prop := {
  inv_done : forall j hash b, (j < i)%nat -> blocks !! j = Some (hash, b) ->
    h_objects h !! final_at j = Some (mkBlock (Z.of_nat j) hash (final_body j hash b));
  inv_deleted : forall j hash b, (j < i)%nat -> blocks !! j = Some (hash, b) -> replaced hash -> h_objects h !! (base + Z.of_nat j) = None;
  inv_todo : forall j hash b, (i <= j)%nat -> blocks !! j = Some (hash, b) ->
    exists b0, h_objects h !! (base + Z.of_nat j) = Some (mkBlock 0 0 b0) /\ type_of b0 = type_of b;
  inv_mods : forall hash a, find_hash hash d = Some a -> (forall j b, (j < i)%nat -> blocks !! j <> Some (hash, b)) ->
    h_objects h !! a = h_objects h0 !! a;
}.

(** Updating the objects of one index keeps the others'. *)
Lemma fixup_inv_step i hash b h h' :
  blocks !! i = Some (hash, b) -> fixup_inv i h ->
  h_objects h' !! final_at i = Some (mkBlock (Z.of_nat i) hash (final_body i hash b)) ->
  (replaced hash -> h_objects h' !! (base + Z.of_nat i) = None) ->
  (forall p, p <> final_at i -> p <> base + Z.of_nat i -> h_objects h' !! p = h_objects h !! p) ->
  fixup_inv (S i) h'.
Proof.
  intros Hi [H1 H0 H2 H3] Hf Hdel Ho.
  assert (Hat : forall j hb, blocks !! j = Some hb -> final_at j = base + Z.of_nat j \/ final_at j < base).
  { intros j hb Hj. unfold final_at. rewrite Hj. cbn. destruct (find_hash hb.1 d) as [a|] eqn:E; [|by left].
    right. cbn. apply holds_below in E. lia. }
  split.
  - intros j hash' b' Hj Hb'. destruct (decide (j = i)) as [->|Hne].
    + rewrite Hi in Hb'. injection Hb' as <- <-. exact Hf.
    + rewrite Ho; [apply H1; [lia|done]| |].
      * intros E. apply Hne. by eapply final_at_inj.
      * destruct (Hat j _ Hb'); lia.
  - intros j hash' b' Hj Hb' Hr. destruct (decide (j = i)) as [->|Hne].
    + apply Hdel. rewrite Hi in Hb'. by injection Hb' as <- <-.
    + rewrite Ho; [apply (H0 j hash' b'); [lia|done..]| |lia]. destruct (Hat i _ Hi); lia.
  - intros j hash' b' Hj Hb'. rewrite Ho; [apply (H2 j hash'); [lia|done]| |lia].
    destruct (Hat i _ Hi); lia.
  - intros hash' a Ha Hnot. rewrite Ho.
    + apply (H3 hash'); [done|]. intros j b' Hj. apply Hnot. lia.
    + intros ->. apply (Hnot i b); [lia|]. rewrite Hi. do 2 f_equal.
      destruct Hholds as [_ H]. pose proof (H hash') as Hh. destruct (mods hash') as [m|]; [|congruence].
      destruct Hh as (a' & i' & F' & O' & _). assert (E : a' = final_at i) by congruence. subst a'.
      unfold final_at in O'. rewrite Hi in O'. cbn in O'. destruct (find_hash hash d) as [a2|] eqn:E2; cbn in O'.
      * pose proof (H hash) as Hh2. destruct (mods hash) as [m2|]; [|congruence]. destruct Hh2 as (a3 & i3 & F3 & O3 & _). congruence.
      * exfalso. destruct Hholds as [[_ Hb] _]. specialize (Hb (base + Z.of_nat i) ltac:(by rewrite O')). fold base in Hb. lia.
    + apply holds_below in Ha. lia.
Qed.

Lemma put_object_lookup a b h : h_objects (put_object a b h) !! a = Some b.
Proof. cbn. apply lookup_insert_eq. Qed.

Lemma fixup_step_spec i hd hash b h r :
  blocks !! i = Some (hash, b) -> fixup_inv i h -> type_of b = hd.2 ->
  (forall r, exists r', read_block hd.2 (bb_setReadPos hd.1 (mkBB D r w)) = Ok ((hash, b), mkBB D r' w)) ->
  exists h' r', fixup_step d i hd.1 (addresses i, h) (mkBB D r w) = Ok ((addresses (S i), h'), mkBB D r' w) /\ fixup_inv (S i) h'.
Proof.
  intros Hi Hinv Ht Hread. pose proof (lookup_lt_Some _ _ _ Hi) as Hlt.
  destruct (inv_todo _ _ Hinv i hash b (le_n i) Hi) as (b0 & Ha & Hb0).
  assert (Hai : address_at i i = base + Z.of_nat i) by (unfold address_at; by rewrite Nat.ltb_irrefl).
  destruct (Hread r) as [r' Er]. pose proof (resolve_addresses i hash b Hi) as Eb. set (b' := pointers (address_at i) b) in *.
  unfold fixup_step. cbn [fst snd].
  rewrite (Rd_bind_ok (Rd_modify _) _ _ tt (bb_setReadPos hd.1 (mkBB D r w)) eq_refl).
  rewrite addresses_lookup, Hai by done. cbn [of_option]. rewrite (Rd_bind_ok (Rd_lift (Ok _)) _ _ _ _ eq_refl).
  rewrite (object_ok _ _ _ Ha). rewrite (Rd_bind_ok (Rd_lift (Ok _)) _ _ _ _ eq_refl). cbn [m_body m_index].
  rewrite Hb0, Ht. rewrite (Rd_bind_ok _ _ _ _ _ (Read_ok _ _ _ _ _ _ _ Er Eb)). cbn [m_hash fst snd].
  destruct (find_hash hash d) as [a|] eqn:Ea.
  - pose proof (holds_below _ _ Ea) as Hb. rewrite (proj2 (Z.eqb_neq a 0)) by lia.
    assert (Hf : final_at i = a) by (by eapply final_at_replaced).
    replace (<[i := a]> (addresses i)) with (addresses (S i)) by (by rewrite addresses_S, Hf).
    rewrite addresses_lookup by done. unfold address_at at 1. rewrite (proj2 (Nat.ltb_lt i (S i))) by lia. cbn [of_option]. rewrite Hf.
    rewrite (Rd_bind_ok (Rd_lift (Ok a)) _ _ _ _ eq_refl).
    destruct Hholds as [_ Hm]. pose proof (Hm hash) as Hm'. destruct (mods hash) as [mb|] eqn:Em; [|congruence].
    destruct Hm' as (a' & i' & F' & O' & _). assert (a' = a) as -> by congruence.
    assert (Hobj : h_objects (delete_object (base + Z.of_nat i) (put_object (base + Z.of_nat i) (mkBlock 0 hash b') h)) !! a = Some (mkBlock i' hash mb)).
    { cbn. rewrite lookup_delete_ne, lookup_insert_ne by lia. rewrite (inv_mods _ _ Hinv hash a Ea); [done|].
      intros j b2 Hj Hjb. assert (i = j); [|lia].
      eapply (NoDup_lookup blocks.*1); [exact Hnodup| |]; rewrite list_lookup_fmap; [by rewrite Hi|by rewrite Hjb]. }
    rewrite (object_ok _ _ _ Hobj). eexists _, r'. split; [reflexivity|].
    eapply (fixup_inv_step i hash b h); [done|done| | |].
    + rewrite Hf, put_object_lookup. unfold final_body. by rewrite Em.
    + intros _. cbn. rewrite lookup_insert_ne by lia. apply lookup_delete_eq.
    + intros p Hp1 Hp2. rewrite Hf in Hp1. cbn. by rewrite lookup_insert_ne, lookup_delete_ne, lookup_insert_ne.
  - assert (Hm : mods hash = None) by by apply holds_find.
    assert (Hr : ~ replaced hash) by (unfold replaced; rewrite Hm; by intros []).
    assert (Hf : final_at i = base + Z.of_nat i) by (by apply (final_at_kept i (hash, b))).
    rewrite addresses_lookup, Hai by done. cbn [of_option]. rewrite (Rd_bind_ok (Rd_lift (Ok _)) _ _ _ _ eq_refl).
    rewrite (object_ok _ _ _ (put_object_lookup _ _ _)).
    replace (addresses i) with (addresses (S i)).
    2: { rewrite addresses_S, Hf, <- Hai. apply list_insert_id. by apply addresses_lookup. }
    eexists _, r'. split; [reflexivity|]. eapply (fixup_inv_step i hash b h); [done|done| |done|].
    + rewrite Hf, put_object_lookup. cbn [m_hash m_body]. unfold final_body. by rewrite Hm.
    + intros p _ Hp. cbn. by rewrite !lookup_insert_ne.
Qed.

Definition header_of (hd : Z * Z) (hb : Z * Body Z) : Prop :=
  known_type hd.2 /\ type_of hb.2 = hd.2 /\ urange 64 hb.1 /\ body_read hb.2 /\
  forall r, exists r', read_block hd.2 (bb_setReadPos hd.1 (mkBB D r w)) = Ok (hb, mkBB D r' w).

Lemma fixup_read_spec headers i h r :
  (i <= length blocks)%nat -> Forall2 header_of headers (drop i blocks) -> fixup_inv i h ->
  exists h' r', fixup_read d i headers (addresses i, h) (mkBB D r w) = Ok ((addresses (length blocks), h'), mkBB D r' w) /\
    fixup_inv (length blocks) h'.
Proof.
  revert i h r. induction headers as [|hd headers IH]; intros i h r Hi H Hinv.
  - apply Forall2_nil_inv_l in H. assert (i = length blocks) as ->.
    { apply (f_equal length) in H. rewrite length_drop in H. cbn in H. lia. }
    exists h, r. by split.
  - apply Forall2_cons_inv_l in H as ([hash b] & todo & (_ & Ht & _ & _ & Hread) & Htodo & Hdrop).
    assert (Hib : blocks !! i = Some (hash, b)).
    { replace i with (i + 0)%nat by lia. rewrite <- lookup_drop, Hdrop. done. }
    destruct (fixup_step_spec i hd hash b h r Hib Hinv Ht Hread) as (h1 & r1 & E & Hinv1).
    cbn [fixup_read]. rewrite (Rd_bind_ok _ _ _ _ _ E). apply lookup_lt_Some in Hib. apply IH; [lia| |done].
    replace (drop (S i) blocks) with todo; [done|].
    apply (f_equal (drop 1)) in Hdrop. rewrite drop_drop in Hdrop. cbn in Hdrop. rewrite drop_0 in Hdrop.
    by replace (S i) with (i + 1)%nat by lia.
Qed.

(** The depot as it is written: every resource a mod brings in the place of the
    game's of the same hash. *)
Definition merged : list (Z * Body Z) := (fun hb => (hb.1, default hb.2 (mods hb.1))) <$> blocks.

Lemma fixup_shows h : (forall i, ~ dangling i) -> fixup_inv (length blocks) h -> Forall2 (shows h) (addresses (length blocks)) merged.
Proof.
  intros Hdangling Hinv. apply Forall2_same_length_lookup_2; [unfold addresses, merged; by rewrite !length_fmap, length_seq|].
  intros j a hb Ha Hhb. unfold merged in Hhb. rewrite list_lookup_fmap in Hhb.
  destruct (blocks !! j) as [[hash b]|] eqn:Hj; [|done]. injection Hhb as <-. pose proof (lookup_lt_Some _ _ _ Hj) as Hlt.
  rewrite addresses_lookup in Ha by done. injection Ha as <-. unfold address_at. rewrite (proj2 (Nat.ltb_lt _ _)) by done.
  pose proof (inv_done _ _ Hinv j hash b Hlt Hj) as Ho. eexists. split; [by apply object_ok|]. split; [done|]. cbn [m_body fst snd].
  unfold final_body. destruct (mods hash) as [m|] eqn:Em; cbn [default].
  - destruct Hholds as [_ Hm]. specialize (Hm hash). rewrite Em in Hm. destruct Hm as (_ & _ & _ & _ & Hc & _). by apply closed_map_id.
  - destruct b as [e refs|ps|g lod ps|refs]; try done. cbn [pointers map_body].
    assert (Hr : forall l, (forall k, k ∈ l -> k ∈ refs) ->
      mapM (fun p => m_index <$> object p h) ((fun k => address_at j (Z.to_nat k)) <$> l) = Ok l).
    { induction l as [|k l IH]; intros Hl; [done|]. cbn [fmap list_fmap mapM].
      assert (Hin : k ∈ refs) by (apply Hl; by left). pose proof (Hrange j hash e refs k Hj Hin) as Hk.
      destruct (lookup_lt_is_Some_2 blocks (Z.to_nat k) ltac:(lia)) as [[hash' b'] Hk'].
      assert (Haddr : address_at j (Z.to_nat k) = final_at (Z.to_nat k)).
      { unfold address_at. destruct (Nat.ltb_spec (Z.to_nat k) j) as [|Hge]; [done|]. symmetry. eapply final_at_kept; [exact Hk'|].
        intros Hr. destruct (decide (Z.to_nat k = j)) as [E|Hne].
        - rewrite E, Hj in Hk'. injection Hk' as <- <-. unfold replaced in Hr. cbn [fst] in Hr. rewrite Em in Hr. by destruct Hr.
        - apply (Hdangling j). exists hash, e, refs, k, (hash', b'). split_and!; try done; [|lia]. unfold replaced. rewrite Em. by intros []. }
      rewrite Haddr.
      rewrite (object_ok _ _ _ (inv_done _ _ Hinv (Z.to_nat k) hash' b' ltac:(lia) Hk')). cbn [fmap result_fmap mbind result_bind m_index].
      rewrite IH by (intros k' Hin'; apply Hl; by right). cbn. by rewrite Z2Nat.id by lia. }
    by rewrite Hr.
Qed.

Lemma merged_wf headers : Forall2 header_of headers blocks -> Forall block_wf merged.
Proof.
  intros H. apply list.Forall_forall. intros hb Hin. unfold merged in Hin. apply list_elem_of_fmap in Hin as ([hash b] & -> & Hin).
  cbn [fst snd]. destruct (mods hash) as [m|] eqn:Em; cbn [default].
  - destruct Hholds as [_ Hm]. specialize (Hm hash). rewrite Em in Hm. by destruct Hm as (_ & _ & _ & _ & _ & Hw).
  - apply list_elem_of_lookup in Hin as [j Hj]. destruct (Forall2_lookup_r _ _ _ _ _ H Hj) as (hd & _ & _ & _ & Hh & Hb & _).
    split; [done|]. cbn [snd] in *. destruct b as [e refs|ps|g lod ps|refs]; try done. cbn [body_read body_wf] in *.
    apply list.Forall_forall. intros k Hk. pose proof (Hrange j hash e refs k Hj Hk) as Hr.
    eapply list.Forall_forall in Hb; [|exact Hk]. unfold srange in Hb. unfold urange. lia.
Qed.
End fixup.

(** ** The hook as a whole *)

Lemma new_resources_addresses blocks (headers : list (Z * Z)) h0 d :
  length headers = length blocks -> Forall (fun hd => known_type hd.2) headers ->
  (new_resources headers h0).1 = addresses d h0 blocks 0.
Proof.
  intros Hl Hk. destruct (new_resources_spec headers h0 Hk) as (-> & _). unfold addresses. rewrite Hl. done.
Qed.

(** The first half of the hook: reading and replacing. *)
Lemma fixup_read_blocks rs name files n bytes blocks buf' :
  mod_files name rs = Ok files -> read_depot n (mkBB bytes 0 (len bytes)) = Ok (blocks, buf') ->
  NoDup blocks.*1 -> refs_in_range blocks ->
  exists d h0 headers buf h r,
    holds d h0 (mod_block files) /\ Collect name rs (mkHeap ∅ 1) = Ok (d, h0) /\
    Rd_repeat n read_header (mkBB bytes 0 (len bytes)) = Ok (headers, buf) /\
    fixup_read d 0 headers (new_resources headers h0) buf = Ok ((addresses d h0 blocks (length blocks), h), r) /\
    fixup_inv d h0 (mod_block files) blocks (length blocks) h /\ Forall2 (header_of bytes (len bytes)) headers blocks /\
    length blocks = n.
Proof.
  intros Hm Hr Hnd Hrange. destruct (Collect_holds name rs files Hm) as (d & h0 & Hc & Hd).
  unfold read_depot in Hr. unfold mbind, Rd_bind in Hr.
  destruct (Rd_repeat n read_header (mkBB bytes 0 (len bytes))) as [[headers buf]|] eqn:Eh; [|done].
  assert (Hp : post (fun _ => True) read_header).
  { eapply post_bind; [apply post_read|intros o _]. eapply post_bind; [apply post_read|intros t _]. by apply post_ret. }
  destruct (post_repeat _ n _ Hp _ _ _ Eh) as ([Hn _] & Hb1 & Hb2). cbn in Hb1, Hb2.
  pose proof (read_at_headers_each bytes (len bytes) headers blocks buf Hb1 Hb2 (ex_intro _ buf' Hr)) as Hf. fold (header_of bytes (len bytes)) in Hf.
  assert (Hlen : length headers = length blocks) by (by eapply list.Forall2_length).
  assert (Hk : Forall (fun hd : Z * Z => known_type hd.2) headers).
  { eapply Forall2_Forall_l; [exact Hf|]. apply list.Forall_true. by intros hb hd (? & _). }
  destruct (new_resources_spec headers h0 Hk) as (N1 & N2 & N3).
  pose proof (new_resources_addresses blocks headers h0 d Hlen Hk) as Ha.
  destruct (new_resources headers h0) as [l h1] eqn:En. cbn [fst snd] in *. subst l.
  assert (Hinv : fixup_inv d h0 (mod_block files) blocks 0 h1).
  { split; [lia|lia| |].
    - intros j hash b _ Hj. destruct (Forall2_lookup_r _ _ _ _ _ Hf Hj) as (hd & Hhd & _ & Ht & _). cbn in Ht.
      destruct (N3 j hd Hhd) as (b0 & Ho & Hb0). exists b0. split; [done|]. by rewrite Hb0.
    - intros hash a Hfind _. apply N2. by eapply holds_below. }
  destruct buf as [bbuf rpos wpos]. cbn in Hb1, Hb2. subst bbuf wpos.
  destruct (fixup_read_spec d h0 (mod_block files) Hd blocks Hnd bytes (len bytes) Hrange headers 0 h1 rpos ltac:(lia)) as (h & r' & E & Hfin);
    [by rewrite drop_0|done|].
  exists d, h0, headers, (mkBB bytes rpos (len bytes)), h, (mkBB bytes r' (len bytes)). split_and!; try done.
  - by rewrite En, Ha.
  - rewrite <- Hlen. exact Hn.
Qed.

(** C8: The loader is handed the game's depot with every resource a mod brings in
    place of the game's of the same hash, the mod read last winning: the bytes
    read back as these resources, each referring to the same indices as before,
    and the relocation table names the offset in every resource and in every
    header. This holds for any layout of the game's file, if no resource that
    stays refers to one behind it that is replaced. *)
Theorem FixupTurboBulk_merges rs name files n bytes blocks buf' :
  mod_files name rs = Ok files -> read_depot n (mkBB bytes 0 (len bytes)) = Ok (blocks, buf') ->
  NoDup blocks.*1 -> refs_in_range blocks -> (forall i, ~ dangling (mod_block files) blocks i) ->
  let out := merged (mod_block files) blocks in
  fits (depot_bytes out) ->
  FixupTurboBulk rs name (Z.of_nat n) bytes =
    Ok (mkFixup (depot_bytes out) (block_relocs 0 (header_size out) out) (Z.of_nat n)) /\
  exists r, read_depot n (mkBB (depot_bytes out) 0 (len (depot_bytes out))) = Ok (out, mkBB (depot_bytes out) r (len (depot_bytes out))).
Proof.
  intros Hm Hr Hnd Hrange Hdangling out Hfits.
  destruct (fixup_read_blocks rs name files n bytes blocks buf' Hm Hr Hnd Hrange)
    as (d & h0 & headers & buf & h & r & Hd & Hc & Eh & Ef & Hinv & Hf & Hn).
  assert (Hwf : Forall block_wf out) by (by eapply merged_wf).
  assert (Hout : length out = n) by (unfold out, merged; by rewrite length_fmap). split.
  - unfold FixupTurboBulk. rewrite Hc. cbn [mbind result_bind]. rewrite Nat2Z.id, Eh. cbn [mbind result_bind]. rewrite Ef.
    cbn [fmap result_fmap fst mbind result_bind].
    etransitivity; [apply (fixup_write_depot h _ out)|by rewrite Hout]; [|done..].
    by apply (fixup_shows d h0 (mod_block files) Hd blocks).
  - rewrite <- Hout. by apply read_depot_saved.
Qed.

(** *** Dangling references *)

Lemma WritePadding_total fuel a buf :
  0 < a -> (a | 2 ^ 32) -> (- bb_wpos buf) mod a < Z.of_nat fuel -> exists buf', WritePadding fuel a buf = Ok buf'.
Proof.
  intros Ha Hdiv. revert buf. induction fuel as [|fuel IH]; intros buf Hb; [pose proof (Z.mod_pos_bound (- bb_wpos buf) a Ha); lia|].
  cbn [WritePadding]. destruct (Z.eqb_spec (bb_wpos buf mod a) 0) as [|H0]; [by eexists|]. apply IH.
  change (bb_wpos (bb_put 0 buf)) with (u32 (bb_wpos buf + 1)). destruct Hdiv as [q Hq].
  assert (E : (- u32 (bb_wpos buf + 1)) mod a = (- bb_wpos buf) mod a - 1).
  { unfold uwrap. rewrite (Z.mod_eq (bb_wpos buf + 1)) by lia. rewrite Hq.
    replace (- (bb_wpos buf + 1 - q * a * ((bb_wpos buf + 1) / (q * a)))) with ((- bb_wpos buf - 1) + (q * ((bb_wpos buf + 1) / (q * a))) * a) by lia.
    rewrite Z.mod_add by lia. rewrite (Z.mod_eq (- bb_wpos buf)) by lia.
    assert (Hne : (- bb_wpos buf) mod a <> 0) by (rewrite Z.mod_opp_l_nz by lia; pose proof (Z.mod_pos_bound (bb_wpos buf) a Ha); lia).
    pose proof (Z.mod_pos_bound (- bb_wpos buf) a Ha). rewrite Z.mod_eq in H, Hne by lia.
    symmetry. apply (Z.mod_unique _ _ (- bb_wpos buf / a)); [left; lia|lia]. }
  lia.
Qed.

Lemma WritePadding_8 buf : exists buf', WritePadding 8 8 buf = Ok buf'.
Proof. apply WritePadding_total; [done|by exists (2 ^ 29)|]. pose proof (Z.mod_pos_bound (- bb_wpos buf) 8). lia. Qed.

Lemma write_block_total hash b table buf : exists x, write_block hash b table buf = Ok x.
Proof.
  destruct b as [e refs|ps|g lod ps|refs]; cbn [write_block];
    match goal with |- context [WritePadding 8 8 ?b] => destruct (WritePadding_8 b) as [buf' ->] end; cbn [mbind result_bind];
    unfold write_hash; by eexists.
Qed.

Lemma object_fault a h : h_objects h !! a = None -> object a h = Fault Undefined.
Proof. unfold object. by intros ->. Qed.

Lemma mapM_object_fault h l p : p ∈ l -> h_objects h !! p = None -> mapM (fun p => m_index <$> object p h) l = Fault Undefined.
Proof.
  intros Hin Hp. induction l as [|q l IH]; [by apply elem_of_nil in Hin|]. cbn [mapM].
  destruct (h_objects h !! q) as [b|] eqn:Eq; [rewrite (object_ok _ _ _ Eq)|by rewrite (object_fault _ _ Eq)]. cbn [fmap result_fmap mbind result_bind].
  apply elem_of_cons in Hin as [->|Hin]; [congruence|]. by rewrite IH.
Qed.

Lemma mapM_object_ok_or h l : (exists x, mapM (fun p => m_index <$> object p h) l = Ok x) \/ mapM (fun p => m_index <$> object p h) l = Fault Undefined.
Proof.
  induction l as [|q l IH]; [left; by eexists|]. cbn [mapM].
  destruct (h_objects h !! q) as [b|] eqn:Eq; [rewrite (object_ok _ _ _ Eq)|rewrite (object_fault _ _ Eq); by right]. cbn [fmap result_fmap mbind result_bind].
  destruct IH as [[x ->]| ->]; [left; by eexists|by right].
Qed.

Lemma Write_ok_or a h table buf : (exists x, Write a h table buf = Ok x) \/ Write a h table buf = Fault Undefined.
Proof.
  unfold Write. destruct (h_objects h !! a) as [b|] eqn:Ea; [rewrite (object_ok _ _ _ Ea)|rewrite (object_fault _ _ Ea); by right].
  cbn [mbind result_bind].
  destruct (m_body b) as [e refs|ps|g lod ps|refs]; cbn [map_body mbind result_bind]; try (left; apply write_block_total).
  destruct (mapM_object_ok_or h refs) as [[x ->]| ->]; [left; apply write_block_total|by right].
Qed.

Lemma fixup_write_fault h i as_ buf table a :
  a ∈ as_ -> (forall table buf, Write a h table buf = Fault Undefined) -> fixup_write h i as_ buf table = Fault Undefined.
Proof.
  intros Hin Ha. revert i buf table. induction as_ as [|q as_ IH]; intros i buf table; [by apply elem_of_nil in Hin|]. cbn [fixup_write].
  destruct (Write_ok_or q h table buf) as [[[[buf' table'] start] E]| ->]; [|done]. rewrite E. cbn [mbind result_bind].
  apply elem_of_cons in Hin as [->|Hin]; [by rewrite Ha in E|]. by rewrite (IH Hin).
Qed.

(** But a resource that stays and refers to one behind it that a mod replaces
    keeps a pointer to the object that is deleted: writing it reads the index of
    the deleted object. *)
Theorem FixupTurboBulk_dangling rs name files n bytes blocks buf' i :
  mod_files name rs = Ok files -> read_depot n (mkBB bytes 0 (len bytes)) = Ok (blocks, buf') ->
  NoDup blocks.*1 -> refs_in_range blocks -> dangling (mod_block files) blocks i ->
  FixupTurboBulk rs name (Z.of_nat n) bytes = Fault Undefined.
Proof.
  intros Hm Hr Hnd Hrange (hash & e & refs & k & hb & Hi & Hkeep & Hk & Hhb & Hrep & Hlt).
  destruct (fixup_read_blocks rs name files n bytes blocks buf' Hm Hr Hnd Hrange)
    as (d & h0 & headers & buf & h & r & Hd & Hc & Eh & Ef & Hinv & Hf & Hn).
  unfold FixupTurboBulk. rewrite Hc. cbn [mbind result_bind]. rewrite Nat2Z.id, Eh. cbn [mbind result_bind]. rewrite Ef.
  cbn [fmap result_fmap fst mbind result_bind]. cbn zeta.
  pose proof (lookup_lt_Some _ _ _ Hi) as Hil. pose proof (lookup_lt_Some _ _ _ Hhb) as Hkl. destruct hb as [hash' b'].
  rewrite (fixup_write_fault h 0 _ _ _ (address_at d h0 blocks (length blocks) i)); [done| |].
  - eapply list_elem_of_lookup_2. by apply (addresses_lookup d h0 blocks).
  - intros table buf2. unfold Write. unfold address_at. rewrite (proj2 (Nat.ltb_lt _ _)) by done.
    rewrite (object_ok _ _ _ (inv_done _ _ _ _ _ _ Hinv i hash _ Hil Hi)). cbn [mbind result_bind m_body].
    unfold final_body. destruct (mod_block files hash) as [m|] eqn:Em; [exfalso; apply Hkeep; unfold replaced; rewrite Em; by eexists|].
    cbn [default pointers map_body]. erewrite mapM_object_fault; [done| |].
    + apply list_elem_of_fmap. exists k. split; [done|exact Hk].
    + unfold address_at. rewrite (proj2 (Nat.ltb_ge _ _)) by lia. by apply (inv_deleted _ _ _ _ _ _ Hinv _ _ _ Hkl Hhb).
Qed.

(** *** Witnesses *)

(** A resource with one parameter, an entry that refers to it, and a mod that
    brings the resource without parameters. *)
Definition sample_parameter : ParameterEntry := mkParameter (Z.shiftl 7 16) 5 1 [Byte.x01; Byte.x02] 3.
Definition sample_blocks : list (Z * Body Z) := [(10, PersistentParams [sample_parameter]); (20, StaticParams true [0])].
Definition sample_swapped : list (Z * Body Z) := [(20, StaticParams true [1]); (10, PersistentParams [sample_parameter])].
Definition sample_file : list byte :=
  le_split 4 1 ++ replicate 12 Byte.x00 ++ header_bytes (start_of 32 (PersistentParams []), 1) ++ block_bytes 32 10 (PersistentParams []).
Definition sample_depot_mod : ModResource :=
  let bytes := bstr "t" ++ Byte.x00 :: sample_file in
  mkResource FrostyResourceType_Res (bstr "d") [] 1 0 false (bstr "mod") 0
    (mkData (len bytes) (len bytes) (Some bytes) 0 0 0 0 [] 0 0 0 0 0 0) 1.

Lemma sample_mod_files : mod_files (bstr "d") [sample_depot_mod] = Ok [[(10, PersistentParams [])]].
Proof. vm_compute. reflexivity. Qed.

Lemma sample_in_range k l : (forall i hash e refs, l !! i = Some (hash, StaticParams e refs) -> refs = [k]) -> 0 <= k < len l -> refs_in_range l.
Proof. intros H Hk i hash e refs k' Hi Hin. rewrite (H i hash e refs Hi) in Hin. by apply list_elem_of_singleton in Hin as ->. Qed.

Lemma sample_nodup (l : list (Z * Body Z)) : bool_decide (NoDup l.*1) = true -> NoDup l.*1.
Proof. apply bool_decide_eq_true. Qed.

Lemma FixupTurboBulk_merges_witness :
  exists fx, FixupTurboBulk [sample_depot_mod] (bstr "d") 2 (depot_bytes sample_blocks) = Ok fx /\
    fst <$> read_depot 2 (mkBB (fx_bytes fx) 0 (len (fx_bytes fx))) = Ok [(10, PersistentParams []); (20, StaticParams true [0])].
Proof.
  destruct (FixupTurboBulk_merges [sample_depot_mod] (bstr "d") [[(10, PersistentParams [])]] 2 (depot_bytes sample_blocks) sample_blocks
    (mkBB (depot_bytes sample_blocks) 92 (len (depot_bytes sample_blocks)))) as [E [r Er]].
  - exact sample_mod_files.
  - vm_compute. reflexivity.
  - apply sample_nodup. reflexivity.
  - apply (sample_in_range 0); [|cbn; lia]. intros [|[|i]] hash e refs Hi; try discriminate; by injection Hi.
  - intros [|[|i]] (hash & e & refs & k & hb & Hi & _ & Hk & _ & _ & Hlt); try discriminate. cbn in Hi. injection Hi as <- <- <-.
    apply list_elem_of_singleton in Hk as ->. cbn in Hlt. lia.
  - vm_compute. reflexivity.
  - eexists. split; [exact E|]. cbn [fx_bytes]. rewrite Er. reflexivity.
Defined.

Lemma FixupTurboBulk_dangling_witness :
  FixupTurboBulk [sample_depot_mod] (bstr "d") 2 (depot_bytes sample_swapped) = Fault Undefined.
Proof.
  apply (FixupTurboBulk_dangling [sample_depot_mod] (bstr "d") [[(10, PersistentParams [])]] 2 (depot_bytes sample_swapped) sample_swapped
    (mkBB (depot_bytes sample_swapped) 90 (len (depot_bytes sample_swapped))) 0).
  - exact sample_mod_files.
  - vm_compute. reflexivity.
  - apply sample_nodup. reflexivity.
  - apply (sample_in_range 1); [|cbn; lia]. intros [|[|i]] hash e refs Hi; try discriminate; by injection Hi.
  - exists 20, true, [1], 1, (10, PersistentParams [sample_parameter]). split_and!; [done| |apply list_elem_of_here|done| |cbn; lia].
    + intros [b Hb]. vm_compute in Hb. discriminate.
    + by exists (PersistentParams []).
Defined.
