(* ===== verification/Localization.v ===== *)
(** [LocalizationHandler] (Source/ModLoader/Handlers/LocalizationHandler.cpp):
    merging the texts of mods into the game's text database.

    The database is a chunk: a header, a table of text ids and offsets, and the
    texts in a byte encoding. Characters from 0x80 on are positions in the
    histogram of another chunk; positions that do not fit a byte are written as
    a shift byte, which selects a block of 128, and a byte within the block. *)

From S2P Require Import Prelude OrdMap ByteBuffer StringUtils Guid ResourceHooks.

Definition LocalizationMergeData : Type := omap Z (list Z).

(** ** [Load] *)

Definition load_text (data : LocalizationMergeData) : Rd LocalizationMergeData :=
  hash ← bb_getInt; str ← bb_getNullTerminatedWideString; mret (omap_insert hash str data).

Fixpoint load_texts (n : nat) (data : LocalizationMergeData) : Rd LocalizationMergeData :=
  match n with
  | O => mret data
  | S n => data ← load_text data; load_texts n data
  end.

Definition Localization_Load (data : LocalizationMergeData) : Rd LocalizationMergeData :=
  magic ← bb_getInt;
  count ← (if negb (magic =? 0xABCD0001) then mret (i32 magic) else c ← bb_getInt; mret (i32 c));
  load_texts (Z.to_nat count) data.

(** ** [ModifyHistogram] *)

(** Reads through the pointer are not checked. *)
Definition histogram_at (n : nat) (data : list byte) (i : Z) : result Z :=
  if i + Z.of_nat n <=? len data then Ok (le_combine (slice (Z.to_nat i) n data)) else Fault Undefined.

Definition ModifyHistogram (histogramData : list byte) : result (list Z) :=
  _ ← histogram_at 4 histogramData 0;
  size ← histogram_at 4 histogramData 4;
  _ ← histogram_at 4 histogramData 8;
  mapM (fun i => histogram_at 2 histogramData (12 + 2 * Z.of_nat i)) (seq 0 (Z.to_nat (size / 2))).

(** ** [ModifyChunk] *)

(** *** Reading the database *)

Record TextTable := mkTable { tt_tag : list byte; tt_ids : list Z; tt_strings : omap Z (list Z) }.

Definition read_text_entry : Rd (Z * Z) := id ← bb_getInt; offset ← bb_getInt; mret (id, offset).

Definition read_text_at (stringsOffset offset : Z) : Rd (list Z) :=
  _ ← Rd_modify (bb_setReadPos (stringsOffset + offset + 8)); bb_getNullTerminatedWideStringAsAscii.

Definition set_all {V} (l : list (Z * V)) (m : omap Z V) : omap Z V :=
  foldl (fun m kv => omap_insert kv.1 kv.2 m) m l.

(** [None] when the magic number is another. *)
Definition read_table : Rd (option TextTable) :=
  magic ← bb_getInt;
  if negb (magic =? 0x00039000) then mret None else
  _ ← bb_getInt; count ← bb_getInt; dataOffset ← bb_getInt; stringsOffset ← bb_getInt;
  tag ← bb_getNullTerminatedString;
  _ ← Rd_modify (bb_setReadPos (dataOffset + 8));
  (* vectors of a negative size *)
  if i32 count <? 0 then Rd_fault Thrown else
  entries ← Rd_repeat (Z.to_nat (i32 count)) read_text_entry;
  texts ← mapM (fun e => read_text_at stringsOffset e.2) entries;
  mret (Some (mkTable tag entries.*1 (set_all (zip entries.*1 texts) []))).

(** *** Encoding *)

(** The shift bytes, from the last position down; the position is narrowed. *)
Definition histogramShifts (values : list Z) : result (list Z) :=
  shifts ← mapM (fun i => v ← of_option Undefined (values !! Z.to_nat i); Ok (i, v)) (rev (seqZ 0x80 (0x1FF - 0x80)));
  Ok ((fun iv => u8 iv.1) <$> filter (fun iv => iv.2 < 0x80) shifts).

Definition block_start (values : list Z) (shift : Z) : Z := Z.shiftl (default 0 (values !! Z.to_nat shift)) 7.

Definition position (b : Z) (values : list Z) : option Z := (fun p => Z.of_nat p.1) <$> list_find (fun v => v = b) values.

Definition encode_char (values shifts : list Z) (b : Z) : list Z :=
  if b <? 0x80 then [b] else
  match position b values with
  | None => []
  | Some index =>
    if index <=? 0xFF then [u8 index] else
    match list_find (fun shift => index - block_start values shift < 0x80) shifts with
    | None => []
    | Some (_, shift) => [shift; u8 (index - block_start values shift + 0x80)]
    end
  end.

Definition encode_text (values shifts : list Z) (s : list Z) : list Z := s ≫= encode_char values shifts.

Definition merge_text (values shifts : list Z) (st : list Z * omap Z (list Z)) (entry : Z * list Z)
    : list Z * omap Z (list Z) :=
  (if bool_decide (entry.1 ∈ st.1) then st.1 else st.1 ++ [entry.1],
   omap_insert entry.1 (encode_text values shifts entry.2) st.2).

(** *** Writing the database *)

Definition write_text (strings : omap Z (list Z)) (st : list Z * ByteBuffer) (id : Z) : list Z * ByteBuffer :=
  (st.1 ++ [bb_wpos st.2], bb_putNullTerminatedWideString (default [] (omap_find id strings)) st.2).

Fixpoint pad_to (fuel : nat) (pos : Z) (buf : ByteBuffer) : result ByteBuffer :=
  match fuel with
  | O => Fault OutOfFuel
  | S fuel => if bb_wpos buf <? pos then pad_to fuel pos (bb_put 0 buf) else Ok buf
  end.

Definition write_text_entry (buf : ByteBuffer) (e : Z * Z) : ByteBuffer := bb_putInt e.2 (bb_putInt e.1 buf).

Definition write_table (tag : list byte) (ids : list Z) (strings : omap Z (list Z)) : result (list byte) :=
  let '(offsets, stringBuf) := foldl (write_text strings) ([], bb_empty) ids in
  let buf := bb_putInt 0x8C (bb_putInt (u32 (len ids)) (bb_putInt 0xdeadbeef (bb_putInt 0x00039000 bb_empty))) in
  let buf := bb_putInt (u32 (0x8C + 8 * len ids)) buf in
  let buf := bb_putNullTerminatedString tag buf in
  buf ← pad_to 149 (0x8C + 8) buf;
  let buf := foldl write_text_entry buf (zip ids offsets) in
  let buf := bb_putBuffer stringBuf buf in
  let size := u32 (bb_wpos buf - 8) in
  Ok (bb_buf (bb_putInt size (bb_setWritePos 4 buf))).

Definition merge_table (values shifts : list Z) (data : LocalizationMergeData) (t : TextTable) : list Z * omap Z (list Z) :=
  let '(ids, strings) := foldl (merge_text values shifts) (tt_ids t, tt_strings t) data in
  (merge_sort Z.le ids, strings).

Definition Localization_ModifyChunk (chunkData : list byte) (data : LocalizationMergeData) (values : list Z)
    : result (list byte) :=
  table ← fst <$> read_table (mkBB chunkData 0 (len chunkData));
  match table with
  | None => Ok []
  | Some t =>
    shifts ← histogramShifts values;
    let '(ids, strings) := merge_table values shifts data t in
    write_table (tt_tag t) ids strings
  end.

(** ** [Modify] *)

Record UITextDatabase := mkTextDatabase {
  HistogramChunk : Guid; HistogramChunkSize : Z; BinaryChunk : Guid; BinaryChunkSize : Z }.

(** [readChunk] is [ModLoader::ReadChunkSync]; the result is the changed
    database and the chunk handed to [ModLoader::ModifyChunk]. *)
Definition Localization_Modify (readChunk : Guid -> Z -> list byte) (db : UITextDatabase) (data : LocalizationMergeData)
    : result (UITextDatabase * (Guid * list byte)) :=
  values ← ModifyHistogram (readChunk (HistogramChunk db) (HistogramChunkSize db));
  chunk ← Localization_ModifyChunk (readChunk (BinaryChunk db) (BinaryChunkSize db)) data values;
  Ok (mkTextDatabase (HistogramChunk db) (HistogramChunkSize db) (BinaryChunk db) (u32 (len chunk)), (BinaryChunk db, chunk)).

(** ** The bytes of a database *)

Definition text_bytes (s : list Z) : list byte := byte.of_Z <$> s.
Definition texts_bytes (strings : omap Z (list Z)) (ids : list Z) : list byte :=
  mjoin ((fun id => text_bytes (default [] (omap_find id strings)) ++ [Byte.x00]) <$> ids).

(** Where the texts start, from the first of them. *)
Fixpoint text_offsets (strings : omap Z (list Z)) (start : Z) (ids : list Z) : list Z :=
  match ids with
  | [] => []
  | id :: ids => start :: text_offsets strings (start + len (default [] (omap_find id strings)) + 1) ids
  end.

Definition entry_bytes (e : Z * Z) : list byte := le_split 4 e.1 ++ le_split 4 e.2.

Definition table_head (size : Z) (n : Z) : list byte :=
  le_split 4 0x00039000 ++ le_split 4 size ++ le_split 4 n ++ le_split 4 0x8C ++ le_split 4 (0x8C + 8 * n).

Definition table_body (tag : list byte) (ids : list Z) (strings : omap Z (list Z)) : list byte :=
  (tag ++ [Byte.x00]) ++ replicate (127 - length tag) Byte.x00 ++
  mjoin (entry_bytes <$> zip ids (text_offsets strings 0 ids)) ++ texts_bytes strings ids.

Definition table_size (tag : list byte) (ids : list Z) (strings : omap Z (list Z)) : Z :=
  12 + len (table_body tag ids strings).

Definition table_bytes (tag : list byte) (ids : list Z) (strings : omap Z (list Z)) : list byte :=
  table_head (table_size tag ids strings) (len ids) ++ table_body tag ids strings.

(** A text the encoding can hold: no unit ends it. *)
Definition text_wf (s : list Z) : Prop := Forall (fun c => u8 c <> 0) s.

Record table_wf (tag : list byte) (ids : list Z) (strings : omap Z (list Z)) : Prop := {
  tw_tag : (Byte.x00 ∉ tag) /\ (length tag <= 127)%nat;
  tw_ids : Forall is_u32 ids;
  tw_texts : Forall (fun id => text_wf (default [] (omap_find id strings))) ids;
  tw_size : len (table_bytes tag ids strings) < 2 ^ 31;
}.

Lemma bb_put_u8_wr c l : fits (l ++ [byte.of_Z c]) -> bb_put (u8 c) (wr l) = wr (l ++ [byte.of_Z c]).
Proof. intros H. rewrite bb_put_wr; rewrite byte_of_u8; done. Qed.

Lemma put_text_wr s l :
  text_wf s -> fits (l ++ text_bytes s ++ [Byte.x00]) ->
  bb_putNullTerminatedWideString s (wr l) = wr (l ++ text_bytes s ++ [Byte.x00]).
Proof.
  intros Hs. revert l. induction Hs as [|c s Hc _ IH]; intros l Hf; cbn [bb_putNullTerminatedWideString].
  - rewrite bb_put_wr; [done|exact Hf].
  - rewrite (proj2 (Z.eqb_neq _ 0) Hc). cbn [text_bytes fmap list_fmap] in Hf |- *.
    rewrite bb_put_u8_wr by fits. rewrite IH; [by rewrite <- app_assoc|]. rewrite <- app_assoc. exact Hf.
Qed.

Lemma length_text_bytes s : length (text_bytes s) = length s.
Proof. apply length_fmap. Qed.

Lemma write_texts_wr strings ids offsets l :
  Forall (fun id => text_wf (default [] (omap_find id strings))) ids ->
  fits (l ++ texts_bytes strings ids) ->
  foldl (write_text strings) (offsets, wr l) ids =
    (offsets ++ text_offsets strings (len l) ids, wr (l ++ texts_bytes strings ids)).
Proof.
  intros Hall. revert offsets l. induction Hall as [|id ids Hid _ IH]; intros offsets l Hf; [by rewrite !app_nil_r|].
  change (texts_bytes strings (id :: ids)) with ((text_bytes (default [] (omap_find id strings)) ++ [Byte.x00]) ++ texts_bytes strings ids) in *.
  cbn [foldl]. unfold write_text at 2. cbn [fst snd]. rewrite put_text_wr; [|done|fits].
  rewrite IH by (revert Hf; by rewrite <- !app_assoc). rewrite <- !app_assoc. cbn [text_offsets app]. do 3 f_equal.
  rewrite !length_app, length_text_bytes. cbn [length]. f_equal. lia.
Qed.

Lemma pad_to_wr k l fuel :
  (k < fuel)%nat -> fits (l ++ replicate k Byte.x00) ->
  pad_to fuel (len l + Z.of_nat k) (wr l) = Ok (wr (l ++ replicate k Byte.x00)).
Proof.
  revert l fuel. induction k as [|k IH]; intros l [|fuel] Hk Hf; try lia; cbn [pad_to]; cbn [bb_wpos wr].
  - rewrite Z.add_0_r, Z.ltb_irrefl. by rewrite app_nil_r.
  - destruct (Z.ltb_spec (len l) (len l + Z.of_nat (S k))); [|lia].
    change (mkBB l 0 (len l)) with (wr l). rewrite bb_put_wr by (cbn [replicate] in Hf; fits).
    replace (len l + Z.of_nat (S k)) with (len (l ++ [byte.of_Z 0]) + Z.of_nat k) by (rewrite length_app; cbn; lia).
    rewrite IH; [by rewrite <- app_assoc|lia|]. rewrite <- app_assoc. exact Hf.
Qed.

Lemma write_entries_wr es l :
  fits (l ++ mjoin (entry_bytes <$> es)) -> foldl write_text_entry (wr l) es = wr (l ++ mjoin (entry_bytes <$> es)).
Proof.
  revert l. induction es as [|e es IH]; intros l Hf; [by rewrite app_nil_r|].
  change (mjoin (entry_bytes <$> e :: es)) with (entry_bytes e ++ mjoin (entry_bytes <$> es)) in *.
  cbn [foldl]. unfold write_text_entry at 2, entry_bytes at 1. unfold entry_bytes at 1 in Hf.
  rewrite putInt_wr by fits. rewrite putInt_wr by fits. rewrite IH; [by rewrite <- !app_assoc|].
  revert Hf. by rewrite <- !app_assoc.
Qed.

Lemma text_offsets_length strings start ids : length (text_offsets strings start ids) = length ids.
Proof. revert start. induction ids; intros; cbn; auto. Qed.

Lemma entries_length es : length (mjoin (entry_bytes <$> es)) = (8 * length es)%nat.
Proof.
  induction es as [|e es IH]; [done|]. change (mjoin (entry_bytes <$> e :: es)) with (entry_bytes e ++ mjoin (entry_bytes <$> es)).
  unfold entry_bytes at 1. rewrite !length_app, IH, !length_le_split. cbn [length]. lia.
Qed.

Lemma table_head_length size n : length (table_head size n) = 20%nat.
Proof. unfold table_head. rewrite !length_app, !length_le_split. done. Qed.

Lemma write_table_bytes tag ids strings :
  table_wf tag ids strings -> write_table tag ids strings = Ok (table_bytes tag ids strings).
Proof.
  intros [[Ht Htl] Hi Htx Hs]. unfold write_table, table_bytes in *. set (n := len ids) in *.
  set (es := zip ids (text_offsets strings 0 ids)).
  assert (Hsize : len (table_head (table_size tag ids strings) n ++ table_body tag ids strings)
    = 148 + 8 * n + len (texts_bytes strings ids)).
  { unfold table_body. rewrite !length_app, table_head_length, length_replicate, entries_length, length_zip, text_offsets_length.
    cbn [length]. lia. }
  rewrite Hsize in Hs.
  change bb_empty with (wr []) at 1. rewrite write_texts_wr; [|done|unfold fits; cbn [app]; lia]. cbn [app length].
  change (Z.of_nat 0) with 0. rewrite !(uwrap_small 32) by (unfold urange; lia).
  change bb_empty with (wr []). do 5 (rewrite putInt_wr by fits). rewrite bb_putNullTerminatedString_wr by (done || fits).
  rewrite <- !app_assoc. cbn [app].
  set (hd := le_split 4 0x39000 ++ le_split 4 0xdeadbeef ++ le_split 4 n ++ le_split 4 0x8C ++ le_split 4 (0x8C + 8 * n) ++ tag ++ [Byte.x00]).
  assert (Hhd : length hd = (21 + length tag)%nat) by (unfold hd; rewrite !length_app, !length_le_split; cbn [length]; lia).
  replace (0x8C + 8) with (len hd + Z.of_nat (127 - length tag)) by lia.
  rewrite pad_to_wr; [|lia|unfold fits; rewrite length_app, length_replicate; lia]. cbn [mbind result_bind].
  fold es. rewrite write_entries_wr; [|unfold fits; rewrite !length_app, length_replicate, entries_length; unfold es; rewrite length_zip, text_offsets_length; lia].
  set (rest := replicate (127 - length tag) Byte.x00 ++ mjoin (entry_bytes <$> es) ++ texts_bytes strings ids).
  unfold bb_putBuffer. cbn [bb_buf wr].
  rewrite foldl_append_wr by (unfold fits; rewrite !length_app, length_replicate, entries_length; unfold es; rewrite length_zip, text_offsets_length; lia).
  assert (Hbody : table_body tag ids strings = tag ++ [Byte.x00] ++ rest) by (unfold table_body, rest; by rewrite <- !app_assoc).
  assert (Hall : ((hd ++ replicate (127 - length tag) Byte.x00) ++ mjoin (entry_bytes <$> es)) ++ texts_bytes strings ids
    = le_split 4 0x39000 ++ le_split 4 0xdeadbeef ++ (le_split 4 n ++ le_split 4 0x8C ++ le_split 4 (0x8C + 8 * n)) ++ tag ++ [Byte.x00] ++ rest).
  { unfold hd, rest. by rewrite <- !app_assoc. }
  rewrite Hall. set (post := (le_split 4 n ++ _) ++ _ ++ _ ++ rest).
  assert (Hl : len (le_split 4 0x39000 ++ le_split 4 0xdeadbeef ++ post) = table_size tag ids strings + 8).
  { unfold table_size. rewrite Hbody. unfold post. rewrite !length_app, !length_le_split. lia. }
  assert (Hts : table_size tag ids strings + 8 = 148 + 8 * n + len (texts_bytes strings ids)).
  { unfold table_size. rewrite length_app, table_head_length in Hsize. lia. }
  unfold wr at 1. cbn [bb_wpos]. rewrite Hl. replace (table_size tag ids strings + 8 - 8) with (table_size tag ids strings) by lia.
  rewrite (uwrap_small 32) by (unfold urange; lia).
  pose proof (bb_append_mid (le_split 4 0x39000) (le_split 4 0xdeadbeef) post (le_split 4 (table_size tag ids strings)) 0) as E.
  change (bb_setWritePos 4 (wr ?x)) with (mkBB x 0 (len (le_split 4 0x39000))). unfold bb_putInt.
  rewrite E; [|by rewrite !length_le_split|unfold fits; lia].
  cbn [bb_buf]. f_equal. unfold table_head, post. by rewrite Hbody, <- !app_assoc.
Qed.

(** ** Reading a database back *)

Section reading.
Context (D : list byte) (w : Z) (HD : fits D).

Lemma parses_getInt v : is_u32 v -> parses D w bb_getInt (le_split 4 v) v.
Proof.
  intros Hv pre rest Heq. subst D. etransitivity; [exact (bb_read_cur 4 pre (le_split 4 v) rest w (length_le_split _ _) HD)|].
  unfold cur. rewrite le_combine_split_small by done. by rewrite <- app_assoc.
Qed.

Lemma readUnits_cur s pre rest fuel :
  (Byte.x00 ∉ s) -> (length s < fuel)%nat -> D = pre ++ s ++ Byte.x00 :: rest ->
  bb_readUnits fuel 1 (mkBB D (len pre) w) = Ok (byte.unsigned <$> s, mkBB D (len (pre ++ s ++ [Byte.x00])) w).
Proof.
  revert pre fuel. induction s as [|c s IH]; intros pre [|fuel] Hs Hf Heq; try (cbn in Hf; lia); cbn [bb_readUnits];
    unfold mbind, Rd_bind.
  - assert (E : bb_read 1 (mkBB D (len pre) w) = Ok (0, mkBB D (len (pre ++ [Byte.x00])) w)).
    { subst D. etransitivity; [exact (bb_read_cur 1 pre [Byte.x00] rest w eq_refl HD)|]. unfold cur. by rewrite <- app_assoc. }
    rewrite E. done.
  - apply not_elem_of_cons in Hs as [Hc Hs].
    assert (E : bb_read 1 (mkBB D (len pre) w) = Ok (byte.unsigned c, mkBB D (len (pre ++ [c])) w)).
    { subst D. etransitivity; [exact (bb_read_cur 1 pre [c] (s ++ Byte.x00 :: rest) w eq_refl HD)|].
      rewrite le_combine_1. unfold cur. by rewrite <- app_assoc. }
    rewrite E. destruct (Z.eqb_spec (byte.unsigned c) 0) as [H0|_].
    { destruct Hc. apply byte.unsigned_inj. by rewrite H0. }
    rewrite (IH (pre ++ [c]) fuel Hs); [|cbn in Hf; lia|by rewrite <- app_assoc].
    unfold mret, Rd_ret. cbn [fmap list_fmap]. by rewrite <- !app_assoc.
Qed.

(** Texts are read from their offsets, wherever the reader stands. *)
Lemma mapM_jump {A B} (f : A -> Rd B) (out : A -> B) l r :
  (forall a r, a ∈ l -> exists r', f a (mkBB D r w) = Ok (out a, mkBB D r' w)) ->
  exists r', mapM f l (mkBB D r w) = Ok (out <$> l, mkBB D r' w).
Proof.
  revert r. induction l as [|a l IH]; intros r Hf; [by exists r|].
  destruct (Hf a r) as [r1 E1]; [by left|]. destruct (IH r1) as [r2 E2]; [intros b r' Hb; apply Hf; by right|].
  exists r2. change (mapM f (a :: l) (mkBB D r w)) with
    (match f a (mkBB D r w) with
     | Ok (y, b) => match mapM f l b with Ok (k, b) => Ok (y :: k, b) | Fault e => Fault e end
     | Fault e => Fault e
     end).
  by rewrite E1, E2.
Qed.
End reading.

(** How a unit of a text is read back: a byte from 0x80 on is sign-extended. *)
Definition stored (s : list Z) : list Z := (fun c => char_to_char16 (u8 c)) <$> s.

Lemma stored_bytes s : char_to_char16 <$> (byte.unsigned <$> text_bytes s) = stored s.
Proof.
  unfold text_bytes, stored. rewrite <- !list_fmap_compose. apply list_fmap_ext. intros i c _. cbn.
  by rewrite byte.unsigned_of_Z.
Qed.

Lemma text_no_nul s : text_wf s -> Byte.x00 ∉ text_bytes s.
Proof.
  intros Hs (c & Hc & Hin)%list_elem_of_fmap. unfold text_wf in Hs. rewrite list.Forall_forall in Hs. apply (Hs c Hin).
  change (u8 c) with (byte.wrap c). by rewrite <- byte.unsigned_of_Z, <- Hc.
Qed.

(** Where the i-th text stands. *)
Lemma texts_split strings ids start i id :
  ids !! i = Some id ->
  exists l1 l2, texts_bytes strings ids = l1 ++ text_bytes (default [] (omap_find id strings)) ++ Byte.x00 :: l2 /\
    text_offsets strings start ids !! i = Some (start + len l1).
Proof.
  revert start i. induction ids as [|x ids IH]; intros start [|i] Hi; try done.
  - injection Hi as ->. exists [], (texts_bytes strings ids). cbn [app length text_offsets]. rewrite Z.add_0_r.
    split; [|done]. change (texts_bytes strings (id :: ids)) with
      ((text_bytes (default [] (omap_find id strings)) ++ [Byte.x00]) ++ texts_bytes strings ids). by rewrite <- app_assoc.
  - destruct (IH (start + len (default [] (omap_find x strings)) + 1) i Hi) as (l1 & l2 & E1 & E2).
    exists ((text_bytes (default [] (omap_find x strings)) ++ [Byte.x00]) ++ l1), l2.
    change (texts_bytes strings (x :: ids)) with
      ((text_bytes (default [] (omap_find x strings)) ++ [Byte.x00]) ++ texts_bytes strings ids).
    rewrite E1, <- !app_assoc. split; [done|].
    change (text_offsets strings start (x :: ids) !! S i) with
      (text_offsets strings (start + len (default [] (omap_find x strings)) + 1) ids !! i). rewrite E2. f_equal.
    rewrite !length_app, length_text_bytes. cbn [length]. lia.
Qed.

Lemma set_all_find {V} (F : Z -> V) ids m id :
  omap_find id (set_all ((fun i => (i, F i)) <$> ids) m) = if decide (id ∈ ids) then Some (F id) else omap_find id m.
Proof.
  revert m. induction ids as [|i ids IH]; intros m; [by rewrite decide_False by apply not_elem_of_nil|].
  cbn [fmap list_fmap set_all foldl]. unfold set_all in IH. rewrite IH. cbn [fst snd].
  destruct (decide (id ∈ ids)) as [Hin|Hin]; [by rewrite decide_True by set_solver|].
  destruct (decide (id = i)) as [->|Hne].
  - by rewrite omap_find_insert_eq, decide_True by by left.
  - by rewrite omap_find_insert_ne, decide_False by set_solver.
Qed.

Section saved.
Context (tag : list byte) (ids : list Z) (strings : omap Z (list Z)) (Hwf : table_wf tag ids strings).

Let D := table_bytes tag ids strings.
Let n := len ids.
Let es := zip ids (text_offsets strings 0 ids).

Lemma saved_sizes : len D = 148 + 8 * n + len (texts_bytes strings ids) /\ fits D.
Proof.
  destruct (tw_tag _ _ _ Hwf) as [_ Ht]. pose proof (tw_size _ _ _ Hwf) as Hs. fold D in Hs.
  assert (Hsize : len D = 148 + 8 * n + len (texts_bytes strings ids)).
  { unfold D, table_bytes, table_body. rewrite !length_app, table_head_length, length_replicate, entries_length, length_zip, text_offsets_length.
    cbn [length]. lia. }
  split; [done|]. unfold fits. lia.
Qed.

(** The texts start after 148 bytes and the table. *)
Lemma saved_split : exists hd, D = hd ++ mjoin (entry_bytes <$> es) ++ texts_bytes strings ids /\ len hd = 148 /\
  hd = table_head (table_size tag ids strings) n ++ (tag ++ [Byte.x00]) ++ replicate (127 - length tag) Byte.x00.
Proof.
  destruct (tw_tag _ _ _ Hwf) as [_ Ht].
  exists (table_head (table_size tag ids strings) n ++ (tag ++ [Byte.x00]) ++ replicate (127 - length tag) Byte.x00).
  split; [unfold D, table_bytes, table_body; fold n es; by rewrite <- !app_assoc|]. split; [|done].
  rewrite !length_app, table_head_length, length_replicate. cbn [length]. lia.
Qed.

Lemma read_text_saved w i id off r :
  ids !! i = Some id -> text_offsets strings 0 ids !! i = Some off ->
  exists r', read_text_at (0x8C + 8 * n) off (mkBB D r w) = Ok (stored (default [] (omap_find id strings)), mkBB D r' w).
Proof.
  intros Hid Hoff. destruct saved_sizes as [Hsize Hfits]. destruct saved_split as (hd & HD & Hhd & _).
  destruct (texts_split strings ids 0 i id Hid) as (l1 & l2 & E1 & E2). rewrite E2 in Hoff. injection Hoff as <-.
  assert (Htx : text_wf (default [] (omap_find id strings))).
  { pose proof (tw_texts _ _ _ Hwf) as H. rewrite list.Forall_forall in H. apply H. by eapply list_elem_of_lookup_2. }
  set (pre := hd ++ mjoin (entry_bytes <$> es) ++ l1).
  assert (Hpre : len pre = 0x8C + 8 * n + (0 + len l1) + 8).
  { unfold pre. rewrite !length_app, entries_length. unfold es. rewrite length_zip, text_offsets_length. lia. }
  assert (HD' : D = pre ++ text_bytes (default [] (omap_find id strings)) ++ Byte.x00 :: l2).
  { rewrite HD, E1. unfold pre. by rewrite <- !app_assoc. }
  assert (Hlt : len pre < len D) by (rewrite HD', !length_app; cbn [length]; lia).
  unfold read_text_at, mbind, Rd_bind, Rd_modify, bb_setReadPos. cbn [bb_buf bb_wpos].
  rewrite <- Hpre, uwrap_small by (unfold urange; unfold fits in Hfits; lia).
  unfold bb_getNullTerminatedWideStringAsAscii. cbn [bb_buf].
  rewrite (readUnits_cur D w Hfits (text_bytes (default [] (omap_find id strings))) pre l2); [|by apply text_no_nul|rewrite HD', !length_app; cbn [length]; lia|done].
  rewrite stored_bytes. by eexists.
Qed.

Lemma read_entries_saved w :
  parses D w (Rd_repeat (length ids) read_text_entry) (mjoin (entry_bytes <$> es)) es.
Proof.
  destruct saved_sizes as [Hsize Hfits]. pose proof (tw_size _ _ _ Hwf) as Hs. fold D in Hs.
  replace (length ids) with (length es) by (unfold es; rewrite length_zip, text_offsets_length; lia).
  apply parses_repeat_id. intros [x off] Hin.
  assert (Hr : is_u32 x /\ is_u32 off).
  { unfold es in Hin. apply list_elem_of_lookup in Hin as [i Hi].
    apply lookup_zip_with_Some in Hi as (x' & off' & [= <- <-] & Hi & Ho). split.
    - pose proof (tw_ids _ _ _ Hwf) as H. rewrite list.Forall_forall in H. apply H. by eapply list_elem_of_lookup_2.
    - destruct (texts_split strings ids 0 i x Hi) as (l1 & l2 & E1 & E2). rewrite E2 in Ho. injection Ho as <-.
      assert (len l1 <= len (texts_bytes strings ids)) by (rewrite E1, !length_app; lia). unfold urange. lia. }
  destruct Hr as [Hx Ho]. unfold read_text_entry, entry_bytes. cbn [fst snd].
  eapply parses_bind; [by apply parses_getInt|]. eapply parses_map_eq; [by apply parses_getInt|done].
Qed.

(** What the reader gets from a written database. *)
Lemma read_table_saved :
  exists b, read_table (mkBB D 0 (len D)) =
    Ok (Some (mkTable tag ids (set_all ((fun id => (id, stored (default [] (omap_find id strings)))) <$> ids) [])), b).
Proof.
  destruct saved_sizes as [Hsize Hfits]. destruct saved_split as (hd & HD & Hhd & Hhd').
  pose proof (tw_size _ _ _ Hwf) as Hs. fold D in Hs. destruct (tw_tag _ _ _ Hwf) as [Ht Htl].
  set (w := len D). unfold read_table.
  assert (HD' : D = le_split 4 0x39000 ++ le_split 4 (table_size tag ids strings) ++ le_split 4 n ++ le_split 4 0x8C ++
    le_split 4 (0x8C + 8 * n) ++ tag ++ [Byte.x00] ++ replicate (127 - length tag) Byte.x00 ++
    mjoin (entry_bytes <$> es) ++ texts_bytes strings ids).
  { rewrite HD, Hhd'. unfold table_head. by rewrite <- !app_assoc. }
  assert (Hts : is_u32 (table_size tag ids strings)).
  { unfold urange. unfold D, table_bytes in Hs. rewrite length_app, table_head_length in Hs. unfold table_size. lia. }
  change (mkBB D 0 w) with (mkBB D (len (@nil byte)) w).
  erewrite (parses_run D w _ _ _ _ [] _ (parses_getInt D w Hfits 0x39000 ltac:(done))); [|exact HD'].
  change (negb (0x39000 =? 0x39000)) with false. cbn iota.
  parse_step (parses_getInt D w Hfits (table_size tag ids strings) Hts).
  parse_step (parses_getInt D w Hfits n ltac:(unfold urange; lia)).
  parse_step (parses_getInt D w Hfits 0x8C ltac:(done)).
  parse_step (parses_getInt D w Hfits (0x8C + 8 * n) ltac:(unfold urange; lia)).
  parse_step (parses_string D w Hfits tag Ht).
  unfold mbind at 1, Rd_bind at 1, Rd_modify, bb_setReadPos. cbn [bb_buf bb_wpos].
  change (u32 (0x8C + 8)) with 148. rewrite <- Hhd.
  assert (Hn : i32 n = n) by (apply swrap_small; [lia|unfold srange; lia]). rewrite !Hn.
  destruct (Z.ltb_spec n 0); [lia|]. replace (Z.to_nat n) with (length ids) by (unfold n; lia).
  erewrite (parses_run D w _ _ _ _ hd _ (read_entries_saved w)); [|exact HD].
  assert (Hlen : length (text_offsets strings 0 ids) = length ids) by apply text_offsets_length.
  assert (Hfst : es.*1 = ids) by (unfold es; apply fst_zip; lia).
  destruct (mapM_jump D w (fun e => read_text_at (0x8C + 8 * n) e.2)
    (fun e => stored (default [] (omap_find e.1 strings))) es (len (hd ++ mjoin (entry_bytes <$> es)))) as [r' E].
  { intros [x off] r Hin. apply list_elem_of_lookup in Hin as [i Hi]. unfold es in Hi.
    apply lookup_zip_with_Some in Hi as (x' & off' & [= <- <-] & Hi & Ho). cbn [fst snd]. by eapply read_text_saved. }
  rewrite (Rd_bind_ok _ _ _ _ _ E). unfold mret, Rd_ret. rewrite Hfst. exists (mkBB D r' w). do 4 f_equal.
  f_equal. rewrite <- Hfst at 2. rewrite <- Hfst at 1. rewrite <- list_fmap_compose.
  clear. induction es as [|e l IH]; [done|]. cbn [zip_with fmap list_fmap]. by rewrite IH.
Qed.
End saved.

(** ** Merging *)

Lemma filter_ext_in {A} (P Q : A -> Prop) `{!forall x, Decision (P x)} `{!forall x, Decision (Q x)} (l : list A) :
  (forall x, x ∈ l -> P x <-> Q x) -> filter P l = filter Q l.
Proof.
  induction l as [|x l IH]; intros HPQ'; [done|]. rewrite !filter_cons. rewrite IH by (intros; apply HPQ'; by right).
  destruct (HPQ' x) as [HPQ HQP]; [by left|]. repeat case_decide; naive_solver.
Qed.

Section merging.
Context (values shifts : list Z).

Lemma merge_text_ids data ids strings :
  NoDup data.*1 ->
  (foldl (merge_text values shifts) (ids, strings) data).1 = ids ++ filter (fun id => id ∉ ids) data.*1.
Proof.
  revert ids strings. induction data as [|[id s] data IH]; intros ids strings Hnd; cbn [foldl]; [by rewrite app_nil_r|].
  cbn [fmap list_fmap fst] in *. apply list.NoDup_cons in Hnd as [Hid Hnd].
  unfold merge_text at 2. cbn [fst snd]. rewrite IH by done. rewrite filter_cons.
  destruct (bool_decide_reflect (id ∈ ids)) as [Hin|Hin]; [by rewrite decide_False by auto|].
  rewrite decide_True by done. rewrite <- app_assoc. cbn [app]. do 2 f_equal.
  apply filter_ext_in. intros j Hj. rewrite elem_of_app, list_elem_of_singleton. split; [tauto|]. intros Hj' [?| ->]; done.
Qed.

Lemma merge_text_find data ids strings id :
  omap_wf data ->
  omap_find id (foldl (merge_text values shifts) (ids, strings) data).2 =
    match omap_find id data with
    | Some s => Some (encode_text values shifts s)
    | None => omap_find id strings
    end.
Proof.
  intros Hwf. pose proof (omap_wf_NoDup_keys _ Hwf) as Hnd. clear Hwf.
  revert ids strings. induction data as [|[i s] data IH]; intros ids strings; cbn [foldl]; [done|].
  unfold omap_keys in Hnd. cbn [fmap list_fmap fst] in Hnd. apply list.NoDup_cons in Hnd as [Hi Hnd].
  unfold merge_text at 2. cbn [fst snd]. rewrite IH by done. clear IH.
  assert (Hlast : forall x, omap_find i data = Some x -> False).
  { intros x Hx%omap_find_elem. apply Hi, list_elem_of_fmap. by exists (i, x). }
  destruct (decide (id = i)) as [->|Hne].
  - destruct (omap_find i data) eqn:E; [by destruct (Hlast _ eq_refl)|]. rewrite omap_find_insert_eq.
    cbn [omap_find]. by rewrite key_compare_refl.
  - rewrite omap_find_insert_ne by done. cbn [omap_find]. destruct (key_compare id i) eqn:E; try done.
    by apply key_compare_ne in E.
Qed.
End merging.

(** C35: The text database [ModifyChunk] returns reads back as the old one with the
    texts of the mods: the ids are those of both, ascending; a text of a mod is
    the encoding of its characters, any other is as it was. *)
Theorem ModifyChunk_merges chunk data values t r shifts :
  read_table (mkBB chunk 0 (len chunk)) = Ok (Some t, r) ->
  histogramShifts values = Ok shifts ->
  omap_wf data ->
  table_wf (tt_tag t) (merge_table values shifts data t).1 (merge_table values shifts data t).2 ->
  exists out t' b,
    Localization_ModifyChunk chunk data values = Ok out /\
    read_table (mkBB out 0 (len out)) = Ok (Some t', b) /\
    tt_tag t' = tt_tag t /\
    tt_ids t' ≡ₚ tt_ids t ++ filter (fun id => id ∉ tt_ids t) (omap_keys data) /\
    Sorted Z.le (tt_ids t') /\
    (forall id, omap_find id (tt_strings t') =
       match omap_find id data with
       | Some s => Some (stored (encode_text values shifts s))
       | None => if decide (id ∈ tt_ids t) then Some (stored (default [] (omap_find id (tt_strings t)))) else None
       end).
Proof.
  intros Hread Hshifts Hdata Hwf.
  pose proof (merge_text_ids values shifts data (tt_ids t) (tt_strings t) (omap_wf_NoDup_keys _ Hdata)) as Hids.
  pose proof (fun id => merge_text_find values shifts data (tt_ids t) (tt_strings t) id Hdata) as Hfind.
  unfold merge_table in Hwf. unfold Localization_ModifyChunk. rewrite Hread. cbn [fmap result_fmap fst mbind result_bind].
  rewrite Hshifts. cbn [mbind result_bind]. unfold merge_table.
  destruct (foldl _ _ data) as [ids strings]. cbn [fst snd] in *. subst ids.
  set (ids := merge_sort _ _) in *.
  assert (Hperm : ids ≡ₚ tt_ids t ++ filter (fun id => id ∉ tt_ids t) (omap_keys data)) by apply merge_sort_Permutation.
  destruct (read_table_saved (tt_tag t) ids strings Hwf) as [b Hb].
  exists (table_bytes (tt_tag t) ids strings). eexists _, b. split; [by apply write_table_bytes|]. split; [exact Hb|].
  cbn [tt_tag tt_ids tt_strings]. split; [done|]. split; [done|]. split; [apply Sorted_merge_sort; apply _|].
  intros id. rewrite set_all_find, Hfind. cbn [omap_find].
  pose proof (omap_find_keys id data Hdata) as Hkey.
  destruct (omap_find id data) as [s|] eqn:E.
  - rewrite decide_True; [done|]. rewrite Hperm, elem_of_app, list_elem_of_filter.
    destruct (decide (id ∈ tt_ids t)); [by left|right]. split; [done|]. apply Hkey. by eexists.
  - apply decide_ext. rewrite Hperm, elem_of_app, list_elem_of_filter, <- Hkey. split; [|tauto].
    intros [?|[_ [? [=]]]]; done.
Qed.

(** A database with one text, two texts of a mod and a histogram whose position
    0x90 selects the block from 0x100 on. *)
Definition ex_values : list Z := (fun i => if i =? 0x90 then 2 else i) <$> seqZ 0 0x220.
Definition ex_data : LocalizationMergeData := [(3, [0x41; 0x110; 0xE9]); (9, [0x42])].
Definition ex_table : TextTable := mkTable [Byte.x65; Byte.x6e] [9; 12] [(9, [0x61]); (12, [0x62; 0x63])].
Definition ex_chunk : list byte := table_bytes (tt_tag ex_table) (tt_ids ex_table) (tt_strings ex_table).

Lemma ModifyChunk_merges_witness :
  exists out t' b,
    Localization_ModifyChunk ex_chunk ex_data ex_values = Ok out /\
    read_table (mkBB out 0 (len out)) = Ok (Some t', b) /\
    tt_tag t' = tt_tag ex_table /\
    tt_ids t' ≡ₚ [9; 12; 3] /\
    Sorted Z.le (tt_ids t') /\
    (forall id, omap_find id (tt_strings t') =
       match omap_find id ex_data with
       | Some s => Some (stored (encode_text ex_values [0x90] s))
       | None => if decide (id ∈ [9; 12]) then Some (stored (default [] (omap_find id (tt_strings ex_table)))) else None
       end).
Proof.
  eapply (ModifyChunk_merges ex_chunk ex_data ex_values ex_table _ [0x90]).
  - vm_compute. reflexivity.
  - vm_compute. reflexivity.
  - repeat constructor.
  - assert (E : merge_table ex_values [0x90] ex_data ex_table =
      ([3; 9; 12], [(3, [0x41; 0x90; 0x90; 0xE9]); (9, [0x42]); (12, [0x62; 0x63])])) by (vm_compute; reflexivity).
    rewrite E. split; cbn [fst snd tt_tag ex_table].
    + split; [apply (bool_decide_unpack _); vm_compute; exact I|cbn; lia].
    + repeat constructor; unfold urange; lia.
    + repeat constructor; vm_compute; discriminate.
    + vm_compute. reflexivity.
Defined.

(** ** Characters of the histogram *)

(** A character past the first 256 positions is written as a shift byte and a
    byte of its block, which give its position back exactly when the block does
    not start after the position; [ModifyChunk] only checks the other side. *)
Theorem encode_char_pair values shifts b p i shift :
  0x80 <= b ->
  position b values = Some p -> 0xFF < p ->
  list_find (fun s => p - block_start values s < 0x80) shifts = Some (i, shift) ->
  exists c, encode_char values shifts b = [shift; c] /\ values !! Z.to_nat p = Some b /\ is_u8 c /\
    (0x80 <= c /\ block_start values shift + (c - 0x80) = p <-> block_start values shift <= p).
Proof.
  intros Hb Hp Hlt Hf. exists (u8 (p - block_start values shift + 0x80)).
  unfold encode_char. destruct (Z.ltb_spec b 0x80); [lia|]. rewrite Hp. destruct (Z.leb_spec p 0xFF); [lia|]. rewrite Hf.
  apply list_find_Some in Hf as (_ & Hshift & _). split; [done|]. split.
  { unfold position in Hp. apply fmap_Some in Hp as ([q v] & Hq & ->). apply list_find_Some in Hq as (Hv & -> & _).
    cbn [fst]. by rewrite Nat2Z.id. }
  assert (Hr : is_u8 (u8 (p - block_start values shift + 0x80))) by (apply uwrap_range; lia). split; [done|].
  unfold urange in Hr. split.
  - intros [Hc He]. lia.
  - intros Hle. rewrite uwrap_small by (unfold urange; lia). lia.
Qed.

Lemma encode_char_pair_witness :
  exists c, encode_char ex_values [0x90] 0x110 = [0x90; c] /\ ex_values !! 0x110%nat = Some 0x110 /\ is_u8 c /\
    (0x80 <= c /\ block_start ex_values 0x90 + (c - 0x80) = 0x110 <-> block_start ex_values 0x90 <= 0x110).
Proof.
  apply (encode_char_pair ex_values [0x90] 0x110 0x110 0 0x90); [lia|vm_compute; reflexivity|lia|vm_compute; reflexivity].
Defined.

Definition two_blocks : list Z := (fun i => if i =? 0x90 then 2 else if i =? 0xA0 then 3 else i) <$> seqZ 0 0x220.

(** The scan goes from the last shift byte down and stops at a block that
    starts after the position, although a later one holds it. *)
Theorem encode_char_wrong_block :
  exists shifts,
    histogramShifts two_blocks = Ok shifts /\
    encode_char two_blocks shifts 0x110 = [0xA0; 0x10] /\
    block_start two_blocks 0xA0 = 0x180 /\
    (0x90 ∈ shifts /\ block_start two_blocks 0x90 = 0x100).
Proof. exists [0xA0; 0x90]. vm_compute. repeat (split; [done|]). split; [by right; left|done]. Qed.
