(* ===== verification/Threads.v ===== *)
(** Work handed between threads: the pool of Source/Utilities/ThreadPool.cpp,
    the deferred calls of Source/Core/ThreadExecutor.cpp and the queue of
    messages to the server management (Source/RPC/API/ServerManagement.cpp).

    A critical section is one step. A condition variable is modelled by its
    sleepers and by the notifications that are still to come, since the code
    notifies after it has released the lock. *)

From S2P Require Import Prelude ByteBuffer.

(** Sums over lists under an update. *)
Lemma sum_list_with_insert {A} (f : A -> nat) i x y l :
  l !! i = Some x -> (sum_list_with f (<[i := y]> l) + f x = sum_list_with f l + f y)%nat.
Proof.
  revert i. induction l as [|z l IH]; intros [|i] Hi; try done.
  - injection Hi as ->. change (<[O := y]> (x :: l)) with (y :: l). cbn [sum_list_with]. lia.
  - change (<[S i := y]> (z :: l)) with (z :: <[i := y]> l). cbn [sum_list_with]. specialize (IH i Hi). lia.
Qed.

(** ** [ThreadPool] *)

Module Pool.
Section pool.
Context {T : Type}.

(** A worker evaluates the condition next, sleeps on it, runs a task or has
    left its loop. *)
Inductive Worker := Awake | Asleep | Running (task : T) | Returned.

(** [notify_ones] and [notify_alls] are the calls of [Enqueue] and of the
    destructor that have left their critical section but not notified yet;
    [started] and [finished] record the tasks the workers took and ran. *)
Record ThreadPool := mkPool {
  m_workers : list Worker; m_tasks : list T; m_stop : bool;
  notify_ones : nat; notify_alls : bool; started : list T; finished : list T }.

Definition pool_new (numThreads : nat) : ThreadPool := mkPool (replicate numThreads Awake) [] false 0 false [] [].

Definition set_worker (i : nat) (w : Worker) (st : ThreadPool) : ThreadPool :=
  mkPool (<[i := w]> (m_workers st)) (m_tasks st) (m_stop st) (notify_ones st) (notify_alls st) (started st) (finished st).

(** The lock, the condition and what follows it in [WorkerThread]. *)
Definition WorkerThread_check (i : nat) (st : ThreadPool) : ThreadPool :=
  match m_tasks st with
  | [] => if m_stop st then set_worker i Returned st else set_worker i Asleep st
  | task :: tasks =>
    mkPool (<[i := Running task]> (m_workers st)) tasks (m_stop st) (notify_ones st) (notify_alls st)
      (started st ++ [task]) (finished st)
  end.

Definition WorkerThread_done (i : nat) (task : T) (st : ThreadPool) : ThreadPool :=
  mkPool (<[i := Awake]> (m_workers st)) (m_tasks st) (m_stop st) (notify_ones st) (notify_alls st)
    (started st) (finished st ++ [task]).

Definition Enqueue (task : T) (st : ThreadPool) : result ThreadPool :=
  if m_stop st then Fault Thrown else
  Ok (mkPool (m_workers st) (m_tasks st ++ [task]) (m_stop st) (S (notify_ones st)) (notify_alls st)
        (started st) (finished st)).

(** [m_condition.notify_one()] wakes one sleeper if there is one. *)
Definition notify_one (i : option nat) (st : ThreadPool) : ThreadPool :=
  mkPool (match i with Some i => <[i := Awake]> (m_workers st) | None => m_workers st end)
    (m_tasks st) (m_stop st) (pred (notify_ones st)) (notify_alls st) (started st) (finished st).

Definition wake (w : Worker) : Worker := match w with Asleep => Awake | _ => w end.

Definition notify_all (st : ThreadPool) : ThreadPool :=
  mkPool (wake <$> m_workers st) (m_tasks st) (m_stop st) (notify_ones st) false (started st) (finished st).

(** The first half of the destructor; the joins wait for [Returned]. *)
Definition ThreadPool_stop (st : ThreadPool) : ThreadPool :=
  mkPool (m_workers st) (m_tasks st) true (notify_ones st) true (started st) (finished st).

(** What the workers and the pending notifications do on their own. *)
Inductive works : ThreadPool -> ThreadPool -> Prop :=
  | works_check i st : m_workers st !! i = Some Awake -> works st (WorkerThread_check i st)
  | works_done i task st : m_workers st !! i = Some (Running task) -> works st (WorkerThread_done i task st)
  | works_one i st : notify_ones st <> O -> m_workers st !! i = Some Asleep -> works st (notify_one (Some i) st)
  | works_none st : notify_ones st <> O -> (forall i, m_workers st !! i <> Some Asleep) -> works st (notify_one None st)
  | works_all st : notify_alls st = true -> works st (notify_all st).

(** What other threads do, and wake-ups without a cause. *)
Inductive other : list T -> ThreadPool -> ThreadPool -> Prop :=
  | other_enqueue task st st' : Enqueue task st = Ok st' -> other [task] st st'
  | other_stop st : m_stop st = false -> other [] st (ThreadPool_stop st)
  | other_spurious i st : m_workers st !! i = Some Asleep -> other [] st (set_worker i Awake st).

(** The pools of [numThreads] workers into which [tasks] were put, in order. *)
Inductive reachable (numThreads : nat) : list T -> ThreadPool -> Prop :=
  | reach_new : reachable numThreads [] (pool_new numThreads)
  | reach_works tasks st st' : reachable numThreads tasks st -> works st st' -> reachable numThreads tasks st'
  | reach_other tasks more st st' :
      reachable numThreads tasks st -> other more st st' -> reachable numThreads (tasks ++ more) st'.

Definition running_task (w : Worker) : option T := match w with Running t => Some t | _ => None end.
Definition running (st : ThreadPool) : list T := omap running_task (m_workers st).

(** Tasks are started in order, each once, and run to their end by the worker
    that took them. *)
Definition fifo (tasks : list T) (st : ThreadPool) : Prop :=
  tasks = started st ++ m_tasks st /\ started st ≡ₚ finished st ++ running st.

Definition busy (w : Worker) : Prop := w = Awake \/ exists t, w = Running t.

(** A waiting task has a worker that will look at it, or a notification. *)
Record awake_ok (n : nat) (st : ThreadPool) : Prop := {
  ao_length : length (m_workers st) = n;
  ao_task : m_tasks st <> [] -> notify_ones st <> O \/ exists i w, m_workers st !! i = Some w /\ busy w;
  ao_returned : Returned ∈ m_workers st -> m_stop st = true /\ m_tasks st = [];
  ao_stop : m_stop st = true -> Asleep ∈ m_workers st -> notify_alls st = true;
}.

Lemma awake_ok_new n : awake_ok n (pool_new n).
Proof.
  split; cbn [m_workers m_tasks m_stop pool_new]; [by rewrite length_replicate|done| |done].
  intros [? _]%elem_of_replicate. done.
Qed.

(** A worker that changes to an awake or running one keeps the promise. *)
Lemma busy_insert (l : list Worker) i (w w' : Worker) :
  l !! i = Some w -> busy w' -> exists j w, <[i := w']> l !! j = Some w /\ busy w.
Proof. intros Hi Hb. exists i, w'. split; [|done]. apply list_lookup_insert_eq. by eapply lookup_lt_Some. Qed.

(** A worker that goes to sleep or leaves is not among the others. *)
Lemma elem_of_insert_ne (l : list Worker) i (w w' : Worker) : w ∈ <[i := w']> l -> w <> w' -> w ∈ l.
Proof.
  intros [j Hj]%list_elem_of_lookup Hne. destruct (decide (j = i)) as [->|Hij].
  - destruct (decide (i < length l)%nat).
    + rewrite list_lookup_insert_eq in Hj by done. by injection Hj as ->.
    + rewrite list_insert_ge in Hj by lia. by eapply list_elem_of_lookup_2.
  - rewrite list_lookup_insert_ne in Hj by done. by eapply list_elem_of_lookup_2.
Qed.

(** The parts of the promise a step of one worker leaves alone. *)
Ltac awake_split :=
  split; cbn [m_workers m_tasks m_stop notify_ones notify_alls set_worker notify_one notify_all ThreadPool_stop WorkerThread_done];
  rewrite ?length_insert, ?length_fmap; try done; try (by intros; eauto using elem_of_insert_ne).
Ltac awake_busy := intros _; right; eapply busy_insert; [done|first [by left|right; by eexists]].

Lemma awake_ok_check n i st : awake_ok n st -> m_workers st !! i = Some Awake -> awake_ok n (WorkerThread_check i st).
Proof.
  intros [Hlen Htask Hret Hstop] Hi. unfold WorkerThread_check.
  destruct (m_tasks st) as [|t ts] eqn:Et; [destruct (m_stop st) eqn:Es|].
  - awake_split.
  - awake_split; [|congruence]. intros Hin. destruct Hret as [[=] _]. by eapply elem_of_insert_ne.
  - awake_split; [awake_busy|]. intros Hin. destruct Hret as [_ [=]]. by eapply elem_of_insert_ne.
Qed.

Lemma awake_ok_works n st st' : n <> O -> awake_ok n st -> works st st' -> awake_ok n st'.
Proof.
  intros Hn Hok Hw. destruct Hw as [i st Hi|i task st Hi|i st Hk Hi|st Hk Hno|st Hall]; [by apply awake_ok_check|..];
    destruct Hok as [Hlen Htask Hret Hstop].
  - awake_split. awake_busy.
  - awake_split. awake_busy.
  - awake_split. intros Ht. right. destruct (m_workers st) as [|w ws] eqn:Ew; [by destruct n|]. exists O, w. split; [done|].
    destruct w; [by left|by destruct (Hno O)|right; by eexists|]. destruct Hret as [_ Hr]; [by left|done].
  - awake_split.
    + intros Ht. destruct (Htask Ht) as [Hk|(i & w & Hi & Hb)]; [by left|]. right. exists i, (wake w).
      rewrite list_lookup_fmap, Hi. split; [done|]. destruct Hb as [->|[t ->]]; [by left|right; by eexists].
    + intros ([] & Hw & Hin)%list_elem_of_fmap; try done. by apply Hret.
    + intros _ ([] & Hw & Hin)%list_elem_of_fmap; done.
Qed.

Lemma awake_ok_other n more st st' : awake_ok n st -> other more st st' -> awake_ok n st'.
Proof.
  intros [Hlen Htask Hret Hstop] Ho. destruct Ho as [task st st' He|st Hs|i st Hi].
  - unfold Enqueue in He. destruct (m_stop st) eqn:Es; [done|]. injection He as <-.
    awake_split. intros Hin. destruct (Hret Hin) as [[=] _].
  - awake_split. intros Hin. destruct (Hret Hin) as [Hs' _]. congruence.
  - awake_split. awake_busy.
Qed.

Lemma running_insert (l : list Worker) i w w' :
  l !! i = Some w ->
  omap running_task (<[i := w']> l) ++ option_list (running_task w) ≡ₚ omap running_task l ++ option_list (running_task w').
Proof.
  intros Hi. rewrite insert_take_drop by (by eapply lookup_lt_Some).
  rewrite <- (take_drop_middle l i w Hi) at 3. rewrite !omap_app. cbn [omap list_omap].
  destruct (running_task w), (running_task w'); cbn [option_list]; rewrite ?app_nil_r; solve_Permutation.
Qed.

Lemma fifo_works tasks st st' : fifo tasks st -> works st st' -> fifo tasks st'.
Proof.
  intros [Ht Hp] Hw. unfold fifo, running in *.
  destruct Hw as [i st Hi|i task st Hi|i st Hk Hi|st Hk Hno|st Hall];
    try (pose proof (running_insert _ _ _ Awake Hi) as Hr; cbn [running_task option_list] in Hr; rewrite ?app_nil_r in Hr).
  - clear Hr. unfold WorkerThread_check. destruct (m_tasks st) as [|t ts] eqn:Et; [destruct (m_stop st)|];
      cbn [started finished m_tasks m_workers set_worker].
    + pose proof (running_insert _ _ _ Returned Hi) as Hr. cbn [running_task option_list] in Hr. rewrite !app_nil_r in Hr.
      by rewrite Et, Hr.
    + pose proof (running_insert _ _ _ Asleep Hi) as Hr. cbn [running_task option_list] in Hr. rewrite !app_nil_r in Hr.
      by rewrite Et, Hr.
    + pose proof (running_insert _ _ _ (Running t) Hi) as Hr. cbn [running_task option_list] in Hr. rewrite !app_nil_r in Hr.
      split; [by rewrite Ht, <- app_assoc|]. by rewrite Hr, Hp, <- app_assoc.
  - cbn [started finished m_tasks m_workers WorkerThread_done]. split; [done|]. rewrite Hp, <- Hr. solve_Permutation.
  - cbn [started finished m_tasks m_workers notify_one]. by rewrite Hr.
  - done.
  - cbn [started finished m_tasks m_workers notify_all]. split; [done|]. rewrite Hp. f_equiv. clear.
    induction (m_workers st) as [|w ws IH]; [done|]. destruct w; [exact IH|exact IH|by apply perm_skip|exact IH].
Qed.

Lemma fifo_other tasks more st st' : fifo tasks st -> other more st st' -> fifo (tasks ++ more) st'.
Proof.
  intros [Ht Hp] Ho. unfold fifo, running in *. destruct Ho as [task st st' He|st Hs|i st Hi].
  - unfold Enqueue in He. destruct (m_stop st); [done|]. injection He as <-. cbn [started finished m_tasks m_workers].
    split; [by rewrite Ht, app_assoc|done].
  - by rewrite app_nil_r.
  - rewrite app_nil_r. pose proof (running_insert _ _ _ Awake Hi) as Hr. cbn [running_task option_list] in Hr.
    rewrite !app_nil_r in Hr. cbn [started finished m_tasks m_workers set_worker]. by rewrite Hr.
Qed.

Lemma reachable_ok n tasks st : n <> O -> reachable n tasks st -> awake_ok n st /\ fifo tasks st.
Proof.
  intros Hn Hr. induction Hr as [|tasks st st' _ [Ha Hf] Hw|tasks more st st' _ [Ha Hf] Ho].
  - split; [apply awake_ok_new|]. split; [done|]. unfold running. cbn [m_workers pool_new started finished app].
    induction n as [|n IH]; [done|]. destruct n; [done|]. exact (IH ltac:(done)).
  - split; [by eapply awake_ok_works|by eapply fifo_works].
  - split; [by eapply awake_ok_other|by eapply fifo_other].
Qed.

(** What is left to do. *)
Definition weight (w : Worker) : nat := match w with Awake => 1 | Running _ => 2 | _ => 0 end.
Definition pending (st : ThreadPool) : nat :=
  sum_list_with weight (m_workers st) + 2 * length (m_tasks st) + 2 * notify_ones st +
  (if notify_alls st then S (length (m_workers st)) else 0).

Lemma wake_weight l : (sum_list_with weight (wake <$> l) <= sum_list_with weight l + length l)%nat.
Proof. induction l as [|w l IH]; [done|]. destruct w; cbn [fmap list_fmap sum_list_with wake weight length] in *; lia. Qed.

Lemma works_pending st st' : works st st' -> (pending st' < pending st)%nat.
Proof.
  intros Hw. unfold pending. destruct Hw as [i st Hi|i task st Hi|i st Hk Hi|st Hk Hno|st Hall];
    try pose proof (fun y => sum_list_with_insert weight i _ y _ Hi) as Hs.
  - unfold WorkerThread_check. destruct (m_tasks st) as [|t ts] eqn:Et; [destruct (m_stop st)|];
      cbn [m_workers m_tasks notify_ones notify_alls set_worker length]; rewrite ?Et, length_insert; cbn [length].
    + specialize (Hs Returned). cbn [weight] in Hs. lia.
    + specialize (Hs Asleep). cbn [weight] in Hs. lia.
    + specialize (Hs (Running t)). cbn [weight] in Hs. lia.
  - specialize (Hs Awake). cbn [weight] in Hs. cbn [m_workers m_tasks notify_ones notify_alls WorkerThread_done].
    rewrite length_insert. lia.
  - specialize (Hs Awake). cbn [weight] in Hs. cbn [m_workers m_tasks notify_ones notify_alls notify_one].
    rewrite length_insert. lia.
  - cbn [m_workers m_tasks notify_ones notify_alls notify_one]. lia.
  - cbn [m_workers m_tasks notify_ones notify_alls notify_all]. rewrite Hall. pose proof (wake_weight (m_workers st)). lia.
Qed.

Lemma asleep_or_not (l : list Worker) : (exists i, l !! i = Some Asleep) \/ (forall i, l !! i <> Some Asleep).
Proof.
  induction l as [|w l [[i Hi]|Hno]]; [by right|left; by exists (S i)|].
  destruct w; try (right; intros [|i]; [done|exact (Hno i)]). left. by exists O.
Qed.

(** At rest no worker is awake or runs, and no notification is pending. *)
Lemma at_rest st :
  (forall st', ~ works st st') ->
  notify_ones st = O /\ notify_alls st = false /\ (forall w, w ∈ m_workers st -> w = Asleep \/ w = Returned).
Proof.
  intros Hno. split; [|split].
  - destruct (decide (notify_ones st = O)) as [|Hk]; [done|]. destruct (asleep_or_not (m_workers st)) as [[i Hi]|Hn].
    + destruct (Hno _ (works_one i st Hk Hi)).
    + destruct (Hno _ (works_none st Hk Hn)).
  - destruct (notify_alls st) eqn:E; [|done]. destruct (Hno _ (works_all st E)).
  - intros w [i Hi]%list_elem_of_lookup. destruct w as [| |t|]; [|by left| |by right].
    + destruct (Hno _ (works_check i st Hi)).
    + destruct (Hno _ (works_done i t st Hi)).
Qed.

Lemma rest_running (l : list Worker) : (forall w, w ∈ l -> w = Asleep \/ w = Returned) -> omap running_task l = [].
Proof.
  induction l as [|w l IH]; intros Hw; [done|]. cbn [omap list_omap]. rewrite IH by (intros; apply Hw; by right).
  by destruct (Hw w) as [->| ->]; [by left|..].
Qed.

(** C39: A pool with workers never loses a wake-up: on their own the workers and the
    notifications come to rest after a bounded number of steps, and then every
    task was started in the order of [Enqueue] and run once to its end; after
    the destructor's [notify_all] every worker has left its loop, so that the
    joins return. *)
Theorem pool_drains numThreads tasks st :
  numThreads <> O -> reachable numThreads tasks st ->
  (forall k st', nsteps works k st st' -> (k <= pending st)%nat) /\
  (forall st', rtc works st st' -> (forall st'', ~ works st' st'') ->
     m_tasks st' = [] /\ started st' = tasks /\ finished st' ≡ₚ tasks /\
     (m_stop st' = true -> Forall (fun w => w = Returned) (m_workers st'))).
Proof.
  intros Hn Hr. split.
  - intros k st' Hk. induction Hk as [|k x y z Hxy _ IH]; [lia|]. pose proof (works_pending _ _ Hxy).
    specialize (IH (reach_works _ _ _ _ Hr Hxy)). lia.
  - intros st' Hsteps Hrest. assert (Hr' : reachable numThreads tasks st').
    { clear Hrest. induction Hsteps as [|x y z Hxy _ IH]; [done|]. apply IH. by eapply reach_works. }
    destruct (reachable_ok _ _ _ Hn Hr') as [[Hlen Htask Hret Hstop] [Ht Hp]]. destruct (at_rest _ Hrest) as (Hk & Ha & Hw).
    assert (He : m_tasks st' = []).
    { destruct (m_tasks st') as [|t ts] eqn:E; [done|]. destruct Htask as [|(i & w & Hi & Hb)]; [done..|].
      destruct (Hw w) as [->| ->]; [by eapply list_elem_of_lookup_2|..]; by destruct Hb as [|[]]. }
    rewrite He, app_nil_r in Ht. unfold running in Hp. rewrite rest_running, app_nil_r in Hp by done.
    split; [done|]. split; [done|]. split; [by rewrite <- Hp, Ht|].
    intros Hs. apply list.Forall_forall. intros w Hin. destruct (Hw w Hin) as [->|]; [|done]. specialize (Hstop Hs Hin). congruence.
Qed.
End pool.
Arguments Worker : clear implicits.
Arguments ThreadPool : clear implicits.

(** One worker, two tasks, the second put in while the worker runs the first,
    and the destructor. *)
Lemma pool_drains_witness :
  exists st, reachable 1 [7; 8] st /\ m_stop st = true /\ m_tasks st = [8] /\ m_workers st = [Running 7] /\
    (forall k st', nsteps works k st st' -> (k <= pending st)%nat) /\
    (forall st', rtc works st st' -> (forall st'', ~ works st' st'') ->
       m_tasks st' = [] /\ started st' = [7; 8] /\ finished st' ≡ₚ [7; 8] /\
       (m_stop st' = true -> Forall (fun w => w = Returned) (m_workers st'))).
Proof.
  set (st := mkPool [Running 7] [8] true 2 true [7] []).
  assert (Hr : reachable 1 [7; 8] st).
  { apply (reach_other 1 [7; 8] [] (mkPool [Running 7] [8] false 2 false [7] [])); [|by apply other_stop].
    apply (reach_other 1 [7] [8] (mkPool [Running 7] [] false 1 false [7] [])); [|by apply other_enqueue].
    apply (reach_works 1 [7] (mkPool [Awake] [7] false 1 false [] [])); [|by apply (works_check 0 (mkPool [Awake] [7] false 1 false [] []))].
    apply (reach_other 1 [] [7] (pool_new 1)); [apply reach_new|by apply other_enqueue]. }
  exists st. split; [exact Hr|]. repeat (split; [done|]). by apply (pool_drains 1 [7; 8] st).
Defined.
End Pool.

(** ** [ThreadExecutor] *)

Module Executor.
Inductive GameThread := GameThread_Client | GameThread_Server | GameThread_Count.

Definition thread_index (thread : GameThread) : nat :=
  match thread with GameThread_Client => 0 | GameThread_Server => 1 | GameThread_Count => 2 end.

Section executor.
Context {F : Type}.

Record DelayedFunc := mkDelayed { targetTicks : Z; func : F }.
Record ThreadData := mkThread { delayedFuncs : list DelayedFunc; tickCount : Z }.

(** [m_threadData], an array of [GameThread_Count] values. *)
Abbreviation ThreadExecutor := (list ThreadData).
Definition executor_new : ThreadExecutor := replicate 2 (mkThread [] 0).

Definition QueueDelayTicks (thread : GameThread) (delayTicks : Z) (f : F) (st : ThreadExecutor) : result ThreadExecutor :=
  data ← of_option Undefined (st !! thread_index thread);
  Ok (<[thread_index thread := mkThread (delayedFuncs data ++ [mkDelayed (u64 (tickCount data + delayTicks)) f]) (tickCount data)]> st).

(** What a function queues when it is called. *)
Context (body : F -> list (GameThread * Z * F)).

(** The caller holds the lock of [thread]; to lock it again is undefined. *)
Definition call (thread : GameThread) (f : F) (st : ThreadExecutor) : result ThreadExecutor :=
  foldM (fun st q =>
    if decide (thread_index q.1.1 = thread_index thread) then Fault Undefined else QueueDelayTicks q.1.1 q.1.2 q.2 st) st (body f).

(** The predicate of [remove_if]: the functions kept, those called and the state. *)
Definition process_one (thread : GameThread) (tick : Z) (acc : list DelayedFunc * list F * ThreadExecutor) (d : DelayedFunc)
    : result (list DelayedFunc * list F * ThreadExecutor) :=
  let '(kept, called, st) := acc in
  if targetTicks d <=? tick then st ← call thread (func d) st; Ok (kept, called ++ [func d], st)
  else Ok (kept ++ [d], called, st).

(** The functions called, in order, with the new state. *)
Definition Process (thread : GameThread) (st : ThreadExecutor) : result (list F * ThreadExecutor) :=
  data ← of_option Undefined (st !! thread_index thread);
  '(kept, called, st) ← foldM (process_one thread (tickCount data)) ([], [], st) (delayedFuncs data);
  Ok (called, <[thread_index thread := mkThread kept (u64 (tickCount data + 1))]> st).

(** *** Histories *)

Inductive event := Queued (delayTicks : Z) (f : F) | Processed.

Definition step (thread : GameThread) (st : list (list F) * ThreadExecutor) (e : event) : result (list (list F) * ThreadExecutor) :=
  match e with
  | Queued delayTicks f => t ← QueueDelayTicks thread delayTicks f st.2; Ok (st.1, t)
  | Processed => '(called, t) ← Process thread st.2; Ok (st.1 ++ [called], t)
  end.

Definition run (thread : GameThread) (h : list event) : result (list (list F) * ThreadExecutor) :=
  foldM (step thread) ([], executor_new) h.

(** How often the history has called [Process]. *)
Fixpoint ticks (h : list event) : Z :=
  match h with
  | [] => 0
  | Queued _ _ :: h => ticks h
  | Processed :: h => ticks h + 1
  end.

(** The functions queued, each with the number of the [Process] that owes it. *)
Fixpoint owed (p : Z) (h : list event) : list DelayedFunc :=
  match h with
  | [] => []
  | Queued delayTicks f :: h => mkDelayed (p + delayTicks) f :: owed p h
  | Processed :: h => owed (p + 1) h
  end.

Lemma ticks_app h k : ticks (h ++ k) = ticks h + ticks k.
Proof. induction h as [|[] h IH]; cbn [app ticks]; lia. Qed.

Lemma ticks_nonneg h : 0 <= ticks h.
Proof. induction h as [|[] h IH]; cbn [ticks]; lia. Qed.

Lemma owed_app p h k : owed p (h ++ k) = owed p h ++ owed (p + ticks h) k.
Proof.
  revert p. induction h as [|[] h IH]; intros p; cbn [app ticks owed]; rewrite ?IH.
  - by rewrite Z.add_0_r.
  - done.
  - do 2 f_equal. lia.
Qed.

Section calendar.
Context (thread : GameThread) (Hthread : thread <> GameThread_Count).
(** What runs on the thread only queues calls for the other. *)
Context (Hbody : forall f, Forall (fun q => thread_index q.1.1 <> thread_index thread /\ q.1.1 <> GameThread_Count) (body f)).

Definition same_thread (st st' : ThreadExecutor) : Prop :=
  length st' = length st /\ st' !! thread_index thread = st !! thread_index thread.

Lemma QueueDelayTicks_ok t d f st :
  t <> GameThread_Count -> length st = 2%nat ->
  exists data, st !! thread_index t = Some data /\
    QueueDelayTicks t d f st =
      Ok (<[thread_index t := mkThread (delayedFuncs data ++ [mkDelayed (u64 (tickCount data + d)) f]) (tickCount data)]> st).
Proof.
  intros Ht Hl. destruct (lookup_lt_is_Some_2 st (thread_index t)) as [data Hd]; [destruct t; cbn; lia || done|].
  exists data. split; [done|]. unfold QueueDelayTicks.  by rewrite Hd.
Qed.

Lemma call_ok f st : length st = 2%nat -> exists st', call thread f st = Ok st' /\ same_thread st st'.
Proof.
  unfold call. specialize (Hbody f). revert st. induction Hbody as [|q qs [Hq Hc] _ IH]; intros st Hl; [by exists st|].
  cbn [foldM]. rewrite decide_False by done. destruct (QueueDelayTicks_ok q.1.1 q.1.2 q.2 st Hc Hl) as (data & _ & ->).
  set (st1 := <[_ := _]> st). destruct (IH st1) as (st' & E & Hl' & Ht'); [by unfold st1; rewrite length_insert|].
  exists st'. split; [exact E|]. unfold st1 in Hl', Ht'. rewrite length_insert in Hl'.
  rewrite list_lookup_insert_ne in Ht' by done. by split.
Qed.

Lemma process_all tick ds kept called st :
  length st = 2%nat ->
  exists st', foldM (process_one thread tick) (kept, called, st) ds =
      Ok (kept ++ filter (fun d => tick < targetTicks d) ds, called ++ (func <$> filter (fun d => targetTicks d <= tick) ds), st')
    /\ same_thread st st'.
Proof.
  revert kept called st. induction ds as [|d ds IH]; intros kept called st Hl.
  { exists st. cbn [foldM]. by rewrite !filter_nil, !app_nil_r. }
  cbn [foldM process_one]. rewrite !filter_cons. destruct (Z.leb_spec (targetTicks d) tick).
  - rewrite decide_False, decide_True by lia. destruct (call_ok (func d) st Hl) as (st1 & -> & Hl1 & Ht1). cbn [mbind result_bind].
    destruct (IH kept (called ++ [func d]) st1) as (st' & -> & Hl' & Ht'); [lia|]. exists st'.
    split; [by rewrite <- app_assoc|]. split; [lia|congruence].
  - rewrite decide_True, decide_False by lia. destruct (IH (kept ++ [d]) called st Hl) as (st' & -> & Hs). exists st'.
    by rewrite <- app_assoc.
Qed.

(** The calls waiting after a history, and those made in each tick. *)
Definition waiting (h : list event) : list DelayedFunc := filter (fun d => ticks h <= targetTicks d) (owed 0 h).
Definition due (h : list event) (k : Z) : list F := func <$> filter (fun d => targetTicks d = k) (owed 0 h).

(** A history within the range of the counter. *)
Definition in_range (h : list event) : Prop :=
  ticks h + 2 ^ 32 < 2 ^ 64 /\ Forall (fun e => match e with Queued d _ => is_u32 d | Processed => True end) h.

Lemma calendar h :
  in_range h ->
  exists st, run thread h = Ok (due h <$> seqZ 0 (ticks h), st) /\ length st = 2%nat /\
    st !! thread_index thread = Some (mkThread (waiting h) (ticks h)).
Proof.
  induction h as [|e h IH] using rev_ind.
  { intros _. exists executor_new. split; [done|]. split; [done|]. by destruct thread. }
  intros [Hr Hd]. pose proof (ticks_nonneg h) as Hn. rewrite ticks_app in Hr.
  apply list.Forall_app in Hd as [Hd He]. rewrite list.Forall_singleton in He.
  destruct IH as (st & E & Hl & Hst); [split; [destruct e; cbn [ticks] in Hr; lia|done]|].
  unfold run in *. rewrite foldM_app, E. cbn [mbind result_bind foldM]. destruct e as [d f|]; cbn [step fst snd].
  - change (is_u32 d) in He. destruct (QueueDelayTicks_ok thread d f st Hthread Hl) as (data & Hdata & ->). rewrite Hst in Hdata. injection Hdata as <-.
    cbn [mbind result_bind delayedFuncs tickCount]. rewrite uwrap_small by (unfold urange in *; cbn [ticks] in Hr; lia).
    match goal with |- exists _, Ok (_, ?s) = _ /\ _ => exists s end. split; [|split; [by rewrite length_insert|]].
    + f_equal. f_equal. rewrite ticks_app. cbn [ticks]. rewrite Z.add_0_r. apply list_fmap_ext. intros i k Hk.
      apply lookup_seqZ in Hk as [-> Hk]. unfold due. rewrite owed_app, list.filter_app. cbn [owed]. rewrite filter_cons.
      rewrite decide_False by (cbn [targetTicks]; unfold urange in He; lia). by rewrite filter_nil, app_nil_r.
    + rewrite list_lookup_insert_eq by (rewrite Hl; destruct thread; cbn; (lia || done)). do 2 f_equal.
      * unfold waiting. rewrite ticks_app, owed_app, list.filter_app. cbn [ticks owed]. rewrite !Z.add_0_r, Z.add_0_l. f_equal.
        rewrite filter_cons, decide_True by (cbn [targetTicks]; unfold urange in He; lia). done.
      * rewrite ticks_app. cbn [ticks]. lia.
  - unfold Process. rewrite Hst. cbn [of_option mbind result_bind delayedFuncs tickCount].
    destruct (process_all (ticks h) (waiting h) [] [] st Hl) as (st1 & -> & Hl1 & Ht1). cbn [mbind result_bind app].
    cbn [ticks] in Hr. rewrite uwrap_small by (unfold urange; lia).
    match goal with |- exists _, Ok (_, ?s) = _ /\ _ => exists s end. split; [|split; [rewrite length_insert; lia|]].
    + do 2 f_equal. rewrite ticks_app. cbn [ticks]. rewrite Z.add_0_l, seqZ_app, fmap_app by lia. f_equal.
      * apply list_fmap_ext. intros i k _. unfold due. by rewrite owed_app, app_nil_r.
      * unfold due, waiting. rewrite owed_app, app_nil_r, Z.add_0_l.
        change (seqZ (ticks h) 1) with [ticks h]. cbn [fmap list_fmap]. do 2 f_equal. rewrite list_filter_filter. apply list_filter_iff. intros d. lia.
    + rewrite list_lookup_insert_eq by (rewrite Hl1, Hl; destruct thread; cbn; (lia || done)). do 2 f_equal; [|rewrite ticks_app; cbn [ticks]; lia].
      unfold waiting. rewrite owed_app, ticks_app, app_nil_r. rewrite list_filter_filter. apply list_filter_iff. intros d. cbn [ticks]. lia.
Qed.
End calendar.
End executor.
Arguments DelayedFunc : clear implicits.
Arguments ThreadData : clear implicits.
Arguments event : clear implicits.

(** A function queued with a delay of [d] ticks after [p] calls of [Process] is
    called by the call of [Process] number [p + d], once and in the order of
    queueing, and waits until then; no call fails, as long as what runs on the
    thread does not queue for it again. *)
Theorem calls_run_when_due {F} (body : F -> list (GameThread * Z * F)) thread h :
  thread <> GameThread_Count ->
  (forall f, Forall (fun q => thread_index q.1.1 <> thread_index thread /\ q.1.1 <> GameThread_Count) (body f)) ->
  in_range h ->
  exists calls st, run body thread h = Ok (calls, st) /\
    len calls = ticks h /\
    (forall k, 0 <= k < ticks h -> calls !! Z.to_nat k = Some (due h k)) /\
    st !! thread_index thread = Some (mkThread (waiting h) (ticks h)).
Proof.
  intros Ht Hb Hr. destruct (calendar body thread Ht Hb h Hr) as (st & E & _ & Hst). eexists _, st. split; [exact E|].
  pose proof (ticks_nonneg h). split; [rewrite length_fmap, length_seqZ; lia|]. split; [|done].
  intros k Hk. rewrite list_lookup_fmap, lookup_seqZ_lt by lia. cbn [fmap option_fmap option_map]. do 2 f_equal. lia.
Qed.

(** Function 1 queues function 2 for the client. *)
Definition sample_body (f : Z) : list (GameThread * Z * Z) := if f =? 1 then [(GameThread_Client, 0, 2)] else [].

Lemma calls_run_when_due_witness :
  exists calls st,
    run sample_body GameThread_Server [Queued 2 1; Processed; Queued 0 5; Processed; Processed] = Ok (calls, st) /\
    len calls = 3 /\
    (forall k, 0 <= k < 3 ->
       calls !! Z.to_nat k = Some (due [Queued 2 1; Processed; Queued 0 5; Processed; Processed] k)) /\
    st !! 1%nat = Some (mkThread (waiting [Queued 2 1; Processed; Queued 0 5; Processed; Processed]) 3).
Proof.
  apply (calls_run_when_due sample_body GameThread_Server [Queued 2 1; Processed; Queued 0 5; Processed; Processed]).
  - done.
  - intros f. unfold sample_body. destruct (f =? 1); repeat constructor; done.
  - split; [done|]. repeat constructor; done.
Defined.
End Executor.

(** ** The write queue of [ServerManagementAPI] *)

Module WriteQueue.
Section queue.
Context {E : Type} (SerializeToString : E -> option (list byte)).

(** The thread of [ProcessWriteQueue]: about to take [m_writeMutex] and evaluate
    the condition; found it false and about to sleep; asleep; past the wait. *)
Inductive Writer := Evaluating | FallingAsleep | Asleep | Writing.

(** [pushed] counts the calls of [Send] between the push and [notify_one];
    [sent] are the bytes handed to the socket. *)
Record ServerManagementAPI := mkApi {
  m_writeQueue : list E; m_connectionEstablished : bool; writer : Writer; pushed : nat; sent : list (list byte) }.

Definition api_new : ServerManagementAPI := mkApi [] false Evaluating 0 [].

Definition Send_push (e : E) (st : ServerManagementAPI) : ServerManagementAPI :=
  mkApi (m_writeQueue st ++ [e]) (m_connectionEstablished st) (writer st) (S (pushed st)) (sent st).

Definition Send_notify (st : ServerManagementAPI) : ServerManagementAPI :=
  mkApi (m_writeQueue st) (m_connectionEstablished st) (match writer st with Asleep => Evaluating | w => w end)
    (pred (pushed st)) (sent st).

(** [SendKeepAlive] and [SendConsoleMessage] send nothing without a connection
    or when no server runs. *)
Definition SendEvent (IsRunning : bool) (e : E) (st : ServerManagementAPI) : ServerManagementAPI :=
  if negb (m_connectionEstablished st) || negb IsRunning then st else Send_push e st.

(** The cases [Open] and [Close] of [Receive]. *)
Definition Receive_state (established : bool) (st : ServerManagementAPI) : ServerManagementAPI :=
  mkApi (m_writeQueue st) established (writer st) (pushed st) (sent st).

Definition set_writer (w : Writer) (st : ServerManagementAPI) : ServerManagementAPI :=
  mkApi (m_writeQueue st) (m_connectionEstablished st) w (pushed st) (sent st).

(** One step of [ProcessWriteQueue]. [m_writeMutex] is not held by [Send], so
    its push and its notification can fall between the two halves of the wait. *)
Definition ProcessWriteQueue (st : ServerManagementAPI) : result ServerManagementAPI :=
  match writer st with
  | Evaluating =>
    Ok (set_writer (if negb (bool_decide (length (m_writeQueue st) = 0%nat)) && m_connectionEstablished st
                    then Writing else FallingAsleep) st)
  | FallingAsleep => Ok (set_writer Asleep st)
  | Asleep => Ok st
  | Writing =>
    match m_writeQueue st with
    | [] => Fault Undefined
    | e :: q =>
      (* a message that does not serialize is only logged *)
      Ok (mkApi q (m_connectionEstablished st) Evaluating (pushed st) (sent st ++ option_list (SerializeToString e)))
    end
  end.

(** The condition variable may also wake the writer for no reason. *)
Definition Wake (st : ServerManagementAPI) : ServerManagementAPI :=
  set_writer (match writer st with Asleep => Evaluating | w => w end) st.

Inductive event := EvSend (IsRunning : bool) (e : E) | EvNotify | EvReceive (established : bool) | EvWake | EvWrite.

Inductive step : event -> ServerManagementAPI -> ServerManagementAPI -> Prop :=
  | step_send IsRunning e st : step (EvSend IsRunning e) st (SendEvent IsRunning e st)
  | step_notify st : pushed st <> O -> step EvNotify st (Send_notify st)
  | step_receive established st : step (EvReceive established) st (Receive_state established st)
  | step_wake st : step EvWake st (Wake st)
  | step_write st st' : ProcessWriteQueue st = Ok st' -> step EvWrite st st'.

Inductive runs : ServerManagementAPI -> list event -> ServerManagementAPI -> Prop :=
  | runs_nil st : runs st [] st
  | runs_cons ev h st st1 st' : step ev st st1 -> runs st1 h st' -> runs st (ev :: h) st'.

(** The messages of a history that are put into the queue. *)
Fixpoint accepted (established : bool) (h : list event) : list E :=
  match h with
  | [] => []
  | EvSend IsRunning e :: h => (if established && IsRunning then [e] else []) ++ accepted established h
  | EvReceive established :: h => accepted established h
  | _ :: h => accepted established h
  end.

(** What the socket gets for some messages. *)
Definition bytes_of (l : list E) : list (list byte) := l ≫= fun e => option_list (SerializeToString e).

Record queue_ok (st : ServerManagementAPI) : Prop := {
  qo_writing : writer st = Writing -> m_writeQueue st <> [];
}.

Lemma bytes_of_app l k : bytes_of (l ++ k) = bytes_of l ++ bytes_of k.
Proof. apply bind_app. Qed.

Lemma write_total st : queue_ok st -> exists st', ProcessWriteQueue st = Ok st'.
Proof.
  intros [H]. unfold ProcessWriteQueue. destruct (writer st); [by eexists..|].
  destruct (m_writeQueue st); [by destruct H|by eexists].
Qed.

(** One step: the queue stays well formed, and what was sent and what waits are
    what was accepted. *)
Lemma step_queue ev st st' :
  step ev st st' -> queue_ok st ->
  queue_ok st' /\
  sent st' ++ bytes_of (m_writeQueue st') = sent st ++ bytes_of (m_writeQueue st) ++ bytes_of (accepted (m_connectionEstablished st) [ev]) /\
  forall h, accepted (m_connectionEstablished st) (ev :: h)
    = accepted (m_connectionEstablished st) [ev] ++ accepted (m_connectionEstablished st') h.
Proof.
  intros Hs [Hq]. destruct Hs as [running e st|st Hk|b st|st|st st' Hw]; cbn [accepted app];
    try change (bytes_of []) with (@nil (list byte)); rewrite ?app_nil_r.
  - unfold SendEvent. destruct (m_connectionEstablished st) eqn:Ec, running; cbn; rewrite ?app_nil_r, ?Ec; (split; [split; cbn|]); auto.
    + intros _ Hn. by destruct (m_writeQueue st).
    + rewrite bytes_of_app. cbn. by rewrite app_nil_r.
  - split; [split; cbn; by destruct (writer st)|done].
  - split; [by split|done].
  - split; [split; cbn; by destruct (writer st)|done].
  - unfold ProcessWriteQueue in Hw. destruct (writer st) eqn:Ew.
    + injection Hw as <-. split; [split; cbn|done]. case_bool_decide as Hl; [done|]. intros _ Heq. by rewrite Heq in Hl.
    + injection Hw as <-. split; [by split|done].
    + injection Hw as <-. split; [by split; rewrite Ew|done].
    + destruct (m_writeQueue st) as [|e q]; [done|]. injection Hw as <-. cbn. split; [by split|]. by rewrite <- app_assoc.
Qed.

Lemma runs_queue st h st' :
  runs st h st' -> queue_ok st ->
  queue_ok st' /\ sent st' ++ bytes_of (m_writeQueue st') = sent st ++ bytes_of (m_writeQueue st) ++ bytes_of (accepted (m_connectionEstablished st) h).
Proof.
  induction 1 as [|ev h st st1 st' Hs _ IH]; intros Hq.
  { change (bytes_of (accepted _ [])) with (@nil (list byte)). rewrite app_nil_r. by split. }
  destruct (step_queue ev st st1 Hs Hq) as (H1 & H2 & H3). destruct (IH H1) as [H4 H5]. split; [done|].
  by rewrite H3, bytes_of_app, H5, (app_assoc (sent st1)), H2, <- !app_assoc.
Qed.

(** *** The notification that is lost *)

(** The writer sleeps while the queue of a connected server holds messages, and no
    notification is under way. *)
Definition lost (q : list E) (st : ServerManagementAPI) : Prop :=
  writer st = Asleep /\ m_writeQueue st = q /\ pushed st = O.

Definition stirring (ev : event) : bool := match ev with EvSend _ _ | EvWake => true | _ => false end.

Lemma lost_stays q st h st' : runs st h st' -> forallb (fun ev => negb (stirring ev)) h = true -> lost q st -> lost q st' /\ sent st' = sent st.
Proof.
  induction 1 as [|ev h st st1 st' Hs _ IH]; [done|]. cbn [forallb]. intros [He Hh]%andb_true_iff (Hw & Hq & Hp).
  assert (H1 : lost q st1 /\ sent st1 = sent st).
  { destruct Hs as [b e st|st Hk|b st|st|st st1 Hw1]; try done. unfold ProcessWriteQueue in Hw1. rewrite Hw in Hw1. by injection Hw1 as <-. }
  destruct H1 as [Hl <-]. by apply IH.
Qed.

(** Two steps of a writer that is awake send the first message of a connected server. *)
Lemma awake_sends e q n s :
  runs (mkApi (e :: q) true Evaluating n s) [EvWrite; EvWrite] (mkApi q true Evaluating n (s ++ option_list (SerializeToString e))).
Proof. do 2 (eapply runs_cons; [by apply step_write|]). apply runs_nil. Qed.

(** C28: After any history of sends, notifications, notices of the connection, steps
    of the writer and wake-ups for no reason: the writer never takes from an empty
    queue, and what was sent and what waits in the queue are, in their order, the
    messages put into the queue while a server ran on an open connection, none
    twice and none lost.  But one may be left waiting: when the queue of a connected
    server is empty and the writer about to test its condition, a message that is
    pushed and notified after the test and before the sleep stays in the queue in
    every history without another send or a wake-up for no reason, whatever else
    happens; with either the writer sends it. *)
Theorem write_queue_lost_wakeup h st :
  runs api_new h st ->
  (exists st', ProcessWriteQueue st = Ok st') /\
  sent st ++ bytes_of (m_writeQueue st) = bytes_of (accepted false h) /\
  forall e, writer st = Evaluating -> m_writeQueue st = [] -> m_connectionEstablished st = true -> pushed st = O ->
    exists st1, runs st [EvWrite; EvSend true e; EvNotify; EvWrite] st1 /\
      (forall h' st', runs st1 h' st' -> forallb (fun ev => negb (stirring ev)) h' = true ->
         m_writeQueue st' = [e] /\ sent st' = sent st) /\
      (forall e', exists st', runs st1 [EvSend true e'; EvNotify; EvWrite; EvWrite] st' /\
         sent st' = sent st ++ bytes_of [e] /\ m_writeQueue st' = [e']) /\
      exists st', runs st1 [EvWake; EvWrite; EvWrite] st' /\ sent st' = sent st ++ bytes_of [e] /\ m_writeQueue st' = [].
Proof.
  intros Hr. destruct (runs_queue api_new h st Hr) as [Hq Hs]; [by split|].
  split; [by apply write_total|]. split; [done|]. clear Hr Hq Hs.
  intros e Hw Hq Hc Hp. destruct st as [q c w n s]. cbn in *. subst.
  exists (mkApi [e] true Asleep 0 s). split.
  { eapply runs_cons; [by apply step_write|]. eapply runs_cons; [apply step_send|]. eapply runs_cons; [by apply step_notify|].
    eapply runs_cons; [by apply step_write|]. apply runs_nil. }
  split.
  { intros h' st' Hr Hst. destruct (lost_stays [e] _ _ _ Hr Hst) as [(_ & H & _) Hs]; done. }
  split.
  - intros e'. exists (mkApi [e'] true Evaluating 0 (s ++ option_list (SerializeToString e))).
    split; [|split; [by cbn; rewrite app_nil_r|done]].
    eapply runs_cons; [apply step_send|]. eapply runs_cons; [by apply step_notify|]. apply (awake_sends e [e']).
  - exists (mkApi [] true Evaluating 0 (s ++ option_list (SerializeToString e))).
    split; [|split; [by cbn; rewrite app_nil_r|done]]. eapply runs_cons; [apply step_wake|]. apply (awake_sends e []).
Qed.
End queue.

(** A message of one byte, and a writer that has sent it when the second is lost. *)
Lemma write_queue_lost_wakeup_witness :
  let ser := fun b : byte => Some [b] in
  exists st st1, runs ser (api_new (E := byte)) [EvReceive true; EvSend true Byte.x61; EvNotify; EvWrite; EvWrite] st /\
    sent st = [[Byte.x61]] /\ runs ser st [EvWrite; EvSend true Byte.x62; EvNotify; EvWrite] st1 /\
    forall h' st', runs ser st1 h' st' -> forallb (fun ev => negb (stirring ev)) h' = true -> m_writeQueue st' = [Byte.x62].
Proof.
  intros ser.
  assert (Hr : runs ser (api_new (E := byte)) [EvReceive true; EvSend true Byte.x61; EvNotify; EvWrite; EvWrite] (mkApi [] true Evaluating 0 [[Byte.x61]])).
  { eapply runs_cons; [apply step_receive|]. eapply runs_cons; [apply step_send|]. eapply runs_cons; [by apply step_notify|].
    apply (awake_sends ser Byte.x61 []). }
  destruct (write_queue_lost_wakeup ser _ _ Hr) as (_ & Hs & H).
  destruct (H Byte.x62 eq_refl eq_refl eq_refl eq_refl) as (st1 & H1 & H2 & _).
  exists (mkApi [] true Evaluating 0 [[Byte.x61]]), st1. split; [exact Hr|]. split; [exact Hs|]. split; [exact H1|].
  intros h' st' Hr' Hh. exact (proj1 (H2 h' st' Hr' Hh)).
Defined.
End WriteQueue.
