(* ===== verification/Network.v ===== *)
(** The game's socket (Source/Network/UDPSocket.cpp): packets of clients that
    come through a proxy carry the client's port in two bytes, and the peer
    address 0.1.1.<i> stands for the proxy number i.

    Winsock ([inet_ntoa], [inet_addr], [sendto], [recvfrom]) and the web sockets
    of the proxies are arguments; what the socket hands to them is the result. *)

From Stdlib Require Import String.
From stdpp Require Import pretty.
From S2P Require Import Prelude OrdMap ByteBuffer StringUtils.

(** ** Addresses *)

(** [sockaddr_in], 16 bytes; [sin_port] is the number its two bytes have in
    the machine's order. *)
Record sockaddr_in := mkAddr { sin_family : Z; sin_port : Z; sin_addr : list byte; sin_zero : list byte }.

Definition addr_bytes (a : sockaddr_in) : list byte :=
  le_split 2 (sin_family a) ++ le_split 2 (sin_port a) ++ sin_addr a ++ sin_zero a.
Definition addr_of_bytes (l : list byte) : sockaddr_in :=
  mkAddr (le_combine (slice 0 2 l)) (le_combine (slice 2 2 l)) (slice 4 4 l) (slice 8 8 l).

Record SocketAddr := mkSocketAddr { address : list byte; addr_length : Z }.

Definition SocketAddr_Clear : SocketAddr := mkSocketAddr (replicate 64 Byte.x00) 0.
(** [memcpy] over the first bytes of a buffer. *)
Definition overwrite (data buf : list byte) : list byte := data ++ drop (length data) buf.
Definition SetData (data : list byte) (a : SocketAddr) : SocketAddr :=
  mkSocketAddr (overwrite data (address a)) (u8 (len data)).
Definition SocketAddr_copy (a : SocketAddr) : SocketAddr := SetData (take (Z.to_nat (addr_length a)) (address a)) SocketAddr_Clear.
Definition SocketAddr_assign (a b : SocketAddr) : SocketAddr := SetData (take (Z.to_nat (addr_length b)) (address b)) a.

(** ** State *)

Inductive ProtocolDirection := Serverbound | Clientbound.
#[export] Instance ProtocolDirection_eq_dec : EqDecision ProtocolDirection.
Proof. solve_decision. Defined.

(** [data] holds the first [size] bytes of the message. *)
Record WebSocketMessage := mkMessage { socketId : Z; wm_data : list byte }.
Record WebSocket := mkWebSocket { m_id : list byte; m_index : Z; proxyAddress : list byte; asServer : bool }.
Record SocketSpawnInfo := mkSpawnInfo { isProxied : bool; si_proxyAddress : list byte }.

Record UDPSocket := mkSocket {
  m_socketHandle : option Z; m_port : Z; m_address : SocketAddr; m_blockingMode : bool; m_peerAddressIsValid : bool; m_peerAddress : SocketAddr;
  m_direction : ProtocolDirection; m_info : SocketSpawnInfo; m_sockets : list WebSocket; m_proxyQueue : list WebSocketMessage }.

Definition set_peer (a : SocketAddr) (st : UDPSocket) : UDPSocket :=
  mkSocket (m_socketHandle st) (m_port st) (m_address st) (m_blockingMode st) true a (m_direction st) (m_info st) (m_sockets st) (m_proxyQueue st).
Definition set_proxyQueue (q : list WebSocketMessage) (st : UDPSocket) : UDPSocket :=
  mkSocket (m_socketHandle st) (m_port st) (m_address st) (m_blockingMode st) (m_peerAddressIsValid st) (m_peerAddress st) (m_direction st) (m_info st)
    (m_sockets st) q.

Definition UDPSocket_new (direction : ProtocolDirection) (info : SocketSpawnInfo) : UDPSocket :=
  mkSocket None 0 SocketAddr_Clear false false SocketAddr_Clear direction info [] [].

Definition SetPeerAddress (a : SocketAddr) (st : UDPSocket) : UDPSocket := set_peer (SocketAddr_assign (m_peerAddress st) a) st.

(** [SafeQueue]; the critical sections are one step each. *)
Definition enqueue {T} (v : T) (q : list T) : list T := q ++ [v].
Definition tryDequeue {T} (q : list T) : option T * list T := match q with [] => (None, []) | v :: q => (Some v, q) end.

(** [WebSocket::Receive] of a message: one larger than the buffer is dropped. *)
Definition WebSocket_Receive (ws : WebSocket) (str : list byte) (q : list WebSocketMessage) : list WebSocketMessage :=
  if 2048 <? len str then q else enqueue (mkMessage (m_index ws) str) q.

(** ** [Send] *)

Fixpoint atoi_digits (acc : Z) (s : list byte) : Z :=
  match s with
  | c :: s => let d := byte.unsigned c - 48 in if (0 <=? d) && (d <=? 9) then atoi_digits (10 * acc + d) s else acc
  | [] => acc
  end.
Fixpoint skip_spaces (s : list byte) : list byte :=
  match s with
  | c :: s' => let u := byte.unsigned c in if (u =? 32) || ((9 <=? u) && (u <=? 13)) then skip_spaces s' else s
  | [] => []
  end.
Definition atoi (s : list byte) : Z :=
  match skip_spaces s with
  | c :: s' => let u := byte.unsigned c in if u =? 45 then - atoi_digits 0 s' else if u =? 43 then atoi_digits 0 s' else atoi_digits 0 (c :: s')
  | [] => 0
  end.

(** What the socket sends: a packet for a proxy or for the peer itself. *)
Inductive packet := ToProxy (proxyIndex : Z) (data : list byte) | ToPeer (addr : sockaddr_in) (data : list byte).

(** The static buffer has 3072 bytes. *)
Definition ProxifyBuffer (buffer : list byte) (addr : sockaddr_in) : result (list byte) :=
  if len buffer + 2 <=? 3072 then
    Ok ([byte.of_Z (u8 (Z.shiftr (sin_port addr) 8)); byte.of_Z (u8 (sin_port addr))] ++ buffer)
  else Fault Undefined.

Definition WSAEWOULDBLOCK : Z := 10035.

Section socket.
Context (inet_ntoa inet_addr : list byte -> list byte).

(** [strstr(ip, "0.1.1.") != nullptr] *)
Definition proxy_ip (ip : list byte) : bool := bool_decide (is_Some (find_sub (bstr "0.1.1.") ip)).

(** [sendto] is the error of the call, if it fails. The condition of the first
    [if] assigns [ip] only when the socket itself is not proxied. *)
Definition Send (sendto : option Z) (buffer : list byte) (st : UDPSocket) : result (bool * list packet) :=
  let addr := addr_of_bytes (address (m_peerAddress st)) in
  let ip := if negb (isProxied (m_info st)) && bool_decide (m_direction st = Clientbound)
            then Some (inet_ntoa (sin_addr addr)) else None in
  if isProxied (m_info st) || match ip with Some ip => proxy_ip ip | None => false end then
    if bool_decide (m_direction st = Clientbound) then
      buffer ← ProxifyBuffer buffer addr;
      ip ← of_option Undefined ip;
      let proxyIndex := atoi (drop 6 ip) in
      if (proxyIndex <? 0) || (len (m_sockets st) <=? proxyIndex) then Ok (false, [])
      else Ok (true, [ToProxy proxyIndex buffer])
    else
      _ ← of_option Undefined (m_sockets st !! 0%nat); Ok (true, [ToProxy 0 buffer])
  else
    match sendto with
    | None => Ok (true, [ToPeer addr buffer])
    | Some error => Ok (error =? WSAEWOULDBLOCK, [])
    end.

(** ** [ReceiveFrom] *)

(** The packet of a proxied client: its port, then the data. *)
Definition unproxify (proxyId recvSize : Z) (buffer : list byte) (addr : sockaddr_in) : result (Z * list byte * sockaddr_in) :=
  hi ← of_option Undefined (buffer !! 0%nat);
  lo ← of_option Undefined (buffer !! 1%nat);
  let addr := mkAddr 2 (Z.lor (Z.shiftl (byte.unsigned hi) 8) (byte.unsigned lo))
                (inet_addr (bstr "0.1.1." ++ bstr (pretty proxyId))) (sin_zero addr) in
  (* memmove of recvSize - 2 bytes, converted to size_t *)
  if recvSize <? 2 then Fault Undefined
  else Ok (recvSize - 2, overwrite (slice 2 (Z.to_nat (recvSize - 2)) buffer) buffer, addr).

(** [recvfrom] is the error or the packet and its sender. The result is the
    return value, the buffer and the socket. *)
Definition ReceiveFrom (recvfrom : Z + list byte * sockaddr_in) (buffer : list byte) (st : UDPSocket)
    : result (Z * list byte * UDPSocket) :=
  let addr := addr_of_bytes (address (m_peerAddress st)) in
  let finish (proxyId recvSize : Z) (buffer : list byte) (addr : sockaddr_in) (st : UDPSocket) :=
    '(recvSize, buffer, addr) ←
      (if negb (proxyId =? -1) && bool_decide (m_direction st = Clientbound)
       then unproxify proxyId recvSize buffer addr else Ok (recvSize, buffer, addr));
    let st := if (proxyId =? -1) || negb (bool_decide (m_direction st = Serverbound))
              then set_peer (SetData (addr_bytes addr) (m_peerAddress st)) st else st in
    Ok (recvSize, buffer, st) in
  match tryDequeue (m_proxyQueue st) with
  | (Some m, q) =>
    let recvSize := Z.min (len buffer) (i32 (len (wm_data m))) in
    finish (i32 (socketId m)) recvSize (overwrite (take (Z.to_nat recvSize) (wm_data m)) buffer) addr (set_proxyQueue q st)
  | (None, _) =>
    match m_socketHandle st with
    | None => Ok (-1, buffer, st)
    | Some _ =>
      match recvfrom with
      | inl error => Ok (error, buffer, st)
      | inr (data, from) => finish (-1) (len data) (overwrite data buffer) from st
      end
    end
  end.
End socket.

(** ** Opening and closing *)

(** What the calls of the operating system answer. *)
Record SocketCalls := mkCalls {
  os_socket : option Z; os_bind : bool; os_ioctl : bool; os_sndbuf : bool; os_rcvbuf : bool }.

Definition with_handle (h : option Z) (st : UDPSocket) : UDPSocket :=
  mkSocket h (m_port st) (m_address st) (m_blockingMode st) (m_peerAddressIsValid st) (m_peerAddress st) (m_direction st) (m_info st)
    (m_sockets st) (m_proxyQueue st).

Definition UDPSocket_Close (st : UDPSocket) : UDPSocket := with_handle None st.

Definition SetBlockingMode (os : SocketCalls) (blocking : bool) (st : UDPSocket) : bool * UDPSocket :=
  let st := mkSocket (m_socketHandle st) (m_port st) (m_address st) blocking (m_peerAddressIsValid st) (m_peerAddress st) (m_direction st)
              (m_info st) (m_sockets st) (m_proxyQueue st) in
  match m_socketHandle st with
  | None => (true, st)
  | Some _ => (os_ioctl os && os_sndbuf os && os_rcvbuf os, st)
  end.

(** [ntohs] *)
Definition ntohs (v : Z) : Z := Z.lor (Z.shiftl (u8 v) 8) (Z.shiftr v 8).

(** [onlineServer]: a server is running in online mode; [pinned] is the
    variable KYBER_PINNED_PROXY; [proxies] are the names and addresses of the
    service's list. *)
Definition Listen_proxies (onlineServer : bool) (pinned : option (list byte)) (proxies : list (list byte * list byte)) (st : UDPSocket)
    : list WebSocket :=
  if isProxied (m_info st) && bool_decide (m_direction st = Serverbound) then
    [mkWebSocket (bstr "client") 0 (si_proxyAddress (m_info st)) false]
  else if bool_decide (m_direction st = Clientbound) && onlineServer then
    match pinned with
    | Some pinned => [mkWebSocket (bstr "pinned") 0 pinned true]
    | None => imap (fun id proxy => mkWebSocket proxy.1 (Z.of_nat id) proxy.2 true) proxies
    end
  else [].

Definition UDPSocket_Listen (os : SocketCalls) (onlineServer : bool) (pinned : option (list byte)) (proxies : list (list byte * list byte))
    (addr : SocketAddr) (blocking : bool) (st : UDPSocket) : bool * UDPSocket :=
  let st := with_handle (os_socket os) st in
  match os_socket os with
  | None => (false, st)
  | Some _ =>
    if negb (os_bind os) then (false, UDPSocket_Close st) else
    let '(ok, st) := SetBlockingMode os blocking st in
    if negb ok then (false, UDPSocket_Close st) else
    (true, mkSocket (m_socketHandle st) (ntohs (sin_port (addr_of_bytes (address addr)))) (SocketAddr_assign (m_address st) addr)
             (m_blockingMode st) (m_peerAddressIsValid st) (m_peerAddress st) (m_direction st) (m_info st)
             (Listen_proxies onlineServer pinned proxies st) (m_proxyQueue st))
  end.

(** ** [SocketManager::Listen] *)

Definition isdigit (c : byte) : bool := (48 <=? byte.unsigned c) && (byte.unsigned c <=? 57).

(** [substr] up to and after the first colon; without one both are the whole
    name. A port past the range of [int] throws; it is then narrowed. *)
Definition parse_listen (name : list byte) : result (option (list byte * Z)) :=
  let address := match str_find (bstr ":") name 0 with Some p => take p name | None => name end in
  let address := if bool_decide (address = []) then bstr "0.0.0.0" else address in
  let port := match str_find (bstr ":") name 0 with Some p => drop (S p) name | None => name end in
  if bool_decide (port = []) || negb (forallb isdigit port) then Ok None
  else if 2 ^ 31 <=? atoi_digits 0 port then Fault Thrown
  else Ok (Some (address, u16 (atoi_digits 0 port))).

(** ** Replies to proxied clients *)

Section replies.
Context (inet_ntoa inet_addr : list byte -> list byte).

(** The address of the proxy number [i] as text. *)
Definition proxy_address (i : Z) : list byte := bstr "0.1.1." ++ bstr (pretty i).

Lemma proxy_numbers i : 0 <= i < 256 -> atoi (drop 6 (proxy_address i)) = i /\ proxy_ip (proxy_address i) = true.
Proof.
  intros Hi. assert (H : Forall (fun i => atoi (drop 6 (proxy_address i)) = i /\ proxy_ip (proxy_address i) = true) (seqZ 0 256)).
  { apply (bool_decide_unpack _). vm_compute. exact I. }
  rewrite list.Forall_forall in H. apply H, elem_of_seqZ. lia.
Qed.

Lemma port_bytes (hi lo : byte) :
  let port := Z.lor (Z.shiftl (byte.unsigned hi) 8) (byte.unsigned lo) in
  is_u16 port /\ byte.of_Z (u8 (Z.shiftr port 8)) = hi /\ byte.of_Z (u8 port) = lo.
Proof.
  cbv zeta. pose proof (byte.unsigned_range hi). pose proof (byte.unsigned_range lo).
  rewrite Z.lor_comm, Z.shiftl_mul_pow2, lor_shift_add by lia. change (2 ^ 8) with 256.
  rewrite Z.shiftr_div_pow2 by lia. change (2 ^ 8) with 256.
  rewrite Z.div_add, Z.div_small, Z.add_0_l by lia. unfold uwrap. change (2 ^ 8) with 256. rewrite Z.mod_add, !Z.mod_small by lia.
  split; [unfold urange; lia|]. by rewrite !byte.of_Z_unsigned.
Qed.

Lemma overwrite_length data buf : (length data <= length buf)%nat -> length (overwrite data buf) = length buf.
Proof. intros H. unfold overwrite. rewrite length_app, length_drop. lia. Qed.

Lemma addr_of_bytes_of a rest :
  length (sin_addr a) = 4%nat -> length (sin_zero a) = 8%nat -> is_u16 (sin_family a) -> is_u16 (sin_port a) ->
  addr_of_bytes (addr_bytes a ++ rest) = a.
Proof.
  destruct a as [f p ad z]. cbn [sin_addr sin_zero sin_family sin_port]. intros Ha Hz Hf Hp. unfold addr_of_bytes, addr_bytes.
  cbn [sin_addr sin_zero sin_family sin_port]. rewrite <- !app_assoc. f_equal.
  - etransitivity; [|by apply (le_combine_split_small 2 f)]. f_equal.
  - etransitivity; [|by apply (le_combine_split_small 2 p)]. f_equal.
  - pose proof (slice_app (le_split 2 f ++ le_split 2 p) ad (z ++ rest)) as E.
    rewrite length_app, !length_le_split, Ha, <- app_assoc in E. exact E.
  - pose proof (slice_app (le_split 2 f ++ le_split 2 p ++ ad) z rest) as E.
    rewrite !length_app, !length_le_split, Ha, Hz, <- !app_assoc in E. exact E.
Qed.

End replies.

(** C37: A packet of a proxied client is received as its data, and a reply sent
    after it goes to the proxy it came from, for the port it came from. *)
Theorem reply_routes_back (inet_ntoa inet_addr : list byte -> list byte) st m q hi lo payload recvfrom sendto buffer reply :
  (forall i, 0 <= i < 256 ->
     length (inet_addr (proxy_address i)) = 4%nat /\ inet_ntoa (inet_addr (proxy_address i)) = proxy_address i) ->
  m_direction st = Clientbound -> isProxied (m_info st) = false ->
  m_proxyQueue st = m :: q -> wm_data m = hi :: lo :: payload ->
  0 <= socketId m < 256 -> socketId m < len (m_sockets st) ->
  len (wm_data m) <= len buffer -> len buffer < 2 ^ 31 -> length (address (m_peerAddress st)) = 64%nat ->
  len reply + 2 <= 3072 ->
  exists buffer' st',
    ReceiveFrom inet_addr recvfrom buffer st = Ok (len payload, buffer', st') /\
    take (length payload) buffer' = payload /\ length buffer' = length buffer /\ m_proxyQueue st' = q /\
    Send inet_ntoa sendto reply st' = Ok (true, [ToProxy (socketId m) (hi :: lo :: reply)]).
Proof.
  intros Hinet Hdir Hinfo Hq Hm Hid Hsock Hfit Hbuf Hpeer Hreply. destruct (Hinet _ Hid) as [Hl Hn].
  destruct (proxy_numbers _ Hid) as [Hnum Hip]. destruct (port_bytes hi lo) as (Hport & Hhi & Hlo). cbv zeta in *.
  unfold ReceiveFrom. rewrite Hq. cbn [tryDequeue]. rewrite Hm in *.
  assert (Hsz : len (hi :: lo :: payload) = 2 + len payload) by (cbn [length]; lia).
  rewrite (swrap_small 32) by (unfold srange; lia). rewrite (swrap_small 32) by (unfold srange; lia).
  rewrite Z.min_r by lia. rewrite take_ge by lia. destruct (Z.eqb_spec (socketId m) (-1)); [lia|]. cbn [negb andb].
  change (m_direction (set_proxyQueue q st)) with (m_direction st). rewrite Hdir.
  change (bool_decide (Clientbound = Clientbound)) with true. change (bool_decide (Clientbound = Serverbound)) with false. cbn iota.
  unfold unproxify. cbn [overwrite app lookup list_lookup of_option mbind result_bind].
  rewrite Hsz. destruct (Z.ltb_spec (2 + len payload) 2); [lia|]. replace (2 + len payload - 2) with (len payload) by lia.
  cbn [mbind result_bind orb negb].
  set (buf := hi :: lo :: payload ++ _).
  assert (Hbl : length buf = length buffer) by (unfold buf; cbn [length] in *; rewrite length_app, length_drop; cbn [length]; lia).
  assert (Hs : slice 2 (Z.to_nat (len payload)) buf = payload) by (rewrite Nat2Z.id; exact (take_app_length payload _)).
  rewrite Hs. eexists _, _. split; [reflexivity|]. split; [apply take_app_length|].
  split; [rewrite overwrite_length; [done|rewrite Hbl; cbn [length] in Hfit; lia]|]. split; [done|].
  unfold Send. cbn [set_peer m_direction m_info m_peerAddress m_sockets set_proxyQueue SetData address]. rewrite Hdir, Hinfo. cbn [negb andb orb].
  change (bool_decide (Clientbound = Clientbound)) with true. cbn [negb andb orb]. unfold overwrite.
  set (a := mkAddr 2 _ _ _). rewrite (addr_of_bytes_of a); [|exact Hl| |done|exact Hport].
  2: { cbn [sin_zero a]. unfold addr_of_bytes, slice. cbn [sin_zero]. rewrite length_take, length_drop. lia. }
  cbn [sin_addr a]. fold (proxy_address (socketId m)). rewrite Hn, Hip. unfold ProxifyBuffer.
  destruct (Z.leb_spec (len reply + 2) 3072); [|lia]. unfold a; cbn [mbind result_bind of_option sin_port]. rewrite Hhi, Hlo, Hnum.
  destruct (Z.ltb_spec (socketId m) 0); [lia|]. destruct (Z.leb_spec (len (m_sockets st)) (socketId m)); [lia|]. done.
Qed.

(** The test for the addresses of proxies also holds for the real address of a
    client in the network 10.1.1.0: a server without proxies fails to answer
    it, one with proxies sends its packets to the first of them. *)
Theorem local_peer_misrouted (inet_ntoa : list byte -> list byte) st sendto buffer d :
  m_direction st = Clientbound -> isProxied (m_info st) = false ->
  0 <= d < 256 ->
  inet_ntoa (sin_addr (addr_of_bytes (address (m_peerAddress st)))) = bstr "10.1.1." ++ bstr (pretty d) ->
  len buffer + 2 <= 3072 ->
  exists data, Send inet_ntoa sendto buffer st =
    (if decide (m_sockets st = []) then Ok (false, []) else Ok (true, [ToProxy 0 data])).
Proof.
  intros Hdir Hinfo Hd Hip Hlen.
  assert (H : Forall (fun d => proxy_ip (bstr "10.1.1." ++ bstr (pretty d)) = true /\ atoi (drop 6 (bstr "10.1.1." ++ bstr (pretty d))) = 0)
    (seqZ 0 256)) by (apply (bool_decide_unpack _); vm_compute; exact I).
  rewrite list.Forall_forall in H. destruct (H d) as [Hproxy Hatoi]; [apply elem_of_seqZ; lia|]. clear H.
  unfold Send. rewrite Hdir, Hinfo. change (bool_decide (Clientbound = Clientbound)) with true. cbn [negb andb orb]. rewrite Hip, Hproxy. unfold ProxifyBuffer.
  destruct (Z.leb_spec (len buffer + 2) 3072); [|lia]. cbn [mbind result_bind of_option]. rewrite Hatoi. cbn [Z.ltb orb].
  eexists. destruct (m_sockets st) as [|w ws]; [done|]. rewrite decide_False by done.
  destruct (Z.leb_spec (len (w :: ws)) 0); [cbn [length] in *; lia|]. reflexivity.
Qed.

(** Dotted addresses. *)
Definition ex_inet_ntoa (l : list byte) : list byte := join (bstr ".") ((fun b => bstr (pretty (byte.unsigned b))) <$> l).
Definition ex_inet_addr (s : list byte) : list byte :=
  match Split s (bstr ".") with Ok l => (fun p => byte.of_Z (atoi p)) <$> l | Fault _ => [] end.

Lemma ex_inet i :
  0 <= i < 256 ->
  length (ex_inet_addr (proxy_address i)) = 4%nat /\ ex_inet_ntoa (ex_inet_addr (proxy_address i)) = proxy_address i.
Proof.
  intros Hi. assert (H : Forall (fun i => length (ex_inet_addr (proxy_address i)) = 4%nat /\
    ex_inet_ntoa (ex_inet_addr (proxy_address i)) = proxy_address i) (seqZ 0 256)).
  { apply (bool_decide_unpack _). vm_compute. exact I. }
  rewrite list.Forall_forall in H. apply H, elem_of_seqZ. lia.
Qed.

(** A server with two proxies and a packet of the second. *)
Definition ex_message : WebSocketMessage := mkMessage 1 [Byte.x62; Byte.x70; Byte.x01; Byte.x02].
Definition ex_socket (peer : list byte) (sockets : list WebSocket) (queue : list WebSocketMessage) : UDPSocket :=
  mkSocket (Some 5) 25200 SocketAddr_Clear false true
    (SetData (addr_bytes (mkAddr 2 0x1234 peer (replicate 8 Byte.x00))) SocketAddr_Clear) Clientbound (mkSpawnInfo false []) sockets queue.
Definition ex_proxies : list WebSocket := [mkWebSocket (bstr "a") 0 (bstr "a:80") true; mkWebSocket (bstr "b") 1 (bstr "b:80") true].

Lemma reply_routes_back_witness :
  exists buffer' st',
    ReceiveFrom ex_inet_addr (inl (-1)) (replicate 1264 Byte.x00) (ex_socket (replicate 4 Byte.x00) ex_proxies [ex_message]) = Ok (2, buffer', st') /\
    take 2 buffer' = [Byte.x01; Byte.x02] /\ length buffer' = 1264%nat /\ m_proxyQueue st' = [] /\
    Send ex_inet_ntoa None [Byte.x07] st' = Ok (true, [ToProxy 1 [Byte.x62; Byte.x70; Byte.x07]]).
Proof.
  apply (reply_routes_back ex_inet_ntoa ex_inet_addr (ex_socket (replicate 4 Byte.x00) ex_proxies [ex_message]) ex_message []
    Byte.x62 Byte.x70 [Byte.x01; Byte.x02] (inl (-1)) None (replicate 1264 Byte.x00) [Byte.x07]);
    [exact ex_inet|try done; vm_compute; done..].
Defined.

(** The client 10.1.1.9 of a server without proxies. *)
Lemma local_peer_misrouted_witness :
  exists data : list byte,
    Send ex_inet_ntoa None [Byte.x07] (ex_socket [Byte.x0a; Byte.x01; Byte.x01; Byte.x09] [] []) = Ok (false, []).
Proof.
  apply (local_peer_misrouted ex_inet_ntoa (ex_socket [Byte.x0a; Byte.x01; Byte.x01; Byte.x09] [] []) None [Byte.x07] 9);
    [done|done|lia|vm_compute; reflexivity|vm_compute; done].
Defined.
