(* ===== verification/Server.v ===== *)
(** The server (Source/Core/Server.cpp): the levels it loads, the players it
    lets in and the teams the console shuffles (Source/Core/Console.cpp), and
    the unlock bits of Source/Persistence/PersistenceManager.cpp.

    The game's own functions and the services are arguments. *)

From S2P Require Import Prelude OrdMap ByteBuffer StringUtils.

(** ** Map rotation *)

Module Rotation.
Record MapRotationEntry := mkEntry { level : list byte; mode : list byte }.
Record MapRotation := mkRotation { m_entries : list MapRotationEntry; m_current : Z }.

(** [m_current] is a 16-bit number; the vector is indexed without a check. *)
Definition GetNextEntry (r : MapRotation) : result (MapRotationEntry * MapRotation) :=
  let current := if len (m_entries r) <? m_current r + 1 then 0 else m_current r in
  e ← of_option Undefined (m_entries r !! Z.to_nat current);
  Ok (e, mkRotation (m_entries r) (u16 (current + 1))).

Definition Reset (r : MapRotation) : MapRotation := mkRotation [] 0.
Definition AddEntry (level mode : list byte) (r : MapRotation) : MapRotation :=
  mkRotation (m_entries r ++ [mkEntry level mode]) (m_current r).

Fixpoint next_entries (k : nat) (r : MapRotation) : result (list MapRotationEntry * MapRotation) :=
  match k with
  | O => Ok ([], r)
  | S k => '(e, r) ← GetNextEntry r; '(es, r) ← next_entries k r; Ok (e :: es, r)
  end.

Definition start (r : MapRotation) : Z := if len (m_entries r) <? m_current r + 1 then 0 else m_current r.

(** The rotation goes round: the i-th level from now on is the one i places
    further, from the start again after the last. *)
Theorem rotation_goes_round r k :
  0 < len (m_entries r) < 2 ^ 16 -> 0 <= m_current r ->
  exists es r', next_entries k r = Ok (es, r') /\ length es = k /\ m_entries r' = m_entries r /\
    forall i, (i < k)%nat -> es !! i = m_entries r !! Z.to_nat ((start r + Z.of_nat i) mod len (m_entries r)).
Proof.
  intros Hn. revert r Hn. induction k as [|k IH]; intros r Hn Hc; [exists [], r; repeat split; intros; lia|].
  cbn [next_entries]. unfold GetNextEntry. fold (start r).
  assert (Hs : 0 <= start r < len (m_entries r)) by (unfold start; destruct (Z.ltb_spec (len (m_entries r)) (m_current r + 1)); lia).
  destruct (lookup_lt_is_Some_2 (m_entries r) (Z.to_nat (start r))) as [e He]; [lia|]. rewrite He. cbn [of_option mbind result_bind].
  rewrite uwrap_small by (unfold urange; lia).
  destruct (IH (mkRotation (m_entries r) (start r + 1))) as (es & r' & -> & Hl & Hr & Hes); [exact Hn|cbn; lia|].
  cbn [mbind result_bind m_entries m_current] in *. exists (e :: es), r'. split; [done|]. split; [cbn; lia|]. split; [done|].
  intros [|i] Hi.
  - rewrite Z.add_0_r, Z.mod_small by lia. by rewrite He.
  - change ((e :: es) !! S i) with (es !! i). rewrite Hes by lia. do 2 f_equal.
    unfold start at 1. cbn [m_entries m_current]. destruct (Z.ltb_spec (len (m_entries r)) (start r + 1 + 1)).
    + replace (start r) with (len (m_entries r) - 1) by lia.
      replace (len (m_entries r) - 1 + Z.of_nat (S i)) with (Z.of_nat i + 1 * len (m_entries r)) by lia. by rewrite Z.mod_add by lia.
    + f_equal. lia.
Qed.

Lemma rotation_goes_round_witness :
  let r := mkRotation [mkEntry [Byte.x61] []; mkEntry [Byte.x62] []; mkEntry [Byte.x63] []] 1 in
  exists es r', next_entries 4 r = Ok (es, r') /\ length es = 4%nat /\ m_entries r' = m_entries r /\
    forall i, (i < 4)%nat -> es !! i = m_entries r !! Z.to_nat ((start r + Z.of_nat i) mod len (m_entries r)).
Proof. intros r. apply (rotation_goes_round r 4); cbn; lia. Defined.
End Rotation.

(** ** Levels *)

Module Levels.
Record LoadLevelRequest := mkRequest { rq_level : list byte; rq_mode : list byte }.

#[export] Instance request_eq_dec : EqDecision LoadLevelRequest.
Proof. solve_decision. Defined.

Section levels.
(** The options of a [LevelSetup] and the game's functions on them; [Init]
    leaves a setup as [setup_init]. *)
Context {Options : Type}.
Record LevelSetup := mkSetup { Name : list byte; InitialDSubLevel : list byte; InitialStartPoint : list byte; options : Options }.
Context (setup_init : LevelSetup) (SetInclusionOption : list byte -> list byte -> Options -> Options)
  (GetInclusionOption : list byte -> Options -> option (list byte)).

(** [loads] are the setups handed to the game. *)
Record Server := mkServer {
  m_currentLevel : list byte; m_currentMode : list byte; m_levelLoaded : bool; m_latestLoadLevelRequest : LoadLevelRequest;
  loads : list LevelSetup }.

Definition Server_new : Server := mkServer [] [] false (mkRequest [] []) [].

Definition kGameMode : list byte := bstr "GameMode".

(** [InitLevelSetup]; a null [mode] leaves the options alone. *)
Definition InitLevelSetup (level : list byte) (mode : option (list byte)) (startPoint initialSubLevel : list byte) (st : Server)
    : LevelSetup * Server :=
  let st := mkServer level (default [] mode) (m_levelLoaded st) (m_latestLoadLevelRequest st) (loads st) in
  match mode with
  | None => (mkSetup level (InitialDSubLevel setup_init) (InitialStartPoint setup_init) (options setup_init), st)
  | Some mode =>
    let opts := SetInclusionOption kGameMode mode (options setup_init) in
    if negb (bool_decide (mode = bstr "Campaign")) then
      (mkSetup level (InitialDSubLevel setup_init) (InitialStartPoint setup_init) opts, st)
    else
      (mkSetup level initialSubLevel
         (if negb (bool_decide (length initialSubLevel = 0%nat)) then startPoint else InitialStartPoint setup_init) opts, st)
  end.

(** The hook of the game's [ServerLoadLevelMessage::post]. A null option cannot
    be assigned to a string. *)
Definition ServerLoadLevelMessagePost (setup : LevelSetup) (st : Server) : result Server :=
  if negb (m_levelLoaded st) then
    mode ← of_option Undefined (GetInclusionOption kGameMode (options setup));
    Ok (mkServer (m_currentLevel st) (m_currentMode st) (m_levelLoaded st) (mkRequest (Name setup) mode) (loads st))
  else
    Ok (mkServer (m_currentLevel st) (m_currentMode st) false (m_latestLoadLevelRequest st) (loads st ++ [setup])).

Definition LoadNextLevel (level mode startPoint initialSubLevel : list byte) (st : Server) : result Server :=
  let '(setup, st) := InitLevelSetup level (Some mode) startPoint initialSubLevel st in
  ServerLoadLevelMessagePost setup st.

Definition set_request (r : LoadLevelRequest) (st : Server) : Server :=
  mkServer (m_currentLevel st) (m_currentMode st) (m_levelLoaded st) r (loads st).
Definition set_levelLoaded (b : bool) (st : Server) : Server :=
  mkServer (m_currentLevel st) (m_currentMode st) b (m_latestLoadLevelRequest st) (loads st).

Definition OnLevelLoaded (st : Server) : result Server :=
  let st := set_levelLoaded true st in
  let request := m_latestLoadLevelRequest st in
  if bool_decide (rq_level request = []) then Ok st else
  st ← LoadNextLevel (rq_level request) (rq_mode request) [] [] st;
  Ok (set_request (mkRequest [] []) st).

(** The part of [Start] that changes the level at once. *)
Definition StartLevel (level mode : list byte) (st : Server) : result Server :=
  LoadNextLevel level mode [] [] (set_levelLoaded true st).

(** *** Histories *)

Inductive event := Requested (level mode startPoint initialSubLevel : list byte) | Loaded.

Definition step (st : Server) (e : event) : result Server :=
  match e with
  | Requested level mode startPoint initialSubLevel => LoadNextLevel level mode startPoint initialSubLevel st
  | Loaded => OnLevelLoaded st
  end.

(** A hosted server starts its first level at once. *)
Definition run (level mode : list byte) (h : list event) : result Server := st ← StartLevel level mode Server_new; foldM step st h.

(** The level asked for last. *)
Definition wanted (level mode : list byte) (h : list event) : LoadLevelRequest :=
  foldl (fun r e => match e with Requested l m _ _ => mkRequest l m | Loaded => r end) (mkRequest level mode) h.

Context (Hoption : forall v o, GetInclusionOption kGameMode (SetInclusionOption kGameMode v o) = Some v).

Definition loads_level (r : LoadLevelRequest) (setup : LevelSetup) : Prop :=
  Name setup = rq_level r /\ GetInclusionOption kGameMode (options setup) = Some (rq_mode r).

(** The level wanted waits for the one that is loading, or it was handed to the
    game last and none waits. *)
Record level_ok (r : LoadLevelRequest) (st : Server) : Prop := {
  lv_current : m_currentLevel st = rq_level r /\ m_currentMode st = rq_mode r;
  lv_wanted : (m_levelLoaded st = false /\ m_latestLoadLevelRequest st = r) \/
    (m_latestLoadLevelRequest st = mkRequest [] [] /\ exists setup, list.last (loads st) = Some setup /\ loads_level r setup);
}.

Lemma InitLevelSetup_spec level mode startPoint sub st :
  exists setup, InitLevelSetup level (Some mode) startPoint sub st =
      (setup, mkServer level mode (m_levelLoaded st) (m_latestLoadLevelRequest st) (loads st)) /\
    loads_level (mkRequest level mode) setup.
Proof. unfold InitLevelSetup. destruct (negb _); eexists; (split; [reflexivity|]); split; cbn; rewrite ?Hoption; done. Qed.

Lemma LoadNextLevel_loads level mode startPoint sub st :
  m_levelLoaded st = true ->
  exists setup, LoadNextLevel level mode startPoint sub st =
      Ok (mkServer level mode false (m_latestLoadLevelRequest st) (loads st ++ [setup])) /\
    loads_level (mkRequest level mode) setup.
Proof.
  intros Hl. unfold LoadNextLevel. destruct (InitLevelSetup_spec level mode startPoint sub st) as (setup & -> & Hs).
  unfold ServerLoadLevelMessagePost. cbn [m_levelLoaded]. rewrite Hl. by exists setup.
Qed.

Lemma LoadNextLevel_waits level mode startPoint sub st :
  m_levelLoaded st = false ->
  LoadNextLevel level mode startPoint sub st = Ok (mkServer level mode false (mkRequest level mode) (loads st)).
Proof.
  intros Hl. unfold LoadNextLevel. destruct (InitLevelSetup_spec level mode startPoint sub st) as (setup & -> & Hn & Ho).
  unfold ServerLoadLevelMessagePost. cbn [m_levelLoaded]. rewrite Hl, Ho. cbn. by rewrite Hn.
Qed.

Lemma step_level_ok r st e :
  level_ok r st -> (forall l m s d, e = Requested l m s d -> l <> []) -> rq_level r <> [] ->
  exists st', step st e = Ok st' /\
    level_ok (match e with Requested l m _ _ => mkRequest l m | Loaded => r end) st' /\
    (e = Loaded -> m_latestLoadLevelRequest st' = mkRequest [] []).
Proof.
  intros [[Hc Hcm] Hw] He Hr. destruct e as [l m s d|]; cbn [step].
  - destruct (m_levelLoaded st) eqn:El.
    + destruct Hw as [[[=] _]|[Hreq _]]. destruct (LoadNextLevel_loads l m s d st El) as (setup & -> & Hs).
      eexists. split; [done|]. split; [|done]. split; [done|]. right. split; [done|]. exists setup. cbn [loads]. by rewrite last_snoc.
    + rewrite LoadNextLevel_waits by done. eexists. split; [done|]. split; [|done]. split; [done|]. by left.
  - unfold OnLevelLoaded. cbn [set_levelLoaded m_latestLoadLevelRequest]. destruct Hw as [[Hl Hreq]|(Hreq & setup & Hlast & Hs)]; rewrite Hreq.
    + rewrite bool_decide_false by done. destruct (LoadNextLevel_loads (rq_level r) (rq_mode r) [] [] (set_levelLoaded true st) eq_refl)
        as (setup & -> & Hs). eexists. split; [done|]. split; [|done]. split; [done|]. right. split; [done|].
      exists setup. cbn. rewrite last_snoc. by destruct r.
    + eexists. split; [done|]. split; [|done]. split; [done|]. right. split; [done|]. by exists setup.
Qed.

Definition named (h : list event) : Prop := Forall (fun e => match e with Requested l _ _ _ => l <> [] | Loaded => True end) h.

Lemma wanted_named level mode h : level <> [] -> named h -> rq_level (wanted level mode h) <> [].
Proof.
  intros Hl Hh. induction h as [|e h IH] using rev_ind; [done|]. apply list.Forall_app in Hh as [Hh He].
  rewrite list.Forall_singleton in He. unfold wanted. rewrite foldl_app. destruct e; [done|by apply IH].
Qed.

Lemma run_level_ok level mode h :
  level <> [] -> named h -> exists st, run level mode h = Ok st /\ level_ok (wanted level mode h) st.
Proof.
  intros Hl Hh. unfold run, StartLevel. destruct (LoadNextLevel_loads level mode [] [] (set_levelLoaded true Server_new) eq_refl) as (setup & -> & Hs).
  cbn [mbind result_bind]. induction h as [|e h IH] using rev_ind.
  - eexists. split; [done|]. split; [done|]. right. split; [done|]. by exists setup.
  - pose proof Hh as Hall. apply list.Forall_app in Hh as [Hh He]. rewrite list.Forall_singleton in He.
    destruct (IH Hh) as (st & E & Hok). rewrite foldM_app, E. cbn [mbind result_bind foldM].
    destruct (step_level_ok _ st e Hok) as (st' & -> & Hok' & _); [by intros l m s d ->|by apply wanted_named|].
    exists st'. split; [done|]. unfold wanted. rewrite foldl_app. by destruct e.
Qed.

Definition is_request (e : event) : bool := match e with Requested _ _ _ _ => true | Loaded => false end.

(** While a level loads, requests only replace the one that waits. *)
Lemma requests_wait rs st :
  m_levelLoaded st = false -> forallb is_request rs = true -> named rs ->
  exists st1, foldM step st rs = Ok st1 /\ loads st1 = loads st /\ m_levelLoaded st1 = false /\
    (rs <> [] -> rq_level (m_latestLoadLevelRequest st1) <> []) /\
    (rs = [] -> m_latestLoadLevelRequest st1 = m_latestLoadLevelRequest st).
Proof.
  intros Hl. revert st Hl. induction rs as [|e rs IH]; intros st Hl Hrs Hn; [by exists st|].
  destruct e as [l m sp d|]; [|done]. apply list.Forall_cons in Hn as [Hne Hn]. cbn [foldM step].
  rewrite LoadNextLevel_waits by done. destruct (IH (mkServer l m false (mkRequest l m) (loads st)) eq_refl Hrs Hn) as (st1 & -> & H1 & H2 & H3 & H4).
  exists st1. split; [done|]. split; [done|]. split; [done|]. split; [|done]. intros _. destruct rs; [by rewrite H4|by apply H3].
Qed.

(** What finishing to load does: nothing waits, or what waits is handed over. *)
Lemma Loaded_idle st :
  m_latestLoadLevelRequest st = mkRequest [] [] -> step st Loaded = Ok (set_levelLoaded true st).
Proof. intros H. cbn. unfold OnLevelLoaded. cbn [set_levelLoaded m_latestLoadLevelRequest]. by rewrite H. Qed.

Lemma Loaded_waiting st r :
  m_latestLoadLevelRequest st = r -> rq_level r <> [] ->
  exists st2 setup, step st Loaded = Ok st2 /\ loads st2 = loads st ++ [setup] /\ loads_level r setup /\ m_levelLoaded st2 = false /\
    m_latestLoadLevelRequest st2 = mkRequest [] [].
Proof.
  intros Hr Hne. cbn. unfold OnLevelLoaded. cbn [set_levelLoaded m_latestLoadLevelRequest]. rewrite Hr, bool_decide_false by done.
  destruct (LoadNextLevel_loads (rq_level r) (rq_mode r) [] [] (set_levelLoaded true st) eq_refl) as (setup & -> & Hs).
  eexists _, setup. split; [done|]. split; [done|]. split; [by destruct r|done].
Qed.

(** C36: Whatever the order in which levels are asked for and finish to load: the
    level the server reports is the one asked for last.  Once a level has loaded and
    none waits, the game has been handed that level last, and a request is handed to
    it at once.  From then on until the notice that the level has loaded, requests,
    however many, hand nothing to the game, and the notice hands it exactly one level
    if any was asked for (or waited before): the one asked for last. *)
Theorem last_level_wins level mode h :
  level <> [] -> named h ->
  exists st, run level mode h = Ok st /\
    m_currentLevel st = rq_level (wanted level mode h) /\ m_currentMode st = rq_mode (wanted level mode h) /\
    if m_levelLoaded st then
      m_latestLoadLevelRequest st = mkRequest [] [] /\
      (exists setup, list.last (loads st) = Some setup /\ loads_level (wanted level mode h) setup) /\
      forall l m s d, l <> [] -> exists st' setup, step st (Requested l m s d) = Ok st' /\
        loads st' = loads st ++ [setup] /\ loads_level (mkRequest l m) setup /\ m_levelLoaded st' = false
    else
      forall rs, forallb is_request rs = true -> named rs ->
        exists st1 st2, foldM step st rs = Ok st1 /\ loads st1 = loads st /\ m_levelLoaded st1 = false /\ step st1 Loaded = Ok st2 /\
          m_latestLoadLevelRequest st2 = mkRequest [] [] /\
          if decide (rs = [] /\ m_latestLoadLevelRequest st = mkRequest [] []) then loads st2 = loads st /\ m_levelLoaded st2 = true
          else exists setup, loads st2 = loads st ++ [setup] /\ loads_level (wanted level mode (h ++ rs)) setup /\ m_levelLoaded st2 = false.
Proof.
  intros Hl Hh. destruct (run_level_ok level mode h Hl Hh) as (st & E & [Hc Hcm] & Hw). exists st. split; [done|]. split; [done|]. split; [done|].
  destruct (m_levelLoaded st) eqn:El.
  - destruct Hw as [[? _]|[Hreq Hlast]]; [done|]. split; [done|]. split; [done|]. intros l m s d Hne.
    destruct (LoadNextLevel_loads l m s d st El) as (setup & E' & Hs). eexists _, setup. by split; [exact E'|].
  - intros rs Hrs Hn. destruct (requests_wait rs st El Hrs Hn) as (st1 & E1 & H1 & H2 & H3 & H4). exists st1.
    assert (Hok : level_ok (wanted level mode (h ++ rs)) st1).
    { destruct (run_level_ok level mode (h ++ rs) Hl) as (st1' & E' & Hok); [by apply list.Forall_app|].
      unfold run in *. destruct (StartLevel _ _ _) as [st0|]; [|done]. cbn [mbind result_bind] in *. rewrite foldM_app, E in E'.
      cbn [mbind result_bind] in E'. rewrite E1 in E'. by injection E' as <-. }
    destruct (decide (rs = [] /\ _)) as [[-> Hreq]|Hd].
    + exists (set_levelLoaded true st1). rewrite Loaded_idle by (by rewrite H4). cbn. rewrite H4 by done. by split_and!.
    + assert (Hne : rq_level (m_latestLoadLevelRequest st1) <> []).
      { destruct rs as [|e rs]; [|by apply H3]. destruct (lv_wanted _ _ Hok) as [[_ ->]|[Hreq _]].
        - rewrite app_nil_r. by apply wanted_named.
        - exfalso. apply Hd. split; [done|]. by rewrite <- H4. }
      destruct (lv_wanted _ _ Hok) as [[_ Hreq]|[Hreq _]]; [|by rewrite Hreq in Hne].
      destruct (Loaded_waiting st1 _ Hreq) as (st2 & setup & E2 & Hl2 & Hs & Hf & Hr2); [by rewrite <- Hreq|].
      exists st2. split_and!; try done. exists setup. by rewrite Hl2, H1.
Qed.
End levels.
Arguments LevelSetup : clear implicits.
Arguments Server : clear implicits.

(** Options as the text of the mode. *)
Definition ex_get (k : list byte) (o : list byte) : option (list byte) := Some o.
Definition ex_setup : LevelSetup (list byte) := mkSetup [] [] [] [].

(** Two levels asked for while the first one loads: one is handed over. *)
Lemma last_level_wins_witness :
  exists st st1 st2 setup, run ex_setup (fun _ v _ => v) ex_get [Byte.x61] [Byte.x30] [] = Ok st /\
    foldM (step ex_setup (fun _ v _ => v) ex_get) st [Requested [Byte.x62] [Byte.x31] [] []; Requested [Byte.x63] [Byte.x32] [] []] = Ok st1 /\
    loads st1 = loads st /\ step ex_setup (fun _ v _ => v) ex_get st1 Loaded = Ok st2 /\ loads st2 = loads st ++ [setup] /\
    loads_level ex_get (mkRequest [Byte.x63] [Byte.x32]) setup.
Proof.
  destruct (last_level_wins ex_setup (fun _ v _ => v) ex_get ltac:(done) [Byte.x61] [Byte.x30] [] ltac:(done) ltac:(constructor))
    as (st & E & _ & _ & H). vm_compute in E. injection E as <-. cbn [m_levelLoaded] in H.
  destruct (H [Requested [Byte.x62] [Byte.x31] [] []; Requested [Byte.x63] [Byte.x32] [] []] eq_refl ltac:(repeat constructor; done))
    as (st1 & st2 & E1 & H1 & _ & E2 & _ & H2). rewrite decide_False in H2 by (by intros [? _]). destruct H2 as (setup & H2 & H3 & _).
  eexists _, st1, st2, setup. split; [reflexivity|]. split; [exact E1|]. split; [exact H1|]. split; [exact E2|]. split; [exact H2|exact H3].
Defined.
End Levels.

(** ** Joining *)

Module Joins.
Definition kPrefix : list byte := bstr "KyberAuthentication:".
#[local] Arguments kPrefix : simpl never.

(** A [NetworkCreatePlayerMessage] as far as the hook reads it. *)
Record NetworkCreatePlayerMessage := mkMessage { playerName : list byte; isSpectator : bool }.
Record ConsumeJoinTokenResponse := mkResponse { r_name : list byte; r_id : Z }.

(** A call of [ConsumeJoinToken] that has not been answered, with what its
    callback captured; [pd_block] is the copy of the message. *)
Record PendingJoin := mkPending {
  pd_conn : Z; pd_server : list byte; pd_token : list byte; pd_message : NetworkCreatePlayerMessage; pd_block : Z }.

(** What the hook has the game do. *)
Inductive action :=
  | CreatePlayer (conn : Z) (name : list byte) (spectator : bool)
  | SetOnlineId (name : list byte) (userId : Z)
  | SafeDisconnect (conn : Z).

(** [blocks] are the blocks of the server arena that are allocated, [messages]
    the names the connections have sent so far. *)
Record JoinState := mkJoins {
  m_runningHosted : bool; m_isDedicatedServer : bool; m_onlineMode : bool; m_serverId : list byte;
  pending : list PendingJoin; blocks : gset Z; actions : list action; messages : list (Z * list byte) }.

Definition act (l : list action) (st : JoinState) : JoinState :=
  mkJoins (m_runningHosted st) (m_isDedicatedServer st) (m_onlineMode st) (m_serverId st) (pending st) (blocks st) (actions st ++ l) (messages st).
Definition hear (conn : Z) (name : list byte) (st : JoinState) : JoinState :=
  mkJoins (m_runningHosted st) (m_isDedicatedServer st) (m_onlineMode st) (m_serverId st) (pending st) (blocks st) (actions st)
    (messages st ++ [(conn, name)]).
Definition set_pending (l : list PendingJoin) (blocks : gset Z) (st : JoinState) : JoinState :=
  mkJoins (m_runningHosted st) (m_isDedicatedServer st) (m_onlineMode st) (m_serverId st) l blocks (actions st) (messages st).
Definition set_serverId (id : list byte) (st : JoinState) : JoinState :=
  mkJoins (m_runningHosted st) (m_isDedicatedServer st) (m_onlineMode st) id (pending st) (blocks st) (actions st) (messages st).

Definition OnCreatePlayerMessage (conn : Z) (message : NetworkCreatePlayerMessage) (st : JoinState) : JoinState :=
  let st := hear conn (playerName message) st in
  if negb (m_runningHosted st) && negb (m_isDedicatedServer st) then act [CreatePlayer conn (playerName message) (isSpectator message)] st
  else if negb (m_onlineMode st) then act [CreatePlayer conn (playerName message) (isSpectator message)] st
  else if negb (StartsWith (playerName message) kPrefix) then act [SafeDisconnect conn] st
  else
    let authToken := drop (length kPrefix) (playerName message) in
    let block := fresh (blocks st) in
    set_pending (pending st ++ [mkPending conn (m_serverId st) authToken message block]) ({[block]} ∪ blocks st) st.

(** The callback of the n-th pending call; [playerFound] is whether the game
    has the new player. The copy of a name is freed where it is made. *)
Definition OnTokenConsumed (n : nat) (response : option ConsumeJoinTokenResponse) (playerFound : bool) (st : JoinState) : JoinState :=
  match pending st !! n with
  | None => st
  | Some p =>
    let rest := delete n (pending st) in
    match response with
    | None => act [SafeDisconnect (pd_conn p)] (set_pending rest (blocks st) st)
    | Some r =>
      act ([CreatePlayer (pd_conn p) (r_name r) (isSpectator (pd_message p))] ++
           (if playerFound then [SetOnlineId (r_name r) (u64 (r_id r))] else []))
        (set_pending rest (blocks st ∖ {[pd_block p]}) st)
    end
  end.

(** The service: what it answers for a token on a server. *)
Section histories.
Context (service : list byte -> list byte -> option ConsumeJoinTokenResponse).

(** Messages arrive, calls are answered in any order, and the server registers
    again under another id. *)
Inductive step : JoinState -> JoinState -> Prop :=
  | step_message conn message st : step st (OnCreatePlayerMessage conn message st)
  | step_answer n p playerFound st :
      pending st !! n = Some p -> step st (OnTokenConsumed n (service (pd_server p) (pd_token p)) playerFound st)
  | step_register id st : step st (set_serverId id st).

(** An online server before anybody joins. *)
Definition online (st : JoinState) : Prop :=
  (m_runningHosted st = true \/ m_isDedicatedServer st = true) /\ m_onlineMode st = true /\ pending st = [] /\ actions st = [].

(** The connection has presented a token. *)
Definition presented (st : JoinState) (conn : Z) (token : list byte) : Prop := (conn, kPrefix ++ token) ∈ messages st.

(** A player is let in, and given an id, on the service's word for a token its
    connection presented. *)
Definition vouched (st : JoinState) (a : action) : Prop :=
  match a with
  | CreatePlayer conn name _ => exists server token r, presented st conn token /\ service server token = Some r /\ name = r_name r
  | SetOnlineId name userId =>
    exists conn server token r, presented st conn token /\ service server token = Some r /\ name = r_name r /\ userId = u64 (r_id r)
  | SafeDisconnect _ => True
  end.

(** The copies of the messages of the pending calls are live and distinct. *)
Record joins_ok (st : JoinState) : Prop := {
  jo_online : (m_runningHosted st = true \/ m_isDedicatedServer st = true) /\ m_onlineMode st = true;
  jo_actions : Forall (vouched st) (actions st);
  jo_pending : Forall (fun p => presented st (pd_conn p) (pd_token p)) (pending st);
  jo_blocks : Forall (fun p => pd_block p ∈ blocks st) (pending st) /\ NoDup (pd_block <$> pending st);
}.

Lemma vouched_hear conn name st a : vouched st a -> vouched (hear conn name st) a.
Proof.
  assert (Hm : forall c t, presented st c t -> presented (hear conn name st) c t) by (unfold presented; cbn; set_solver).
  destruct a; cbn; naive_solver.
Qed.

Lemma joins_ok_message conn message st : joins_ok st -> joins_ok (OnCreatePlayerMessage conn message st).
Proof.
  intros [[Hr Ho] Ha Hp [Hb Hn]]. unfold OnCreatePlayerMessage. cbn [m_runningHosted m_isDedicatedServer m_onlineMode hear].
  assert (negb (m_runningHosted st) && negb (m_isDedicatedServer st) = false) as -> by (destruct Hr as [-> | ->]; [done|by destruct (m_runningHosted st)]).
  rewrite Ho. cbn [negb]. set (st' := hear conn (playerName message) st).
  assert (Ha' : Forall (vouched st') (actions st)) by (eapply list.Forall_impl; [exact Ha|]; intros; by apply vouched_hear).
  assert (Hp' : Forall (fun p => presented st' (pd_conn p) (pd_token p)) (pending st)).
  { eapply list.Forall_impl; [exact Hp|]. unfold presented. cbn. set_solver. }
  destruct (StartsWith (playerName message) kPrefix) eqn:Es; cbn [negb].
  - unfold StartsWith in Es. apply is_prefix_spec in Es as [token Et]. split; cbn; [done|exact Ha'| |split].
    + apply list.Forall_app. split; [exact Hp'|]. rewrite list.Forall_singleton. cbn. unfold presented. cbn [messages set_pending st' hear].
      rewrite Et, drop_app_length. apply elem_of_app. right. by left.
    + apply list.Forall_app. split; [|rewrite list.Forall_singleton; cbn; set_solver].
      eapply list.Forall_impl; [exact Hb|]. intros p Hin. set_solver.
    + rewrite fmap_app. cbn. apply list.NoDup_app. split; [done|]. split; [|apply NoDup_singleton].
      intros b Hin Hb'%list_elem_of_singleton. subst b. apply list_elem_of_fmap in Hin as (p & Heq & Hin).
      rewrite list.Forall_forall in Hb. specialize (Hb p Hin). rewrite <- Heq in Hb. by apply (is_fresh (blocks st)).
  - split; cbn; [done| |exact Hp'|done]. apply list.Forall_app. split; [exact Ha'|]. by repeat constructor.
Qed.

Lemma joins_ok_answer n p found st :
  pending st !! n = Some p -> joins_ok st -> joins_ok (OnTokenConsumed n (service (pd_server p) (pd_token p)) found st).
Proof.
  intros Hn [[Hr Ho] Ha Hp [Hb Hnd]]. unfold OnTokenConsumed. rewrite Hn.
  rewrite (delete_Permutation _ _ _ Hn) in Hnd. cbn [fmap list_fmap] in Hnd. apply list.NoDup_cons in Hnd as [Hout Hnd].
  assert (Hpr : presented st (pd_conn p) (pd_token p)) by (rewrite list.Forall_forall in Hp; eapply Hp, list_elem_of_lookup_2, Hn).
  assert (Hp' : Forall (fun p => presented st (pd_conn p) (pd_token p)) (delete n (pending st))) by by apply Forall_delete.
  assert (Hb' : Forall (fun p => pd_block p ∈ blocks st) (delete n (pending st))) by by apply Forall_delete.
  destruct (service (pd_server p) (pd_token p)) as [r|] eqn:E.
  - split; cbn; [done| |exact Hp'|split; [|exact Hnd]].
    + apply list.Forall_app. split; [exact Ha|]. apply list.Forall_cons. split; [by eexists _, _, r|].
      destruct found; [|constructor]. repeat constructor. by eexists _, _, _, r.
    + apply list.Forall_forall. intros x Hx. rewrite list.Forall_forall in Hb'. apply elem_of_difference. split; [by apply Hb'|].
      rewrite elem_of_singleton. intros Heq. apply Hout, list_elem_of_fmap. by exists x.
  - split; cbn; [done| |exact Hp'|done]. apply list.Forall_app. split; [exact Ha|]. by repeat constructor.
Qed.
End histories.

(** C17: However joins, answers of the service and registrations interleave, an
    online server never creates a player under a name a client chose: the name
    and the id are the service's for a token the same connection presented, and
    no pending join loses the copy of its message. *)
Theorem joins_authenticated service st0 st :
  online st0 -> rtc (step service) st0 st ->
  Forall (vouched service st) (actions st) /\
  Forall (fun p => pd_block p ∈ blocks st) (pending st) /\ NoDup (pd_block <$> pending st).
Proof.
  intros (Hr & Ho & Hp & Ha) Hsteps.
  assert (H : joins_ok service st).
  { apply (rtc_ind_r (R := step service) (joins_ok service) st0); [|clear|exact Hsteps].
    - split; [done|by rewrite Ha; constructor|by rewrite Hp; constructor|rewrite Hp; split; constructor].
    - intros x y _ Hxy Hok. destruct Hxy as [conn message st|n p found st Hn|id st].
      + by apply joins_ok_message.
      + by apply joins_ok_answer.
      + destruct Hok as [? ? ? ?]. by split. }
  destruct H as [_ Hv _ [Hb Hn]]. done.
Qed.

(** A server to which one client sends a name and another a token. *)
Lemma joins_authenticated_witness :
  let service := fun _ token => if decide (token = [Byte.x37]) then Some (mkResponse [Byte.x61] 42) else None in
  let st0 := mkJoins true false true [Byte.x73] [] ∅ [] [] in
  exists st, rtc (step service) st0 st /\
    actions st = [SafeDisconnect 1; CreatePlayer 2 [Byte.x61] false; SetOnlineId [Byte.x61] 42] /\
    Forall (vouched service st) (actions st) /\
    Forall (fun p => pd_block p ∈ blocks st) (pending st) /\ NoDup (pd_block <$> pending st).
Proof.
  intros service st0.
  set (st1 := OnCreatePlayerMessage 1 (mkMessage [Byte.x61] false) st0).
  set (st2 := OnCreatePlayerMessage 2 (mkMessage (kPrefix ++ [Byte.x37]) false) st1).
  set (st3 := OnTokenConsumed 0 (service [Byte.x73] [Byte.x37]) true st2).
  assert (Hr : rtc (step service) st0 st3).
  { eapply rtc_l; [apply (step_message service 1 (mkMessage [Byte.x61] false))|].
    eapply rtc_l; [apply (step_message service 2 (mkMessage (kPrefix ++ [Byte.x37]) false))|].
    eapply rtc_l; [|apply rtc_refl].
    exact (step_answer service 0 (mkPending 2 [Byte.x73] [Byte.x37] (mkMessage (kPrefix ++ [Byte.x37]) false) (fresh ∅)) true st2 eq_refl). }
  exists st3. split; [exact Hr|]. split; [vm_compute; reflexivity|]. apply (joins_authenticated service st0 st3); [|exact Hr].
  split; [by left|done].
Defined.
End Joins.

(** ** Teams *)

Module Teams.
Record ServerPlayer := mkPlayer { m_name : list byte; m_localPlayerId : Z; m_nativeData : Z; m_teamId : Z }.

Definition IsAIPlayer (p : ServerPlayer) : bool :=
  (u32 (m_localPlayerId p) =? 0xFF) || ((133700 <=? m_nativeData p) && (m_nativeData p <=? 133799)).

Section teams.
(** The game's [SetTeam]. *)
Context (SetTeam : ServerPlayer -> Z -> ServerPlayer).

Definition FullTeamSwapCommand (players : list (option ServerPlayer)) : list (option ServerPlayer) :=
  fmap (M:=list) (fun o => match o with
    | Some p => if IsAIPlayer p then o else Some (SetTeam p (if negb (m_teamId p =? 1) then 1 else 2))
    | None => None
    end) players.

(** The pointers collected in [players], as positions of the player list. *)
Definition real (o : option ServerPlayer) : bool := match o with Some p => negb (IsAIPlayer p) | None => false end.
Fixpoint collect (i : nat) (l : list (option ServerPlayer)) : list nat :=
  match l with [] => [] | o :: l => (if real o then [i] else []) ++ collect (S i) l end.

(** The first half, rounded up, gets team 1 and the rest team 2. *)
Definition teamList (n : nat) : list Z :=
  let l := foldl (fun l i => <[i := 1]> l) (replicate n 0) (seq 0 (n - n / 2)) in
  foldl (fun l i => <[i := 2]> l) l (seq (n - n / 2) (n / 2)).

Definition swap (i j : nat) (l : list Z) : list Z :=
  match l !! i, l !! j with Some x, Some y => <[i := y]> (<[j := x]> l) | _, _ => l end.

(** [rand k] is the k-th number of [rand()]. *)
Definition shuffle (rand : nat -> Z) (l : list Z) : list Z :=
  foldl (fun l i => swap i (Z.to_nat (rand i mod (Z.of_nat i + 1))) l) l (rev (seq 0 (length l))).

Definition set_team (l : list (option ServerPlayer)) (it : nat * Z) : list (option ServerPlayer) :=
  alter (fmap (fun p => SetTeam p it.2)) it.1 l.

Definition ShuffleTeamsCommand (rand : nat -> Z) (playerList : list (option ServerPlayer)) : list (option ServerPlayer) :=
  let players := collect 0 playerList in
  foldl set_team playerList (zip players (shuffle rand (teamList (length players)))).

(** *** Lemmas *)

Lemma insert_Permutation (l : list Z) i x y : l !! i = Some x -> <[i := y]> l ++ [x] ≡ₚ l ++ [y].
Proof.
  intros Hi. rewrite insert_take_drop by (by eapply lookup_lt_Some). rewrite <- (take_drop_middle l i x Hi) at 3. solve_Permutation.
Qed.

Lemma swap_Permutation i j l : swap i j l ≡ₚ l.
Proof.
  unfold swap. destruct (l !! i) as [x|] eqn:Ei; [|done]. destruct (l !! j) as [y|] eqn:Ej; [|done].
  destruct (decide (i = j)) as [->|Hne].
  - rewrite Ei in Ej. injection Ej as ->. by rewrite !list_insert_id by (rewrite ?list_insert_id; done).
  - apply (Permutation_app_inv_r [x]). rewrite insert_Permutation by (by rewrite list_lookup_insert_ne). by apply insert_Permutation.
Qed.

Lemma shuffle_Permutation rand l : shuffle rand l ≡ₚ l.
Proof.
  unfold shuffle. generalize (rev (seq 0 (length l))) as ks. intros ks. revert l.
  induction ks as [|i ks IH]; intros l; [done|]. cbn [foldl]. by rewrite IH, swap_Permutation.
Qed.

Lemma fill_app (v : Z) pre mid post :
  foldl (fun l i => <[i := v]> l) (pre ++ mid ++ post) (seq (length pre) (length mid)) = pre ++ replicate (length mid) v ++ post.
Proof.
  revert pre. induction mid as [|x mid IH]; intros pre; [done|]. cbn [length seq foldl replicate].
  rewrite insert_app_r_alt, Nat.sub_diag by lia. change (<[0%nat := v]> ((x :: mid) ++ post)) with (v :: mid ++ post).
  specialize (IH (pre ++ [v])). rewrite length_app in IH. cbn [length] in IH. rewrite Nat.add_1_r, <- !app_assoc in IH. exact IH.
Qed.

Lemma teamList_halves n : teamList n = replicate (n - n / 2) 1 ++ replicate (n / 2) 2.
Proof.
  unfold teamList. assert (Hn : (n / 2 <= n)%nat) by (apply Nat.Div0.div_le_upper_bound; lia).
  replace (replicate n 0) with (replicate (n - n / 2) 0 ++ replicate (n / 2) 0) by (rewrite <- replicate_add; f_equal; lia).
  pose proof (fill_app 1 [] (replicate (n - n / 2) 0) (replicate (n / 2) 0)) as E. rewrite length_replicate in E. cbn [length app] in E. rewrite E. clear E.
  pose proof (fill_app 2 (replicate (n - n / 2) 1) (replicate (n / 2) 0) []) as E. rewrite !length_replicate, !app_nil_r in E. exact E.
Qed.

Lemma collect_shift i l : collect (S i) l = S <$> collect i l.
Proof. revert i. induction l as [|o l IH]; intros i; [done|]. cbn [collect]. rewrite IH, fmap_app. by destruct (real o). Qed.

Lemma zip_shift (ks : list nat) (ts : list Z) : zip (S <$> ks) ts = (fun it : nat * Z => (S it.1, it.2)) <$> zip ks ts.
Proof. revert ts. induction ks as [|k ks IH]; intros [|t ts]; try done. cbn. by rewrite IH. Qed.

Lemma set_team_shift o l its : foldl set_team (o :: l) ((fun it => (S it.1, it.2)) <$> its) = o :: foldl set_team l its.
Proof. revert l. induction its as [|[i t] its IH]; intros l; [done|]. cbn [fmap list_fmap foldl]. exact (IH (set_team l (i, t))). Qed.

(** The players in the order of the list, and their teams given out in order. *)
Definition reals (l : list (option ServerPlayer)) : list ServerPlayer := base.omap (fun o => if real o then o else None) l.

Context (HSetTeam : forall p t, m_teamId (SetTeam p t) = t /\ IsAIPlayer (SetTeam p t) = IsAIPlayer p).

Lemma assign_teams l ts :
  length ts = length (collect 0 l) ->
  let l' := foldl set_team l (zip (collect 0 l) ts) in
  m_teamId <$> reals l' = ts /\ length l' = length l /\ (forall i, (real <$> l !! i) <> Some true -> l' !! i = l !! i).
Proof.
  revert ts. induction l as [|o l IH]; intros ts Hl.
  { destruct ts; [|done]. repeat split. }
  cbn [collect]. rewrite collect_shift. destruct (real o) eqn:Er; cbn [collect] in Hl; rewrite Er, collect_shift in Hl;
    rewrite ?length_app, length_fmap in Hl; cbn [length app Nat.add] in *.
  - destruct ts as [|t ts]; [done|]. injection Hl as Hl. destruct (IH ts Hl) as (Ht & Hlen & Hrest).
    cbn [zip_with zip foldl app]. destruct o as [p|]; [|done].
    change (set_team (Some p :: l) (0%nat, t)) with (Some (SetTeam p t) :: l).
    rewrite zip_shift, set_team_shift. cbv zeta. unfold reals. cbn [base.omap list_omap]. destruct (HSetTeam p t) as [Hp Hai].
    unfold real at 1. rewrite Hai. unfold real in Er. rewrite Er. cbn [fmap list_fmap length]. rewrite Hp. split; [by f_equal|]. split; [by f_equal|].
    intros [|i] Hi; [|by apply Hrest]. cbn in Hi. unfold real in Hi. by rewrite Er in Hi.
  - destruct (IH ts Hl) as (Ht & Hlen & Hrest).
    rewrite zip_shift, set_team_shift. cbv zeta. unfold reals. cbn [base.omap list_omap]. rewrite Er. cbn [length]. split; [exact Ht|]. split; [by f_equal|].
    intros [|i] Hi; [done|by apply Hrest].
Qed.
End teams.

(** Shuffling splits the real players in two teams that differ by one player at
    most, and leaves the places of bots and the empty ones alone. *)
Theorem shuffle_balanced SetTeam rand l :
  (forall p t, m_teamId (SetTeam p t) = t /\ IsAIPlayer (SetTeam p t) = IsAIPlayer p) ->
  let l' := ShuffleTeamsCommand SetTeam rand l in
  let n := length (reals l) in
  m_teamId <$> reals l' ≡ₚ replicate (n - n / 2) 1 ++ replicate (n / 2) 2 /\
  length l' = length l /\ (forall i, (real <$> l !! i) <> Some true -> l' !! i = l !! i).
Proof.
  intros HS l' n. assert (Hn : length (collect 0 l) = n).
  { unfold n, reals. clear. generalize 0%nat. induction l as [|o l IH]; intros i; [done|]. cbn [collect base.omap list_omap].
    rewrite length_app, IH. by destruct o as [p|]; [cbn [real]; destruct (negb (IsAIPlayer p))|]. }
  unfold l', ShuffleTeamsCommand. rewrite Hn. set (ts := shuffle rand (teamList n)).
  assert (Hts : ts ≡ₚ replicate (n - n / 2) 1 ++ replicate (n / 2) 2) by (unfold ts; by rewrite shuffle_Permutation, teamList_halves).
  assert (Hlen : length ts = length (collect 0 l)).
  { rewrite Hts, length_app, !length_replicate, Hn. assert (n / 2 <= n)%nat by (apply Nat.Div0.div_le_upper_bound; lia). lia. }
  destruct (assign_teams SetTeam HS l ts Hlen) as (Ht & Hl & Hrest). rewrite Ht. done.
Qed.

(** Three players, a bot and an empty place. *)
Definition ex_SetTeam (p : ServerPlayer) (t : Z) : ServerPlayer := mkPlayer (m_name p) (m_localPlayerId p) (m_nativeData p) t.
Definition ex_player (id : Z) : option ServerPlayer := Some (mkPlayer [] 1 id 0).

Lemma shuffle_balanced_witness :
  let l := [ex_player 1; None; ex_player 133701; ex_player 2; ex_player 3] in
  let l' := ShuffleTeamsCommand ex_SetTeam (fun k => 7 * Z.of_nat k) l in
  m_teamId <$> reals l' ≡ₚ [1; 1; 2] /\ length l' = 5%nat /\ (forall i, (real <$> l !! i) <> Some true -> l' !! i = l !! i).
Proof. intros l. exact (shuffle_balanced ex_SetTeam (fun k => 7 * Z.of_nat k) l ltac:(done)). Defined.
End Teams.

(** ** Unlocks *)

Module Unlocks.
(** The array of unlock bits, 1217 of them in words of 32; [index] is what the
    game answers for the asset, 0xFFFFFFFF when it does not know it. *)
Definition ServerPlayerSetUnlock (index : Z) (value : bool) (bits : list Z) : result (list Z) :=
  let elementIndex := index / 32 in
  let bitMask := Z.shiftl 1 (index mod 32) in
  word ← of_option Undefined (bits !! Z.to_nat elementIndex);
  Ok (<[Z.to_nat elementIndex := Z.lxor word (Z.land (Z.lxor word (u32 (- Z.b2z value))) bitMask)]> bits).

(** The bit of an unlock. *)
Definition unlocked (bits : list Z) (index : Z) : bool := Z.testbit (default 0 (bits !! Z.to_nat (index / 32))) (index mod 32).

Lemma set_bit word value k j :
  0 <= k < 32 -> 0 <= j < 32 ->
  Z.testbit (Z.lxor word (Z.land (Z.lxor word (u32 (- Z.b2z value))) (Z.shiftl 1 k))) j = if decide (j = k) then value else Z.testbit word j.
Proof.
  intros Hk Hj. rewrite Z.lxor_spec, Z.land_spec, Z.lxor_spec.
  replace (Z.shiftl 1 k) with (2 ^ k) by (by rewrite Z.shiftl_1_l). rewrite Z.pow2_bits_eqb by lia.
  assert (Hv : Z.testbit (u32 (- Z.b2z value)) j = value).
  { unfold uwrap. rewrite Z.mod_pow2_bits_low by lia. destruct value; cbn [Z.b2z]; [apply Z.bits_m1; lia|apply Z.bits_0]. }
  rewrite Hv. destruct (Z.eqb_spec k j) as [->|Hne].
  - rewrite decide_True, andb_true_r by done. by destruct (Z.testbit word j), value.
  - rewrite decide_False, andb_false_r by congruence. apply xorb_false_r.
Qed.

(** Setting an unlock sets its bit to the value and changes no other; the index
    of an asset the game does not know is out of the array's range, and is
    written there. *)
Theorem SetUnlock_bit index value bits :
  is_u32 index ->
  match ServerPlayerSetUnlock index value bits with
  | Ok bits' => index < 32 * len bits /\ length bits' = length bits /\
      forall j, 0 <= j < 32 * len bits -> unlocked bits' j = if decide (j = index) then value else unlocked bits j
  | Fault e => e = Undefined /\ 32 * len bits <= index
  end.
Proof.
  intros Hi. unfold ServerPlayerSetUnlock. pose proof (Z.div_mod index 32 ltac:(done)). pose proof (Z.mod_pos_bound index 32 eq_refl).
  unfold urange in Hi. destruct (bits !! Z.to_nat (index / 32)) as [word|] eqn:E; cbn [of_option mbind result_bind].
  - pose proof (lookup_lt_Some _ _ _ E). split; [lia|]. split; [apply length_insert|].
    intros j Hj. unfold unlocked. pose proof (Z.div_mod j 32 ltac:(done)). pose proof (Z.mod_pos_bound j 32 eq_refl).
    destruct (decide (j / 32 = index / 32)) as [Hd|Hd].
    + rewrite Hd, list_lookup_insert_eq by lia. rewrite E. unfold default. cbn [from_option id]. unfold id. rewrite set_bit by lia.
      destruct (decide (j mod 32 = index mod 32)), (decide (j = index)); try done; lia.
    + rewrite list_lookup_insert_ne by (intros ?%Z2Nat.inj; lia). rewrite decide_False; [done|]. by intros ->.
  - apply lookup_ge_None in E. split; [done|]. lia.
Qed.

Lemma SetUnlock_bit_witness :
  let bits := [0; 5] in
  0 <= 33 < 2 ^ 32 /\
  match ServerPlayerSetUnlock 33 true bits with
  | Ok bits' => 33 < 32 * len bits /\ length bits' = length bits /\
      forall j, 0 <= j < 32 * len bits -> unlocked bits' j = if decide (j = 33) then true else unlocked bits j
  | Fault e => e = Undefined /\ 32 * len bits <= 33
  end.
Proof. intros bits. split; [lia|]. apply (SetUnlock_bit 33 true bits). unfold urange. lia. Defined.
End Unlocks.
