(* ===== verification/DataContainers.v ===== *)
(** The game's objects as the asset handlers see them (Source/ModLoader/CustomAssetHandler.cpp,
    Public/SDK/SDK.h): references by guid and their resolution, reference counts,
    and the arrays that objects own.

    An object is known by its address, and the null pointer is 0. What the game
    finds for a guid is part of the state, which the game may change whenever it
    runs; the code under src/ only adds to the reference counts and to the
    partitions it remembers. *)

From S2P Require Import Prelude OrdMap ByteBuffer StringUtils Guid.

(** ** References *)

Record EbxImportReference := mkRef { partitionGuid : Guid; instanceGuid : Guid }.

#[export] Instance EbxImportReference_eq_dec : EqDecision EbxImportReference.
Proof. solve_decision. Defined.

(** The instance first, then the partition. *)
Definition parseReference : Rd EbxImportReference :=
  classGuid ← Guid_readLE; fileGuid ← Guid_readLE; mret (mkRef fileGuid classGuid).

(** The partition first, then the instance. *)
Definition parseReference2 : Rd EbxImportReference :=
  fileGuid ← Guid_readLE; classGuid ← Guid_readLE; mret (mkRef fileGuid classGuid).

(** ** The game's objects *)

Record Game := mkGame {
  (** [RuntimeDatabaseDomain_findPartitionFromGuidIncludingImports] *)
  findPartition : Z -> Guid -> Z;
  (** [DatabasePartition::FindInstanceByGuid] *)
  FindInstanceByGuid : Z -> Guid -> Z;
  (** [ModLoader::m_domainLoadedPartitions] *)
  domainLoadedPartitions : gmap Z (omap Guid Z);
  (** [DataContainer::m_refCount] of every object *)
  refCounts : gmap Z Z;
}.

Definition set_domains (m : gmap Z (omap Guid Z)) (g : Game) : Game :=
  mkGame (findPartition g) (FindInstanceByGuid g) m (refCounts g).
Definition set_refCounts (m : gmap Z Z) (g : Game) : Game :=
  mkGame (findPartition g) (FindInstanceByGuid g) (domainLoadedPartitions g) m.

(** Indexing the remembered partitions creates those of a domain it has none of. *)
Definition findDataContainer (domain : Z) (ref : EbxImportReference) (g : Game) : Z * Game :=
  if Guid_IsZero (partitionGuid ref) then (0, g) else
  let partition := findPartition g domain (partitionGuid ref) in
  let '(partition, g) :=
    if partition =? 0 then
      let vec := default [] (domainLoadedPartitions g !! domain) in
      (default 0 (omap_find (partitionGuid ref) vec), set_domains (<[domain := vec]> (domainLoadedPartitions g)) g)
    else (partition, g) in
  if partition =? 0 then (0, g) else (FindInstanceByGuid g partition (instanceGuid ref), g).

(** A call on a null pointer, or on what is no object, is undefined. *)
Definition addRef (c : Z) (g : Game) : result Game :=
  if c =? 0 then Fault Undefined else
  n ← of_option Undefined (refCounts g !! c);
  Ok (set_refCounts (<[c := u32 (n + 1)]> (refCounts g)) g).

Definition addRef_found (c : Z) (g : Game) : result Game := if c =? 0 then Ok g else addRef c g.

(** ** Arrays *)

(** [FBArray::extend]: the size is kept in 32 bits, and the elements are copied
    to memory of the new size; the new ones are zeroed. *)
Definition FBArray_extend {A} (zero : A) (amount : Z) (l : list A) : result (list A) :=
  if 2 ^ 32 <=? len l + amount then Fault Undefined else Ok (l ++ replicate (Z.to_nat amount) zero).

(** ** Games that find the same *)

(** Games are told apart by what they find and by the reference counts: a domain
    without partitions is as good as an unknown one. *)
#[export] Instance Game_equiv : Equiv Game := fun g h =>
  (forall d p, findPartition g d p = findPartition h d p) /\
  (forall p i, FindInstanceByGuid g p i = FindInstanceByGuid h p i) /\
  (forall d, default [] (domainLoadedPartitions g !! d) = default [] (domainLoadedPartitions h !! d)) /\
  refCounts g = refCounts h.

#[export] Instance Game_equivalence : Equivalence (≡@{Game}).
Proof.
  split.
  - by intros g.
  - intros g h (H1 & H2 & H3 & H4). by repeat split.
  - intros g h k (H1 & H2 & H3 & H4) (I1 & I2 & I3 & I4). repeat split; intros; congruence.
Qed.

#[export] Instance set_refCounts_proper m : Proper ((≡) ==> (≡)) (set_refCounts m).
Proof. intros g h (H1 & H2 & H3 & _). by repeat split. Qed.

Lemma set_refCounts_same g : set_refCounts (refCounts g) g = g.
Proof. by destruct g. Qed.

(** What a reference stands for in a game. *)
Definition resolved (g : Game) (domain : Z) (ref : EbxImportReference) : Z := (findDataContainer domain ref g).1.

Lemma findDataContainer_equiv domain ref g : (findDataContainer domain ref g).2 ≡ g.
Proof.
  unfold findDataContainer. destruct (Guid_IsZero _); [done|]. destruct (findPartition g _ _ =? 0).
  - assert (H : set_domains (<[domain := default [] (domainLoadedPartitions g !! domain)]> (domainLoadedPartitions g)) g ≡ g).
    { repeat split. intros d. cbn. destruct (decide (d = domain)) as [->|]; [by rewrite lookup_insert_eq|by rewrite lookup_insert_ne]. }
    by destruct (default 0 _ =? 0).
  - by destruct (findPartition g _ _ =? 0).
Qed.

Lemma findDataContainer_pair domain ref g : exists g', findDataContainer domain ref g = (resolved g domain ref, g') /\ g' ≡ g.
Proof. exists (findDataContainer domain ref g).2. split; [apply surjective_pairing|apply findDataContainer_equiv]. Qed.

#[export] Instance resolved_proper : Proper ((≡) ==> (=) ==> (=) ==> (=)) resolved.
Proof.
  intros g h (H1 & H2 & H3 & _) d ? <- ref ? <-. unfold resolved, findDataContainer. destruct (Guid_IsZero _); [done|].
  rewrite H1, H3. destruct (findPartition h _ _ =? 0) eqn:E; cbn.
  - destruct (default 0 _ =? 0); [done|]. cbn. apply H2.
  - rewrite E. cbn. apply H2.
Qed.

Lemma resolved_set_refCounts m g domain ref : resolved (set_refCounts m g) domain ref = resolved g domain ref.
Proof.
  unfold resolved, findDataContainer. destruct (Guid_IsZero _); [done|]. cbn.
  destruct (findPartition g _ _ =? 0) eqn:E; cbn; [|by rewrite E].
  by destruct (default 0 _ =? 0).
Qed.

(** ** Counting references *)

(** How often an object occurs among some. *)
Definition times (c : Z) (l : list Z) : Z := len (filter (fun x => x = c) l).

Lemma times_nil c : times c [] = 0.
Proof. done. Qed.

Lemma times_cons c x l : times c (x :: l) = (if decide (x = c) then 1 else 0) + times c l.
Proof. unfold times. rewrite filter_cons. destruct (decide (x = c)); cbn [length]; lia. Qed.

Lemma times_0 c l : c ∉ l -> times c l = 0.
Proof.
  induction l as [|x l IH]; intros Hc; [done|]. apply not_elem_of_cons in Hc as [H1 H2].
  by rewrite times_cons, decide_False, IH by congruence.
Qed.

(** The counts once every object of a list was referred to, null ones apart. *)
Definition counts_after (l : list Z) (m m' : gmap Z Z) : Prop :=
  forall c, m' !! c = if c =? 0 then m !! c else if times c l =? 0 then m !! c else (fun n => u32 (n + times c l)) <$> m !! c.

Lemma counts_after_nil m : counts_after [] m m.
Proof. intros c. rewrite times_nil. by destruct (c =? 0). Qed.

Lemma times_nonneg c l : 0 <= times c l.
Proof. unfold times. lia. Qed.

Lemma counts_after_cons x l m m' n :
  x <> 0 -> m !! x = Some n -> counts_after l (<[x := u32 (n + 1)]> m) m' -> counts_after (x :: l) m m'.
Proof.
  intros Hx Hn H c. rewrite H, times_cons. destruct (Z.eqb_spec c 0) as [->|Hc]; [by rewrite lookup_insert_ne|].
  pose proof (times_nonneg c l). destruct (decide (x = c)) as [<-|Hne].
  - rewrite lookup_insert_eq, Hn. cbn. rewrite (proj2 (Z.eqb_neq (1 + times x l) 0)) by lia.
    destruct (Z.eqb_spec (times x l) 0) as [->|]; [do 2 f_equal; lia|]. f_equal.
    unfold uwrap. rewrite Z.add_mod_idemp_l by done. f_equal. lia.
  - by rewrite lookup_insert_ne, Z.add_0_l.
Qed.

Lemma counts_after_null l m m' : counts_after l m m' -> counts_after (0 :: l) m m'.
Proof.
  intros H c. rewrite H. destruct (Z.eqb_spec c 0); [done|]. by rewrite times_cons, decide_False by congruence.
Qed.

(** Referring to objects neither makes objects nor destroys them. *)
Lemma counts_after_is_Some l m m' c : counts_after l m m' -> is_Some (m' !! c) <-> is_Some (m !! c).
Proof. intros H. rewrite H. repeat case_match; rewrite ?fmap_is_Some; done. Qed.

Lemma addRef_ok c g n : c <> 0 -> refCounts g !! c = Some n -> addRef c g = Ok (set_refCounts (<[c := u32 (n + 1)]> (refCounts g)) g).
Proof. intros Hc Hn. unfold addRef. rewrite (proj2 (Z.eqb_neq c 0) Hc), Hn. done. Qed.

Lemma counts_after_app l1 l2 m m1 m2 : counts_after l1 m m1 -> counts_after l2 m1 m2 -> counts_after (l1 ++ l2) m m2.
Proof.
  intros H1 H2 c. rewrite H2, H1. destruct (c =? 0); [done|]. unfold times. rewrite list.filter_app, length_app, Nat2Z.inj_add.
  fold (times c l1) (times c l2). pose proof (times_nonneg c l1). pose proof (times_nonneg c l2).
  destruct (Z.eqb_spec (times c l1) 0) as [->|]; [by rewrite Z.add_0_l|].
  rewrite (proj2 (Z.eqb_neq (times c l1 + times c l2) 0)) by lia.
  destruct (Z.eqb_spec (times c l2) 0) as [->|]; [by rewrite Z.add_0_r|].
  destruct (m !! c) as [x|]; [|done]. cbn. f_equal. unfold uwrap. rewrite Z.add_mod_idemp_l by done. f_equal. lia.
Qed.

(** ** Computing with the game *)

Definition GM (A : Type) : Type := Game -> result (A * Game).

#[export] Instance GM_ret : MRet GM := fun A a g => Ok (a, g).
#[export] Instance GM_bind : MBind GM := fun A B f m g =>
  match m g with Ok (a, g') => f a g' | Fault e => Fault e end.

Definition GM_lift {A} (r : result A) : GM A := fun g => match r with Ok a => Ok (a, g) | Fault e => Fault e end.
Definition GM_find (domain : Z) (ref : EbxImportReference) : GM Z := fun g => Ok (findDataContainer domain ref g).
Definition GM_addRef (c : Z) : GM unit := fun g => g ← addRef c g; Ok (tt, g).
Definition GM_addRef_found (c : Z) : GM unit := fun g => g ← addRef_found c g; Ok (tt, g).

(** Games that find the same and may differ in the counts. *)
Definition finds_like (g h : Game) : Prop := set_refCounts ∅ g ≡ set_refCounts ∅ h.

#[export] Instance finds_like_equivalence : Equivalence finds_like.
Proof.
  unfold finds_like. split.
  - by intros g.
  - by intros g h ->.
  - by intros g h k -> ->.
Qed.

#[export] Instance finds_like_subrelation : subrelation (≡@{Game}) finds_like.
Proof. intros g h H. unfold finds_like. by rewrite H. Qed.

Lemma finds_like_set_refCounts m g : finds_like (set_refCounts m g) g.
Proof. by destruct g. Qed.

#[export] Instance resolved_finds_like : Proper (finds_like ==> (=) ==> (=) ==> (=)) resolved.
Proof.
  intros g h H d ? <- r ? <-. rewrite <- (resolved_set_refCounts ∅ g), <- (resolved_set_refCounts ∅ h).
  unfold finds_like in H. by rewrite H.
Qed.

(** The objects among some are objects of the game. *)
Definition alive (g : Game) (l : list Z) : Prop := Forall (fun c => c <> 0 -> is_Some (refCounts g !! c)) l.

(** In every game that finds what [g0] finds, the computation gives [a] and
    refers to the objects [refs], and finds no less afterwards. *)
Definition runs {A} (g0 : Game) (m : GM A) (a : A) (refs : list Z) : Prop :=
  forall g, finds_like g g0 -> alive g refs ->
  exists g', m g = Ok (a, g') /\ finds_like g' g0 /\ counts_after refs (refCounts g) (refCounts g').

Lemma alive_after l m m' g g' : counts_after l m m' -> refCounts g = m -> refCounts g' = m' -> forall k, alive g k -> alive g' k.
Proof.
  intros H <- <- k Hk. eapply list.Forall_impl; [exact Hk|]. intros c Hc H0. apply (counts_after_is_Some _ _ _ c H). by apply Hc.
Qed.

Section rules.
Context (g0 : Game).

Lemma runs_ret {A} (a : A) : runs g0 (mret a) a [].
Proof. intros g Hg _. exists g. split; [done|]. split; [done|]. apply counts_after_nil. Qed.

Lemma runs_bind {A B} (m : GM A) (f : A -> GM B) a b l k :
  runs g0 m a l -> runs g0 (f a) b k -> runs g0 (m ≫= f) b (l ++ k).
Proof.
  intros Hm Hf g Hg Hl. unfold alive in Hl. apply list.Forall_app in Hl as [Hl Hk].
  destruct (Hm g Hg Hl) as (g1 & E1 & G1 & C1).
  destruct (Hf g1 G1) as (g2 & E2 & G2 & C2); [by eapply (alive_after _ _ _ g)|].
  exists g2. unfold mbind, GM_bind. rewrite E1. split; [done|]. split; [done|]. by eapply counts_after_app.
Qed.

Lemma runs_last {A B} (m : GM A) (f : A -> GM B) a b l : runs g0 m a l -> runs g0 (f a) b [] -> runs g0 (m ≫= f) b l.
Proof. intros Hm Hf. rewrite <- (app_nil_r l). by apply (runs_bind m f a). Qed.

Lemma runs_lift {A} (r : result A) a : r = Ok a -> runs g0 (GM_lift r) a [].
Proof. intros -> . apply runs_ret. Qed.

Lemma runs_find domain ref : runs g0 (GM_find domain ref) (resolved g0 domain ref) [].
Proof.
  intros g Hg _. destruct (findDataContainer_pair domain ref g) as (g' & E & Hg'). exists g'. unfold GM_find. rewrite E.
  split; [by rewrite Hg|]. split; [by rewrite Hg'|]. destruct Hg' as (_ & _ & _ & ->). apply counts_after_nil.
Qed.

Lemma runs_addRef c : c <> 0 -> runs g0 (GM_addRef c) tt [c].
Proof.
  intros Hc g Hg Hl. unfold alive in Hl. rewrite list.Forall_singleton in Hl. destruct (Hl Hc) as [n Hn]. unfold GM_addRef.
  rewrite (addRef_ok c g n Hc Hn). eexists. split; [done|]. split; [by rewrite finds_like_set_refCounts|].
  eapply counts_after_cons; [done|done|]. apply counts_after_nil.
Qed.

Lemma runs_addRef_found c : runs g0 (GM_addRef_found c) tt [c].
Proof.
  destruct (Z.eqb_spec c 0) as [->|Hc].
  - intros g Hg _. exists g. split; [done|]. split; [done|]. apply counts_after_null, counts_after_nil.
  - intros g Hg Hl. destruct (runs_addRef c Hc g Hg Hl) as (g' & E & H). exists g'.
    unfold GM_addRef_found, addRef_found. rewrite (proj2 (Z.eqb_neq c 0) Hc). by split.
Qed.

Lemma bind_singles {A B} (f : A -> B) (l : list A) : (l ≫= fun a => [f a]) = f <$> l.
Proof. induction l as [|a l IH]; [done|]. cbn. by f_equal. Qed.

Lemma bind_nils {A B} (l : list A) : (l ≫= fun _ => @nil B) = [].
Proof. by induction l. Qed.

Lemma runs_mapM {A B} (f : A -> GM B) (out : A -> B) (refs : A -> list Z) (l : list A) :
  (forall a, a ∈ l -> runs g0 (f a) (out a) (refs a)) -> runs g0 (mapM f l) (out <$> l) (l ≫= refs).
Proof.
  induction l as [|a l IH]; intros H; [apply runs_ret|]. cbn [mapM mbind list_bind fmap list_fmap].
  apply (runs_bind _ _ (out a)); [apply H; by left|]. apply (runs_last _ _ (out <$> l)); [|by apply runs_ret].
  apply IH. intros x Hx. apply H. by right.
Qed.

Lemma runs_finds {A} domain (f : A -> EbxImportReference) (l : list A) :
  runs g0 (mapM (fun a => GM_find domain (f a)) l) ((fun a => resolved g0 domain (f a)) <$> l) [].
Proof.
  rewrite <- (bind_nils (B := Z) l). apply (runs_mapM _ (fun a => resolved g0 domain (f a)) (fun _ => [])).
  intros a _. apply runs_find.
Qed.
End rules.
