(* ===== verification/AssetHandlers.v ===== *)
(** The handlers that extend the game's lists of assets (Source/ModLoader/Handlers):
    [UIMetaDataHandler], [ProfileOptionsHandler], [NetworkRegistryHandler] and
    [MeshVariationHandler].

    [Modify] works on the arrays of its asset; which asset that is, is decided in
    Handlers.v. The loops' counters are of 32 bits; the arrays are far shorter. *)

From S2P Require Import Prelude OrdMap ByteBuffer StringUtils Guid.
From S2P Require Import DataContainers.

(** ** Lists of references *)

(** [UIMetaDataMergeData::values], [ProfileOptionsMergeData::options],
    [NetworkRegistryMergeData::values] *)
Definition References : Type := list EbxImportReference.

(** The count is signed: nothing is read for a negative one. *)
Definition UIMetaData_Load (data : References) : Rd References :=
  count ← bb_getInt; refs ← Rd_repeat (Z.to_nat (i32 count)) parseReference; mret (data ++ refs).

Definition ProfileOptions_Load (data : References) : Rd References :=
  count ← bb_getInt; refs ← Rd_repeat (Z.to_nat (i32 count)) parseReference; mret (data ++ refs).

Definition read_registry_entry : Rd EbxImportReference :=
  classGuid ← Guid_readLE; fileGuid ← Guid_readLE; mret (mkRef fileGuid classGuid).

Definition NetworkRegistry_Load (data : References) : Rd References :=
  count ← bb_getInt; refs ← Rd_repeat (Z.to_nat (i32 count)) read_registry_entry; mret (data ++ refs).

(** *** Extending, once nothing is null *)

(** An unresolved reference is stored, then dereferenced. *)
Fixpoint store_references (domain : Z) (at_ : nat) (refs : References) (assets : list Z) : GM (list Z) :=
  match refs with
  | [] => mret assets
  | ref :: refs =>
    newAsset ← GM_find domain ref;
    let assets := <[at_ := newAsset]> assets in
    _ ← GM_addRef newAsset;
    store_references domain (S at_) refs assets
  end.

(** The flag says whether the handler is done. *)
Definition UIMetaData_Modify (domain : Z) (data : References) (assets : list Z) : GM (bool * list Z) :=
  if existsb (Z.eqb 0) assets then mret (false, assets) else
  let addedSize := u32 (len data) in
  extended ← GM_lift (FBArray_extend 0 addedSize assets);
  assets ← store_references domain (length assets) (take (Z.to_nat addedSize) data) extended;
  mret (true, assets).

Definition ProfileOptions_Modify (domain : Z) (data : References) (options : list Z) : GM (bool * list Z) :=
  if existsb (Z.eqb 0) options then mret (false, options) else
  let addedSize := u32 (len data) in
  extended ← GM_lift (FBArray_extend 0 addedSize options);
  options ← store_references domain (length options) (take (Z.to_nat addedSize) data) extended;
  mret (true, options).

(** *** Extending, with what is null replaced by the first *)

Definition fill_null (objects : list Z) (i : nat) : list Z :=
  if default 0 (objects !! i) =? 0 then <[i := default 0 (objects !! O)]> objects else objects.

Fixpoint store_objects (domain : Z) (at_ : nat) (refs : References) (objects : list Z) : GM (list Z) :=
  match refs with
  | [] => mret objects
  | ref :: refs =>
    object ← GM_find domain ref;
    if object =? 0 then store_objects domain (S at_) refs objects
    else store_objects domain (S at_) refs (<[at_ := object]> objects)
  end.

Definition NetworkRegistry_Modify (domain : Z) (clearRequired : bool) (data : References) (objects : list Z)
    : GM (bool * list Z) :=
  let objects := if clearRequired then [] else foldl fill_null objects (seq 0 (length objects)) in
  let addedSize := u32 (len data) in
  extended ← GM_lift (FBArray_extend 0 addedSize objects);
  objects ← store_objects domain (length objects) (take (Z.to_nat addedSize) data) extended;
  mret (true, objects).

(** ** Mesh variations *)

Record TextureShaderParameterMergeData := mkTextureData { t_value : EbxImportReference; t_parameterName : list byte }.

Record MeshVariationDatabaseMergeDataMaterial := mkMaterialData {
  m_material : EbxImportReference;
  m_materialVariation : EbxImportReference;
  m_materialId : Z;
  m_textureParameters : list TextureShaderParameterMergeData;
  m_surfaceShaderGuid : Guid;
  m_surfaceShaderId : Z;
}.

Record MeshVariationDatabaseMergeDataEntry := mkEntryData {
  e_mesh : EbxImportReference;
  e_materials : list MeshVariationDatabaseMergeDataMaterial;
  e_variationAssetNameHash : Z;
}.

Definition MeshVariationMergeData : Type := list MeshVariationDatabaseMergeDataEntry.

(** *** [Load] *)

Definition read_texture : Rd TextureShaderParameterMergeData :=
  value ← parseReference; name ← bb_getNullTerminatedString; mret (mkTextureData value name).

Definition read_material : Rd MeshVariationDatabaseMergeDataMaterial :=
  material ← parseReference; variation ← parseReference; materialId ← bb_getLong;
  shaderGuid ← Guid_readLE; shaderId ← bb_getInt; count ← bb_getInt;
  textures ← Rd_repeat (Z.to_nat (i32 count)) read_texture;
  mret (mkMaterialData material variation (swrap 64 materialId) textures shaderGuid shaderId).

Definition read_entry : Rd MeshVariationDatabaseMergeDataEntry :=
  mesh ← parseReference; hash ← bb_getInt; count ← bb_getInt;
  materials ← Rd_repeat (Z.to_nat (i32 count)) read_material;
  mret (mkEntryData mesh materials hash).

Definition MeshVariation_Load (data : MeshVariationMergeData) : Rd MeshVariationMergeData :=
  count ← bb_getInt; entries ← Rd_repeat (Z.to_nat (i32 count)) read_entry; mret (data ++ entries).

(** *** [Modify] *)

Record TextureShaderParameter := mkTexture { Value : Z; ParameterName : list byte }.

Record MeshVariationDatabaseMaterial := mkMaterial {
  Material : Z; MaterialVariation : Z; MaterialId : Z;
  TextureParameters : list TextureShaderParameter; SurfaceShaderGuid : Guid; SurfaceShaderId : Z }.

Record MeshVariationDatabaseEntry := mkEntry {
  Mesh : Z; Materials : list MeshVariationDatabaseMaterial; VariationAssetNameHash : Z }.

Record MeshVariationDatabase := mkMeshDatabase {
  Entries : list MeshVariationDatabaseEntry; RedirectEntries : list (Z * Z) }.

Definition make_texture (domain : Z) (texture : TextureShaderParameterMergeData) : GM TextureShaderParameter :=
  value ← GM_find domain (t_value texture);
  _ ← GM_addRef_found value;
  mret (mkTexture value (c_str (t_parameterName texture))).

(** The reference to the material variation is not counted. Every element of the
    arrays [init] allocates is assigned. *)
Definition make_material (domain : Z) (material : MeshVariationDatabaseMergeDataMaterial) : GM MeshVariationDatabaseMaterial :=
  m ← GM_find domain (m_material material);
  variation ← GM_find domain (m_materialVariation material);
  _ ← GM_addRef_found m;
  textures ← mapM (make_texture domain) (m_textureParameters material);
  mret (mkMaterial m variation (u64 (m_materialId material)) textures (m_surfaceShaderGuid material) (m_surfaceShaderId material)).

Definition make_entry (domain : Z) (entry : MeshVariationDatabaseMergeDataEntry) : GM MeshVariationDatabaseEntry :=
  mesh ← GM_find domain (e_mesh entry);
  _ ← GM_addRef_found mesh;
  materials ← mapM (make_material domain) (e_materials entry);
  mret (mkEntry mesh materials (e_variationAssetNameHash entry)).

Definition empty_entry : MeshVariationDatabaseEntry := mkEntry 0 [] 0.

Fixpoint store_entries (domain : Z) (at_ : nat) (values : MeshVariationMergeData) (entries : list MeshVariationDatabaseEntry)
    : GM (list MeshVariationDatabaseEntry) :=
  match values with
  | [] => mret entries
  | value :: values =>
    entry ← make_entry domain value; store_entries domain (S at_) values (<[at_ := entry]> entries)
  end.

Definition MeshVariation_Modify (domain : Z) (clearRequired : bool) (data : MeshVariationMergeData) (db : MeshVariationDatabase)
    : GM (bool * MeshVariationDatabase) :=
  let db := if clearRequired then mkMeshDatabase [] [] else db in
  let addedCount := u32 (len data) in
  extended ← GM_lift (FBArray_extend empty_entry addedCount (Entries db));
  entries ← store_entries domain (length (Entries db)) (take (Z.to_nat addedCount) data) extended;
  mret (true, mkMeshDatabase entries (RedirectEntries db)).

(** ** Filling what was extended *)

Lemma insert_filled {A} (old filled : list A) (zero : A) (n : nat) (x : A) :
  <[(length old + length filled)%nat := x]> (old ++ filled ++ replicate (S n) zero) = old ++ (filled ++ [x]) ++ replicate n zero.
Proof.
  rewrite insert_app_r, insert_app_r_alt, Nat.sub_diag by lia. cbn. by rewrite <- !app_assoc.
Qed.

(** The loops that fill the new part of an array, one element for each value. *)
Section filling.
Context {A V : Type} (g0 : Game) (zero : A) (out : V -> A) (refs : V -> list Z)
  (store : nat -> list V -> list A -> GM (list A)).
Context (store_nil : forall n l, store n [] l = mret l).

Lemma runs_store old vs :
  (forall v, v ∈ vs -> forall n vs' l r, runs g0 (store (S n) vs' (<[n := out v]> l)) r (vs' ≫= refs) ->
     (default zero (l !! n) = zero) -> runs g0 (store n (v :: vs') l) r (refs v ++ (vs' ≫= refs))) ->
  runs g0 (store (length old) vs (old ++ replicate (length vs) zero)) (old ++ (out <$> vs)) (vs ≫= refs).
Proof.
  intros Hstep. assert (H : forall vs2 d, (forall v, v ∈ vs2 -> v ∈ vs) ->
    runs g0 (store (length old + length d)%nat vs2 (old ++ d ++ replicate (length vs2) zero)) (old ++ d ++ (out <$> vs2)) (vs2 ≫= refs)).
  { induction vs2 as [|v vs2 IH]; intros d Hin.
    - rewrite store_nil. cbn. rewrite app_nil_r. apply runs_ret.
    - cbn [length mbind list_bind]. apply Hstep; [apply Hin; by left| |].
      + rewrite insert_filled. replace (S (length old + length d)) with (length old + length (d ++ [out v]))%nat by (rewrite length_app; cbn; lia).
        replace (old ++ d ++ (out <$> v :: vs2)) with (old ++ (d ++ [out v]) ++ (out <$> vs2)) by (by rewrite <- (app_assoc d)).
        apply IH. intros x Hx. apply Hin. by right.
      + by rewrite lookup_app_r, lookup_app_r, Nat.add_comm, Nat.add_sub, Nat.sub_diag by lia. }
  specialize (H vs [] (fun v Hv => Hv)). cbn in H. by rewrite Nat.add_0_r in H.
Qed.
End filling.

Lemma take_u32 {A} (l : list A) : len l < 2 ^ 32 -> take (Z.to_nat (u32 (len l))) l = l.
Proof. intros H. rewrite uwrap_small by (unfold urange; lia). rewrite Nat2Z.id. by apply firstn_all. Qed.

Lemma FBArray_extend_ok {A} (zero : A) n (l : list A) :
  len l + Z.of_nat n < 2 ^ 32 -> FBArray_extend zero (u32 (Z.of_nat n)) l = Ok (l ++ replicate n zero).
Proof.
  intros H. unfold FBArray_extend. rewrite uwrap_small by (unfold urange; lia).
  rewrite (proj2 (Z.leb_gt _ _)), Nat2Z.id by lia. done.
Qed.

Lemma existsb_null l : existsb (Z.eqb 0) l = bool_decide (0 ∈ l).
Proof.
  induction l as [|x l IH]; [done|]. cbn [existsb]. rewrite IH. destruct (Z.eqb_spec 0 x) as [<-|H].
  - symmetry. by apply bool_decide_eq_true, list_elem_of_here.
  - apply bool_decide_ext. rewrite elem_of_cons. naive_solver.
Qed.

(** *** Lists of references *)

Lemma store_references_runs g0 domain refs old :
  (forall ref, ref ∈ refs -> resolved g0 domain ref <> 0) ->
  runs g0 (store_references domain (length old) refs (old ++ replicate (length refs) 0))
    (old ++ (resolved g0 domain <$> refs)) (resolved g0 domain <$> refs).
Proof.
  intros H. rewrite <- (bind_singles (resolved g0 domain) refs) at 2.
  apply (runs_store g0 0 (resolved g0 domain) (fun ref => [resolved g0 domain ref])); [done|].
  intros v Hv n vs l r Hr _. cbn [store_references]. apply (runs_bind g0 _ _ (resolved g0 domain v) _ [] _); [apply runs_find|].
  apply (runs_bind g0 _ _ tt _ [_] _); [|done]. by apply runs_addRef, H.
Qed.

Lemma UIMetaData_Modify_runs g0 domain data assets :
  0 ∉ assets -> len assets + len data < 2 ^ 32 -> (forall ref, ref ∈ data -> resolved g0 domain ref <> 0) ->
  runs g0 (UIMetaData_Modify domain data assets) (true, assets ++ (resolved g0 domain <$> data)) (resolved g0 domain <$> data).
Proof.
  intros Hnull Hlen H. unfold UIMetaData_Modify. rewrite existsb_null, bool_decide_false, take_u32 by (done || lia).
  apply (runs_bind g0 _ _ (assets ++ replicate (length data) 0) _ [] _); [by apply runs_lift, FBArray_extend_ok|].
  eapply runs_last; [by apply store_references_runs|apply runs_ret].
Qed.

Lemma ProfileOptions_UIMetaData domain data options : ProfileOptions_Modify domain data options = UIMetaData_Modify domain data options.
Proof. done. Qed.

Lemma UIMetaData_Modify_retry domain data assets g :
  0 ∈ assets -> UIMetaData_Modify domain data assets g = Ok ((false, assets), g).
Proof. intros H. unfold UIMetaData_Modify. by rewrite existsb_null, bool_decide_true. Qed.

(** A reference that is not found is dereferenced all the same. *)
Lemma store_references_unresolved g0 domain refs n l g :
  finds_like g g0 -> (exists ref, ref ∈ refs /\ resolved g0 domain ref = 0) ->
  store_references domain n refs l g = Fault Undefined.
Proof.
  intros Hg Hex. revert n l g Hg. induction refs as [|r refs IH]; intros n l g Hg.
  { by destruct Hex as (ref & Hin%elem_of_nil & _). }
  cbn [store_references]. unfold mbind at 1, GM_bind, GM_find.
  destruct (findDataContainer_pair domain r g) as (g1 & -> & Hg1). assert (Hg1' : finds_like g1 g0) by by rewrite Hg1.
  unfold mbind, GM_addRef. rewrite Hg. unfold addRef. destruct (Z.eqb_spec (resolved g0 domain r) 0) as [|Hr]; [done|].
  destruct (refCounts g1 !! _) as [m|]; [|done]. cbn. apply IH.
  - destruct Hex as (ref & [->|Hin]%elem_of_cons & H0); [done|]. by exists ref.
  - by rewrite finds_like_set_refCounts.
Qed.

Lemma UIMetaData_Modify_unresolved domain data assets g :
  0 ∉ assets -> len assets + len data < 2 ^ 32 -> (exists ref, ref ∈ data /\ resolved g domain ref = 0) ->
  UIMetaData_Modify domain data assets g = Fault Undefined.
Proof.
  intros Hnull Hlen H. unfold UIMetaData_Modify. rewrite existsb_null, bool_decide_false, take_u32 by (done || lia).
  unfold mbind, GM_bind, GM_lift. rewrite FBArray_extend_ok by done. by rewrite (store_references_unresolved g).
Qed.

(** *** Network registries *)

Definition filled (first x : Z) : Z := if x =? 0 then first else x.

Lemma fill_null_at x0 pre x todo :
  (pre ++ x :: todo) !! 0%nat = Some x0 -> fill_null (pre ++ x :: todo) (length pre) = pre ++ filled x0 x :: todo.
Proof.
  intros H0. unfold fill_null, filled. rewrite H0, list_lookup_middle by done. cbn [default from_option].
  unfold id. destruct (x =? 0); [|done]. by rewrite insert_app_r_alt, Nat.sub_diag by done.
Qed.

Lemma fill_null_from x0 todo pre :
  (todo <> [] -> (pre ++ todo) !! 0%nat = Some x0) ->
  foldl fill_null (pre ++ todo) (seq (length pre) (length todo)) = pre ++ (filled x0 <$> todo).
Proof.
  revert pre. induction todo as [|x todo IH]; intros pre H0; [done|]. cbn [length seq foldl].
  rewrite (fill_null_at x0) by by apply H0.
  replace (pre ++ filled x0 x :: todo) with ((pre ++ [filled x0 x]) ++ todo) by by rewrite <- app_assoc.
  replace (S (length pre)) with (length (pre ++ [filled x0 x])) by (rewrite length_app; cbn; lia).
  rewrite IH; [by rewrite <- app_assoc|]. intros _. specialize (H0 ltac:(done)). destruct pre as [|p pre]; [|done].
  cbn in *. injection H0 as ->. unfold filled. by destruct (x0 =? 0).
Qed.

Lemma fill_null_all objects :
  foldl fill_null objects (seq 0 (length objects)) = filled (default 0 (objects !! O)) <$> objects.
Proof. apply (fill_null_from _ objects []). intros H. by destruct objects. Qed.

(** The registry is extended whatever it held and whatever was found: what was
    null is the first object again, and what was not found stays null. *)
Lemma store_objects_runs g0 domain refs old :
  runs g0 (store_objects domain (length old) refs (old ++ replicate (length refs) 0)) (old ++ (resolved g0 domain <$> refs)) [].
Proof.
  rewrite <- (bind_nils (B := Z) refs).
  apply (runs_store g0 0 (resolved g0 domain) (fun _ => [])); [done|].
  intros v _ n vs l r Hr Hz. cbn [store_objects]. apply (runs_bind g0 _ _ (resolved g0 domain v) _ [] _); [apply runs_find|].
  destruct (Z.eqb_spec (resolved g0 domain v) 0) as [E|_]; [|done]. rewrite E in Hr. cbn [app].
  replace l with (<[n := 0]> l); [done|]. destruct (l !! n) as [y|] eqn:El.
  - cbn in Hz. subst y. by apply list_insert_id.
  - apply list_insert_ge. by apply lookup_ge_None.
Qed.

Lemma NetworkRegistry_Modify_runs g0 domain clearRequired data objects :
  len objects + len data < 2 ^ 32 ->
  runs g0 (NetworkRegistry_Modify domain clearRequired data objects)
    (true, (if clearRequired then [] else filled (default 0 (objects !! O)) <$> objects) ++ (resolved g0 domain <$> data)) [].
Proof.
  intros Hlen. unfold NetworkRegistry_Modify. rewrite fill_null_all, take_u32 by lia.
  set (old := if clearRequired then [] else _).
  assert (Hold : len old <= len objects) by (unfold old; destruct clearRequired; cbn; rewrite ?length_fmap; lia).
  apply (runs_bind g0 _ _ (old ++ replicate (length data) 0) _ [] _); [apply runs_lift, FBArray_extend_ok; lia|].
  eapply runs_last; [apply store_objects_runs|apply runs_ret].
Qed.

(** *** Mesh variations *)

Section meshes.
Context (g0 : Game) (domain : Z).

(** What the data stand for, and the objects referred to on the way. *)
Definition texture_of (t : TextureShaderParameterMergeData) : TextureShaderParameter :=
  mkTexture (resolved g0 domain (t_value t)) (c_str (t_parameterName t)).
Definition material_of (m : MeshVariationDatabaseMergeDataMaterial) : MeshVariationDatabaseMaterial :=
  mkMaterial (resolved g0 domain (m_material m)) (resolved g0 domain (m_materialVariation m)) (u64 (m_materialId m))
    (texture_of <$> m_textureParameters m) (m_surfaceShaderGuid m) (m_surfaceShaderId m).
Definition entry_of (e : MeshVariationDatabaseMergeDataEntry) : MeshVariationDatabaseEntry :=
  mkEntry (resolved g0 domain (e_mesh e)) (material_of <$> e_materials e) (e_variationAssetNameHash e).

Definition texture_refs (t : TextureShaderParameterMergeData) : list Z := [resolved g0 domain (t_value t)].
Definition material_refs (m : MeshVariationDatabaseMergeDataMaterial) : list Z :=
  resolved g0 domain (m_material m) :: (m_textureParameters m ≫= texture_refs).
Definition entry_refs (e : MeshVariationDatabaseMergeDataEntry) : list Z :=
  resolved g0 domain (e_mesh e) :: (e_materials e ≫= material_refs).

Lemma make_texture_runs t : runs g0 (make_texture domain t) (texture_of t) (texture_refs t).
Proof.
  apply (runs_bind g0 _ _ (resolved g0 domain (t_value t)) _ [] _); [apply runs_find|].
  eapply runs_last; [apply runs_addRef_found|apply runs_ret].
Qed.

Lemma make_material_runs m : runs g0 (make_material domain m) (material_of m) (material_refs m).
Proof.
  apply (runs_bind g0 _ _ (resolved g0 domain (m_material m)) _ [] _); [apply runs_find|].
  apply (runs_bind g0 _ _ (resolved g0 domain (m_materialVariation m)) _ [] _); [apply runs_find|].
  apply (runs_bind g0 _ _ tt _ [_] _); [apply runs_addRef_found|].
  eapply runs_last; [apply runs_mapM; intros t _; apply make_texture_runs|apply runs_ret].
Qed.

Lemma make_entry_runs e : runs g0 (make_entry domain e) (entry_of e) (entry_refs e).
Proof.
  apply (runs_bind g0 _ _ (resolved g0 domain (e_mesh e)) _ [] _); [apply runs_find|].
  apply (runs_bind g0 _ _ tt _ [_] _); [apply runs_addRef_found|].
  eapply runs_last; [apply runs_mapM; intros m _; apply make_material_runs|apply runs_ret].
Qed.

Lemma MeshVariation_Modify_runs clearRequired data db :
  len (Entries db) + len data < 2 ^ 32 ->
  runs g0 (MeshVariation_Modify domain clearRequired data db)
    (true, mkMeshDatabase ((if clearRequired then [] else Entries db) ++ (entry_of <$> data))
                          (if clearRequired then [] else RedirectEntries db))
    (data ≫= entry_refs).
Proof.
  intros Hlen. unfold MeshVariation_Modify. rewrite take_u32 by lia. set (db' := if clearRequired then _ else _).
  assert (Hold : len (Entries db') <= len (Entries db)) by (unfold db'; destruct clearRequired; cbn; lia).
  replace (if clearRequired then [] else Entries db) with (Entries db') by (unfold db'; by destruct clearRequired).
  replace (if clearRequired then [] else RedirectEntries db) with (RedirectEntries db') by (unfold db'; by destruct clearRequired).
  apply (runs_bind g0 _ _ (Entries db' ++ replicate (length data) empty_entry) _ [] _); [apply runs_lift, FBArray_extend_ok; lia|].
  eapply runs_last; [|apply runs_ret]. apply (runs_store g0 empty_entry entry_of entry_refs); [done|].
  intros v _ n vs l r Hr _. cbn [store_entries]. apply (runs_bind g0 _ _ (entry_of v)); [apply make_entry_runs|done].
Qed.
End meshes.
