(* ===== verification/TeamData.v ===== *)
(** [WSTeamDataHandler] (Source/ModLoader/Handlers/WSTeamDataHandler.cpp): the
    kits of a team, as mods change them.

    A team points at ten kit lists, five collections of character ids and five of
    class ids. Objects are known by their addresses and may be shared: two fields
    may point at the same list, and so may other teams. *)

From stdpp Require Import functions.
From S2P Require Import Prelude OrdMap ByteBuffer StringUtils Guid.
From S2P Require Import DataContainers.

(** The kinds of kits; the fields of a team that exist once for each are functions
    of it. *)
Inductive TeamKind := Soldiers | SpecialSoldiers | Heroes | Vehicles | HeroVehicles.

#[export] Instance TeamKind_eq_dec : EqDecision TeamKind.
Proof. solve_decision. Defined.

Record TeamKitMergeData := mkKit { kitRef : EbxImportReference; classIdentifier : Z; gpIdentifier : Z }.

#[export] Instance TeamKitMergeData_eq_dec : EqDecision TeamKitMergeData.
Proof. solve_decision. Defined.

Record WSTeamDataMergeData := mkTeamMerge {
  isAdded : bool;
  td_partitionGuid : Guid;
  td_rootInstanceGuid : Guid;
  td_internalId : Z;
  td_wsFaction : EbxImportReference;
  td_wsPlanetId : Z;
  (** [soldiers], [specialSoldiers], [heroes], [vehicles], [heroVehicles] *)
  td_kits : TeamKind -> list TeamKitMergeData;
  (** [apSoldiers], [apSpecialSoldiers], [apHeroes], [apVehicles], [apHeroVehicles] *)
  td_apKits : TeamKind -> list EbxImportReference;
  td_allPlayerAbilities : list EbxImportReference;
}.

Definition zero_ref : EbxImportReference := mkRef guid_zero guid_zero.

(** What [new T()] makes of it. *)
Definition WSTeamDataMergeData_new : WSTeamDataMergeData :=
  mkTeamMerge false guid_zero guid_zero 0 zero_ref 0 (fun _ => []) (fun _ => []) [].

Definition set_wsFaction (r : EbxImportReference) (d : WSTeamDataMergeData) : WSTeamDataMergeData :=
  mkTeamMerge (isAdded d) (td_partitionGuid d) (td_rootInstanceGuid d) (td_internalId d) r (td_wsPlanetId d)
    (td_kits d) (td_apKits d) (td_allPlayerAbilities d).
Definition set_kits (k : TeamKind) (l : list TeamKitMergeData) (d : WSTeamDataMergeData) : WSTeamDataMergeData :=
  mkTeamMerge (isAdded d) (td_partitionGuid d) (td_rootInstanceGuid d) (td_internalId d) (td_wsFaction d) (td_wsPlanetId d)
    (<[k := l]> (td_kits d)) (td_apKits d) (td_allPlayerAbilities d).
Definition set_apKits (k : TeamKind) (l : list EbxImportReference) (d : WSTeamDataMergeData) : WSTeamDataMergeData :=
  mkTeamMerge (isAdded d) (td_partitionGuid d) (td_rootInstanceGuid d) (td_internalId d) (td_wsFaction d) (td_wsPlanetId d)
    (td_kits d) (<[k := l]> (td_apKits d)) (td_allPlayerAbilities d).
Definition set_abilities (l : list EbxImportReference) (d : WSTeamDataMergeData) : WSTeamDataMergeData :=
  mkTeamMerge (isAdded d) (td_partitionGuid d) (td_rootInstanceGuid d) (td_internalId d) (td_wsFaction d) (td_wsPlanetId d)
    (td_kits d) (td_apKits d) l.
Definition set_added (added : bool) (p r : Guid) (id planet : Z) (d : WSTeamDataMergeData) : WSTeamDataMergeData :=
  mkTeamMerge added p r id (td_wsFaction d) planet (td_kits d) (td_apKits d) (td_allPlayerAbilities d).

(** ** [Load] *)

(** A vector cannot reserve a negative count. *)
Definition read_count : Rd nat :=
  count ← bb_getInt;
  if i32 count <? 0 then Rd_fault Thrown else mret (Z.to_nat (i32 count)).

Definition read_kit : Rd TeamKitMergeData :=
  ref ← parseReference; class ← bb_getInt; gp ← bb_getInt; mret (mkKit ref class gp).

(** One kind of the old format: what is read is added to what is there. *)
Definition load_kind (d : WSTeamDataMergeData) (k : TeamKind) : Rd WSTeamDataMergeData :=
  n ← read_count; kits ← Rd_repeat n read_kit;
  let d := set_kits k (td_kits d k ++ kits) d in
  n ← read_count; refs ← Rd_repeat n parseReference;
  mret (set_apKits k (td_apKits d k ++ refs) d).

Fixpoint load_kinds (ks : list TeamKind) (d : WSTeamDataMergeData) : Rd WSTeamDataMergeData :=
  match ks with
  | [] => mret d
  | k :: ks => d ← load_kind d k; load_kinds ks d
  end.

(** In the order of the old format, and of [Modify]. *)
Definition all_kinds : list TeamKind := [Soldiers; SpecialSoldiers; Heroes; Vehicles; HeroVehicles].

Definition LoadLegacy (d : WSTeamDataMergeData) : Rd WSTeamDataMergeData :=
  faction ← parseReference2;
  d ← load_kinds all_kinds (set_wsFaction faction d);
  remaining ← Rd_gets bb_bytesRemaining;
  mret (if remaining =? 0 then
          set_wsFaction (mkRef (instanceGuid (td_wsFaction d)) (partitionGuid (td_wsFaction d))) d
        else d).

(** The flag read last is not used. *)
Definition read_kit2 : Rd TeamKitMergeData :=
  ref ← parseReference2; class ← bb_getInt; gp ← bb_getInt; _ ← bb_get; mret (mkKit ref class gp).

Definition ReadTeamDataKitReferences : Rd (list TeamKitMergeData) := n ← read_count; Rd_repeat n read_kit2.
Definition ReadPointerRefs : Rd (list EbxImportReference) := n ← read_count; Rd_repeat n parseReference2.

Definition kHandlerVersion : Z := 3.

(** One kind of the new format: what is read takes the place of what is there. *)
Definition replace_kind (d : WSTeamDataMergeData) (k : TeamKind) : Rd WSTeamDataMergeData :=
  kits ← ReadTeamDataKitReferences; refs ← ReadPointerRefs;
  mret (set_apKits k refs (set_kits k kits d)).

Fixpoint replace_kinds (ks : list TeamKind) (d : WSTeamDataMergeData) : Rd WSTeamDataMergeData :=
  match ks with
  | [] => mret d
  | k :: ks => d ← replace_kind d k; replace_kinds ks d
  end.

Definition new_kinds : list TeamKind := [Soldiers; Heroes; SpecialSoldiers; Vehicles; HeroVehicles].

(** The header of the new format. *)
Definition load_added (d : WSTeamDataMergeData) : Rd WSTeamDataMergeData :=
  flag ← bb_get;
  if flag =? 1 then
    p ← Guid_readLE; r ← Guid_readLE; id ← bb_getInt; planet ← bb_getInt;
    mret (set_added true p r (i32 id) planet d)
  else
    planet ← bb_getInt;
    mret (set_added false (td_partitionGuid d) (td_rootInstanceGuid d) (td_internalId d) planet d).

Definition WSTeamData_Load (d : WSTeamDataMergeData) : Rd WSTeamDataMergeData :=
  d ← LoadLegacy d;
  remaining ← Rd_gets bb_bytesRemaining;
  if remaining =? 0 then mret d else
  magic ← bb_getNullTerminatedString; version ← bb_getInt;
  if negb (bool_decide (magic = bstr "MopMagicMopMagic")) || (kHandlerVersion <? i32 version) then mret d else
  if i32 version =? 2 then mret d else
  d ← load_added d;
  d ← replace_kinds new_kinds d;
  if isAdded d then abilities ← ReadPointerRefs; mret (set_abilities abilities d) else mret d.

(** ** [PreModify] *)

(** The identity of a partition that is being read: its guid, and the guid of its
    primary instance with the flag that it has one. *)
Record PartitionInit := mkInit { pi_partitionGuid : Guid; pi_instanceGuid : Guid; pi_hasGuid : bool }.

Definition WSTeamData_PreModify (d : WSTeamDataMergeData) (init : PartitionInit) : PartitionInit :=
  if isAdded d then mkInit (td_partitionGuid d) (td_rootInstanceGuid d) true else init.

(** ** [Modify] *)

(** *** Objects behind the fields of a team *)

(** Some pointer fields, and the objects of their type: a null pointer is made to
    point at a new object before something is stored behind it. *)
Record Cells (I A : Type) := mkCells { ptr : I -> Z; objs : gmap Z A }.
Arguments mkCells {I A}.
Arguments ptr {I A}.
Arguments objs {I A}.

Section cells.
Context {I A : Type} `{EqDecision I}.

Definition ensure (empty : A) (i : I) (c : Cells I A) (next : Z) : Cells I A * Z :=
  if ptr c i =? 0 then (mkCells (<[i := next]> (ptr c)) (<[next := empty]> (objs c)), next + 1) else (c, next).

Definition store (i : I) (v : A) (c : Cells I A) : result (Cells I A) :=
  _ ← of_option Undefined (objs c !! ptr c i);
  Ok (mkCells (ptr c) (<[ptr c i := v]> (objs c))).

(** What a field points at. *)
Definition cell (c : Cells I A) (i : I) : option A := if ptr c i =? 0 then None else objs c !! ptr c i.

(** Pointers point at objects of the heap, no two at the same, and [next] is
    above all addresses. *)
Record cells_ok (c : Cells I A) (next : Z) : Prop := {
  cells_next : 0 < next;
  cells_below : forall p, is_Some (objs c !! p) -> p < next;
  cells_live : forall i, ptr c i <> 0 -> is_Some (objs c !! ptr c i);
  cells_distinct : forall i j, ptr c i <> 0 -> ptr c i = ptr c j -> i = j;
}.

Lemma cells_ok_next c next next' : cells_ok c next -> next <= next' -> cells_ok c next'.
Proof. intros [H1 H2 H3 H4] Hn. split; [lia| |done|done]. intros p Hp. specialize (H2 p Hp). lia. Qed.

Lemma ensure_spec empty i c next :
  cells_ok c next ->
  let r := ensure empty i c next in
  cells_ok r.1 r.2 /\ next <= r.2 /\ ptr r.1 i <> 0 /\ (forall j, j <> i -> cell r.1 j = cell c j /\ ptr r.1 j = ptr c j) /\
  (ptr c i <> 0 -> r.1 = c).
Proof.
  intros [H1 H2 H3 H4]. unfold ensure. destruct (Z.eqb_spec (ptr c i) 0) as [E|E]; cbn.
  - split; [split; cbn|split_and!; try done].
    + lia.
    + intros p. destruct (decide (p = next)) as [->|]; [lia|]. rewrite lookup_insert_ne by done. intros Hp. specialize (H2 p Hp). lia.
    + intros j. destruct (decide (j = i)) as [->|].
      * rewrite fn_lookup_insert, lookup_insert_eq. by eexists.
      * rewrite fn_lookup_insert_ne by done. intros Hj. destruct (decide (ptr c j = next)) as [->|].
        { rewrite lookup_insert_eq. by eexists. }
        rewrite lookup_insert_ne by done. by apply H3.
    + assert (Hfresh : forall j, ptr c j <> 0 -> ptr c j <> next) by (intros j Hj ->%eq_sym; specialize (H2 _ (H3 j Hj)); lia).
      intros j k. destruct (decide (j = i)) as [->|], (decide (k = i)) as [->|]; try done;
        rewrite ?fn_lookup_insert, ?(fn_lookup_insert_ne _ i) by done.
      * intros Hn Hk. exfalso. eapply (Hfresh k); [by rewrite <- Hk|done].
      * intros Hn Hj. exfalso. by apply (Hfresh j).
      * apply H4.
    + lia.
    + rewrite fn_lookup_insert. lia.
    + intros j Hj. unfold cell. cbn. rewrite fn_lookup_insert_ne by done. split; [|done].
      destruct (Z.eqb_spec (ptr c j) 0); [done|]. apply lookup_insert_ne. intros Hn. specialize (H2 _ (H3 j ltac:(done))). lia.
  - split_and!; try done.
Qed.

Lemma store_spec i v c next :
  cells_ok c next -> ptr c i <> 0 ->
  exists c', store i v c = Ok c' /\ cells_ok c' next /\ cell c' i = Some v /\ ptr c' = ptr c /\
    (forall j, j <> i -> cell c' j = cell c j).
Proof.
  intros [H1 H2 H3 H4] Hi. destruct (H3 i Hi) as [x Hx]. unfold store. rewrite Hx. cbn. eexists. split; [done|].
  split; [split; cbn|split_and!].
  - done.
  - intros p. destruct (decide (p = ptr c i)) as [->|]; [intros _; by apply H2|]. rewrite lookup_insert_ne by done. apply H2.
  - intros j Hj. destruct (decide (ptr c j = ptr c i)) as [->|]; [rewrite lookup_insert_eq; by eexists|].
    rewrite lookup_insert_ne by done. by apply H3.
  - done.
  - unfold cell. cbn. rewrite (proj2 (Z.eqb_neq _ _)) by done. by rewrite lookup_insert_eq.
  - done.
  - intros j Hj. unfold cell. cbn. destruct (Z.eqb_spec (ptr c j) 0); [done|]. apply lookup_insert_ne.
    intros E. apply Hj. by apply H4.
Qed.
End cells.

(** *** The team *)

(** The ten kit lists: [Soldiers], ... and [AutoPlayerSoldiers], ... *)
Inductive Slot := Players (k : TeamKind) | AutoPlayers (k : TeamKind).

#[export] Instance Slot_eq_dec : EqDecision Slot.
Proof. solve_decision. Defined.

(** A team, with the lists and collections of the game and the address the next
    object gets. A [CharacterIdData] is new whenever it is stored and is the pair
    of its class and character. *)
Record WSTeamData := mkTeam {
  WSFaction : Z;
  WSPlanetId : Z;
  kitLists : Cells Slot (list Z);
  idCollections : Cells TeamKind (list (Z * Z));
  classIdCollections : Cells TeamKind (list Z);
  AllPlayerAbilities : list Z;
  next : Z;
}.

Definition add_class (loggedClasses : list Z) (c : Z) : list Z :=
  if bool_decide (c ∈ loggedClasses) then loggedClasses else loggedClasses ++ [c].

(** Every element of the arrays [init] allocates is assigned. *)
Definition Merge (domain : Z) (source : list TeamKitMergeData) (k : TeamKind) (t : WSTeamData) : GM WSTeamData :=
  kits ← mapM (fun kit => GM_find domain (kitRef kit)) source;
  kitLists ← GM_lift (store (Players k) kits (kitLists t));
  idCollections ← GM_lift (store k ((fun kit => (classIdentifier kit, gpIdentifier kit)) <$> source) (idCollections t));
  classIdCollections ← GM_lift (store k (foldl add_class [] (classIdentifier <$> source)) (classIdCollections t));
  mret (mkTeam (WSFaction t) (WSPlanetId t) kitLists idCollections classIdCollections (AllPlayerAbilities t) (next t)).

Definition MergeAP (domain : Z) (source : list EbxImportReference) (k : TeamKind) (t : WSTeamData) : GM WSTeamData :=
  kits ← mapM (GM_find domain) source;
  kitLists ← GM_lift (store (AutoPlayers k) kits (kitLists t));
  mret (mkTeam (WSFaction t) (WSPlanetId t) kitLists (idCollections t) (classIdCollections t) (AllPlayerAbilities t) (next t)).

Definition add_unique {A} `{EqDecision A} (unique : list A) (data : A) : list A :=
  if existsb (fun kit => bool_decide (kit = data)) unique then unique else unique ++ [data].
Definition removeDuplicates {A} `{EqDecision A} (source : list A) : list A := foldl add_unique [] source.

Definition implement_merge (domain : Z) (d : WSTeamDataMergeData) (k : TeamKind) (t : WSTeamData) : GM WSTeamData :=
  if bool_decide (td_kits d k = []) then mret t else
  let '(kitLists, n) := ensure [] (Players k) (kitLists t) (next t) in
  let '(idCollections, n) := ensure [] k (idCollections t) n in
  let '(classIdCollections, n) := ensure [] k (classIdCollections t) n in
  Merge domain (removeDuplicates (td_kits d k)) k
    (mkTeam (WSFaction t) (WSPlanetId t) kitLists idCollections classIdCollections (AllPlayerAbilities t) n).

Definition implement_merge_ap (domain : Z) (d : WSTeamDataMergeData) (k : TeamKind) (t : WSTeamData) : GM WSTeamData :=
  if bool_decide (td_apKits d k = []) then mret t else
  let '(kitLists, n) := ensure [] (AutoPlayers k) (kitLists t) (next t) in
  MergeAP domain (removeDuplicates (td_apKits d k)) k
    (mkTeam (WSFaction t) (WSPlanetId t) kitLists (idCollections t) (classIdCollections t) (AllPlayerAbilities t) n).

Fixpoint merge_kinds (domain : Z) (d : WSTeamDataMergeData) (ks : list TeamKind) (t : WSTeamData) : GM WSTeamData :=
  match ks with
  | [] => mret t
  | k :: ks => t ← implement_merge domain d k t; t ← implement_merge_ap domain d k t; merge_kinds domain d ks t
  end.

Definition set_faction (domain : Z) (d : WSTeamDataMergeData) (t : WSTeamData) : GM WSTeamData :=
  if isAdded d then
    faction ← GM_find domain (td_wsFaction d);
    mret (mkTeam faction (td_wsPlanetId d) (kitLists t) (idCollections t) (classIdCollections t) (AllPlayerAbilities t) (next t))
  else mret t.

Definition set_player_abilities (domain : Z) (d : WSTeamDataMergeData) (t : WSTeamData) : GM WSTeamData :=
  if bool_decide (td_allPlayerAbilities d = []) then mret t else
  abilities ← mapM (GM_find domain) (td_allPlayerAbilities d);
  mret (mkTeam (WSFaction t) (WSPlanetId t) (kitLists t) (idCollections t) (classIdCollections t) abilities (next t)).

Definition WSTeamData_Modify (domain : Z) (d : WSTeamDataMergeData) (t : WSTeamData) : GM (bool * WSTeamData) :=
  t ← set_faction domain d t;
  t ← merge_kinds domain d all_kinds t;
  t ← set_player_abilities domain d t;
  mret (true, t).

(** ** Removing duplicates *)

Section duplicates.
Context {A : Type} `{EqDecision A}.
Implicit Types l acc : list A.

Lemma existsb_elem x acc : existsb (fun y => bool_decide (y = x)) acc = bool_decide (x ∈ acc).
Proof.
  induction acc as [|y acc IH]; [done|]. cbn [existsb]. rewrite IH. destruct (decide (y = x)) as [->|Hn].
  - rewrite bool_decide_true by done. symmetry. by apply bool_decide_eq_true, list_elem_of_here.
  - rewrite (bool_decide_false (y = x)) by done. cbn [orb]. apply bool_decide_ext. rewrite elem_of_cons. naive_solver.
Qed.

Lemma add_unique_spec acc x : add_unique acc x = if decide (x ∈ acc) then acc else acc ++ [x].
Proof. unfold add_unique. rewrite existsb_elem. destruct (decide (x ∈ acc)); [by rewrite bool_decide_true|by rewrite bool_decide_false]. Qed.

(** The elements of a list in the order of their first occurrence: what is
    dropped is exactly what occurred before. *)
Lemma removeDuplicates_snoc l x :
  removeDuplicates (l ++ [x]) = if decide (x ∈ l) then removeDuplicates l else removeDuplicates l ++ [x].
Proof.
  unfold removeDuplicates. rewrite foldl_app. cbn [foldl]. rewrite add_unique_spec.
  assert (Hin : forall l acc, x ∈ foldl add_unique acc l <-> x ∈ acc \/ x ∈ l).
  { clear l. induction l as [|y l IH]; intros acc; cbn [foldl]; [rewrite elem_of_nil; naive_solver|].
    rewrite IH, add_unique_spec, elem_of_cons. case_decide; rewrite ?elem_of_app, ?list_elem_of_singleton; naive_solver. }
  destruct (decide (x ∈ l)) as [H|H].
  - rewrite decide_True; [done|]. apply Hin. by right.
  - rewrite decide_False; [done|]. rewrite Hin, elem_of_nil. naive_solver.
Qed.

Lemma elem_of_removeDuplicates l x : x ∈ removeDuplicates l <-> x ∈ l.
Proof.
  induction l as [|y l IH] using rev_ind; [done|]. rewrite removeDuplicates_snoc, elem_of_app, list_elem_of_singleton.
  case_decide; [|rewrite elem_of_app, list_elem_of_singleton]; naive_solver.
Qed.

Lemma NoDup_removeDuplicates l : NoDup (removeDuplicates l).
Proof.
  induction l as [|y l IH] using rev_ind; [constructor|]. rewrite removeDuplicates_snoc. case_decide; [done|].
  apply list.NoDup_app. split; [done|]. split; [|apply NoDup_singleton].
  intros x. rewrite elem_of_removeDuplicates, list_elem_of_singleton. congruence.
Qed.

Lemma removeDuplicates_prefix l k : removeDuplicates l `prefix_of` removeDuplicates (l ++ k).
Proof.
  induction k as [|x k IH] using rev_ind; [by rewrite app_nil_r|]. rewrite app_assoc, removeDuplicates_snoc.
  case_decide; [done|]. by apply prefix_app_r.
Qed.

(** [u] are the elements of [l], each once, in the order of first occurrence. *)
Definition dedup_of l (u : list A) : Prop :=
  NoDup u /\ (forall x, x ∈ u <-> x ∈ l) /\
  forall l1 x l2, l = l1 ++ x :: l2 -> x ∉ l1 -> exists u1 u2, u = u1 ++ x :: u2 /\ forall y, y ∈ u1 <-> y ∈ l1.

Lemma removeDuplicates_dedup l : dedup_of l (removeDuplicates l).
Proof.
  split; [apply NoDup_removeDuplicates|]. split; [intros x; apply elem_of_removeDuplicates|].
  intros l1 x l2 -> Hx. destruct (removeDuplicates_prefix (l1 ++ [x]) l2) as [u2 Hu].
  rewrite removeDuplicates_snoc, decide_False in Hu by done. exists (removeDuplicates l1), u2.
  rewrite <- !app_assoc in Hu. split; [done|]. intros y. apply elem_of_removeDuplicates.
Qed.
End duplicates.

Lemma add_class_unique acc c : add_class acc c = add_unique acc c.
Proof. rewrite add_unique_spec. unfold add_class. destruct (decide (c ∈ acc)); [by rewrite bool_decide_true|by rewrite bool_decide_false]. Qed.

Lemma foldl_add_class l acc : foldl add_class acc l = foldl add_unique acc l.
Proof. revert acc. induction l as [|c l IH]; intros acc; [done|]. cbn [foldl]. by rewrite add_class_unique, IH. Qed.

(** ** The team after [Modify] *)

Definition team_ok (t : WSTeamData) : Prop :=
  cells_ok (kitLists t) (next t) /\ cells_ok (idCollections t) (next t) /\ cells_ok (classIdCollections t) (next t).

Section modify.
Context (g0 : Game) (domain : Z) (d : WSTeamDataMergeData).

(** What the fields of a kind point at, from what they pointed at before. *)
Definition kits_after (s : Slot) (old : option (list Z)) : option (list Z) :=
  match s with
  | Players k => match td_kits d k with [] => old | kits => Some ((fun kit => resolved g0 domain (kitRef kit)) <$> removeDuplicates kits) end
  | AutoPlayers k => match td_apKits d k with [] => old | refs => Some (resolved g0 domain <$> removeDuplicates refs) end
  end.
Definition ids_after (k : TeamKind) (old : option (list (Z * Z))) : option (list (Z * Z)) :=
  match td_kits d k with [] => old | kits => Some ((fun kit => (classIdentifier kit, gpIdentifier kit)) <$> removeDuplicates kits) end.
Definition classes_after (k : TeamKind) (old : option (list Z)) : option (list Z) :=
  match td_kits d k with [] => old | kits => Some (removeDuplicates (classIdentifier <$> removeDuplicates kits)) end.

(** The fields of some kits and some auto players were brought up to date, and
    nothing else was. *)
Record updated (ps aps : TeamKind -> Prop) (t t' : WSTeamData) : Prop := {
  upd_ok : team_ok t';
  upd_faction : WSFaction t' = WSFaction t;
  upd_planet : WSPlanetId t' = WSPlanetId t;
  upd_abilities : AllPlayerAbilities t' = AllPlayerAbilities t;
  upd_players : forall k, ps k -> cell (kitLists t') (Players k) = kits_after (Players k) (cell (kitLists t) (Players k)) /\
    cell (idCollections t') k = ids_after k (cell (idCollections t) k) /\
    cell (classIdCollections t') k = classes_after k (cell (classIdCollections t) k);
  upd_autoPlayers : forall k, aps k -> cell (kitLists t') (AutoPlayers k) = kits_after (AutoPlayers k) (cell (kitLists t) (AutoPlayers k));
  upd_other : forall k, ~ ps k -> cell (kitLists t') (Players k) = cell (kitLists t) (Players k) /\
    cell (idCollections t') k = cell (idCollections t) k /\ cell (classIdCollections t') k = cell (classIdCollections t) k;
  upd_otherAuto : forall k, ~ aps k -> cell (kitLists t') (AutoPlayers k) = cell (kitLists t) (AutoPlayers k);
}.

Lemma updated_none t : team_ok t -> updated (fun _ => False) (fun _ => False) t t.
Proof. by split. Qed.

Lemma implement_merge_runs k t :
  team_ok t -> exists t', runs g0 (implement_merge domain d k t) t' [] /\ updated (fun j => j = k) (fun _ => False) t t'.
Proof.
  intros (H1 & H2 & H3). unfold implement_merge. destruct (td_kits d k) as [|kit0 kits0] eqn:Ek.
  { rewrite bool_decide_true by done. exists t. split; [apply runs_ret|].
    split; try done. intros j ->. unfold kits_after, ids_after, classes_after. by rewrite Ek. }
  rewrite bool_decide_false by done. set (kits := kit0 :: kits0) in *.
  destruct (ensure_spec [] (Players k) (kitLists t) (next t) H1) as (E1 & N1 & P1 & O1 & _).
  destruct (ensure [] (Players k) (kitLists t) (next t)) as [c1 n1]. cbn [fst snd] in *.
  destruct (ensure_spec [] k (idCollections t) n1 (cells_ok_next _ _ _ H2 N1)) as (E2 & N2 & P2 & O2 & _).
  destruct (ensure [] k (idCollections t) n1) as [c2 n2]. cbn [fst snd] in *.
  destruct (ensure_spec [] k (classIdCollections t) n2 (cells_ok_next _ _ _ H3 (Z.le_trans _ _ _ N1 N2))) as (E3 & N3 & P3 & O3 & _).
  destruct (ensure [] k (classIdCollections t) n2) as [c3 n3]. cbn [fst snd] in *.
  set (unique := removeDuplicates kits).
  destruct (store_spec (Players k) ((fun kit => resolved g0 domain (kitRef kit)) <$> unique) c1 n1 E1 P1) as (c1' & S1 & K1 & V1 & _ & W1).
  destruct (store_spec k ((fun kit => (classIdentifier kit, gpIdentifier kit)) <$> unique) c2 n2 E2 P2) as (c2' & S2 & K2 & V2 & _ & W2).
  destruct (store_spec k (foldl add_class [] (classIdentifier <$> unique)) c3 n3 E3 P3) as (c3' & S3 & K3 & V3 & _ & W3).
  exists (mkTeam (WSFaction t) (WSPlanetId t) c1' c2' c3' (AllPlayerAbilities t) n3). split.
  - unfold Merge. eapply runs_last; [apply runs_finds|]. cbn. eapply runs_last; [by apply runs_lift|].
    eapply runs_last; [by apply runs_lift|].
    eapply runs_last; [by apply runs_lift|]. apply runs_ret.
  - split; cbn; try done.
    + split_and!; cbn; [apply (cells_ok_next _ n1); [done|lia]|apply (cells_ok_next _ n2); [done|lia]|done].
    + intros j ->. unfold kits_after, ids_after, classes_after. rewrite Ek. fold kits.
      rewrite V1, V2, V3, foldl_add_class. done.
    + intros j Hj. rewrite W1, W2, W3 by congruence. destruct (O2 j Hj) as [-> _], (O3 j Hj) as [-> _].
      by destruct (O1 (Players j) ltac:(congruence)) as [-> _].
    + intros j _. rewrite W1 by done. by apply O1.
Qed.

Lemma implement_merge_ap_runs k t :
  team_ok t -> exists t', runs g0 (implement_merge_ap domain d k t) t' [] /\ updated (fun _ => False) (fun j => j = k) t t'.
Proof.
  intros (H1 & H2 & H3). unfold implement_merge_ap. destruct (td_apKits d k) as [|ref0 refs0] eqn:Ek.
  { rewrite bool_decide_true by done. exists t. split; [apply runs_ret|].
    split; try done. intros j ->. unfold kits_after. by rewrite Ek. }
  rewrite bool_decide_false by done. set (refs := ref0 :: refs0) in *.
  destruct (ensure_spec [] (AutoPlayers k) (kitLists t) (next t) H1) as (E1 & N1 & P1 & O1 & _).
  destruct (ensure [] (AutoPlayers k) (kitLists t) (next t)) as [c1 n1]. cbn [fst snd] in *.
  set (unique := removeDuplicates refs).
  destruct (store_spec (AutoPlayers k) (resolved g0 domain <$> unique) c1 n1 E1 P1) as (c1' & S1 & K1 & V1 & _ & W1).
  exists (mkTeam (WSFaction t) (WSPlanetId t) c1' (idCollections t) (classIdCollections t) (AllPlayerAbilities t) n1). split.
  - unfold MergeAP. eapply runs_last; [apply (runs_finds g0 domain id)|].
    cbn. eapply runs_last; [by apply runs_lift|]. apply runs_ret.
  - split; cbn; try done.
    + split_and!; cbn; [done|by apply (cells_ok_next _ (next t))..].
    + intros j ->. unfold kits_after. rewrite Ek. fold refs. done.
    + intros j _. rewrite W1 by done. split; [|done]. by apply O1.
    + intros j Hj. rewrite W1 by congruence. apply O1. congruence.
Qed.

Lemma updated_trans (ps aps ps' aps' : TeamKind -> Prop) t t1 t2 :
  (forall k, ps k -> ~ ps' k) -> (forall k, aps k -> ~ aps' k) ->
  updated ps aps t t1 -> updated ps' aps' t1 t2 -> updated (fun k => ps k \/ ps' k) (fun k => aps k \/ aps' k) t t2.
Proof.
  intros D3 D4.
  assert (D1 : forall k, ps' k -> ~ ps k) by (intros k H H'; by apply (D3 k)).
  assert (D2 : forall k, aps' k -> ~ aps k) by (intros k H H'; by apply (D4 k)).
  intros [A1 A2 A3 A4 A5 A6 A7 A8] [B1 B2 B3 B4 B5 B6 B7 B8]. split; [done|congruence..| | | |].
  - intros k [Hk|Hk].
    + destruct (B7 k (D3 k Hk)) as (-> & -> & ->). by apply A5.
    + destruct (B5 k Hk) as (-> & -> & ->). by destruct (A7 k (D1 k Hk)) as (-> & -> & ->).
  - intros k [Hk|Hk]; [rewrite (B8 k (D4 k Hk)); by apply A6|rewrite (B6 k Hk), (A8 k (D2 k Hk)); done].
  - intros k Hk. destruct (B7 k) as (-> & -> & ->); [tauto|]. apply A7. tauto.
  - intros k Hk. rewrite B8, A8 by tauto. done.
Qed.

Lemma merge_kinds_runs ks t :
  NoDup ks -> team_ok t ->
  exists t', runs g0 (merge_kinds domain d ks t) t' [] /\ updated (fun k => k ∈ ks) (fun k => k ∈ ks) t t'.
Proof.
  intros Hks. revert t. induction Hks as [|k ks Hk _ IH]; intros t Ht.
  { exists t. split; [apply runs_ret|]. split; try done; by intros k Hk%elem_of_nil. }
  destruct (implement_merge_runs k t Ht) as (t1 & R1 & U1).
  destruct (implement_merge_ap_runs k t1 (upd_ok _ _ _ _ U1)) as (t2 & R2 & U2).
  destruct (IH t2 (upd_ok _ _ _ _ U2)) as (t3 & R3 & U3). exists t3. split.
  - cbn [merge_kinds]. eapply runs_last; [exact R1|]. eapply runs_last; [exact R2|exact R3].
  - assert (U12 : updated (fun j => j = k \/ False) (fun j => False \/ j = k) t t2).
    { eapply updated_trans; [| |exact U1|exact U2]; cbn; tauto. }
    assert (U13 : updated (fun j => (j = k \/ False) \/ j ∈ ks) (fun j => (False \/ j = k) \/ j ∈ ks) t t3).
    { eapply updated_trans; [| |exact U12|exact U3]; cbn; intros j Hj Hin; apply Hk; naive_solver. }
    destruct U13 as [V1 V2 V3 V4 V5 V6 V7 V8].
    split; try done.
    + intros j Hj%elem_of_cons. apply V5. tauto.
    + intros j Hj%elem_of_cons. apply V6. tauto.
    + intros j Hj. rewrite elem_of_cons in Hj. apply V7. tauto.
    + intros j Hj. rewrite elem_of_cons in Hj. apply V8. tauto.
Qed.

Lemma set_faction_runs t :
  team_ok t -> exists t', runs g0 (set_faction domain d t) t' [] /\
    kitLists t' = kitLists t /\ idCollections t' = idCollections t /\ classIdCollections t' = classIdCollections t /\
    AllPlayerAbilities t' = AllPlayerAbilities t /\ next t' = next t /\
    WSFaction t' = (if isAdded d then resolved g0 domain (td_wsFaction d) else WSFaction t) /\
    WSPlanetId t' = (if isAdded d then td_wsPlanetId d else WSPlanetId t).
Proof.
  intros Ht. unfold set_faction. destruct (isAdded d).
  - eexists. split; [eapply runs_last; [apply runs_find|apply runs_ret]|done].
  - exists t. split; [apply runs_ret|done].
Qed.

Lemma set_player_abilities_runs t :
  exists t', runs g0 (set_player_abilities domain d t) t' [] /\
    t' = mkTeam (WSFaction t) (WSPlanetId t) (kitLists t) (idCollections t) (classIdCollections t)
      (if bool_decide (td_allPlayerAbilities d = []) then AllPlayerAbilities t else resolved g0 domain <$> td_allPlayerAbilities d) (next t).
Proof.
  eexists. split; [|done]. unfold set_player_abilities. case_bool_decide.
  - destruct t. apply runs_ret.
  - eapply runs_last; [apply (runs_finds g0 domain id)|apply runs_ret].
Qed.
End modify.

Lemma all_kinds_all k : k ∈ all_kinds.
Proof. destruct k; unfold all_kinds; rewrite !elem_of_cons; tauto. Qed.

Lemma all_kinds_NoDup : NoDup all_kinds.
Proof. by apply (bool_decide_unpack _). Qed.

(** A game whose counts are those of another and that finds the same is the same. *)
Lemma finds_like_equiv g g' : finds_like g' g -> counts_after [] (refCounts g) (refCounts g') -> g' ≡ g.
Proof.
  intros (H1 & H2 & H3 & _) Hc. split; [done|]. split; [done|]. split; [done|].
  apply map_eq. intros c. rewrite Hc. by destruct (c =? 0).
Qed.

(** C16: Whatever was loaded: [Modify] gives each kind of kits a mod brings the mod's
    kits, resolved and each once in the order of first occurrence, with their
    character ids alongside and the distinct classes among them; auto players
    likewise; a kind no mod brings keeps what it points at. No reference is
    counted. *)
Theorem WSTeamData_Modify_spec domain d t g :
  team_ok t ->
  exists t' g', WSTeamData_Modify domain d t g = Ok ((true, t'), g') /\ g' ≡ g /\ team_ok t' /\
    (forall k,
       if bool_decide (td_kits d k = []) then
         cell (kitLists t') (Players k) = cell (kitLists t) (Players k) /\
         cell (idCollections t') k = cell (idCollections t) k /\
         cell (classIdCollections t') k = cell (classIdCollections t) k
       else exists u cs, dedup_of (td_kits d k) u /\ dedup_of (classIdentifier <$> u) cs /\
         cell (kitLists t') (Players k) = Some ((fun kit => resolved g domain (kitRef kit)) <$> u) /\
         cell (idCollections t') k = Some ((fun kit => (classIdentifier kit, gpIdentifier kit)) <$> u) /\
         cell (classIdCollections t') k = Some cs) /\
    (forall k,
       if bool_decide (td_apKits d k = []) then cell (kitLists t') (AutoPlayers k) = cell (kitLists t) (AutoPlayers k)
       else exists u, dedup_of (td_apKits d k) u /\ cell (kitLists t') (AutoPlayers k) = Some (resolved g domain <$> u)) /\
    WSFaction t' = (if isAdded d then resolved g domain (td_wsFaction d) else WSFaction t) /\
    WSPlanetId t' = (if isAdded d then td_wsPlanetId d else WSPlanetId t) /\
    AllPlayerAbilities t' =
      (if bool_decide (td_allPlayerAbilities d = []) then AllPlayerAbilities t else resolved g domain <$> td_allPlayerAbilities d).
Proof.
  intros Ht. destruct (set_faction_runs g domain d t Ht) as (t1 & R1 & K1 & I1 & C1 & A1 & N1 & F1 & P1).
  assert (Ht1 : team_ok t1) by (unfold team_ok; by rewrite K1, I1, C1, N1).
  destruct (merge_kinds_runs g domain d all_kinds t1 all_kinds_NoDup Ht1) as (t2 & R2 & [O2 F2 P2 A2 U1 U2 _ _]).
  destruct (set_player_abilities_runs g domain d t2) as (t3 & R3 & E3).
  assert (R : runs g (WSTeamData_Modify domain d t) (true, t3) []).
  { eapply runs_last; [exact R1|]. eapply runs_last; [exact R2|]. eapply runs_last; [exact R3|apply runs_ret]. }
  destruct (R g) as (g' & E & Hg & Hc); [done|by apply list.Forall_nil|].
  exists t3, g'. split; [done|]. split; [by apply finds_like_equiv|].
  rewrite E3. cbn. rewrite F2, F1, P2, P1, A2, A1. split_and!; try done.
  - intros k. destruct (U1 k (all_kinds_all k)) as (-> & -> & ->). rewrite K1, I1, C1.
    unfold kits_after, ids_after, classes_after. destruct (td_kits d k) as [|kit kits]; [by rewrite bool_decide_true|].
    rewrite bool_decide_false by done. eexists _, _. split_and!; [apply removeDuplicates_dedup..|done|done|done].
  - intros k. rewrite (U2 k (all_kinds_all k)), K1. unfold kits_after.
    destruct (td_apKits d k) as [|ref refs]; [by rewrite bool_decide_true|].
    rewrite bool_decide_false by done. eexists. split; [apply removeDuplicates_dedup|done].
Qed.

(** A mod brings a kit twice and another of the same class to a team without
    lists, and the heroes' list is left as it is. *)
Definition sample_guid (b : byte) : Guid := replicate 16 b.
Definition sample_ref (b : byte) : EbxImportReference := mkRef (sample_guid Byte.x01) (sample_guid b).
Definition sample_game : Game :=
  mkGame (fun _ _ => 7) (fun _ i => byte.unsigned (default Byte.x00 (head i))) ∅ ∅.
Definition sample_data : WSTeamDataMergeData :=
  set_kits Soldiers [mkKit (sample_ref Byte.x21) 5 1; mkKit (sample_ref Byte.x22) 5 2; mkKit (sample_ref Byte.x21) 5 1]
    WSTeamDataMergeData_new.
Definition sample_team : WSTeamData :=
  mkTeam 0 0 (mkCells (fun s => if decide (s = Players Heroes) then 9 else 0) {[9 := [33]]}) (mkCells (fun _ => 0) ∅)
    (mkCells (fun _ => 0) ∅) [] 10.

Lemma cells_ok_empty {I A : Type} next : 0 < next -> cells_ok (@mkCells I A (fun _ => 0) ∅) next.
Proof. intros H. split; [done| | |]; cbn; [intros p|done..]. rewrite lookup_empty. by intros []. Qed.

Lemma sample_team_ok : team_ok sample_team.
Proof.
  split; [|by split; apply cells_ok_empty]. split; cbn; [done| | |].
  - intros p. destruct (decide (p = 9)) as [->|]; [done|]. rewrite lookup_singleton_ne by done. by intros [].
  - intros i. case_decide; [|done]. intros _. rewrite lookup_singleton_eq. by eexists.
  - intros i j. repeat case_decide; try done. congruence.
Qed.

Lemma WSTeamData_Modify_spec_witness :
  exists t' g', WSTeamData_Modify 3 sample_data sample_team sample_game = Ok ((true, t'), g') /\
    cell (kitLists t') (Players Heroes) = Some [33].
Proof.
  destruct (WSTeamData_Modify_spec 3 sample_data sample_team sample_game sample_team_ok) as (t' & g' & E & _ & _ & Hk & _).
  exists t', g'. split; [exact E|]. exact (proj1 (Hk Heroes)).
Defined.

Example WSTeamData_Modify_sample :
  (fun r => (fun k => cell (kitLists r.1.2) (Players k)) <$> [Soldiers; Heroes]) <$> WSTeamData_Modify 3 sample_data sample_team sample_game
    = Ok [Some [0x21; 0x22]; Some [33]].
Proof. vm_compute. reflexivity. Qed.
