(* ===== verification/Handlers.v ===== *)
(** The handlers as the module registers them (Source/ModLoader/ModLoader.cpp,
    Public/ModLoader/CustomAssetHandler.h): the class template that gives every
    handler its own type of merge data, the table from asset types to handlers,
    and the world of objects they change. *)

From S2P Require Import Prelude OrdMap ByteBuffer StringUtils Guid DbObject ModResources.
From S2P Require Import ResourceHooks Localization DataContainers AssetHandlers TeamData.

(** ** The world *)

(** The classes whose array of references a handler extends, named by the array. *)
Inductive AssetArray := Options | Assets | Objects.

#[export] Instance AssetArray_eq_dec : EqDecision AssetArray.
Proof. solve_decision. Defined.

(** The fields of a team; what its pointers point at is shared with other teams. *)
Record TeamFields := mkTeamFields {
  f_WSFaction : Z; f_WSPlanetId : Z;
  f_kitLists : Slot -> Z; f_idCollections : TeamKind -> Z; f_classIdCollections : TeamKind -> Z;
  f_AllPlayerAbilities : list Z }.

Record TeamObjects := mkTeamObjects {
  o_kitLists : gmap Z (list Z); o_idCollections : gmap Z (list (Z * Z)); o_classIdCollections : gmap Z (list Z);
  o_next : Z }.

(** The assets by their addresses, and the chunks the module overrides. *)
Record World := mkWorld {
  w_game : Game;
  w_arrays : gmap Z (AssetArray * list Z);
  w_meshes : gmap Z MeshVariationDatabase;
  w_texts : gmap Z UITextDatabase;
  w_chunks : omap Guid (list byte);
  w_teams : gmap Z TeamFields;
  w_teamObjects : TeamObjects;
}.

Definition set_array (c : Z) (a : AssetArray) (l : list Z) (g : Game) (w : World) : World :=
  mkWorld g (<[c := (a, l)]> (w_arrays w)) (w_meshes w) (w_texts w) (w_chunks w) (w_teams w) (w_teamObjects w).
Definition set_mesh (c : Z) (db : MeshVariationDatabase) (g : Game) (w : World) : World :=
  mkWorld g (w_arrays w) (<[c := db]> (w_meshes w)) (w_texts w) (w_chunks w) (w_teams w) (w_teamObjects w).
Definition set_text (c : Z) (db : UITextDatabase) (chunk : Guid * list byte) (w : World) : World :=
  mkWorld (w_game w) (w_arrays w) (w_meshes w) (<[c := db]> (w_texts w)) (omap_insert chunk.1 chunk.2 (w_chunks w))
    (w_teams w) (w_teamObjects w).

Definition team_of (f : TeamFields) (o : TeamObjects) : WSTeamData :=
  mkTeam (f_WSFaction f) (f_WSPlanetId f) (mkCells (f_kitLists f) (o_kitLists o))
    (mkCells (f_idCollections f) (o_idCollections o)) (mkCells (f_classIdCollections f) (o_classIdCollections o))
    (f_AllPlayerAbilities f) (o_next o).
Definition fields_of (t : WSTeamData) : TeamFields :=
  mkTeamFields (WSFaction t) (WSPlanetId t) (ptr (kitLists t)) (ptr (idCollections t)) (ptr (classIdCollections t)) (AllPlayerAbilities t).
Definition objects_of (t : WSTeamData) : TeamObjects :=
  mkTeamObjects (objs (kitLists t)) (objs (idCollections t)) (objs (classIdCollections t)) (next t).
Definition set_teamFields (c : Z) (t : WSTeamData) (g : Game) (w : World) : World :=
  mkWorld g (w_arrays w) (w_meshes w) (w_texts w) (w_chunks w) (<[c := fields_of t]> (w_teams w)) (objects_of t).

(** ** Merge data *)

Inductive HandlerClass :=
  LocalizationHandler | MeshVariationHandler | NetworkRegistryHandler | ProfileOptionsHandler | UIMetaDataHandler | WSTeamDataHandler.

#[export] Instance HandlerClass_eq_dec : EqDecision HandlerClass.
Proof. solve_decision. Defined.

(** [CustomAssetHandlerData] and the classes derived from it. *)
Inductive HandlerData :=
  LocalizationData (d : LocalizationMergeData) | MeshVariationData (d : MeshVariationMergeData) | NetworkRegistryData (d : References)
| ProfileOptionsData (d : References) | UIMetaDataData (d : References) | TeamData (d : WSTeamDataMergeData).

Definition data_class (d : HandlerData) : HandlerClass :=
  match d with
  | LocalizationData _ => LocalizationHandler | MeshVariationData _ => MeshVariationHandler
  | NetworkRegistryData _ => NetworkRegistryHandler | ProfileOptionsData _ => ProfileOptionsHandler
  | UIMetaDataData _ => UIMetaDataHandler | TeamData _ => WSTeamDataHandler
  end.

(** A class of merge data: how it is a [CustomAssetHandlerData], and the
    [dynamic_cast] back, which fails exactly on the others. *)
Class MergeData (cls : HandlerClass) (T : Type) := {
  upcast : T -> HandlerData;
  dynamic_cast : HandlerData -> option T;
  upcast_class : forall d, data_class (upcast d) = cls;
  cast_upcast : forall d, dynamic_cast (upcast d) = Some d;
  cast_class : forall d, data_class d = cls -> exists t, dynamic_cast d = Some t /\ d = upcast t;
}.

Ltac merge_data := intros []; cbn; intros; try discriminate; eauto.

#[export, refine] Instance Localization_data : MergeData LocalizationHandler LocalizationMergeData :=
  {| upcast := LocalizationData; dynamic_cast d := match d with LocalizationData d => Some d | _ => None end |}.
Proof. all: try done; merge_data. Defined.
#[export, refine] Instance MeshVariation_data : MergeData MeshVariationHandler MeshVariationMergeData :=
  {| upcast := MeshVariationData; dynamic_cast d := match d with MeshVariationData d => Some d | _ => None end |}.
Proof. all: try done; merge_data. Defined.
#[export, refine] Instance NetworkRegistry_data : MergeData NetworkRegistryHandler References :=
  {| upcast := NetworkRegistryData; dynamic_cast d := match d with NetworkRegistryData d => Some d | _ => None end |}.
Proof. all: try done; merge_data. Defined.
#[export, refine] Instance ProfileOptions_data : MergeData ProfileOptionsHandler References :=
  {| upcast := ProfileOptionsData; dynamic_cast d := match d with ProfileOptionsData d => Some d | _ => None end |}.
Proof. all: try done; merge_data. Defined.
#[export, refine] Instance UIMetaData_data : MergeData UIMetaDataHandler References :=
  {| upcast := UIMetaDataData; dynamic_cast d := match d with UIMetaDataData d => Some d | _ => None end |}.
Proof. all: try done; merge_data. Defined.
#[export, refine] Instance WSTeam_data : MergeData WSTeamDataHandler WSTeamDataMergeData :=
  {| upcast := TeamData; dynamic_cast d := match d with TeamData d => Some d | _ => None end |}.
Proof. all: try done; merge_data. Defined.

(** ** Handlers *)

(** [GenericCustomAssetHandler<T>]: the overloads on [T] behind those on
    [CustomAssetHandlerData], with a null pointer where the cast fails. *)
Definition GenericCustomAssetHandler (cls : HandlerClass) {T} `{MergeData cls T} (stage : Deferred.CustomAssetHandlerLoadStage)
    (new : T) (load : T -> Rd T) (modify : Z -> bool -> Z -> T -> World -> result (bool * World))
    : Deferred.CustomAssetHandler HandlerData World :=
  Deferred.mkHandler stage (upcast new)
    (fun _ buf data => d ← of_option Undefined (dynamic_cast data); r ← load d buf; Ok (upcast r.1))
    (fun domain clear container data w =>
       d ← of_option Undefined (dynamic_cast data); r ← modify domain clear container d w; Ok (r.1, data, r.2)).

(** The asset behind the container: a [static_cast], undefined for another class. *)
Definition array_of (a : AssetArray) (container : Z) (w : World) : result (list Z) :=
  arr ← of_option Undefined (w_arrays w !! container);
  if decide (arr.1 = a) then Ok arr.2 else Fault Undefined.

Definition modify_array (a : AssetArray) (modify : Z -> bool -> References -> list Z -> GM (bool * list Z))
    (domain : Z) (clear : bool) (container : Z) (d : References) (w : World) : result (bool * World) :=
  l ← array_of a container w;
  r ← modify domain clear d l (w_game w);
  Ok (r.1.1, set_array container a r.1.2 r.2 w).

Definition modify_mesh (domain : Z) (clear : bool) (container : Z) (d : MeshVariationMergeData) (w : World) : result (bool * World) :=
  db ← of_option Undefined (w_meshes w !! container);
  r ← MeshVariation_Modify domain clear d db (w_game w);
  Ok (r.1.1, set_mesh container r.1.2 r.2 w).

Definition modify_team (domain : Z) (clear : bool) (container : Z) (d : WSTeamDataMergeData) (w : World) : result (bool * World) :=
  f ← of_option Undefined (w_teams w !! container);
  r ← WSTeamData_Modify domain d (team_of f (w_teamObjects w)) (w_game w);
  Ok (r.1.1, set_teamFields container r.1.2 r.2 w).

Section handlers.
(** [ModLoader::ReadChunkSync]. *)
Context (readChunk : World -> Guid -> Z -> list byte).

Definition modify_text (domain : Z) (clear : bool) (container : Z) (d : LocalizationMergeData) (w : World) : result (bool * World) :=
  db ← of_option Undefined (w_texts w !! container);
  r ← Localization_Modify (readChunk w) db d;
  Ok (true, set_text container r.1 r.2 w).

Definition handler (cls : HandlerClass) : Deferred.CustomAssetHandler HandlerData World :=
  match cls with
  | LocalizationHandler => GenericCustomAssetHandler LocalizationHandler Deferred.PostLoad [] Localization_Load modify_text
  | MeshVariationHandler => GenericCustomAssetHandler MeshVariationHandler Deferred.ReferencesResolved [] MeshVariation_Load modify_mesh
  | NetworkRegistryHandler => GenericCustomAssetHandler NetworkRegistryHandler Deferred.ReferencesResolved [] NetworkRegistry_Load
      (modify_array Objects NetworkRegistry_Modify)
  | ProfileOptionsHandler => GenericCustomAssetHandler ProfileOptionsHandler Deferred.ReferencesResolved [] ProfileOptions_Load
      (modify_array Options (fun domain _ => ProfileOptions_Modify domain))
  | UIMetaDataHandler => GenericCustomAssetHandler UIMetaDataHandler Deferred.ReferencesResolved [] UIMetaData_Load
      (modify_array Assets (fun domain _ => UIMetaData_Modify domain))
  | WSTeamDataHandler => GenericCustomAssetHandler WSTeamDataHandler Deferred.ReferencesResolved WSTeamDataMergeData_new WSTeamData_Load modify_team
  end.

(** [ModLoader::m_handlers]: the class of the handler of an asset type. *)
Definition handler_classes : gmap Z HandlerClass :=
  foldl (fun m kv => <[HashQuickLower kv.1 := kv.2]> m) ∅
    [(bstr "UITextDatabase", LocalizationHandler); (bstr "FsUITextDatabase", LocalizationHandler);
     (bstr "MeshVariationDatabase", MeshVariationHandler); (bstr "NetworkRegistryAsset", NetworkRegistryHandler);
     (bstr "ProfileOptionsAsset", ProfileOptionsHandler); (bstr "UIMetaDataAsset", UIMetaDataHandler);
     (bstr "WSTeamData", WSTeamDataHandler)].

Definition m_handlers : gmap Z (Deferred.CustomAssetHandler HandlerData World) := handler <$> handler_classes.

(** ** Partitions that are read *)

(** [PreModify]: only teams override it. *)
Definition PreModify (cls : HandlerClass) (data : HandlerData) (init : PartitionInit) : result PartitionInit :=
  match cls with
  | WSTeamDataHandler => d ← of_option Undefined (dynamic_cast (cls := WSTeamDataHandler) data); Ok (WSTeamData_PreModify d init)
  | _ => Ok init
  end.

(** The hook of [EbxPartitionReader::process], once the game has processed the
    reader; [duped] is [m_dupedWithHandlerResources]. *)
Definition EbxPartitionReaderProcess (duped : gmap (list byte) ModResource) (currentState : Z) (partitionName : list byte)
    (init : PartitionInit) : result PartitionInit :=
  if negb (currentState =? 7) then Ok init else
  match duped !! partitionName with
  | None => Ok init
  | Some resource =>
    if mr_handlerHash resource =? 0 then Ok init else
    cls ← of_option Undefined (handler_classes !! u32 (mr_handlerHash resource));
    buf ← Deferred.resource_buffer resource;
    data ← Deferred.Load (handler cls) (mr_modName resource) buf (Deferred.Create (handler cls));
    PreModify cls data init
  end.

(** ** The handlers without casts

    The merge data of each class at their own type, and what the class makes of
    them: no operation here can be given the data of another class. *)

Definition typed (cls : HandlerClass) : Type :=
  match cls with
  | LocalizationHandler => LocalizationMergeData | MeshVariationHandler => MeshVariationMergeData
  | NetworkRegistryHandler | ProfileOptionsHandler | UIMetaDataHandler => References
  | WSTeamDataHandler => WSTeamDataMergeData
  end.

Definition wrap (cls : HandlerClass) : typed cls -> HandlerData :=
  match cls return typed cls -> HandlerData with
  | LocalizationHandler => LocalizationData | MeshVariationHandler => MeshVariationData
  | NetworkRegistryHandler => NetworkRegistryData | ProfileOptionsHandler => ProfileOptionsData
  | UIMetaDataHandler => UIMetaDataData | WSTeamDataHandler => TeamData
  end.

Definition typed_new (cls : HandlerClass) : typed cls :=
  match cls return typed cls with WSTeamDataHandler => WSTeamDataMergeData_new | _ => [] end.

Definition typed_load (cls : HandlerClass) : typed cls -> Rd (typed cls) :=
  match cls return typed cls -> Rd (typed cls) with
  | LocalizationHandler => Localization_Load | MeshVariationHandler => MeshVariation_Load
  | NetworkRegistryHandler => NetworkRegistry_Load | ProfileOptionsHandler => ProfileOptions_Load
  | UIMetaDataHandler => UIMetaData_Load | WSTeamDataHandler => WSTeamData_Load
  end.

Definition typed_modify (cls : HandlerClass) : Z -> bool -> Z -> typed cls -> World -> result (bool * World) :=
  match cls return Z -> bool -> Z -> typed cls -> World -> result (bool * World) with
  | LocalizationHandler => modify_text | MeshVariationHandler => modify_mesh
  | NetworkRegistryHandler => modify_array Objects NetworkRegistry_Modify
  | ProfileOptionsHandler => modify_array Options (fun domain _ => ProfileOptions_Modify domain)
  | UIMetaDataHandler => modify_array Assets (fun domain _ => UIMetaData_Modify domain)
  | WSTeamDataHandler => modify_team
  end.

Lemma handler_create cls : Deferred.Create (handler cls) = wrap cls (typed_new cls).
Proof. destruct cls; reflexivity. Qed.

(** The cast of a handler's own data succeeds. *)
Lemma generic_load cls {T} `{MergeData cls T} stage new load modify m b d :
  Deferred.Load (GenericCustomAssetHandler cls stage new load modify) m b (upcast d) = (r ← load d b; Ok (upcast r.1)).
Proof. unfold GenericCustomAssetHandler, Deferred.Load. by rewrite cast_upcast. Qed.

Lemma generic_modify cls {T} `{MergeData cls T} stage new load modify domain clear container d w :
  Deferred.Modify (GenericCustomAssetHandler cls stage new load modify) domain clear container (upcast d) w =
    (r ← modify domain clear container d w; Ok (r.1, upcast d, r.2)).
Proof. unfold GenericCustomAssetHandler, Deferred.Modify. by rewrite cast_upcast. Qed.

Lemma handler_load cls m buf d :
  Deferred.Load (handler cls) m buf (wrap cls d) = (r ← typed_load cls d buf; Ok (wrap cls r.1)).
Proof.
  destruct cls; cbn [handler wrap typed_load].
  - exact (generic_load LocalizationHandler (T := LocalizationMergeData) _ _ _ _ m buf d).
  - exact (generic_load MeshVariationHandler (T := MeshVariationMergeData) _ _ _ _ m buf d).
  - exact (generic_load NetworkRegistryHandler (T := References) _ _ _ _ m buf d).
  - exact (generic_load ProfileOptionsHandler (T := References) _ _ _ _ m buf d).
  - exact (generic_load UIMetaDataHandler (T := References) _ _ _ _ m buf d).
  - exact (generic_load WSTeamDataHandler (T := WSTeamDataMergeData) _ _ _ _ m buf d).
Qed.

Lemma handler_modify cls domain clear container d w :
  Deferred.Modify (handler cls) domain clear container (wrap cls d) w =
    (r ← typed_modify cls domain clear container d w; Ok (r.1, wrap cls d, r.2)).
Proof.
  destruct cls; cbn [handler wrap typed_modify].
  - exact (generic_modify LocalizationHandler (T := LocalizationMergeData) _ _ _ _ domain clear container d w).
  - exact (generic_modify MeshVariationHandler (T := MeshVariationMergeData) _ _ _ _ domain clear container d w).
  - exact (generic_modify NetworkRegistryHandler (T := References) _ _ _ _ domain clear container d w).
  - exact (generic_modify ProfileOptionsHandler (T := References) _ _ _ _ domain clear container d w).
  - exact (generic_modify UIMetaDataHandler (T := References) _ _ _ _ domain clear container d w).
  - exact (generic_modify WSTeamDataHandler (T := WSTeamDataMergeData) _ _ _ _ domain clear container d w).
Qed.

(** Data with their class. *)
Definition tdata : Type := { cls & typed cls }.
Definition erase (t : tdata) : HandlerData := wrap (projT1 t) (projT2 t).

Definition load_typed (t : tdata) (r : ModResource) : result tdata :=
  buf ← Deferred.resource_buffer r; d ← typed_load (projT1 t) (projT2 t) buf; Ok (existT (projT1 t) d.1).

Section run.
Context (forceUpdate : World -> World) (info : Deferred.ContainerCreationInfo).

Fixpoint modify_typed (fuel : nat) (t : tdata) (w : World) : result World :=
  match fuel with
  | O => Fault OutOfFuel
  | S fuel =>
    r ← typed_modify (projT1 t) (Deferred.runtimeDatabaseDomain info) (Deferred.i_dupedWithHandler info)
          (Deferred.container info) (projT2 t) w;
    if (r.1 : bool) then Ok r.2 else modify_typed fuel t (forceUpdate r.2)
  end.

#[local] Existing Instance Deferred.LoadStage_eq_dec.
#[local] Existing Instance Deferred.of_handler_dec.

(** The resources of an asset for a stage. *)
Definition stage_of (hash : Z) : option Deferred.CustomAssetHandlerLoadStage :=
  (fun cls => Deferred.GetLoadStage (handler cls)) <$> handler_classes !! u32 hash.
Definition of_asset (name : list byte) (r : ModResource) : Prop :=
  mr_type r = FrostyResourceType_Ebx /\ mr_name r = name /\ mr_handlerHash r <> 0.
#[export] Instance of_asset_dec name r : Decision (of_asset name r).
Proof. unfold of_asset. apply _. Defined.
Definition for_stage (name : list byte) (stage : Deferred.CustomAssetHandlerLoadStage) (r : ModResource) : Prop :=
  of_asset name r /\ stage_of (mr_handlerHash r) = Some stage.
#[export] Instance for_stage_dec name stage r : Decision (for_stage name stage r).
Proof. unfold for_stage. apply _. Defined.

Lemma handler_of_class hash cls :
  handler_classes !! u32 hash = Some cls -> Deferred.handler_of m_handlers hash = Ok (handler cls).
Proof. intros H. unfold Deferred.handler_of, m_handlers. by rewrite lookup_fmap, H. Qed.

Lemma select_resources name stage all acc :
  (forall r, r ∈ all -> of_asset name r -> is_Some (handler_classes !! u32 (mr_handlerHash r))) ->
  foldM (Deferred.select_resource m_handlers name stage) acc all = Ok (acc ++ filter (for_stage name stage) all).
Proof.
  revert acc. induction all as [|r all IH]; intros acc H; cbn [foldM]; [by rewrite app_nil_r|].
  assert (Hall : forall r', r' ∈ all -> of_asset name r' -> is_Some (handler_classes !! u32 (mr_handlerHash r'))).
  { intros r' Hin. apply H. by right. }
  assert (Hskip : ~ of_asset name r -> filter (for_stage name stage) (r :: all) = filter (for_stage name stage) all).
  { intros Hn. rewrite filter_cons, decide_False; [done|]. by intros [? _]. }
  assert (Hr : of_asset name r -> is_Some (handler_classes !! u32 (mr_handlerHash r))) by (apply H; by left).
  unfold Deferred.select_resource at 1. unfold of_asset in Hskip, Hr.
  destruct (bool_decide_reflect (mr_type r = FrostyResourceType_Ebx)); cbn [negb orb]; [|rewrite Hskip by tauto; by apply IH].
  destruct (bool_decide_reflect (mr_name r = name)); cbn [negb]; [|rewrite Hskip by tauto; by apply IH].
  destruct (Z.eqb_spec (mr_handlerHash r) 0); [rewrite Hskip by tauto; by apply IH|].
  destruct Hr as [cls Hcls]; [done|]. rewrite (handler_of_class _ _ Hcls). cbn [mbind result_bind].
  rewrite filter_cons. case_bool_decide as Hst.
  - rewrite decide_True by (split; [done|unfold stage_of; by rewrite Hcls, <- Hst]). rewrite IH by done. by rewrite <- app_assoc.
  - rewrite decide_False; [by apply IH|]. intros [_ Hs]. unfold stage_of in Hs. rewrite Hcls in Hs. by injection Hs.
Qed.

(** *** Creating and loading

    [cur] says which data are kept for an asset type, with their class. *)
Record holds (data : omap Z HandlerData) (cur : Z -> option tdata) : Prop := {
  holds_wf : omap_wf data;
  holds_find : forall k, omap_find k data = erase <$> cur k;
  holds_class : forall k t, cur k = Some t -> handler_classes !! k = Some (projT1 t);
}.

Definition put (k : Z) (t : tdata) (cur : Z -> option tdata) (k' : Z) : option tdata :=
  if decide (k' = k) then Some t else cur k'.

Lemma holds_put data cur k t :
  holds data cur -> handler_classes !! k = Some (projT1 t) -> holds (omap_insert k (erase t) data) (put k t cur).
Proof.
  intros [Hwf Hf Hc] Ht. split; [by apply omap_insert_wf| |]; intros k'; unfold put.
  - destruct (decide (k' = k)) as [->|Hn]; [by rewrite omap_find_insert_eq|]. by rewrite omap_find_insert_ne.
  - intros t' H. destruct (decide (k' = k)) as [->|]; [by injection H as <-|by apply Hc].
Qed.

Definition registered (r : ModResource) : Prop := is_Some (handler_classes !! u32 (mr_handlerHash r)).

(** Fresh data for the types of some resources. *)
Definition fresh (rs : list ModResource) (k : Z) : option tdata :=
  if decide (Exists (Deferred.of_handler k) rs) then (fun cls => existT cls (typed_new cls)) <$> handler_classes !! k else None.

Lemma create_holds rs :
  Forall registered rs -> exists data, foldM (Deferred.create_data m_handlers) [] rs = Ok data /\ holds data (fresh rs).
Proof.
  induction rs as [|r rs IH] using rev_ind; intros Hreg.
  { exists []. split; [done|]. split; [constructor|done..]. }
  apply Forall_app in Hreg as [Hreg [[cls Hcls] _]%list.Forall_cons].
  destruct IH as (data & E & Hd); [done|]. rewrite foldM_app, E. cbn [mbind result_bind foldM].
  unfold Deferred.create_data. rewrite (handler_of_class _ _ Hcls). cbn [mbind result_bind]. rewrite handler_create.
  eexists. split; [done|]. destruct (holds_put _ _ _ (existT cls (typed_new cls)) Hd Hcls) as [Hwf Hf Hc].
  assert (Hext : forall k, put (u32 (mr_handlerHash r)) (existT cls (typed_new cls)) (fresh rs) k = fresh (rs ++ [r]) k).
  { intros k. unfold put, fresh. assert (Hex : Exists (Deferred.of_handler k) (rs ++ [r]) <->
      k = u32 (mr_handlerHash r) \/ Exists (Deferred.of_handler k) rs).
    { rewrite Exists_app, Exists_cons, Exists_nil. unfold Deferred.of_handler. naive_solver. }
    destruct (decide (k = _)) as [->|Hn].
    - rewrite decide_True by (apply Hex; by left). by rewrite Hcls.
    - by rewrite (decide_ext (Exists (Deferred.of_handler k) (rs ++ [r])) (Exists (Deferred.of_handler k) rs)) by (rewrite Hex; tauto). }
  split; [done|intros k; rewrite <- Hext; apply Hf|intros k t; rewrite <- Hext; apply Hc].
Qed.

(** Every resource is loaded by its own handler into that handler's data. *)
Lemma load_holds rs data cur final :
  holds data cur -> Forall (fun r => is_Some (cur (u32 (mr_handlerHash r)))) rs ->
  (forall k t, cur k = Some t -> exists t', foldM load_typed t (filter (Deferred.of_handler k) rs) = Ok t' /\ final k = Some t') ->
  (forall k, cur k = None -> final k = None) ->
  exists data', foldM (Deferred.load_data m_handlers) data rs = Ok data' /\ holds data' final.
Proof.
  revert data cur. induction rs as [|r rs IH]; intros data cur Hd Hrs Hfin Hnone.
  { exists data. split; [done|]. assert (Heq : forall k, cur k = final k).
    { intros k. destruct (cur k) as [t|] eqn:E; [|by rewrite Hnone]. by destruct (Hfin k t E) as (t' & [= ->] & ->). }
    destruct Hd as [Hwf Hf Hc]. split; [done|intros k; rewrite <- Heq; apply Hf|intros k t; rewrite <- Heq; apply Hc]. }
  apply list.Forall_cons in Hrs as [[t Ht] Hrs]. set (h := u32 (mr_handlerHash r)) in *.
  pose proof (holds_class _ _ Hd h t Ht) as Hcls. destruct (Hfin h t Ht) as (t' & Hl & Ht').
  rewrite filter_cons, decide_True in Hl by done. cbn [foldM] in Hl.
  destruct (load_typed t r) as [t1|] eqn:E1; [|done]. unfold load_typed in E1.
  apply result_bind_ok in E1 as (buf & Hbuf & E1). apply result_bind_ok in E1 as (d & Hload & [= <-]).
  cbn [foldM]. unfold Deferred.load_data at 1. rewrite Hbuf, (handler_of_class _ _ Hcls). fold h.
  rewrite (holds_find _ _ Hd h), Ht. cbn [mbind result_bind of_option fmap option_fmap option_map].
  unfold erase. rewrite handler_load, Hload. cbn [mbind result_bind].
  apply (IH _ (put h (existT (projT1 t) d.1) cur)).
  - by apply (holds_put _ _ h (existT (projT1 t) d.1) Hd).
  - eapply list.Forall_impl; [exact Hrs|]. intros r' Hr'. unfold put. destruct (decide _); [by eexists|done].
  - intros k t2. unfold put. destruct (decide (k = h)) as [->|Hn].
    + intros [= <-]. by exists t'.
    + intros Hk. destruct (Hfin k t2 Hk) as (t3 & Hl3 & Ht3). exists t3. split; [|done].
      rewrite filter_cons, decide_False in Hl3; [done|]. unfold Deferred.of_handler. by intros <-.
  - intros k. unfold put. destruct (decide (k = h)); [done|apply Hnone].
Qed.

(** *** Modifying *)

Lemma modify_loop_typed fuel cls d w :
  Deferred.modify_loop forceUpdate fuel (handler cls) info (wrap cls d) w = modify_typed fuel (existT cls d) w.
Proof.
  revert w. induction fuel as [|fuel IH]; intros w; [done|]. cbn [Deferred.modify_loop modify_typed].
  rewrite handler_modify. cbn [projT1 projT2]. destruct (typed_modify _ _ _ _ _ _) as [[[] w']|]; cbn; [done|apply IH|done].
Qed.

Lemma modify_holds fuel w data final keys :
  holds data final -> StronglySorted Z.lt keys -> Forall is_u32 keys -> (forall k, k ∈ keys <-> is_Some (final k)) ->
  foldM (Deferred.modify_data m_handlers forceUpdate fuel info) w data =
    foldM (fun w k => t ← of_option Undefined (final k); modify_typed fuel t w) w keys.
Proof.
  intros Hd Hs Hu Hk. assert (Hkeys : omap_keys data = keys).
  { apply ascending_ext.
    - apply omap_keys_sorted, Hd.
    - done.
    - intros k. rewrite <- omap_find_keys by apply Hd. rewrite (holds_find _ _ Hd), Hk. by rewrite fmap_is_Some. }
  assert (Hin : forall k v, (k, v) ∈ data -> exists t, final k = Some t /\ v = erase t /\ handler_classes !! u32 k = Some (projT1 t)).
  { intros k v Hin. pose proof (omap_elem_find k v data (holds_wf _ _ Hd) Hin) as Hf. rewrite (holds_find _ _ Hd) in Hf.
    apply fmap_Some in Hf as (t & Ht & ->). exists t. split; [done|]. split; [done|].
    rewrite uwrap_small; [by apply (holds_class _ _ Hd)|]. rewrite list.Forall_forall in Hu. apply Hu, Hk. by eexists. }
  rewrite <- Hkeys. clear Hd Hs Hu Hk Hkeys. revert w. induction data as [|[k v] data IH]; intros w; [done|].
  unfold omap_keys in *. rewrite fmap_cons. cbn [foldM fst].
  destruct (Hin k v) as (t & Ht & -> & Hcls); [by left|]. rewrite Ht. unfold Deferred.modify_data at 1. cbn [fst snd].
  rewrite (handler_of_class _ _ Hcls). cbn [mbind result_bind of_option]. unfold erase. rewrite modify_loop_typed.
  destruct t as [cls d]. destruct (modify_typed _ _ _) as [w'|]; [|done]. apply IH.
  intros k' v' H. apply Hin. by right.
Qed.

(** C15: The handlers of an asset run as if there were no casts: when the mods'
    resources for the asset are of types with a handler, every type's data are
    created by its own handler, filled by the [Load] of its own class from
    exactly its own resources (the one of lowest priority first), and handed at
    their own type to the [Modify] of that class, type after type in ascending
    order.  So no [dynamic_cast] fails, although all the data are kept as
    [CustomAssetHandlerData]: a run of the module is the run in which no cast
    takes place, whatever [Modify] makes of it. *)
Theorem handlers_well_typed fuel all stage w keys (final : Z -> tdata) :
  let name := Deferred.i_name info in
  let rs := filter (for_stage name stage) all in
  (forall r, r ∈ all -> of_asset name r -> is_Some (handler_classes !! u32 (mr_handlerHash r))) ->
  StronglySorted Z.lt keys -> (forall k, k ∈ keys <-> exists r, r ∈ rs /\ Deferred.of_handler k r) ->
  (forall k, k ∈ keys -> exists cls, handler_classes !! k = Some cls /\
     foldM load_typed (existT cls (typed_new cls)) (filter (Deferred.of_handler k) (rev rs)) = Ok (final k)) ->
  Deferred.RunHandler m_handlers forceUpdate fuel all info stage w = foldM (fun w k => modify_typed fuel (final k) w) w keys.
Proof.
  intros name rs Hreg Hs Hkeys Hload. unfold Deferred.RunHandler. rewrite select_resources by done. fold name rs.
  cbn [mbind result_bind app].
  case_bool_decide as Hnil.
  { destruct keys as [|k keys]; [done|]. destruct (proj1 (Hkeys k)) as (r & Hr & _); [by left|]. rewrite Hnil in Hr. by apply elem_of_nil in Hr. }
  assert (Hrs : Forall registered rs).
  { apply list.Forall_forall. intros r [[Hr _] Hin]%list_elem_of_filter. by apply Hreg. }
  assert (Hex : forall k, k ∈ keys <-> Exists (Deferred.of_handler k) rs) by (intros k; by rewrite Hkeys, list.Exists_exists).
  set (fin := fun k => if decide (k ∈ keys) then Some (final k) else None).
  destruct (create_holds rs Hrs) as (data0 & E0 & H0).
  destruct (load_holds (rev rs) data0 (fresh rs) fin H0) as (data & E & Hd).
  - apply list.Forall_forall. intros r Hr. apply list_elem_of_In, in_rev, list_elem_of_In in Hr.
    unfold fresh. rewrite decide_True by (apply list.Exists_exists; by exists r).
    rewrite list.Forall_forall in Hrs. destruct (Hrs r Hr) as [cls ->]. by eexists.
  - intros k t. unfold fresh, fin. destruct (decide (Exists _ _)) as [Hk|]; [|done]. apply Hex in Hk.
    destruct (Hload k Hk) as (cls & -> & Hl). intros [= <-]. exists (final k). by rewrite decide_True.
  - intros k. unfold fresh, fin. destruct (decide (Exists _ _)) as [Hk|Hk].
    + apply Hex in Hk as Hk'. destruct (Hload k Hk') as (cls & -> & _). done.
    + intros _. rewrite decide_False; [done|]. by rewrite Hex.
  - unfold Deferred.load_all. rewrite E0. cbn [mbind result_bind]. rewrite E. cbn [mbind result_bind].
    rewrite (modify_holds fuel w data fin keys Hd Hs).
    + apply foldM_ext. intros w' k Hk. unfold fin. by rewrite decide_True.
    + apply list.Forall_forall. intros k Hk. apply Hkeys in Hk as (r & _ & <-). apply uwrap_range. lia.
    + intros k. unfold fin. destruct (decide (k ∈ keys)); [by split|]. split; [done|by intros [? ?]].
Qed.
End run.

(** ** Handlers that wait for the game *)

Lemma array_of_ok a c w l : w_arrays w !! c = Some (a, l) -> array_of a c w = Ok l.
Proof. unfold array_of. intros ->. cbn. by rewrite decide_True. Qed.

#[local] Arguments UIMetaData_Modify : simpl never.

Section retry.
Context (forceUpdate : World -> World) (info : Deferred.ContainerCreationInfo) (data : References).

Let domain := Deferred.runtimeDatabaseDomain info.
Let asset := Deferred.container info.

(** The world after some updates. *)
Definition updates (n : nat) (w : World) : World := Nat.iter n forceUpdate w.

Lemma updates_S n w : updates n (forceUpdate w) = updates (S n) w.
Proof. unfold updates. by rewrite Nat.iter_succ_r. Qed.

(** The assets of the world, with something null among them. *)
Definition unready (w : World) : Prop := exists l, w_arrays w !! asset = Some (Assets, l) /\ 0 ∈ l.

Lemma modify_unready w :
  unready w -> Deferred.Modify (handler UIMetaDataHandler) domain (Deferred.i_dupedWithHandler info) asset (UIMetaDataData data) w
    = Ok (false, UIMetaDataData data, w).
Proof.
  intros (l & Hl & H0). cbn. unfold modify_array. rewrite (array_of_ok _ _ _ _ Hl). cbn. rewrite UIMetaData_Modify_retry by done. cbn.
  unfold set_array. rewrite insert_id by done. by destruct w.
Qed.

Lemma modify_loop_waits k fuel w :
  (forall n, (n < k)%nat -> unready (updates n w)) ->
  Deferred.modify_loop forceUpdate (k + fuel) (handler UIMetaDataHandler) info (UIMetaDataData data) w =
    Deferred.modify_loop forceUpdate fuel (handler UIMetaDataHandler) info (UIMetaDataData data) (updates k w).
Proof.
  revert w. induction k as [|k IH]; intros w H; [done|]. cbn [Nat.add Deferred.modify_loop].
  rewrite modify_unready by (apply (H 0%nat); lia). rewrite IH; [by rewrite updates_S|].
  intros n Hn. rewrite updates_S. apply H. lia.
Qed.

(** C31: [UIMetaDataHandler] is retried while one of the asset's references is null.
    Once none is, the next try ends it: when every reference of the mods is
    found, they are behind the old ones and counted once each, and when one is
    not, the null pointer is dereferenced. *)
Theorem UIMetaData_retried k w l :
  let ready := updates k w in
  (forall n, (n < k)%nat -> unready (updates n w)) ->
  w_arrays ready !! asset = Some (Assets, l) -> 0 ∉ l -> len l + len data < 2 ^ 32 ->
  let refs := resolved (w_game ready) domain <$> data in
  alive (w_game ready) refs ->
  let run := Deferred.modify_loop forceUpdate (S k) (handler UIMetaDataHandler) info (UIMetaDataData data) w in
  if bool_decide (0 ∈ refs) then run = Fault Undefined
  else exists g, run = Ok (set_array asset Assets (l ++ refs) g ready) /\
    finds_like g (w_game ready) /\ counts_after refs (refCounts (w_game ready)) (refCounts g).
Proof.
  intros ready Hwait Hl Hnull Hlen refs Halive run. unfold run. rewrite <- Nat.add_1_r, modify_loop_waits by done. fold ready.
  cbn. unfold modify_array. fold asset domain. rewrite (array_of_ok _ _ _ _ Hl). cbn. case_bool_decide as H0.
  - apply list_elem_of_fmap in H0 as (ref & Hr & Hin).
    rewrite UIMetaData_Modify_unresolved; [done|done|done|]. by exists ref.
  - destruct (UIMetaData_Modify_runs (w_game ready) domain data l) with (g := w_game ready) as (g & E & Hg & Hc); try done.
    { intros ref Hin Hr. apply H0. rewrite <- Hr. by apply list_elem_of_fmap_2. }
    rewrite E. cbn. by exists g.
Qed.
End retry.
End handlers.

(** *** Witnesses *)

(** The second element is found by the game when it updates. *)
Definition sample_world : World :=
  mkWorld (mkGame (fun _ _ => 7) (fun _ i => byte.unsigned (default Byte.x00 (head i))) ∅ {[33 := 1; 34 := 1; 35 := 4]})
    {[5 := (Assets, [33; 0])]} ∅ ∅ [] ∅ (mkTeamObjects ∅ ∅ ∅ 100).
Definition sample_update (w : World) : World := set_array 5 Assets [33; 34] (w_game w) w.
Definition sample_info : Deferred.ContainerCreationInfo := Deferred.mkInfo 3 4 5 (bstr "ui") true false.

Lemma UIMetaData_retried_witness :
  exists g, Deferred.modify_loop sample_update 2 (handler (fun _ _ _ => []) UIMetaDataHandler) sample_info
    (UIMetaDataData [sample_ref Byte.x23]) sample_world = Ok (set_array 5 Assets [33; 34; 35] g (sample_update sample_world)) /\
    refCounts g !! 35 = Some 5.
Proof.
  destruct (UIMetaData_retried (fun _ _ _ => []) sample_update sample_info [sample_ref Byte.x23] 1 sample_world [33; 34])
    as (g & E & _ & Hc).
  - intros n Hn. assert (n = 0%nat) as -> by lia. exists [33; 0]. split; [reflexivity|]. apply list_elem_of_further, list_elem_of_here.
  - reflexivity.
  - apply (bool_decide_unpack _). vm_compute. exact I.
  - reflexivity.
  - constructor; [|constructor]. intros _. exists 4. reflexivity.
  - exists g. split; [exact E|]. rewrite (Hc 35). reflexivity.
Defined.

(** Two mods add one object each to the registry at address 5. *)
Definition sample_netreg (file : byte) : ModResource :=
  mkResource FrostyResourceType_Ebx (bstr "ui") [] (HashQuickLower (bstr "NetworkRegistryAsset")) 0 false (bstr "mod") 0
    (mkData 38 38 (Some ([Byte.x61; Byte.x00; Byte.x01; Byte.x00; Byte.x00; Byte.x00] ++ repeat file 16 ++ repeat file 16))
       0 0 0 0 [] 0 0 0 0 0 0) 1.
Definition registry_world : World :=
  mkWorld (mkGame (fun _ _ => 7) (fun _ i => byte.unsigned (default Byte.x00 (head i))) ∅ ∅)
    {[5 := (Objects, [33; 0])]} ∅ ∅ [] ∅ (mkTeamObjects ∅ ∅ ∅ 100).
Definition registry_refs (file : byte) : EbxImportReference := mkRef (repeat file 16) (repeat file 16).

Definition registry_hash : Z := u32 (HashQuickLower (bstr "NetworkRegistryAsset")).

(** Two mods' resources, created, loaded lowest priority first, and added. *)
Lemma handlers_well_typed_witness :
  (fun w => w_arrays w !! 5) <$> Deferred.RunHandler (m_handlers (fun _ _ _ => [])) id 1 [sample_netreg Byte.x22; sample_netreg Byte.x23]
    sample_info Deferred.ReferencesResolved registry_world
  = Ok (Some (Objects, [33; 33; 35; 34])).
Proof.
  rewrite (handlers_well_typed (fun _ _ _ => []) id sample_info 1 [sample_netreg Byte.x22; sample_netreg Byte.x23]
    Deferred.ReferencesResolved registry_world [registry_hash]
    (fun _ => existT NetworkRegistryHandler [registry_refs Byte.x23; registry_refs Byte.x22])).
  - vm_compute. reflexivity.
  - intros r Hr _. apply elem_of_cons in Hr as [->|Hr]; [|apply list_elem_of_singleton in Hr as ->];
      exists NetworkRegistryHandler; vm_compute; reflexivity.
  - repeat constructor.
  - intros k. rewrite list_elem_of_singleton. split.
    + intros ->. exists (sample_netreg Byte.x22). split; [|vm_compute; reflexivity].
      apply list_elem_of_filter. split; [|by left].
      split; [split; [reflexivity|split; [reflexivity|vm_compute; discriminate]]|vm_compute; reflexivity].
    + intros (r & Hr & <-). apply list_elem_of_filter in Hr as [_ Hr].
      apply elem_of_cons in Hr as [->|Hr]; [|apply list_elem_of_singleton in Hr as ->]; vm_compute; reflexivity.
  - intros k Hk. apply list_elem_of_singleton in Hk as ->. exists NetworkRegistryHandler.
    split; vm_compute; reflexivity.
Defined.
