(* ===== verification/Voip.v ===== *)
(** Voice chat (Source/Voip/VoipManager.cpp): the account and its sessions, the
    microphone and the push-to-talk key, the participants, and the messages of
    the voice service.

    The service is a third-party library: the manager sends it requests, which
    are recorded in the order they are sent, and handles its messages. The
    constructor leaves the flags of the manager without a value; reading one is
    undefined behaviour. *)

From S2P Require Import Prelude.
From S2P Require Import ByteBuffer.

Section voip.
(** Coordinates, volumes and energies are the game's and the service's floating
    point numbers; [above] adds one to a height. *)
Context {F : Type} (f0 : F) (above : F -> F).

Record VoipLocation := mkLocation { valid : bool; position : F * F * F; camera : F * F * F }.
Record VoipDevice := mkDevice { identifier : list byte; displayName : list byte }.
Record VoipParticipantState := mkParticipant { uri : list byte; isSpeaking : bool; audioEnergy : F; isMuted : bool }.

(** The requests, with the fields the code sets. *)
Inductive Request :=
  | connector_create (connector_handle acct_mgmt_server vcookie : list byte)
  | account_anonymous_login (connector_handle acct_name displayname access_token : list byte)
  | aux_get_capture_devices (account_handle : list byte)
  | aux_get_render_devices (account_handle : list byte)
  | sessiongroup_add_session (sessiongroup_handle session_handle uri account_handle access_token : list byte)
  | sessiongroup_remove_session (sessiongroup_handle session_handle : list byte)
  | aux_set_capture_device (account_handle specifier : list byte)
  | aux_set_render_device (account_handle specifier : list byte)
  | connector_mute_local_mic (mute_level : Z) (account_handle : list byte)
  | aux_set_mic_level (level : F) (account_handle : list byte)
  | aux_set_speaker_level (level : F) (account_handle : list byte)
  | session_set_3d_position (session_handle : list byte) (speaker listener : F * F * F).

Record Account := mkAccount {
  m_connectorHandle : list byte; m_accountHandle : list byte; m_username : list byte; m_displayName : list byte;
  m_issuer : list byte; m_domain : list byte }.

Record Flags := mkFlags {
  m_isEnabled : option bool; m_isPostLogin : option bool; m_pushToTalkEnabled : option bool;
  m_isPushToTalkPressed : option bool; m_pushToTalkKey : option Z }.

Record VoipManager := mkVoip {
  account : Account; flags : Flags; m_currentChannel : list byte; m_location : VoipLocation;
  m_captureDevices : list VoipDevice; m_renderDevices : list VoipDevice;
  m_participants : gmap (list byte) VoipParticipantState; requests : list Request }.

Definition VoipManager_new : VoipManager :=
  mkVoip (mkAccount [] [] [] [] [] []) (mkFlags None None None None None) []
    (mkLocation false (f0, f0, f0) (f0, f0, f0)) [] [] ∅ [].

Definition set_account (a : Account) (v : VoipManager) : VoipManager :=
  mkVoip a (flags v) (m_currentChannel v) (m_location v) (m_captureDevices v) (m_renderDevices v) (m_participants v) (requests v).
Definition set_flags (f : Flags) (v : VoipManager) : VoipManager :=
  mkVoip (account v) f (m_currentChannel v) (m_location v) (m_captureDevices v) (m_renderDevices v) (m_participants v) (requests v).
Definition set_channel (c : list byte) (v : VoipManager) : VoipManager :=
  mkVoip (account v) (flags v) c (m_location v) (m_captureDevices v) (m_renderDevices v) (m_participants v) (requests v).
Definition set_location (l : VoipLocation) (v : VoipManager) : VoipManager :=
  mkVoip (account v) (flags v) (m_currentChannel v) l (m_captureDevices v) (m_renderDevices v) (m_participants v) (requests v).
Definition set_devices (capture render : list VoipDevice) (v : VoipManager) : VoipManager :=
  mkVoip (account v) (flags v) (m_currentChannel v) (m_location v) capture render (m_participants v) (requests v).
Definition set_participants (p : gmap (list byte) VoipParticipantState) (v : VoipManager) : VoipManager :=
  mkVoip (account v) (flags v) (m_currentChannel v) (m_location v) (m_captureDevices v) (m_renderDevices v) p (requests v).

Definition SendRequest (r : Request) (v : VoipManager) : VoipManager :=
  mkVoip (account v) (flags v) (m_currentChannel v) (m_location v) (m_captureDevices v) (m_renderDevices v) (m_participants v)
    (requests v ++ [r]).

(** A variable that has no value cannot be read. *)
Definition read {A} (o : option A) : result A := of_option Undefined o.

Definition handle (v : VoipManager) : list byte := m_accountHandle (account v).

(** ** Logging in *)

Record VoipLoginResponse := mkLogin {
  username : list byte; displayname : list byte; issuer : list byte; domain : list byte; token : list byte }.

Definition Connect (loginAccessToken : list byte) (v : VoipManager) : VoipManager :=
  SendRequest (connector_create (bstr "c1") (bstr "https://unity.vivox.com/appconfig/" ++ m_issuer (account v)) loginAccessToken) v.

Definition Login (loginAccessToken : list byte) (v : VoipManager) : VoipManager :=
  let a := account v in
  SendRequest (account_anonymous_login (m_connectorHandle a) (m_username a) (m_displayName a) loginAccessToken) v.

(** The answer to [RequestLogin]. *)
Definition OnLogin (response : option VoipLoginResponse) (v : VoipManager) : VoipManager :=
  match response with
  | None => v
  | Some r =>
    let a := account v in
    let v := set_account (mkAccount (m_connectorHandle a) (m_accountHandle a) (username r) (displayname r) (issuer r) (domain r)) v in
    let v := Connect (token r) v in
    let f := flags v in
    set_flags (mkFlags (m_isEnabled f) (Some true) (m_pushToTalkEnabled f) (m_isPushToTalkPressed f) (m_pushToTalkKey f)) v
  end.

Definition IsLoggedIn (v : VoipManager) : result bool := read (m_isPostLogin (flags v)).
Definition IsConnected (v : VoipManager) : bool := negb (bool_decide (m_currentChannel v = [])).

(** ** Devices, volumes and sessions *)

Definition AuxGetCaptureDevices (v : VoipManager) : VoipManager := SendRequest (aux_get_capture_devices (handle v)) v.
Definition AuxGetRenderDevices (v : VoipManager) : VoipManager := SendRequest (aux_get_render_devices (handle v)) v.
Definition SetCaptureDevice (id : list byte) (v : VoipManager) : VoipManager := SendRequest (aux_set_capture_device (handle v) id) v.
Definition SetRenderDevice (id : list byte) (v : VoipManager) : VoipManager := SendRequest (aux_set_render_device (handle v) id) v.
Definition SetInputVolume (volume : F) (v : VoipManager) : VoipManager := SendRequest (aux_set_mic_level volume (handle v)) v.
Definition SetSpeakerVolume (volume : F) (v : VoipManager) : VoipManager := SendRequest (aux_set_speaker_level volume (handle v)) v.

Definition SetEnabled (enabled : bool) (v : VoipManager) : VoipManager :=
  let f := flags v in
  set_flags (mkFlags (Some enabled) (m_isPostLogin f) (m_pushToTalkEnabled f) (m_isPushToTalkPressed f) (m_pushToTalkKey f)) v.

Definition AddSession (channel accessToken : list byte) (v : VoipManager) : result VoipManager :=
  enabled ← read (m_isEnabled (flags v));
  if negb enabled then Ok v else
  let v := set_channel channel v in
  Ok (SendRequest (sessiongroup_add_session (bstr "sg_" ++ channel) channel channel (handle v) accessToken) v).

Definition RemoveSession (v : VoipManager) : VoipManager :=
  if bool_decide (m_currentChannel v = []) then v else
  let v := SendRequest (sessiongroup_remove_session (bstr "sg_" ++ m_currentChannel v) (m_currentChannel v)) v in
  set_channel [] v.

(** ** The microphone *)

Definition SetMuted (muted : bool) (v : VoipManager) : VoipManager :=
  SendRequest (connector_mute_local_mic (if muted then 1 else 0) (handle v)) v.

Definition SetPushToTalkEnabled (enabled : bool) (v : VoipManager) : VoipManager :=
  let f := flags v in
  SetMuted enabled
    (set_flags (mkFlags (m_isEnabled f) (m_isPostLogin f) (Some enabled) (m_isPushToTalkPressed f) (m_pushToTalkKey f)) v).

Definition SetPushToTalkPressed (pressed : bool) (v : VoipManager) : result VoipManager :=
  let f := flags v in
  enabled ← read (m_pushToTalkEnabled f);
  if negb enabled then Ok v else
  was ← read (m_isPushToTalkPressed f);
  if Bool.eqb was pressed then Ok v else
  Ok (SetMuted (negb pressed)
        (set_flags (mkFlags (m_isEnabled f) (m_isPostLogin f) (m_pushToTalkEnabled f) (Some pressed) (m_pushToTalkKey f)) v)).

Definition SetPushToTalkKey (key : Z) (v : VoipManager) : VoipManager :=
  let f := flags v in
  set_flags (mkFlags (m_isEnabled f) (m_isPostLogin f) (m_pushToTalkEnabled f) (m_isPushToTalkPressed f) (Some key)) v.

(** ** Frames of the client and the thread that sends positions *)

Inductive ClientUpdatePass := ClientUpdatePass_PreFrame | ClientUpdatePass_PostFrame.
#[export] Instance ClientUpdatePass_eq_dec : EqDecision ClientUpdatePass.
Proof. solve_decision. Defined.

(** What the system and the game answer during a frame: the keys that are down,
    and the positions of the local player's soldier and of its camera, if it has
    one. *)
Record Frame := mkFrame {
  pass : ClientUpdatePass; ingame : bool; key_down : Z -> bool; soldier : option ((F * F * F) * (F * F * F)) }.

Definition Call (f : Frame) (v : VoipManager) : result VoipManager :=
  if negb (bool_decide (pass f = ClientUpdatePass_PreFrame)) then Ok v else
  if negb (ingame f) then Ok v else
  enabled ← read (m_pushToTalkEnabled (flags v));
  v ← (if enabled : bool then key ← read (m_pushToTalkKey (flags v)); SetPushToTalkPressed (key_down f key) v else Ok v);
  if bool_decide (m_currentChannel v = []) then Ok v else
  match soldier f with
  | None => Ok (set_location (mkLocation false (position (m_location v)) (camera (m_location v))) v)
  | Some ((x, y, z), cam) => Ok (set_location (mkLocation true (x, above y, z) cam) v)
  end.

(** A round of [PositionUpdateThread]. *)
Definition PositionUpdate (v : VoipManager) : VoipManager :=
  if bool_decide (m_currentChannel v = []) then v else
  if negb (valid (m_location v)) then v else
  SendRequest (session_set_3d_position (m_currentChannel v) (position (m_location v)) (camera (m_location v))) v.

(** ** Messages of the service *)

Inductive Response :=
  | resp_connector_create (connector_handle vcookie : list byte)
  | resp_account_anonymous_login (account_handle : list byte)
  | resp_aux_get_capture_devices (devices : list VoipDevice)
  | resp_aux_get_render_devices (devices : list VoipDevice)
  | resp_other.

Inductive VoipEvent :=
  | evt_account_login_state_change (logged_in : bool)
  | evt_participant_updated (participant_uri : list byte) (is_speaking : bool) (energy : F) (is_muted_for_me is_moderator_muted : bool)
  | evt_session_removed (session_handle : list byte)
  | evt_other.

(** [return_code] is 1 when a request failed. *)
Inductive Message := msg_response (return_code : Z) (resp : Response) | msg_event (evt : VoipEvent).

Definition HandleMessage (msg : Message) (v : VoipManager) : VoipManager :=
  match msg with
  | msg_response return_code resp =>
    if return_code =? 1 then v else
    let a := account v in
    match resp with
    | resp_connector_create connector_handle vcookie =>
      Login vcookie (set_account (mkAccount connector_handle (m_accountHandle a) (m_username a) (m_displayName a) (m_issuer a) (m_domain a)) v)
    | resp_account_anonymous_login account_handle =>
      set_account (mkAccount (m_connectorHandle a) account_handle (m_username a) (m_displayName a) (m_issuer a) (m_domain a)) v
    | resp_aux_get_capture_devices devices => set_devices devices (m_renderDevices v) v
    | resp_aux_get_render_devices devices => set_devices (m_captureDevices v) devices v
    | resp_other => v
    end
  | msg_event evt =>
    match evt with
    | evt_account_login_state_change logged_in => if logged_in then AuxGetRenderDevices (AuxGetCaptureDevices v) else v
    | evt_participant_updated u speaking energy muted_for_me moderator_muted =>
      set_participants (<[u := mkParticipant u speaking energy (muted_for_me || moderator_muted)]> (m_participants v)) v
    | evt_session_removed _ => set_channel [] v
    | evt_other => v
    end
  end.

(** ** Participants

    [order] lists the map in the order its iteration has. *)

Fixpoint contains (sub s : list byte) : bool :=
  bool_decide (take (length sub) s = sub) || match s with [] => false | _ :: s => contains sub s end.

Definition find_participant (order : list VoipParticipantState) (playerName : list byte) : option VoipParticipantState :=
  List.find (fun p => contains (bstr "." ++ playerName ++ bstr ".") (uri p)) order.

Definition IsParticipantSpeaking (order : list VoipParticipantState) (playerName : list byte) : bool :=
  match find_participant order playerName with Some p => isSpeaking p | None => false end.

Definition GetParticipantAudioEnergy (order : list VoipParticipantState) (playerName : list byte) : F :=
  match find_participant order playerName with Some p => audioEnergy p | None => f0 end.

(** ** Histories *)

Inductive op :=
  | OEnable (b : bool) | OCapture (id : list byte) | ORender (id : list byte) | OInput (volume : F) | OSpeaker (volume : F)
  | OMute (b : bool) | OTalk (b : bool) | OKey (k : Z) | OAdd (channel accessToken : list byte) | ORemove
  | OMessage (m : Message) | OFrame (f : Frame) | OPosition | OLogin (r : option VoipLoginResponse).

Definition step (v : VoipManager) (o : op) : result VoipManager :=
  match o with
  | OEnable b => Ok (SetEnabled b v)
  | OCapture id => Ok (SetCaptureDevice id v)
  | ORender id => Ok (SetRenderDevice id v)
  | OInput volume => Ok (SetInputVolume volume v)
  | OSpeaker volume => Ok (SetSpeakerVolume volume v)
  | OMute b => Ok (SetMuted b v)
  | OTalk b => Ok (SetPushToTalkEnabled b v)
  | OKey k => Ok (SetPushToTalkKey k v)
  | OAdd channel accessToken => AddSession channel accessToken v
  | ORemove => Ok (RemoveSession v)
  | OMessage m => Ok (HandleMessage m v)
  | OFrame f => Call f v
  | OPosition => Ok (PositionUpdate v)
  | OLogin r => Ok (OnLogin r v)
  end.

Definition run (ops : list op) (v : VoipManager) : result VoipManager := foldM step v ops.

(** *** The microphone

    What the service was last told about it. *)
Definition mic (r : Request) : option bool :=
  match r with connector_mute_local_mic level _ => Some (level =? 1) | _ => None end.
Definition muted (v : VoipManager) : option bool := list.last (base.omap mic (requests v)).

(** Everything but muting by hand and switching push-to-talk on or off. *)
Definition quiet (o : op) : Prop := match o with OMute _ | OTalk _ => False | _ => True end.

(** The key, and its state in the frames of the game. *)
Definition next_key (k : Z) (o : op) : Z := match o with OKey k' => k' | _ => k end.
Definition seen (k : Z) (o : op) : option bool :=
  match o with
  | OFrame f => if bool_decide (pass f = ClientUpdatePass_PreFrame) && ingame f then Some (key_down f k) else None
  | _ => None
  end.
Fixpoint observed (k : Z) (ops : list op) : list bool :=
  match ops with [] => [] | o :: ops => option_list (seen k o) ++ observed (next_key k o) ops end.

(** Push-to-talk is on with key [k], the flag of the key is [p] and the
    service's microphone [m]. *)
Record talk (k : Z) (p m : bool) (v : VoipManager) : Prop := {
  talk_on : m_pushToTalkEnabled (flags v) = Some true;
  talk_key : m_pushToTalkKey (flags v) = Some k;
  talk_pressed : m_isPushToTalkPressed (flags v) = Some p;
  talk_muted : muted v = Some m;
  talk_enabled : is_Some (m_isEnabled (flags v));
}.

Lemma muted_send r v : muted (SendRequest r v) = match mic r with Some b => Some b | None => muted v end.
Proof.
  unfold muted. cbn [requests SendRequest]. rewrite omap_app. cbn [base.omap list_omap].
  destruct (mic r); [by rewrite last_snoc|by rewrite app_nil_r].
Qed.

Lemma talk_same k p m v v' :
  flags v' = flags v -> muted v' = muted v -> talk k p m v -> talk k p m v'.
Proof. intros Hf Hm []. by split; rewrite ?Hf, ?Hm. Qed.

Lemma talk_send k p m r v : mic r = None -> talk k p m v -> talk k p m (SendRequest r v).
Proof. intros Hr. apply talk_same; [done|]. by rewrite muted_send, Hr. Qed.

Lemma talk_frame k p m v b :
  talk k p m v ->
  exists v', SetPushToTalkPressed b v = Ok v' /\ talk k b (if Bool.eqb p b then m else negb b) v'.
Proof.
  intros Ht. pose proof Ht as [Hon Hk Hp Hm He]. unfold SetPushToTalkPressed. rewrite Hon, Hp. cbn [read of_option mbind result_bind negb].
  destruct (Bool.eqb p b) eqn:E; eexists; (split; [reflexivity|]).
  - by apply eqb_prop in E as ->.
  - split; try done. unfold SetMuted. rewrite muted_send. by destruct b.
Qed.

Lemma HandleMessage_talk msg k p m v : talk k p m v -> talk k p m (HandleMessage msg v).
Proof.
  intros Ht. destruct msg as [code [| | | |]|[[]| | |]]; cbn [HandleMessage]; try destruct (code =? 1); try exact Ht;
    unfold Login, AuxGetRenderDevices, AuxGetCaptureDevices; repeat (apply talk_send; [done|]);
    by apply (talk_same _ _ _ v).
Qed.

Lemma Call_talk f k p m v :
  talk k p m v ->
  exists v', Call f v = Ok v' /\
    match seen k (OFrame f) with
    | Some b => talk k b (if Bool.eqb p b then m else negb b) v'
    | None => talk k p m v'
    end.
Proof.
  intros Ht. unfold Call. cbn [seen]. destruct (bool_decide _); cbn [negb andb]; [|by eexists].
  destruct (ingame f); cbn [negb]; [|by eexists]. rewrite (talk_on _ _ _ _ Ht). cbn [read of_option mbind result_bind].
  rewrite (talk_key _ _ _ _ Ht). cbn [read of_option mbind result_bind].
  destruct (talk_frame _ _ _ _ (key_down f k) Ht) as (v1 & -> & Ht1). cbn [mbind result_bind].
  destruct (bool_decide _); [by eexists|]. destruct (soldier f) as [[[[x y] z] cam]|];
    eexists; (split; [reflexivity|]); by apply (talk_same _ _ _ v1).
Qed.

Lemma step_talk o k p m v :
  quiet o -> talk k p m v ->
  exists v', step v o = Ok v' /\
    match seen k o with
    | Some b => talk (next_key k o) b (if Bool.eqb p b then m else negb b) v'
    | None => talk (next_key k o) p m v'
    end.
Proof.
  intros Hq Ht. destruct o; try done; cbn [step seen next_key]; try (by apply Call_talk);
    try (eexists; split; [reflexivity|]); try (by apply talk_send); try (by apply HandleMessage_talk).
  - destruct Ht. by split.
  - destruct Ht. by split.
  - unfold AddSession. destruct (talk_enabled _ _ _ _ Ht) as [e ->]. cbn [read of_option mbind result_bind].
    destruct e; cbn [negb]; eexists; (split; [reflexivity|]); [|done]. apply talk_send; [done|].
    by apply (talk_same _ _ _ v).
  - unfold RemoveSession. destruct (bool_decide _); [done|].
    eapply (talk_same _ _ _ (SendRequest _ v)); [reflexivity..|by apply talk_send].
  - unfold PositionUpdate. destruct (bool_decide _); [done|]. destruct (negb _); [done|]. by apply talk_send.
  - destruct r as [r|]; [|done]. unfold OnLogin, Connect.
    pose proof (talk_send k p m (connector_create (bstr "c1") (bstr "https://unity.vivox.com/appconfig/" ++ issuer r) (token r)) v eq_refl Ht) as [].
    by split.
Qed.

Lemma last_cons_default {A} (x d : A) l : default d (list.last (x :: l)) = default x (list.last l).
Proof. rewrite last_cons. by destruct (list.last l). Qed.

Lemma run_talk ops k p m v :
  Forall quiet ops -> talk k p m v ->
  exists v', run ops v = Ok v' /\
    (m = negb p \/ negb p ∈ observed k ops -> muted v' = Some (negb (default p (list.last (observed k ops))))) /\
    (negb p ∉ observed k ops -> muted v' = Some m).
Proof.
  intros Hq. revert k p m v. induction Hq as [|o ops Ho Hq IH]; intros k p m v Ht.
  - exists v. split; [done|]. rewrite (talk_muted _ _ _ _ Ht). split; [|done]. intros [->|[]%elem_of_nil]. done.
  - destruct (step_talk o k p m v Ho Ht) as (v1 & E & Ht1). unfold run. cbn [foldM observed]. rewrite E.
    destruct (seen k o) as [b|]; [change (option_list (Some b) ++ ?l) with (b :: l)|by apply IH].
    destruct (IH _ _ _ _ Ht1) as (v' & Hrun & Hlast & Hsame). exists v'. split; [exact Hrun|]. rewrite last_cons_default.
    destruct (Bool.eqb p b) eqn:Ep; [apply eqb_prop in Ep as ->|apply eqb_false_iff in Ep].
    + split; [|intros Hno; apply Hsame; intros Hin; apply Hno; by right].
      intros [->|[Hb|Hin]%elem_of_cons]; apply Hlast; [by left|by destruct b|by right].
    + split; [intros _; apply Hlast; by left|]. intros Hno. destruct Hno. apply elem_of_cons. left. by destruct p, b.
Qed.

(** After push-to-talk was switched on, whatever else happens to the voice
    chat, the microphone follows the key: it is muted exactly when the key was
    up in the last frame of the game. The exception is a key whose flag was
    still set from before: as long as it is held the microphone stays muted,
    and it follows the key once a frame has seen it up. *)
Theorem push_to_talk_follows v k p ops :
  m_pushToTalkKey (flags v) = Some k -> m_isPushToTalkPressed (flags v) = Some p -> is_Some (m_isEnabled (flags v)) ->
  Forall quiet ops ->
  exists v', run ops (SetPushToTalkEnabled true v) = Ok v' /\
    (p = false \/ false ∈ observed k ops -> muted v' = Some (negb (default p (list.last (observed k ops))))) /\
    (p = true -> false ∉ observed k ops -> muted v' = Some true).
Proof.
  intros Hk Hp He Hq.
  assert (Ht : talk k p true (SetPushToTalkEnabled true v)).
  { split; try done. unfold SetPushToTalkEnabled, SetMuted. by rewrite muted_send. }
  destruct (run_talk ops k p true _ Hq Ht) as (v' & Hrun & Hlast & Hsame). exists v'. split; [done|]. split.
  - intros [->|Hin]; apply Hlast; [by left|destruct p; [by right|by left]].
  - intros -> Hno. by apply Hsame.
Qed.

(** *** The session *)

Definition of_session (r : Request) : bool :=
  match r with sessiongroup_add_session _ _ _ _ _ | sessiongroup_remove_session _ _ | session_set_3d_position _ _ _ => true | _ => false end.
Definition session_requests (v : VoipManager) : list Request := base.filter of_session (requests v).

Definition adds (o : op) : Prop := match o with OAdd _ _ => True | _ => False end.

(** Without a channel nothing is asked about sessions. *)
Record apart (rs : list Request) (v : VoipManager) : Prop := {
  apart_channel : m_currentChannel v = [];
  apart_requests : session_requests v = rs;
}.

Lemma apart_same rs v v' :
  m_currentChannel v' = m_currentChannel v -> requests v' = requests v -> apart rs v -> apart rs v'.
Proof. intros Hc Hr []. unfold session_requests in *. by split; [rewrite Hc|unfold session_requests; rewrite Hr]. Qed.

Lemma apart_send rs r v : of_session r = false -> apart rs v -> apart rs (SendRequest r v).
Proof.
  intros Hr []. split; [done|]. unfold session_requests in *. cbn [requests SendRequest].
  rewrite list.filter_app, list.filter_cons_False, app_nil_r by (rewrite Hr; by intros []). done.
Qed.

Lemma step_apart rs o v v' : ~ adds o -> apart rs v -> step v o = Ok v' -> apart rs v'.
Proof.
  intros Ho Ha. destruct o; cbn [step]; try (intros [= <-]); try (by apply apart_send); try (by destruct Ho; done);
    try (by apply (apart_same _ v)).
  - unfold SetPushToTalkEnabled. apply apart_send; [done|]. by apply (apart_same _ v).
  - unfold RemoveSession. by rewrite bool_decide_true by apply Ha.
  - destruct m as [code [| | | |]|[[]| | |]]; cbn [HandleMessage]; try destruct (code =? 1); try exact Ha;
      unfold Login, AuxGetRenderDevices, AuxGetCaptureDevices; repeat (apply apart_send; [done|]);
      try (by apply (apart_same _ v)). destruct Ha. by split.
  - unfold Call. destruct (negb _); [by intros [= <-]|]. destruct (negb _); [by intros [= <-]|].
    destruct (m_pushToTalkEnabled (flags v)) as [[]|]; cbn [read of_option mbind result_bind]; [| |done].
    + destruct (m_pushToTalkKey (flags v)) as [k|]; cbn [read of_option mbind result_bind]; [|done].
      destruct (SetPushToTalkPressed _ _) as [v1|e] eqn:E; cbn [mbind result_bind]; [|done].
      assert (H1 : apart rs v1).
      { revert E. unfold SetPushToTalkPressed. destruct (m_pushToTalkEnabled _) as [[]|]; cbn [read of_option mbind result_bind negb]; [|by intros [= <-]|done].
        destruct (m_isPushToTalkPressed _); cbn [read of_option mbind result_bind]; [|done].
        destruct (Bool.eqb _ _); intros [= <-]; [done|]. apply apart_send; [done|]. by apply (apart_same _ v). }
      rewrite bool_decide_true by apply H1. by intros [= <-].
    + rewrite bool_decide_true by apply Ha. by intros [= <-].
  - unfold PositionUpdate. by rewrite bool_decide_true by apply Ha.
  - destruct r as [r|]; [|done]. unfold OnLogin, Connect. apply (apart_send rs (connector_create (bstr "c1") (bstr "https://unity.vivox.com/appconfig/" ++ issuer r) (token r))) in Ha; [|done].
    destruct Ha. by split.
Qed.

Lemma run_apart rs ops v v' : Forall (fun o => ~ adds o) ops -> apart rs v -> run ops v = Ok v' -> apart rs v'.
Proof.
  intros Ho. revert v. induction Ho as [|o ops Ho _ IH]; intros v Ha; unfold run; cbn [foldM]; [by intros [= <-]|].
  destruct (step v o) as [v1|] eqn:E; [|done]. apply IH. by eapply step_apart.
Qed.

(** C29: A client that goes from one channel to another forgets the new one when
    the service reports that the session of the old one is removed: the handle
    in the message is not looked at. From then on it counts as not connected,
    sends no positions, and nothing but another join makes it send a request
    about a session: it stays in the channel. *)
Theorem late_session_removed v a b accessToken :
  m_isEnabled (flags v) = Some true ->
  exists v', run [ORemove; OAdd b accessToken; OMessage (msg_event (evt_session_removed a))] v = Ok v' /\
    list.last (requests v') = Some (sessiongroup_add_session (bstr "sg_" ++ b) b b (handle v) accessToken) /\
    IsConnected v' = false /\
    forall ops v'', Forall (fun o => ~ adds o) ops -> run ops v' = Ok v'' ->
      IsConnected v'' = false /\ session_requests v'' = session_requests v'.
Proof.
  intros He. unfold run. cbn [foldM step]. unfold AddSession.
  assert (E : flags (RemoveSession v) = flags v) by (unfold RemoveSession; by destruct (bool_decide _)).
  assert (Eh : handle (RemoveSession v) = handle v) by (unfold RemoveSession; by destruct (bool_decide _)).
  rewrite E, He. cbn [read of_option mbind result_bind negb]. eexists. split; [reflexivity|].
  split; [|split; [done|]].
  - cbn [HandleMessage set_channel SendRequest requests]. rewrite last_snoc. unfold handle in *. cbn [set_channel account]. by rewrite Eh.
  - intros ops v'' Hops Hrun. eapply run_apart in Hrun as [Hc Hs]; [|exact Hops|by split]. unfold IsConnected. by rewrite Hc, bool_decide_true.
Qed.

(** Until the settings arrive the flags have no value, and a frame of a game
    reads one of them. *)
Lemma first_frame_undefined f :
  pass f = ClientUpdatePass_PreFrame -> ingame f = true -> Call f VoipManager_new = Fault Undefined.
Proof. intros Hp Hi. unfold Call. by rewrite Hp, Hi. Qed.
End voip.

Arguments VoipManager : clear implicits.
Arguments Frame : clear implicits.
Arguments op : clear implicits.

(** ** Samples *)

(** A settings message with push-to-talk on key 86, for a manager whose flag of the key is set. *)
Definition sample_voip : VoipManager Z :=
  set_flags (mkFlags (Some true) (Some true) (Some false) (Some true) (Some 86)) (VoipManager_new 0).
Definition sample_frame (down : bool) : Frame Z := mkFrame ClientUpdatePass_PreFrame true (fun k => (k =? 86) && down) None.

Lemma push_to_talk_follows_witness :
  exists v', run (fun y => y + 1) [OFrame (sample_frame true); OMessage (msg_event evt_other); OFrame (sample_frame false); OFrame (sample_frame true)]
      (SetPushToTalkEnabled true sample_voip) = Ok v' /\ muted v' = Some false.
Proof.
  destruct (push_to_talk_follows (fun y => y + 1) sample_voip 86 true
    [OFrame (sample_frame true); OMessage (msg_event evt_other); OFrame (sample_frame false); OFrame (sample_frame true)])
    as (v' & Hrun & Hlast & _); [done|done|by eexists|by repeat constructor|].
  exists v'. split; [exact Hrun|]. rewrite Hlast; [done|]. right. right. by left.
Defined.

Lemma late_session_removed_witness :
  exists v', run (fun y => y + 1) [ORemove; OAdd (bstr "b") (bstr "t"); OMessage (msg_event (evt_session_removed (bstr "a")))] sample_voip = Ok v' /\
    IsConnected v' = false.
Proof.
  destruct (late_session_removed (fun y => y + 1) sample_voip (bstr "a") (bstr "b") (bstr "t")) as (v' & Hrun & _ & Hc & _); [done|].
  by exists v'.
Defined.
