(* ===== verification/Client.v ===== *)
(** The client (Source/Core/Client.cpp): joining and leaving servers, the token
    and the voice channel that go with it, and the start and stop of a hosted
    server as the client drives it (Source/Core/Server.cpp).

    The state is that of the program: the client's, the parts of the server's
    and of the game's settings that they share, and the static variables of the
    hooks. What the hooks have the game and the services do is recorded in
    order; the server exists before the hooks are installed. *)

From S2P Require Import Prelude.
From S2P Require Import ByteBuffer.
From S2P Require Import StringUtils.
From S2P Require Import Voip.
From S2P Require Import Server.

Section client.
Context {F : Type} (f0 : F) (above : F -> F).

Inductive ClientState :=
  | ClientState_WaitingForStaticBundleLoad | ClientState_LoadProfileOptions | ClientState_LostConnection
  | ClientState_WaitingForUnload | ClientState_Startup | ClientState_StartServer | ClientState_WaitingForLevel
  | ClientState_StartLoadingLevel | ClientState_WaitingForLevelLoaded | ClientState_WaitingForLevelLink
  | ClientState_LevelLinked | ClientState_WaitingForGhosts | ClientState_Ingame | ClientState_LeaveIngame
  | ClientState_ConnectToServer | ClientState_ShuttingDown | ClientState_Shutdown | ClientState_None.
#[export] Instance ClientState_eq_dec : EqDecision ClientState.
Proof. solve_decision. Defined.

Record SocketSpawnInfo := mkInfo { isProxied : bool; proxyAddress : list byte; serverName : list byte; password : list byte }.
Record ServerCreationInfo := mkCreation { ci_level : list byte; ci_mode : list byte; maxPlayers : Z }.

Record Client := mkClient {
  m_joining : bool; m_spectator : bool; m_connected : bool; m_clientState : ClientState; m_joinToken : list byte;
  m_socketManager : bool; m_voipManager : option (VoipManager F) }.

(** [startedAtStartup] is the negation of the static flag of [OnClientStartup]. *)
Record Server := mkServer {
  m_runningHosted : bool; m_restarting : bool; m_onlineMode : bool; m_serverId : list byte;
  m_socketSpawnInfo : SocketSpawnInfo; m_creationInfo : option ServerCreationInfo; m_hooksRemoved : bool; startedAtStartup : bool }.

Record Settings := mkSettings {
  ServerIp : list byte; ServerPort : Z; MaxClientCount : Z; MaxServerConnectionCount : Z; FastExit : bool;
  Level : list byte; DefaultLayerInclusion : list byte; MaxSpectatorCount : Z }.

(** What is left to the game and the services. *)
Inductive Effect :=
  | EnableGameHooks | RegisterServer (info : ServerCreationInfo) | ServerManagementConnect (id : list byte)
  | LoadLevel (level mode : list byte) | CloseServerSocket | InitializeGameSettings | OnServerJoined | OnServerDisconnect
  | JoinChannel (server : list byte) | ConnectTo (address : list byte) | StateChange (current last : ClientState).

(** [joinCalls] are the calls of [JoinChannel] that are not answered yet. *)
Record Game := mkGame {
  client : Client; server : Server; settings : Settings; m_allowInteraction : bool; firstStartup : bool;
  joinCalls : list (list byte); effects : list Effect }.

Definition set_client (c : Client) (g : Game) : Game :=
  mkGame c (server g) (settings g) (m_allowInteraction g) (firstStartup g) (joinCalls g) (effects g).
Definition set_server (s : Server) (g : Game) : Game :=
  mkGame (client g) s (settings g) (m_allowInteraction g) (firstStartup g) (joinCalls g) (effects g).
Definition set_settings (s : Settings) (g : Game) : Game :=
  mkGame (client g) (server g) s (m_allowInteraction g) (firstStartup g) (joinCalls g) (effects g).
Definition set_interaction (b : bool) (g : Game) : Game :=
  mkGame (client g) (server g) (settings g) b (firstStartup g) (joinCalls g) (effects g).
Definition set_started (g : Game) : Game :=
  mkGame (client g) (server g) (settings g) (m_allowInteraction g) false (joinCalls g) (effects g).
Definition set_joinCalls (l : list (list byte)) (g : Game) : Game :=
  mkGame (client g) (server g) (settings g) (m_allowInteraction g) (firstStartup g) l (effects g).
Definition act (e : Effect) (g : Game) : Game :=
  mkGame (client g) (server g) (settings g) (m_allowInteraction g) (firstStartup g) (joinCalls g) (effects g ++ [e]).

Definition set_voip (v : option (VoipManager F)) (g : Game) : Game :=
  let c := client g in
  set_client (mkClient (m_joining c) (m_spectator c) (m_connected c) (m_clientState c) (m_joinToken c) (m_socketManager c) v) g.
Definition set_joining (joining connected : bool) (g : Game) : Game :=
  let c := client g in
  set_client (mkClient joining (m_spectator c) connected (m_clientState c) (m_joinToken c) (m_socketManager c) (m_voipManager c)) g.
Definition set_spectator (b : bool) (g : Game) : Game :=
  let c := client g in
  set_client (mkClient (m_joining c) b (m_connected c) (m_clientState c) (m_joinToken c) (m_socketManager c) (m_voipManager c)) g.
Definition set_clientState (st : ClientState) (g : Game) : Game :=
  let c := client g in
  set_client (mkClient (m_joining c) (m_spectator c) (m_connected c) st (m_joinToken c) (m_socketManager c) (m_voipManager c)) g.
Definition set_socketManager (b : bool) (g : Game) : Game :=
  let c := client g in
  set_client (mkClient (m_joining c) (m_spectator c) (m_connected c) (m_clientState c) (m_joinToken c) b (m_voipManager c)) g.
Definition set_ServerIp (ip : list byte) (g : Game) : Game :=
  let s := settings g in
  set_settings (mkSettings ip (ServerPort s) (MaxClientCount s) (MaxServerConnectionCount s) (FastExit s) (Level s)
                  (DefaultLayerInclusion s) (MaxSpectatorCount s)) g.
Definition set_ServerPort (port : Z) (g : Game) : Game :=
  let s := settings g in
  set_settings (mkSettings (ServerIp s) port (MaxClientCount s) (MaxServerConnectionCount s) (FastExit s) (Level s)
                  (DefaultLayerInclusion s) (MaxSpectatorCount s)) g.
Definition set_Level (level inclusion : list byte) (g : Game) : Game :=
  let s := settings g in
  set_settings (mkSettings (ServerIp s) (ServerPort s) (MaxClientCount s) (MaxServerConnectionCount s) (FastExit s) level
                  inclusion (MaxSpectatorCount s)) g.
Definition set_spawnInfo (info : SocketSpawnInfo) (g : Game) : Game :=
  let s := server g in
  set_server (mkServer (m_runningHosted s) (m_restarting s) (m_onlineMode s) (m_serverId s) info (m_creationInfo s)
                (m_hooksRemoved s) (startedAtStartup s)) g.

Definition Client_new : Client := mkClient false false false ClientState_None [] false None.

(** ** The hosted server

    [IsOnlineMode] is the environment's answer; [registered] that of
    [RegisterServer]. *)
Context (IsOnlineMode : bool) (registered : ServerCreationInfo -> option (list byte)).

Definition Server_new : Server := mkServer false false IsOnlineMode [] (mkInfo false [] [] []) None false false.

(** [Register(true)], with the creation information just set. *)
Definition Register (info : ServerCreationInfo) (g : Game) : Game :=
  let s := server g in
  if negb (m_onlineMode s) then g else
  let g := act (RegisterServer info) g in
  match registered info with
  | None => act (ServerManagementConnect (bstr "DUMMY")) g
  | Some id =>
    act (ServerManagementConnect id)
      (set_server (mkServer (m_runningHosted s) (m_restarting s) true id (m_socketSpawnInfo s) (m_creationInfo s)
                     (m_hooksRemoved s) (startedAtStartup s)) g)
  end.

Definition Start (info : ServerCreationInfo) (changeState : bool) (g : Game) : Game :=
  let g := act EnableGameHooks g in
  let g := set_settings (mkSettings [] 25200 (maxPlayers info) (maxPlayers info) true (CopyWithArena (ci_level info))
                           (CopyWithArena (bstr "GameMode=" ++ ci_mode info)) 4) g in
  let s := server g in
  let g := set_server (mkServer (m_runningHosted s) (m_restarting s) (m_onlineMode s) (m_serverId s) (m_socketSpawnInfo s)
                         (Some info) (m_hooksRemoved s) (startedAtStartup s)) g in
  let g := Register info g in
  let s := server g in
  let onlineMode := if bool_decide (m_serverId s = []) then false else m_onlineMode s in
  let restarting := if m_runningHosted s then true else m_restarting s in
  let g := if changeState then act (LoadLevel (ci_level info) (ci_mode info)) g else g in
  set_server (mkServer true restarting onlineMode (m_serverId s) (mkInfo false [] (m_serverId s) []) (m_creationInfo s)
                false (startedAtStartup s)) g.

(** Closing the last socket of the server's manager is an effect. *)
Definition Stop (g : Game) : Game :=
  let s := server g in
  act CloseServerSocket
    (set_server (mkServer false (m_restarting s) IsOnlineMode [] (m_socketSpawnInfo s) (m_creationInfo s)
                   (m_hooksRemoved s) (startedAtStartup s)) g).

Definition OnClientStartup (g : Game) : Game :=
  let s := server g in
  if startedAtStartup s then g else
  match m_creationInfo s with
  | None => g
  | Some info =>
    Start info false
      (set_server (mkServer (m_runningHosted s) (m_restarting s) (m_onlineMode s) (m_serverId s) (m_socketSpawnInfo s)
                     (m_creationInfo s) (m_hooksRemoved s) true) g)
  end.

(** ** Voice channels *)

Definition voip_RemoveSession (g : Game) : Game := set_voip (RemoveSession <$> m_voipManager (client g)) g.

Definition AttemptJoinVoip (g : Game) : result Game :=
  match m_voipManager (client g) with
  | None => Ok g
  | Some v =>
    loggedIn ← IsLoggedIn v;
    let name := serverName (m_socketSpawnInfo (server g)) in
    if negb loggedIn || bool_decide (name = []) || IsConnected v then Ok g else
    Ok (act (JoinChannel name) (set_joinCalls (joinCalls g ++ [name]) g))
  end.

(** The callback of the n-th unanswered call. *)
Definition OnChannelJoined (n : nat) (response : option (list byte * list byte)) (g : Game) : result Game :=
  match joinCalls g !! n with
  | None => Ok g
  | Some _ =>
    let g := set_joinCalls (delete n (joinCalls g)) g in
    match response with
    | None => Ok g
    | Some (channel, accessToken) =>
      v ← of_option Undefined (m_voipManager (client g));
      v ← AddSession channel accessToken v;
      Ok (set_voip (Some v) g)
    end
  end.

Record SetVoipSettingsRequest := mkVoipSettings {
  enabled : bool; inputDeviceId : list byte; outputDeviceId : list byte; inputVolume : F; outputVolume : F;
  pushToTalkEnabled : bool; pushToTalkKey : option Z }.

(** [ClientInterfaceService::SetVoipSettings]. *)
Definition SetVoipSettings (request : SetVoipSettingsRequest) (g : Game) : result Game :=
  match m_voipManager (client g) with
  | None => Ok g
  | Some v =>
    let v := SetEnabled (enabled request) v in
    let v := SetRenderDevice (outputDeviceId request) (SetCaptureDevice (inputDeviceId request) v) in
    let v := SetSpeakerVolume (outputVolume request) (SetInputVolume (inputVolume request) v) in
    let v := SetPushToTalkEnabled (pushToTalkEnabled request) v in
    let v := match pushToTalkKey request with
             | Some key => if pushToTalkEnabled request then SetPushToTalkKey key v else v
             | None => v
             end in
    let g := set_voip (Some v) g in
    if enabled request then AttemptJoinVoip g else Ok (voip_RemoveSession g)
  end.

(** ** Changes of the client's state

    The game's own handler follows as an effect. *)

Definition kFrontEnd : list byte := bstr "Levels/FrontEnd/FrontEnd".

(** The branch of [ClientState_Startup]: leaving the server the client is on,
    the hosted server, and the rest. *)
Definition leave_server (g : Game) : Game :=
  let g := set_interaction false g in
  let g := if (m_runningHosted (server g) || m_connected (client g)) && m_socketManager (client g) then set_socketManager false g else g in
  let g := if m_connected (client g) then set_spectator false (voip_RemoveSession g) else g in
  set_joining (m_joining (client g)) false g.

Definition stop_server (g : Game) : Game :=
  if m_runningHosted (server g) then
    if negb (m_restarting (server g)) then set_Level kFrontEnd [] (set_spectator false (voip_RemoveSession (Stop g)))
    else
      let s := server g in
      set_server (mkServer (m_runningHosted s) false (m_onlineMode s) (m_serverId s) (m_socketSpawnInfo s) (m_creationInfo s)
                    (m_hooksRemoved s) (startedAtStartup s)) g
  else if negb (m_joining (client g)) && negb (firstStartup g) then set_ServerIp [] g
  else g.

Definition startup (g : Game) : Game := set_started (OnClientStartup (stop_server (leave_server g))).

Definition ClientStateChangeHk (currentClientState lastClientState : ClientState) (g : Game) : Game :=
  let g := set_clientState currentClientState g in
  let g :=
    match currentClientState with
    | ClientState_Startup => startup g
    | ClientState_Ingame =>
      let g := set_interaction true (act OnServerJoined g) in
      if m_runningHosted (server g) then act InitializeGameSettings g else g
    | _ => g
    end in
  act (StateChange currentClientState lastClientState) g.

Definition ChangeClientState (currentClientState : ClientState) (g : Game) : Game :=
  ClientStateChangeHk currentClientState (m_clientState (client g)) g.

(** ** Joining a server

    [GetServer] answers the pinned proxy of a server it knows; [proxies] are
    the identifiers and addresses of the service's proxies. *)
Context (GetServer : list byte -> option (option (list byte))) (proxies : list (list byte * list byte)).

Definition find_proxy (id : list byte) : option (list byte) :=
  snd <$> List.find (fun p => bool_decide (p.1 = id)) proxies.

Definition store_join (id ip : list byte) (port : Z) (spectate proxied : bool) (g : Game) : Game :=
  let g := set_ServerIp (CopyWithArena ip) g in
  let g := set_spawnInfo (mkInfo proxied (if proxied then ip else []) id []) g in
  let g := set_spectator spectate (set_joining true (m_connected (client g)) g) in
  set_ServerPort port g.

Definition join_at (id ip : list byte) (port : Z) (spectate proxied changeState : bool) (g : Game) : Game :=
  let g := store_join id ip port spectate proxied g in
  if changeState then ChangeClientState ClientState_Startup g else g.

Definition JoinServer (id ip : list byte) (port : Z) (spectate proxied changeState : bool) (g : Game) : Game :=
  if bool_decide (id = []) then join_at id ip port spectate proxied changeState g else
  match GetServer id with
  | None => g
  | Some pinned => join_at id (default ip (pinned ≫= find_proxy)) port spectate proxied changeState g
  end.

(** The console's command passes a string literal for [spectate]; the pointer
    converts to [true]. *)
Definition JoinServerCommand (ip : list byte) (port : Z) (g : Game) : Game := JoinServer [] ip port true false true g.

Record MainLoopInitJoinServerEvent := mkJoinEvent {
  e_id : list byte; e_ip : list byte; e_port : Z; e_spectate : bool; e_proxied : bool }.

Definition OnEvent (e : MainLoopInitJoinServerEvent) (g : Game) : Game :=
  JoinServer (e_id e) (e_ip e) (e_port e) (e_spectate e) (e_proxied e) false g.

(** ** Connecting *)

Definition HandleClientServerJoin (message : Joins.NetworkCreatePlayerMessage) (g : Game)
    : result (Joins.NetworkCreatePlayerMessage * Game) :=
  let c := client g in
  if negb (m_joining c) && negb (m_connected c) && negb (m_runningHosted (server g)) then Ok (message, g) else
  if negb (m_onlineMode (server g)) then Ok (message, g) else
  let message := Joins.mkMessage (CopyWithArena (Joins.kPrefix ++ m_joinToken c)) (m_spectator c) in
  g ← AttemptJoinVoip g;
  Ok (message, g).

(** What the client's socket manager is created with, when it is the module's. *)
Definition ClientInitNetworkHk (g : Game) : option SocketSpawnInfo :=
  if m_runningHosted (server g) || bool_decide (0 < len (ServerIp (settings g))) then Some (m_socketSpawnInfo (server g)) else None.

Definition ClientConnectToAddressHk (ipAddress : list byte) (g : Game) : Game :=
  let g := act (ConnectTo ipAddress) g in
  if m_joining (client g) then set_joining false true g else g.

Definition SecureReason_TimedOut : Z := 0xB59C9896.
Definition SecureReason_NoReply : Z := 0xCD9691DA.
Definition SecureReason_KickedByAdmin : Z := 0xC765936.
Definition SecureReason_KickedViaFairFight : Z := 0x78B15894.

(** The reason and the text the player is shown. *)
Definition ClientConnectionOnDisconnectedHk (reason : Z) (reasonText : list byte) (g : Game) : (Z * list byte) * Game :=
  let shown :=
    if reason =? SecureReason_TimedOut then (SecureReason_KickedViaFairFight, bstr "Timed out.")
    else if reason =? SecureReason_NoReply then (SecureReason_KickedViaFairFight, bstr "The server did not reply.")
    else if reason =? SecureReason_KickedByAdmin then
      (SecureReason_KickedViaFairFight, CopyWithArena (bstr "You were kicked by a server admin." ++ [Byte.x0a; Byte.x0a] ++ bstr "Reason: " ++ reasonText))
    else (reason, reasonText) in
  (shown, act OnServerDisconnect g).

(** ** What the parts leave alone *)

Lemma Register_client info g : client (Register info g) = client g.
Proof. unfold Register. destruct (negb _); [done|]. by destruct (registered info). Qed.

Lemma Start_client info b g : client (Start info b g) = client g.
Proof. unfold Start. cbn [set_server client]. destruct b; cbn [act client]; by rewrite Register_client. Qed.

Lemma OnClientStartup_client g : client (OnClientStartup g) = client g.
Proof. unfold OnClientStartup. destruct (startedAtStartup _); [done|]. destruct (m_creationInfo _); [|done]. by rewrite Start_client. Qed.

Lemma Register_settings info g : settings (Register info g) = settings g.
Proof. unfold Register. destruct (negb _); [done|]. by destruct (registered info). Qed.

Lemma Start_ServerIp info b g : ServerIp (settings (Start info b g)) = [].
Proof. unfold Start. cbn [set_server settings]. destruct b; cbn [act settings]; by rewrite Register_settings. Qed.

Lemma OnClientStartup_ServerIp g : ServerIp (settings g) = [] -> ServerIp (settings (OnClientStartup g)) = [].
Proof.
  intros H. unfold OnClientStartup. destruct (startedAtStartup _); [done|]. destruct (m_creationInfo _); [|done]. by rewrite Start_ServerIp.
Qed.

(** ** Joining as a spectator *)

(** A hosted server is stopped, or the last one left, by the startup. *)
Definition leaves (g : Game) : bool := m_connected (client g) || (m_runningHosted (server g) && negb (m_restarting (server g))).

(** What leaving changes. *)
Lemma leave_server_spec g :
  server (leave_server g) = server g /\ settings (leave_server g) = settings g /\ firstStartup (leave_server g) = firstStartup g /\
  joinCalls (leave_server g) = joinCalls g /\ effects (leave_server g) = effects g /\
  m_connected (client (leave_server g)) = false /\ m_joining (client (leave_server g)) = m_joining (client g) /\
  m_spectator (client (leave_server g)) = m_spectator (client g) && negb (m_connected (client g)) /\
  m_voipManager (client (leave_server g)) =
    (if m_connected (client g) then RemoveSession <$> m_voipManager (client g) else m_voipManager (client g)).
Proof.
  destruct g as [[joining spectator connected cs token sockets voip] s st ai first calls eff]. unfold leave_server.
  cbn [set_interaction server client m_connected m_socketManager].
  destruct ((_ || _) && _), connected; cbn -[RemoveSession]; rewrite ?andb_true_r, ?andb_false_r; repeat split.
Qed.

Lemma stop_server_spectator g :
  m_spectator (client (stop_server g)) = m_spectator (client g) && negb (m_runningHosted (server g) && negb (m_restarting (server g))).
Proof.
  unfold stop_server. destruct (m_runningHosted (server g)).
  - destruct (m_restarting (server g)); cbn [negb andb]; [by rewrite andb_true_r|by rewrite andb_false_r].
  - rewrite andb_true_r. by destruct (_ && _).
Qed.

Lemma startup_spectator g : m_spectator (client (startup g)) = m_spectator (client g) && negb (leaves g).
Proof.
  unfold startup, leaves. cbn [set_started client]. rewrite OnClientStartup_client, stop_server_spectator.
  destruct (leave_server_spec g) as (-> & _ & _ & _ & _ & _ & _ & -> & _). by rewrite <- andb_assoc, negb_orb.
Qed.

Lemma store_join_spec id ip port spectate proxied g :
  let g' := store_join id ip port spectate proxied g in
  m_spectator (client g') = spectate /\ m_connected (client g') = m_connected (client g) /\ m_joining (client g') = true /\
  m_runningHosted (server g') = m_runningHosted (server g) /\ m_restarting (server g') = m_restarting (server g) /\
  ServerIp (settings g') = CopyWithArena ip.
Proof. destruct g as [[] [] [] ? ? ? ?]. repeat split. Qed.

Lemma set_clientState_spec cs g :
  m_spectator (client (set_clientState cs g)) = m_spectator (client g) /\
  m_connected (client (set_clientState cs g)) = m_connected (client g) /\
  m_joining (client (set_clientState cs g)) = m_joining (client g) /\
  m_voipManager (client (set_clientState cs g)) = m_voipManager (client g).
Proof. by destruct g as [[] ? ? ? ? ? ?]. Qed.

Lemma act_spec e g :
  client (act e g) = client g /\ server (act e g) = server g /\ settings (act e g) = settings g /\ joinCalls (act e g) = joinCalls g.
Proof. done. Qed.

Lemma ClientStateChangeHk_startup last g :
  exists e, ClientStateChangeHk ClientState_Startup last g = act e (startup (set_clientState ClientState_Startup g)).
Proof. by eexists. Qed.

Lemma ChangeClientState_startup_spectator g :
  m_spectator (client (ChangeClientState ClientState_Startup g)) = m_spectator (client g) && negb (leaves g).
Proof.
  unfold ChangeClientState. destruct (ClientStateChangeHk_startup (m_clientState (client g)) g) as [e ->].
  destruct (act_spec e (startup (set_clientState ClientState_Startup g))) as (-> & _). rewrite startup_spectator. unfold leaves.
  destruct (set_clientState_spec ClientState_Startup g) as (-> & -> & _). done.
Qed.

Lemma join_at_spectator id ip port spectate proxied changeState g :
  m_spectator (client (join_at id ip port spectate proxied changeState g)) = spectate && negb (changeState && leaves g).
Proof.
  unfold join_at. destruct (store_join_spec id ip port spectate proxied g) as (Hs & Hc & _ & Hh & Hr & _).
  destruct changeState; [|by rewrite Hs, andb_true_r]. by rewrite ChangeClientState_startup_spectator, Hs; unfold leaves; rewrite Hc, Hh, Hr.
Qed.

(** Joining another server from a server, or while hosting one, always joins
    as a player: the startup that leaves the old server resets the wish to
    spectate that was just stored. From the menus, and with an event, the wish
    is kept; an unknown server changes nothing. The console's command joins as
    a spectator from the menus. *)
Theorem JoinServer_spectator id ip port spectate proxied changeState g :
  m_spectator (client (JoinServer id ip port spectate proxied changeState g)) =
    match id, GetServer id with
    | _ :: _, None => m_spectator (client g)
    | _, _ => spectate && negb (changeState && leaves g)
    end /\
  m_spectator (client (JoinServerCommand ip port g)) = negb (leaves g).
Proof.
  split; [|apply join_at_spectator]. unfold JoinServer. destruct id as [|c id]; [apply join_at_spectator|].
  rewrite bool_decide_false by done. destruct (GetServer (c :: id)) as [pinned|]; [apply join_at_spectator|done].
Qed.

(** ** The token *)

Definition voip_ready (g : Game) : Prop :=
  match m_voipManager (client g) with Some v => is_Some (m_isPostLogin (flags v)) | None => True end.

Lemma AttemptJoinVoip_ok g :
  voip_ready g ->
  exists g', AttemptJoinVoip g = Ok g' /\ client g' = client g /\ server g' = server g /\ settings g' = settings g.
Proof.
  unfold voip_ready, AttemptJoinVoip. destruct (m_voipManager (client g)) as [v|]; [|by exists g].
  intros [b Hb]. unfold IsLoggedIn. rewrite Hb. cbn [read of_option mbind result_bind].
  destruct (_ || _ || _); eexists; (split; [reflexivity|]); done.
Qed.

Lemma StartsWith_app p s : StartsWith (p ++ s) p = true.
Proof. unfold StartsWith. induction p as [|c p IH]; [done|]. cbn [app is_prefix]. by rewrite IH, bool_decide_true. Qed.

Lemma kPrefix_no_nul : Byte.x00 ∉ Joins.kPrefix.
Proof. by apply (bool_decide_unpack _); vm_compute. Qed.

(** C21: The client and the server agree on the message that creates a player: a
    client that joins, or plays, in online mode puts the token it was given
    behind the prefix, and an online server asks its service for exactly that
    token, and keeps whether the client wants to spectate. Other clients'
    messages stay as the game made them. *)
Theorem join_token_reaches conn message g st :
  voip_ready g -> Byte.x00 ∉ m_joinToken (client g) ->
  (Joins.m_runningHosted st || Joins.m_isDedicatedServer st) && Joins.m_onlineMode st = true ->
  exists message' g', HandleClientServerJoin message g = Ok (message', g') /\
    (if (m_joining (client g) || m_connected (client g) || m_runningHosted (server g)) && m_onlineMode (server g) then
       Joins.pending (Joins.OnCreatePlayerMessage conn message' st) =
         Joins.pending st ++ [Joins.mkPending conn (Joins.m_serverId st) (m_joinToken (client g)) message' (fresh (Joins.blocks st))] /\
       Joins.isSpectator message' = m_spectator (client g)
     else message' = message).
Proof.
  intros Hv Hn Hst. unfold HandleClientServerJoin.
  destruct (m_joining (client g) || m_connected (client g) || m_runningHosted (server g)) eqn:Ej.
  - replace (negb _ && _ && _) with false by (by destruct (m_joining _), (m_connected _), (m_runningHosted _)).
    destruct (m_onlineMode (server g)); cbn [negb andb]; [|by eexists _, g].
    destruct (AttemptJoinVoip_ok g Hv) as (g' & -> & _). cbn [mbind result_bind]. eexists _, g'. split; [reflexivity|].
    unfold CopyWithArena. rewrite c_str_id by (rewrite not_elem_of_app; split; [apply kPrefix_no_nul|done]).
    split; [|done]. unfold Joins.OnCreatePlayerMessage. cbn [Joins.hear Joins.m_runningHosted Joins.m_isDedicatedServer Joins.m_onlineMode Joins.playerName].
    replace (negb _ && negb _) with false by (by destruct (Joins.m_runningHosted st), (Joins.m_isDedicatedServer st)).
    replace (Joins.m_onlineMode st) with true by (by destruct (Joins.m_onlineMode st); rewrite ?andb_false_r in Hst).
    cbn [negb]. rewrite StartsWith_app. cbn [negb Joins.set_pending Joins.pending Joins.hear Joins.m_serverId Joins.blocks]. by rewrite drop_app_length.
  - replace (negb _ && _ && _) with true by (by destruct (m_joining _), (m_connected _), (m_runningHosted _)). by eexists _, g.
Qed.

(** ** The address of the server *)

(** A hosting client has no address of another server. *)
Definition address_ok (g : Game) : Prop := m_runningHosted (server g) = true -> ServerIp (settings g) = [].

Lemma address_ok_same g g' : server g' = server g -> settings g' = settings g -> address_ok g -> address_ok g'.
Proof. unfold address_ok. by intros -> ->. Qed.

Lemma OnClientStartup_address g : address_ok g -> address_ok (OnClientStartup g).
Proof.
  intros H. unfold OnClientStartup. destruct (startedAtStartup _); [done|]. destruct (m_creationInfo _); [|done].
  intros _. apply Start_ServerIp.
Qed.

Lemma stop_server_hosted g :
  m_runningHosted (server (stop_server g)) = m_runningHosted (server g) && m_restarting (server g).
Proof.
  unfold stop_server. destruct (m_runningHosted (server g)) eqn:Eh.
  - by destruct (m_restarting (server g)) eqn:Er; cbn [negb andb set_server server m_runningHosted].
  - destruct (negb _ && negb _); cbn [set_ServerIp set_settings server]; by rewrite Eh.
Qed.

Lemma stop_server_ServerIp g :
  ServerIp (settings (stop_server g)) =
    if negb (m_runningHosted (server g)) && negb (m_joining (client g)) && negb (firstStartup g) then [] else ServerIp (settings g).
Proof.
  unfold stop_server. destruct (m_runningHosted (server g)); cbn [negb andb].
  - by destruct (m_restarting (server g)).
  - by destruct (negb _ && negb _).
Qed.

Lemma startup_address g :
  m_runningHosted (server g) && m_restarting (server g) = false \/ address_ok g -> address_ok (startup g).
Proof.
  intros H. apply (address_ok_same (OnClientStartup (stop_server (leave_server g)))); [done..|].
  apply OnClientStartup_address. intros Hh. rewrite stop_server_hosted in Hh. rewrite stop_server_ServerIp.
  destruct (leave_server_spec g) as (Hs & Ht & _). rewrite Hs in *. destruct H as [H|H]; [by rewrite Hh in H|].
  apply andb_true_iff in Hh as [Hh _]. rewrite Hh, Ht. by apply H.
Qed.

Lemma ClientStateChangeHk_same cs last g :
  cs <> ClientState_Startup ->
  server (ClientStateChangeHk cs last g) = server g /\ settings (ClientStateChangeHk cs last g) = settings g /\
  m_connected (client (ClientStateChangeHk cs last g)) = m_connected (client g) /\
  m_voipManager (client (ClientStateChangeHk cs last g)) = m_voipManager (client g).
Proof.
  intros Hcs. destruct g as [[] ? ? ? ? ? ?]. unfold ClientStateChangeHk. destruct cs; try done.
  cbn [set_clientState set_client set_interaction act server]. by destruct (m_runningHosted _).
Qed.

Lemma ClientStateChangeHk_address cs last g :
  m_runningHosted (server g) && m_restarting (server g) = false \/ address_ok g ->
  cs = ClientState_Startup \/ address_ok g -> address_ok (ClientStateChangeHk cs last g).
Proof.
  intros H Ho. destruct (decide (cs = ClientState_Startup)) as [->|Hne].
  - destruct (ClientStateChangeHk_startup last g) as [e ->].
    destruct (act_spec e (startup (set_clientState ClientState_Startup g))) as (_ & Es & Et & _).
    apply (address_ok_same _ _ Es Et). by apply startup_address.
  - destruct Ho as [|Ho]; [done|]. destruct (ClientStateChangeHk_same cs last g Hne) as (Hs & Ht & _). by apply (address_ok_same g).
Qed.

(** What happens to the client. A join that does not change the state comes
    while the program starts, before a server is hosted, and no join comes
    while a hosted server restarts. *)
Inductive step : Game -> Game -> Prop :=
  | step_join id ip port spectate proxied changeState g :
      m_runningHosted (server g) = false \/ changeState = true /\ m_restarting (server g) = false ->
      step g (JoinServer id ip port spectate proxied changeState g)
  | step_start info changeState g : step g (Start info changeState g)
  | step_change cs last g : step g (ClientStateChangeHk cs last g)
  | step_connect ip g : step g (ClientConnectToAddressHk ip g)
  | step_message message message' g g' : HandleClientServerJoin message g = Ok (message', g') -> step g g'
  | step_channel n response g g' : OnChannelJoined n response g = Ok g' -> step g g'
  | step_voip request g g' : SetVoipSettings request g = Ok g' -> step g g'.

Lemma AttemptJoinVoip_same g g' : AttemptJoinVoip g = Ok g' -> server g' = server g /\ settings g' = settings g.
Proof.
  unfold AttemptJoinVoip. destruct (m_voipManager _) as [v|]; [|by intros [= ->]]. destruct (IsLoggedIn v); [|done].
  cbn [mbind result_bind]. destruct (_ || _ || _); by intros [= <-].
Qed.

Lemma join_at_address id ip port spectate proxied changeState g :
  m_runningHosted (server g) = false \/ changeState = true /\ m_restarting (server g) = false ->
  address_ok (join_at id ip port spectate proxied changeState g).
Proof.
  intros H. unfold join_at. destruct (store_join_spec id ip port spectate proxied g) as (_ & _ & _ & Hh & Hr & _).
  set (g' := store_join id ip port spectate proxied g) in *. destruct changeState.
  - unfold ChangeClientState. apply ClientStateChangeHk_address; [|by left]. left. rewrite Hh, Hr.
    destruct H as [->|[_ ->]]; [done|apply andb_false_r].
  - destruct H as [H|[? _]]; [|done]. intros Hg. congruence.
Qed.

Lemma step_address g g' : address_ok g -> step g g' -> address_ok g'.
Proof.
  intros Ha Hs. destruct Hs as [id ip port spectate proxied changeState g H|info b g|cs last g|ip g|message message' g g' E|n r g g' E|r g g' E].
  - unfold JoinServer. destruct (bool_decide _); [by apply join_at_address|]. destruct (GetServer id); [by apply join_at_address|done].
  - intros _. apply Start_ServerIp.
  - apply ClientStateChangeHk_address; by right.
  - unfold ClientConnectToAddressHk. cbn [act client]. destruct (m_joining _); by apply (address_ok_same g).
  - revert E. unfold HandleClientServerJoin. destruct (_ && _); [by intros [= _ <-]|]. destruct (negb _); [by intros [= _ <-]|].
    destruct (AttemptJoinVoip g) as [g1|] eqn:E; [|done]. cbn [mbind result_bind]. intros [= _ <-].
    destruct (AttemptJoinVoip_same _ _ E). by apply (address_ok_same g).
  - revert E. unfold OnChannelJoined. destruct (joinCalls g !! n); [|by intros [= <-]].
    destruct r as [[channel tok]|]; [|intros [= <-]; by apply (address_ok_same g)]. cbn [set_joinCalls client].
    destruct (m_voipManager _) as [v|]; [|done]. cbn [of_option mbind result_bind]. destruct (AddSession _ _ _); [|done].
    intros [= <-]. by apply (address_ok_same g).
  - revert E. unfold SetVoipSettings. destruct (m_voipManager _) as [v|]; [|by intros [= <-]]. destruct (enabled r).
    + intros [Hs Ht]%AttemptJoinVoip_same. by apply (address_ok_same g).
    + intros [= <-]. by apply (address_ok_same g).
Qed.

(** C38: The address of a server does not outlive the visit: after any history
    that begins without a hosted server, when the client returns to the menus
    and is not on its way to a server, the stored address is empty, and the
    game gets the module's sockets only if it hosts. *)
Theorem no_stale_address g0 g last :
  m_runningHosted (server g0) = false -> rtc step g0 g ->
  m_joining (client g) = false -> firstStartup g = false ->
  let g' := ClientStateChangeHk ClientState_Startup last g in
  ServerIp (settings g') = [] /\
  ClientInitNetworkHk g' = if m_runningHosted (server g') then Some (m_socketSpawnInfo (server g')) else None.
Proof.
  intros H0 Hsteps Hj Hf g'. assert (Ha : address_ok g).
  { assert (Ha0 : address_ok g0) by (unfold address_ok; congruence). clear H0 Hj Hf. induction Hsteps; [done|]. eauto using step_address. }
  assert (E : ServerIp (settings g') = []).
  { change (settings g') with (settings (OnClientStartup (stop_server (leave_server (set_clientState ClientState_Startup g))))).
    apply OnClientStartup_ServerIp. rewrite stop_server_ServerIp.
    destruct (leave_server_spec (set_clientState ClientState_Startup g)) as (-> & -> & -> & _ & _ & _ & -> & _).
    change (m_joining (client (set_clientState ClientState_Startup g))) with (m_joining (client g)).
    change (firstStartup (set_clientState ClientState_Startup g)) with (firstStartup g). rewrite Hj, Hf. cbn [negb andb].
    change (server (set_clientState ClientState_Startup g)) with (server g).
    change (settings (set_clientState ClientState_Startup g)) with (settings g).
    destruct (m_runningHosted (server g)) eqn:Eh; [by apply Ha|done]. }
  split; [done|]. unfold ClientInitNetworkHk. rewrite E. cbn [length]. rewrite (bool_decide_false (0 < 0)) by lia. by rewrite orb_false_r.
Qed.

(** ** The voice channel *)

(** The client is on no server, hosts none and is not asked to. *)
Record away (g : Game) : Prop := {
  away_connected : m_connected (client g) = false;
  away_hosted : m_runningHosted (server g) = false;
  away_creation : m_creationInfo (server g) = None;
}.

Lemma stop_server_away g :
  m_runningHosted (server g) = false -> server (stop_server g) = server g /\ client (stop_server g) = client g.
Proof. intros H. unfold stop_server. rewrite H. by destruct (negb _ && negb _). Qed.

Lemma OnClientStartup_none g : m_creationInfo (server g) = None -> OnClientStartup g = g.
Proof. intros H. unfold OnClientStartup. destruct (startedAtStartup _); [done|]. by rewrite H. Qed.

Lemma startup_away g :
  m_runningHosted (server g) = false -> m_creationInfo (server g) = None ->
  away (startup g) /\ joinCalls (startup g) = joinCalls g /\
  m_voipManager (client (startup g)) =
    (if m_connected (client g) then RemoveSession <$> m_voipManager (client g) else m_voipManager (client g)).
Proof.
  intros Hh Hi. destruct (leave_server_spec g) as (Hs & _ & _ & Hj & _ & Hc & _ & _ & Hv).
  destruct (stop_server_away (leave_server g)) as [Es Ec]; [by rewrite Hs|].
  assert (Ej : joinCalls (stop_server (leave_server g)) = joinCalls (leave_server g)).
  { unfold stop_server. rewrite Hs, Hh. by destruct (negb _ && negb _). }
  unfold startup. rewrite OnClientStartup_none by (by rewrite Es, Hs).
  split; [|split].
  - split; cbn [set_started client server]; by rewrite ?Ec, ?Es, ?Hs.
  - cbn [set_started joinCalls]. by rewrite Ej.
  - cbn [set_started client]. by rewrite Ec, Hv.
Qed.

Lemma ClientStateChangeHk_startup_away last g :
  m_runningHosted (server g) = false -> m_creationInfo (server g) = None ->
  let g' := ClientStateChangeHk ClientState_Startup last g in
  away g' /\ joinCalls g' = joinCalls g /\
  m_voipManager (client g') = (if m_connected (client g) then RemoveSession <$> m_voipManager (client g) else m_voipManager (client g)).
Proof.
  intros Hh Hi g'. destruct (startup_away (set_clientState ClientState_Startup g) Hh Hi) as ([] & Hj & Hv).
  unfold g'. destruct (ClientStateChangeHk_startup last g) as [e ->].
  destruct (act_spec e (startup (set_clientState ClientState_Startup g))) as (Ec & Es & _ & Ej).
  split; [split; by rewrite ?Ec, ?Es|]. split; [by rewrite Ej, Hj|]. by rewrite Ec, Hv.
Qed.

Lemma change_away cs last g :
  away g -> away (ClientStateChangeHk cs last g) /\ m_voipManager (client (ClientStateChangeHk cs last g)) = m_voipManager (client g).
Proof.
  intros [Hc Hh Hi]. destruct (decide (cs = ClientState_Startup)) as [->|Hne].
  - destruct (ClientStateChangeHk_startup_away last g Hh Hi) as (Ha & _ & ->). by rewrite Hc.
  - destruct (ClientStateChangeHk_same cs last g Hne) as (Hs & _ & Hc' & Hv). split; [|done]. by split; rewrite ?Hs, ?Hc'.
Qed.

Definition changes (l : list (ClientState * ClientState)) (g : Game) : Game :=
  foldl (fun g p => ClientStateChangeHk p.1 p.2 g) g l.

Lemma changes_away l g : away g -> m_voipManager (client (changes l g)) = m_voipManager (client g).
Proof.
  revert g. induction l as [|[cs last] l IH]; intros g Ha; [done|]. unfold changes. cbn [foldl fst snd].
  destruct (change_away cs last g Ha) as [Ha' Hv]. etransitivity; [exact (IH _ Ha')|done].
Qed.

(** A voice channel that is granted after the client left the server is
    joined all the same: the client is in the channel of a server it is not on,
    and no later change of its state, a startup included, takes it out. *)
Theorem late_channel_joined g v name last channel accessToken l :
  m_connected (client g) = true -> m_runningHosted (server g) = false -> m_creationInfo (server g) = None ->
  m_voipManager (client g) = Some v -> m_currentChannel v = [] -> m_isEnabled (flags v) = Some true ->
  joinCalls g = [name] -> channel <> [] ->
  exists g' v', OnChannelJoined 0 (Some (channel, accessToken)) (ClientStateChangeHk ClientState_Startup last g) = Ok g' /\
    m_connected (client g') = false /\ m_voipManager (client (changes l g')) = Some v' /\ IsConnected v' = true /\
    requests v' = requests v ++ [sessiongroup_add_session (bstr "sg_" ++ channel) channel channel (handle v) accessToken].
Proof.
  intros Hc Hh Hi Hv Hch He Hj Hne.
  destruct (ClientStateChangeHk_startup_away last g Hh Hi) as (Ha & Hj1 & Hv1). rewrite Hc, Hv in Hv1.
  set (g1 := ClientStateChangeHk ClientState_Startup last g) in *.
  assert (Hr : RemoveSession v = v) by (unfold RemoveSession; by rewrite bool_decide_true).
  change (RemoveSession <$> Some v) with (Some (RemoveSession v)) in Hv1. rewrite Hr in Hv1.
  unfold OnChannelJoined. rewrite Hj1, Hj. cbn [lookup list_lookup delete list_delete set_joinCalls client]. rewrite Hv1.
  cbn [of_option mbind result_bind]. unfold AddSession. rewrite He. cbn [read of_option mbind result_bind negb].
  eexists _, _. split; [reflexivity|]. split; [apply Ha|]. split; [|split].
  - rewrite changes_away; [reflexivity|]. destruct Ha. by split.
  - unfold IsConnected. cbn [SendRequest set_channel m_currentChannel]. by rewrite bool_decide_false.
  - done.
Qed.
(** ** Leaving a server that was asked for *)

(** A start always runs the server, with the level's settings. *)
Lemma Start_running info changeState g :
  let g' := Start info changeState g in
  m_runningHosted (server g') = true /\ Level (settings g') = CopyWithArena (ci_level info) /\
  m_restarting (server g') = m_runningHosted (server g) || m_restarting (server g) /\ startedAtStartup (server g') = startedAtStartup (server g).
Proof.
  cbn zeta. unfold Start. match goal with |- context [Register info ?x] => set (g0 := x) end.
  assert (H : m_runningHosted (server (Register info g0)) = m_runningHosted (server g) /\ m_restarting (server (Register info g0)) = m_restarting (server g) /\
    startedAtStartup (server (Register info g0)) = startedAtStartup (server g) /\ Level (settings (Register info g0)) = CopyWithArena (ci_level info)).
  { unfold Register. destruct (negb _); [done|]. by destruct (registered info). }
  destruct H as (H1 & H2 & H3 & H4). clearbody g0. split; [done|]. split; [by destruct changeState|].
  split; [|by destruct changeState]. destruct changeState; cbn; rewrite H1, H2; by destruct (m_runningHosted (server g)).
Qed.

(** A hosted server that is not being restarted is stopped. *)
Lemma stop_hosted g :
  m_runningHosted (server g) = true -> m_restarting (server g) = false ->
  let g' := stop_server (leave_server g) in
  m_runningHosted (server g') = false /\ m_restarting (server g') = false /\ startedAtStartup (server g') = startedAtStartup (server g) /\
  m_creationInfo (server g') = m_creationInfo (server g) /\ Level (settings g') = kFrontEnd.
Proof.
  intros H1 H2. cbn zeta. destruct (leave_server_spec g) as (Hl & _). unfold stop_server. rewrite Hl, H1, H2. cbn [negb].
  split; [done|]. split; [change (m_restarting (server (leave_server g)) = false); by rewrite Hl|].
  split; [change (startedAtStartup (server (leave_server g)) = startedAtStartup (server g)); by rewrite Hl|].
  split; [change (m_creationInfo (server (leave_server g)) = m_creationInfo (server g)); by rewrite Hl|done].
Qed.

Lemma OnClientStartup_done g : startedAtStartup (server g) = true -> OnClientStartup g = g.
Proof. intros H. unfold OnClientStartup. by rewrite H. Qed.

Lemma OnClientStartup_starts info g :
  startedAtStartup (server g) = false -> m_creationInfo (server g) = Some info ->
  let g' := OnClientStartup g in
  m_runningHosted (server g') = true /\ Level (settings g') = CopyWithArena (ci_level info) /\
  m_restarting (server g') = m_runningHosted (server g) || m_restarting (server g) /\ startedAtStartup (server g') = true.
Proof.
  intros Hs Hi. cbn zeta. unfold OnClientStartup. rewrite Hs, Hi. match goal with |- context [Start info false ?x] => set (g0 := x) end.
  destruct (Start_running info false g0) as (H1 & H2 & H3 & H4). rewrite H1, H2, H3, H4. done.
Qed.

Lemma startup_after e g :
  server (act e (startup g)) = server (OnClientStartup (stop_server (leave_server g))) /\
  settings (act e (startup g)) = settings (OnClientStartup (stop_server (leave_server g))).
Proof. unfold startup. by generalize (OnClientStartup (stop_server (leave_server g))). Qed.

Lemma change_starts last g :
  exists g', server (ClientStateChangeHk ClientState_Startup last g) = server (OnClientStartup (stop_server (leave_server g'))) /\
    settings (ClientStateChangeHk ClientState_Startup last g) = settings (OnClientStartup (stop_server (leave_server g'))) /\
    server g' = server g.
Proof.
  exists (set_clientState ClientState_Startup g). destruct (ClientStateChangeHk_startup last g) as [e ->].
  destruct (startup_after e (set_clientState ClientState_Startup g)) as [-> ->]. done.
Qed.

(** A server that was started by a request, on a client that started without
    one, runs again after it was left: the start-up state that stops it starts it
    once more, with its level and its registration; it takes another start-up
    state to stop it. *)
Theorem requested_server_restarts g info last last' :
  m_runningHosted (server g) = true -> m_restarting (server g) = false -> startedAtStartup (server g) = false ->
  m_creationInfo (server g) = Some info ->
  let g1 := ClientStateChangeHk ClientState_Startup last g in
  let g2 := ClientStateChangeHk ClientState_Startup last' g1 in
  m_runningHosted (server g1) = true /\ Level (settings g1) = CopyWithArena (ci_level info) /\
  m_runningHosted (server g2) = false /\ Level (settings g2) = kFrontEnd.
Proof.
  intros Hh Hr Hs Hi. cbn zeta. destruct (change_starts last g) as (c1 & E1 & E2 & E3).
  set (g1 := ClientStateChangeHk ClientState_Startup last g) in *. clearbody g1. rewrite <- E3 in Hh, Hr, Hs, Hi.
  destruct (stop_hosted c1 Hh Hr) as (A1 & A2 & A3 & A4 & _).
  destruct (OnClientStartup_starts info (stop_server (leave_server c1))) as (B1 & B2 & B3 & B4); [by rewrite A3|by rewrite A4|].
  rewrite A1, A2 in B3. rewrite <- E1 in B1, B3, B4. rewrite <- E2 in B2. split; [done|]. split; [done|].
  destruct (change_starts last' g1) as (c2 & -> & -> & E4). rewrite <- E4 in B1, B3, B4.
  destruct (stop_hosted c2 B1 B3) as (C1 & _ & C3 & _ & C5). by rewrite OnClientStartup_done by (by rewrite C3).
Qed.
End client.

Arguments Client : clear implicits.
Arguments Game : clear implicits.

(** ** Samples *)

Definition sample_client (joining connected : bool) (v : option (VoipManager Z)) : Client Z :=
  mkClient joining true connected ClientState_None (bstr "token") false v.
Definition sample_game (joining connected : bool) (v : option (VoipManager Z)) (calls : list (list byte)) : Game Z :=
  mkGame (sample_client joining connected v) (Server_new true) (mkSettings [] 0 0 0 false [] [] 0) false true calls [].

Lemma join_token_reaches_witness :
  exists message' g', HandleClientServerJoin (Joins.mkMessage (bstr "me") false) (sample_game true false (Some sample_voip) []) = Ok (message', g') /\
    length (Joins.pending (Joins.OnCreatePlayerMessage 7 message'
      (Joins.mkJoins false true true (bstr "id") [] ∅ [] []))) = 1%nat.
Proof.
  destruct (join_token_reaches 7 (Joins.mkMessage (bstr "me") false) (sample_game true false (Some sample_voip) [])
    (Joins.mkJoins false true true (bstr "id") [] ∅ [] [])) as (message' & g' & E & Hp & _).
  - by eexists.
  - by apply (bool_decide_unpack _); vm_compute.
  - done.
  - exists message', g'. split; [exact E|]. by rewrite Hp.
Defined.

Definition sample_joined : Game Z :=
  JoinServer true (fun _ => None) (fun _ => None) [] [] (bstr "1.2.3.4") 25200 false false true (sample_game false false None []).
Definition sample_visit : Game Z := ClientConnectToAddressHk (bstr "1.2.3.4") sample_joined.

Lemma no_stale_address_witness :
  ServerIp (settings sample_visit) = bstr "1.2.3.4" /\
  ServerIp (settings (ClientStateChangeHk true (fun _ => None) ClientState_Startup ClientState_Ingame sample_visit)) = [].
Proof.
  split; [by vm_compute|].
  apply (no_stale_address true (fun _ => None) (fun _ => None) [] (sample_game false false None []) sample_visit ClientState_Ingame);
    [by vm_compute| |by vm_compute|by vm_compute].
  apply rtc_l with sample_joined; [by apply step_join; left|]. apply rtc_once, step_connect.
Defined.

Lemma late_channel_joined_witness :
  exists g' v', OnChannelJoined 0 (Some (bstr "c", bstr "t"))
      (ClientStateChangeHk true (fun _ => None) ClientState_Startup ClientState_Ingame (sample_game false true (Some sample_voip) [bstr "s"])) = Ok g' /\
    m_voipManager (client (changes true (fun _ => None) [(ClientState_Startup, ClientState_Startup)] g')) = Some v' /\ IsConnected v' = true.
Proof.
  destruct (late_channel_joined true (fun _ => None) (sample_game false true (Some sample_voip) [bstr "s"]) sample_voip (bstr "s") ClientState_Ingame
    (bstr "c") (bstr "t") [(ClientState_Startup, ClientState_Startup)]) as (g' & v' & E & _ & Hv & Hc & _); [done..|].
  by exists g', v'.
Defined.

(** A server asked for from the menus. *)
Definition sample_host : Game Z :=
  Start (fun _ => Some (bstr "id")) (mkCreation (bstr "Hoth") (bstr "HvV") 40) true (sample_game false false None []).

Lemma requested_server_restarts_witness :
  m_runningHosted (server (ClientStateChangeHk true (fun _ => Some (bstr "id")) ClientState_Startup ClientState_Ingame sample_host)) = true.
Proof.
  exact (proj1 (requested_server_restarts true (fun _ => Some (bstr "id")) sample_host (mkCreation (bstr "Hoth") (bstr "HvV") 40) ClientState_Ingame
    ClientState_Ingame eq_refl eq_refl eq_refl eq_refl)).
Defined.
