(* ===== verification/Events.v ===== *)
(** Events: the queue of Source/Core/EventManager.cpp, which hands events from
    the threads of the services to the game's threads, and the events of the
    plugins (Source/Script/LuaEventManager.cpp) with the chat hook of
    Source/Core/Server.cpp that lets a plugin cancel a message. *)

From S2P Require Import Prelude.

(** ** The event manager *)

Module NativeEvents.
Section native.
(** Types of events, what else an event holds, and listeners. *)
Context `{Countable T} {P : Type} `{EqDecision L}.

Record Event := mkEvent { typeid : T; payload : P }.

(** What a listener does to the manager when it is called. *)
Inductive Reaction := QueueAgain (e : Event) | RegisterMore (t : T) (l : L) | Unregister (l : L) | DispatchNow (e : Event).
Context (OnEvent : L -> Event -> list Reaction).

(** [m_mutex] is whether the mutex is held; [calls] are the calls of
    [OnEvent]. A type without listeners has an empty vector or none. *)
Record EventManager := mkEvents {
  m_mutex : bool; m_listeners : gmap T (list L); m_eventQueue : list Event; calls : list (L * Event) }.

Definition EventManager_new : EventManager := mkEvents false ∅ [] [].

Definition listeners_of (st : EventManager) (t : T) : list L := default [] (m_listeners st !! t).
Definition set_mutex (b : bool) (st : EventManager) : EventManager := mkEvents b (m_listeners st) (m_eventQueue st) (calls st).

Definition RegisterListener (eventType : T) (listener : L) (st : EventManager) : EventManager :=
  mkEvents (m_mutex st) (<[eventType := listeners_of st eventType ++ [listener]]> (m_listeners st)) (m_eventQueue st) (calls st).

Definition without (listener : L) (l : list L) : list L := base.filter (fun x => x <> listener) l.
Definition UnregisterListeners (listener : L) (st : EventManager) : EventManager :=
  mkEvents (m_mutex st) (without listener <$> m_listeners st) (m_eventQueue st) (calls st).

(** Locking a [std::mutex] the thread holds already is undefined; other threads wait. *)
Definition QueueEvent (event : Event) (st : EventManager) : result EventManager :=
  if m_mutex st then Fault Undefined else
  Ok (mkEvents (m_mutex st) (m_listeners st) (m_eventQueue st ++ [event]) (calls st)).

(** A listener's reaction, within the loops over the vectors of [active]: a
    change of such a vector invalidates the loop's iterators. *)
Definition react (dispatch : Event -> EventManager -> result EventManager) (active : list T) (st : EventManager) (r : Reaction)
    : result EventManager :=
  match r with
  | QueueAgain e => QueueEvent e st
  | RegisterMore t l => if bool_decide (t ∈ active) then Fault Undefined else Ok (RegisterListener t l st)
  | Unregister l =>
    if bool_decide (Exists (fun t => l ∈ listeners_of st t) active) then Fault Undefined else Ok (UnregisterListeners l st)
  | DispatchNow e => dispatch e st
  end.

Definition note (l : L) (e : Event) (st : EventManager) : EventManager :=
  mkEvents (m_mutex st) (m_listeners st) (m_eventQueue st) (calls st ++ [(l, e)]).

Fixpoint DispatchEvent (fuel : nat) (active : list T) (event : Event) (st : EventManager) : result EventManager :=
  match fuel with
  | O => Fault OutOfFuel
  | S fuel =>
    let active := typeid event :: active in
    foldM (fun st listener => foldM (react (DispatchEvent fuel active) active) (note listener event st) (OnEvent listener event))
      st (listeners_of st (typeid event))
  end.

Definition pop (st : EventManager) : EventManager := mkEvents (m_mutex st) (m_listeners st) (tail (m_eventQueue st)) (calls st).

(** The queue does not grow while the mutex is held. *)
Definition ProcessEventQueue (fuel : nat) (st : EventManager) : result EventManager :=
  if m_mutex st then Fault Undefined else
  st ← foldM (fun st e => st ← DispatchEvent fuel [] e st; Ok (pop st)) (set_mutex true st) (m_eventQueue st);
  Ok (set_mutex false st).

(** *** Histories

    Critical sections follow one another. *)
Inductive op := OQueue (e : Event) | ORegister (t : T) (l : L) | OUnregister (l : L) | OProcess.

Definition step (fuel : nat) (st : EventManager) (o : op) : result EventManager :=
  match o with
  | OQueue e => QueueEvent e st
  | ORegister t l => Ok (RegisterListener t l st)
  | OUnregister l => Ok (UnregisterListeners l st)
  | OProcess => ProcessEventQueue fuel st
  end.

(** What the manager promises: the registrations in order, the events that
    wait, and who was told what. *)
Record Promise := mkPromise { registered : list (T * L); waiting : list Event; told : list (L * Event) }.

Definition tell (regs : list (T * L)) (e : Event) : list (L * Event) :=
  (fun p => (p.2, e)) <$> base.filter (fun p => p.1 = typeid e) regs.

Definition promise_step (p : Promise) (o : op) : Promise :=
  match o with
  | OQueue e => mkPromise (registered p) (waiting p ++ [e]) (told p)
  | ORegister t l => mkPromise (registered p ++ [(t, l)]) (waiting p) (told p)
  | OUnregister l => mkPromise (base.filter (fun q => q.2 <> l) (registered p)) (waiting p) (told p)
  | OProcess => mkPromise (registered p) [] (told p ++ mjoin (tell (registered p) <$> waiting p))
  end.

Record keeps (p : Promise) (st : EventManager) : Prop := {
  keeps_mutex : m_mutex st = false;
  keeps_listeners t : listeners_of st t = (base.filter (fun q => q.1 = t) (registered p)).*2;
  keeps_queue : m_eventQueue st = waiting p;
  keeps_calls : calls st = told p;
}.

Lemma listeners_register t l st t' :
  listeners_of (RegisterListener t l st) t' = listeners_of st t' ++ (if decide (t = t') then [l] else []).
Proof.
  unfold listeners_of, RegisterListener. cbn [m_listeners]. destruct (decide (t = t')) as [<-|Hne].
  - by rewrite lookup_insert_eq.
  - by rewrite lookup_insert_ne, app_nil_r by done.
Qed.

Lemma listeners_unregister l st t : listeners_of (UnregisterListeners l st) t = without l (listeners_of st t).
Proof. unfold listeners_of, UnregisterListeners. cbn [m_listeners]. rewrite lookup_fmap. by destruct (m_listeners st !! t). Qed.

Lemma filter_unregister l (t : T) (regs : list (T * L)) :
  without l (base.filter (fun q => q.1 = t) regs).*2 = (base.filter (fun q => q.1 = t) (base.filter (fun q => q.2 <> l) regs)).*2.
Proof.
  unfold without. induction regs as [|[t' l'] regs IH]; [done|].
  destruct (decide (t' = t)) as [Ht|Ht], (decide (l' = l)) as [Hl|Hl]; rewrite ?(list.filter_cons_True (fun q : T * L => q.1 = t)),
    ?(list.filter_cons_False (fun q : T * L => q.1 = t)) by done.
  - rewrite fmap_cons, list.filter_cons_False by (by intros ?). rewrite IH. by rewrite (list.filter_cons_False (fun q : T * L => q.2 <> l)) by (by intros ?).
  - rewrite fmap_cons, list.filter_cons_True by done. rewrite IH.
    rewrite (list.filter_cons_True (fun q : T * L => q.2 <> l)) by done. by rewrite list.filter_cons_True by done.
  - rewrite IH. by rewrite (list.filter_cons_False (fun q : T * L => q.2 <> l)) by (by intros ?).
  - rewrite IH. rewrite (list.filter_cons_True (fun q : T * L => q.2 <> l)) by done. by rewrite list.filter_cons_False by done.
Qed.

Lemma dispatch_quiet fuel e ls st :
  (forall l e, OnEvent l e = []) ->
  foldM (fun st l => foldM (react (DispatchEvent fuel [typeid e]) [typeid e]) (note l e st) (OnEvent l e)) st ls =
    Ok (mkEvents (m_mutex st) (m_listeners st) (m_eventQueue st) (calls st ++ ((fun l => (l, e)) <$> ls))).
Proof.
  intros Hq. revert st. induction ls as [|l ls IH]; intros st; [destruct st; by rewrite app_nil_r|].
  cbn [foldM]. rewrite Hq. cbn [foldM]. rewrite IH. cbn [note m_mutex m_listeners m_eventQueue calls]. by rewrite <- app_assoc.
Qed.

Lemma process_quiet fuel es rest st :
  (forall l e, OnEvent l e = []) -> m_eventQueue st = es ++ rest ->
  foldM (fun st e => st ← DispatchEvent (S fuel) [] e st; Ok (pop st)) st es =
    Ok (mkEvents (m_mutex st) (m_listeners st) rest
          (calls st ++ mjoin ((fun e => (fun l => (l, e)) <$> listeners_of st (typeid e)) <$> es))).
Proof.
  intros Hq. revert st. induction es as [|e es IH]; intros st Hst.
  - cbn [foldM fmap list_fmap mjoin list_join]. rewrite app_nil_r. destruct st. by cbn in Hst; subst.
  - cbn [foldM DispatchEvent]. rewrite dispatch_quiet by done. cbn [mbind result_bind]. rewrite IH by (cbn; by rewrite Hst).
    cbn [pop m_mutex m_listeners calls]. rewrite <- app_assoc. done.
Qed.

Lemma step_keeps fuel p st o :
  (forall l e, OnEvent l e = []) -> keeps p st -> exists st', step (S fuel) st o = Ok st' /\ keeps (promise_step p o) st'.
Proof.
  intros Hq [Hm Hl Hw Hc]. destruct o as [e|t l|l|]; cbn [step promise_step].
  - unfold QueueEvent. rewrite Hm. eexists. split; [reflexivity|]. split; cbn; try done. by rewrite Hw.
  - eexists. split; [reflexivity|]. split; try done. intros t'. rewrite listeners_register, Hl. cbn [registered].
    rewrite list.filter_app, fmap_app. f_equal. destruct (decide (t = t')).
    + by rewrite list.filter_cons_True by done.
    + by rewrite list.filter_cons_False by done.
  - eexists. split; [reflexivity|]. split; try done. intros t. rewrite listeners_unregister, Hl. apply filter_unregister.
  - unfold ProcessEventQueue. rewrite Hm. rewrite (process_quiet fuel _ []) by (done || by rewrite app_nil_r).
    cbn [mbind result_bind]. eexists. split; [reflexivity|]. split; try done. cbn [set_mutex calls told].
    rewrite Hc, Hw. do 2 f_equal. apply list_fmap_ext. intros _ e _. change (listeners_of (set_mutex true st) (typeid e)) with (listeners_of st (typeid e)).
    rewrite Hl. unfold tell. by rewrite <- list_fmap_compose.
Qed.

(** Listeners that leave the manager alone, as the client's and the server's
    do, are told every queued event once, in the order of the queue, at the next
    processing; of the listeners those that are registered for the event's type
    then, in the order they registered; events queued later wait. *)
Theorem events_delivered fuel h :
  (forall l e, OnEvent l e = []) ->
  exists st, foldM (step (S fuel)) EventManager_new h = Ok st /\ keeps (foldl promise_step (mkPromise [] [] []) h) st.
Proof.
  intros Hq. assert (H0 : keeps (mkPromise [] [] []) EventManager_new) by (split; try done; intros t; unfold listeners_of; cbn; by rewrite lookup_empty).
  revert H0. generalize (mkPromise [] [] []) EventManager_new. induction h as [|o h IH]; intros p st Hk; [by exists st|].
  cbn [foldM foldl]. destruct (step_keeps fuel p st o Hq Hk) as (st' & -> & Hk'). by apply IH.
Qed.
End native.
Arguments Event : clear implicits.
Arguments op : clear implicits.

Definition sample_history : list (op nat nat nat) :=
  [ORegister 0%nat 7%nat; OQueue (mkEvent 0%nat 1%nat); ORegister 0%nat 8%nat; OProcess; OQueue (mkEvent 0%nat 2%nat); OUnregister 7%nat; OProcess].

Lemma events_delivered_witness :
  exists st, foldM (step (fun _ _ => []) 1) EventManager_new sample_history = Ok st /\
    calls st = [(7%nat, mkEvent 0%nat 1%nat); (8%nat, mkEvent 0%nat 1%nat); (8%nat, mkEvent 0%nat 2%nat)].
Proof.
  destruct (events_delivered (fun (_ : nat) (_ : Event nat nat) => []) 0 sample_history) as (st & E & Hk); [done|].
  exists st. split; [exact E|]. by rewrite (keeps_calls _ _ Hk).
Defined.
End NativeEvents.

(** ** The events of plugins *)

Module LuaEvents.
Section lua.
(** Callbacks of plugins, and what a callback does to the manager until it
    returns or raises an error, given the calls so far. *)
Context {C : Type}.

Inductive Action := SetCancelled (b : bool) | FireEvent (name : list byte) | ListenTo (name : list byte) (c : C).
Context (body : list C -> C -> list Action).

(** [m_eventCancelled] has no value before the first event; [calls] are the
    calls of callbacks. *)
Record LuaEventManager := mkLua {
  m_listeners : gmap (list byte) (list C); m_eventCancelled : option bool; calls : list C }.

Definition LuaEventManager_new : LuaEventManager := mkLua ∅ None [].

Definition listeners_of (st : LuaEventManager) (name : list byte) : list C := default [] (m_listeners st !! name).

Definition Listen (name : list byte) (c : C) (st : LuaEventManager) : LuaEventManager :=
  mkLua (<[name := listeners_of st name ++ [c]]> (m_listeners st)) (m_eventCancelled st) (calls st).
Definition SetEventCancelled (b : bool) (st : LuaEventManager) : LuaEventManager := mkLua (m_listeners st) (Some b) (calls st).
Definition IsEventCancelled (st : LuaEventManager) : result bool := of_option Undefined (m_eventCancelled st).
Definition Reset (st : LuaEventManager) : LuaEventManager := mkLua ∅ (m_eventCancelled st) (calls st).

Definition note (c : C) (st : LuaEventManager) : LuaEventManager := mkLua (m_listeners st) (m_eventCancelled st) (calls st ++ [c]).

(** An action within the loops over the listeners of [active]; listening to
    such an event moves the vector under the loop. *)
Definition perform (fire : list byte -> LuaEventManager -> result LuaEventManager) (active : list (list byte))
    (st : LuaEventManager) (a : Action) : result LuaEventManager :=
  match a with
  | SetCancelled b => Ok (SetEventCancelled b st)
  | FireEvent name => fire name st
  | ListenTo name c => if bool_decide (name ∈ active) then Fault Undefined else Ok (Listen name c st)
  end.

(** The lock is recursive, so that a callback may fire events. *)
Fixpoint Fire (fuel : nat) (active : list (list byte)) (name : list byte) (st : LuaEventManager) : result LuaEventManager :=
  match fuel with
  | O => Fault OutOfFuel
  | S fuel =>
    let active := name :: active in
    foldM (fun st c => foldM (perform (Fire fuel active) active) (note c st) (body (calls st) c))
      (SetEventCancelled false st) (listeners_of st name)
  end.

(** *** The chat hook *)

Inductive ChatChannel := ChatChannel_Admin | ChatChannel_Other (n : Z).
#[export] Instance ChatChannel_eq_dec : EqDecision ChatChannel.
Proof. solve_decision. Defined.

Definition kServerTeamAdminMarker : Z := 19472.
Definition kSendMessage : list byte := bstr "ServerPlayer:SendMessage".

(** Whether the message is given to the game; [player] is the sender's team, if
    there is a sender. Without plugins there is no script manager. *)
Definition ServerSendChatMessageHk (fuel : nat) (channel : ChatChannel) (message : option (list byte)) (player : option Z)
    (scripts : option LuaEventManager) : result (bool * option LuaEventManager) :=
  match message, player with
  | Some _, Some m_teamId =>
    if bool_decide (channel = ChatChannel_Admin) && negb (m_teamId =? kServerTeamAdminMarker) then Ok (false, scripts) else
    match scripts with
    | Some st =>
      if negb (bool_decide (channel = ChatChannel_Admin)) then
        st ← Fire fuel [] kSendMessage st;
        cancelled ← IsEventCancelled st;
        Ok (negb cancelled, Some st)
      else Ok (true, scripts)
    | None => Ok (true, scripts)
    end
  | _, _ => Ok (false, scripts)
  end.

(** Callbacks that only decide about the event, and what they decide. *)
Definition decision (a : Action) : option bool := match a with SetCancelled b => Some b | _ => None end.
Definition decides (c : C) : Prop := forall past, Forall (fun a => is_Some (decision a)) (body past c).

Fixpoint verdicts (past : list C) (cs : list C) : list bool :=
  match cs with [] => [] | c :: cs => omap decision (body past c) ++ verdicts (past ++ [c]) cs end.

Lemma perform_decisions fire active acts st :
  Forall (fun a => is_Some (decision a)) acts ->
  foldM (perform fire active) st acts =
    Ok (mkLua (m_listeners st) (match list.last (base.omap decision acts) with Some b => Some b | None => m_eventCancelled st end) (calls st)).
Proof.
  intros Ha. revert st. induction Ha as [|a acts [b Hb] _ IH]; intros st; [by destruct st|].
  destruct a; try done. cbn [foldM perform]. rewrite IH. cbn [base.omap list_omap decision SetEventCancelled m_listeners m_eventCancelled calls].
  rewrite last_cons. by destruct (list.last (base.omap decision acts)).
Qed.

Lemma fire_decisions fire active cs st :
  Forall decides cs ->
  foldM (fun st c => foldM (perform fire active) (note c st) (body (calls st) c)) st cs =
    Ok (mkLua (m_listeners st) (match list.last (verdicts (calls st) cs) with Some b => Some b | None => m_eventCancelled st end) (calls st ++ cs)).
Proof.
  intros Hc. revert st. induction Hc as [|c cs Hd _ IH]; intros st; [destruct st; by rewrite app_nil_r|].
  cbn [foldM]. rewrite perform_decisions by apply Hd. rewrite IH. cbn [note m_listeners m_eventCancelled calls verdicts].
  rewrite <- app_assoc, last_app. cbn [app]. by destruct (list.last (verdicts (calls st ++ [c]) cs)).
Qed.

(** What the chat hook does with a message: without a text or a sender it is
    dropped; on the admin channel it passes from the admin's team only and no
    plugin is asked; on the others every listener of the plugins is called once,
    in order, and the message passes unless their last decision is to cancel -
    a listener can overrule those before it. *)
Theorem chat_message_passes fuel channel message player st :
  Forall decides (listeners_of st kSendMessage) ->
  ServerSendChatMessageHk (S fuel) channel message player (Some st) =
    match message, player with
    | Some _, Some team =>
      if decide (channel = ChatChannel_Admin) then Ok (team =? kServerTeamAdminMarker, Some st) else
      let cancelled := default false (list.last (verdicts (calls st) (listeners_of st kSendMessage))) in
      Ok (negb cancelled, Some (mkLua (m_listeners st) (Some cancelled) (calls st ++ listeners_of st kSendMessage)))
    | _, _ => Ok (false, Some st)
    end.
Proof.
  intros Hd. unfold ServerSendChatMessageHk. destruct message as [text|]; [|done]. destruct player as [team|]; [|done].
  destruct (decide (channel = ChatChannel_Admin)) as [->|Hne].
  - rewrite !bool_decide_true by done. cbn [negb andb]. by destruct (team =? kServerTeamAdminMarker).
  - rewrite bool_decide_false by done. cbn [negb andb Fire]. rewrite fire_decisions by done.
    cbn [SetEventCancelled m_eventCancelled m_listeners calls].
    by destruct (list.last (verdicts (calls st) (listeners_of st kSendMessage))).
Qed.

(** A listener that cancels a message and then has the plugin fire another
    event lets the message through: firing resets the one flag that all events
    share, and the listeners of the inner event decide about it. *)
Theorem nested_fire_uncancels fuel channel text team st cs c other :
  channel <> ChatChannel_Admin -> other <> kSendMessage ->
  listeners_of st kSendMessage = cs ++ [c] -> Forall decides cs ->
  (forall past, body past c = [SetCancelled true; FireEvent other]) -> listeners_of st other = [] ->
  exists st', ServerSendChatMessageHk (S (S fuel)) channel (Some text) (Some team) (Some st) = Ok (true, Some st').
Proof.
  intros Hch Hne Hl Hd Hb Ho. unfold ServerSendChatMessageHk. rewrite bool_decide_false by done. cbn [negb andb].
  remember (S fuel) as fuel1. cbn [Fire]. rewrite Hl, foldM_app, fire_decisions by done. cbn [mbind result_bind foldM].
  rewrite Hb. cbn [foldM perform note SetEventCancelled]. subst fuel1. cbn [Fire].
  match goal with |- context [listeners_of ?s other] => change (listeners_of s other) with (listeners_of st other) end.
  rewrite Ho. cbn [foldM SetEventCancelled mbind result_bind]. by eexists.
Qed.
End lua.
Arguments Action : clear implicits.

(** *** Samples: the first listener cancels, the second overrules it. *)
Definition sample_body (past : list nat) (c : nat) : list (Action nat) :=
  match c with O => [SetCancelled true] | S O => [SetCancelled false] | _ => [SetCancelled true; FireEvent (bstr "E")] end.
Definition sample_lua (cs : list nat) : LuaEventManager := mkLua {[ kSendMessage := cs ]} None [].

Lemma chat_message_passes_witness :
  exists st, ServerSendChatMessageHk sample_body 1 (ChatChannel_Other 0) (Some (bstr "hi")) (Some 1) (Some (sample_lua [0; 1]%nat)) = Ok (true, Some st).
Proof.
  eexists. rewrite (chat_message_passes sample_body 0 (ChatChannel_Other 0) (Some (bstr "hi")) (Some 1) (sample_lua [0; 1]%nat)).
  - rewrite decide_False by done. reflexivity.
  - unfold sample_lua, listeners_of. cbn [m_listeners]. rewrite lookup_singleton_eq. cbn [default].
    repeat constructor; by eexists.
Defined.

Lemma nested_fire_uncancels_witness :
  exists st, ServerSendChatMessageHk sample_body 2 (ChatChannel_Other 0) (Some (bstr "hi")) (Some 1) (Some (sample_lua [0; 2]%nat)) = Ok (true, Some st).
Proof.
  apply (nested_fire_uncancels sample_body 0 (ChatChannel_Other 0) (bstr "hi") 1 (sample_lua [0; 2]%nat) [0%nat] 2%nat (bstr "E")).
  - done.
  - by vm_compute.
  - unfold sample_lua, listeners_of. cbn [m_listeners]. by rewrite lookup_singleton_eq.
  - repeat constructor. by eexists.
  - done.
  - unfold sample_lua, listeners_of. cbn [m_listeners]. by rewrite lookup_singleton_ne.
Defined.
End LuaEvents.
