(* ===== verification/Hosting.v ===== *)
(** The life of a server (Source/Core/Server.cpp, Source/Network/SocketManager.cpp
    and the parts of Source/Core/Program.cpp that start a dedicated server): its
    registration, the hooks of the game's server, its sockets, the frames it runs
    and its startup commands.

    [Server] models the levels and the players that join, [Client] the parts of
    the server the client drives; here is the whole state, and [refines_client]
    proves that [Client]'s view is one of it. What the game does within its own
    functions, calls back included, are further events of a history. *)

From Stdlib Require Import Floats.SpecFloat.
From coqutil Require Import Datatypes.RecordSetters.
Import DoubleBraceUpdate.
From S2P Require Import Prelude.
From S2P Require Import ByteBuffer.
From S2P Require Import StringUtils.
From S2P Require Import Network.
From S2P Require Import Voip.
From S2P Require Import Server.
From S2P Require Import Client.
From S2P Require Import Events.

(** ** The sockets of a manager *)

Module Sockets.
(** Sockets are known by their address; [SocketHeap] holds those ever made. *)
Record SocketManager := mkManager { m_direction : Network.ProtocolDirection; m_info : Client.SocketSpawnInfo; m_sockets : list Z }.
Abbreviation SocketHeap := (gmap Z Network.UDPSocket).

Definition SocketManager_new (direction : Network.ProtocolDirection) (info : Client.SocketSpawnInfo) : SocketManager :=
  mkManager direction info [].

Definition socket_info (info : Client.SocketSpawnInfo) : Network.SocketSpawnInfo :=
  Network.mkSpawnInfo (Client.isProxied info) (Client.proxyAddress info).

Definition close_one (h : SocketHeap) (s : Z) : result SocketHeap :=
  socket ← of_option Undefined (h !! s); Ok (<[s := Network.UDPSocket_Close socket]> h).

Definition CloseSockets (m : SocketManager) (h : SocketHeap) : result SocketHeap := foldM close_one h (m_sockets m).

(** What every socket hands on; [sendto] is the error of each call, if any. *)
Definition BroadcastMessage (inet_ntoa : list byte -> list byte) (sendto : Z -> option Z) (buffer : list byte) (m : SocketManager) (h : SocketHeap)
    : result (list Network.packet) :=
  foldM (fun packets s =>
    socket ← of_option Undefined (h !! s);
    '(_, sent) ← Network.Send inet_ntoa (sendto s) buffer socket;
    Ok (packets ++ sent)) [] (m_sockets m).

(** [std::list::remove] *)
Definition Close (socket : Z) (m : SocketManager) : SocketManager :=
  if bool_decide (m_sockets m = []) then m else m{{m_sockets := base.filter (fun s => s <> socket) (m_sockets m)}}.

(** The address of a new socket is one that was never given. *)
Definition Listen (os : Network.SocketCalls) (online : bool) (pinned : option (list byte)) (proxies : list (list byte * list byte))
    (resolve : list byte -> Z -> Network.SocketAddr) (name : list byte) (blocking : bool) (m : SocketManager) (h : SocketHeap)
    : result (option Z * SocketManager * SocketHeap) :=
  let s := fresh (dom h) in
  let socket := Network.UDPSocket_new (m_direction m) (socket_info (m_info m)) in
  parsed ← Network.parse_listen name;
  match parsed with
  | None => Ok (None, m, <[s := socket]> h)
  | Some (address, port) =>
    let '(ok, socket) := Network.UDPSocket_Listen os online pinned proxies (resolve address port) blocking socket in
    let h := <[s := socket]> h in
    if negb ok then Ok (None, m, h) else Ok (Some s, m{{m_sockets := m_sockets m ++ [s] }}, h)
  end.

(** What happens to a manager: it listens, and a server stops
    ([Server::Stop] takes the last socket out and closes it). *)
Inductive op :=
  | OpListen (os : Network.SocketCalls) (online : bool) (pinned : option (list byte)) (proxies : list (list byte * list byte))
      (resolve : list byte -> Z -> Network.SocketAddr) (name : list byte) (blocking : bool)
  | OpStop (natClient : option Z).

Definition close_last (natClient : option Z) (m : SocketManager) (h : SocketHeap) : result (SocketManager * SocketHeap) :=
  socket ← of_option Undefined (list.last (m_sockets m));
  if bool_decide (Some socket = natClient) then Ok (m, h) else h ← close_one h socket; Ok (Close socket m, h).

Definition do (mh : SocketManager * SocketHeap) (o : op) : result (SocketManager * SocketHeap) :=
  match o with
  | OpListen os online pinned proxies resolve name blocking =>
    '(_, m, h) ← Listen os online pinned proxies resolve name blocking mh.1 mh.2; Ok (m, h)
  | OpStop natClient => close_last natClient mh.1 mh.2
  end.

Definition open (h : SocketHeap) (s : Z) : Prop := exists socket, h !! s = Some socket /\ is_Some (Network.m_socketHandle socket).

(** Every listed socket is open, and none is listed twice. *)
Record sockets_ok (m : SocketManager) (h : SocketHeap) : Prop := {
  so_open s : s ∈ m_sockets m -> open h s;
  so_once : NoDup (m_sockets m);
}.

Lemma open_made h s : open h s -> s ∈ dom h.
Proof. intros (socket & H & _). by apply elem_of_dom_2 in H. Qed.

Lemma open_other h s t socket : s <> t -> open h s -> open (<[t := socket]> h) s.
Proof. intros Hn (k & H & Hk). exists k. by rewrite lookup_insert_ne. Qed.

Lemma UDPSocket_Listen_open os online pinned proxies addr blocking socket k :
  Network.UDPSocket_Listen os online pinned proxies addr blocking socket = (true, k) -> is_Some (Network.m_socketHandle k).
Proof.
  unfold Network.UDPSocket_Listen. destruct (Network.os_socket os) as [n|]; [|done]. destruct (negb _); [done|].
  unfold Network.SetBlockingMode. cbn. destruct (negb _); [done|]. intros [= <-]. by eexists.
Qed.

Lemma Listen_ok os online pinned proxies resolve name blocking m h r m' h' :
  sockets_ok m h -> Listen os online pinned proxies resolve name blocking m h = Ok (r, m', h') -> sockets_ok m' h'.
Proof.
  intros [Ho Hn]. unfold Listen. cbn zeta. pose proof (is_fresh (dom h)) as Hf. set (s := fresh (dom h)) in *. clearbody s.
  assert (Hs : forall k t, t ∈ m_sockets m -> open (<[s := k]> h) t).
  { intros k t Ht. apply open_other; [|by apply Ho]. intros ->. by apply Hf, open_made, Ho. }
  destruct (Network.parse_listen name) as [[[address port]|]|]; [| |done]; cbn [mbind result_bind].
  - destruct (Network.UDPSocket_Listen os online pinned proxies (resolve address port) blocking _) as [[|] k] eqn:E; cbn [negb];
      intros [= <- <- <-]; [|by split; [apply Hs|]].
    split; cbn; [|apply list.NoDup_app; split; [done|]; split; [|apply NoDup_singleton];
      intros t Ht ->%list_elem_of_singleton; by apply Hf, open_made, Ho].
    intros t [Ht| ->%list_elem_of_singleton]%elem_of_app; [by apply Hs|]. exists k. rewrite lookup_insert_eq. split; [done|].
    by eapply UDPSocket_Listen_open.
  - intros [= <- <- <-]. split; [apply Hs|done].
Qed.

Lemma close_last_ok natClient m h m' h' : sockets_ok m h -> close_last natClient m h = Ok (m', h') -> sockets_ok m' h'.
Proof.
  intros [Ho Hn]. unfold close_last. destruct (list.last (m_sockets m)) as [s|]; [|done]. cbn [of_option mbind result_bind].
  case_bool_decide; [by intros [= <- <-]|]. unfold close_one. destruct (h !! s) as [k|]; [|done]. cbn [of_option mbind result_bind].
  intros [= <- <-]. unfold Close. case_bool_decide as He; [split; [|done]; rewrite He; by intros t ?%elem_of_nil|].
  split; cbn; [|by apply list.NoDup_filter]. intros t [Ht Hin]%list_elem_of_filter. apply open_other; [done|by apply Ho].
Qed.

Lemma CloseSockets_closes m h :
  sockets_ok m h -> exists h', CloseSockets m h = Ok h' /\ (forall s, s ∈ m_sockets m -> ~ open h' s) /\
    (forall s, s ∉ m_sockets m -> h' !! s = h !! s).
Proof.
  intros [Ho Hn]. unfold CloseSockets. revert h Ho Hn. induction (m_sockets m) as [|s l IH]; intros h Ho Hn; cbn [foldM].
  - exists h. split; [done|]. split; [by intros s ?%elem_of_nil|done].
  - apply list.NoDup_cons in Hn as [Hs Hn]. destruct (Ho s) as (k & E & Hk); [by left|]. unfold close_one at 1. rewrite E. cbn [of_option mbind result_bind].
    destruct (IH (<[s := Network.UDPSocket_Close k]> h)) as (h' & E' & H1 & H2); [|done|].
    { intros t Ht. apply open_other; [by intros ->|]. apply Ho. by right. }
    exists h'. split; [done|]. split.
    + intros t [-> |Ht]%elem_of_cons; [|by apply H1]. intros (k' & E1 & [n Hk']). rewrite H2, lookup_insert_eq in E1 by done. by injection E1 as <-.
    + intros t [Ht1 Ht2]%not_elem_of_cons. by rewrite H2, lookup_insert_ne.
Qed.

(** A manager lists exactly sockets that are open, each once, however it listens
    and however servers stop, attempts that fail included; closing its sockets
    then closes each of them and no other. *)
Theorem listed_sockets_open l m h m' h' :
  sockets_ok m h -> foldM do (m, h) l = Ok (m', h') ->
  sockets_ok m' h' /\
  exists h2, CloseSockets m' h' = Ok h2 /\ (forall s, s ∈ m_sockets m' -> ~ open h2 s) /\ (forall s, s ∉ m_sockets m' -> h2 !! s = h' !! s).
Proof.
  intros Ho E. enough (Hk : sockets_ok m' h') by (split; [done|by apply CloseSockets_closes]).
  revert m h Ho E. induction l as [|o l IH]; intros m h Ho; cbn [foldM]; [by intros [= <- <-]|].
  destruct (do (m, h) o) as [[m1 h1]|] eqn:E; [|done]. cbn [mbind result_bind]. apply IH. destruct o; cbn in E; [|by apply close_last_ok in E].
  destruct (Listen _ _ _ _ _ _ _ _ _) as [[[r m2] h2]|] eqn:El; [|done]. injection E as <- <-. by apply Listen_ok in El.
Qed.
End Sockets.

(** ** Times

    Frame times are nanoseconds; [float] and [double] are IEEE's binary32 and
    binary64, rounded to nearest. *)

Module Times.
Definition f32_of (f : spec_float) : spec_float :=
  match f with
  | S754_finite s m e => binary_normalize 24 128 (cond_Zopp s (Zpos m)) e s
  | _ => f
  end.
Definition f64_of (f : spec_float) : spec_float :=
  match f with
  | S754_finite s m e => binary_normalize 53 1024 (cond_Zopp s (Zpos m)) e s
  | _ => f
  end.

(** 0.000000001 as a [double]: the nearest one. *)
Definition nano : spec_float := S754_finite false 0x112E0BE826D695 (-82).

Definition toSecondsAsFloat (internal : Z) : spec_float :=
  f32_of (SFmul 53 1024 (f64_of (f32_of (binary_normalize 53 1024 internal 0 false))) nano).

(** 10 as a [float]. *)
Definition kIntervalSeconds : spec_float := binary_normalize 24 128 10 0 false.
End Times.

(** ** The server *)

Module Hosting.
Section hosting.
Context {Options : Type} (setup_init : Levels.LevelSetup Options)
  (SetInclusionOption : list byte -> list byte -> Options -> Options)
  (GetInclusionOption : list byte -> Options -> option (list byte)).
(** The variable KYBER_ONLINE_MODE, and whether the program is a dedicated server
    ([Program::m_isDedicatedServer]) and has plugins. *)
Context (KYBER_ONLINE_MODE : option (list byte)) (dedicated scripts : bool).

Definition IsOnlineMode : bool :=
  match KYBER_ONLINE_MODE with Some onlineMode => bool_decide (onlineMode = bstr "1") | None => true end.

(** [base] is the part the client knows too. *)
Record ServerCreationInfo := mkCreation {
  name : list byte; description : list byte; password : list byte; base : Client.ServerCreationInfo; loadCommands : list (list byte) }.

Record ServerSpawnInfo := mkSpawn {
  playerManager : Z; levelSetup : Levels.LevelSetup Options; isSinglePlayer : bool; isLocalHost : bool; isDedicated : bool }.

(** The socket manager the game is handed: its own, or the module's. *)
Inductive ManagerRef := GameManager (p : Z) | OwnManager.
(** With KYBER_USE_DIRTY_SOCK a dedicated server has an object of the game's
    class behind the pointer. *)
Inductive AnyManager := Kyber (m : Sockets.SocketManager) | DirtySock.

Record KyberSettings := mkKyberSettings { DisableTeamBalancing : bool; EnableShuffleTeams : bool }.

(** Calls of the services, of the console and of the game, in order. *)
Inductive Effect :=
  | RegisterServer (info : ServerCreationInfo) | Connect (id : list byte) | UpdateServerLevelSetup (id level mode : list byte)
  | SendPlayerList | SendKeepAlive | SendConsoleMessage (message : list byte) | EnqueueCommand (command : list byte)
  | Fire (event : list byte) (args : list (option (list byte))) | CloseSocket (socket : Z)
  | ServerCtor (info : ServerSpawnInfo) (manager : ManagerRef) | ServerStart (info : ServerSpawnInfo) (manager : ManagerRef)
  | UpdateEntities (dt : Z) | ProcessDeferred | ProcessEventQueue | ApiUpdate | FireUpdatePre (seconds : spec_float) | GenericUpdate (dt : Z)
  | PreFrame (dt : Z) | SetTeamId (player teamId : Z) | SpawnServer (info : ServerSpawnInfo)
  | SendChatMessage (channel : Events.LuaEvents.ChatChannel) (message name : list byte).

(** [timer] and [firstStartup] are static variables; [threading] is the setting
    that a dedicated server turns off, [autoBalance] Whiteshark's. *)
Record Server := mkServer {
  m_socketManager : option AnyManager; m_natClient : option Z; m_playerManager : option Z; m_serverInstance : option Z;
  m_socketSpawnInfo : Client.SocketSpawnInfo; m_mapRotation : Rotation.MapRotation; m_creationInfo : option ServerCreationInfo;
  m_serverId : list byte; m_onlineMode : bool; m_runningHosted : bool; m_restarting : bool; m_hooksRemoved : bool;
  levels : Levels.Server Options; timer : spec_float; firstStartup : bool; settings : Client.Settings; threading : bool; autoBalance : bool;
  kyberSettings : option KyberSettings; effects : list Effect }.

Definition act (e : Effect) (st : Server) : Server := st{{effects := effects st ++ [e] }}.
Definition fire (event : list byte) (args : list (option (list byte))) (st : Server) : Server :=
  if scripts then act (Fire event args) st else st.

Definition no_info : Client.SocketSpawnInfo := Client.mkInfo false [] [] [].

(** The constructor; [useDirtySock] is whether KYBER_USE_DIRTY_SOCK is set. *)
Definition Server_new (useDirtySock : bool) (game : Client.Settings) : Server :=
  mkServer (if useDirtySock then None else Some (Kyber (Sockets.SocketManager_new Network.Clientbound no_info)))
    None None None no_info (Rotation.mkRotation [] 0) None [] IsOnlineMode false false false (Levels.Server_new) (S754_zero false) true game true false
    None [].

Definition IsRunning (st : Server) : bool := m_runningHosted st || dedicated.

Definition EnableGameHooks (st : Server) : Server := st{{m_hooksRemoved := false}}.
Definition DisableGameHooks (st : Server) : Server := st{{m_hooksRemoved := true}}.

(** What [Initialize] does to the server's own state. *)
Definition Initialize (st : Server) : Server := if negb dedicated then DisableGameHooks st else st.

(** *** Levels *)

Definition InitLevelSetup (level : list byte) (mode : option (list byte)) (startPoint initialSubLevel : list byte) (st : Server)
    : Levels.LevelSetup Options * Server :=
  let st := fire (bstr "Level:Loaded") [Some level; mode] st in
  let '(setup, l) := Levels.InitLevelSetup setup_init SetInclusionOption level mode startPoint initialSubLevel (levels st) in
  (setup, st{{levels := l}}).

Definition ServerLoadLevelMessage_post (setup : Levels.LevelSetup Options) (st : Server) : result Server :=
  l ← Levels.ServerLoadLevelMessagePost GetInclusionOption setup (levels st); Ok (st{{levels := l}}).

Definition LoadNextLevel (level mode startPoint initialSubLevel : list byte) (updateServerBrowser : bool) (st : Server) : result Server :=
  let '(setup, st) := InitLevelSetup level (Some mode) startPoint initialSubLevel st in
  st ← ServerLoadLevelMessage_post setup st;
  if negb updateServerBrowser || bool_decide (m_serverId st = []) then Ok st
  else Ok (act (UpdateServerLevelSetup (m_serverId st) level mode) st).

Definition kShuffleTeams : list byte := bstr "Kyber.ShuffleTeams".

Definition set_levelLoaded (b : bool) (st : Server) : Server := st{{levels ::= Levels.set_levelLoaded b}}.

Definition OnLevelLoaded (st : Server) : result Server :=
  let st := set_levelLoaded true st in
  let request := Levels.m_latestLoadLevelRequest (levels st) in
  st ← (if bool_decide (Levels.rq_level request = []) then Ok st else
        st ← LoadNextLevel (c_str (Levels.rq_level request)) (c_str (Levels.rq_mode request)) [] [] true st;
        Ok (st{{levels ::= Levels.set_request (Levels.mkRequest [] [])}}));
  match kyberSettings st with
  | Some s => if EnableShuffleTeams s then Ok (act (EnqueueCommand kShuffleTeams) st) else Ok st
  | None => Ok st
  end.

(** *** Registration, start and stop *)

(** [response] is the answer of [RegisterServer], if it is called. *)
Definition Register (force : bool) (response : option (list byte)) (st : Server) : result Server :=
  if negb force && (negb (IsRunning st) || match m_creationInfo st with None => true | Some _ => false end) then Ok st else
  if negb (m_onlineMode st) then Ok st else
  info ← of_option Thrown (m_creationInfo st);
  let st := act (RegisterServer info) st in
  match response with
  | None => Ok (act (Connect (bstr "DUMMY")) st)
  | Some id => Ok (act (Connect id) (st{{m_onlineMode := true; m_serverId := id}}))
  end.

Definition game_settings (info : Client.ServerCreationInfo) (s : Client.Settings) : Client.Settings :=
  Client.mkSettings (CopyWithArena []) 25200 (Client.maxPlayers info) (Client.maxPlayers info) true (CopyWithArena (Client.ci_level info))
    (CopyWithArena (bstr "GameMode=" ++ Client.ci_mode info)) 4.

Definition Start (info : ServerCreationInfo) (changeState : bool) (response : option (list byte)) (st : Server) : result Server :=
  let st := EnableGameHooks st in
  let st := st{{settings ::= game_settings (base info); m_creationInfo := Some info}} in
  st ← Register true response st;
  let st := if bool_decide (m_serverId st = []) then st{{m_onlineMode := false}} else st in
  let st := st{{m_socketSpawnInfo := Client.mkInfo false [] (m_serverId st) [] }} in
  let st := if m_runningHosted st then st{{m_restarting := true}} else st in
  st ← (if changeState then
          LoadNextLevel (c_str (Client.ci_level (base info))) (c_str (Client.ci_mode (base info))) [] [] true (set_levelLoaded true st)
        else Ok st);
  Ok (st{{m_hooksRemoved := false; m_runningHosted := true}}).

Definition stopped (st : Server) : Server :=
  st{{m_runningHosted := false; m_playerManager := None; m_serverInstance := None; m_serverId := []; m_onlineMode := IsOnlineMode}}.

(** The last socket of the manager is closed; [back] of an empty list, and a
    manager that is no Kyber manager, are undefined. *)
Definition Stop (st : Server) : result Server :=
  let st := stopped st in
  match m_socketManager st with
  | Some (Kyber m) =>
    socket ← of_option Undefined (list.last (Sockets.m_sockets m));
    if bool_decide (Some socket = m_natClient st) then Ok st
    else Ok (act (CloseSocket socket) (st{{m_socketManager := Some (Kyber (Sockets.Close socket m))}}))
  | _ => Fault Undefined
  end.

Definition OnClientStartup (response : option (list byte)) (st : Server) : result Server :=
  if negb (firstStartup st) then Ok st else
  match m_creationInfo st with
  | None => Ok st
  | Some info => Start info false response (st{{firstStartup := false}})
  end.

Definition SetDedicatedCreationInfo (info : ServerCreationInfo) (st : Server) : Server :=
  if negb dedicated then st else st{{m_creationInfo := Some info}}.

(** The listener of [MainLoopInitStartServerEvent]. *)
Definition OnEvent (info : ServerCreationInfo) (st : Server) : Server := st{{m_creationInfo := Some info}}.

Definition SendConsole (message : list byte) (st : Server) : Server :=
  if negb (IsRunning st) then st else act (SendConsoleMessage message) st.

(** *** The hooks of the game's server *)

Definition ServerCtorHk (inst : Z) (info : ServerSpawnInfo) (manager : ManagerRef) (st : Server) : Server :=
  if m_hooksRemoved st then act (ServerCtor info manager) st else
  let info := info{{isLocalHost := false}} in
  let st := if dedicated then st{{threading := false}} else st in
  let st := st{{m_playerManager := Some (playerManager info); m_serverInstance := Some inst}} in
  act (ServerCtor info manager) (fire (bstr "Server:Init") [] st).

(** Assigning the strings of [m_info] in an object of another class is
    undefined. *)
Definition set_info (info : Client.SocketSpawnInfo) (m : AnyManager) : result AnyManager :=
  match m with Kyber m => Ok (Kyber (m{{Sockets.m_info := info}})) | DirtySock => Fault Undefined end.

Definition ServerStartHk (info : ServerSpawnInfo) (manager : ManagerRef) (st : Server) : result Server :=
  if m_hooksRemoved st then Ok (act (ServerStart info manager) st) else
  '(manager, st) ← match m_socketManager st with
    | Some m =>
      if negb dedicated then m ← set_info (m_socketSpawnInfo st) m; Ok (OwnManager, st{{m_socketManager := Some m}})
      else Ok (manager, st)
    | None => Ok (manager, st)
    end;
  let st := act (ServerStart info manager) st in
  Ok (if m_runningHosted st && negb (m_hooksRemoved st) then DisableGameHooks st else st).

(** Only the dedicated server has this hook. *)
Definition GetSocketManagerHk (st : Server) : result (ManagerRef * Server) :=
  m ← of_option Undefined (m_socketManager st);
  m ← set_info (m_socketSpawnInfo st) m;
  Ok (OwnManager, st{{m_socketManager := Some m}}).

(** [ai] is the player's [IsAIPlayer]. *)
Definition ServerPlayerSetTeamIdHk (player teamId : Z) (ai : bool) (st : Server) : Server :=
  let st := act (SetTeamId player teamId) st in
  if negb ai then act SendPlayerList st else st.

Definition Heartbeat (dt : Z) (st : Server) : Server :=
  if negb (IsRunning st) || negb (m_onlineMode st) then st else
  let st := st{{timer := SFadd 24 128 (timer st) (Times.toSecondsAsFloat dt)}} in
  if SFltb (timer st) Times.kIntervalSeconds then st else
  act SendKeepAlive (act SendPlayerList (st{{timer := S754_zero false}})).

(** [entities] is whether there is an entity manager. *)
Definition ServerUpdatePassPreFrameHk (entities : bool) (dt : Z) (st : Server) : Server :=
  let st := if entities then act (UpdateEntities dt) st else st in
  let st := Heartbeat dt st in
  let st := act ProcessEventQueue (act ProcessDeferred st) in
  let st := if IsRunning st then act ApiUpdate st else st in
  let st := if scripts then act (FireUpdatePre (Times.toSecondsAsFloat dt)) st else st in
  act (PreFrame dt) (act (GenericUpdate dt) st).

Definition ServerLoadState_Done : Z := 7.

(** What follows the game's own function; only in-process servers have it. *)
Definition ServerLevelUpdateLoadHk (loadState : Z) (st : Server) : result Server :=
  match m_creationInfo st with
  | Some _ =>
    if loadState =? ServerLoadState_Done then
      st ← (if m_runningHosted st then OnLevelLoaded st else Ok st);
      info ← of_option Undefined (m_creationInfo st);
      let st := foldl (fun st command => act (EnqueueCommand (c_str command)) st) st (loadCommands info) in
      Ok (st{{m_creationInfo := Some (info{{loadCommands := [] }})}})
    else Ok st
  | None => Ok st
  end.

(** [GameSimulationInitDedicatedServerHk]; [alloc] is whether the memory for the
    game's own socket manager could be allocated. *)
Definition GameSimulationInitDedicatedServerHk (alloc : bool) (response : option (list byte)) (st : Server) : result Server :=
  match m_creationInfo st with
  | None => Ok st
  | Some info =>
    if match m_socketManager st with None => negb alloc | Some _ => false end then Ok st else
    let st := match m_socketManager st with None => st{{m_socketManager := Some DirtySock}} | Some _ => st end in
    let s := settings st in
    let st := st{{settings := Client.mkSettings (Client.ServerIp s) (Client.ServerPort s) 64 64 (Client.FastExit s) (Client.Level s)
                                (Client.DefaultLayerInclusion s) 4}} in
    st ← (if m_onlineMode st then Register false response st else Ok st);
    let st := st{{m_socketSpawnInfo := Client.mkInfo false [] (m_serverId st) [] }} in
    '(_, r) ← Rotation.GetNextEntry (m_mapRotation st);
    let st := st{{m_mapRotation := r}} in
    info ← of_option Thrown (m_creationInfo st);
    let '(setup, st) := InitLevelSetup (c_str (Client.ci_level (base info))) (Some (c_str (Client.ci_mode (base info)))) [] [] st in
    Ok (act (SpawnServer (mkSpawn 0 setup false false true)) (st{{autoBalance := true}}))
  end.

(** *** Chat *)

Definition kServerTeamAdminMarker : Z := Events.LuaEvents.kServerTeamAdminMarker.

(** [BroadcastMessage] goes through the chat hook with a player of its own; [st]
    has what the game was given. *)
Definition BroadcastMessage {C} (body : list C -> C -> list (Events.LuaEvents.Action C)) (fuel : nat)
    (message username : list byte) (channel : Events.LuaEvents.ChatChannel)
    (lua : option (@Events.LuaEvents.LuaEventManager C)) (st : Server)
    : result (option (@Events.LuaEvents.LuaEventManager C) * Server) :=
  '(passes, lua) ← Events.LuaEvents.ServerSendChatMessageHk body fuel channel (Some (c_str message)) (Some kServerTeamAdminMarker) lua;
  Ok (lua, if (passes : bool) then act (SendChatMessage channel (c_str message) (CopyWithArena username)) st else st).

(** *** Histories

    What happens to a server, one event at a time: the requests to start it, the
    client's start-up state, its stop, the hooks of the game, the answer 410 of
    the management's socket, and requests for levels. Which hooks there are
    depends on [dedicated]. *)

Inductive event :=
  | EvStart (info : ServerCreationInfo) (response : option (list byte))
  | EvStartup (response : option (list byte))
  | EvInfo (info : ServerCreationInfo)
  | EvStop
  | EvDedicated (alloc : bool) (response : option (list byte))
  | EvConstruct (inst : Z) (info : ServerSpawnInfo) (manager : ManagerRef)
  | EvSpawn (info : ServerSpawnInfo) (manager : ManagerRef)
  | EvUpdateLoad (loadState : Z)
  | EvLoaded
  | EvFrame (entities : bool) (dt : Z)
  | EvGone (response : option (list byte))
  | EvLoad (level mode : list byte)
  | EvListen (s : Z).

(** A socket the manager listens on; [Sockets.Listen] appends it. *)
Definition listened (s : Z) (st : Server) : Server :=
  match m_socketManager st with
  | Some (Kyber m) => st{{m_socketManager := Some (Kyber (m{{Sockets.m_sockets := Sockets.m_sockets m ++ [s] }}))}}
  | _ => st
  end.

Definition step (st : Server) (e : event) : result Server :=
  match e with
  | EvStart info response => Start info true response st
  | EvStartup response => OnClientStartup response st
  | EvInfo info => Ok (OnEvent info st)
  | EvStop => Stop st
  | EvDedicated alloc response => if dedicated then GameSimulationInitDedicatedServerHk alloc response st else Ok st
  | EvConstruct inst info manager => Ok (ServerCtorHk inst info manager st)
  | EvSpawn info manager => if dedicated then Ok (act (ServerStart info manager) st) else ServerStartHk info manager st
  | EvUpdateLoad loadState => if dedicated then Ok st else ServerLevelUpdateLoadHk loadState st
  | EvLoaded => OnLevelLoaded st
  | EvFrame entities dt => Ok (ServerUpdatePassPreFrameHk entities dt st)
  | EvGone response => Register false response st
  | EvLoad level mode => LoadNextLevel (c_str level) (c_str mode) [] [] true st
  | EvListen s => Ok (listened s st)
  end.

Definition run (st : Server) (h : list event) : result Server := foldM step st h.

(** *** What loading a level changes *)

Context (Hoption : forall v o, GetInclusionOption Levels.kGameMode (SetInclusionOption Levels.kGameMode v o) = Some v).

(** Calls that come with the loading of a level. *)
Definition level_effect (e : Effect) : bool :=
  match e with
  | Fire _ _ | UpdateServerLevelSetup _ _ _ => true
  | EnqueueCommand c => bool_decide (c = kShuffleTeams)
  | _ => false
  end.

(** The state with other levels and such calls made. *)
Definition leveled (st st' : Server) : Prop :=
  exists l es, st' = st{{levels := l; effects := effects st ++ es}} /\ forallb level_effect es = true.

Lemma leveled_refl st : leveled st st.
Proof. exists (levels st), []. split; [destruct st; cbn; by rewrite app_nil_r|done]. Qed.

Lemma leveled_act e st st' : leveled st st' -> level_effect e = true -> leveled st (act e st').
Proof.
  intros (l & es & -> & Hes) He. exists l, (es ++ [e]). split; [destruct st; cbn; by rewrite app_assoc|].
  rewrite forallb_app, Hes. cbn. by rewrite He.
Qed.

Lemma leveled_levels f st st' : leveled st st' -> leveled st (st'{{levels ::= f}}).
Proof. intros (l & es & -> & Hes). exists (f l), es. by destruct st. Qed.

Lemma leveled_trans st1 st2 st3 : leveled st1 st2 -> leveled st2 st3 -> leveled st1 st3.
Proof.
  intros (l & es & -> & H) (l' & es' & -> & H'). exists l', (es ++ es'). split; [destruct st1; cbn; by rewrite app_assoc|].
  by rewrite forallb_app, H.
Qed.

Lemma InitLevelSetup_levels level mode sp sub st :
  let '(setup, st') := InitLevelSetup level (Some mode) sp sub st in
  leveled st st' /\ Levels.InitLevelSetup setup_init SetInclusionOption level (Some mode) sp sub (levels st) = (setup, levels st').
Proof.
  unfold InitLevelSetup. destruct (Levels.InitLevelSetup _ _ _ _ _ _ _) as [setup l] eqn:E.
  assert (Hl : levels (fire (bstr "Level:Loaded") [Some level; Some mode] st) = levels st) by (unfold fire; by destruct scripts).
  rewrite Hl in E. split; [|by destruct st]. apply (leveled_levels (fun _ => l)). unfold fire. destruct scripts; [|apply leveled_refl].
  by apply leveled_act; [apply leveled_refl|].
Qed.

Lemma Levels_total level mode sp sub l :
  exists l', Levels.LoadNextLevel setup_init SetInclusionOption GetInclusionOption level mode sp sub l = Ok l'.
Proof.
  destruct (Levels.m_levelLoaded l) eqn:E.
  - destruct (Levels.LoadNextLevel_loads setup_init SetInclusionOption GetInclusionOption Hoption level mode sp sub l E) as (setup & -> & _). by eexists.
  - rewrite (Levels.LoadNextLevel_waits setup_init SetInclusionOption GetInclusionOption Hoption level mode sp sub l E). by eexists.
Qed.

(** A level asked for is what [Levels.LoadNextLevel] makes of it, and nothing
    else of the server changes. *)
Lemma LoadNextLevel_levels level mode sp sub update st :
  exists st', LoadNextLevel level mode sp sub update st = Ok st' /\ leveled st st' /\
    Levels.LoadNextLevel setup_init SetInclusionOption GetInclusionOption level mode sp sub (levels st) = Ok (levels st').
Proof.
  destruct (Levels_total level mode sp sub (levels st)) as [l' El]. unfold LoadNextLevel, ServerLoadLevelMessage_post.
  unfold Levels.LoadNextLevel in El |- *. pose proof (InitLevelSetup_levels level mode sp sub st) as H.
  destruct (InitLevelSetup level (Some mode) sp sub st) as [setup st1]. destruct H as [H E]. rewrite E in El |- *. rewrite El. cbn [mbind result_bind].
  pose proof (leveled_levels (fun _ => l') st st1 H) as H'. change (apply_update (mk_update levels (fun _ => l')) st1) with (st1{{levels := l'}}) in H'.
  destruct (negb update || _); eexists; (split; [reflexivity|]); (split; [|by destruct st1]); [done|by apply leveled_act].
Qed.

Lemma OnLevelLoaded_leveled st : exists st', OnLevelLoaded st = Ok st' /\ leveled st st'.
Proof.
  unfold OnLevelLoaded. set (st1 := set_levelLoaded true st). assert (H1 : leveled st st1) by (apply leveled_levels, leveled_refl).
  assert (H : exists st2, (if bool_decide (Levels.rq_level (Levels.m_latestLoadLevelRequest (levels st1)) = []) then Ok st1 else
      st0 ← LoadNextLevel (c_str (Levels.rq_level (Levels.m_latestLoadLevelRequest (levels st1))))
              (c_str (Levels.rq_mode (Levels.m_latestLoadLevelRequest (levels st1)))) [] [] true st1;
      Ok (st0{{levels ::= Levels.set_request (Levels.mkRequest [] [])}})) = Ok st2 /\ leveled st st2).
  { case_bool_decide; [by exists st1|]. destruct (LoadNextLevel_levels (c_str (Levels.rq_level (Levels.m_latestLoadLevelRequest (levels st1))))
      (c_str (Levels.rq_mode (Levels.m_latestLoadLevelRequest (levels st1)))) [] [] true st1) as (st2 & -> & H2 & _).
    eexists. split; [reflexivity|]. apply leveled_levels. by apply (leveled_trans _ st1). }
  destruct H as (st2 & -> & H2). cbn [mbind result_bind]. destruct (kyberSettings st2) as [s|]; [|by exists st2].
  destruct (EnableShuffleTeams s); [|by exists st2]. eexists. split; [reflexivity|]. apply leveled_act; [done|]. cbn. by apply bool_decide_eq_true.
Qed.

(** *** Startup commands *)

(** The commands given to the console, but for the shuffles. *)
Definition commands (l : list Effect) : list (list byte) :=
  base.omap (fun e => match e with EnqueueCommand c => if bool_decide (c = kShuffleTeams) then None else Some c | _ => None end) l.

Lemma commands_app l k : commands (l ++ k) = commands l ++ commands k.
Proof. apply list.omap_app. Qed.

Lemma commands_leveled es : forallb level_effect es = true -> commands es = [].
Proof.
  induction es as [|e es IH]; [done|]. cbn [forallb]. intros [He Hes]%andb_true_iff.
  change (e :: es) with ([e] ++ es). rewrite commands_app, IH by done. destruct e; try done. cbn in *. by rewrite He.
Qed.

Definition startup_commands (info : ServerCreationInfo) : list (list byte) := commands ((fun c => EnqueueCommand (c_str c)) <$> loadCommands info).

Lemma enqueue_all l st :
  foldl (fun st c => act (EnqueueCommand (c_str c)) st) st l = st{{effects := effects st ++ ((fun c => EnqueueCommand (c_str c)) <$> l)}}.
Proof.
  revert st. induction l as [|c l IH]; intros st; cbn [foldl fmap list_fmap]; [destruct st; cbn; by rewrite app_nil_r|].
  rewrite IH. destruct st. cbn. by rewrite <- app_assoc.
Qed.

(** What changes neither the creation info nor who runs the server. *)
Definition quiet (e : event) : bool :=
  match e with EvStart _ _ | EvStartup _ | EvInfo _ | EvStop | EvDedicated _ _ => false | _ => true end.
Definition done_loading (e : event) : bool := match e with EvUpdateLoad s => s =? ServerLoadState_Done | _ => false end.

(** A server in the process of a client. *)
Definition in_process (st : Server) : Prop := dedicated = false /\ m_socketManager st <> Some DirtySock.

(** The creation info and the commands stay. *)
Record keeps (st st' : Server) : Prop := {
  kp_info : m_creationInfo st' = m_creationInfo st;
  kp_commands : commands (effects st') = commands (effects st);
  kp_process : in_process st -> in_process st';
}.

Lemma keeps_refl st : keeps st st.
Proof. done. Qed.
Lemma keeps_trans st1 st2 st3 : keeps st1 st2 -> keeps st2 st3 -> keeps st1 st3.
Proof. intros [H1 H2 H3] [H4 H5 H6]. split; [congruence|congruence|auto]. Qed.
Lemma keeps_leveled st st' : leveled st st' -> keeps st st'.
Proof.
  intros (l & es & -> & Hes). split; [by destruct st| |by destruct st]. change (commands (effects st ++ es) = commands (effects st)).
  by rewrite commands_app, (commands_leveled es Hes), app_nil_r.
Qed.
Lemma keeps_act e st st' : keeps st st' -> commands [e] = [] -> keeps st (act e st').
Proof.
  intros H He. apply (keeps_trans _ st'); [done|]. split; [by destruct st'| |by destruct st']. change (commands (effects st' ++ [e]) = commands (effects st')).
  by rewrite commands_app, He, app_nil_r.
Qed.

Lemma keeps_fire ev args st st' : keeps st st' -> keeps st (fire ev args st').
Proof. intros H. unfold fire. destruct scripts; [by apply keeps_act|done]. Qed.

Lemma keeps_Register response st : exists st', Register false response st = Ok st' /\ keeps st st'.
Proof.
  unfold Register. cbn [negb andb]. destruct (m_creationInfo st) as [info|] eqn:E; [|rewrite orb_true_r; by exists st].
  destruct (negb (IsRunning st) || false); [by exists st|]. destruct (negb (m_onlineMode st)); [by exists st|]. cbn [of_option mbind result_bind].
  destruct response as [id|]; eexists; (split; [reflexivity|]); apply keeps_act; [|done| |done];
    (apply (keeps_trans _ (act (RegisterServer info) st)); [by apply keeps_act|]); [|done]. by split; destruct st.
Qed.

Lemma keeps_Heartbeat dt st : keeps st (Heartbeat dt st).
Proof.
  unfold Heartbeat. destruct (_ || _); [done|]. destruct (SFltb _ _); [by split; destruct st|]. repeat (apply keeps_act; [|done]). by split; destruct st.
Qed.

Lemma keeps_frame entities dt st : keeps st (ServerUpdatePassPreFrameHk entities dt st).
Proof.
  unfold ServerUpdatePassPreFrameHk. repeat (apply keeps_act; [|done]).
  assert (H : forall s, keeps st s -> keeps st (act ProcessEventQueue (act ProcessDeferred (Heartbeat dt s)))).
  { intros s Hs. repeat (apply keeps_act; [|done]). by apply (keeps_trans _ s), keeps_Heartbeat. }
  destruct entities, (IsRunning _), scripts; repeat first [apply H | apply keeps_act; [|done]]; done.
Qed.

Lemma keeps_construct inst info manager st : keeps st (ServerCtorHk inst info manager st).
Proof.
  unfold ServerCtorHk. destruct (m_hooksRemoved st); (apply keeps_act; [|done]); [done|]. apply keeps_fire. by destruct dedicated; split; destruct st.
Qed.

Lemma keeps_spawn info manager st : in_process st -> exists st', ServerStartHk info manager st = Ok st' /\ keeps st st'.
Proof.
  intros [Hd Hm]. unfold ServerStartHk. destruct (m_hooksRemoved st) eqn:Eh; [eexists; split; [reflexivity|]; by apply keeps_act|].
  assert (Hk : forall s manager, keeps st s ->
    keeps st (let s := act (ServerStart info manager) s in if m_runningHosted s && negb (m_hooksRemoved s) then DisableGameHooks s else s)).
  { intros s m Hs. cbn zeta. apply (keeps_trans _ (act (ServerStart info m) s)); [by apply keeps_act|]. destruct (_ && _); [|done]. by split; destruct s. }
  rewrite Hd. destruct (m_socketManager st) as [[m|]|] eqn:Em; cbn [negb set_info mbind result_bind]; [|done|].
  - eexists. split; [reflexivity|]. apply Hk. split; [by destruct st|by destruct st|]. intros _. split; [done|]. by destruct st.
  - eexists. split; [reflexivity|]. by apply Hk.
Qed.

Lemma keeps_listened s st : keeps st (listened s st).
Proof. unfold listened. destruct (m_socketManager st) as [[m|]|] eqn:E; [|done|done]. split; [by destruct st|by destruct st|]. intros [Hd _]. split; [done|]. by destruct st. Qed.

(** One event of a quiet history. *)
Lemma step_quiet st e info :
  in_process st -> quiet e = true -> m_creationInfo st = Some info ->
  exists st', step st e = Ok st' /\ in_process st' /\
    m_creationInfo st' = Some (if done_loading e then info{{loadCommands := [] }} else info) /\
    commands (effects st') = commands (effects st) ++ (if done_loading e then startup_commands info else []).
Proof.
  intros Hp Hq Hi.
  assert (Hk : forall st', keeps st st' -> done_loading e = false -> in_process st' /\
      m_creationInfo st' = Some (if done_loading e then info{{loadCommands := [] }} else info) /\
      commands (effects st') = commands (effects st) ++ (if done_loading e then startup_commands info else [])).
  { intros st' [H1 H2 H3] ->. rewrite H1, H2, app_nil_r. auto. }
  destruct e; try done; cbn [step].
  - eexists. split; [reflexivity|]. apply Hk; [apply keeps_construct|done].
  - rewrite (proj1 Hp). destruct (keeps_spawn info0 manager st Hp) as (st' & -> & H). exists st'. split; [done|]. by apply Hk.
  - rewrite (proj1 Hp). unfold ServerLevelUpdateLoadHk. rewrite Hi. cbn [done_loading] in *. destruct (loadState =? ServerLoadState_Done); [|exists st; by split; [|apply Hk]].
    assert (H : exists st', (if m_runningHosted st then OnLevelLoaded st else Ok st) = Ok st' /\ keeps st st').
    { destruct (m_runningHosted st); [|by exists st]. destruct (OnLevelLoaded_leveled st) as (st' & -> & H). exists st'. by split; [|apply keeps_leveled]. }
    destruct H as (st' & -> & [H1 H2 H3]). cbn [mbind result_bind]. rewrite H1, Hi. cbn [of_option mbind result_bind].
    eexists. split; [reflexivity|]. rewrite enqueue_all. split; [by apply H3|]. split; [done|].
    change (commands (effects st' ++ ((fun c => EnqueueCommand (c_str c)) <$> loadCommands info)) = commands (effects st) ++ startup_commands info).
    by rewrite commands_app, H2.
  - destruct (OnLevelLoaded_leveled st) as (st' & -> & H). exists st'. split; [done|]. apply Hk; [by apply keeps_leveled|done].
  - eexists. split; [reflexivity|]. apply Hk; [apply keeps_frame|done].
  - destruct (keeps_Register response st) as (st' & -> & H). exists st'. split; [done|]. by apply Hk.
  - destruct (LoadNextLevel_levels (c_str level) (c_str mode) [] [] true st) as (st' & -> & H & _). exists st'. split; [done|].
    apply Hk; [by apply keeps_leveled|done].
  - eexists. split; [reflexivity|]. apply Hk; [apply keeps_listened|done].
Qed.

(** In the process of a client the commands run with the first level. *)
Lemma startup_commands_in_process st h info :
  in_process st -> m_creationInfo st = Some info -> forallb quiet h = true ->
  exists st', run st h = Ok st' /\
    commands (effects st') = commands (effects st) ++ (if existsb done_loading h then startup_commands info else []).
Proof.
  intros Hp Hi Hq. revert st info Hp Hi. induction h as [|e h IH]; intros st info Hp Hi; [exists st; cbn; by rewrite app_nil_r|].
  cbn [forallb] in Hq. apply andb_true_iff in Hq as [He Hq]. destruct (step_quiet st e info Hp He Hi) as (st1 & E & Hp1 & Hi1 & Hc1).
  destruct (IH Hq st1 _ Hp1 Hi1) as (st' & E' & Hc). exists st'. unfold run in *. cbn [foldM existsb]. rewrite E. split; [done|].
  rewrite Hc, Hc1. destruct (done_loading e); [|by rewrite app_nil_r].
  destruct (existsb done_loading h); [|by rewrite app_nil_r]. cbn [orb]. unfold startup_commands at 2. cbn. by rewrite app_nil_r.
Qed.

(** *** When the module's sockets are used *)

(** The starts of game servers, with the manager each was handed. *)
Definition starts (l : list Effect) : list (ServerSpawnInfo * ManagerRef) :=
  base.omap (fun e => match e with ServerStart info manager => Some (info, manager) | _ => None end) l.

Lemma starts_app l k : starts (l ++ k) = starts l ++ starts k.
Proof. apply list.omap_app. Qed.

Lemma starts_leveled es : forallb level_effect es = true -> starts es = [].
Proof.
  induction es as [|e es IH]; [done|]. cbn [forallb]. intros [He Hes]%andb_true_iff.
  change (e :: es) with ([e] ++ es). rewrite starts_app, IH by done. by destruct e.
Qed.

(** Two flags decide: whether the hooks pass on, and whether a hosted server
    runs. A start arms the hooks, the first game server after it takes the
    module's sockets and disarms them if the server still runs then. *)
Definition HookFlags : Type := bool * bool.
Definition flags_step (f : HookFlags) (e : event) : HookFlags :=
  match e with
  | EvStart _ _ => (false, true)
  | EvStop => (f.1, false)
  | EvSpawn _ _ => (f.1 || f.2, f.2)
  | _ => f
  end.
Definition spawned (f : HookFlags) (e : event) : list (ServerSpawnInfo * ManagerRef) :=
  match e with EvSpawn info manager => [(info, if f.1 then manager else OwnManager)] | _ => [] end.
Fixpoint handed (f : HookFlags) (h : list event) : list (ServerSpawnInfo * ManagerRef) :=
  match h with [] => [] | e :: h => spawned f e ++ handed (flags_step f e) h end.

Definition flags (st : Server) : HookFlags := (m_hooksRemoved st, m_runningHosted st).

(** A client past its first start-up, with the module's socket manager. *)
Record hosting (st : Server) : Prop := {
  ho_process : dedicated = false;
  ho_manager : exists m, m_socketManager st = Some (Kyber m);
  ho_started : firstStartup st = false;
}.

(** What the flags and the starts do not depend on. *)
Record unflagged (st st' : Server) : Prop := {
  uf_flags : flags st' = flags st;
  uf_starts : starts (effects st') = starts (effects st);
  uf_info : m_socketSpawnInfo st' = m_socketSpawnInfo st;
  uf_hosting : hosting st -> hosting st';
}.

Lemma unflagged_refl st : unflagged st st.
Proof. done. Qed.
Lemma unflagged_trans st1 st2 st3 : unflagged st1 st2 -> unflagged st2 st3 -> unflagged st1 st3.
Proof. intros [H1 H2 H3 H4] [H5 H6 H7 H8]. split; [congruence|congruence|congruence|auto]. Qed.

Lemma hosting_same st st' :
  m_socketManager st' = m_socketManager st -> firstStartup st' = firstStartup st -> hosting st -> hosting st'.
Proof. intros H1 H2 [H3 H4 H5]. split; [done|by rewrite H1|congruence]. Qed.

Lemma unflagged_leveled st st' : leveled st st' -> unflagged st st'.
Proof.
  intros (l & es & -> & Hes). split; [by destruct st| |by destruct st|by apply hosting_same; destruct st].
  change (starts (effects st ++ es) = starts (effects st)). by rewrite starts_app, (starts_leveled es Hes), app_nil_r.
Qed.
Lemma unflagged_act e st st' : unflagged st st' -> starts [e] = [] -> unflagged st (act e st').
Proof.
  intros H He. apply (unflagged_trans _ st'); [done|]. split; [by destruct st'| |by destruct st'|by apply hosting_same; destruct st'].
  change (starts (effects st' ++ [e]) = starts (effects st')). by rewrite starts_app, He, app_nil_r.
Qed.
Lemma unflagged_fire ev args st st' : unflagged st st' -> unflagged st (fire ev args st').
Proof. intros H. unfold fire. destruct scripts; [by apply unflagged_act|done]. Qed.

(** A change of other fields. *)
Ltac other_fields := split; [by destruct dedicated|by destruct dedicated|by destruct dedicated|apply hosting_same; by destruct dedicated].

Lemma unflagged_Register force response st st' : Register force response st = Ok st' -> unflagged st st'.
Proof.
  unfold Register. destruct (_ && _); [by intros [= <-]|]. destruct (negb (m_onlineMode st)); [by intros [= <-]|].
  destruct (m_creationInfo st) as [info|]; [|done]. cbn [of_option mbind result_bind].
  destruct response as [id|]; intros [= <-]; apply unflagged_act; [|done| |done];
    (apply (unflagged_trans _ (act (RegisterServer info) st)); [by apply unflagged_act|]); [other_fields|done].
Qed.

Lemma unflagged_frame entities dt st : unflagged st (ServerUpdatePassPreFrameHk entities dt st).
Proof.
  unfold ServerUpdatePassPreFrameHk. repeat (apply unflagged_act; [|done]).
  assert (Hb : forall s, unflagged s (Heartbeat dt s)).
  { intros s. unfold Heartbeat. destruct (_ || _); [done|]. destruct (SFltb _ _); [other_fields|]. repeat (apply unflagged_act; [|done]). other_fields. }
  assert (H : forall s, unflagged st s -> unflagged st (act ProcessEventQueue (act ProcessDeferred (Heartbeat dt s)))).
  { intros s Hs. repeat (apply unflagged_act; [|done]). by apply (unflagged_trans _ s). }
  destruct entities, (IsRunning _), scripts; repeat first [apply H | apply unflagged_act; [|done]]; done.
Qed.

Lemma unflagged_construct inst info manager st : unflagged st (ServerCtorHk inst info manager st).
Proof.
  unfold ServerCtorHk. destruct (m_hooksRemoved st); (apply unflagged_act; [|done]); [done|]. apply unflagged_fire. other_fields.
Qed.

Lemma unflagged_update s st st' : ServerLevelUpdateLoadHk s st = Ok st' -> unflagged st st'.
Proof.
  unfold ServerLevelUpdateLoadHk. destruct (m_creationInfo st); [|by intros [= <-]]. destruct (s =? _); [|by intros [= <-]].
  assert (H : exists st1, (if m_runningHosted st then OnLevelLoaded st else Ok st) = Ok st1 /\ unflagged st st1).
  { destruct (m_runningHosted st); [|by exists st]. destruct (OnLevelLoaded_leveled st) as (st1 & -> & H). exists st1. by split; [|apply unflagged_leveled]. }
  destruct H as (st1 & -> & H1). cbn [mbind result_bind]. destruct (m_creationInfo st1) as [info|]; [|done]. cbn [of_option mbind result_bind].
  intros [= <-]. apply (unflagged_trans _ st1); [done|]. rewrite enqueue_all. split; [done| |done|by apply hosting_same].
  change (starts (effects st1 ++ ((fun c => EnqueueCommand (c_str c)) <$> loadCommands info)) = starts (effects st1)).
  rewrite starts_app. replace (starts ((fun c => EnqueueCommand (c_str c)) <$> loadCommands info)) with (@nil (ServerSpawnInfo * ManagerRef)); [by rewrite app_nil_r|].
  induction (loadCommands info); by cbn.
Qed.

(** A start, however the registration answers. *)
Lemma Register_info response info st :
  m_creationInfo st = Some info -> exists st', Register true response st = Ok st' /\ m_creationInfo st' = Some info.
Proof.
  intros H. unfold Register. cbn [negb andb]. destruct (negb (m_onlineMode st)); [by exists st|]. rewrite H. cbn [of_option mbind result_bind].
  destruct response; by eexists.
Qed.

(** The state a start registers, and what the start makes of the answer. *)
Definition creating (info : ServerCreationInfo) (st : Server) : Server :=
  (EnableGameHooks st){{settings ::= game_settings (base info); m_creationInfo := Some info}}.
Definition started (st : Server) : Server :=
  st{{m_onlineMode := negb (bool_decide (m_serverId st = [])) && m_onlineMode st; m_socketSpawnInfo := Client.mkInfo false [] (m_serverId st) [];
      m_restarting := m_runningHosted st || m_restarting st; m_hooksRemoved := false; m_runningHosted := true}}.

Lemma Start_result info changeState response st :
  exists st1 l es, Register true response (creating info st) = Ok st1 /\ m_creationInfo st1 = Some info /\ forallb level_effect es = true /\
    Start info changeState response st = Ok ((started st1){{levels := l; effects := effects st1 ++ es}}).
Proof.
  unfold Start. change ((EnableGameHooks st){{settings ::= game_settings (base info); m_creationInfo := Some info}}) with (creating info st).
  destruct (Register_info response info (creating info st) eq_refl) as (st1 & E & Hi). rewrite E. cbn [mbind result_bind]. exists st1.
  set (st2 := if bool_decide (m_serverId st1 = []) then st1{{m_onlineMode := false}} else st1).
  set (st3 := st2{{m_socketSpawnInfo := Client.mkInfo false [] (m_serverId st2) [] }}).
  set (st4 := if m_runningHosted st3 then st3{{m_restarting := true}} else st3).
  assert (H4 : st4{{m_hooksRemoved := false; m_runningHosted := true}} = started st1).
  { unfold st4, st3, st2, started. destruct st1. cbn. by case_bool_decide; destruct m_runningHosted0. }
  assert (H5 : exists st5, (if changeState then LoadNextLevel (c_str (Client.ci_level (base info))) (c_str (Client.ci_mode (base info))) [] [] true
      (set_levelLoaded true st4) else Ok st4) = Ok st5 /\ leveled st4 st5).
  { destruct changeState; [|exists st4; split; [done|apply leveled_refl]].
    destruct (LoadNextLevel_levels (c_str (Client.ci_level (base info))) (c_str (Client.ci_mode (base info))) [] [] true (set_levelLoaded true st4))
      as (st5 & -> & H5 & _). exists st5. split; [done|]. apply (leveled_trans _ (set_levelLoaded true st4)); [apply leveled_levels, leveled_refl|done]. }
  destruct H5 as (st5 & -> & (l & es & -> & Hes)). cbn [mbind result_bind]. exists l, es. split; [done|]. split; [done|]. split; [done|]. f_equal.
  rewrite <- H4. replace (effects st1) with (effects st4); [by destruct st4|].
  transitivity (effects (st4{{m_hooksRemoved := false; m_runningHosted := true}})); [by destruct st4|by rewrite H4].
Qed.

Lemma Start_spec info changeState response st :
  exists st', Start info changeState response st = Ok st' /\ flags st' = (false, true) /\ starts (effects st') = starts (effects st) /\
    m_socketSpawnInfo st' = Client.mkInfo false [] (m_serverId st') [] /\ (hosting st -> hosting st') /\ m_creationInfo st' = Some info /\
    exists st1, Register true response (creating info st) = Ok st1 /\
      m_serverId st' = m_serverId st1 /\ m_onlineMode st' = negb (bool_decide (m_serverId st1 = [])) && m_onlineMode st1 /\
      exists es, effects st' = effects st1 ++ es /\ forallb level_effect es = true.
Proof.
  destruct (Start_result info changeState response st) as (st1 & l & es & E & Hi & Hes & ->). pose proof E as [_ Hs _ Hh]%unflagged_Register.
  eexists. split; [reflexivity|]. split; [done|].
  split; [change (starts (effects st1 ++ es) = starts (effects st)); by rewrite starts_app, (starts_leveled es Hes), app_nil_r, Hs|].
  split; [done|]. split; [|split; [exact Hi|exists st1; do 3 (split; [done|]); by exists es]].
  intros H. apply (hosting_same st1); [done|done|]. apply Hh. by apply (hosting_same st).
Qed.

Lemma Stop_spec st st' :
  Stop st = Ok st' -> flags st' = (m_hooksRemoved st, false) /\ starts (effects st') = starts (effects st) /\
    m_socketSpawnInfo st' = m_socketSpawnInfo st /\ (hosting st -> hosting st').
Proof.
  unfold Stop. set (st0 := stopped st). cbn zeta.
  assert (H0 : m_socketManager st0 = m_socketManager st /\ flags st0 = (m_hooksRemoved st, false) /\ effects st0 = effects st /\
    m_socketSpawnInfo st0 = m_socketSpawnInfo st /\ firstStartup st0 = firstStartup st /\ m_natClient st0 = m_natClient st) by done.
  destruct H0 as (Hm & Hf & He & Hi & Hs & Hn). rewrite <- He. clearbody st0. destruct (m_socketManager st0) as [[m|]|] eqn:E; [|done|done].
  destruct (list.last (Sockets.m_sockets m)) as [socket|]; [|done]. cbn [of_option mbind result_bind].
  case_bool_decide; intros [= <-].
  - split; [done|]. split; [done|]. split; [done|]. apply hosting_same; [by rewrite E|done].
  - split; [done|]. split; [|split; [done|]].
    + change (starts (effects st0 ++ [CloseSocket socket]) = starts (effects st0)). by rewrite starts_app, app_nil_r.
    + intros [H1 H2 H3]. split; [done|by eexists|]. by rewrite <- H3, <- Hs.
Qed.

Definition is_start (e : event) : bool := match e with EvStart _ _ => true | _ => false end.

(** One event, for a client that hosts. *)
Lemma step_flags st e st' :
  hosting st -> step st e = Ok st' ->
  hosting st' /\ flags st' = flags_step (flags st) e /\ starts (effects st') = starts (effects st) ++ spawned (flags st) e /\
    (is_start e = false -> m_socketSpawnInfo st' = m_socketSpawnInfo st).
Proof.
  intros Hh.
  assert (Hu : unflagged st st' -> flags_step (flags st) e = flags st -> spawned (flags st) e = [] ->
    hosting st' /\ flags st' = flags_step (flags st) e /\ starts (effects st') = starts (effects st) ++ spawned (flags st) e /\
    (is_start e = false -> m_socketSpawnInfo st' = m_socketSpawnInfo st)).
  { intros [H1 H2 Hi H3] -> ->. rewrite app_nil_r. auto. }
  pose proof (ho_process st Hh) as Hd. destruct e; cbn [step]; rewrite ?Hd.
  - destruct (Start_spec info true response st) as (s & -> & H1 & H2 & _ & H3 & _ & _). intros [= <-]. cbn [spawned]. rewrite app_nil_r. repeat (split; [auto|]). done.
  - unfold OnClientStartup. rewrite (ho_started st Hh). intros [= <-]. by apply Hu.
  - intros [= <-]. apply Hu; [other_fields|done|done].
  - intros H. apply Stop_spec in H as (H1 & H2 & Hi & H3). cbn [spawned]. rewrite app_nil_r. auto.
  - intros [= <-]. by apply Hu.
  - intros [= <-]. apply Hu; [apply unflagged_construct|done|done].
  - unfold ServerStartHk. destruct (ho_manager st Hh) as [m Em]. rewrite Em, Hd. cbn [flags_step spawned]. change (flags st) with (m_hooksRemoved st, m_runningHosted st). cbn [fst snd].
    destruct (m_hooksRemoved st) eqn:Er; cbn [negb set_info mbind result_bind orb].
    + intros [= <-]. split; [by apply (hosting_same st)|]. split; [unfold flags; f_equal; first [exact Er|done]|].
      split; [|done]. change (starts (effects st ++ [ServerStart info manager]) = starts (effects st) ++ [(info, manager)]). by rewrite starts_app.
    + match goal with |- Ok (if ?c then _ else _) = _ -> _ => assert (Hc : c = m_runningHosted st) by (transitivity (m_runningHosted st && negb (m_hooksRemoved st)); [done|by rewrite Er, andb_true_r]) end.
      rewrite Hc. assert (Hs : starts (effects st ++ [ServerStart info OwnManager]) = starts (effects st) ++ [(info, OwnManager)]) by by rewrite starts_app.
      destruct (m_runningHosted st) eqn:Eh; intros [= <-]; (split; [split; [done|by eexists|by apply (ho_started st)]|]); (split; [unfold flags; f_equal; first [exact Er|exact Eh|done]|]); by split.
  - intros H. apply Hu; [by apply unflagged_update in H|done|done].
  - destruct (OnLevelLoaded_leveled st) as (s & -> & H). intros [= <-]. apply Hu; [by apply unflagged_leveled|done|done].
  - intros [= <-]. apply Hu; [apply unflagged_frame|done|done].
  - intros H. apply Hu; [by apply unflagged_Register in H|done|done].
  - destruct (LoadNextLevel_levels (c_str level) (c_str mode) [] [] true st) as (s & -> & H & _). intros [= <-]. apply Hu; [by apply unflagged_leveled|done|done].
  - intros [= <-]. apply Hu; [|done|done]. unfold listened. destruct (ho_manager st Hh) as [m Em]. rewrite Em. split; [done|done|done|].
    intros [H1 H2 H3]. split; [done|by eexists|done].
Qed.

Lemma run_flags st h st' :
  hosting st -> run st h = Ok st' ->
  hosting st' /\ starts (effects st') = starts (effects st) ++ handed (flags st) h /\
    (existsb is_start h = false -> m_socketSpawnInfo st' = m_socketSpawnInfo st).
Proof.
  revert st. induction h as [|e h IH]; intros st Hh; unfold run; cbn [foldM].
  - intros [= <-]. cbn. rewrite app_nil_r. by split; [|split].
  - destruct (step st e) as [st1|] eqn:E; [|done]. apply step_flags in E as (Hh1 & Hf & Hs & Hi); [|done]. intros H.
    destruct (IH st1 Hh1 H) as (Hh' & H1 & H2). cbn [handed existsb]. rewrite H1, Hs, Hf, app_assoc. split; [done|]. split; [done|].
    intros [He Hn]%orb_false_iff. rewrite H2 by done. by apply Hi.
Qed.

Lemma handed_app f h k : handed f (h ++ k) = handed f h ++ handed (foldl flags_step f h) k.
Proof. revert f. induction h as [|e h IH]; intros f; [done|]. cbn [handed app foldl]. by rewrite IH, app_assoc. Qed.

(** The game servers of a history, each with the manager the game gave it. *)
Definition own_servers (h : list event) : list (ServerSpawnInfo * ManagerRef) :=
  base.omap (fun e => match e with EvSpawn info manager => Some (info, manager) | _ => None end) h.

Lemma handed_removed b h : existsb is_start h = false -> handed (true, b) h = own_servers h.
Proof. revert b. induction h as [|e h IH]; intros b; [done|]. cbn. intros [He Hn]%orb_false_iff. destruct e; try done; cbn; by rewrite IH. Qed.

Lemma handed_stuck h : existsb is_start h = false -> handed (false, false) h = (fun s => (s.1, OwnManager)) <$> own_servers h.
Proof. induction h as [|e h IH]; [done|]. cbn. intros [He Hn]%orb_false_iff. destruct e; try done; cbn; by rewrite IH. Qed.

(** Neither starts, stops nor game servers. *)
Definition between (e : event) : bool := match e with EvStart _ _ | EvStop | EvSpawn _ _ => false | _ => true end.

Lemma between_flags f h : forallb between h = true -> foldl flags_step f h = f /\ handed f h = [].
Proof. revert f. induction h as [|e h IH]; intros f; [done|]. cbn. intros [He Hn]%andb_true_iff. destruct e; try done; by apply IH. Qed.

(** Of the game servers and the stops of a history, a stop comes first. *)
Fixpoint stopped_first (h : list event) : bool :=
  match h with
  | [] => false
  | e :: h => match e with EvStop => true | EvSpawn _ _ => false | _ => stopped_first h end
  end.

(** The manager each game server after a start is due: the first one the module's,
    the others the game's own; and all the module's when a stop came first. *)
Definition due (h : list event) : list (ServerSpawnInfo * ManagerRef) :=
  if stopped_first h then (fun s => (s.1, OwnManager)) <$> own_servers h
  else match own_servers h with [] => [] | s :: rest => (s.1, OwnManager) :: rest end.

Lemma handed_armed h : existsb is_start h = false -> handed (false, true) h = due h.
Proof.
  unfold due. induction h as [|e h IH]; [done|]. cbn. intros [He Hn]%orb_false_iff. destruct e; try done; try (by apply IH); cbn.
  - by apply handed_stuck.
  - by rewrite handed_removed.
Qed.

(** C20: Who runs on the module's sockets, for a client past its first start-up and
    with the module's socket manager: the first game server after a start is
    handed the module's manager, and every later one, also after the server was
    stopped and also of a game of the player's own, the manager the game made for
    it. When the server is stopped before the game
    has started its own, the hooks stay armed instead: then every game server is
    handed the module's manager. Either lasts until a server is started again. *)
Theorem hosted_server_sockets st info response h st' :
  hosting st -> existsb is_start h = false -> run st (EvStart info response :: h) = Ok st' ->
  starts (effects st') = starts (effects st) ++ due h.
Proof.
  intros Hh Hn H. apply run_flags in H as (_ & -> & _); [|done]. f_equal. cbn [handed spawned flags_step app].
  by apply handed_armed.
Qed.

(** The name a start gives the sockets, when it registers. *)
Lemma Start_registered info changeState id st st' :
  m_onlineMode st = true -> Start info changeState (Some id) st = Ok st' -> m_socketSpawnInfo st' = Client.mkInfo false [] id [].
Proof.
  intros Ho. destruct (Start_spec info changeState (Some id) st) as (s & -> & _ & _ & Hi & _ & _ & st1 & E & Hid & _). intros [= <-]. rewrite Hi, Hid.
  revert E. unfold Register. cbn [negb andb].
  change (m_onlineMode (creating info st)) with (m_onlineMode st). rewrite Ho. by intros [= <-].
Qed.

(** A server that is stopped before the game has started its own leaves the
    hooks armed: from then on every game server, the player's own games too, is
    handed the module's sockets under the name of the stopped server, and this
    ends only with the next start. *)
Theorem stopped_early_stays_hooked st info id h1 h2 st' :
  hosting st -> m_onlineMode st = true -> forallb between h1 = true -> existsb is_start h2 = false ->
  run st (EvStart info (Some id) :: h1 ++ EvStop :: h2) = Ok st' ->
  starts (effects st') = starts (effects st) ++ ((fun s => (s.1, OwnManager)) <$> own_servers h2) /\
  m_socketSpawnInfo st' = Client.mkInfo false [] id [].
Proof.
  intros Hh Ho H1 H2 E. split.
  - apply run_flags in E as (_ & -> & _); [|done]. f_equal. cbn [handed spawned flags_step app]. rewrite handed_app.
    destruct (between_flags (false, true) h1 H1) as [-> ->]. cbn. by apply handed_stuck.
  - unfold run in E. cbn [foldM] in E. destruct (step st (EvStart info (Some id))) as [st1|] eqn:E1; [|done].
    rewrite <- (Start_registered info true id st st1 Ho E1). apply step_flags in E1 as (Hh1 & _); [|done].
    destruct (run_flags st1 (h1 ++ EvStop :: h2) st' Hh1 E) as (_ & _ & Hi). apply Hi.
    rewrite existsb_app. cbn. rewrite H2. clear -H1. induction h1 as [|e h IH]; [done|]. cbn in *. apply andb_true_iff in H1 as [He H]. destruct e; try done; by apply IH.
Qed.

(** *** A registration that fails *)

(** The calls that tell the services about the server. *)
Definition services (l : list Effect) : list Effect :=
  List.filter (fun e => match e with RegisterServer _ | Connect _ | SendKeepAlive => true | _ => false end) l.

Lemma services_app l k : services (l ++ k) = services l ++ services k.
Proof. apply List.filter_app. Qed.

Lemma services_leveled es : forallb level_effect es = true -> services es = [].
Proof.
  induction es as [|e es IH]; [done|]. cbn [forallb]. intros [He Hes]%andb_true_iff.
  change (e :: es) with ([e] ++ es). rewrite services_app, IH by done. by destruct e.
Qed.

(** A client past its first start-up whose server is offline, and a later state of
    it with no call of the services in between. *)
Record offline (st : Server) : Prop := { of_hosting : hosting st; of_mode : m_onlineMode st = false }.
Record silent (st st' : Server) : Prop := { si_offline : offline st'; si_services : services (effects st') = services (effects st) }.

Lemma silent_same st st' :
  offline st -> m_socketManager st' = m_socketManager st -> firstStartup st' = firstStartup st -> m_onlineMode st' = m_onlineMode st ->
  effects st' = effects st -> silent st st'.
Proof. intros [Hh Ho] H1 H2 H3 H4. split; [|by rewrite H4]. split; [by apply (hosting_same st)|by rewrite H3]. Qed.
Lemma silent_act e st st' : silent st st' -> services [e] = [] -> silent st (act e st').
Proof.
  intros [[Hh Ho] Hs] He. split; [split; [by apply (hosting_same st')|exact Ho]|].
  change (services (effects st' ++ [e]) = services (effects st)). by rewrite services_app, He, app_nil_r.
Qed.
Lemma silent_fire ev args st st' : silent st st' -> silent st (fire ev args st').
Proof. intros H. unfold fire. destruct scripts; [by apply silent_act|done]. Qed.
Lemma silent_trans st1 st2 st3 : silent st1 st2 -> silent st2 st3 -> silent st1 st3.
Proof. intros [H1 H2] [H3 H4]. split; [done|congruence]. Qed.
Lemma silent_leveled st st' : offline st -> leveled st st' -> silent st st'.
Proof.
  intros [Hh Ho] (l & es & -> & Hes). split; [split; [by apply (hosting_same st)|exact Ho]|].
  change (services (effects st ++ es) = services (effects st)). by rewrite services_app, (services_leveled es Hes), app_nil_r.
Qed.

Definition restarts (e : event) : bool := match e with EvStart _ _ | EvStop => true | _ => false end.

Lemma silent_frame entities dt st : offline st -> silent st (ServerUpdatePassPreFrameHk entities dt st).
Proof.
  intros Ho. unfold ServerUpdatePassPreFrameHk. repeat (apply silent_act; [|done]).
  assert (H : forall s, silent st s -> silent st (act ProcessEventQueue (act ProcessDeferred (Heartbeat dt s)))).
  { intros s Hs. repeat (apply silent_act; [|done]). unfold Heartbeat. rewrite (of_mode s (si_offline _ _ Hs)). by rewrite orb_true_r. }
  assert (Hr : silent st st) by by apply silent_same.
  destruct entities, (IsRunning _), scripts; repeat first [apply H | apply silent_act; [|done]]; done.
Qed.

Lemma silent_step st e st' : offline st -> restarts e = false -> step st e = Ok st' -> silent st st'.
Proof.
  intros Ho He. assert (Hr : silent st st) by by apply silent_same. pose proof (of_hosting st Ho) as Hh. pose proof (ho_process st Hh) as Hd.
  destruct e; try done; cbn [step]; rewrite ?Hd.
  - unfold OnClientStartup. rewrite (ho_started st Hh). by intros [= <-].
  - intros [= <-]. by apply silent_same.
  - by intros [= <-].
  - intros [= <-]. unfold ServerCtorHk. destruct (m_hooksRemoved st); (apply silent_act; [|done]); [done|]. apply silent_fire.
    rewrite Hd. by apply silent_same.
  - unfold ServerStartHk. destruct (ho_manager st Hh) as [m Em]. rewrite Em, Hd. destruct (m_hooksRemoved st); cbn [negb set_info mbind result_bind];
      [intros [= <-]; by apply silent_act|].
    set (s := st{{m_socketManager := Some (Kyber (m{{Sockets.m_info := m_socketSpawnInfo st}}))}}).
    assert (Hs : silent st s) by (split; [split; [split; [done|by eexists|exact (ho_started st Hh)]|exact (of_mode st Ho)]|done]).
    apply (silent_act (ServerStart info OwnManager)) in Hs; [|done]. destruct (_ && _); intros [= <-]; [|done].
    apply (silent_trans _ _ _ Hs). apply silent_same; [apply Hs|done..].
  - unfold ServerLevelUpdateLoadHk. destruct (m_creationInfo st); [|by intros [= <-]]. destruct (loadState =? _); [|by intros [= <-]].
    assert (H : exists st1, (if m_runningHosted st then OnLevelLoaded st else Ok st) = Ok st1 /\ silent st st1).
    { destruct (m_runningHosted st); [|by exists st]. destruct (OnLevelLoaded_leveled st) as (st1 & -> & H). exists st1. by split; [|apply silent_leveled]. }
    destruct H as (st1 & -> & H1). cbn [mbind result_bind]. destruct (m_creationInfo st1) as [info|]; [|done]. cbn [of_option mbind result_bind].
    intros [= <-]. enough (Hc : forall l s0, silent st s0 -> silent st (foldl (fun st command => act (EnqueueCommand (c_str command)) st) s0 l)).
    { pose proof (Hc (loadCommands info) st1 H1) as H2. apply (silent_trans _ _ _ H2). apply silent_same; [apply H2|done..]. }
    induction l as [|c l IH]; intros s0 Hs; [done|]. cbn [foldl]. apply IH. by apply silent_act.
  - destruct (OnLevelLoaded_leveled st) as (s & -> & H). intros [= <-]. by apply silent_leveled.
  - intros [= <-]. by apply silent_frame.
  - unfold Register. rewrite (of_mode st Ho). destruct (_ && _); by intros [= <-].
  - destruct (LoadNextLevel_levels (c_str level) (c_str mode) [] [] true st) as (s & -> & H & _). intros [= <-]. by apply silent_leveled.
  - intros [= <-]. unfold listened. destruct (ho_manager st Hh) as [m Em]. rewrite Em. split; [|done].
    split; [split; [done|by eexists|exact (ho_started st Hh)]|exact (of_mode st Ho)].
Qed.

(** A hosted server whose registration fails is connected to the management
    under a dummy name, so that it can register later, but is taken offline: not
    even the management's answer that it does not know the name makes it register
    again, and it never reports that it is alive, until it is stopped or
    started. *)
Theorem failed_registration_final st info changeState h st1 st' :
  hosting st -> m_onlineMode st = true -> m_serverId st = [] -> Start info changeState None st = Ok st1 ->
  existsb restarts h = false -> run st1 h = Ok st' ->
  services (effects st') = services (effects st) ++ [RegisterServer info; Connect (bstr "DUMMY")].
Proof.
  intros Hh Ho Hid E Hr E'. enough (Hs : offline st1 /\ services (effects st1) = services (effects st) ++ [RegisterServer info; Connect (bstr "DUMMY")]).
  { destruct Hs as [H1 <-]. clear -Hoption H1 Hr E'. revert st1 H1 E'. induction h as [|e h IH]; intros st1 H1; unfold run; cbn [foldM]; [by intros [= <-]|].
    cbn [existsb] in Hr. apply orb_false_iff in Hr as [He Hr]. destruct (step st1 e) as [st2|] eqn:E; [|done].
    apply silent_step in E as [H2 H3]; [|done|done]. intros E'. rewrite <- H3. by apply IH. }
  destruct (Start_spec info changeState None st) as (s & Es & _ & _ & _ & H1 & _ & s1 & E1 & _ & H2 & es & H3 & Hes). rewrite E in Es. injection Es as <-.
  assert (Hs1 : m_serverId s1 = [] /\ effects s1 = effects st ++ [RegisterServer info; Connect (bstr "DUMMY")]).
  { revert E1. unfold Register. cbn [negb andb].
    change (m_onlineMode (creating info st)) with (m_onlineMode st). rewrite Ho. change (m_creationInfo (creating info st)) with (Some info).
    cbn [negb of_option mbind result_bind]. intros [= <-]. split; [exact Hid|].
    change (effects st ++ [RegisterServer info; Connect (bstr "DUMMY")]) with (effects (creating info st) ++ ([RegisterServer info] ++ [Connect (bstr "DUMMY")])).
    by rewrite app_assoc. }
  destruct Hs1 as [Hi1 He1]. rewrite bool_decide_true in H2 by done. split; [split; [by apply H1|done]|].
  by rewrite H3, services_app, (services_leveled es Hes), He1, services_app, app_nil_r.
Qed.

(** *** A level that is told to be loaded twice *)

Lemma shuffle_levels st0 st st' :
  (match kyberSettings st with
   | Some s => if EnableShuffleTeams s then Ok (act (EnqueueCommand kShuffleTeams) st) else Ok st
   | None => Ok st
   end) = Ok st' -> leveled st0 st -> levels st' = levels st /\ leveled st0 st'.
Proof.
  intros E Hl. destruct (kyberSettings st) as [s|]; [|by injection E as <-]. destruct (EnableShuffleTeams s); injection E as <-; [|done].
  split; [done|]. apply leveled_act; [done|]. by apply bool_decide_eq_true.
Qed.

Lemma OnLevelLoaded_request st :
  Levels.rq_level (Levels.m_latestLoadLevelRequest (levels st)) <> [] ->
  exists st' setup, OnLevelLoaded st = Ok st' /\ leveled st st' /\ Levels.loads (levels st') = Levels.loads (levels st) ++ [setup] /\
    Levels.m_levelLoaded (levels st') = false /\ Levels.m_latestLoadLevelRequest (levels st') = Levels.mkRequest [] [].
Proof.
  intros Hr. destruct (OnLevelLoaded_leveled st) as (st' & E & Hl). rewrite E. revert E. unfold OnLevelLoaded. set (st1 := set_levelLoaded true st).
  rewrite bool_decide_false by done. set (level := c_str _). set (mode := c_str _).
  destruct (LoadNextLevel_levels level mode [] [] true st1) as (st2 & -> & H2 & E2).
  destruct (Levels.LoadNextLevel_loads setup_init SetInclusionOption GetInclusionOption Hoption level mode [] [] (levels st1) eq_refl) as (setup & E3 & _).
  rewrite E3 in E2. injection E2 as E2. cbn [mbind result_bind]. intros E. exists st', setup.
  apply (shuffle_levels st) in E as [El _]; [|by apply leveled_levels, (leveled_trans _ st1); [apply leveled_levels, leveled_refl|]].
  split; [done|]. split; [done|]. rewrite El.
  change (levels (st2{{levels ::= Levels.set_request (Levels.mkRequest [] [])}})) with (Levels.set_request (Levels.mkRequest [] []) (levels st2)).
  by rewrite <- E2.
Qed.

Lemma OnLevelLoaded_idle st :
  Levels.rq_level (Levels.m_latestLoadLevelRequest (levels st)) = [] ->
  exists st', OnLevelLoaded st = Ok st' /\ leveled st st' /\ levels st' = Levels.set_levelLoaded true (levels st).
Proof.
  intros Hr. destruct (OnLevelLoaded_leveled st) as (st' & E & Hl). rewrite E. revert E. unfold OnLevelLoaded.
  rewrite bool_decide_true by exact Hr. cbn [mbind result_bind]. intros E. exists st'.
  apply (shuffle_levels st) in E as [El _]; [|by apply leveled_levels, leveled_refl]. by split.
Qed.

Lemma update_loaded st info st1 :
  m_creationInfo st = Some info -> m_runningHosted st = true -> OnLevelLoaded st = Ok st1 -> leveled st st1 ->
  exists st', ServerLevelUpdateLoadHk ServerLoadState_Done st = Ok st' /\ levels st' = levels st1 /\ m_runningHosted st' = true /\
    is_Some (m_creationInfo st').
Proof.
  intros Hi Hr E (l & es & -> & _). unfold ServerLevelUpdateLoadHk. rewrite Hi, Hr, E. cbn [mbind result_bind]. change (ServerLoadState_Done =? ServerLoadState_Done) with true. cbn iota.
  change (m_creationInfo (st{{levels := l; effects := effects st ++ es}})) with (m_creationInfo st). rewrite Hi. cbn [of_option mbind result_bind].
  eexists. split; [reflexivity|]. rewrite enqueue_all. split; [done|]. split; [exact Hr|by eexists].
Qed.

(** A hosted server is told twice that a level has loaded, by the game's own
    update and by its message, in either order: when another level waits, it is
    handed to the game at the first, and at the second the server takes it for
    loaded, so that a third level is handed to the game while it still loads. *)
Theorem loaded_twice st info h level mode :
  dedicated = false -> m_creationInfo st = Some info -> m_runningHosted st = true ->
  Levels.rq_level (Levels.m_latestLoadLevelRequest (levels st)) <> [] ->
  h = [EvUpdateLoad ServerLoadState_Done; EvLoaded] \/ h = [EvLoaded; EvUpdateLoad ServerLoadState_Done] ->
  exists st' second third, run st (h ++ [EvLoad level mode]) = Ok st' /\ Levels.loads (levels st') = Levels.loads (levels st) ++ [second; third].
Proof.
  intros Hd Hi Hr Hq Hh. destruct (OnLevelLoaded_request st Hq) as (st1 & second & E1 & Hl1 & Hs & _ & Hq1).
  enough (H : exists st2, run st h = Ok st2 /\ Levels.loads (levels st2) = Levels.loads (levels st) ++ [second] /\ Levels.m_levelLoaded (levels st2) = true).
  { destruct H as (st2 & E2 & H2 & Hb). unfold run in *. rewrite foldM_app, E2. cbn [mbind result_bind foldM step].
    destruct (LoadNextLevel_levels (c_str level) (c_str mode) [] [] true st2) as (st3 & -> & _ & E3).
    destruct (Levels.LoadNextLevel_loads setup_init SetInclusionOption GetInclusionOption Hoption (c_str level) (c_str mode) [] [] (levels st2) Hb) as (third & E4 & _).
    rewrite E4 in E3. injection E3 as E3. exists st3, second, third. split; [done|]. rewrite <- E3. cbn. by rewrite H2, <- app_assoc. }
  destruct Hh as [-> | ->]; unfold run; cbn [foldM step]; rewrite Hd.
  - destruct (update_loaded st info st1 Hi Hr E1 Hl1) as (st2 & -> & H2 & _ & _).
    destruct (OnLevelLoaded_idle st2) as (st3 & -> & _ & H3); [by rewrite H2, Hq1|]. exists st3. split; [done|]. rewrite H3. cbn. by rewrite H2, Hs.
  - rewrite E1. destruct (OnLevelLoaded_idle st1) as (st2 & E2 & Hl2 & H2); [by rewrite Hq1|].
    assert (H1 : m_creationInfo st1 = Some info /\ m_runningHosted st1 = true) by (by destruct Hl1 as (l & es & -> & _)). destruct H1 as [Hi1 Hr1].
    destruct (update_loaded st1 info st2 Hi1 Hr1 E2 Hl2) as (st3 & -> & H3 & _ & _). exists st3. split; [done|].
    rewrite H3, H2. split; [exact Hs|done].
Qed.

(** *** Dedicated servers *)

(** No command but a shuffle is given to the console. *)
Definition commandless (st st' : Server) : Prop := commands (effects st') = commands (effects st).

Lemma commandless_act e st st' : commandless st st' -> commands [e] = [] -> commandless st (act e st').
Proof. unfold commandless. intros H He. change (commands (effects st' ++ [e]) = commands (effects st)). by rewrite commands_app, He, app_nil_r. Qed.

Lemma commandless_Register force response st st' : Register force response st = Ok st' -> commandless st st'.
Proof.
  unfold Register. destruct (_ && _); [by intros [= <-]|]. destruct (negb (m_onlineMode st)); [by intros [= <-]|].
  destruct (m_creationInfo st) as [info|]; [|done]. cbn [of_option mbind result_bind].
  destruct response as [id|]; intros [= <-]; (apply commandless_act; [|done]);
    change (commandless st (act (RegisterServer info) st)); by apply commandless_act.
Qed.

Lemma commandless_Start info changeState response st st' : Start info changeState response st = Ok st' -> commandless st st'.
Proof.
  destruct (Start_spec info changeState response st) as (s & -> & _ & _ & _ & _ & _ & s1 & E & _ & _ & es & He & Hes). intros [= <-].
  apply commandless_Register in E. unfold commandless in *. by rewrite He, commands_app, (commands_leveled es Hes), app_nil_r, E.
Qed.

Lemma commandless_Stop st st' : Stop st = Ok st' -> commandless st st'.
Proof.
  unfold Stop. set (st0 := stopped st). cbn zeta. change (commandless st st') with (commandless st0 st'). clearbody st0.
  destruct (m_socketManager st0) as [[m|]|]; [|done|done]. destruct (list.last _) as [z|]; [|done]. cbn [of_option mbind result_bind].
  case_bool_decide; intros [= <-]; [done|]. by apply commandless_act.
Qed.

Lemma commandless_dedicated alloc response st st' :
  GameSimulationInitDedicatedServerHk alloc response st = Ok st' -> commandless st st'.
Proof.
  unfold GameSimulationInitDedicatedServerHk. destruct (m_creationInfo st) as [info|] eqn:Ei; [|by intros [= <-]].
  destruct (match m_socketManager st with None => _ | Some _ => _ end); [by intros [= <-]|].
  set (st1 := match m_socketManager st with None => st{{m_socketManager := Some DirtySock}} | Some _ => st end).
  assert (H1 : effects st1 = effects st) by (unfold st1; by destruct (m_socketManager st)).
  cbn zeta. match goal with |- context [m_onlineMode ?s] => set (st2 := s) end.
  assert (H2 : effects st2 = effects st) by done. clearbody st2.
  destruct (if m_onlineMode st2 then Register false response st2 else Ok st2) as [st3|] eqn:E; [|done]. cbn [mbind result_bind].
  assert (H3 : commandless st st3).
  { unfold commandless. rewrite <- H2. destruct (m_onlineMode st2); [by apply commandless_Register in E|by injection E as <-]. }
  destruct (Rotation.GetNextEntry _) as [[entry r]|]; [|done]. cbn [mbind result_bind]. match goal with |- context [of_option Thrown ?o] => destruct o as [info'|]; [|done] end. cbn [of_option mbind result_bind].
  match goal with |- context [InitLevelSetup ?a (Some ?b) [] [] ?s] => pose proof (InitLevelSetup_levels a b [] [] s) as Hl; set (st4 := s) in * end.
  destruct (InitLevelSetup _ _ _ _ st4) as [setup st5]. destruct Hl as [(l & es & -> & Hes) _]. intros [= <-].
  apply commandless_act; [|done]. unfold commandless. change (commands (effects st3 ++ es) = commands (effects st)).
  by rewrite commands_app, (commands_leveled es Hes), app_nil_r.
Qed.

(** The startup commands of a dedicated server are never run: the hook that
    runs them is that of servers in the process of a client. *)
Theorem dedicated_commands_never_run st h st' :
  dedicated = true -> run st h = Ok st' -> commands (effects st') = commands (effects st).
Proof.
  intros Hd. revert st. induction h as [|e h IH]; intros st; unfold run; cbn [foldM]; [by intros [= <-]|].
  destruct (step st e) as [st1|] eqn:E; [|done]. intros H. rewrite (IH st1 H). clear IH H. change (commandless st st1).
  assert (Hk : forall s, keeps st s -> commandless st s) by by intros s [].
  destruct e; cbn [step] in E; rewrite ?Hd in E.
  - by apply commandless_Start in E.
  - unfold OnClientStartup in E. destruct (negb (firstStartup st)); [by injection E as <-|]. destruct (m_creationInfo st); [|by injection E as <-].
    by apply commandless_Start in E.
  - by injection E as <-.
  - by apply commandless_Stop in E.
  - by apply commandless_dedicated in E.
  - injection E as <-. apply Hk, keeps_construct.
  - injection E as <-. by apply commandless_act.
  - by injection E as <-.
  - destruct (OnLevelLoaded_leveled st) as (s & E' & H). rewrite E' in E. injection E as <-. by apply Hk, keeps_leveled.
  - injection E as <-. apply Hk, keeps_frame.
  - by apply commandless_Register in E.
  - destruct (LoadNextLevel_levels (c_str level) (c_str mode) [] [] true st) as (s & E' & H & _). rewrite E' in E. injection E as <-. by apply Hk, keeps_leveled.
  - injection E as <-. apply Hk, keeps_listened.
Qed.

(** C33: On a server in the process of a client (and not on the game's DirtySock
    sockets), the commands the server was created with are given to the console when its first level has loaded, all
    of them, in their order, and never again however often levels load; before
    that none is. On a dedicated server they are never given to it. *)
Theorem startup_commands_once st h info :
  m_creationInfo st = Some info -> forallb quiet h = true ->
  (in_process st -> exists st', run st h = Ok st' /\
     commands (effects st') = commands (effects st) ++ (if existsb done_loading h then startup_commands info else [])) /\
  (dedicated = true -> forall st', run st h = Ok st' -> commands (effects st') = commands (effects st)).
Proof.
  intros Hi Hq. split; [intros Hp; by apply startup_commands_in_process|].
  intros Hd st'. by apply dedicated_commands_never_run.
Qed.

(** *** The client's view

    [Client] keeps the part of the server the client drives. *)

Section view.
Context {F : Type}.

Definition client_view (st : Server) : Client.Server :=
  Client.mkServer (m_runningHosted st) (m_restarting st) (m_onlineMode st) (m_serverId st) (m_socketSpawnInfo st) (base <$> m_creationInfo st)
    (m_hooksRemoved st) (negb (firstStartup st)).

(** The calls both views have. *)
Definition shown (l : list Effect) : list Client.Effect :=
  base.omap (fun e =>
    match e with
    | RegisterServer info => Some (Client.RegisterServer (base info))
    | Connect id => Some (Client.ServerManagementConnect id)
    | CloseSocket _ => Some Client.CloseServerSocket
    | _ => None
    end) l.
Definition client_shown (l : list Client.Effect) : list Client.Effect :=
  List.filter (fun e => match e with Client.RegisterServer _ | Client.ServerManagementConnect _ | Client.CloseServerSocket => true | _ => false end) l.

Record views (st : Server) (g : Client.Game F) : Prop := {
  vw_server : Client.server g = client_view st;
  vw_settings : Client.settings g = settings st;
  vw_calls : client_shown (Client.effects g) = shown (effects st);
}.

(** What the client asks of the server. *)
Inductive request := RqStart (info : ServerCreationInfo) (changeState : bool) (response : option (list byte)) | RqStartup (response : option (list byte)) | RqStop.

Definition ask (st : Server) (r : request) : result Server :=
  match r with
  | RqStart info changeState response => Start info changeState response st
  | RqStartup response => OnClientStartup response st
  | RqStop => Stop st
  end.
Definition client_ask (g : Client.Game F) (r : request) : Client.Game F :=
  match r with
  | RqStart info changeState response => Client.Start (fun _ => response) (base info) changeState g
  | RqStartup response => Client.OnClientStartup (fun _ => response) g
  | RqStop => Client.Stop IsOnlineMode g
  end.

Lemma shown_app l k : shown (l ++ k) = shown l ++ shown k.
Proof. apply list.omap_app. Qed.
Lemma client_shown_app l k : client_shown (l ++ k) = client_shown l ++ client_shown k.
Proof. apply List.filter_app. Qed.
Lemma shown_leveled es : forallb level_effect es = true -> shown es = [].
Proof.
  induction es as [|e es IH]; [done|]. cbn [forallb]. intros [He Hes]%andb_true_iff.
  change (e :: es) with ([e] ++ es). rewrite shown_app, IH by done. by destruct e.
Qed.

(** The registration, from the state a start makes; the client clears
    [m_hooksRemoved] only at the end. *)
Lemma views_Register info response b st (g : Client.Game F) st1 :
  Client.server g = client_view ((creating info st){{m_hooksRemoved := b}}) -> client_shown (Client.effects g) = shown (effects st) ->
  Register true response (creating info st) = Ok st1 ->
  let g1 := Client.Register (fun _ => response) (base info) g in
  Client.server g1 = client_view (st1{{m_hooksRemoved := b}}) /\ client_shown (Client.effects g1) = shown (effects st1) /\
  Client.settings g1 = Client.settings g /\ settings st1 = game_settings (base info) (settings st).
Proof.
  intros Hs He. unfold Register, Client.Register. rewrite Hs. cbn [negb andb].
  change (Client.m_onlineMode (client_view ((creating info st){{m_hooksRemoved := b}}))) with (m_onlineMode (creating info st)).
  destruct (negb (m_onlineMode (creating info st))); [by intros [= <-]|]. change (m_creationInfo (creating info st)) with (Some info).
  cbn [of_option mbind result_bind]. destruct response as [id|]; intros [= <-]; (split; [first [reflexivity|exact Hs]|]); (split; [|done]).
  - change (client_shown ((Client.effects g ++ [Client.RegisterServer (base info)]) ++ [Client.ServerManagementConnect id]) =
      shown ((effects st ++ [RegisterServer info]) ++ [Connect id])). by rewrite !client_shown_app, !shown_app, He.
  - change (client_shown ((Client.effects g ++ [Client.RegisterServer (base info)]) ++ [Client.ServerManagementConnect (bstr "DUMMY")]) =
      shown ((effects st ++ [RegisterServer info]) ++ [Connect (bstr "DUMMY")])). by rewrite !client_shown_app, !shown_app, He.
Qed.

Lemma views_Start info changeState response st (g : Client.Game F) st' :
  views st g -> Start info changeState response st = Ok st' -> views st' (Client.Start (fun _ => response) (base info) changeState g).
Proof.
  intros [Hs Ht Hc] E. destruct (Start_result info changeState response st) as (st1 & l & es & E1 & Hi & Hes & E'). rewrite E in E'. injection E' as ->.
  unfold Client.Start. cbn zeta. match goal with |- context [Client.Register _ _ ?g] => set (g0 := g) end.
  assert (H0 : Client.server g0 = client_view ((creating info st){{m_hooksRemoved := m_hooksRemoved st}})).
  { unfold g0. cbn [Client.act Client.set_settings Client.set_server Client.server]. rewrite Hs. by destruct st. }
  assert (H0' : client_shown (Client.effects g0) = shown (effects st)).
  { change (client_shown (Client.effects g ++ [Client.EnableGameHooks]) = shown (effects st)). by rewrite client_shown_app, app_nil_r. }
  destruct (views_Register info response (m_hooksRemoved st) st g0 st1 H0 H0' E1) as (H1 & H2 & H3 & H4).
  set (g1 := Client.Register _ _ g0) in *. clearbody g1.
  assert (Hl : client_shown (Client.effects (if changeState then Client.act (Client.LoadLevel (Client.ci_level (base info)) (Client.ci_mode (base info))) g1 else g1)) =
    client_shown (Client.effects g1)).
  { destruct changeState; [|done]. cbn [Client.act Client.effects]. by rewrite client_shown_app, app_nil_r. }
  split.
  - rewrite H1. unfold client_view, started. clear. destruct st1. cbn. by case_bool_decide.
  - transitivity (Client.settings g1); [by destruct changeState|]. rewrite H3. change (Client.settings g0 = settings st1). by rewrite H4.
  - transitivity (shown (effects st1 ++ es)); [|done].
    rewrite shown_app, (shown_leveled es Hes), app_nil_r, <- H2, <- Hl. by destruct changeState.
Qed.

Lemma views_ask st (g : Client.Game F) r st' : views st g -> m_natClient st = None -> ask st r = Ok st' -> views st' (client_ask g r).
Proof.
  intros Hv Hn. destruct r as [info changeState response|response|]; cbn [ask client_ask]; [by apply views_Start| |].
  - destruct Hv as [Hs Ht Hc]. unfold OnClientStartup, Client.OnClientStartup. rewrite Hs. cbn [client_view Client.startedAtStartup Client.m_creationInfo].
    destruct (negb (firstStartup st)); [by intros [= <-]|]. destruct (m_creationInfo st) as [info|] eqn:Ei; [|by intros [= <-]]. cbn [fmap option_fmap option_map].
    intros E. apply (views_Start info false response (st{{firstStartup := false}})); [|done]. split; [|exact Ht|exact Hc].
    unfold client_view. clear -Ei. destruct st. cbn in Ei |- *. by rewrite Ei.
  - destruct Hv as [Hs Ht Hc]. unfold Stop, Client.Stop. rewrite Hs. cbn zeta. change (m_natClient (stopped st)) with (m_natClient st). rewrite Hn.
    destruct (m_socketManager (stopped st)) as [[m|]|]; [|done|done]. destruct (list.last _) as [socket|]; [|done]. cbn [of_option mbind result_bind].
    rewrite bool_decide_false by done. intros [= <-]. split; [by destruct st|exact Ht|].
    change (client_shown (Client.effects g ++ [Client.CloseServerSocket]) = shown (effects st ++ [CloseSocket socket])).
    by rewrite client_shown_app, shown_app, Hc.
Qed.

Lemma ask_natClient st r st' : ask st r = Ok st' -> m_natClient st' = m_natClient st.
Proof.
  assert (Hs : forall info changeState response st st', Start info changeState response st = Ok st' -> m_natClient st' = m_natClient st).
  { intros info changeState response s s' E. destruct (Start_result info changeState response s) as (s1 & l & es & E1 & _ & _ & E2).
    rewrite E in E2. injection E2 as ->. change (m_natClient s1 = m_natClient (creating info s)). revert E1. unfold Register. cbn [negb andb].
    destruct (negb (m_onlineMode (creating info s))); [by intros [= <-]|]. destruct (m_creationInfo _); [|done]. cbn [of_option mbind result_bind].
    by destruct response; intros [= <-]. }
  destruct r as [info changeState response|response|]; cbn [ask]; [by apply Hs| |].
  - unfold OnClientStartup. destruct (negb _); [by intros [= <-]|]. destruct (m_creationInfo st); [|by intros [= <-]]. intros E. by rewrite (Hs _ _ _ _ _ E).
  - unfold Stop. cbn zeta. change (m_natClient st) with (m_natClient (stopped st)). generalize (stopped st). intros s.
    destruct (m_socketManager s) as [[m|]|]; [|done|done]. destruct (list.last _); [|done]. cbn [of_option mbind result_bind]. by case_bool_decide; intros [= <-].
Qed.

(** Whatever the client asks of its server, starts with any answer of the
    registration, start-ups and stops, the state [Client] keeps of the server is
    a view of the whole state, with the same settings of the game and the same
    calls of the services. *)
Theorem refines_client l st (g : Client.Game F) st' :
  views st g -> m_natClient st = None -> foldM ask st l = Ok st' -> views st' (foldl client_ask g l).
Proof.
  revert st g. induction l as [|r l IH]; intros st g Hv Hn; cbn [foldM foldl]; [by intros [= <-]|].
  destruct (ask st r) as [st1|] eqn:E; [|done]. apply IH; [by apply (views_ask st)|]. by rewrite (ask_natClient st r).
Qed.
End view.

(** A dedicated server stays online when its registration fails, and registers with
    the first answer that allows it; the name its sockets are given stays the
    empty one. *)
Lemma dedicated_registers_later alloc id st st1 :
  dedicated = true -> m_onlineMode st = true -> m_serverId st = [] ->
  GameSimulationInitDedicatedServerHk alloc None st = Ok st1 -> m_creationInfo st <> None -> m_socketManager st <> None ->
  exists st2, Register false (Some id) st1 = Ok st2 /\ m_serverId st2 = id /\ Client.serverName (m_socketSpawnInfo st2) = [].
Proof.
  intros Hd Ho Hid E Hi Hm. revert E. unfold GameSimulationInitDedicatedServerHk. destruct (m_creationInfo st) as [info|] eqn:Ei; [|done].
  destruct (m_socketManager st) as [m|] eqn:Em; [|done]. cbn zeta. match goal with |- context [m_onlineMode ?s] => set (s2 := s) end.
  change (m_onlineMode s2) with (m_onlineMode st). rewrite Ho.
  assert (Hr : Register false None s2 = Ok (act (Connect (bstr "DUMMY")) (act (RegisterServer info) s2))).
  { unfold Register, IsRunning. change (m_creationInfo s2) with (m_creationInfo st). change (m_onlineMode s2) with (m_onlineMode st). by rewrite Ei, Ho, Hd, orb_true_r. }
  rewrite Hr. cbn [mbind result_bind]. destruct (Rotation.GetNextEntry _) as [[entry r]|]; [|done]. cbn [mbind result_bind].
  match goal with |- context [of_option Thrown ?o] => change o with (m_creationInfo st); rewrite Ei end. cbn [of_option mbind result_bind].
  match goal with |- context [InitLevelSetup ?a (Some ?b) [] [] ?s] => pose proof (InitLevelSetup_levels a b [] [] s) as Hl; set (s4 := s) in * end.
  destruct (InitLevelSetup _ _ _ _ s4) as [setup s5]. destruct Hl as [(l & es & -> & Hes) _]. intros [= <-].
  unfold Register, IsRunning. match goal with |- context [m_onlineMode ?s] => set (s6 := s) end.
  assert (H6 : m_creationInfo s6 = Some info /\ m_onlineMode s6 = true /\ m_socketSpawnInfo s6 = Client.mkInfo false [] (m_serverId st) []).
  { split; [exact Ei|]. split; [exact Ho|reflexivity]. }
  destruct H6 as (H6 & H7 & H8). rewrite H6, H7, Hd, orb_true_r. cbn [negb andb orb of_option mbind result_bind].
  eexists. split; [reflexivity|]. split; [done|]. rewrite <- Hid. clearbody s6. change (Client.serverName (m_socketSpawnInfo s6) = m_serverId st). by rewrite H8.
Qed.

(** A message to the administrators' channel passes whatever the plugins decide. *)
Lemma admin_broadcast {C} (body : list C -> C -> list (Events.LuaEvents.Action C)) fuel message username lua st :
  BroadcastMessage body fuel message username Events.LuaEvents.ChatChannel_Admin lua st =
    Ok (lua, act (SendChatMessage Events.LuaEvents.ChatChannel_Admin (c_str message) (CopyWithArena username)) st).
Proof. by destruct lua. Qed.
End hosting.
Arguments ServerCreationInfo : clear implicits.
Arguments ServerSpawnInfo : clear implicits.
Arguments Server : clear implicits.
Arguments Effect : clear implicits.
Arguments event : clear implicits.
End Hosting.

(** ** Samples *)

Module Sample.
Import Hosting.

(** Options as the text of the mode. *)
Abbreviation Opts := (list byte).
Definition set_option (k v o : Opts) : Opts := v.
Lemma option_set (v o : Opts) : Levels.ex_get Levels.kGameMode (set_option Levels.kGameMode v o) = Some v.
Proof. reflexivity. Qed.

Definition settings0 : Client.Settings := Client.mkSettings [] 0 0 0 false [] [] 0.
Definition creation (commands : list (list byte)) : ServerCreationInfo := mkCreation (bstr "ours") [] [] (Client.mkCreation (bstr "Yavin") (bstr "HvV") 40) commands.
Definition spawn_info (n : Z) : ServerSpawnInfo Opts := mkSpawn n Levels.ex_setup false true false.

(** A client past its start-up, and with a creation info. *)
Definition client0 : Server Opts := (Server_new None false settings0){{firstStartup := false}}.
Definition client1 (commands : list (list byte)) : Server Opts := client0{{m_creationInfo := Some (creation commands)}}.

Lemma client0_hosting : hosting false client0.
Proof. split; [done|by eexists|done]. Qed.
Lemma client1_in_process commands : in_process false (client1 commands).
Proof. split; [done|]. discriminate. Qed.

Definition run_client : Server Opts -> list (event Opts) -> result (Server Opts) :=
  run Levels.ex_setup set_option Levels.ex_get None false false.

(** A level is asked for, loads twice, and the second command has a NUL; on a
    dedicated server nothing is run. *)
Lemma startup_commands_once_witness :
  (exists st', run_client (client1 [bstr "a"; [Byte.x62; Byte.x00; Byte.x63]])
      [EvLoad (bstr "Hoth") (bstr "HvV"); EvUpdateLoad 3; EvUpdateLoad 7; EvFrame true 33333333; EvUpdateLoad 7] = Ok st' /\
    commands (effects st') = [bstr "a"; bstr "b"]) /\
  match run Levels.ex_setup set_option Levels.ex_get None true false (client1 [bstr "a"]) [EvUpdateLoad 7; EvLoaded; EvUpdateLoad 7] with
  | Ok st' => commands (effects st') = []
  | Fault _ => False
  end.
Proof.
  split.
  - destruct (proj1 (startup_commands_once Levels.ex_setup set_option Levels.ex_get None false false option_set (client1 [bstr "a"; [Byte.x62; Byte.x00; Byte.x63]])
      [EvLoad (bstr "Hoth") (bstr "HvV"); EvUpdateLoad 3; EvUpdateLoad 7; EvFrame true 33333333; EvUpdateLoad 7]
      (creation [bstr "a"; [Byte.x62; Byte.x00; Byte.x63]]) eq_refl eq_refl) (client1_in_process _))
      as (st' & E & H). exists st'. split; [exact E|]. rewrite H. by vm_compute.
  - destruct (run _ _ _ _ _ _ _ _) as [st'|] eqn:E; [|vm_compute in E; discriminate].
    exact (proj2 (startup_commands_once Levels.ex_setup set_option Levels.ex_get None true false option_set (client1 [bstr "a"])
      [EvUpdateLoad 7; EvLoaded; EvUpdateLoad 7] (creation [bstr "a"]) eq_refl eq_refl) eq_refl st' E).
Defined.

(** A hosted server, stopped, and then a game of the player's own; and one that is
    stopped too early. *)
Lemma hosted_server_sockets_witness :
  match run_client client0 (EvStart (creation []) (Some (bstr "id")) :: [EvListen 5; EvLoaded;
    EvSpawn (spawn_info 1) (GameManager 8); EvUpdateLoad 7; EvStop; EvSpawn (spawn_info 2) (GameManager 9)]) with
  | Ok st' => starts (effects st') = [(spawn_info 1, OwnManager); (spawn_info 2, GameManager 9)]
  | Fault _ => False
  end /\
  match run_client client0 (EvStart (creation []) (Some (bstr "id")) :: [EvListen 5; EvStop;
    EvSpawn (spawn_info 1) (GameManager 8); EvSpawn (spawn_info 2) (GameManager 9)]) with
  | Ok st' => starts (effects st') = [(spawn_info 1, OwnManager); (spawn_info 2, OwnManager)]
  | Fault _ => False
  end.
Proof.
  split; (destruct (run_client _ _) as [st'|] eqn:E; [|vm_compute in E; discriminate E]);
    match type of E with _ _ (_ :: ?h) = _ =>
      exact (hosted_server_sockets Levels.ex_setup set_option Levels.ex_get None false false option_set client0 (creation []) (Some (bstr "id")) h st'
        client0_hosting eq_refl E) end.
Defined.

Lemma stopped_early_stays_hooked_witness :
  match run_client client0 (EvStart (creation []) (Some (bstr "id")) :: [EvListen 5] ++ EvStop :: [EvSpawn (spawn_info 1) (GameManager 8)]) with
  | Ok st' => starts (effects st') = [(spawn_info 1, OwnManager)] /\ m_socketSpawnInfo st' = Client.mkInfo false [] (bstr "id") []
  | Fault _ => False
  end.
Proof.
  destruct (run_client _ _) as [st'|] eqn:E; [|vm_compute in E; discriminate].
  exact (stopped_early_stays_hooked Levels.ex_setup set_option Levels.ex_get None false false option_set client0 (creation []) (bstr "id") [EvListen 5] [EvSpawn (spawn_info 1) (GameManager 8)] st'
    client0_hosting eq_refl eq_refl eq_refl E).
Defined.

(** Eleven seconds and the management's answer, after a failed registration. *)
Lemma failed_registration_final_witness :
  match Start Levels.ex_setup set_option Levels.ex_get false false (creation []) true None client0 with
  | Ok st1 =>
    match run_client st1 [EvGone (Some (bstr "id")); EvFrame true 11000000000; EvGone (Some (bstr "id"))] with
    | Ok st' => services (effects st') = [RegisterServer (creation []); Connect (bstr "DUMMY")]
    | Fault _ => False
    end
  | Fault _ => False
  end.
Proof.
  destruct (Start _ _ _ _ _ _ _ _ _) as [st1|] eqn:E1; [|vm_compute in E1; discriminate].
  destruct (run_client _ _) as [st'|] eqn:E; [|exfalso; revert E; vm_compute in E1; injection E1 as <-; by vm_compute].
  exact (failed_registration_final Levels.ex_setup set_option Levels.ex_get None false false option_set client0 (creation []) true
    [EvGone (Some (bstr "id")); EvFrame true 11000000000; EvGone (Some (bstr "id"))] st1 st' client0_hosting eq_refl eq_refl E1 eq_refl E).
Defined.

(** The level of the start loads, and another one waits. *)
Definition client2 : Server Opts :=
  (client1 []){{m_runningHosted := true; levels := Levels.mkServer (bstr "Hoth") [] false (Levels.mkRequest (bstr "Hoth") []) [] }}.

Lemma loaded_twice_witness :
  exists st' second third, run_client client2 ([EvUpdateLoad ServerLoadState_Done; EvLoaded] ++ [EvLoad (bstr "Endor") []]) = Ok st' /\
    Levels.loads (levels st') = [second; third].
Proof.
  exact (loaded_twice Levels.ex_setup set_option Levels.ex_get None false false option_set client2 (creation []) [EvUpdateLoad ServerLoadState_Done; EvLoaded] (bstr "Endor") []
    eq_refl eq_refl eq_refl ltac:(discriminate) (or_introl eq_refl)).
Defined.

Definition game0 : Client.Game Z := Client.mkGame (Client.Client_new) (client_view client0) settings0 true false [] [].

Lemma game0_views : views client0 game0.
Proof. by split. Qed.

(** A start that is repeated. *)
Lemma refines_client_witness :
  match foldM (ask Levels.ex_setup set_option Levels.ex_get None false false) client0
      [RqStart (creation []) true (Some (bstr "id")); RqStart (creation []) true None; RqStartup None] with
  | Ok st' => Client.server (foldl (client_ask None) game0
      [RqStart (creation []) true (Some (bstr "id")); RqStart (creation []) true None; RqStartup None]) = client_view st'
  | Fault _ => False
  end.
Proof.
  destruct (foldM _ _ _) as [st'|] eqn:E; [|vm_compute in E; discriminate].
  exact (vw_server _ _ (refines_client Levels.ex_setup set_option Levels.ex_get None false false option_set
    [RqStart (creation []) true (Some (bstr "id")); RqStart (creation []) true None; RqStartup None] client0 game0 st' game0_views eq_refl E)).
Defined.

(** Two sockets, between them one that cannot bind, and a stop. *)
Definition sample_listen (binds : bool) : Sockets.op :=
  Sockets.OpListen (Network.mkCalls (Some 7) binds true true true) false None [] (fun _ _ => Network.SocketAddr_Clear) (bstr ":25200") false.
Definition sample_ops : list Sockets.op := [sample_listen true; sample_listen false; sample_listen true; Sockets.OpStop None].
Definition sample_sockets : result (Sockets.SocketManager * Sockets.SocketHeap) :=
  foldM Sockets.do (Sockets.SocketManager_new Network.Clientbound no_info, ∅) sample_ops.

Lemma listed_sockets_open_witness : exists m h, sample_sockets = Ok (m, h) /\ length (Sockets.m_sockets m) = 1%nat /\ Sockets.sockets_ok m h.
Proof.
  destruct sample_sockets as [[m h]|] eqn:E; [|vm_compute in E; discriminate]. exists m, h. split; [done|]. split.
  - assert (H : (fun r => match r with Ok mh => length (Sockets.m_sockets mh.1) | _ => 0%nat end) sample_sockets = 1%nat) by by vm_compute.
    rewrite E in H. exact H.
  - refine (proj1 (Sockets.listed_sockets_open sample_ops _ ∅ m h _ E)). split; [by intros s ?%elem_of_nil|apply NoDup_nil_2].
Defined.

(** At thirty frames a second a server reports every 300 frames: ten seconds. *)
Definition alive (l : list (Effect Opts)) : nat := length (List.filter (fun e => match e with SendKeepAlive => true | _ => false end) l).
Lemma heartbeat_period :
  let frames n := match run Levels.ex_setup set_option Levels.ex_get None true false client0 (replicate n (EvFrame true 33333333)) with
    | Ok st => alive (effects st) | Fault _ => 0%nat end in
  (frames 299%nat, frames 300%nat, frames 599%nat, frames 600%nat) = (0, 1, 1, 2)%nat.
Proof. by vm_compute. Qed.
End Sample.
