(* ===== verification/Lua.v ===== *)
(** The memory of the process and the part of the Lua API (the sources of Lua are
    vendored, ThirdParty/lua) through which the bindings of plugins work: values,
    the frame of a C function, userdata, metatables and globals. Collection,
    stack growth and metamethods of the tables involved are left out; userdata
    are never collected here, their [__gc] is called explicitly.

    The conversions between numbers and strings that C and Lua leave to
    floating-point arithmetic and to the C library are a class, [LuaNumbers];
    floating-point numbers are known by their bits. *)

From S2P Require Import Prelude.
From S2P Require Import ByteBuffer.

(** ** Memory *)

(** The bytes at the addresses that are mapped; an access to another address is
    undefined. *)
Abbreviation Mem := (gmap Z byte).

Fixpoint load (n : nat) (a : Z) (m : Mem) : result (list byte) :=
  match n with
  | O => Ok []
  | S n' => b ← of_option Undefined (m !! a); bs ← load n' (a + 1) m; Ok (b :: bs)
  end.

Fixpoint store (a : Z) (bs : list byte) (m : Mem) : result Mem :=
  match bs with
  | [] => Ok m
  | b :: bs' => match m !! a with Some _ => store (a + 1) bs' (<[a := b]> m) | None => Fault Undefined end
  end.

Definition load_int (n : nat) (a : Z) (m : Mem) : result Z := bs ← load n a m; Ok (le_combine bs).
Definition store_int (n : nat) (a v : Z) (m : Mem) : result Mem := store a (le_split n v) m.

(** [memcpy] of ranges that do not overlap. *)
Definition memcpy (dest src : Z) (n : nat) (m : Mem) : result Mem := bs ← load n src m; store dest bs m.

(** A string up to its NUL, within so many bytes. *)
Fixpoint load_string (fuel : nat) (a : Z) (m : Mem) : result (list byte) :=
  match fuel with
  | O => Fault OutOfFuel
  | S fuel' =>
    b ← of_option Undefined (m !! a);
    if decide (b = Byte.x00) then Ok [] else bs ← load_string fuel' (a + 1) m; Ok (b :: bs)
  end.

(** The game's arenas. Memory that an arena gives is at addresses nobody uses; it
    gives none, the null pointer, when it has none left. *)
Class Arena := {
  arena_alloc : Z -> Mem -> Z * Mem;
  arena_free : Z -> Mem -> Mem;
  arena_alloc_ok n m a m' : arena_alloc n m = (a, m') -> a <> 0 ->
    0 < a /\ a + n < 2 ^ 64 /\ (forall b, a <= b < a + n -> m !! b = None /\ is_Some (m' !! b)) /\
    (forall b, is_Some (m !! b) -> m' !! b = m !! b);
}.

(** ** Values *)

Inductive TValue :=
  | LUA_TNIL
  | LUA_TBOOLEAN (b : bool)
  | LUA_TLIGHTUSERDATA (p : Z)
  | LUA_TINTEGER (i : Z)
  | LUA_TNUMBER (bits : Z)
  | LUA_TSTRING (s : list byte)
  | LUA_TTABLE (id : Z)
  | LUA_TFUNCTION (f : list byte) (upvalue : option Z)
  | LUA_TUSERDATA (id : Z).

#[export] Instance TValue_eq_dec : EqDecision TValue.
Proof. solve_decision. Defined.

(** The tags of the types that have one metatable for all their values. *)
Definition ttype (v : TValue) : Z :=
  match v with
  | LUA_TNIL => 0 | LUA_TBOOLEAN _ => 1 | LUA_TLIGHTUSERDATA _ => 2 | LUA_TINTEGER _ | LUA_TNUMBER _ => 3
  | LUA_TSTRING _ => 4 | LUA_TTABLE _ => 5 | LUA_TFUNCTION _ _ => 6 | LUA_TUSERDATA _ => 7
  end.

Class LuaNumbers := {
  (** [luaV_tointeger] of a float, and of a string *)
  float_tointeger : Z -> option Z;
  string_tointeger : list byte -> option Z;
  (** [cvt2num], and the conversions between the number types *)
  string_tonumber : list byte -> option Z;
  integer_tonumber : Z -> Z;
  double_to_float : Z -> Z;
  float_to_double : Z -> Z;
  (** [luaO_tostring] of a number *)
  number_tostring : TValue -> list byte;
  double_to_float_range z : is_u32 (double_to_float z);
}.

(** ** The state *)

(** Userdata are words, each initialised or not; [metatables] are those of tables
    and userdata, [G_mt] those of the other types. The frame is that of the C
    function that runs, the bottom of its stack first. *)
Record lua_State := mkLua {
  frame : list TValue;
  udata : gmap Z (list (option Z));
  tables : gmap Z (gmap (list byte) TValue);
  metatables : gmap Z Z;
  G_mt : gmap Z Z;
  registry : gmap (list byte) TValue;
  globals : gmap (list byte) TValue;
  next_object : Z;
}.

Record World := mkWorld { mem : Mem; lua : lua_State }.

Definition set_frame (s : list TValue) (L : lua_State) : lua_State :=
  mkLua s (udata L) (tables L) (metatables L) (G_mt L) (registry L) (globals L) (next_object L).
Definition set_udata u (L : lua_State) : lua_State :=
  mkLua (frame L) u (tables L) (metatables L) (G_mt L) (registry L) (globals L) (next_object L).
Definition set_tables t (L : lua_State) : lua_State :=
  mkLua (frame L) (udata L) t (metatables L) (G_mt L) (registry L) (globals L) (next_object L).
Definition set_metatables m (L : lua_State) : lua_State :=
  mkLua (frame L) (udata L) (tables L) m (G_mt L) (registry L) (globals L) (next_object L).
Definition set_G_mt m (L : lua_State) : lua_State :=
  mkLua (frame L) (udata L) (tables L) (metatables L) m (registry L) (globals L) (next_object L).
Definition set_registry r (L : lua_State) : lua_State :=
  mkLua (frame L) (udata L) (tables L) (metatables L) (G_mt L) r (globals L) (next_object L).
Definition set_globals g (L : lua_State) : lua_State :=
  mkLua (frame L) (udata L) (tables L) (metatables L) (G_mt L) (registry L) g (next_object L).
Definition set_next n (L : lua_State) : lua_State :=
  mkLua (frame L) (udata L) (tables L) (metatables L) (G_mt L) (registry L) (globals L) n.

(** ** C functions *)

(** A C function of Lua changes the memory and the state; [None] is an error
    raised with [luaL_error], which leaves the function. *)
Definition LM (A : Type) : Type := World -> result (option A * World).

#[export] Instance LM_ret : MRet LM := fun A a w => Ok (Some a, w).
#[export] Instance LM_bind : MBind LM := fun A B f m w =>
  match m w with
  | Ok (Some a, w') => f a w'
  | Ok (None, w') => Ok (None, w')
  | Fault e => Fault e
  end.

Definition luaL_error {A} : LM A := fun w => Ok (None, w).
Definition crash {A} (e : fault) : LM A := fun _ => Fault e.
Definition gets {A} (f : lua_State -> A) : LM A := fun w => Ok (Some (f (lua w)), w).
Definition modify (f : lua_State -> lua_State) : LM unit := fun w => Ok (Some tt, mkWorld (mem w) (f (lua w))).
Definition read_mem {A} (f : Mem -> result A) : LM A := fun w => a ← f (mem w); Ok (Some a, w).
Definition write_mem (f : Mem -> result Mem) : LM unit := fun w => m ← f (mem w); Ok (Some tt, mkWorld m (lua w)).
Definition lift {A} (r : result A) : LM A := fun w => a ← r; Ok (Some a, w).

(** ** The API *)

(** An index above the top is nil; one below the bottom is not allowed. *)
Definition index2value (idx : Z) : LM TValue :=
  s ← gets frame;
  if 0 <? idx then mret (default LUA_TNIL (s !! Z.to_nat (idx - 1))) else
  if (idx =? 0) || (len s <? - idx) then crash Undefined else lift (of_option Undefined (s !! Z.to_nat (len s + idx))).

Definition push (v : TValue) : LM unit := modify (fun L => set_frame (frame L ++ [v]) L).
Definition lua_pop (n : nat) : LM unit :=
  s ← gets frame;
  if (length s <? n)%nat then crash Undefined else modify (set_frame (take (length s - n) s)).

Definition lua_pushnil : LM unit := push LUA_TNIL.
Definition lua_pushboolean (b : bool) : LM unit := push (LUA_TBOOLEAN b).
Definition lua_pushinteger (i : Z) : LM unit := push (LUA_TINTEGER (i64 i)).
Definition lua_pushnumber (bits : Z) : LM unit := push (LUA_TNUMBER bits).
Definition lua_pushstring (s : list byte) : LM unit := push (LUA_TSTRING (c_str s)).
Definition lua_pushlightuserdata (p : Z) : LM unit := push (LUA_TLIGHTUSERDATA p).
Definition lua_pushcfunction (f : list byte) : LM unit := push (LUA_TFUNCTION f None).
Definition lua_pushvalue (idx : Z) : LM unit := v ← index2value idx; push v.

(** One value, a light userdata, as upvalue. *)
Definition lua_pushcclosure1 (f : list byte) : LM unit :=
  v ← index2value (-1); _ ← lua_pop 1;
  match v with LUA_TLIGHTUSERDATA p => push (LUA_TFUNCTION f (Some p)) | _ => crash Undefined end.

Definition lua_isnil (idx : Z) : LM bool := v ← index2value idx; mret (bool_decide (v = LUA_TNIL)).
Definition lua_isuserdata (idx : Z) : LM bool :=
  v ← index2value idx; mret (match v with LUA_TUSERDATA _ | LUA_TLIGHTUSERDATA _ => true | _ => false end).
Definition lua_isstring (idx : Z) : LM bool :=
  v ← index2value idx; mret (match v with LUA_TSTRING _ | LUA_TINTEGER _ | LUA_TNUMBER _ => true | _ => false end).
Definition lua_toboolean (idx : Z) : LM bool :=
  v ← index2value idx; mret (match v with LUA_TNIL | LUA_TBOOLEAN false => false | _ => true end).

Section conversions.
Context `{LuaNumbers}.

Definition tointeger (v : TValue) : option Z :=
  match v with
  | LUA_TINTEGER i => Some i | LUA_TNUMBER f => float_tointeger f | LUA_TSTRING s => string_tointeger s | _ => None
  end.
Definition tonumber (v : TValue) : option Z :=
  match v with
  | LUA_TINTEGER i => Some (integer_tonumber i) | LUA_TNUMBER f => Some f | LUA_TSTRING s => string_tonumber s | _ => None
  end.
Definition tostring (v : TValue) : option (list byte) :=
  match v with LUA_TSTRING s => Some s | LUA_TINTEGER _ | LUA_TNUMBER _ => Some (number_tostring v) | _ => None end.

Definition or_error {A} (o : option A) : LM A := match o with Some a => mret a | None => luaL_error end.

Definition luaL_checkinteger (arg : Z) : LM Z := v ← index2value arg; or_error (tointeger v).
Definition luaL_checknumber (arg : Z) : LM Z := v ← index2value arg; or_error (tonumber v).

(** What C code sees of the string ends at a NUL. The value on the stack becomes
    the string too when it was a number, which no caller looks at again. *)
Definition luaL_checkstring (arg : Z) : LM (list byte) :=
  v ← index2value arg; s ← or_error (tostring v); mret (c_str s).
End conversions.

(** The words of a userdata of so many words, none of them initialised. *)
Definition lua_newuserdata (words : nat) : LM Z :=
  id ← gets next_object;
  _ ← modify (set_next (id + 1));
  _ ← modify (fun L => set_udata (<[id := replicate words None]> (udata L)) L);
  _ ← push (LUA_TUSERDATA id); mret id.

(** A word read through the pointer of a userdata, and written. *)
Definition ud_word (id : Z) (i : nat) : LM Z :=
  u ← gets udata; lift (of_option Undefined (ws ← u !! id; w ← ws !! i; w)).
Definition ud_set (id : Z) (i : nat) (v : Z) : LM unit :=
  modify (fun L => set_udata (alter (<[i := Some v]>) id (udata L)) L).

Definition luaL_getmetatable (tname : list byte) : LM unit :=
  r ← gets registry; push (default LUA_TNIL (r !! c_str tname)).

(** The value on top becomes the metatable of the value at the index, or of all
    values of its type; anything but a table or nil is taken for a table. *)
Definition lua_setmetatable (objindex : Z) : LM unit :=
  obj ← index2value objindex; top ← index2value (-1);
  _ ← (match top with
      | LUA_TNIL =>
        match obj with
        | LUA_TTABLE id | LUA_TUSERDATA id => modify (fun L => set_metatables (delete id (metatables L)) L)
        | _ => modify (fun L => set_G_mt (delete (ttype obj) (G_mt L)) L)
        end
      | LUA_TTABLE mt =>
        match obj with
        | LUA_TTABLE id | LUA_TUSERDATA id => modify (fun L => set_metatables (<[id := mt]> (metatables L)) L)
        | _ => modify (fun L => set_G_mt (<[ttype obj := mt]> (G_mt L)) L)
        end
      | _ => crash Undefined
      end : LM unit);
  lua_pop 1.

Definition luaL_setmetatable (tname : list byte) : LM unit := _ ← luaL_getmetatable tname; lua_setmetatable (-2).

Definition lua_newtable : LM unit :=
  id ← gets next_object;
  _ ← modify (set_next (id + 1));
  _ ← modify (fun L => set_tables (<[id := ∅]> (tables L)) L);
  push (LUA_TTABLE id).

(** The field of a table without metatable; nil removes it. *)
Definition set_key (k : list byte) (v : TValue) (t : gmap (list byte) TValue) : gmap (list byte) TValue :=
  if decide (v = LUA_TNIL) then delete (c_str k) t else <[c_str k := v]> t.

Definition lua_setfield (idx : Z) (k : list byte) : LM unit :=
  t ← index2value idx; v ← index2value (-1);
  match t with
  | LUA_TTABLE id => _ ← modify (fun L => set_tables (alter (set_key k v) id (tables L)) L); lua_pop 1
  | _ => crash Undefined
  end.

Definition lua_getglobal (name : list byte) : LM unit := g ← gets globals; push (default LUA_TNIL (g !! c_str name)).
Definition lua_setglobal (name : list byte) : LM unit :=
  v ← index2value (-1); _ ← modify (fun L => set_globals (set_key name v (globals L)) L); lua_pop 1.

Definition luaL_newmetatable (tname : list byte) : LM bool :=
  _ ← luaL_getmetatable tname;
  unused ← lua_isnil (-1);
  if (unused : bool) then
    _ ← lua_pop 1; _ ← lua_newtable; _ ← lua_pushstring tname; _ ← lua_setfield (-2) (bstr "__name");
    v ← index2value (-1); _ ← modify (fun L => set_registry (set_key tname v (registry L)) L); mret true
  else mret false.

(** The functions of a list, by name, into the table on top. *)
Fixpoint luaL_setfuncs (l : list (list byte * list byte)) : LM unit :=
  match l with
  | [] => mret tt
  | (name, func) :: l' => _ ← lua_pushcfunction func; _ ← lua_setfield (-2) name; luaL_setfuncs l'
  end.

(** The call of a C function: it gets a frame of its own with the arguments, and
    the values on top of that frame are its results. *)
Definition call (f : LM nat) (args : list TValue) : LM (list TValue) :=
  s ← gets frame;
  _ ← modify (set_frame args);
  n ← f;
  s' ← gets frame;
  _ ← modify (set_frame s);
  if (length s' <? n)%nat then crash Undefined else mret (drop (length s' - n) s').

(** ** Memory laws *)

Definition mapped (a n : Z) (m : Mem) : Prop := forall b, a <= b < a + n -> is_Some (m !! b).

Lemma mapped_S a n m : mapped a (Z.of_nat (S n)) m <-> is_Some (m !! a) /\ mapped (a + 1) (Z.of_nat n) m.
Proof.
  split.
  - intros H. split; [apply H; lia|]. intros b Hb. apply H. lia.
  - intros [H1 H2] b Hb. destruct (decide (b = a)) as [->|]; [done|]. apply H2. lia.
Qed.

Lemma mapped_weaken a n b k m : mapped a n m -> a <= b -> b + k <= a + n -> mapped b k m.
Proof. intros H H1 H2 c Hc. apply H. lia. Qed.

(** A write succeeds on mapped memory; it changes the bytes written and no other,
    and maps nothing. *)
Lemma store_ok bs a m :
  mapped a (len bs) m ->
  exists m', store a bs m = Ok m' /\ forall b, m' !! b = if decide (a <= b < a + len bs) then bs !! Z.to_nat (b - a) else m !! b.
Proof.
  revert a m. induction bs as [|x bs IH]; intros a m Hm.
  - exists m. split; [done|]. intros b. cbn [length]. by rewrite decide_False by lia.
  - cbn [length] in *. apply mapped_S in Hm as [[y Hy] Hm]. cbn [store]. rewrite Hy.
    destruct (IH (a + 1) (<[a := x]> m)) as (m' & Hs & Hl).
    { intros b Hb. rewrite lookup_insert_ne by lia. by apply Hm. }
    exists m'. split; [done|]. intros b. rewrite Hl. destruct (decide (b = a)) as [->|Hne].
    + rewrite decide_False, decide_True by lia. by rewrite lookup_insert_eq, Z.sub_diag.
    + rewrite lookup_insert_ne by done. destruct (decide (a + 1 <= b < a + 1 + len bs)).
      * rewrite decide_True by lia. by replace (Z.to_nat (b - a)) with (S (Z.to_nat (b - (a + 1)))) by lia.
      * by rewrite decide_False by lia.
Qed.

Lemma load_ext n a m m' : (forall b, a <= b < a + Z.of_nat n -> m !! b = m' !! b) -> load n a m = load n a m'.
Proof.
  revert a. induction n as [|n IH]; intros a H; [done|]. cbn [load]. rewrite (H a) by lia. rewrite (IH (a + 1)); [done|].
  intros b Hb. apply H. lia.
Qed.

Lemma load_bytes bs a m : (forall i, (i < length bs)%nat -> m !! (a + Z.of_nat i) = bs !! i) -> load (length bs) a m = Ok bs.
Proof.
  revert a. induction bs as [|x bs IH]; intros a H; [done|]. cbn [length load].
  pose proof (H 0%nat ltac:(cbn; lia)) as H0. rewrite Z.add_0_r in H0. rewrite H0. cbn.
  rewrite IH; [done|]. intros i Hi. rewrite <- Z.add_assoc. replace (1 + Z.of_nat i) with (Z.of_nat (S i)) by lia.
  rewrite H by (cbn; lia). done.
Qed.

Lemma load_mapped n a m : mapped a (Z.of_nat n) m -> exists bs, load n a m = Ok bs /\ length bs = n.
Proof.
  revert a. induction n as [|n IH]; intros a H; [by exists []|]. apply mapped_S in H as [[x Hx] H].
  destruct (IH (a + 1) H) as (bs & Hb & Hlen). exists (x :: bs). cbn [load]. rewrite Hx. cbn. rewrite Hb. cbn. by rewrite Hlen.
Qed.

(** Only these addresses differ. *)
Definition same_but (a n : Z) (m m' : Mem) : Prop := forall b, ~ (a <= b < a + n) -> m' !! b = m !! b.

Lemma store_load bs a m :
  mapped a (len bs) m -> exists m', store a bs m = Ok m' /\ load (length bs) a m' = Ok bs /\ same_but a (len bs) m m'.
Proof.
  intros Hm. destruct (store_ok bs a m Hm) as (m' & Hs & Hl). exists m'. split; [done|]. split.
  - apply load_bytes. intros i Hi. rewrite Hl, decide_True by lia. f_equal. lia.
  - intros b Hb. by rewrite Hl, decide_False by lia.
Qed.

Lemma same_but_load a n m m' k b :
  same_but a n m m' -> b + Z.of_nat k <= a \/ a + n <= b -> load k b m' = load k b m.
Proof. intros H Hd. apply load_ext. intros c Hc. apply H. lia. Qed.

Lemma same_but_mapped a n m m' b k : same_but a n m m' -> mapped a n m' -> mapped b k m -> mapped b k m'.
Proof.
  intros H Hm Hk c Hc. destruct (decide (a <= c < a + n)); [by apply Hm|]. rewrite H by done. by apply Hk.
Qed.

(** An integer written and read back, at its width. *)
Lemma store_load_int n a v m :
  mapped a (Z.of_nat n) m ->
  exists m', store_int n a v m = Ok m' /\ load_int n a m' = Ok (uwrap (8 * Z.of_nat n) v) /\ same_but a (Z.of_nat n) m m'.
Proof.
  intros Hm. destruct (store_load (le_split n v) a m) as (m' & Hs & Hl & Hb).
  { by rewrite length_le_split. }
  rewrite length_le_split in Hl, Hb. exists m'. split; [done|]. split; [|done].
  unfold load_int. rewrite Hl. cbn. rewrite le_combine_split. unfold uwrap. do 2 f_equal. f_equal. lia.
Qed.

(** ** Laws of the API *)

Lemma LM_bind_ok {A B} (m : LM A) (f : A -> LM B) w a w' : m w = Ok (Some a, w') -> (m ≫= f) w = f a w'.
Proof. intros H. unfold mbind, LM_bind. by rewrite H. Qed.

Lemma LM_bind_assoc {A B C} (m : LM A) (f : A -> LM B) (g : B -> LM C) w : ((m ≫= f) ≫= g) w = (m ≫= fun a => f a ≫= g) w.
Proof. unfold mbind, LM_bind. by destruct (m w) as [[[a|] w']|]. Qed.

Lemma LM_bind_error {A B} (m : LM A) (f : A -> LM B) w w' : m w = Ok (None, w') -> (m ≫= f) w = Ok (None, w').
Proof. intros H. unfold mbind, LM_bind. by rewrite H. Qed.

Lemma LM_bind_fault {A B} (m : LM A) (f : A -> LM B) w e : m w = Fault e -> (m ≫= f) w = Fault e.
Proof. intros H. unfold mbind, LM_bind. by rewrite H. Qed.

Lemma set_frame_frame s s' L : set_frame s (set_frame s' L) = set_frame s L.
Proof. done. Qed.

Lemma set_frame_id L : set_frame (frame L) L = L.
Proof. by destruct L. Qed.

(** A world with another frame. *)
Definition in_frame (s : list TValue) (w : World) : World := mkWorld (mem w) (set_frame s (lua w)).

(** An error leaves the frame of the function that raised it. *)
Lemma lua_call_error f args w :
  f (in_frame args w) = Ok (None, in_frame args w) -> call f args w = Ok (None, in_frame args w).
Proof.
  intros H. unfold call. rewrite (LM_bind_ok _ _ _ (frame (lua w)) w) by done.
  rewrite (LM_bind_ok _ _ _ tt (in_frame args w)) by done. unfold mbind at 1, LM_bind at 1. by rewrite H.
Qed.

(** A call whose function leaves the world as it is, but for the memory and the frame. *)
Lemma lua_call_ok f args w n s m rs :
  f (in_frame args w) = Ok (Some n, mkWorld m (set_frame s (lua w))) ->
  (n <= length s)%nat -> drop (length s - n) s = rs ->
  call f args w = Ok (Some rs, mkWorld m (lua w)).
Proof.
  intros H Hn <-. unfold call. rewrite (LM_bind_ok _ _ _ (frame (lua w)) w) by done.
  rewrite (LM_bind_ok _ _ _ tt (in_frame args w)) by done.
  rewrite (LM_bind_ok _ _ _ _ _ H). rewrite (LM_bind_ok _ _ _ s (mkWorld m (set_frame s (lua w)))) by done.
  rewrite (LM_bind_ok _ _ _ tt (mkWorld m (lua w))) by (unfold modify; cbn; by rewrite set_frame_frame, set_frame_id).
  by rewrite (proj2 (Nat.ltb_ge _ _)) by done.
Qed.

Lemma index2value_ok i w v :
  0 < i -> frame (lua w) !! Z.to_nat (i - 1) = Some v -> index2value i w = Ok (Some v, w).
Proof.
  intros Hi Hv. unfold index2value. rewrite (LM_bind_ok _ _ _ (frame (lua w)) w) by done.
  rewrite (proj2 (Z.ltb_lt 0 i)) by done. by rewrite Hv.
Qed.

Lemma swrap_of_uwrap w z : swrap w (uwrap w z) = swrap w z.
Proof. unfold swrap, uwrap. by rewrite Zplus_mod_idemp_l. Qed.

Lemma uwrap_idem w z : uwrap w (uwrap w z) = uwrap w z.
Proof. unfold uwrap. apply Zmod_mod. Qed.

Lemma i64_u32 z : i64 (u32 z) = u32 z.
Proof. apply swrap_small; [done|]. pose proof (uwrap_range 32 z ltac:(done)) as H. unfold urange, srange in *. lia. Qed.

Lemma i64_i32 z : i64 (i32 z) = i32 z.
Proof.
  apply swrap_small; [done|]. unfold srange, swrap.
  pose proof (Z.mod_pos_bound (z + 2 ^ (32 - 1)) (2 ^ 32) ltac:(done)). lia.
Qed.

Lemma load_app n k a m : load (n + k) a m = bs ← load n a m; bs' ← load k (a + Z.of_nat n) m; Ok (bs ++ bs').
Proof.
  revert a. induction n as [|n IH]; intros a; cbn [Nat.add load].
  - rewrite Z.add_0_r. cbn. by destruct (load k a m).
  - destruct (m !! a); [|done]. cbn. rewrite IH. replace (a + 1 + Z.of_nat n) with (a + Z.of_nat (S n)) by lia.
    destruct (load n (a + 1) m); [|done]. cbn. by destruct (load k _ m).
Qed.

Lemma load_is_mapped n a m bs : load n a m = Ok bs -> mapped a (Z.of_nat n) m /\ length bs = n.
Proof.
  revert a bs. induction n as [|n IH]; intros a bs H.
  - injection H as <-. split; [|done]. intros b Hb. lia.
  - cbn [load] in H. destruct (m !! a) eqn:E; [|done]. cbn in H. destruct (load n (a + 1) m) as [bs'|] eqn:E'; [|done].
    injection H as <-. destruct (IH _ _ E') as [H1 H2]. split; [by apply mapped_S|]. cbn. by rewrite H2.
Qed.

(** The top of the stack. *)
Lemma index2value_top w s u v :
  frame (lua w) = s ++ [u; v] -> index2value (-1) w = Ok (Some v, w) /\ index2value (-2) w = Ok (Some u, w).
Proof.
  intros Hf. unfold index2value. rewrite !(LM_bind_ok _ _ _ (s ++ [u; v]) w) by (unfold gets; by rewrite Hf).
  cbn [Z.ltb Z.compare Z.eqb orb Z.opp]. rewrite length_app. cbn [length].
  rewrite !(proj2 (Z.ltb_ge _ _)) by lia. unfold lift.
  replace (Z.to_nat (Z.of_nat (length s + 2) + -1)) with (length s + 1)%nat by lia.
  replace (Z.to_nat (Z.of_nat (length s + 2) + -2)) with (length s + 0)%nat by lia.
  rewrite !list.lookup_app_r by lia. replace (length s + 1 - length s)%nat with 1%nat by lia.
  by replace (length s + 0 - length s)%nat with 0%nat by lia.
Qed.

Lemma lua_pop_ok w s v : frame (lua w) = s ++ [v] -> lua_pop 1 w = Ok (Some tt, in_frame s w).
Proof.
  intros Hf. unfold lua_pop. rewrite (LM_bind_ok _ _ _ (s ++ [v]) w) by (unfold gets; by rewrite Hf).
  rewrite length_app. cbn [length]. rewrite (proj2 (Nat.ltb_ge _ _)) by lia.
  replace (length s + 1 - 1)%nat with (length s) by lia. unfold modify, in_frame. by rewrite take_app_length.
Qed.

(** A new userdata of one word with its metatable. *)
Definition with_object (words : list (option Z)) (mt : Z) (L : lua_State) : lua_State :=
  mkLua (frame L ++ [LUA_TUSERDATA (next_object L)]) (<[next_object L := words]> (udata L)) (tables L)
    (<[next_object L := mt]> (metatables L)) (G_mt L) (registry L) (globals L) (next_object L + 1).

Definition is_metatable (v : TValue) : bool := match v with LUA_TNIL | LUA_TTABLE _ => true | _ => false end.

(** A metatable is taken from the top; anything else there is undefined. *)
Lemma lua_setmetatable_top w s u v :
  frame (lua w) = s ++ [u; v] ->
  if is_metatable v then exists w', lua_setmetatable (-2) w = Ok (Some tt, w') /\ frame (lua w') = s ++ [u]
  else lua_setmetatable (-2) w = Fault Undefined.
Proof.
  intros Hf. destruct (index2value_top _ _ _ _ Hf) as [H1 H2]. unfold lua_setmetatable.
  rewrite (LM_bind_ok _ _ _ _ _ H2), (LM_bind_ok _ _ _ _ _ H1).
  assert (Hpop : forall L, frame L = s ++ [u; v] -> exists w', lua_pop 1 (mkWorld (mem w) L) = Ok (Some tt, w') /\ frame (lua w') = s ++ [u]).
  { intros L HL. eexists. split; [|shelve]. apply (lua_pop_ok _ (s ++ [u]) v). cbn. by rewrite HL, <- app_assoc. Unshelve. done. }
  destruct v; cbn [is_metatable]; try done; destruct u;
    (erewrite LM_bind_ok; [|done]); by apply Hpop.
Qed.
