(* ===== verification/LuaData.v ===== *)
(** The game's objects as plugins see them (Source/Script/LuaDataContainer.cpp):
    fields found by name through the game's type information
    (Public/SDK/SDK.h), read and written in the memory of the process at the
    field's type and offset, and arrays that are indexed, walked and extended. *)

From S2P Require Import Prelude.
From S2P Require Import ByteBuffer.
From S2P Require Import StringUtils.
From S2P Require Import Lua.

(** ** Type information *)

Inductive TypeCodeEnum :=
  | kTypeCode_Void | kTypeCode_DbObject | kTypeCode_ValueType | kTypeCode_Class | kTypeCode_Array | kTypeCode_CString
  | kTypeCode_Enum | kTypeCode_Boolean | kTypeCode_Int8 | kTypeCode_Uint8 | kTypeCode_Int16 | kTypeCode_Uint16
  | kTypeCode_Int32 | kTypeCode_Uint32 | kTypeCode_Int64 | kTypeCode_Uint64 | kTypeCode_Float32 | kTypeCode_Float64
  | kTypeCode_unknown.

#[export] Instance TypeCodeEnum_eq_dec : EqDecision TypeCodeEnum.
Proof. solve_decision. Defined.

Definition type_code (n : Z) : TypeCodeEnum :=
  match n with
  | 0 => kTypeCode_Void | 1 => kTypeCode_DbObject | 2 => kTypeCode_ValueType | 3 => kTypeCode_Class | 4 => kTypeCode_Array
  | 7 => kTypeCode_CString | 8 => kTypeCode_Enum | 10 => kTypeCode_Boolean | 11 => kTypeCode_Int8 | 12 => kTypeCode_Uint8
  | 13 => kTypeCode_Int16 | 14 => kTypeCode_Uint16 | 15 => kTypeCode_Int32 | 16 => kTypeCode_Uint32 | 17 => kTypeCode_Int64
  | 18 => kTypeCode_Uint64 | 19 => kTypeCode_Float32 | 20 => kTypeCode_Float64 | _ => kTypeCode_unknown
  end.

(** Pointers are addresses. A field array is a list, as long as its count. *)
Record FieldInfoData := mkField { field_name : list byte; fieldOffset : Z; fieldTypePtr : Z }.

Record MemberInfo := mkInfo { name : list byte; flags : Z; totalSize : Z }.

Inductive TypeInfoData :=
  | ClassInfoData (info : MemberInfo) (superClass : Z) (fields : list FieldInfoData)
  | EnumTypeInfoData (info : MemberInfo) (fields : list FieldInfoData)
  | ValueTypeInfoData (info : MemberInfo) (fields : list FieldInfoData)
  | ArrayTypeInfoData (info : MemberInfo) (elementType : Z)
  | PlainInfoData (info : MemberInfo).

Definition info (d : TypeInfoData) : MemberInfo :=
  match d with
  | ClassInfoData i _ _ | EnumTypeInfoData i _ | ValueTypeInfoData i _ | ArrayTypeInfoData i _ | PlainInfoData i => i
  end.

Definition kFlagIsBlittable : Z := Z.shiftl 1 15.
Definition IsBlittable (i : MemberInfo) : bool := Z.land (flags i) kFlagIsBlittable =? kFlagIsBlittable.
Definition basic_type (i : MemberInfo) : TypeCodeEnum := type_code (Z.land (Z.shiftr (flags i) 5) 31).

(** What is at the addresses of [TypeInfo]s (a pointer) and of their data. *)
Record Types := mkTypes { typeInfoData : gmap Z Z; infoData : gmap Z TypeInfoData }.

(** ** Finding a field *)

(** The character a pointer into a string points at. *)
Definition char_at (s : list byte) : byte := match s with [] => Byte.x00 | c :: _ => c end.

(** The difference of the first characters that differ, up to a NUL. *)
Fixpoint strcicmp (a b : list byte) : Z :=
  let ca := char_at a in
  let cb := char_at b in
  let d := byte.unsigned (lower_byte ca) - byte.unsigned (lower_byte cb) in
  if negb (d =? 0) || bool_decide (ca = Byte.x00) then d else
  match a, b with
  | _ :: a', _ :: b' => strcicmp a' b'
  | _, _ => d
  end.

(** The loop over the fields of one class. *)
Definition find_in (fields : list FieldInfoData) (key : list byte) : option FieldInfoData :=
  List.find (fun f => strcicmp (field_name f) key =? 0) fields.

Section types.
Context (T : Types).

Fixpoint FindField_at (fuel : nat) (d : Z) (key : list byte) : result (option FieldInfoData) :=
  if d =? 0 then Ok None else
  match fuel with
  | O => Fault OutOfFuel
  | S fuel' =>
    match infoData T !! d with
    | Some (ClassInfoData _ superClass fields) =>
      match find_in fields key with
      | Some f => Ok (Some f)
      | None =>
        if superClass =? 0 then Ok None else
        superData ← of_option Undefined (typeInfoData T !! superClass);
        if superData =? d then Ok None else FindField_at fuel' superData key
      end
    | _ => Fault Undefined
    end
  end.

(** A class has no more ancestors than there are types. *)
Definition FindField (d : Z) (key : list byte) : result (option FieldInfoData) := FindField_at (size (infoData T)) d key.

(** ** The hierarchy of a class *)

(** The data of a class and of its ancestors, with their fields: the walk ends at
    a class without a super class or one that is its own. *)
Inductive ancestry : Z -> list (Z * list FieldInfoData) -> Prop :=
  | ancestry_null : ancestry 0 []
  | ancestry_root d i super fields :
      d <> 0 -> infoData T !! d = Some (ClassInfoData i super fields) ->
      super = 0 \/ typeInfoData T !! super = Some d -> ancestry d [(d, fields)]
  | ancestry_derived d i super fields superData l :
      d <> 0 -> infoData T !! d = Some (ClassInfoData i super fields) ->
      super <> 0 -> typeInfoData T !! super = Some superData -> superData <> d ->
      ancestry superData l -> ancestry d ((d, fields) :: l).

Lemma ancestry_det d l l' : ancestry d l -> ancestry d l' -> l = l'.
Proof.
  intros H. revert l'. induction H as [|d i super fields Hd Hi Hs|d i super fields sd l Hd Hi Hs Ht Hne H IH]; intros l' H';
    inversion H' as [|d' i' super' fields' Hd' Hi' Hs'|d' i' super' fields' sd' l2 Hd' Hi' Hs' Ht' Hne' H2]; subst; try done;
    rewrite Hi in Hi'; simplify_eq.
  - done.
  - destruct Hs as [Hs|Hs]; [done|]. rewrite Hs in Ht'. simplify_eq.
  - destruct Hs' as [Hs'|Hs']; [done|]. rewrite Hs' in Ht. simplify_eq.
  - f_equal. by apply IH.
Qed.

Lemma ancestry_member d l e : ancestry d l -> e ∈ l.*1 -> exists l', ancestry e l' /\ (length l' <= length l)%nat.
Proof.
  induction 1 as [|d i super fields Hd Hi Hs|d i super fields sd l Hd Hi Hs Ht Hne H IH]; cbn; intros He.
  - by apply elem_of_nil in He.
  - apply list_elem_of_singleton in He as ->. eexists. split; [by eapply ancestry_root|]. done.
  - apply elem_of_cons in He as [->|He].
    + eexists. split; [by eapply ancestry_derived|]. done.
    + destruct (IH He) as (l' & Hl' & Hlen). exists l'. split; [done|]. lia.
Qed.

Lemma ancestry_NoDup d l : ancestry d l -> NoDup l.*1.
Proof.
  induction 1 as [|d i super fields Hd Hi Hs|d i super fields sd l Hd Hi Hs Ht Hne H IH]; cbn.
  - constructor.
  - apply NoDup_singleton.
  - constructor; [|done]. intros Hin. destruct (ancestry_member _ _ _ H Hin) as (l' & Hl' & Hlen).
    assert (Hl : ancestry d ((d, fields) :: l)) by by eapply ancestry_derived.
    rewrite (ancestry_det _ _ _ Hl' Hl) in Hlen. cbn in Hlen. lia.
Qed.

Lemma ancestry_known d l e : ancestry d l -> e ∈ l.*1 -> e ∈ dom (infoData T).
Proof.
  induction 1 as [|d i super fields Hd Hi Hs|d i super fields sd l Hd Hi Hs Ht Hne H IH]; cbn; intros He.
  - by apply elem_of_nil in He.
  - apply list_elem_of_singleton in He as ->. by apply elem_of_dom_2 in Hi.
  - apply elem_of_cons in He as [->|He]; [by apply elem_of_dom_2 in Hi|auto].
Qed.

Lemma ancestry_length d l : ancestry d l -> (length l <= size (infoData T))%nat.
Proof.
  intros H. rewrite <- size_dom, <- (length_fmap fst), <- (size_list_to_set (C := gset Z)) by by eapply ancestry_NoDup.
  apply subseteq_size. intros e He. apply elem_of_list_to_set in He. by eapply ancestry_known.
Qed.

(** Two names are the same when their letters are. *)
Lemma strcicmp_eq a b :
  Byte.x00 ∉ a -> Byte.x00 ∉ b -> strcicmp a b = 0 <-> lower_byte <$> a = lower_byte <$> b.
Proof.
  revert b. induction a as [|x a IH]; intros [|y b] Ha Hb; cbn [strcicmp char_at].
  - done.
  - rewrite bool_decide_true, orb_true_r by done. apply not_elem_of_cons in Hb as [Hy _].
    split; [|done]. intros H. exfalso. apply Hy. symmetry. apply lower_byte_nul. apply byte.unsigned_inj.
    change (byte.unsigned (lower_byte Byte.x00)) with 0 in H. change (byte.unsigned Byte.x00) with 0.
    lia.
  - apply not_elem_of_cons in Ha as [Hx _]. split; [|done]. intros H.
    assert (H0 : byte.unsigned (lower_byte x) = 0).
    { change (byte.unsigned (lower_byte Byte.x00)) with 0 in H. destruct (_ || _); lia. }
    exfalso. apply Hx. symmetry. apply lower_byte_nul. by apply byte.unsigned_inj.
  - apply not_elem_of_cons in Ha as [Hx Ha]. apply not_elem_of_cons in Hb as [Hy Hb].
    rewrite (bool_decide_false (x = Byte.x00)), orb_false_r by congruence.
    rewrite !fmap_cons. destruct (Z.eqb_spec (byte.unsigned (lower_byte x) - byte.unsigned (lower_byte y)) 0) as [H|H]; cbn [negb].
    + rewrite IH by done. assert (lower_byte x = lower_byte y) as -> by (apply byte.unsigned_inj; lia).
      split; congruence.
    + split; [lia|]. intros [= He _]. rewrite He in H. lia.
Qed.

Definition named (key : list byte) (f : FieldInfoData) : Prop := lower_byte <$> field_name f = lower_byte <$> key.

#[local] Instance named_dec key f : Decision (named key f).
Proof. unfold named. apply _. Defined.

(** C strings have no NUL within. *)
Definition names_ok (fields : list FieldInfoData) : Prop := Forall (fun f => Byte.x00 ∉ field_name f) fields.

(** The first field of a list under a name, in upper or lower case. *)
Definition first_named (key : list byte) (fields : list FieldInfoData) : option FieldInfoData := head (base.filter (named key) fields).

Lemma find_in_first key fields : Byte.x00 ∉ key -> names_ok fields -> find_in fields key = first_named key fields.
Proof.
  intros Hk. unfold find_in, first_named. induction fields as [|f fields IH]; intros Hn; [done|].
  apply list.Forall_cons in Hn as [Hf Hn]. cbn [List.find]. specialize (IH Hn).
  destruct (Z.eqb_spec (strcicmp (field_name f) key) 0) as [H|H].
  - apply strcicmp_eq in H; [|done..]. by rewrite list.filter_cons_True.
  - rewrite list.filter_cons_False; [done|]. unfold named. by rewrite <- strcicmp_eq.
Qed.

Lemma first_named_app key fields fields' :
  first_named key (fields ++ fields') =
  match first_named key fields with Some f => Some f | None => first_named key fields' end.
Proof. unfold first_named. rewrite list.filter_app. by destruct (base.filter _ fields). Qed.

Lemma FindField_at_first fuel d l key :
  Byte.x00 ∉ key -> names_ok (concat l.*2) -> ancestry d l -> (length l <= fuel)%nat ->
  FindField_at fuel d key = Ok (first_named key (concat l.*2)).
Proof.
  intros Hk Hn H. revert fuel Hn.
  induction H as [|d i super fields Hd Hi Hs|d i super fields sd l Hd Hi Hs Ht Hne H IH]; intros fuel Hn Hf; cbn [fmap list_fmap concat snd] in *.
  - by destruct fuel.
  - destruct fuel as [|fuel]; [cbn in Hf; lia|]. cbn [FindField_at]. rewrite (proj2 (Z.eqb_neq d 0)), Hi by done.
    rewrite app_nil_r in Hn. rewrite find_in_first, app_nil_r by done. destruct (first_named key fields); [done|].
    destruct (Z.eqb_spec super 0) as [|Hz]; [done|]. destruct Hs as [Hs|Hs]; [done|]. rewrite Hs. cbn. by rewrite Z.eqb_refl.
  - destruct fuel as [|fuel]; [cbn in Hf; lia|]. cbn [FindField_at]. rewrite (proj2 (Z.eqb_neq d 0)), Hi by done.
    apply list.Forall_app in Hn as [Hn1 Hn2]. rewrite find_in_first, first_named_app by done.
    destruct (first_named key fields); [done|].
    rewrite (proj2 (Z.eqb_neq super 0)), Ht by done. cbn. rewrite (proj2 (Z.eqb_neq sd d)) by done.
    apply IH; [done|]. cbn in Hf. lia.
Qed.

(** FindField ends on every class hierarchy and gives the field a plugin
    means: the first under that name, whatever the case of its letters, in the
    class itself, then in its super class, and so on to the root; nothing when
    no class of the chain has one. *)
Theorem FindField_first d l key :
  Byte.x00 ∉ key -> names_ok (concat l.*2) -> ancestry d l -> FindField d key = Ok (first_named key (concat l.*2)).
Proof. intros Hk Hn H. unfold FindField. apply FindField_at_first; try done. by eapply ancestry_length. Qed.

Lemma FindField_case d l key key' :
  Byte.x00 ∉ key -> Byte.x00 ∉ key' -> lower_byte <$> key = lower_byte <$> key' -> names_ok (concat l.*2) -> ancestry d l ->
  FindField d key = FindField d key'.
Proof.
  intros Hk Hk' He Hn H. unfold FindField. pose proof (ancestry_length _ _ H). rewrite !(FindField_at_first _ d l) by done. f_equal. unfold first_named. f_equal.
  apply list_filter_iff. intros f. unfold named. by rewrite He.
Qed.

(** ** The objects *)

(** The game's creation of objects and values of a type, and the relation of its
    types. *)
Context `{LuaNumbers} `{Arena}
  (createInstance : Z -> Mem -> Z * Mem) (createFunc : Z -> Z -> Mem -> Mem)
  (getType : Mem -> Z -> result Z) (isKindOf : Z -> Z -> bool) (GetNativeType : list byte -> Z).

Definition alloc (n : Z) : LM Z := fun w => let '(a, m) := arena_alloc n (mem w) in Ok (Some a, mkWorld m (lua w)).

Definition info_of (type : Z) : LM TypeInfoData := lift (of_option Undefined (typeInfoData T !! type ≫= (infoData T !!.))).
Definition type_name (type : Z) : LM (list byte) := d ← info_of type; mret (name (info d)).
Definition getBasicType (type : Z) : LM TypeCodeEnum := d ← info_of type; mret (basic_type (info d)).

(** [DataContainer]: a vtable, the type, the count of references. *)
Definition m_dcType (c : Z) : LM Z := read_mem (load_int 8 (c + 8)).
Definition addRef (c : Z) : LM unit := write_mem (fun m => n ← load_int 4 (c + 16) m; store_int 4 (c + 16) (n + 1) m).
(** [DataContainer::release] returns before it does anything. *)
Definition release (c : Z) : LM unit := mret tt.

(** *** Values of Lua *)

Definition WrapTypeInfo (type : Z) : LM Z := ud ← lua_newuserdata 1; _ ← ud_set ud 0 type; mret ud.
Definition WrapDataContainer (container : Z) : LM Z := ud ← lua_newuserdata 1; _ ← ud_set ud 0 container; mret ud.

(** Three words: the type, the value and whether the value is the userdata's own,
    which the wrapping leaves as it is in the new memory. *)
Definition WrapValueType (type value : Z) : LM Z :=
  ud ← lua_newuserdata 3; _ ← ud_set ud 0 type; _ ← ud_set ud 1 value; mret ud.

(** That the type is an array's is only logged. *)
Definition WrapFBArray (arrayType arr : Z) : LM Z :=
  ud ← lua_newuserdata 3; _ ← ud_set ud 1 arr;
  d ← info_of arrayType;
  match d with ArrayTypeInfoData _ elementType => _ ← ud_set ud 0 elementType; mret ud | _ => crash Undefined end.

Definition with_metatable (tname : list byte) : LM unit := _ ← luaL_getmetatable tname; lua_setmetatable (-2).

Definition Push_DataContainer (value : Z) : LM unit :=
  if value =? 0 then lua_pushnil else _ ← WrapDataContainer value; with_metatable (bstr "DataContainer").
Definition Push_ValueType (type value : Z) : LM unit :=
  if value =? 0 then lua_pushnil else _ ← WrapValueType type value; n ← type_name type; with_metatable n.
Definition Push_FBArray (type value : Z) : LM unit :=
  if value =? 0 then lua_pushnil else _ ← WrapFBArray type value; with_metatable (bstr "FBArray").
Definition Push_TypeInfo (type : Z) : LM unit := _ ← WrapTypeInfo type; with_metatable (bstr "TypeInfo").

(** The block a userdata points to: its words, or memory for a light one. *)
Inductive udptr := Full (id : Z) | Light (p : Z).

Definition lua_touserdata (idx : Z) : LM udptr :=
  v ← index2value idx;
  match v with LUA_TUSERDATA id => mret (Full id) | LUA_TLIGHTUSERDATA p => mret (Light p) | _ => mret (Light 0) end.

Definition word (p : udptr) (i : nat) : LM Z :=
  match p with Full id => ud_word id i | Light a => read_mem (load_int 8 (a + 8 * Z.of_nat i)) end.

Definition is_null (p : udptr) : bool := match p with Light 0 => true | _ => false end.

(** [GetTypeInfo], [GetValueType] and [GetFBArray] check the argument alike. *)
Definition GetUserdata (idx : Z) : LM udptr :=
  b ← lua_isuserdata idx;
  if negb b then luaL_error else p ← lua_touserdata idx; if is_null p then luaL_error else mret p.

Definition GetTypeInfo (idx : Z) : LM Z := p ← GetUserdata idx; word p 0.
Definition GetValueType (idx : Z) : LM udptr := GetUserdata idx.
Definition GetFBArray (idx : Z) : LM udptr := GetUserdata idx.

(** nil stands for the null pointer. *)
Definition GetDataContainer (idx : Z) : LM Z :=
  b ← lua_isuserdata idx;
  if negb b then n ← lua_isnil idx; if (n : bool) then mret 0 else luaL_error
  else p ← lua_touserdata idx; if is_null p then luaL_error else word p 0.

(** *** Fields *)

Definition TypeInfoIndex (fuel : nat) (value : Z) (field : FieldInfoData) : LM nat :=
  let target := value + fieldOffset field in
  let type := fieldTypePtr field in
  code ← getBasicType type;
  match code with
  | kTypeCode_Void | kTypeCode_DbObject => mret 1%nat
  | kTypeCode_ValueType => _ ← WrapValueType type target; n ← type_name type; _ ← with_metatable n; mret 1%nat
  | kTypeCode_Class =>
    c ← read_mem (load_int 8 target); _ ← WrapDataContainer c; _ ← with_metatable (bstr "DataContainer"); mret 1%nat
  | kTypeCode_Array => _ ← WrapFBArray type target; _ ← with_metatable (bstr "FBArray"); mret 1%nat
  | kTypeCode_CString =>
    v ← read_mem (load_int 8 target);
    if v =? 0 then mret 0%nat else s ← read_mem (load_string fuel v); _ ← lua_pushstring s; mret 1%nat
  | kTypeCode_Boolean => v ← read_mem (load_int 1 target); _ ← lua_pushboolean (negb (v =? 0)); mret 1%nat
  | kTypeCode_Int32 => v ← read_mem (load_int 4 target); _ ← lua_pushinteger (i32 v); mret 1%nat
  | kTypeCode_Enum | kTypeCode_Uint32 => v ← read_mem (load_int 4 target); _ ← lua_pushinteger v; mret 1%nat
  | kTypeCode_Int64 | kTypeCode_Uint64 => v ← read_mem (load_int 8 target); _ ← lua_pushinteger v; mret 1%nat
  | kTypeCode_Float32 => v ← read_mem (load_int 4 target); _ ← lua_pushnumber (float_to_double v); mret 1%nat
  | kTypeCode_Float64 => v ← read_mem (load_int 8 target); _ ← lua_pushnumber v; mret 1%nat
  | _ => mret 0%nat
  end.

(** [CopyWithArena] of a string argument: new memory with the string and a NUL. *)
Definition copy_string (s : list byte) : LM Z :=
  a ← alloc (len s + 1); _ ← write_mem (store a (CopyWithArena s ++ [Byte.x00])); mret a.

(** The value assigned is the third argument. *)
Definition TypeInfoNewIndex (value : Z) (field : FieldInfoData) : LM nat :=
  let target := value + fieldOffset field in
  let type := fieldTypePtr field in
  code ← getBasicType type;
  match code with
  | kTypeCode_ValueType =>
    d ← info_of type;
    if IsBlittable (info d) then
      bind ← GetValueType 3; t ← word bind 0;
      if negb (t =? type) then mret 0%nat else
      v ← word bind 1; _ ← write_mem (memcpy target v (Z.to_nat (totalSize (info d)))); mret 0%nat
    else mret 0%nat
  | kTypeCode_Class =>
    current ← read_mem (load_int 8 target);
    _ ← (if current =? 0 then mret tt else release current);
    container ← GetDataContainer 3;
    _ ← (if container =? 0 then mret tt else addRef container);
    _ ← write_mem (store_int 8 target container); mret 0%nat
  | kTypeCode_Boolean => b ← lua_toboolean 3; _ ← write_mem (store_int 1 target (Z.b2z b)); mret 0%nat
  | kTypeCode_CString =>
    s ← luaL_checkstring 3; a ← copy_string s; _ ← write_mem (store_int 8 target a); mret 0%nat
  | kTypeCode_Enum | kTypeCode_Int32 | kTypeCode_Uint32 =>
    i ← luaL_checkinteger 3; _ ← write_mem (store_int 4 target (u32 i)); mret 0%nat
  | kTypeCode_Int64 | kTypeCode_Uint64 =>
    i ← luaL_checkinteger 3; _ ← write_mem (store_int 8 target (u64 i)); mret 0%nat
  | kTypeCode_Float32 =>
    f ← luaL_checknumber 3; _ ← write_mem (store_int 4 target (double_to_float f)); mret 0%nat
  | _ => mret 0%nat
  end.

(** *** Objects *)

Definition DataContainerIsFunc : LM nat :=
  container ← GetDataContainer 1;
  if container =? 0 then luaL_error else
  b ← lua_isstring 2;
  if negb b then luaL_error else
  key ← luaL_checkstring 2; type ← read_mem (fun m => getType m container); n ← type_name type;
  _ ← lua_pushboolean (bool_decide (key = n)); mret 1%nat.

Definition RawTypeInfoIsKindOf : LM nat :=
  type ← GetTypeInfo 1; other ← luaL_checkstring 2;
  _ ← lua_pushboolean (isKindOf type (GetNativeType other)); mret 1%nat.

Definition RawTypeInfoIndex : LM nat :=
  type ← GetTypeInfo 1; key ← luaL_checkstring 2;
  if decide (key = bstr "name") then n ← type_name type; _ ← lua_pushstring n; mret 1%nat
  else if decide (key = bstr "isKindOf") then _ ← lua_pushcfunction (bstr "RawTypeInfoIsKindOf"); mret 1%nat
  else mret 0%nat.

(** The field of an object's class, by name. *)
Definition container_field (container : Z) (key : list byte) : LM (option FieldInfoData) :=
  type ← m_dcType container; lift (d ← of_option Undefined (typeInfoData T !! type); FindField d key).

Definition DataContainerIndex (fuel : nat) : LM nat :=
  container ← GetDataContainer 1; key ← luaL_checkstring 2;
  if decide (key = bstr "Is") then _ ← lua_pushcfunction (bstr "DataContainerIsFunc"); mret 1%nat
  else if decide (key = bstr "typeInfo") then type ← m_dcType container; _ ← Push_TypeInfo type; mret 1%nat
  else
  field ← container_field container key;
  match field with
  | None => _ ← lua_pushnil; mret 1%nat
  | Some f => n ← TypeInfoIndex fuel container f; if (n =? 0)%nat then _ ← lua_pushnil; mret 1%nat else mret 1%nat
  end.

Definition DataContainerNewIndex : LM nat :=
  container ← GetDataContainer 1; key ← luaL_checkstring 2;
  field ← container_field container key;
  match field with None => mret 0%nat | Some f => TypeInfoNewIndex container f end.

Definition DataContainerGc : LM nat :=
  data ← GetDataContainer 1; _ ← (if data =? 0 then mret tt else release data); mret 0%nat.

Definition DataContainerCreateFunc (upvalue : Z) : LM nat :=
  c ← (fun w => let '(a, m) := createInstance upvalue (mem w) in Ok (Some a, mkWorld m (lua w)) : result (option Z * World));
  _ ← WrapDataContainer c; _ ← with_metatable (bstr "DataContainer"); mret 1%nat.

(** *** Values *)

Definition value_field (type : Z) (key : list byte) : LM (option FieldInfoData) :=
  d ← info_of type;
  match d with ValueTypeInfoData _ fields => mret (find_in fields key) | _ => crash Undefined end.

Definition ValueTypeIndex (fuel : nat) : LM nat :=
  data ← GetValueType 1; key ← luaL_checkstring 2;
  type ← word data 0; field ← value_field type key;
  match field with
  | None => _ ← lua_pushnil; mret 1%nat
  | Some f =>
    v ← word data 1; n ← TypeInfoIndex fuel v f; if (n =? 0)%nat then _ ← lua_pushnil; mret 1%nat else mret 1%nat
  end.

Definition ValueTypeNewIndex : LM nat :=
  data ← GetValueType 1; key ← luaL_checkstring 2;
  type ← word data 0; field ← value_field type key;
  match field with None => mret 0%nat | Some f => v ← word data 1; TypeInfoNewIndex v f end.

Definition ValueTypeGc : LM nat :=
  data ← GetValueType 1; owned ← word data 2;
  _ ← (if owned =? 0 then mret tt else v ← word data 1; write_mem (fun m => Ok (arena_free v m))); mret 0%nat.

Definition ValueTypeCreate (type : Z) : LM Z :=
  d ← info_of type; value ← alloc (totalSize (info d));
  _ ← write_mem (fun m => Ok (createFunc type value m));
  ud ← WrapValueType type value; _ ← ud_set ud 2 1;
  _ ← with_metatable (name (info d)); mret value.

Definition ValueTypeCreateFunc (upvalue : Z) : LM nat := _ ← ValueTypeCreate upvalue; mret 1%nat.

Definition LuaUnimplemented : LM nat := luaL_error.

(** *** Arrays *)

(** An array is the address of its first element; the size is in the four bytes
    before it. Elements are taken for pointers. *)
Definition m_data (arr : Z) : LM Z := read_mem (load_int 8 arr).
Definition FBArray_size (arr : Z) : LM Z := data ← m_data arr; if data =? 0 then mret 0 else read_mem (load_int 4 (data - 4)).
Definition FBArray_at (arr index : Z) : LM Z := data ← m_data arr; read_mem (load_int 8 (data + 8 * index)).

(** [FBArray<void*>::extend] *)
Definition extend (arr amount : Z) : LM unit :=
  prevSize ← FBArray_size arr;
  base ← alloc (8 + 8 * u32 (prevSize + amount));
  let dest := base + 8 in
  data ← m_data arr;
  _ ← write_mem (memcpy dest data (Z.to_nat (8 * prevSize)));
  _ ← write_mem (store (dest + 8 * prevSize) (replicate (Z.to_nat (8 * amount)) Byte.x00));
  _ ← write_mem (store_int 8 arr dest);
  write_mem (store_int 4 (dest - 4) (u32 (prevSize + amount))).

(** The values of an array's userdata. *)
Definition array_type (data : udptr) : LM Z := word data 0.
Definition array_value (data : udptr) : LM Z := word data 1.

(** An index of Lua, from 1, as one of the array: the subtraction is in 64 bits,
    the result is cut to 32. *)
Definition index_argument : LM Z :=
  i ← luaL_checkinteger 2; if i - 1 <? - 2 ^ 63 then crash Undefined else mret (i32 (i - 1)).

Definition FBArrayInsertFunc : LM nat := _ ← GetFBArray 1; _ ← luaL_checkinteger 3; mret 0%nat.

Definition FBArrayExtendFunc : LM nat :=
  data ← GetFBArray 1; extendAmount ← luaL_checkinteger 2;
  arr ← array_value data; _ ← extend arr (u32 (i32 extendAmount)); mret 1%nat.

(** The address of an element of the type's size. *)
Definition element_address (arr size index : Z) : LM Z :=
  base ← m_data arr; if 2 ^ 31 <=? size * index then crash Undefined else mret (base + size * index).

(** The case of arrays, which the case of values runs into. *)
Definition push_array_element (elementType arr index : Z) : LM unit :=
  target ← FBArray_at arr index;
  if target =? 0 then lua_pushnil else _ ← WrapFBArray elementType target; with_metatable (bstr "FBArray").

Definition PushFBArrayValue (data : udptr) (index : Z) : LM unit :=
  arr ← array_value data; elementType ← array_type data;
  d ← info_of elementType;
  match basic_type (info d) with
  | kTypeCode_Class =>
    target ← FBArray_at arr index;
    if target =? 0 then lua_pushnil else _ ← WrapDataContainer target; with_metatable (bstr "DataContainer")
  | kTypeCode_ValueType =>
    value ← element_address arr (totalSize (info d)) index;
    _ ← WrapValueType elementType value;
    _ ← luaL_setmetatable (name (info d));
    _ ← lua_setmetatable (-2);
    push_array_element elementType arr index
  | kTypeCode_Array => push_array_element elementType arr index
  | _ => lua_pushnil
  end.

Definition FBArrayIndex : LM nat :=
  data ← GetFBArray 1;
  k ← index2value 2;
  match k with
  | LUA_TSTRING _ =>
    str ← luaL_checkstring 2;
    if decide (str = bstr "insert") then _ ← lua_pushcfunction (bstr "FBArrayInsertFunc"); mret 1%nat
    else if decide (str = bstr "extend") then _ ← lua_pushcfunction (bstr "FBArrayExtendFunc"); mret 1%nat
    else luaL_error
  | _ =>
    index ← index_argument;
    arr ← array_value data; size ← FBArray_size arr;
    if (index <? 0) || (size <=? index) then mret 0%nat else _ ← PushFBArrayValue data index; mret 1%nat
  end.

Definition FBArrayNewIndex : LM nat :=
  data ← GetFBArray 1;
  index ← index_argument;
  arr ← array_value data; size ← FBArray_size arr;
  if (index <? 0) || (size <=? index) then luaL_error else
  elementType ← array_type data; d ← info_of elementType;
  match basic_type (info d) with
  | kTypeCode_ValueType =>
    if IsBlittable (info d) then
      dest ← element_address arr (totalSize (info d)) index;
      bind ← GetValueType 3; t ← word bind 0;
      if negb (t =? elementType) then mret 0%nat else
      v ← word bind 1; _ ← write_mem (memcpy dest v (Z.to_nat (totalSize (info d)))); mret 1%nat
    else mret 1%nat
  | kTypeCode_Class =>
    data ← m_data arr;
    let target := data + 8 * index in
    current ← read_mem (load_int 8 target);
    _ ← (if current =? 0 then mret tt else release current);
    container ← GetDataContainer 3;
    _ ← (if container =? 0 then mret tt else addRef container);
    _ ← write_mem (store_int 8 target container); mret 1%nat
  | _ => mret 1%nat
  end.

Definition FBArrayLen : LM nat :=
  data ← GetFBArray 1; arr ← array_value data; n ← FBArray_size arr; _ ← lua_pushinteger n; mret 1%nat.

(** The index is compared as an unsigned one. *)
Definition FBArrayIterator : LM nat :=
  data ← GetFBArray 1; i ← luaL_checkinteger 2;
  let index := i32 i in
  arr ← array_value data; size ← FBArray_size arr;
  if size <=? u32 index then mret 0%nat else
  if index =? 2 ^ 31 - 1 then crash Undefined else
  _ ← lua_pushinteger (index + 1); _ ← PushFBArrayValue data index; mret 2%nat.

Definition FBArrayPairs : LM nat :=
  _ ← lua_pushcfunction (bstr "FBArrayIterator"); _ ← lua_pushvalue 1; _ ← lua_pushinteger 0; mret 3%nat.

(** *** The registration *)

Definition s_typeInfoMeta := [(bstr "__index", bstr "RawTypeInfoIndex")].
Definition s_dataContainerMeta :=
  [(bstr "__index", bstr "DataContainerIndex"); (bstr "__newindex", bstr "DataContainerNewIndex"); (bstr "__gc", bstr "DataContainerGc")].
Definition s_valueTypeMeta :=
  [(bstr "__index", bstr "ValueTypeIndex"); (bstr "__newindex", bstr "ValueTypeNewIndex")]
  ++ map (fun op => (op, bstr "LuaUnimplemented"))
    [bstr "__add"; bstr "__sub"; bstr "__mul"; bstr "__div"; bstr "__unm"; bstr "__eq"; bstr "__tostring"]
  ++ [(bstr "__gc", bstr "ValueTypeGc")].
Definition s_fbArrayMeta :=
  [(bstr "__index", bstr "FBArrayIndex"); (bstr "__newindex", bstr "FBArrayNewIndex"); (bstr "__pairs", bstr "FBArrayPairs");
   (bstr "__ipairs", bstr "FBArrayPairs"); (bstr "__len", bstr "FBArrayLen"); (bstr "__tostring", bstr "FBArrayToString")].

(** An enumeration becomes a table; the type of a field is its number. *)
Fixpoint set_enum_fields (fields : list FieldInfoData) : LM unit :=
  match fields with
  | [] => mret tt
  | f :: fields' => _ ← lua_pushinteger (fieldTypePtr f); _ ← lua_setfield (-2) (field_name f); set_enum_fields fields'
  end.

Definition typeInfo_DataContainer : Z := 0x1443F5020.

(** One type of the game, unless its name is taken. *)
Definition register_type (type : Z) : LM unit :=
  d ← info_of type;
  let n := name (info d) in
  _ ← lua_getglobal n;
  free ← lua_isnil (-1);
  _ ← lua_pop 1;
  if negb free then mret tt else
  _ ← lua_pushlightuserdata type;
  match basic_type (info d) with
  | kTypeCode_Class =>
    if isKindOf type typeInfo_DataContainer
    then _ ← lua_pushcclosure1 (bstr "DataContainerCreateFunc"); lua_setglobal n
    else lua_pop 1
  | kTypeCode_ValueType =>
    _ ← lua_pushcclosure1 (bstr "ValueTypeCreateFunc");
    _ ← luaL_newmetatable n; _ ← luaL_setfuncs s_valueTypeMeta;
    _ ← luaL_getmetatable (bstr "ValueType"); _ ← lua_setmetatable (-2); _ ← lua_pop 1;
    lua_setglobal n
  | kTypeCode_Enum =>
    match d with
    | EnumTypeInfoData _ fields => _ ← lua_newtable; _ ← set_enum_fields fields; lua_setglobal n
    | _ => crash Undefined
    end
  | _ => lua_pop 1
  end.

Fixpoint RegisterTypeConstructors (all : list Z) : LM unit :=
  match all with [] => mret tt | type :: all' => _ ← register_type type; RegisterTypeConstructors all' end.

(** The four metatables stay on the stack. *)
Definition Register (all : list Z) : LM unit :=
  _ ← luaL_newmetatable (bstr "TypeInfo"); _ ← luaL_setfuncs s_typeInfoMeta;
  _ ← luaL_newmetatable (bstr "DataContainer"); _ ← luaL_setfuncs s_dataContainerMeta;
  _ ← luaL_newmetatable (bstr "ValueType"); _ ← luaL_setfuncs s_valueTypeMeta;
  _ ← luaL_newmetatable (bstr "FBArray"); _ ← luaL_setfuncs s_fbArrayMeta;
  RegisterTypeConstructors all.

(** ** Fields written and read *)

Lemma container_arg w ud c s :
  udata (lua w) !! ud = Some [Some c] -> frame (lua w) = LUA_TUSERDATA ud :: s -> GetDataContainer 1 w = Ok (Some c, w).
Proof.
  intros Hu Hf. unfold GetDataContainer, lua_isuserdata, lua_touserdata.
  assert (Hi : index2value 1 w = Ok (Some (LUA_TUSERDATA ud), w)) by (apply index2value_ok; [done|by rewrite Hf]).
  erewrite LM_bind_ok; [|by erewrite LM_bind_ok by exact Hi]. cbn [negb].
  erewrite LM_bind_ok; [|by erewrite LM_bind_ok by exact Hi]. cbn [is_null word].
  unfold ud_word. rewrite (LM_bind_ok _ _ _ (udata (lua w)) w) by done. unfold lift. by rewrite Hu.
Qed.

Lemma string_arg w i k :
  0 < i -> frame (lua w) !! Z.to_nat (i - 1) = Some (LUA_TSTRING k) -> luaL_checkstring i w = Ok (Some (c_str k), w).
Proof.
  intros Hi Hf. unfold luaL_checkstring. by rewrite (LM_bind_ok _ _ _ _ _ (index2value_ok _ _ _ Hi Hf)).
Qed.

(** The object of a userdata has a field under a name. *)
Definition field_of (w : World) (ud c : Z) (key : list byte) (f : FieldInfoData) : Prop :=
  udata (lua w) !! ud = Some [Some c] /\
  exists type d l, load_int 8 (c + 8) (mem w) = Ok type /\ typeInfoData T !! type = Some d /\ ancestry d l /\
    names_ok (concat l.*2) /\ first_named (c_str key) (concat l.*2) = Some f.

Definition type_is (type : Z) (code : TypeCodeEnum) : Prop :=
  exists d, typeInfoData T !! type ≫= (infoData T !!.) = Some d /\ basic_type (info d) = code.

Lemma getBasicType_ok type code w : type_is type code -> getBasicType type w = Ok (Some code, w).
Proof. intros (d & Hd & <-). unfold getBasicType, info_of. by rewrite (LM_bind_ok _ _ _ d w) by (unfold lift; by rewrite Hd). Qed.

Lemma container_field_ok w ud c key f : field_of w ud c key f -> container_field c (c_str key) w = Ok (Some (Some f), w).
Proof.
  intros (_ & type & d & l & Ht & Hd & Ha & Hn & Hf). unfold container_field.
  rewrite (LM_bind_ok _ _ _ type w) by (unfold m_dcType, read_mem; by rewrite Ht).
  unfold lift. rewrite Hd. cbn. unfold FindField. rewrite (FindField_at_first _ d l), Hf; try done.
  - apply c_str_no_nul.
  - by eapply ancestry_length.
Qed.

(** What a field of a scalar type makes of a value: its width, and the value read back. *)
Definition scalar (code : TypeCodeEnum) (v : TValue) : option (nat * TValue) :=
  match code with
  | kTypeCode_Boolean => Some (1%nat, LUA_TBOOLEAN (negb (bool_decide (v = LUA_TNIL \/ v = LUA_TBOOLEAN false))))
  | kTypeCode_Int32 => i ← tointeger v; Some (4%nat, LUA_TINTEGER (i32 i))
  | kTypeCode_Enum | kTypeCode_Uint32 => i ← tointeger v; Some (4%nat, LUA_TINTEGER (u32 i))
  | kTypeCode_Int64 | kTypeCode_Uint64 => i ← tointeger v; Some (8%nat, LUA_TINTEGER (i64 i))
  | kTypeCode_Float32 => x ← tonumber v; Some (4%nat, LUA_TNUMBER (float_to_double (double_to_float x)))
  | _ => None
  end.

(** The integer stored for a value. *)
Definition scalar_bits (code : TypeCodeEnum) (v : TValue) : Z :=
  match code with
  | kTypeCode_Boolean => Z.b2z (negb (bool_decide (v = LUA_TNIL \/ v = LUA_TBOOLEAN false)))
  | kTypeCode_Float32 => double_to_float (default 0 (tonumber v))
  | kTypeCode_Int64 | kTypeCode_Uint64 => u64 (default 0 (tointeger v))
  | _ => u32 (default 0 (tointeger v))
  end.

Lemma checkinteger_ok i w v z :
  index2value i w = Ok (Some v, w) -> tointeger v = Some z -> luaL_checkinteger i w = Ok (Some z, w).
Proof. intros Hi Hz. unfold luaL_checkinteger. by rewrite (LM_bind_ok _ _ _ _ _ Hi), Hz. Qed.

Lemma checknumber_ok i w v z :
  index2value i w = Ok (Some v, w) -> tonumber v = Some z -> luaL_checknumber i w = Ok (Some z, w).
Proof. intros Hi Hz. unfold luaL_checknumber. by rewrite (LM_bind_ok _ _ _ _ _ Hi), Hz. Qed.

Lemma toboolean_ok i w v :
  index2value i w = Ok (Some v, w) ->
  lua_toboolean i w = Ok (Some (negb (bool_decide (v = LUA_TNIL \/ v = LUA_TBOOLEAN false))), w).
Proof.
  intros Hi. unfold lua_toboolean. rewrite (LM_bind_ok _ _ _ _ _ Hi). unfold mret, LM_ret. do 3 f_equal.
  destruct v as [|[]| | | | | | |]; try done; rewrite bool_decide_false; naive_solver.
Qed.

Lemma write_mem_ok f w m : f (mem w) = Ok m -> write_mem f w = Ok (Some tt, mkWorld m (lua w)).
Proof. intros H'. unfold write_mem. by rewrite H'. Qed.

Lemma read_mem_ok {A} (f : Mem -> result A) w a : f (mem w) = Ok a -> read_mem f w = Ok (Some a, w).
Proof. intros H'. unfold read_mem. by rewrite H'. Qed.

Lemma write_scalar value f code v n v' w m :
  type_is (fieldTypePtr f) code -> scalar code v = Some (n, v') ->
  frame (lua w) !! 2%nat = Some v ->
  store_int n (value + fieldOffset f) (scalar_bits code v) (mem w) = Ok m ->
  TypeInfoNewIndex value f w = Ok (Some 0%nat, mkWorld m (lua w)).
Proof.
  intros Ht Hs Hv Hm. unfold TypeInfoNewIndex. rewrite (LM_bind_ok _ _ _ _ _ (getBasicType_ok _ _ w Ht)).
  assert (Hi : index2value 3 w = Ok (Some v, w)) by by apply index2value_ok.
  destruct code; cbn [scalar] in Hs; try done; cbn [scalar_bits] in Hm;
    try (destruct (tointeger v) as [i|] eqn:Ei; [|done]); try (destruct (tonumber v) as [x|] eqn:Ex; [|done]);
    cbn in Hs; simplify_eq;
    erewrite LM_bind_ok by (by eapply checkinteger_ok || by eapply checknumber_ok || by eapply toboolean_ok);
    by erewrite LM_bind_ok by (apply write_mem_ok; exact Hm).
Qed.

(** The bytes of a scalar as a value. *)
Lemma read_scalar fuel value f code v n v' w :
  type_is (fieldTypePtr f) code -> scalar code v = Some (n, v') ->
  load_int n (value + fieldOffset f) (mem w) = Ok (uwrap (8 * Z.of_nat n) (scalar_bits code v)) ->
  TypeInfoIndex fuel value f w = Ok (Some 1%nat, in_frame (frame (lua w) ++ [v']) w).
Proof.
  intros Ht Hs Hm. unfold TypeInfoIndex. rewrite (LM_bind_ok _ _ _ _ _ (getBasicType_ok _ _ w Ht)).
  destruct code; cbn [scalar] in Hs; try done; cbn [scalar_bits] in Hm;
    try (destruct (tointeger v) as [i|] eqn:Ei; [|done]); try (destruct (tonumber v) as [x|] eqn:Ex; [|done]);
    cbn in Hs; simplify_eq; cbn [default] in Hm;
    erewrite LM_bind_ok by (apply read_mem_ok; exact Hm);
    unfold lua_pushinteger, lua_pushboolean, lua_pushnumber, push, in_frame;
    (erewrite LM_bind_ok; [|done]); unfold mret, LM_ret; do 7 f_equal; cbn [default].
  - rewrite uwrap_idem. apply i64_u32.
  - by destruct (bool_decide _).
  - rewrite uwrap_idem, swrap_of_uwrap. apply i64_i32.
  - rewrite uwrap_idem. apply i64_u32.
  - by rewrite uwrap_idem, swrap_of_uwrap.
  - by rewrite uwrap_idem, swrap_of_uwrap.
  - by rewrite uwrap_small by apply double_to_float_range.
Qed.

(** A field of a scalar type that does not lie over the pointer to its class. *)
Lemma field_after_write w m ud c key f a n :
  field_of w ud c key f -> same_but a n (mem w) m -> a + n <= c + 8 \/ c + 16 <= a -> field_of (mkWorld m (lua w)) ud c key f.
Proof.
  intros (Hu & type & d & l & Ht & Hr) Hm Hd. split; [done|]. exists type, d, l. split; [|done].
  cbn [mem]. unfold load_int in *. rewrite (same_but_load _ _ _ _ 8 (c + 8) Hm) by lia. done.
Qed.

Lemma field_in_frame w s ud c key f : field_of w ud c key f -> field_of (in_frame s w) ud c key f.
Proof. by intros H'. Qed.

Definition special (key : list byte) : Prop := c_str key = bstr "Is" \/ c_str key = bstr "typeInfo".

(** The bindings look the field up and leave the rest to the type. *)
Lemma container_assign w ud c key f v :
  field_of w ud c key f ->
  let w1 := in_frame [LUA_TUSERDATA ud; LUA_TSTRING key; v] w in DataContainerNewIndex w1 = TypeInfoNewIndex c f w1.
Proof.
  clear createInstance createFunc getType isKindOf GetNativeType. intros Hf w1. unfold DataContainerNewIndex. erewrite LM_bind_ok by (eapply container_arg; [apply Hf|done]).
  erewrite LM_bind_ok by (by apply string_arg). by erewrite LM_bind_ok by (eapply container_field_ok, field_in_frame, Hf).
Qed.

Lemma container_read w ud c key f fuel :
  field_of w ud c key f -> ~ special key ->
  let w1 := in_frame [LUA_TUSERDATA ud; LUA_TSTRING key] w in
  DataContainerIndex fuel w1 =
    (n ← TypeInfoIndex fuel c f; if (n =? 0)%nat then _ ← lua_pushnil; mret 1%nat else mret 1%nat) w1.
Proof.
  clear createInstance createFunc getType isKindOf GetNativeType. intros Hf Hsp w1. unfold DataContainerIndex. erewrite LM_bind_ok by (eapply container_arg; [apply Hf|done]).
  erewrite LM_bind_ok by (by apply string_arg). unfold special in Hsp. rewrite !decide_False by tauto.
  by erewrite LM_bind_ok by (eapply container_field_ok, field_in_frame, Hf).
Qed.

Lemma field_other_case w ud c key key' f :
  field_of w ud c key f -> lower_byte <$> c_str key' = lower_byte <$> c_str key -> field_of w ud c key' f.
Proof.
  intros (Hu & type & d & l & H1 & H2 & H3 & H4 & H5) Hk. split; [done|]. exists type, d, l. do 4 (split; [done|]).
  rewrite <- H5. unfold first_named. f_equal. apply list_filter_iff. intros g. unfold named. by rewrite Hk.
Qed.

(** The types of one value, and those of them that the assignment has no case for. *)
Definition scalar_types : list TypeCodeEnum :=
  [kTypeCode_Boolean; kTypeCode_Int8; kTypeCode_Uint8; kTypeCode_Int16; kTypeCode_Uint16; kTypeCode_Int32;
   kTypeCode_Uint32; kTypeCode_Int64; kTypeCode_Uint64; kTypeCode_Float32; kTypeCode_Float64; kTypeCode_Enum].
Definition read_only_types : list TypeCodeEnum :=
  [kTypeCode_Int8; kTypeCode_Uint8; kTypeCode_Int16; kTypeCode_Uint16; kTypeCode_Float64].

Lemma assign_read_only value f code w :
  type_is (fieldTypePtr f) code -> code ∈ read_only_types -> TypeInfoNewIndex value f w = Ok (Some 0%nat, w).
Proof.
  clear createInstance createFunc getType isKindOf GetNativeType. intros Ht Hc. unfold TypeInfoNewIndex. rewrite (LM_bind_ok _ _ _ _ _ (getBasicType_ok _ _ w Ht)).
  unfold read_only_types in Hc. rewrite !elem_of_cons, elem_of_nil in Hc. naive_solver.
Qed.

Lemma assign_rejected value f code v w :
  type_is (fieldTypePtr f) code -> code ∈ scalar_types -> code ∉ read_only_types -> scalar code v = None ->
  frame (lua w) !! 2%nat = Some v -> TypeInfoNewIndex value f w = Ok (None, w).
Proof.
  clear createInstance createFunc getType isKindOf GetNativeType. intros Ht Hc Hr Hs Hv. unfold TypeInfoNewIndex. rewrite (LM_bind_ok _ _ _ _ _ (getBasicType_ok _ _ w Ht)).
  assert (Hi : index2value 3 w = Ok (Some v, w)) by by apply index2value_ok.
  assert (Hi' : tointeger v = None -> luaL_checkinteger 3 w = Ok (None, w)).
  { intros E. unfold luaL_checkinteger. by rewrite (LM_bind_ok _ _ _ _ _ Hi), E. }
  assert (Hn' : tonumber v = None -> luaL_checknumber 3 w = Ok (None, w)).
  { intros E. unfold luaL_checknumber. by rewrite (LM_bind_ok _ _ _ _ _ Hi), E. }
  apply (bool_decide_eq_true_2 _) in Hc. apply (bool_decide_eq_false_2 _) in Hr.
  destruct code; try discriminate Hc; try discriminate Hr; try discriminate Hs; cbn [scalar] in Hs; unfold mbind, LM_bind;
    (rewrite Hi'; [done|destruct (tointeger v); [discriminate Hs|done]]) ||
    (rewrite Hn'; [done|destruct (tonumber v); [discriminate Hs|done]]).
Qed.

Lemma read_narrow fuel value f code w :
  type_is (fieldTypePtr f) code -> code ∈ read_only_types -> code <> kTypeCode_Float64 ->
  TypeInfoIndex fuel value f w = Ok (Some 0%nat, w).
Proof.
  clear createInstance createFunc getType isKindOf GetNativeType. intros Ht Hc Hn. unfold TypeInfoIndex. rewrite (LM_bind_ok _ _ _ _ _ (getBasicType_ok _ _ w Ht)).
  unfold read_only_types in Hc. rewrite !elem_of_cons, elem_of_nil in Hc. naive_solver.
Qed.

Lemma world_eta w : mkWorld (mem w) (lua w) = w.
Proof. by destruct w. Qed.

(** C13: What a plugin that assigns to a field of an object of any scalar type
    and reads it back (under the same name in upper or lower case) gets.  For a
    boolean, an integer of 32 or 64 bits, an enumeration or a single precision
    number it is the value cut to the type (32 bits with or without a sign, 64
    bits, single precision, or whether the value is true), and only the bytes
    of the field change; a value without such a number is an error that
    changes no memory.  A field of 8 or 16 bits or of double precision is not
    written at all and reads as before: as nil, or as the number it holds. *)
Theorem field_write_read w ud c key key' f code v fuel :
  field_of w ud c key f -> lower_byte <$> c_str key' = lower_byte <$> c_str key -> ~ special key' ->
  type_is (fieldTypePtr f) code -> code ∈ scalar_types ->
  let target := c + fieldOffset f in
  let assign := call DataContainerNewIndex [LUA_TUSERDATA ud; LUA_TSTRING key; v] in
  let read := call (DataContainerIndex fuel) [LUA_TUSERDATA ud; LUA_TSTRING key'] in
  if decide (code ∈ read_only_types) then
    assign w = Ok (Some [], w) /\
    (code <> kTypeCode_Float64 -> read w = Ok (Some [LUA_TNIL], w)) /\
    (forall x, code = kTypeCode_Float64 -> load_int 8 target (mem w) = Ok x -> read w = Ok (Some [LUA_TNUMBER x], w))
  else
    match scalar code v with
    | Some (n, v') =>
      mapped target (Z.of_nat n) (mem w) -> target + Z.of_nat n <= c + 8 \/ c + 16 <= target ->
      exists m, assign w = Ok (Some [], mkWorld m (lua w)) /\
        same_but target (Z.of_nat n) (mem w) m /\
        read (mkWorld m (lua w)) = Ok (Some [v'], mkWorld m (lua w))
    | None => exists w', assign w = Ok (None, w') /\ mem w' = mem w
    end.
Proof.
  clear createInstance createFunc getType isKindOf GetNativeType. intros Hf Hk Hsp Ht Hc target assign read.
  pose proof (container_assign _ _ _ _ _ v Hf) as Ha. cbv zeta in Ha.
  pose proof (field_other_case _ _ _ _ _ _ Hf Hk) as Hf'.
  destruct (decide (code ∈ read_only_types)) as [Hr|Hr]; [split; [|split]|destruct (scalar code v) as [[n v']|] eqn:Hs].
  - rewrite <- (world_eta w) at 2. unfold assign.
    apply (lua_call_ok _ _ _ 0 [LUA_TUSERDATA ud; LUA_TSTRING key; v] (mem w)); [|cbn; lia|done].
    rewrite Ha. by eapply assign_read_only.
  - intros Hn. rewrite <- (world_eta w) at 2. unfold read.
    apply (lua_call_ok _ _ _ 1 [LUA_TUSERDATA ud; LUA_TSTRING key'; LUA_TNIL] (mem w)); [|cbn; lia|done].
    rewrite (container_read _ _ _ _ _ _ Hf' Hsp). by erewrite LM_bind_ok by by eapply read_narrow.
  - intros x -> Hx. rewrite <- (world_eta w) at 2. unfold read.
    apply (lua_call_ok _ _ _ 1 [LUA_TUSERDATA ud; LUA_TSTRING key'; LUA_TNUMBER x] (mem w)); [|cbn; lia|done].
    rewrite (container_read _ _ _ _ _ _ Hf' Hsp). unfold TypeInfoIndex. erewrite LM_bind_ok.
    2: { rewrite (LM_bind_ok _ _ _ _ _ (getBasicType_ok _ _ _ Ht)).
         erewrite LM_bind_ok by (apply read_mem_ok; exact Hx). by erewrite LM_bind_ok. }
    done.
  - intros Hm Hd. destruct (store_load_int n target (scalar_bits code v) (mem w) Hm) as (m & Hst & Hl & Hb). exists m.
    pose proof (field_after_write _ _ _ _ _ _ _ _ Hf' Hb Hd) as Hf''. split; [|split; [done|]].
    + apply (lua_call_ok _ _ _ 0 [LUA_TUSERDATA ud; LUA_TSTRING key; v] m); [|cbn; lia|done].
      rewrite Ha. by eapply (write_scalar c f code v n v').
    + apply (lua_call_ok _ _ (mkWorld m (lua w)) 1 [LUA_TUSERDATA ud; LUA_TSTRING key'; v'] m); [|cbn; lia|done].
      rewrite (container_read _ _ _ _ _ _ Hf'' Hsp).
      by erewrite LM_bind_ok by (by eapply (read_scalar fuel c f code v n v')).
  - exists (in_frame [LUA_TUSERDATA ud; LUA_TSTRING key; v] w). split; [|done]. unfold assign.
    apply lua_call_error. rewrite Ha. by eapply assign_rejected.
Qed.

(** Some types a plugin cannot use: an assignment to a field of an 8 or 16-bit
    integer, of double precision, of an array or of an untyped object is dropped
    without an error, and an untyped object reads as the name of its own field. *)
Theorem field_not_supported w ud c key f code v fuel :
  field_of w ud c key f -> type_is (fieldTypePtr f) code ->
  (code ∈ [kTypeCode_Void; kTypeCode_DbObject; kTypeCode_Array; kTypeCode_Float64; kTypeCode_Int8; kTypeCode_Uint8;
           kTypeCode_Int16; kTypeCode_Uint16] ->
   call DataContainerNewIndex [LUA_TUSERDATA ud; LUA_TSTRING key; v] w = Ok (Some [], mkWorld (mem w) (lua w))) /\
  (code ∈ [kTypeCode_Void; kTypeCode_DbObject] -> ~ special key ->
   call (DataContainerIndex fuel) [LUA_TUSERDATA ud; LUA_TSTRING key] w = Ok (Some [LUA_TSTRING key], mkWorld (mem w) (lua w))).
Proof.
  clear createInstance createFunc getType isKindOf GetNativeType. intros Hf Ht. split.
  - intros Hc. apply (lua_call_ok _ _ _ 0 [LUA_TUSERDATA ud; LUA_TSTRING key; v] (mem w)); [|cbn; lia|done]. unfold DataContainerNewIndex.
    erewrite LM_bind_ok by (eapply container_arg; [apply Hf|done]). erewrite LM_bind_ok by by apply string_arg.
    erewrite LM_bind_ok by (eapply container_field_ok, field_in_frame, Hf). cbv beta iota. unfold TypeInfoNewIndex.
    rewrite (LM_bind_ok _ _ _ _ _ (getBasicType_ok _ _ _ Ht)). rewrite !elem_of_cons, elem_of_nil in Hc. naive_solver.
  - intros Hc Hsp. apply (lua_call_ok _ _ _ 1 [LUA_TUSERDATA ud; LUA_TSTRING key] (mem w)); [|cbn; lia|done]. unfold DataContainerIndex.
    erewrite LM_bind_ok by (eapply container_arg; [apply Hf|done]). erewrite LM_bind_ok by by apply string_arg.
    unfold special in Hsp. rewrite !decide_False by tauto.
    erewrite LM_bind_ok by (eapply container_field_ok, field_in_frame, Hf). cbv beta iota. unfold TypeInfoIndex.
    erewrite LM_bind_ok; [|by rewrite (LM_bind_ok _ _ _ _ _ (getBasicType_ok _ _ _ Ht));
      rewrite !elem_of_cons, elem_of_nil in Hc; destruct Hc as [->|[->|[]]]]. done.
Qed.

(** ** Arrays *)

(** The array at an address holds these pointers. *)
Definition array_of (m : Mem) (arr : Z) (l : list Z) : Prop :=
  Forall (fun x => is_u64 x) l /\
  exists data, 0 < data /\ load_int 8 arr m = Ok data /\ load_int 4 (data - 4) m = Ok (len l) /\
    load (8 * length l) data m = Ok (l ≫= le_split 8).

Lemma array_size w arr l : array_of (mem w) arr l -> FBArray_size arr w = Ok (Some (len l), w).
Proof.
  intros (_ & data & Hd & H1 & H2 & _). unfold FBArray_size, m_data.
  rewrite (LM_bind_ok _ _ _ data w) by by apply read_mem_ok. rewrite (proj2 (Z.eqb_neq data 0)) by lia. by apply read_mem_ok.
Qed.

Lemma length_pointers l : length (l ≫= le_split 8) = (8 * length l)%nat.
Proof.
  induction l as [|x l IH]; [done|]. change ((x :: l) ≫= le_split 8) with (le_split 8 x ++ (l ≫= le_split 8)).
  rewrite length_app, IH, length_le_split. cbn. lia.
Qed.

Lemma load_int_ok n a m bs : load n a m = Ok bs -> load_int n a m = Ok (le_combine bs).
Proof. intros H'. unfold load_int. by rewrite H'. Qed.

Lemma load_pointer m a l i x :
  Forall (fun x => is_u64 x) l -> load (8 * length l) a m = Ok (l ≫= le_split 8) -> l !! i = Some x ->
  load_int 8 (a + 8 * Z.of_nat i) m = Ok x.
Proof.
  revert a i. induction l as [|y l IH]; intros a i Hl H' Hi; [done|]. apply list.Forall_cons in Hl as [Hy Hl].
  change ((y :: l) ≫= le_split 8) with (le_split 8 y ++ (l ≫= le_split 8)) in H'.
  replace (8 * length (y :: l))%nat with (8 + 8 * length l)%nat in H' by (cbn; lia). rewrite load_app in H'.
  destruct (load 8 a m) as [bs|] eqn:E1; [|done]. cbn [mbind result_bind] in H'.
  destruct (load (8 * length l) (a + Z.of_nat 8) m) as [bs'|] eqn:E2; [|done]. cbn [mbind result_bind] in H'.
  assert (Hx : length bs = length (le_split 8 y)) by (rewrite length_le_split; apply (load_is_mapped _ _ _ _ E1)).
  remember (le_split 8 y) as z eqn:Ez. injection H' as H'. apply app_inj_1 in H' as [-> ->]; [|done].
  destruct i as [|i]; cbn in Hi.
  - injection Hi as ->. rewrite Z.mul_0_r, Z.add_0_r. rewrite (load_int_ok _ _ _ _ E1), Ez, le_combine_split.
    f_equal. apply Z.mod_small. exact Hy.
  - rewrite <- (IH (a + 8) i) by done. f_equal. lia.
Qed.

(** An index in range gives the pointer there. *)
Lemma array_at w arr l i x : array_of (mem w) arr l -> l !! i = Some x -> FBArray_at arr (Z.of_nat i) w = Ok (Some x, w).
Proof.
  intros (Hl & data & Hd & H1 & _ & H3) Hi. unfold FBArray_at, m_data.
  rewrite (LM_bind_ok _ _ _ data w) by by apply read_mem_ok. apply read_mem_ok. by eapply load_pointer.
Qed.

Lemma zero_pointers k : replicate (8 * k) Byte.x00 = replicate k 0 ≫= le_split 8.
Proof.
  induction k as [|k IH]; [done|]. replace (8 * S k)%nat with (8 + 8 * k)%nat by lia. cbn [Nat.add replicate]. rewrite IH. done.
Qed.

Lemma len_Z n : Z.to_nat (8 * Z.of_nat n) = (8 * n)%nat.
Proof. lia. Qed.
(** New memory is apart from memory in use, which keeps its contents. *)
Lemma alloc_apart n m base m1 b k :
  arena_alloc n m = (base, m1) -> base <> 0 -> mapped b k m -> 0 < k -> 0 <= n -> b + k <= base \/ base + n <= b \/ n = 0.
Proof.
  intros Ha Hb Hm Hk Hn. destruct (arena_alloc_ok _ _ _ _ Ha Hb) as (_ & _ & B & _).
  destruct (decide (b + k <= base)); [by left|]. destruct (decide (base + n <= b)); [by right; left|].
  destruct (decide (n = 0)); [by right; right|]. exfalso.
  destruct (Hm (Z.max b base)) as [? Hs]; [lia|]. destruct (B (Z.max b base)) as [Hz _]; [lia|]. congruence.
Qed.

Lemma alloc_keeps n m base m1 k b bs :
  arena_alloc n m = (base, m1) -> base <> 0 -> load k b m = Ok bs -> load k b m1 = Ok bs.
Proof.
  intros Ha Hb Hl. destruct (load_is_mapped _ _ _ _ Hl) as [Hm _]. rewrite <- Hl. apply load_ext. intros x Hx.
  apply (arena_alloc_ok _ _ _ _ Ha Hb). by apply Hm.
Qed.

(** The four writes of an extension, into memory that was just given. *)
Lemma extend_writes arr l k base m m1 :
  array_of m arr l -> 0 <= k -> len l + k < 2 ^ 32 -> arena_alloc (8 + 8 * (len l + k)) m = (base, m1) -> base <> 0 ->
  exists m2 m3 m4 m5 data, load_int 8 arr m1 = Ok data /\
    memcpy (base + 8) data (8 * length l) m1 = Ok m2 /\
    store (base + 8 + 8 * len l) (replicate (8 * Z.to_nat k) Byte.x00) m2 = Ok m3 /\
    store_int 8 arr (base + 8) m3 = Ok m4 /\ store_int 4 (base + 8 - 4) (len l + k) m4 = Ok m5 /\
    array_of m5 arr (l ++ replicate (Z.to_nat k) 0) /\
    forall b, is_Some (m !! b) -> ~ (arr <= b < arr + 8) -> m5 !! b = m !! b.
Proof.
  intros (Hl & data & Hd & H1 & H2 & H3) Hk Hlen Ha Hb.
  destruct (arena_alloc_ok _ _ _ _ Ha Hb) as (B1 & B2 & B3 & B4).
  unfold load_int in H1. destruct (load 8 arr m) as [p|] eqn:Ep; [|done]. cbn [mbind result_bind] in H1.
  destruct (load_is_mapped _ _ _ _ Ep) as [Harr _]. pose proof (alloc_apart _ _ _ _ _ _ Ha Hb Harr ltac:(done) ltac:(lia)) as D.
  destruct (store_load (l ≫= le_split 8) (base + 8) m1) as (m2 & S2 & G2 & C2).
  { intros b Hx. rewrite length_pointers in Hx. apply B3. lia. }
  rewrite length_pointers in G2, C2.
  destruct (store_load (replicate (8 * Z.to_nat k) Byte.x00) (base + 8 + 8 * len l) m2) as (m3 & S3 & G3 & C3).
  { rewrite length_replicate. intros b Hx. rewrite C2 by lia. apply B3. lia. }
  rewrite length_replicate in G3, C3.
  destruct (store_load_int 8 arr (base + 8) m3) as (m4 & S4 & G4 & C4).
  { intros b Hx. rewrite C3, C2 by lia. rewrite B4 by (apply Harr; lia). apply Harr. lia. }
  destruct (store_load_int 4 (base + 8 - 4) (len l + k) m4) as (m5 & S5 & G5 & C5).
  { intros b Hx. rewrite C4, C3, C2 by lia. apply B3. lia. }
  exists m2, m3, m4, m5, data. refine (conj _ (conj _ (conj S3 (conj S4 (conj S5 (conj (conj _ _) _)))))).
  - unfold load_int. rewrite (alloc_keeps _ _ _ _ _ _ _ Ha Hb Ep). exact H1.
  - unfold memcpy. by rewrite (alloc_keeps _ _ _ _ _ _ _ Ha Hb H3).
  - apply list.Forall_app. split; [done|]. apply list.Forall_forall. intros x Hx. by apply elem_of_replicate in Hx as [-> _].
  - exists (base + 8). split; [lia|]. refine (conj _ (conj _ _)).
    + unfold load_int in *. rewrite (same_but_load _ _ _ _ _ _ C5), G4 by lia. f_equal. apply uwrap_small. unfold urange. lia.
    + rewrite G5. f_equal. rewrite length_app, length_replicate. rewrite uwrap_small; [lia|]. unfold urange. lia.
    + rewrite length_app, length_replicate, Nat.mul_add_distr_l, load_app.
      rewrite (same_but_load _ _ _ _ _ (base + 8) C5), (same_but_load _ _ _ _ _ (base + 8) C4),
        (same_but_load _ _ _ _ _ (base + 8) C3), G2 by lia.
      replace (base + 8 + Z.of_nat (8 * length l)) with (base + 8 + 8 * len l) by lia. cbn [mbind result_bind].
      rewrite (same_but_load _ _ _ _ _ _ C5), (same_but_load _ _ _ _ _ _ C4), G3 by lia.
      cbn [mbind result_bind]. by rewrite bind_app, zero_pointers.
  - intros b Hm Hn. assert (Hfresh : ~ (base <= b < base + (8 + 8 * (len l + k)))).
    { intros Hx. destruct (B3 b Hx) as [Hz _]. rewrite Hz in Hm. by destruct Hm. }
    rewrite C5, C4, C3, C2 by lia. by apply B4.
Qed.

Lemma extend_ok arr l k base w m1 :
  array_of (mem w) arr l -> 0 <= k -> len l + k < 2 ^ 32 ->
  arena_alloc (8 + 8 * (len l + k)) (mem w) = (base, m1) -> base <> 0 ->
  exists m, extend arr k w = Ok (Some tt, mkWorld m (lua w)) /\ array_of m arr (l ++ replicate (Z.to_nat k) 0) /\
    forall b, is_Some (mem w !! b) -> ~ (arr <= b < arr + 8) -> m !! b = mem w !! b.
Proof.
  intros Hl Hk Hlen Ha Hb. destruct (extend_writes _ _ _ _ _ _ Hl Hk Hlen Ha Hb) as (m2 & m3 & m4 & m5 & data & W).
  destruct W as (W1 & W2 & W3 & W4 & W5 & W6 & W7). exists m5. split; [|done].
  assert (Hu : u32 (len l + k) = len l + k) by (apply uwrap_small; unfold urange; lia).
  unfold extend. rewrite (LM_bind_ok _ _ _ _ _ (array_size _ _ _ Hl)), Hu.
  rewrite (LM_bind_ok _ _ _ base (mkWorld m1 (lua w))) by (unfold alloc; by rewrite Ha).
  unfold m_data. rewrite (LM_bind_ok _ _ _ data (mkWorld m1 (lua w))) by by apply read_mem_ok.
  rewrite len_Z. erewrite LM_bind_ok by (apply write_mem_ok; exact W2).
  replace (Z.to_nat (8 * k)) with (8 * Z.to_nat k)%nat by lia.
  erewrite LM_bind_ok by (apply write_mem_ok; exact W3). erewrite LM_bind_ok by (apply write_mem_ok; exact W4).
  by apply (write_mem_ok _ (mkWorld m4 (lua w))).
Qed.

(** The array a userdata stands for. *)
Definition array_arg_of (w : World) (ud type arr : Z) : Prop := exists o, udata (lua w) !! ud = Some [Some type; Some arr; o].

Lemma userdata_arg w i id :
  0 < i -> frame (lua w) !! Z.to_nat (i - 1) = Some (LUA_TUSERDATA id) -> GetUserdata i w = Ok (Some (Full id), w).
Proof.
  intros Hi Hf. pose proof (index2value_ok _ _ _ Hi Hf) as Hv. unfold GetUserdata, lua_isuserdata, lua_touserdata.
  erewrite LM_bind_ok; [|by erewrite LM_bind_ok by exact Hv]. cbn [negb].
  by erewrite LM_bind_ok; [|by erewrite LM_bind_ok by exact Hv].
Qed.

Lemma word_ok w id ws i x : udata (lua w) !! id = Some ws -> ws !! i = Some (Some x) -> word (Full id) i w = Ok (Some x, w).
Proof.
  intros Hu Hi. cbn [word]. unfold ud_word. rewrite (LM_bind_ok _ _ _ (udata (lua w)) w) by done. unfold lift.
  rewrite Hu. cbn. by rewrite Hi.
Qed.

(** [array:extend(k)] keeps the references an array holds, in order, and adds
    k null ones; nothing else of the memory in use changes but the array's own
    pointer, and the call gives k back. *)
Theorem FBArray_extended ud type arr l k base w m1 :
  array_arg_of w ud type arr -> array_of (mem w) arr l -> 0 <= k < 2 ^ 31 -> len l + k < 2 ^ 32 ->
  arena_alloc (8 + 8 * (len l + k)) (mem w) = (base, m1) -> base <> 0 ->
  exists m,
    call FBArrayExtendFunc [LUA_TUSERDATA ud; LUA_TINTEGER k] w = Ok (Some [LUA_TINTEGER k], mkWorld m (lua w)) /\
    array_of m arr (l ++ replicate (Z.to_nat k) 0) /\
    forall b, is_Some (mem w !! b) -> ~ (arr <= b < arr + 8) -> m !! b = mem w !! b.
Proof.
  intros [o Hu] Hl Hk Hlen Ha Hb. pose (args := [LUA_TUSERDATA ud; LUA_TINTEGER k]).
  destruct (extend_ok arr l k base (in_frame args w) m1) as (m & He & Hm & Hk'); try done; [lia|].
  exists m. split; [|done]. apply (lua_call_ok _ _ _ 1 args m); [|cbn; lia|done]. unfold FBArrayExtendFunc, GetFBArray, array_value.
  erewrite LM_bind_ok by by apply userdata_arg.
  erewrite LM_bind_ok by (by eapply checkinteger_ok; [apply index2value_ok|]).
  erewrite LM_bind_ok by by eapply word_ok.
  replace (u32 (i32 k)) with k by (rewrite swrap_small, uwrap_small; [done|unfold urange; lia|done|unfold srange; lia]).
  by erewrite LM_bind_ok by exact He.
Qed.

(** ** Walking an array *)

Lemma push_container w tname c mt :
  registry (lua w) !! c_str tname = Some (LUA_TTABLE mt) ->
  (_ ← WrapDataContainer c; with_metatable tname) w =
  Ok (Some tt, mkWorld (mem w) (with_object [Some c] mt (lua w))).
Proof.
  intros Hr. destruct w as [m [s u t mts g r gl n]]; cbn in Hr.
  pose (w1 := mkWorld m (mkLua (s ++ [LUA_TUSERDATA n]) (<[n := [Some c]]> u) t mts g r gl (n + 1))).
  rewrite (LM_bind_ok _ _ _ n w1).
  2: { unfold WrapDataContainer, lua_newuserdata, ud_set, modify, gets, push, mbind, LM_bind, mret, LM_ret, w1, set_next, set_udata, set_frame.
       cbn. by rewrite alter_insert_eq. }
  pose (w2 := in_frame (s ++ [LUA_TUSERDATA n; LUA_TTABLE mt]) w1).
  unfold with_metatable. rewrite (LM_bind_ok _ _ _ tt w2).
  2: { unfold luaL_getmetatable, push, modify, gets, mbind, LM_bind, w2, w1, in_frame. cbn.
       rewrite Hr. cbn. by rewrite <- app_assoc. }
  destruct (index2value_top w2 s (LUA_TUSERDATA n) (LUA_TTABLE mt)) as [H1 H2]; [done|].
  unfold lua_setmetatable. rewrite (LM_bind_ok _ _ _ _ _ H2), (LM_bind_ok _ _ _ _ _ H1).
  erewrite LM_bind_ok by done. erewrite (lua_pop_ok _ (s ++ [LUA_TUSERDATA n])); [done|]. cbn. by rewrite <- app_assoc.
Qed.

(** The value an element becomes, and the state with it. *)
Definition element_value (x : Z) (L : lua_State) : TValue := if x =? 0 then LUA_TNIL else LUA_TUSERDATA (next_object L).
Definition element_state (mt x : Z) (L : lua_State) : lua_State :=
  if x =? 0 then L else set_frame (frame L) (with_object [Some x] mt L).

Lemma info_of_ok type d w : typeInfoData T !! type ≫= (infoData T !!.) = Some d -> info_of type w = Ok (Some d, w).
Proof. intros Hd. unfold info_of, lift. by rewrite Hd. Qed.

Lemma push_element w ud type arr l i x mt s :
  array_arg_of w ud type arr -> type_is type kTypeCode_Class -> array_of (mem w) arr l -> l !! i = Some x ->
  registry (lua w) !! bstr "DataContainer" = Some (LUA_TTABLE mt) ->
  PushFBArrayValue (Full ud) (Z.of_nat i) (in_frame s w) =
  Ok (Some tt, mkWorld (mem w) (set_frame (s ++ [element_value x (lua w)]) (element_state mt x (lua w)))).
Proof.
  intros [o Hu] (d & Hd & Hc) Hl Hi Hr. unfold PushFBArrayValue, array_value, array_type.
  erewrite LM_bind_ok by by eapply word_ok. erewrite LM_bind_ok by by eapply word_ok.
  rewrite (LM_bind_ok _ _ _ _ _ (info_of_ok _ _ _ Hd)), Hc.
  rewrite (LM_bind_ok _ _ _ x (in_frame s w)) by by eapply array_at.
  unfold element_value, element_state. destruct (x =? 0) eqn:Ex; [done|].
  rewrite (push_container (in_frame s w) (bstr "DataContainer") x mt) by done. done.
Qed.

Lemma iterator_step w ud type arr l i x mt :
  array_arg_of w ud type arr -> type_is type kTypeCode_Class -> array_of (mem w) arr l -> len l < 2 ^ 31 -> l !! i = Some x ->
  registry (lua w) !! bstr "DataContainer" = Some (LUA_TTABLE mt) ->
  call FBArrayIterator [LUA_TUSERDATA ud; LUA_TINTEGER (Z.of_nat i)] w =
  Ok (Some [LUA_TINTEGER (Z.of_nat i + 1); element_value x (lua w)], mkWorld (mem w) (element_state mt x (lua w))).
Proof.
  intros Ha Ht Hl Hlen Hi Hr. pose proof (lookup_lt_Some _ _ _ Hi) as Hlt. destruct Ha as [o Hu].
  pose (args := [LUA_TUSERDATA ud; LUA_TINTEGER (Z.of_nat i)]).
  assert (H2 : FBArrayIterator (in_frame args w) =
    Ok (Some 2%nat, mkWorld (mem w) (set_frame (args ++ [LUA_TINTEGER (Z.of_nat i + 1)] ++ [element_value x (lua w)]) (element_state mt x (lua w))))).
  { unfold FBArrayIterator, GetFBArray, array_value.
    erewrite LM_bind_ok by by apply userdata_arg.
    erewrite LM_bind_ok by (by eapply checkinteger_ok; [apply index2value_ok|]).
    erewrite LM_bind_ok by by eapply word_ok.
    rewrite (LM_bind_ok _ _ _ (len l) (in_frame args w)) by by apply array_size.
    assert (E : i32 (Z.of_nat i) = Z.of_nat i) by (apply swrap_small; [done|]; unfold srange; lia). rewrite E.
    rewrite uwrap_small by (unfold urange; lia). rewrite (proj2 (Z.leb_gt _ _)) by lia. rewrite (proj2 (Z.eqb_neq _ _)) by lia.
    assert (E' : i64 (Z.of_nat i + 1) = Z.of_nat i + 1) by (apply swrap_small; [done|]; unfold srange; lia).
    rewrite (LM_bind_ok _ _ _ tt (in_frame (args ++ [LUA_TINTEGER (Z.of_nat i + 1)]) w)).
    2: { unfold lua_pushinteger. rewrite E'. done. }
    erewrite LM_bind_ok by (eapply (push_element w); try done; by exists o). by rewrite <- app_assoc. }
  unfold call. rewrite (LM_bind_ok _ _ _ (frame (lua w)) w) by done. rewrite (LM_bind_ok _ _ _ tt (in_frame args w)) by done.
  rewrite (LM_bind_ok _ _ _ _ _ H2). erewrite LM_bind_ok by done. erewrite LM_bind_ok by done. cbn.
  unfold element_state. destruct (x =? 0); [by rewrite set_frame_frame, set_frame_id|done].
Qed.

Lemma iterator_end w ud type arr l mt :
  array_arg_of w ud type arr -> array_of (mem w) arr l -> len l < 2 ^ 31 ->
  registry (lua w) !! bstr "DataContainer" = Some (LUA_TTABLE mt) ->
  call FBArrayIterator [LUA_TUSERDATA ud; LUA_TINTEGER (len l)] w = Ok (Some [], mkWorld (mem w) (lua w)).
Proof.
  intros [o Hu] Hl Hlen Hr. pose (args := [LUA_TUSERDATA ud; LUA_TINTEGER (len l)]).
  apply (lua_call_ok _ _ _ 0 args (mem w)); [|cbn; lia|done]. unfold FBArrayIterator, GetFBArray, array_value.
  erewrite LM_bind_ok by by apply userdata_arg.
  erewrite LM_bind_ok by (by eapply checkinteger_ok; [apply index2value_ok|]).
  erewrite LM_bind_ok by by eapply word_ok.
  rewrite (LM_bind_ok _ _ _ (len l) (in_frame args w)) by by apply array_size.
  assert (E : i32 (len l) = len l) by (apply swrap_small; [done|]; unfold srange; lia). rewrite E.
  rewrite uwrap_small by (unfold urange; lia). by rewrite Z.leb_refl.
Qed.

(** The loop [for i, v in f, state, control] of Lua: it ends when the iterator
    gives no value or nil. *)
Fixpoint for_in (fuel : nat) (f : LM nat) (state control : TValue) : LM (list (TValue * TValue)) :=
  match fuel with
  | O => crash OutOfFuel
  | S fuel' =>
    rs ← call f [state; control];
    match rs with
    | [] | LUA_TNIL :: _ => mret []
    | i :: rest => turns ← for_in fuel' f state i; mret ((i, default LUA_TNIL (head rest)) :: turns)
    end
  end.

(** The value stands for a reference: nil for null, else a userdata of the object. *)
Definition shows (L : lua_State) (mt x : Z) (v : TValue) : Prop :=
  if x =? 0 then v = LUA_TNIL
  else exists id, v = LUA_TUSERDATA id /\ id < next_object L /\ udata L !! id = Some [Some x] /\ metatables L !! id = Some mt.

Lemma shows_later mt x y v L : shows L mt x v -> shows (element_state mt y L) mt x v.
Proof.
  unfold shows, element_state. destruct (x =? 0), (y =? 0); try done. intros (id & -> & Hn & Hu & Hm).
  exists id. cbn. rewrite !lookup_insert_ne by lia. split_and!; try done. lia.
Qed.

Lemma shows_element mt x L : shows (element_state mt x L) mt x (element_value x L).
Proof.
  unfold shows, element_state, element_value. destruct (x =? 0); [done|]. eexists. cbn. rewrite !lookup_insert_eq.
  split_and!; try done. lia.
Qed.

Lemma walk_from post pre w ud type arr mt fuel :
  array_arg_of w ud type arr -> ud < next_object (lua w) -> type_is type kTypeCode_Class -> array_of (mem w) arr (pre ++ post) ->
  len (pre ++ post) < 2 ^ 31 -> registry (lua w) !! bstr "DataContainer" = Some (LUA_TTABLE mt) -> (length post < fuel)%nat ->
  exists L vs, for_in fuel FBArrayIterator (LUA_TUSERDATA ud) (LUA_TINTEGER (len pre)) w = Ok (Some vs, mkWorld (mem w) L) /\
    vs.*1 = map (fun i => LUA_TINTEGER (Z.of_nat i + 1)) (seq (length pre) (length post)) /\ Forall2 (shows L mt) post vs.*2 /\
    forall x v, shows (lua w) mt x v -> shows L mt x v.
Proof.
  revert pre w fuel. induction post as [|x post IH]; intros pre w fuel Ha Hud Ht Hl Hlen Hr Hf.
  all: destruct fuel as [|fuel]; [lia|]; cbn [for_in].
  - rewrite app_nil_r in *. rewrite (LM_bind_ok _ _ _ _ _ (iterator_end _ _ _ _ _ _ Ha Hl Hlen Hr)).
    exists (lua w), []. by split_and!.
  - assert (Hi : (pre ++ x :: post) !! length pre = Some x) by by apply list_lookup_middle.
    rewrite (LM_bind_ok _ _ _ _ _ (iterator_step _ _ _ _ _ _ _ _ Ha Ht Hl Hlen Hi Hr)).
    pose (w' := mkWorld (mem w) (element_state mt x (lua w))).
    replace (Z.of_nat (length pre) + 1) with (len (pre ++ [x])) by (rewrite length_app; cbn; lia).
    destruct (IH (pre ++ [x]) w' fuel) as (L & vs & Hw & Hi1 & Hs & Hk).
    + destruct Ha as [o Hu]. exists o. unfold w', element_state. destruct (x =? 0); [done|]. cbn. rewrite lookup_insert_ne by lia. done.
    + unfold w', element_state. destruct (x =? 0); cbn; lia.
    + done.
    + by rewrite <- app_assoc.
    + by rewrite <- app_assoc.
    + unfold w', element_state. by destruct (x =? 0).
    + cbn in Hf. lia.
    + fold w'. rewrite (LM_bind_ok _ _ _ _ _ Hw). do 2 eexists. split; [done|]. split; [|split].
      * cbn [fmap list_fmap fst length seq map]. f_equal; [do 2 f_equal; rewrite length_app; cbn; lia|].
        rewrite Hi1. by rewrite length_app, Nat.add_1_r.
      * cbn [fmap list_fmap snd head default]. constructor; [apply Hk, shows_element|done].
      * intros y v Hy. apply Hk. by apply shows_later.
Qed.

(** C34: A plugin's [for i, v in pairs(array)] over an array of references ends
    after one turn per element, in order, with the indices from 1 and as values
    nil for a null reference and else a userdata of that very object; the
    game's memory does not change. *)
Theorem array_walked w ud type arr l mt :
  array_arg_of w ud type arr -> ud < next_object (lua w) -> type_is type kTypeCode_Class -> array_of (mem w) arr l ->
  len l < 2 ^ 31 -> registry (lua w) !! bstr "DataContainer" = Some (LUA_TTABLE mt) ->
  call FBArrayPairs [LUA_TUSERDATA ud] w =
    Ok (Some [LUA_TFUNCTION (bstr "FBArrayIterator") None; LUA_TUSERDATA ud; LUA_TINTEGER 0], w) /\
  exists L vs, for_in (S (length l)) FBArrayIterator (LUA_TUSERDATA ud) (LUA_TINTEGER 0) w = Ok (Some vs, mkWorld (mem w) L) /\
    vs.*1 = map (fun i => LUA_TINTEGER (Z.of_nat i + 1)) (seq 0 (length l)) /\ Forall2 (shows L mt) l vs.*2.
Proof.
  intros Ha Hud Ht Hl Hlen Hr. split.
  - destruct w as [m [s u t mts g r gl n]]. done.
  - destruct (walk_from l [] w ud type arr mt (S (length l)) Ha Hud Ht Hl Hlen Hr) as (L & vs & H1 & H2 & H3 & _); [lia|].
    by exists L, vs.
Qed.

(** ** Values of arrays and their collection *)

(** A wrapped value on top of the stack cannot be a metatable. *)
Lemma set_metatable_twice tname id s u w (f : unit -> LM unit) :
  frame (lua w) = s ++ [u; LUA_TUSERDATA id] -> (_ ← luaL_setmetatable tname; x ← lua_setmetatable (-2); f x) w = Fault Undefined.
Proof.
  intros Hs. unfold luaL_setmetatable. pose (v := default LUA_TNIL (registry (lua w) !! c_str tname)).
  assert (H1 : luaL_getmetatable tname w = Ok (Some tt, in_frame ((s ++ [u]) ++ [LUA_TUSERDATA id; v]) w)).
  { unfold luaL_getmetatable, push, gets, modify, mbind, LM_bind, in_frame. rewrite Hs. by rewrite <- !app_assoc. }
  pose proof (lua_setmetatable_top (in_frame ((s ++ [u]) ++ [LUA_TUSERDATA id; v]) w) (s ++ [u]) (LUA_TUSERDATA id) v ltac:(done)) as Ht.
  destruct (is_metatable v).
  - destruct Ht as (w' & Hw & Hf). rewrite (LM_bind_ok _ _ _ tt w') by by rewrite (LM_bind_ok _ _ _ _ _ H1).
    apply LM_bind_fault. apply (lua_setmetatable_top w' s u (LUA_TUSERDATA id)). by rewrite Hf, <- app_assoc.
  - apply LM_bind_fault. by rewrite (LM_bind_ok _ _ _ _ _ H1).
Qed.

(** Reading an element of an array of values is undefined, in every state and
    for every index in range: [PushFBArrayValue] sets the metatable of the
    wrapped value and then takes the value itself for a metatable. *)
Theorem value_element_undefined w ud type arr l i :
  array_arg_of w ud type arr -> type_is type kTypeCode_ValueType -> array_of (mem w) arr l -> len l < 2 ^ 31 -> 0 <= i < len l ->
  call FBArrayIndex [LUA_TUSERDATA ud; LUA_TINTEGER (i + 1)] w = Fault Undefined.
Proof.
  intros [o Hu] (d & Hd & Hc) Hl Hlen Hi. pose (args := [LUA_TUSERDATA ud; LUA_TINTEGER (i + 1)]).
  unfold call. rewrite (LM_bind_ok _ _ _ (frame (lua w)) w) by done. rewrite (LM_bind_ok _ _ _ tt (in_frame args w)) by done.
  apply LM_bind_fault. unfold FBArrayIndex, GetFBArray, index_argument, array_value.
  erewrite LM_bind_ok by by apply userdata_arg. erewrite LM_bind_ok by by apply index2value_ok. cbv beta iota.
  rewrite (LM_bind_ok _ _ _ i (in_frame args w)).
  2: { erewrite LM_bind_ok by (by eapply checkinteger_ok; [apply index2value_ok|]). rewrite (proj2 (Z.ltb_ge _ _)) by lia.
       rewrite Z.add_simpl_r, swrap_small; [done|done|unfold srange; lia]. }
  erewrite LM_bind_ok by by eapply word_ok. rewrite (LM_bind_ok _ _ _ (len l) (in_frame args w)) by by apply array_size.
  rewrite (proj2 (Z.ltb_ge _ _)), (proj2 (Z.leb_gt _ _)) by lia. cbn [orb]. apply LM_bind_fault.
  unfold PushFBArrayValue, array_value, array_type. erewrite LM_bind_ok by by eapply word_ok.
  erewrite LM_bind_ok by by eapply word_ok.
  rewrite (LM_bind_ok _ _ _ _ _ (info_of_ok _ _ _ Hd)), Hc.
  destruct Hl as (_ & data & _ & Hdata & _). unfold element_address, m_data.
  assert (Hr : read_mem (load_int 8 arr) (in_frame args w) = Ok (Some data, in_frame args w)) by by apply read_mem_ok.
  destruct (2 ^ 31 <=? totalSize (info d) * i).
  { apply LM_bind_fault. by rewrite (LM_bind_ok _ _ _ _ _ Hr). }
  erewrite LM_bind_ok by (by rewrite (LM_bind_ok _ _ _ _ _ Hr)).
  erewrite LM_bind_ok by done. by eapply (set_metatable_twice _ _ [LUA_TUSERDATA ud] (LUA_TINTEGER (i + 1))).
Qed.

(** A value that a field gives to a plugin (a position within its object) is
    wrapped without saying whether it is the plugin's own; when Lua collects the
    userdata, [ValueTypeGc] reads that flag, which was never written. *)
Theorem borrowed_value_collected w type value ud w' :
  WrapValueType type value w = Ok (Some ud, w') -> call ValueTypeGc [LUA_TUSERDATA ud] w' = Fault Undefined.
Proof.
  destruct w as [m [s u t mts g r gl n]]. intros H'.
  assert (Hw : ud = n /\ udata (lua w') !! n = Some [Some type; Some value; None]).
  { unfold WrapValueType, lua_newuserdata, ud_set, modify, gets, push, mbind, LM_bind, mret, LM_ret in H'. cbn in H'.
    injection H' as <- <-. split; [done|]. cbn. by rewrite !lookup_alter_eq, lookup_insert_eq. }
  destruct Hw as [-> Hu]. unfold call. rewrite (LM_bind_ok _ _ _ (frame (lua w')) w') by done.
  rewrite (LM_bind_ok _ _ _ tt (in_frame [LUA_TUSERDATA n] w')) by done. apply LM_bind_fault.
  unfold ValueTypeGc, GetValueType. erewrite LM_bind_ok by by apply userdata_arg.
  apply LM_bind_fault. cbn [word]. unfold ud_word. rewrite (LM_bind_ok _ _ _ (udata (lua w')) _) by done.
  unfold lift. by rewrite Hu.
Qed.

End types.

(** ** A small game *)

Module Sample.

(** Numbers without floats. *)
#[local] Instance numbers : LuaNumbers.
Proof.
  refine {| float_tointeger := fun _ => None; string_tointeger := fun _ => None; string_tonumber := fun _ => None;
    integer_tonumber := fun i => i; double_to_float := u32; float_to_double := fun x => x; number_tostring := fun _ => [] |}.
  intros z. by apply uwrap_range.
Defined.

Definition bytes_at (a : Z) (bs : list byte) : Mem := list_to_map (zip (seqZ a (len bs)) bs).

(** An arena that gives one block. *)
Definition block : Z := 0x100000.
Definition sample_alloc (n : Z) (m : Mem) : Z * Mem :=
  if (0 <=? n) && (n <? 2 ^ 20) && forallb (fun b => bool_decide (m !! b = None)) (seqZ block n)
  then (block, foldr (fun b m => <[b := Byte.x00]> m) m (seqZ block n)) else (0, m).

Lemma foldr_insert_lookup (l : list Z) (m : Mem) b :
  foldr (fun b m => <[b := Byte.x00]> m) m l !! b = if decide (b ∈ l) then Some Byte.x00 else m !! b.
Proof.
  induction l as [|x l IH]; [by rewrite decide_False by apply not_elem_of_nil|]. cbn. destruct (decide (x = b)) as [->|Hne].
  - rewrite lookup_insert_eq, decide_True; [done|]. by left.
  - rewrite lookup_insert_ne, IH by done. destruct (decide (b ∈ l)); [rewrite decide_True; [done|by right]|].
    rewrite decide_False; [done|]. by apply not_elem_of_cons.
Qed.

#[local] Instance arena : Arena.
Proof.
  refine {| arena_alloc := sample_alloc; arena_free := fun _ m => m |}. unfold sample_alloc. intros n m a m'.
  destruct (_ && _) eqn:E; [|by intros [= <- <-]]. intros [= <- <-] _.
  apply andb_prop in E as [E1 E2]. apply andb_prop in E1 as [E0 E1]. unfold block in *. split; [lia|]. split; [lia|].
  assert (Hfree : forall b, b ∈ seqZ 0x100000 n -> m !! b = None).
  { intros b Hb. rewrite forallb_forall in E2. apply list_elem_of_In in Hb. by apply E2, bool_decide_eq_true in Hb. }
  split.
  - intros b Hb. assert (Hin : b ∈ seqZ 0x100000 n) by by apply elem_of_seqZ.
    split; [by apply Hfree|]. rewrite foldr_insert_lookup, decide_True by done. by eexists.
  - intros b [x Hx]. rewrite foldr_insert_lookup. destruct (decide (b ∈ _)) as [Hin|]; [|done]. by rewrite Hfree in Hx.
Defined.

(** A class [Soldier] over [Asset], with a number and an untyped object; arrays of
    references and of vectors. *)
Definition plain (code : Z) : TypeInfoData := PlainInfoData (mkInfo [] (32 * code) 0).
Definition soldier : TypeInfoData :=
  ClassInfoData (mkInfo (bstr "Soldier") (32 * 3) 40) 11 [mkField (bstr "Health") 24 12; mkField (bstr "Body") 32 13].
Definition asset : TypeInfoData := ClassInfoData (mkInfo (bstr "Asset") (32 * 3) 24) 11 [mkField (bstr "Name") 28 12].
Definition types : Types := mkTypes
  (list_to_map [(10, 110); (11, 111); (12, 112); (13, 113); (14, 114)])
  (list_to_map [(110, soldier); (111, asset); (112, plain 16); (113, plain 1); (114, ValueTypeInfoData (mkInfo (bstr "Vec3") (32 * 2) 16) [])]).

(** The object 1000 is a soldier; at 2000 is an array of it and a null reference. *)
Definition memory : Mem :=
  bytes_at 1000 (le_split 8 0 ++ le_split 8 10 ++ le_split 4 1 ++ le_split 4 0 ++ le_split 8 100 ++ le_split 8 0)
  ∪ bytes_at 2000 (le_split 8 3004) ∪ bytes_at 3000 (le_split 4 2 ++ le_split 8 1000 ++ le_split 8 0).

(** Userdata 1 is the object, 2 the array, 3 the array taken for one of vectors. *)
Definition world : World := mkWorld memory
  (mkLua [] (list_to_map [(1, [Some 1000]); (2, [Some 10; Some 2000; None]); (3, [Some 14; Some 2000; None])]) ∅ ∅ ∅
    {[bstr "DataContainer" := LUA_TTABLE 9]} ∅ 20).

Definition chain : list (Z * list FieldInfoData) :=
  [(110, [mkField (bstr "Health") 24 12; mkField (bstr "Body") 32 13]); (111, [mkField (bstr "Name") 28 12])].

Lemma soldier_ancestry : ancestry types 110 chain.
Proof.
  eapply (ancestry_derived _ 110 _ 11 _ 111); try done. eapply ancestry_root; try done. by right.
Qed.

Lemma soldier_names : names_ok [mkField (bstr "Health") 24 12; mkField (bstr "Body") 32 13; mkField (bstr "Name") 28 12].
Proof. unfold names_ok. rewrite !list.Forall_cons. split_and!; try by apply list.Forall_nil. all: apply (bool_decide_unpack _); by vm_compute. Qed.

Lemma soldier_field key f :
  first_named (c_str key) [mkField (bstr "Health") 24 12; mkField (bstr "Body") 32 13; mkField (bstr "Name") 28 12] = Some f ->
  field_of types world 1 1000 key f.
Proof.
  intros Hf. split; [done|]. exists 10, 110. eexists. split; [by vm_compute|]. split; [done|]. split; [apply soldier_ancestry|].
  split; [apply soldier_names|done].
Qed.

Lemma sample_array : array_of memory 2000 [1000; 0].
Proof.
  split; [repeat constructor; done|]. exists 3004. split; [done|]. split; [by vm_compute|]. split; by vm_compute.
Qed.

Lemma FindField_first_witness : FindField types 110 (bstr "nAmE") = Ok (Some (mkField (bstr "Name") 28 12)).
Proof.
  rewrite (FindField_first types 110 chain); [|apply (bool_decide_unpack _); by vm_compute|apply soldier_names|apply soldier_ancestry].
  by vm_compute.
Defined.

Lemma field_write_read_witness :
  exists m,
    call (DataContainerNewIndex types) [LUA_TUSERDATA 1; LUA_TSTRING (bstr "Health"); LUA_TINTEGER (2 ^ 32 + 7)] world = Ok (Some [], mkWorld m (lua world)) /\
    same_but 1024 4 memory m /\
    call (DataContainerIndex types 9) [LUA_TUSERDATA 1; LUA_TSTRING (bstr "hEALTH")] (mkWorld m (lua world))
    = Ok (Some [LUA_TINTEGER 7], mkWorld m (lua world)).
Proof.
  refine (field_write_read types world 1 1000 (bstr "Health") (bstr "hEALTH") (mkField (bstr "Health") 24 12) kTypeCode_Uint32
    (LUA_TINTEGER (2 ^ 32 + 7)) 9 _ _ _ _ _ _ _).
  - by apply soldier_field; vm_compute.
  - by vm_compute.
  - unfold special. intros [H|H]; by vm_compute in H.
  - by exists (plain 16).
  - by apply (bool_decide_unpack _); vm_compute.
  - apply (load_is_mapped 4 1024 memory (le_split 4 100)). by vm_compute.
  - right. by vm_compute.
Defined.

Lemma field_not_supported_witness :
  call (DataContainerIndex types 9) [LUA_TUSERDATA 1; LUA_TSTRING (bstr "body")] world = Ok (Some [LUA_TSTRING (bstr "body")], world).
Proof.
  apply (field_not_supported types world 1 1000 (bstr "body") (mkField (bstr "Body") 32 13) kTypeCode_DbObject LUA_TNIL).
  - by apply soldier_field; vm_compute.
  - by exists (plain 1).
  - by apply (bool_decide_unpack _); vm_compute.
  - unfold special. intros [H|H]; by vm_compute in H.
Defined.

Lemma FBArray_extended_witness :
  exists m,
    call FBArrayExtendFunc [LUA_TUSERDATA 2; LUA_TINTEGER 3] world = Ok (Some [LUA_TINTEGER 3], mkWorld m (lua world)) /\
    array_of m 2000 [1000; 0; 0; 0; 0] /\ forall b, is_Some (memory !! b) -> ~ (2000 <= b < 2000 + 8) -> m !! b = memory !! b.
Proof.
  eapply (FBArray_extended 2 10 2000 [1000; 0] 3 block world (arena_alloc (8 + 8 * 5) memory).2).
  - by exists None.
  - apply sample_array.
  - done.
  - done.
  - by vm_compute.
  - done.
Defined.

Lemma array_walked_witness :
  exists L vs, for_in 3 (FBArrayIterator types) (LUA_TUSERDATA 2) (LUA_TINTEGER 0) world = Ok (Some vs, mkWorld memory L) /\
    vs.*1 = [LUA_TINTEGER 1; LUA_TINTEGER 2] /\ Forall2 (shows L 9) [1000; 0] vs.*2.
Proof.
  apply (array_walked types world 2 10 2000 [1000; 0] 9); try done.
  - by exists None.
  - by exists soldier.
  - apply sample_array.
Defined.

Lemma value_element_undefined_witness : call (FBArrayIndex types) [LUA_TUSERDATA 3; LUA_TINTEGER 1] world = Fault Undefined.
Proof.
  apply (value_element_undefined types world 3 14 2000 [1000; 0] 0); try done.
  - by exists None.
  - by exists (ValueTypeInfoData (mkInfo (bstr "Vec3") (32 * 2) 16) []).
  - apply sample_array.
Defined.

Lemma borrowed_value_collected_witness :
  exists w', WrapValueType 14 1024 world = Ok (Some 20, w') /\ call ValueTypeGc [LUA_TUSERDATA 20] w' = Fault Undefined.
Proof. eexists. split; [done|]. by apply (borrowed_value_collected world 14 1024). Defined.

End Sample.
