(* ===== verification/Entities.v ===== *)
(** Entities (Source/Entity/NativeEntityManager.cpp): the module's own entities
    bound to the game's, the types it registers, and what some of the entities
    do (Source/Entity/Entities, Source/Entity/Overrides). The game's objects are
    addresses; what the game does on its own is an argument or an element of a
    history. *)

From S2P Require Import Prelude.
From S2P Require Import ByteBuffer.
From S2P Require Import StringUtils.
From S2P Require Import Guid.

(** ** Bindings *)

Module Bindings.

(** What the original functions of an entity are: none (an entity that is
    overridden altogether), the game's, or, if an entity's table was changed
    twice, the module's hooks again. *)
Inductive orig := NoOrig | GameFn | HookFn.

#[export] Instance orig_eq_dec : EqDecision orig.
Proof. solve_decision. Defined.

(** [KyberEntityBase] *)
Record KyberEntity := mkKyber {
  m_nativeEntity : Z; m_data : Z; m_isSpatialEntity : bool; m_isInitialized : bool; m_wantUpdates : bool; m_orig : orig }.

Inductive Effect :=
  | Fired (name : list byte) (data : Z) | Updated (kyber : Z) | Evented (kyber event : Z) | Changed (kyber modification : Z)
  | OrigOnDestroy (native : Z) | OrigDeinit (native info : Z).

#[export] Instance Effect_eq_dec : EqDecision Effect.
Proof. solve_decision. Defined.

(** [hooked] are the entities whose table was replaced, [kybers] the objects that
    are alive. *)
Record EntityManager := mkManager {
  m_createdTypeInfo : list Z; m_bindings : list (Z * Z); kybers : gmap Z KyberEntity; hooked : gset Z; next_kyber : Z;
  effects : list Effect }.

Definition EntityManager_new (types : list Z) : EntityManager := mkManager types [] ∅ ∅ 1 [].

Definition set_bindings b (st : EntityManager) : EntityManager :=
  mkManager (m_createdTypeInfo st) b (kybers st) (hooked st) (next_kyber st) (effects st).
Definition set_kybers k (st : EntityManager) : EntityManager :=
  mkManager (m_createdTypeInfo st) (m_bindings st) k (hooked st) (next_kyber st) (effects st).
Definition set_hooked h (st : EntityManager) : EntityManager :=
  mkManager (m_createdTypeInfo st) (m_bindings st) (kybers st) h (next_kyber st) (effects st).
Definition effect (e : Effect) (st : EntityManager) : EntityManager :=
  mkManager (m_createdTypeInfo st) (m_bindings st) (kybers st) (hooked st) (next_kyber st) (effects st ++ [e]).

Section manager.
(** The game: the type of a data container and its name, the class hierarchy, the
    realm, the kind and the data of an entity. *)
Context (getType : Z -> Z) (getName : Z -> list byte) (isKindOf : Z -> list byte -> bool)
  (GetRealm : Z -> Z) (IsComponent : Z -> bool) (entityData : Z -> Z).
(** [EntityManagerStaticData]: the creators by name, with whether the new entity
    wants updates, and those that override an entity altogether. *)
Context (m_creators : list byte -> option (Z -> bool)) (m_overrideCreators : list (list byte)).
(** Whether there is a script manager. *)
Context (scripts : bool).

Definition IsOverrideCreator (name : list byte) : bool := bool_decide (name ∈ m_overrideCreators).

(** The first binding of an entity. *)
Fixpoint find_binding (native : Z) (l : list (Z * Z)) : option Z :=
  match l with [] => None | (n, k) :: l' => if n =? native then Some k else find_binding native l' end.
Definition GetKyberEntity (native : Z) (st : EntityManager) : option Z := find_binding native (m_bindings st).

Definition RemoveEntity (native : Z) (st : EntityManager) : EntityManager :=
  set_bindings (base.filter (fun b => b.1 <> native) (m_bindings st)) st.

(** [DuplicateVTable] and the four [HookVTableFunction]: the functions that were
    in the table before. *)
Definition hook_entity (native : Z) (st : EntityManager) : orig * EntityManager :=
  (if bool_decide (native ∈ hooked st) then HookFn else GameFn, set_hooked ({[native]} ∪ hooked st) st).

Definition new_kyber (k : KyberEntity) (st : EntityManager) : Z * EntityManager :=
  (next_kyber st, mkManager (m_createdTypeInfo st) (m_bindings st) (<[next_kyber st := k]> (kybers st)) (hooked st)
                    (next_kyber st + 1) (effects st)).

Definition bind (native kyber : Z) (st : EntityManager) : EntityManager := set_bindings (m_bindings st ++ [(native, kyber)]) st.

(** [CreateEntity(params, data)]: [created] is what the game's creator gives, 0 for
    null. A missing creator is an empty function, which throws when called. *)
Definition CreateEntity (created data : Z) (st : EntityManager) : result (Z * EntityManager) :=
  let typeInfo := getType data in
  if typeInfo =? 0 then Ok (0, st) else
  let name := getName typeInfo in
  let st := if scripts then effect (Fired (bstr "EntityFactory:Create:" ++ name) data) st else st in
  let isOverrideCreator := IsOverrideCreator name in
  if negb isOverrideCreator && negb (bool_decide (typeInfo ∈ m_createdTypeInfo st)) then Ok (0, st) else
  if created =? 0 then Ok (0, st) else
  wants ← of_option Thrown (m_creators name);
  let '(o, st) := hook_entity created st in
  let '(kyber, st) := new_kyber
    (mkKyber created data (isKindOf typeInfo (bstr "SpatialEntityData")) true (wants data) (if isOverrideCreator then NoOrig else o)) st in
  Ok (created, bind created kyber st).

Definition OnEntityCreated (native : Z) (st : EntityManager) : EntityManager :=
  if IsComponent native then st else
  let data := entityData native in
  if data =? 0 then st else
  let dataType := getType data in
  if bool_decide (dataType ∈ m_createdTypeInfo st) then st else
  match m_creators (getName dataType) with
  | None => st
  | Some wants =>
    match GetKyberEntity native st with
    | Some _ => st
    | None =>
      let '(o, st) := hook_entity native st in
      let '(kyber, st) := new_kyber (mkKyber native data false true (wants data) o) st in
      bind native kyber st
    end
  end.

Definition set_initialized (b : bool) (k : KyberEntity) : KyberEntity :=
  mkKyber (m_nativeEntity k) (m_data k) (m_isSpatialEntity k) b (m_wantUpdates k) (m_orig k).

(** A call of an original function; a hook as the original calls itself. *)
Definition call_orig (k : KyberEntity) (e : Effect) (st : EntityManager) : result EntityManager :=
  match m_orig k with NoOrig => Ok st | GameFn => Ok (effect e st) | HookFn => Fault Undefined end.

(** The object a hook finds; one that was deleted cannot be called. *)
Definition with_kyber (native : Z) (f : Z -> KyberEntity -> EntityManager -> result EntityManager) (st : EntityManager)
    : result EntityManager :=
  match GetKyberEntity native st with
  | None => Ok st
  | Some kyber => k ← of_option Undefined (kybers st !! kyber); f kyber k st
  end.

(** [EntityManagerOnDestroyHk] with [KyberEntityBase::OnDestroy] and the deletion. *)
Definition EntityManagerOnDestroyHk (native : Z) (st : EntityManager) : result EntityManager :=
  with_kyber native (fun kyber k st =>
    let st := set_kybers (<[kyber := set_initialized false k]> (kybers st)) st in
    st ← call_orig k (OrigOnDestroy (m_nativeEntity k)) st;
    let st := RemoveEntity native st in
    Ok (set_hooked (hooked st ∖ {[native]}) (set_kybers (delete kyber (kybers st)) st))) st.

Definition EntityManagerEventHk (native event : Z) (st : EntityManager) : result EntityManager :=
  with_kyber native (fun kyber _ st => Ok (effect (Evented kyber event) st)) st.

Definition EntityManagerPropertyChangedHk (native modification : Z) (st : EntityManager) : result EntityManager :=
  with_kyber native (fun kyber _ st => Ok (effect (Changed kyber modification) st)) st.

Definition EntityManagerDeinitHk (native info : Z) (st : EntityManager) : result EntityManager :=
  with_kyber native (fun kyber k st =>
    let st := set_kybers (<[kyber := set_initialized false k]> (kybers st)) st in
    call_orig k (OrigDeinit (m_nativeEntity k) info) st) st.

(** What an [Update] makes the game do while [UpdateEntities] walks the bindings:
    any change of the vector is undefined. *)
Inductive Reaction := CreatesEntity (created data : Z) | DestroysEntity (native : Z).
Context (Update : Z -> list Reaction).

Definition react (st : EntityManager) (r : Reaction) : result EntityManager :=
  match r with
  | CreatesEntity created data =>
    '(_, st') ← CreateEntity created data st;
    if bool_decide (m_bindings st' = m_bindings st) then Ok st' else Fault Undefined
  | DestroysEntity native =>
    st' ← EntityManagerOnDestroyHk native st;
    if bool_decide (m_bindings st' = m_bindings st) then Ok st' else Fault Undefined
  end.

Definition update_binding (realm : Z) (st : EntityManager) (b : Z * Z) : result EntityManager :=
  k ← of_option Undefined (kybers st !! b.2);
  if negb (m_wantUpdates k) || negb (m_isInitialized k) then Ok st else
  if negb (GetRealm b.1 =? realm) then Ok st else
  foldM react (effect (Updated b.2) st) (Update b.2).

Definition UpdateEntities (realm : Z) (st : EntityManager) : result EntityManager :=
  foldM (update_binding realm) st (m_bindings st).

(** *** Histories *)

Inductive call :=
  | Creates (created data : Z) | Made (native : Z) | Destroys (native : Z) | Deinits (native info : Z)
  | Events (native event : Z) | Changes (native modification : Z) | Frame (realm : Z).

Definition step (st : EntityManager) (c : call) : result EntityManager :=
  match c with
  | Creates created data => '(_, st) ← CreateEntity created data st; Ok st
  | Made native => Ok (OnEntityCreated native st)
  | Destroys native => EntityManagerOnDestroyHk native st
  | Deinits native info => EntityManagerDeinitHk native info st
  | Events native event => EntityManagerEventHk native event st
  | Changes native modification => EntityManagerPropertyChangedHk native modification st
  | Frame realm => UpdateEntities realm st
  end.

Inductive runs : EntityManager -> list call -> EntityManager -> Prop :=
  | runs_nil st : runs st [] st
  | runs_cons st c h st1 st2 :
      (** An entity the game creates is a new object. *)
      (match c with Creates created _ => created ∉ (m_bindings st).*1 | _ => True end) ->
      step st c = Ok st1 -> runs st1 h st2 -> runs st (c :: h) st2.

(** Every binding is of an entity of its own with an object that is alive and
    knows it; the hooks of an entity never call themselves; an object that is
    alive is bound; the entities with hooks are those that are bound. *)
Record entities_ok (st : EntityManager) : Prop := {
  eo_distinct : NoDup (m_bindings st).*1;
  eo_alive n k : (n, k) ∈ m_bindings st -> exists e, kybers st !! k = Some e /\ m_nativeEntity e = n /\ m_orig e <> HookFn;
  eo_bound k e : kybers st !! k = Some e -> (m_nativeEntity e, k) ∈ m_bindings st;
  eo_next k : next_kyber st <= k -> kybers st !! k = None;
  eo_hooked n : n ∈ hooked st <-> n ∈ (m_bindings st).*1;
}.

Lemma find_binding_Some n l k : find_binding n l = Some k -> (n, k) ∈ l.
Proof.
  induction l as [|[n' k'] l IH]; [done|]. cbn. destruct (Z.eqb_spec n' n) as [->|]; [intros [= ->]; by left|].
  intros H. right. by apply IH.
Qed.

Lemma find_binding_None n l : find_binding n l = None <-> n ∉ l.*1.
Proof.
  induction l as [|[n' k'] l IH]; cbn; [split; [intros _; apply not_elem_of_nil|done]|].
  rewrite not_elem_of_cons. destruct (Z.eqb_spec n' n) as [->|Hne]; [naive_solver|]. rewrite IH. naive_solver.
Qed.

Lemma bound_elem n l : n ∈ (l : list (Z * Z)).*1 <-> exists k, (n, k) ∈ l.
Proof.
  rewrite list_elem_of_fmap. split; [intros ([n' k] & -> & H); by exists k|]. intros [k H]. by exists (n, k).
Qed.

Lemma entities_ok_effect e st : entities_ok st -> entities_ok (effect e st).
Proof. by intros []. Qed.

(** A new entity with its object. *)
Lemma entities_ok_bind native k st :
  entities_ok st -> native ∉ (m_bindings st).*1 -> m_nativeEntity k = native -> m_orig k <> HookFn ->
  entities_ok (bind native (next_kyber st) (new_kyber k (set_hooked ({[native]} ∪ hooked st) st)).2).
Proof.
  intros [Hd Ha Hb Hn Hh] Hnew Hk Ho. split; cbn.
  - rewrite fmap_app. apply list.NoDup_app. split; [done|]. split; [|apply NoDup_singleton].
    intros n Hin ->%list_elem_of_singleton. done.
  - intros n kp [H|H%list_elem_of_singleton]%elem_of_app.
    + destruct (Ha _ _ H) as (e & He & Hrest). exists e. split; [|done]. rewrite lookup_insert_ne; [done|].
      intros <-. by rewrite Hn in He by lia.
    + injection H as -> ->. exists k. by rewrite lookup_insert_eq.
  - intros kp e H. apply elem_of_app. destruct (decide (kp = next_kyber st)) as [->|Hne].
    + rewrite lookup_insert_eq in H. injection H as <-. right. apply list_elem_of_singleton. by rewrite Hk.
    + rewrite lookup_insert_ne in H by done. left. by apply Hb.
  - intros kp Hkp. rewrite lookup_insert_ne by lia. apply Hn. lia.
  - intros n. rewrite fmap_app, elem_of_app, elem_of_union, elem_of_singleton, Hh. cbn. rewrite list_elem_of_singleton. tauto.
Qed.

Lemma entities_ok_update kyber k k' st :
  entities_ok st -> kybers st !! kyber = Some k -> m_nativeEntity k' = m_nativeEntity k -> m_orig k' = m_orig k ->
  entities_ok (set_kybers (<[kyber := k']> (kybers st)) st).
Proof.
  intros [Hd Ha Hb Hn Hh] Hk Hnat Ho. split; cbn; try done.
  - intros n kp H. destruct (Ha _ _ H) as (e & He & He1 & He2). destruct (decide (kp = kyber)) as [->|].
    + rewrite lookup_insert_eq. exists k'. rewrite He in Hk. injection Hk as <-. by rewrite Hnat, Ho.
    + rewrite lookup_insert_ne by done. by exists e.
  - intros kp e H. destruct (decide (kp = kyber)) as [->|].
    + rewrite lookup_insert_eq in H. injection H as <-. rewrite Hnat. by apply Hb.
    + rewrite lookup_insert_ne in H by done. by apply Hb.
  - intros kp Hkp. rewrite lookup_insert_ne; [by apply Hn|]. intros <-. by rewrite Hn in Hk by done.
Qed.

Lemma filter_fst_ne n (l : list (Z * Z)) x : x ∈ (base.filter (fun b => b.1 <> n) l).*1 <-> x ∈ l.*1 /\ x <> n.
Proof.
  rewrite !bound_elem. split.
  - intros [k [H1 H2]%list_elem_of_filter]. split; [by exists k|done].
  - intros [[k H] Hne]. exists k. by apply list_elem_of_filter.
Qed.

Lemma NoDup_filter_fst n (l : list (Z * Z)) : NoDup l.*1 -> NoDup (base.filter (fun b => b.1 <> n) l).*1.
Proof.
  induction l as [|b l IH]; [done|]. intros Hnd. rewrite fmap_cons in Hnd.
  apply list.NoDup_cons in Hnd as [Hb Hl]. destruct (decide (b.1 <> n)).
  - rewrite list.filter_cons_True by done. rewrite fmap_cons. constructor; [|auto]. rewrite filter_fst_ne. tauto.
  - rewrite list.filter_cons_False by done. auto.
Qed.

(** The binding of an entity and its object go together. *)
Lemma entities_ok_remove native kyber k st :
  entities_ok st -> (native, kyber) ∈ m_bindings st -> kybers st !! kyber = Some k ->
  entities_ok (set_hooked (hooked st ∖ {[native]}) (set_kybers (delete kyber (kybers st)) (RemoveEntity native st))).
Proof.
  intros [Hd Ha Hb Hn Hh] Hin Hk. split; cbn.
  - by apply NoDup_filter_fst.
  - intros n kp [H1 H2]%list_elem_of_filter. destruct (Ha _ _ H2) as (e & He & He1 & He2). exists e.
    split; [|done]. rewrite lookup_delete_ne; [done|]. intros <-. cbn in H1. apply H1.
    destruct (Ha _ _ Hin) as (e' & He' & He1' & _). congruence.
  - intros kp e H. destruct (decide (kp = kyber)) as [->|]; [by rewrite lookup_delete_eq in H|].
    rewrite lookup_delete_ne in H by done. apply list_elem_of_filter. split; [|by apply Hb]. cbn. intros He.
    apply Hb in H. rewrite He in H.
    assert (Heq : (native, kp) = (native, kyber)).
    { apply list_elem_of_lookup in H as [i Hi]. apply list_elem_of_lookup in Hin as [j Hj].
      assert (i = j) as ->; [|congruence]. eapply NoDup_lookup; [exact Hd| |]; rewrite list_lookup_fmap; [by rewrite Hi|by rewrite Hj]. }
    congruence.
  - intros kp Hkp. destruct (decide (kp = kyber)) as [->|]; [apply lookup_delete_eq|]. rewrite lookup_delete_ne by done. by apply Hn.
  - intros n. rewrite elem_of_difference, elem_of_singleton, filter_fst_ne, Hh. tauto.
Qed.

Lemma call_orig_ok k e st : m_orig k <> HookFn -> exists st', call_orig k e st = Ok st' /\ (st' = st \/ st' = effect e st).
Proof. unfold call_orig. destruct (m_orig k); [by eexists; eauto..|done]. Qed.

Lemma found_alive native kyber st :
  entities_ok st -> GetKyberEntity native st = Some kyber ->
  (native, kyber) ∈ m_bindings st /\ exists k, kybers st !! kyber = Some k /\ m_nativeEntity k = native /\ m_orig k <> HookFn.
Proof. intros H Hf%find_binding_Some. split; [done|]. by apply H. Qed.

Lemma CreateEntity_ok created data st r :
  entities_ok st -> created ∉ (m_bindings st).*1 -> CreateEntity created data st = Ok r -> entities_ok r.2.
Proof.
  intros H Hnew Hc. unfold CreateEntity in Hc. destruct (getType data =? 0); [by injection Hc as <-|].
  set (st1 := if scripts then _ else st) in Hc.
  assert (H1 : entities_ok st1) by (unfold st1; destruct scripts; [by apply entities_ok_effect|done]).
  assert (Hb1 : m_bindings st1 = m_bindings st) by (unfold st1; by destruct scripts). rewrite <- Hb1 in Hnew.
  destruct (_ && _); [by injection Hc as <-|]. destruct (created =? 0); [by injection Hc as <-|].
  destruct (m_creators _) as [wants|]; [|done]. cbn [of_option mbind result_bind hook_entity] in Hc. injection Hc as <-. cbn [snd].
  apply (entities_ok_bind created _ st1 H1 Hnew); [done|]. cbn.
  rewrite bool_decide_false; [by destruct (IsOverrideCreator _)|]. intros Hin. by apply Hnew, (eo_hooked _ H1).
Qed.

Lemma OnEntityCreated_ok native st : entities_ok st -> entities_ok (OnEntityCreated native st).
Proof.
  intros H. unfold OnEntityCreated. destruct (IsComponent native); [done|]. destruct (entityData native =? 0); [done|].
  destruct (bool_decide _); [done|]. destruct (m_creators _) as [wants|]; [|done].
  destruct (GetKyberEntity native st) eqn:E; [done|]. apply find_binding_None in E.
  apply (entities_ok_bind native _ st H E); [done|]. cbn. rewrite bool_decide_false; [done|]. intros Hin. by apply E, (eo_hooked _ H).
Qed.

(** A hook finds the object of a bound entity, and does nothing for others. *)
Lemma with_kyber_ok native f st :
  entities_ok st -> (forall kyber k, (native, kyber) ∈ m_bindings st -> kybers st !! kyber = Some k -> m_nativeEntity k = native ->
    m_orig k <> HookFn -> exists st', f kyber k st = Ok st' /\ entities_ok st') ->
  exists st', with_kyber native f st = Ok st' /\ entities_ok st'.
Proof.
  intros H Hf. unfold with_kyber. destruct (GetKyberEntity native st) as [kyber|] eqn:E; [|by exists st].
  destruct (found_alive _ _ _ H E) as (Hin & k & Hk & Hnat & Ho). rewrite Hk. cbn. by apply Hf.
Qed.

Lemma OnDestroy_ok native st : entities_ok st -> exists st', EntityManagerOnDestroyHk native st = Ok st' /\ entities_ok st'.
Proof.
  intros H. apply with_kyber_ok; [done|]. intros kyber k Hin Hk Hnat Ho.
  cbv zeta. set (st1 := set_kybers _ st). assert (H1 : entities_ok st1) by by eapply entities_ok_update.
  destruct (call_orig_ok k (OrigOnDestroy (m_nativeEntity k)) st1 Ho) as (st2 & -> & Hst2). eexists. split; [done|].
  assert (Hk1 : kybers st1 !! kyber = Some (set_initialized false k)) by apply lookup_insert_eq.
  destruct Hst2 as [-> | ->].
  - by apply (entities_ok_remove native kyber (set_initialized false k) st1).
  - apply (entities_ok_remove native kyber (set_initialized false k) (effect _ st1)); [by apply entities_ok_effect|done..].
Qed.

Lemma Deinit_ok native info st : entities_ok st -> exists st', EntityManagerDeinitHk native info st = Ok st' /\ entities_ok st'.
Proof.
  intros H. apply with_kyber_ok; [done|]. intros kyber k Hin Hk Hnat Ho.
  cbv zeta. set (st1 := set_kybers _ st). assert (H1 : entities_ok st1) by by eapply entities_ok_update.
  destruct (call_orig_ok k (OrigDeinit (m_nativeEntity k) info) st1 Ho) as (st2 & -> & [-> | ->]); eexists; (split; [done|]);
    [done|by apply entities_ok_effect].
Qed.

(** The walk over the bindings when the updates leave them alone. *)
Definition due (realm : Z) (st : EntityManager) (b : Z * Z) : bool :=
  match kybers st !! b.2 with Some k => m_wantUpdates k && m_isInitialized k && (GetRealm b.1 =? realm) | None => false end.

Definition add_effects (es : list Effect) (st : EntityManager) : EntityManager :=
  mkManager (m_createdTypeInfo st) (m_bindings st) (kybers st) (hooked st) (next_kyber st) (effects st ++ es).

Lemma update_walk realm l st :
  (forall k, Update k = []) -> (forall b, b ∈ l -> is_Some (kybers st !! b.2)) ->
  foldM (update_binding realm) st l = Ok (add_effects (map (fun b => Updated b.2) (base.filter (fun b => due realm st b = true) l)) st).
Proof.
  intros Hq. revert st. induction l as [|b l IH]; intros st Ha.
  - cbn. unfold add_effects. rewrite app_nil_r. by destruct st.
  - cbn [foldM]. destruct (Ha b) as [k Hk]; [by left|].
    assert (Hs : update_binding realm st b = Ok (add_effects (if due realm st b then [Updated b.2] else []) st)).
    { unfold update_binding, due. rewrite Hk, Hq. cbn [of_option mbind result_bind].
      destruct (m_wantUpdates k), (m_isInitialized k), (GetRealm b.1 =? realm); cbn; unfold add_effects;
        rewrite ?app_nil_r; by destruct st. }
    rewrite Hs, IH by (intros b' Hb'; apply Ha; by right).
    assert (Hdue : due realm (add_effects (if due realm st b then [Updated b.2] else []) st) = due realm st) by done.
    rewrite Hdue. unfold add_effects. cbn [m_createdTypeInfo m_bindings kybers hooked next_kyber effects]. rewrite <- app_assoc.
    destruct (due realm st b) eqn:E; [rewrite list.filter_cons_True by done|rewrite list.filter_cons_False by congruence]; done.
Qed.

(** *** What updates may do *)

(** A reaction that leaves the manager alone: nothing of the module's is created,
    and what is destroyed is not bound. *)
Definition harmless (st : EntityManager) (r : Reaction) : bool :=
  match r with
  | CreatesEntity created data => match CreateEntity created data st with Ok (entity, _) => entity =? 0 | Fault _ => false end
  | DestroysEntity native => bool_decide (native ∉ (m_bindings st).*1)
  end.

Definition fails {A} (r : result A) : Prop := exists e, r = Fault e.

Lemma add_effects_add es es' st : add_effects es' (add_effects es st) = add_effects (es ++ es') st.
Proof. unfold add_effects. cbn. by rewrite app_assoc. Qed.

Lemma add_effects_nil st : add_effects [] st = st.
Proof. unfold add_effects. rewrite app_nil_r. by destruct st. Qed.

Lemma entities_ok_add es st : entities_ok st -> entities_ok (add_effects es st).
Proof. by intros []. Qed.

Lemma harmless_add es st r : harmless (add_effects es st) r = harmless st r.
Proof.
  destruct r as [created data|native]; [|done]. unfold harmless, CreateEntity. destruct (getType data =? 0); [done|].
  replace (m_createdTypeInfo (if scripts then _ else add_effects es st)) with (m_createdTypeInfo st) by by destruct scripts.
  replace (m_createdTypeInfo (if scripts then _ else st)) with (m_createdTypeInfo st) by by destruct scripts.
  destruct (_ && _); [done|]. destruct (created =? 0); [done|]. by destruct (m_creators _).
Qed.

Lemma react_cases st r :
  if harmless st r then exists es, react st r = Ok (add_effects es st) else fails (react st r) \/ ~ entities_ok st.
Proof.
  destruct r as [created data|native]; cbn [harmless react].
  - unfold CreateEntity. set (st1 := if scripts then _ else st). assert (H1 : exists es, st1 = add_effects es st).
    { unfold st1. destruct scripts; [by eexists [_]|]. exists []. by rewrite add_effects_nil. }
    destruct H1 as [es H1]. clearbody st1. subst st1. assert (Hb : forall es', m_bindings (add_effects es' st) = m_bindings st) by done.
    destruct (getType data =? 0); cbn [mbind result_bind Z.eqb].
    { exists []. by rewrite bool_decide_true, add_effects_nil. }
    destruct (_ && _); cbn [mbind result_bind Z.eqb]; [exists es; by rewrite bool_decide_true|].
    destruct (created =? 0) eqn:E0; cbn [mbind result_bind Z.eqb]; [exists es; by rewrite bool_decide_true|].
    destruct (m_creators _) as [wants|]; cbn [of_option mbind result_bind hook_entity new_kyber]; [|left; by eexists].
    rewrite E0. left. eexists. rewrite bool_decide_false; [done|]. cbn. intros Heq. apply (f_equal length) in Heq.
    rewrite length_app in Heq. cbn in Heq. lia.
  - unfold EntityManagerOnDestroyHk, with_kyber, GetKyberEntity. case_bool_decide as Hn.
    + rewrite (proj2 (find_binding_None _ _) Hn). cbn. exists []. by rewrite bool_decide_true, add_effects_nil.
    + destruct (find_binding native (m_bindings st)) as [kyber|] eqn:Ef; [|by apply find_binding_None in Ef].
      destruct (kybers st !! kyber) as [k|]; cbn [of_option mbind result_bind]; [|left; by eexists].
      unfold call_orig. destruct (m_orig k); cbn [mbind result_bind]; [..|left; by eexists];
        (left; eexists; rewrite bool_decide_false; [done|]; cbn; intros Heq; rewrite <- Heq in Hn; by apply filter_fst_ne in Hn as [_ ?]).
Qed.

Lemma reacts_cases st l :
  entities_ok st ->
  if forallb (harmless st) l then exists es, foldM react st l = Ok (add_effects es st) else fails (foldM react st l).
Proof.
  revert st. induction l as [|r l IH]; intros st H; cbn [forallb foldM]; [exists []; by rewrite add_effects_nil|].
  pose proof (react_cases st r) as Hr. destruct (harmless st r); cbn [andb].
  - destruct Hr as [es ->]. specialize (IH (add_effects es st) (entities_ok_add _ _ H)).
    rewrite (forallb_ext (harmless (add_effects es st)) (harmless st)) in IH by apply harmless_add.
    destruct (forallb _ l); [|done]. destruct IH as [es' ->]. exists (es ++ es'). by rewrite add_effects_add.
  - destruct Hr as [[e ->]|]; [by eexists|done].
Qed.

(** Whether the frame's call of an object leaves the manager alone. *)
Definition calm (realm : Z) (st : EntityManager) (b : Z * Z) : bool := negb (due realm st b) || forallb (harmless st) (Update b.2).

Lemma calm_add realm es st b : calm realm (add_effects es st) b = calm realm st b.
Proof. unfold calm. f_equal. apply forallb_ext, harmless_add. Qed.

Lemma walk_cases realm l st :
  entities_ok st -> (forall b, b ∈ l -> is_Some (kybers st !! b.2)) ->
  if forallb (calm realm st) l then exists es, foldM (update_binding realm) st l = Ok (add_effects es st)
  else fails (foldM (update_binding realm) st l).
Proof.
  revert st. induction l as [|b l IH]; intros st H Ha; cbn [forallb foldM]; [exists []; by rewrite add_effects_nil|].
  destruct (Ha b) as [k Hk]; [by left|].
  assert (Hb : if calm realm st b then exists es, update_binding realm st b = Ok (add_effects es st) else fails (update_binding realm st b)).
  { unfold calm, update_binding, due. rewrite Hk. cbn [of_option mbind result_bind].
    pose proof (reacts_cases (add_effects [Updated b.2] st) (Update b.2) (entities_ok_add _ _ H)) as Hr.
    rewrite (forallb_ext (harmless (add_effects [Updated b.2] st)) (harmless st)) in Hr by apply harmless_add.
    destruct (m_wantUpdates k), (m_isInitialized k), (GetRealm b.1 =? realm); cbn [negb orb andb];
      try (exists []; by rewrite add_effects_nil).
    change (effect (Updated b.2) st) with (add_effects [Updated b.2] st).
    destruct (forallb _ _); [|done]. destruct Hr as [es ->]. eexists. by rewrite add_effects_add. }
  destruct (calm realm st b); cbn [andb]; [|by destruct Hb as [e ->]; eexists]. destruct Hb as [es ->].
  specialize (IH (add_effects es st) (entities_ok_add _ _ H)).
  rewrite (forallb_ext (calm realm (add_effects es st)) (calm realm st)) in IH by apply calm_add.
  assert (Hl : forall b', b' ∈ l -> is_Some (kybers (add_effects es st) !! b'.2)) by (intros b' Hb'; apply Ha; by right).
  specialize (IH Hl). destruct (forallb _ l); [|done]. destruct IH as [es' ->]. exists (es ++ es'). by rewrite add_effects_add.
Qed.

(** A frame completes exactly when no update creates or destroys an entity of the
    module's. *)
Lemma frame_cases realm st :
  entities_ok st ->
  if forallb (calm realm st) (m_bindings st) then exists es, UpdateEntities realm st = Ok (add_effects es st)
  else fails (UpdateEntities realm st).
Proof.
  intros H. apply walk_cases; [done|]. intros [n k] Hb. destruct (eo_alive _ H _ _ Hb) as (e & He & _). by exists e.
Qed.

Lemma step_ok st c st' :
  entities_ok st -> (match c with Creates created _ => created ∉ (m_bindings st).*1 | _ => True end) ->
  step st c = Ok st' -> entities_ok st'.
Proof.
  intros H Hnew Hs. destruct c as [created data|native|native|native info|native event|native modif|realm]; cbn in Hs.
  - destruct (CreateEntity created data st) as [r|] eqn:E; [|done]. cbn in Hs. destruct r as [p st1]. injection Hs as <-.
    by apply (CreateEntity_ok _ _ _ _ H Hnew E).
  - injection Hs as <-. by apply OnEntityCreated_ok.
  - destruct (OnDestroy_ok native st H) as (st1 & E & H1). congruence.
  - destruct (Deinit_ok native info st H) as (st1 & E & H1). congruence.
  - unfold EntityManagerEventHk in Hs. edestruct (with_kyber_ok native) as (st1 & E & H1); [exact H| |rewrite E in Hs; by injection Hs as <-].
    intros kyber k _ _ _ _. eexists. split; [done|]. by apply entities_ok_effect.
  - unfold EntityManagerPropertyChangedHk in Hs. edestruct (with_kyber_ok native) as (st1 & E & H1); [exact H| |rewrite E in Hs; by injection Hs as <-].
    intros kyber k _ _ _ _. eexists. split; [done|]. by apply entities_ok_effect.
  - pose proof (frame_cases realm st H) as Hf. rewrite Hs in Hf. destruct (forallb _ _).
    + destruct Hf as [es [= ->]]. by apply entities_ok_add.
    + by destruct Hf as [e ?].
Qed.

Lemma entities_new types : entities_ok (EntityManager_new types).
Proof.
  split; cbn; [apply NoDup_nil_2|intros ?? H; by apply elem_of_nil in H|done|done|].
  intros n. split; intros H; [by apply elem_of_empty in H|by apply elem_of_nil in H].
Qed.

Lemma runs_ok st h st' : runs st h st' -> entities_ok st -> entities_ok st'.
Proof. induction 1 as [|st c h st1 st2 Hc Hs _ IH]; [done|]. intros H. apply IH. by eapply step_ok. Qed.


Lemma find_binding_elem n k l : NoDup l.*1 -> (n, k) ∈ l -> find_binding n l = Some k.
Proof.
  induction l as [|[n' k'] l IH]; intros Hd Hin; [by apply elem_of_nil in Hin|]. cbn. rewrite fmap_cons in Hd.
  apply list.NoDup_cons in Hd as [Hn Hd]. apply elem_of_cons in Hin as [[= -> ->]|Hin]; [by rewrite Z.eqb_refl|].
  destruct (Z.eqb_spec n' n) as [->|]; [|by apply IH]. exfalso. apply Hn, bound_elem. by exists k.
Qed.

(** The destruction of an entity with an object calls the game's own function
    once (an overridden entity's never), deletes the object and unbinds the
    entity, and the other objects stay; a second notice does nothing. In a frame
    each object that wants updates, is initialised and is in the realm is
    updated once, in the order of the bindings. *)
Theorem entity_destroyed_once types h st native kyber k :
  (forall k, Update k = []) -> runs (EntityManager_new types) h st -> (native, kyber) ∈ m_bindings st -> kybers st !! kyber = Some k ->
  (exists st', EntityManagerOnDestroyHk native st = Ok st' /\
    effects st' = effects st ++ (if decide (m_orig k = NoOrig) then [] else [OrigOnDestroy native]) /\
    kybers st' = delete kyber (kybers st) /\ (native ∉ (m_bindings st').*1) /\ EntityManagerOnDestroyHk native st' = Ok st') /\
  forall realm, UpdateEntities realm st =
    Ok (add_effects (map (fun b => Updated b.2) (base.filter (fun b => due realm st b = true) (m_bindings st))) st).
Proof.
  intros Hq Hr Hin Hk. pose proof (runs_ok _ _ _ Hr (entities_new types)) as H. split.
  - destruct (eo_alive _ H _ _ Hin) as (e & He & Hnat & Ho). rewrite Hk in He. injection He as <-.
    unfold EntityManagerOnDestroyHk at 1, with_kyber at 1, GetKyberEntity. rewrite (find_binding_elem _ _ _ (eo_distinct _ H) Hin), Hk.
    cbn [of_option mbind result_bind]. unfold call_orig. rewrite Hnat.
    destruct (m_orig k) eqn:Eo; [rewrite decide_True by done|rewrite decide_False by done|done]; eexists; (split; [done|]); cbn.
    + rewrite app_nil_r. split; [done|]. split; [apply delete_insert_eq|]. split; [rewrite filter_fst_ne; tauto|].
      unfold EntityManagerOnDestroyHk, with_kyber, GetKyberEntity. cbn. rewrite (proj2 (find_binding_None _ _)); [done|].
      rewrite filter_fst_ne. tauto.
    + split; [done|]. split; [apply delete_insert_eq|]. split; [rewrite filter_fst_ne; tauto|].
      unfold EntityManagerOnDestroyHk, with_kyber, GetKyberEntity. cbn. rewrite (proj2 (find_binding_None _ _)); [done|].
      rewrite filter_fst_ne. tauto.
  - intros realm. apply update_walk; [done|]. intros [n kp] Hb. destruct (eo_alive _ H _ _ Hb) as (e & He & _). by exists e.
Qed.

End manager.

(** *** A game with two types *)





End Bindings.

(** ** Types of the module *)

Module TypeRegistry.

Record KyberTypeInfoFieldData := mkFieldData { typeName : list byte; fd_name : list byte; fd_isArray : bool }.
Record KyberTypeInfo := mkTypeInfo { m_name : list byte; m_parentName : list byte; m_hasParent : bool; m_fields : list KyberTypeInfoFieldData }.

(** [EntityData] has no default instance; [dummyData] stands in for it. *)
Definition KyberTypeInfo_new (name : list byte) (parent : option (list byte)) : KyberTypeInfo :=
  match parent with
  | None => mkTypeInfo name [] false []
  | Some p => mkTypeInfo name (if bool_decide (p = bstr "EntityData") then bstr "dummyData" else p) true []
  end.

Definition AddField (typeName name : list byte) (isArray : bool) (info : KyberTypeInfo) : KyberTypeInfo :=
  mkTypeInfo (m_name info) (m_parentName info) (m_hasParent info) (m_fields info ++ [mkFieldData typeName name isArray]).

Definition GetParentName (info : KyberTypeInfo) : option (list byte) := if m_hasParent info then Some (m_parentName info) else None.

(** A reference to a type: the type itself, 0 for none, or one of the assets by its
    position. *)
Record TypeRef := mkTypeRef { TypeInfo : Z; Asset : option nat }.
Record TypeInfoFieldData := mkField { TypeRef_of : TypeRef; Name : list byte; IsArray : bool }.
Record ClassInfoAsset := mkAsset { instanceGuid : Guid; TypeName : list byte; Fields : list TypeInfoFieldData; SuperClassRef : TypeRef }.

(** A field that waits is known by its asset and its position within it. *)
Record EntityManager := mkManager {
  m_guids : list Guid; m_classInfoAssets : list ClassInfoAsset;
  m_classesPendingParentAssignment : list (list byte * nat); m_fieldsPendingTypeAssignment : list (list byte * (nat * nat));
  m_builtTypes : gmap Guid Z; m_createdTypeInfo : list Z; m_createdTypeInfoByName : gmap (list byte) Z;
  m_createdTypeInfoByGuid : gmap Guid Z; m_nativeTypeInfo : gmap (list byte) Z; m_nativeTypeInfoGuidMap : gmap Guid Z }.

Definition EntityManager_new : EntityManager := mkManager [] [] [] [] ∅ [] ∅ ∅ ∅ ∅.

Definition set_assets a (st : EntityManager) : EntityManager :=
  mkManager (m_guids st) a (m_classesPendingParentAssignment st) (m_fieldsPendingTypeAssignment st) (m_builtTypes st) (m_createdTypeInfo st)
    (m_createdTypeInfoByName st) (m_createdTypeInfoByGuid st) (m_nativeTypeInfo st) (m_nativeTypeInfoGuidMap st).

(** The last type under a name stays. *)
Definition RegisterNativeTypeInfo (all : list (list byte * Z)) (st : EntityManager) : EntityManager :=
  mkManager (m_guids st) (m_classInfoAssets st) (m_classesPendingParentAssignment st) (m_fieldsPendingTypeAssignment st) (m_builtTypes st)
    (m_createdTypeInfo st) (m_createdTypeInfoByName st) (m_createdTypeInfoByGuid st)
    (foldl (fun m e => <[e.1 := e.2]> m) (m_nativeTypeInfo st) all) (m_nativeTypeInfoGuidMap st).

Definition native_type (name : list byte) (st : EntityManager) : Z := default 0 (m_nativeTypeInfo st !! name).

Definition CreateFieldData (name : list byte) (asset : option nat) (type : Z) (isArray : bool) : TypeInfoFieldData :=
  mkField (mkTypeRef type asset) name isArray.

(** [guid] is what [Guid::Generate] gives. *)
Definition CreateClassInfoAsset (guid : Guid) (info : KyberTypeInfo) (st : EntityManager) : EntityManager :=
  let n := length (m_classInfoAssets st) in
  let fields := map (fun f => CreateFieldData (fd_name f) None (native_type (typeName f) st) (fd_isArray f)) (m_fields info) in
  let pendingFields := omap (fun '(i, f) => if native_type (typeName f) st =? 0 then Some (typeName f, (n, i)) else None)
                         (imap pair (m_fields info)) in
  let '(parentType, pendingParent) :=
    match GetParentName info with
    | None => (0, [])
    | Some p => match m_nativeTypeInfo st !! p with Some t => (t, []) | None => (0, [(p, n)]) end
    end in
  mkManager (m_guids st ++ [guid]) (m_classInfoAssets st ++ [mkAsset guid (CopyWithArena (m_name info)) fields (mkTypeRef parentType None)])
    (m_classesPendingParentAssignment st ++ pendingParent) (m_fieldsPendingTypeAssignment st ++ pendingFields) (m_builtTypes st)
    (m_createdTypeInfo st) (m_createdTypeInfoByName st) (m_createdTypeInfoByGuid st) (m_nativeTypeInfo st) (m_nativeTypeInfoGuidMap st).

Definition set_super (a : nat) (x : ClassInfoAsset) : ClassInfoAsset :=
  mkAsset (instanceGuid x) (TypeName x) (Fields x) (mkTypeRef (TypeInfo (SuperClassRef x)) (Some a)).
Definition set_type_ref (a : nat) (f : TypeInfoFieldData) : TypeInfoFieldData :=
  mkField (mkTypeRef (TypeInfo (TypeRef_of f)) (Some a)) (Name f) (IsArray f).
Definition set_field (i a : nat) (x : ClassInfoAsset) : ClassInfoAsset :=
  mkAsset (instanceGuid x) (TypeName x) (alter (set_type_ref a) i (Fields x)) (SuperClassRef x).

(** Every candidate of the name is assigned in turn. *)
Definition candidates (ref : list byte) (assets : list ClassInfoAsset) : list nat :=
  omap (fun '(i, x) => if bool_decide (TypeName x = c_str ref) then Some i else None) (imap pair assets).

Definition assign_parent (st : EntityManager) (pending : list byte * nat) : EntityManager :=
  set_assets (foldl (fun assets a => alter (set_super a) pending.2 assets) (m_classInfoAssets st)
                (candidates pending.1 (m_classInfoAssets st))) st.
Definition assign_field (st : EntityManager) (pending : list byte * (nat * nat)) : EntityManager :=
  set_assets (foldl (fun assets a => alter (set_field pending.2.2 a) pending.2.1 assets) (m_classInfoAssets st)
                (candidates pending.1 (m_classInfoAssets st))) st.

(** The part of [RegisterTypes] before the types are built. *)
Definition PrepareTypes (all : list (list byte * Z)) (guids : nat -> Guid) (infos : list KyberTypeInfo) (st : EntityManager) : EntityManager :=
  let st := RegisterNativeTypeInfo all st in
  let st := foldl (fun st '(i, info) => CreateClassInfoAsset (guids i) info st) st (imap pair infos) in
  let st := foldl assign_parent st (m_classesPendingParentAssignment st) in
  foldl assign_field st (m_fieldsPendingTypeAssignment st).

Definition IsGuidUsed (guid : Guid) (st : EntityManager) : bool := bool_decide (guid ∈ m_guids st).

Definition HasCustomType (name : list byte) (st : EntityManager) : bool :=
  existsb (fun x => negb (bool_decide (TypeName x = c_str name))) (m_classInfoAssets st).

Definition CreatedTypeExists (guid : Guid) (st : EntityManager) : bool :=
  existsb (fun x => bool_decide (instanceGuid x = guid)) (m_classInfoAssets st).
Definition GetClassInfoAsset (guid : Guid) (st : EntityManager) : option ClassInfoAsset :=
  List.find (fun x => bool_decide (instanceGuid x = guid)) (m_classInfoAssets st).
Definition GetBuiltType (guid : Guid) (st : EntityManager) : Z := default 0 (m_builtTypes st !! guid).
Definition GetCreatedType (guid : Guid) (st : EntityManager) : Z := default 0 (m_createdTypeInfoByGuid st !! guid).
Definition GetNativeType (name : list byte) (st : EntityManager) : Z := native_type name st.
Definition GetNativeTypeByGuid (guid : Guid) (st : EntityManager) : Z := default 0 (m_nativeTypeInfoGuidMap st !! guid).

Definition AddBuiltType (guid : Guid) (type : Z) (st : EntityManager) : EntityManager :=
  mkManager (m_guids st) (m_classInfoAssets st) (m_classesPendingParentAssignment st) (m_fieldsPendingTypeAssignment st)
    (<[guid := type]> (m_builtTypes st)) (m_createdTypeInfo st) (m_createdTypeInfoByName st) (m_createdTypeInfoByGuid st)
    (m_nativeTypeInfo st) (m_nativeTypeInfoGuidMap st).

(** The name of a type the module made wins over the game's. *)
Definition InternalCreateContainer (createInstance : Z -> Z) (name : list byte) (st : EntityManager) : Z :=
  match m_createdTypeInfoByName st !! name with
  | Some t => createInstance t
  | None => match m_nativeTypeInfo st !! name with Some t => createInstance t | None => 0 end
  end.

(** *** What names become *)

Section prepare.
Context (N : gmap (list byte) Z) (guids : nat -> Guid).

Definition parent_ref (info : KyberTypeInfo) : Z :=
  match GetParentName info with None => 0 | Some p => default 0 (N !! p) end.
Definition parents_of (i : nat) (info : KyberTypeInfo) : list (list byte * nat) :=
  match GetParentName info with None => [] | Some p => match N !! p with Some _ => [] | None => [(p, i)] end end.
Definition field_of (f : KyberTypeInfoFieldData) : TypeInfoFieldData := CreateFieldData (fd_name f) None (default 0 (N !! typeName f)) (fd_isArray f).
Definition fields_from (n j : nat) (fs : list KyberTypeInfoFieldData) : list (list byte * (nat * nat)) :=
  omap (fun '(i, f) => if default 0 (N !! typeName f) =? 0 then Some (typeName f, (n, i)) else None) (imap (fun i f => ((j + i)%nat, f)) fs).
Definition asset_of (i : nat) (info : KyberTypeInfo) : ClassInfoAsset :=
  mkAsset (guids i) (CopyWithArena (m_name info)) (map field_of (m_fields info)) (mkTypeRef (parent_ref info) None).

(** The assets as they are made, and what waits. *)
Lemma create_all infos st n :
  m_nativeTypeInfo st = N -> length (m_classInfoAssets st) = n ->
  let st' := foldl (fun st '(i, info) => CreateClassInfoAsset (guids i) info st) st (imap (fun i info => ((n + i)%nat, info)) infos) in
  m_classInfoAssets st' = m_classInfoAssets st ++ imap (fun i => asset_of (n + i)) infos /\
  m_classesPendingParentAssignment st' = m_classesPendingParentAssignment st ++ concat (imap (fun i => parents_of (n + i)) infos) /\
  m_fieldsPendingTypeAssignment st' =
    m_fieldsPendingTypeAssignment st ++ concat (imap (fun i info => fields_from (n + i) 0 (m_fields info)) infos).
Proof.
  revert st n. induction infos as [|info infos IH]; intros st n HN Hn; [by rewrite !app_nil_r|].
  cbn [imap foldl concat]. rewrite Nat.add_0_r.
  assert (Himap : forall {B} (f : nat -> KyberTypeInfo -> B), imap ((fun i => f (n + i)%nat) ∘ S) infos = imap (fun i => f (S n + i)%nat) infos).
  { intros B f. apply imap_ext. intros j x _. cbn. by rewrite Nat.add_succ_r. }
  pose (st1 := CreateClassInfoAsset (guids n) info st).
  assert (H1 : m_nativeTypeInfo st1 = N /\ m_classInfoAssets st1 = m_classInfoAssets st ++ [asset_of n info] /\
    m_classesPendingParentAssignment st1 = m_classesPendingParentAssignment st ++ parents_of n info /\
    m_fieldsPendingTypeAssignment st1 = m_fieldsPendingTypeAssignment st ++ fields_from n 0 (m_fields info)).
  { unfold st1, CreateClassInfoAsset, native_type. rewrite HN, Hn. unfold asset_of, parents_of, parent_ref, fields_from, field_of, native_type.
    destruct (GetParentName info) as [p|]; [destruct (N !! p)|]; cbn; rewrite ?HN; by repeat split. }
  destruct H1 as (H1 & H2 & H3 & H4).
  destruct (IH st1 (S n) H1) as (E1 & E2 & E3); [by rewrite H2, length_app, Hn, Nat.add_1_r|].
  rewrite (Himap _ (fun i info => (i, info))), (Himap _ asset_of), (Himap _ parents_of), (Himap _ (fun i info => fields_from i 0 (m_fields info))).
  cbv zeta in E1, E2, E3. fold st1. rewrite E1, E2, E3, H2, H3, H4, <- !app_assoc. done.
Qed.
End prepare.

(** Assigning every candidate in turn leaves the last one. *)
Definition resolve {A} (f : nat -> A -> A) (l : list nat) (x : A) : A := match list.last l with None => x | Some a => f a x end.

Lemma alter_alter {A} (f g h : A -> A) i (xs : list A) : (forall x, f (g x) = h x) -> alter f i (alter g i xs) = alter h i xs.
Proof.
  intros Hf. apply list_eq. intros j. destruct (decide (i = j)) as [->|Hne]; [|by rewrite !list_lookup_alter_ne].
  rewrite !list_lookup_alter_eq. destruct (xs !! j) as [x|]; [|done]. exact (f_equal Some (Hf x)).
Qed.

Lemma alter_same {A} (f : A -> A) i (xs : list A) : (forall x, f x = x) -> alter f i xs = xs.
Proof.
  intros Hf. apply list_eq. intros j. destruct (decide (i = j)) as [->|Hne]; [|by rewrite list_lookup_alter_ne].
  rewrite list_lookup_alter_eq. destruct (xs !! j) as [x|]; [|done]. exact (f_equal Some (Hf x)).
Qed.

Lemma foldl_alter_last {A} (f : nat -> A -> A) i l (xs : list A) :
  (forall a b x, f a (f b x) = f a x) -> foldl (fun xs a => alter (f a) i xs) xs l = alter (resolve f l) i xs.
Proof.
  intros Hf. induction l as [|a l IH] using rev_ind; [symmetry; by apply alter_same|].
  rewrite foldl_app, IH. cbn [foldl]. apply alter_alter. intros x.
  unfold resolve. rewrite last_snoc. cbn. by destruct (list.last l).
Qed.

Definition names (assets : list ClassInfoAsset) : list (list byte) := TypeName <$> assets.
Definition indices (ref : list byte) (ns : list (list byte)) : list nat :=
  omap (fun '(i, n) => if bool_decide (n = c_str ref) then Some i else None) (imap pair ns).

Lemma candidates_names ref assets : candidates ref assets = indices ref (names assets).
Proof.
  unfold candidates, indices, names. rewrite imap_fmap.
  assert (H : forall k, omap (fun '(i, x) => if bool_decide (TypeName x = c_str ref) then Some i else None) (imap (fun i x => ((k + i)%nat, x)) assets)
    = omap (fun '(i, n) => if bool_decide (n = c_str ref) then Some i else None) (imap (fun i x => ((k + i)%nat, TypeName x)) assets)).
  { induction assets as [|x assets IH]; intros k; [done|]. cbn [imap].
    assert (Hi : forall {B} (g : nat -> ClassInfoAsset -> B), imap ((fun i => g (k + i)%nat) ∘ S) assets = imap (fun i => g (S k + i)%nat) assets).
    { intros B g. apply imap_ext. intros j y _. cbn. by rewrite Nat.add_succ_r. }
    cbn. rewrite (Hi _ (fun i x => (i, x))), (Hi _ (fun i x => (i, TypeName x))), (IH (S k)). done. }
  apply (H 0%nat).
Qed.

Lemma names_alter f i assets : (forall x, TypeName (f x) = TypeName x) -> names (alter f i assets) = names assets.
Proof.
  intros Hf. apply list_eq. intros j. unfold names. rewrite !list_lookup_fmap. destruct (decide (i = j)) as [->|Hne].
  - rewrite list_lookup_alter_eq. destruct (assets !! j); cbn; [by rewrite Hf|done].
  - by rewrite list_lookup_alter_ne.
Qed.

Lemma TypeName_resolve_super l x : TypeName (resolve set_super l x) = TypeName x.
Proof. unfold resolve. by destruct (list.last l). Qed.
Lemma TypeName_resolve_field j l x : TypeName (resolve (set_field j) l x) = TypeName x.
Proof. unfold resolve. by destruct (list.last l). Qed.

Lemma assign_parent_eq st p i :
  assign_parent st (p, i) = set_assets (alter (resolve set_super (indices p (names (m_classInfoAssets st)))) i (m_classInfoAssets st)) st.
Proof. unfold assign_parent. cbn [fst snd]. by rewrite candidates_names, foldl_alter_last. Qed.

Lemma set_type_ref_twice a b f : set_type_ref a (set_type_ref b f) = set_type_ref a f.
Proof. done. Qed.

Lemma assign_field_eq st p i j :
  assign_field st (p, (i, j)) = set_assets (alter (resolve (set_field j) (indices p (names (m_classInfoAssets st)))) i (m_classInfoAssets st)) st.
Proof.
  unfold assign_field. cbn [fst snd]. rewrite candidates_names, foldl_alter_last; [done|]. intros a b x. unfold set_field. cbn.
  f_equal. by apply alter_alter.
Qed.

(** The parents that wait, each resolved; nothing else changes. *)
Lemma assign_parents pend st :
  NoDup pend.*2 ->
  let st' := foldl assign_parent st pend in
  names (m_classInfoAssets st') = names (m_classInfoAssets st) /\
  m_fieldsPendingTypeAssignment st' = m_fieldsPendingTypeAssignment st /\
  (forall p i, (p, i) ∈ pend -> m_classInfoAssets st' !! i = resolve set_super (indices p (names (m_classInfoAssets st))) <$> m_classInfoAssets st !! i) /\
  (forall i, i ∉ pend.*2 -> m_classInfoAssets st' !! i = m_classInfoAssets st !! i).
Proof.
  revert st. induction pend as [|[p i] pend IH]; intros st Hd; cbv zeta; cbn [foldl].
  - repeat split; try done. intros p i H. by apply elem_of_nil in H.
  - rewrite fmap_cons in Hd. apply list.NoDup_cons in Hd as [Hi Hd]. cbn [snd] in Hi. rewrite assign_parent_eq.
    destruct (IH (set_assets (alter (resolve set_super (indices p (names (m_classInfoAssets st)))) i (m_classInfoAssets st)) st) Hd) as (H1 & H2 & H3 & H4).
    cbn [set_assets m_classInfoAssets m_fieldsPendingTypeAssignment] in *.
    rewrite names_alter in H1, H3 by (intros x; apply TypeName_resolve_super). repeat split; try done.
    + intros q j [[= -> ->]|Hin]%elem_of_cons; [by rewrite H4, list_lookup_alter_eq|]. rewrite (H3 _ _ Hin).
      rewrite list_lookup_alter_ne; [done|]. intros ->. apply Hi. apply list_elem_of_fmap. by exists (q, j).
    + intros j Hj. rewrite fmap_cons in Hj. apply not_elem_of_cons in Hj as [Hne Hj]. by rewrite H4, list_lookup_alter_ne by done.
Qed.

Definition field_at (assets : list ClassInfoAsset) (k : nat * nat) : option TypeInfoFieldData := assets !! k.1 ≫= fun x => Fields x !! k.2.

Lemma Fields_resolve j l x : Fields (resolve (set_field j) l x) = alter (resolve set_type_ref l) j (Fields x).
Proof. unfold resolve. destruct (list.last l); [done|]. symmetry. by apply alter_same. Qed.

Lemma field_at_alter i j l assets k :
  field_at (alter (resolve (set_field j) l) i assets) k =
  if decide (k = (i, j)) then resolve set_type_ref l <$> field_at assets k else field_at assets k.
Proof.
  unfold field_at. destruct k as [i' j']; cbn [fst snd]. destruct (decide (i' = i)) as [->|Hne].
  - rewrite list_lookup_alter_eq. destruct (assets !! i) as [x|]; cbn; [|by destruct (decide _)]. rewrite Fields_resolve.
    destruct (decide (j' = j)) as [->|Hne]; [rewrite decide_True by done; by rewrite list_lookup_alter_eq|].
    rewrite decide_False by congruence. by rewrite list_lookup_alter_ne.
  - rewrite list_lookup_alter_ne by done. by rewrite decide_False by congruence.
Qed.

(** The fields that wait, each resolved. *)
Lemma assign_fields pend st :
  NoDup pend.*2 ->
  let st' := foldl assign_field st pend in
  (forall i, (fun x => (instanceGuid x, TypeName x, SuperClassRef x)) <$> m_classInfoAssets st' !! i
             = (fun x => (instanceGuid x, TypeName x, SuperClassRef x)) <$> m_classInfoAssets st !! i) /\
  (forall p k, (p, k) ∈ pend -> field_at (m_classInfoAssets st') k = resolve set_type_ref (indices p (names (m_classInfoAssets st))) <$> field_at (m_classInfoAssets st) k) /\
  (forall k, k ∉ pend.*2 -> field_at (m_classInfoAssets st') k = field_at (m_classInfoAssets st) k).
Proof.
  revert st. induction pend as [|[p [i j]] pend IH]; intros st Hd; cbv zeta; cbn [foldl].
  - repeat split; try done. intros p i H. by apply elem_of_nil in H.
  - rewrite fmap_cons in Hd. apply list.NoDup_cons in Hd as [Hi Hd]. cbn [snd] in Hi. rewrite assign_field_eq.
    destruct (IH (set_assets (alter (resolve (set_field j) (indices p (names (m_classInfoAssets st)))) i (m_classInfoAssets st)) st) Hd) as (H1 & H3 & H4).
    cbn [set_assets m_classInfoAssets] in *. rewrite names_alter in H3 by (intros x; apply TypeName_resolve_field).
    split; [|split].
    + intros n. rewrite H1. destruct (decide (i = n)) as [->|Hne]; [|by rewrite list_lookup_alter_ne].
      rewrite list_lookup_alter_eq. destruct (m_classInfoAssets st !! n); cbn; [|done]. unfold resolve. by destruct (list.last _).
    + intros q k [[= -> ->]|Hin]%elem_of_cons; [by rewrite H4, field_at_alter, decide_True by done|]. rewrite (H3 _ _ Hin), field_at_alter.
      rewrite decide_False; [done|]. intros ->. apply Hi. apply list_elem_of_fmap. by exists (q, (i, j)).
    + intros k Hk. rewrite fmap_cons in Hk. apply not_elem_of_cons in Hk as [Hne Hk]. cbn in Hne.
      by rewrite H4, field_at_alter, decide_False by congruence.
Qed.

(** *** What waits *)

Section waiting.
Context (N : gmap (list byte) Z).

Definition parents_from (n : nat) (infos : list KyberTypeInfo) : list (list byte * nat) := concat (imap (fun i => parents_of N (n + i)) infos).
Definition all_fields (n : nat) (infos : list KyberTypeInfo) : list (list byte * (nat * nat)) :=
  concat (imap (fun i info => fields_from N (n + i) 0 (m_fields info)) infos).

Lemma imap_from {A B} (f : nat -> A -> B) n (l : list A) : imap ((fun i => f (n + i)%nat) ∘ S) l = imap (fun i => f (S n + i)%nat) l.
Proof. apply imap_ext. intros j x _. cbn. by rewrite Nat.add_succ_r. Qed.

Lemma parents_from_cons n info infos : parents_from n (info :: infos) = parents_of N n info ++ parents_from (S n) infos.
Proof. unfold parents_from. cbn [imap concat]. by rewrite Nat.add_0_r, (imap_from (parents_of N)). Qed.

Lemma all_fields_cons n info infos : all_fields n (info :: infos) = fields_from N n 0 (m_fields info) ++ all_fields (S n) infos.
Proof. unfold all_fields. cbn [imap concat]. by rewrite Nat.add_0_r, (imap_from (fun i info => fields_from N i 0 (m_fields info))). Qed.

Lemma fields_from_cons n j f fs :
  fields_from N n j (f :: fs) = (if default 0 (N !! typeName f) =? 0 then [(typeName f, (n, j))] else []) ++ fields_from N n (S j) fs.
Proof.
  unfold fields_from. cbn [imap omap list_omap]. rewrite Nat.add_0_r, (imap_from (fun i f => (i, f))). by destruct (_ =? 0).
Qed.

Lemma parents_of_elem n info p i : (p, i) ∈ parents_of N n info <-> i = n /\ GetParentName info = Some p /\ N !! p = None.
Proof.
  unfold parents_of. destruct (GetParentName info) as [q|].
  - destruct (N !! q) eqn:E.
    + split; [intros H; by apply elem_of_nil in H|]. intros (_ & [= ->] & H). congruence.
    + rewrite list_elem_of_singleton. split; [by intros [= -> ->]|by intros (-> & [= ->] & _)].
  - split; [intros H; by apply elem_of_nil in H|]. by intros (_ & H & _).
Qed.

Lemma parents_from_elem n infos p i :
  (p, i) ∈ parents_from n infos <-> exists k info, infos !! k = Some info /\ i = (n + k)%nat /\ GetParentName info = Some p /\ N !! p = None.
Proof.
  revert n. induction infos as [|info infos IH]; intros n.
  - split; [intros H; by apply elem_of_nil in H|]. by intros (k & info & H & _).
  - rewrite parents_from_cons, elem_of_app, parents_of_elem, IH. split.
    + intros [(-> & H)|(k & x & H1 & -> & H)]; [by exists 0%nat, info; rewrite Nat.add_0_r|]. exists (S k), x. by rewrite Nat.add_succ_r.
    + intros ([|k] & x & H1 & -> & H); cbn in H1; [injection H1 as ->; left; by rewrite Nat.add_0_r|].
      right. exists k, x. by rewrite Nat.add_succ_r.
Qed.

Lemma parents_from_NoDup n infos : NoDup (parents_from n infos).*2.
Proof.
  revert n. induction infos as [|info infos IH]; intros n; [constructor|]. rewrite parents_from_cons, fmap_app.
  apply list.NoDup_app. split; [|split; [|apply IH]].
  - unfold parents_of. destruct (GetParentName info); [|constructor]. destruct (N !! _); [constructor|apply NoDup_singleton].
  - intros i ([p i'] & -> & H1)%list_elem_of_fmap ([q i2] & He & H2)%list_elem_of_fmap. cbn in He. subst i2.
    apply parents_of_elem in H1 as [-> _]. apply parents_from_elem in H2 as (k & x & _ & H & _). lia.
Qed.

Lemma fields_from_elem n j fs p k :
  (p, k) ∈ fields_from N n j fs <-> exists m f, fs !! m = Some f /\ k = (n, (j + m)%nat) /\ p = typeName f /\ default 0 (N !! p) = 0.
Proof.
  revert j. induction fs as [|f fs IH]; intros j.
  - split; [intros H; by apply elem_of_nil in H|]. by intros (m & f & H & _).
  - rewrite fields_from_cons, elem_of_app, IH. split.
    + intros [H|(m & x & H1 & -> & H)]; [|exists (S m), x; by rewrite Nat.add_succ_r].
      destruct (Z.eqb_spec (default 0 (N !! typeName f)) 0) as [Hz|]; [|by apply elem_of_nil in H].
      apply list_elem_of_singleton in H as [= -> ->]. exists 0%nat, f. by rewrite Nat.add_0_r.
    + intros ([|m] & x & H1 & -> & -> & Hz); cbn in H1.
      * injection H1 as ->. left. rewrite Hz, Nat.add_0_r. by left.
      * right. exists m, x. by rewrite Nat.add_succ_r.
Qed.

Lemma fields_from_NoDup n j fs : NoDup (fields_from N n j fs).*2.
Proof.
  revert j. induction fs as [|f fs IH]; intros j; [constructor|]. rewrite fields_from_cons, fmap_app.
  apply list.NoDup_app. split; [|split; [|apply IH]].
  - destruct (_ =? 0); [apply NoDup_singleton|constructor].
  - intros k ([p k'] & -> & H1)%list_elem_of_fmap ([q k2] & He & H2)%list_elem_of_fmap. cbn in He. subst k2.
    apply fields_from_elem in H2 as (m & x & _ & -> & _). destruct (_ =? 0); [|by apply elem_of_nil in H1].
    apply list_elem_of_singleton in H1 as [= _ H]. lia.
Qed.

Lemma all_fields_elem n infos p k :
  (p, k) ∈ all_fields n infos <->
  exists i info m f, infos !! i = Some info /\ m_fields info !! m = Some f /\ k = ((n + i)%nat, m) /\ p = typeName f /\ default 0 (N !! p) = 0.
Proof.
  revert n. induction infos as [|info infos IH]; intros n.
  - split; [intros H; by apply elem_of_nil in H|]. by intros (i & info & m & f & H & _).
  - rewrite all_fields_cons, elem_of_app, fields_from_elem, IH. split.
    + intros [(m & f & H1 & -> & H)|(i & x & m & f & H1 & H2 & -> & H)].
      * exists 0%nat, info, m, f. by rewrite Nat.add_0_r.
      * exists (S i), x, m, f. by rewrite Nat.add_succ_r.
    + intros ([|i] & x & m & f & H1 & H2 & -> & H); cbn in H1.
      * injection H1 as ->. left. exists m, f. by rewrite Nat.add_0_r.
      * right. exists i, x, m, f. by rewrite Nat.add_succ_r.
Qed.

Lemma all_fields_NoDup n infos : NoDup (all_fields n infos).*2.
Proof.
  revert n. induction infos as [|info infos IH]; intros n; [constructor|]. rewrite all_fields_cons, fmap_app.
  apply list.NoDup_app. split; [apply fields_from_NoDup|split; [|apply IH]].
  intros k ([p k'] & -> & H1)%list_elem_of_fmap ([q k2] & He & H2)%list_elem_of_fmap. cbn in He. subst k2.
  apply fields_from_elem in H1 as (m & x & _ & -> & _). apply all_fields_elem in H2 as (i & y & m' & f & _ & _ & [= H _] & _). lia.
Qed.
End waiting.

(** The type a name stands for: the game's, else the module's last of that name,
    else none. *)
Definition named_type (N : gmap (list byte) Z) (infos : list KyberTypeInfo) (ref : list byte) : TypeRef :=
  match N !! ref with
  | Some t => mkTypeRef t None
  | None => mkTypeRef 0 (list.last (indices ref (map (fun info => c_str (m_name info)) infos)))
  end.

Lemma resolve_super_ref l x : SuperClassRef x = mkTypeRef 0 None -> SuperClassRef (resolve set_super l x) = mkTypeRef 0 (list.last l).
Proof. intros Hx. unfold resolve. destruct (list.last l); cbn; by rewrite Hx. Qed.

Lemma resolve_field_ref l f :
  TypeRef_of f = mkTypeRef 0 None -> resolve set_type_ref l f = mkField (mkTypeRef 0 (list.last l)) (Name f) (IsArray f).
Proof. intros Hf. unfold resolve. destruct (list.last l); destruct f; cbn in *; by rewrite Hf. Qed.

(** The types the game registered are not null. *)
Lemma native_types_nonzero all :
  Forall (fun e => e.2 <> 0) all ->
  forall p t, m_nativeTypeInfo (RegisterNativeTypeInfo all EntityManager_new) !! p = Some t -> t <> 0.
Proof.
  intros Hall. unfold RegisterNativeTypeInfo. cbn [m_nativeTypeInfo EntityManager_new].
  assert (H0 : forall p t, (∅ : gmap (list byte) Z) !! p = Some t -> t <> 0) by done. revert H0. generalize (∅ : gmap (list byte) Z).
  induction all as [|[q u] all IH]; intros m Hm; [exact Hm|]. apply list.Forall_cons in Hall as [Hu Hall]. apply (IH Hall).
  intros p t Hp. cbn in Hp. destruct (decide (q = p)) as [->|]; [rewrite lookup_insert_eq in Hp; by injection Hp as <-|].
  rewrite lookup_insert_ne in Hp by done. by apply (Hm p).
Qed.

(** An asset once the parents are assigned. *)
Lemma parents_assigned N guids infos st1 i info :
  m_classInfoAssets st1 = imap (fun i => asset_of N guids i) infos ->
  names (m_classInfoAssets st1) = map (fun info => c_str (m_name info)) infos -> infos !! i = Some info ->
  let st2 := foldl assign_parent st1 (parents_from N 0 infos) in
  exists y, m_classInfoAssets st2 !! i = Some y /\ instanceGuid y = guids i /\ TypeName y = c_str (m_name info) /\
    SuperClassRef y = (match GetParentName info with None => mkTypeRef 0 None | Some p => named_type N infos p end) /\
    Fields y = map (field_of N) (m_fields info).
Proof.
  intros A1 Hnames Hi st2. destruct (assign_parents (parents_from N 0 infos) st1 (parents_from_NoDup N 0 infos)) as (_ & _ & B3 & B4).
  fold st2 in B3, B4. rewrite Hnames in B3.
  assert (D1 : m_classInfoAssets st1 !! i = Some (asset_of N guids i info)) by (rewrite A1, list_lookup_imap, Hi; done).
  destruct (GetParentName info) as [p|] eqn:Ep.
  - destruct (N !! p) as [t|] eqn:Et.
    + rewrite B4, D1; [|]. { eexists. split; [done|]. repeat split. unfold asset_of. cbn [SuperClassRef]. unfold parent_ref, named_type. by rewrite Ep, Et. }
      intros ([q k] & -> & Hq)%list_elem_of_fmap. apply parents_from_elem in Hq as (k' & x & Hx & Hk & Hp & Hn). cbn in *. subst k. congruence.
    + rewrite (B3 p i), D1; [|apply parents_from_elem; by exists i, info]. eexists. split; [done|].
      unfold named_type. rewrite Et. split; [unfold resolve; by destruct (list.last _)|].
      split; [by rewrite TypeName_resolve_super|]. split; [|unfold resolve; by destruct (list.last _)].
      apply resolve_super_ref. unfold asset_of. cbn [SuperClassRef]. unfold parent_ref. by rewrite Ep, Et.
  - rewrite B4, D1; [|]. { eexists. split; [done|]. repeat split. unfold asset_of. cbn [SuperClassRef]. unfold parent_ref. by rewrite Ep. }
    intros ([q k] & -> & Hq)%list_elem_of_fmap. apply parents_from_elem in Hq as (k' & x & Hx & Hk & Hp & _). cbn in *. subst k. congruence.
Qed.

(** Before the types are built, every type the module registers has its
    instance guid and name, and its parent and the types of its fields are what
    their names stand for: the game's type of the name, or else the last of the
    module's own types of that name, wherever it was registered. *)
Theorem references_resolved all guids infos i info :
  Forall (fun e => e.2 <> 0) all -> infos !! i = Some info ->
  let st := PrepareTypes all guids infos EntityManager_new in
  let N := m_nativeTypeInfo (RegisterNativeTypeInfo all EntityManager_new) in
  exists x, m_classInfoAssets st !! i = Some x /\ instanceGuid x = guids i /\ TypeName x = c_str (m_name info) /\
    SuperClassRef x = (match GetParentName info with None => mkTypeRef 0 None | Some p => named_type N infos p end) /\
    forall j f, m_fields info !! j = Some f -> Fields x !! j = Some (mkField (named_type N infos (typeName f)) (fd_name f) (fd_isArray f)).
Proof.
  intros Hall Hi st N.
  pose proof (native_types_nonzero all Hall : forall p t, N !! p = Some t -> t <> 0) as HN.
  destruct (create_all N guids infos (RegisterNativeTypeInfo all EntityManager_new) 0 eq_refl eq_refl) as (A1 & A2 & A3).
  set (st1 := foldl _ _ _) in A1, A2, A3.
  assert (Hst : st = foldl assign_field (foldl assign_parent st1 (m_classesPendingParentAssignment st1))
                       (m_fieldsPendingTypeAssignment (foldl assign_parent st1 (m_classesPendingParentAssignment st1)))) by done.
  change (m_classesPendingParentAssignment st1 = parents_from N 0 infos) in A2.
  change (m_fieldsPendingTypeAssignment st1 = all_fields N 0 infos) in A3.
  change (m_classInfoAssets st1 = imap (fun i => asset_of N guids i) infos) in A1.
  rewrite A2 in Hst. destruct (assign_parents (parents_from N 0 infos) st1 (parents_from_NoDup N 0 infos)) as (B1 & B2 & B3 & B4).
  set (st2 := foldl assign_parent st1 _) in *. rewrite B2, A3 in Hst.
  destruct (assign_fields (all_fields N 0 infos) st2 (all_fields_NoDup N 0 infos)) as (C1 & C2 & C3).
  rewrite <- Hst in C1, C2, C3.
  assert (Hnames : names (m_classInfoAssets st1) = map (fun info => c_str (m_name info)) infos).
  { rewrite A1. unfold names. apply list_eq. intros k. rewrite list_lookup_fmap, list_lookup_imap.
    change (map (fun info0 => c_str (m_name info0)) infos) with ((fun info0 => c_str (m_name info0)) <$> infos).
    rewrite list_lookup_fmap. by destruct (infos !! k). }
  rewrite B1, Hnames in C2.
  destruct (parents_assigned N guids infos st1 i info A1 Hnames Hi) as (y & Y1 & Y2 & Y3 & Y4 & Y5).
  change (m_classInfoAssets st2 !! i = Some y) in Y1. pose proof (C1 i) as C1i. rewrite Y1 in C1i.
  destruct (m_classInfoAssets st !! i) as [x|] eqn:Ex; [|done]. cbn in C1i. injection C1i as E1 E2 E3. exists x.
  split; [done|]. rewrite E1, E2, E3. do 3 (split; [done|]). intros j f Hf.
  assert (F1 : field_at (m_classInfoAssets st2) (i, j) = Some (field_of N f)).
  { unfold field_at. cbn. rewrite Y1. cbn. rewrite Y5. change (map (field_of N) (m_fields info)) with (field_of N <$> m_fields info).
    by rewrite list_lookup_fmap, Hf. }
  assert (F2 : Fields x !! j = field_at (m_classInfoAssets st) (i, j)) by (unfold field_at; cbn; by rewrite Ex).
  rewrite F2. unfold named_type. destruct (N !! typeName f) as [t|] eqn:Et.
  - assert (Hfo : field_of N f = mkField (mkTypeRef t None) (fd_name f) (fd_isArray f)) by exact (f_equal (fun o => CreateFieldData (fd_name f) None (default 0 o) (fd_isArray f)) Et).
    rewrite C3, F1, Hfo; [done|].
    intros ([q k] & He & Hq)%list_elem_of_fmap. apply all_fields_elem in Hq as (i' & x' & m & f' & G1 & G2 & -> & G3 & G4). cbn in He.
    injection He as -> ->. rewrite Hi in G1. injection G1 as <-. rewrite Hf in G2. injection G2 as <-. subst q. rewrite Et in G4. by apply (HN _ _ Et).
  - rewrite (C2 (typeName f) (i, j)), F1.
    + cbn. f_equal. apply resolve_field_ref. exact (f_equal (fun o => mkTypeRef (default 0 o) None) Et).
    + apply all_fields_elem. exists i, info, j, f. by rewrite Et.
Qed.

Lemma references_resolved_witness :
  let infos := [AddField (bstr "B") (bstr "x") false (KyberTypeInfo_new (bstr "A") (Some (bstr "EntityData")));
                KyberTypeInfo_new (bstr "B") None] in
  exists x, m_classInfoAssets (PrepareTypes [(bstr "dummyData", 5)] (fun _ => []) infos EntityManager_new) !! 0%nat = Some x /\
    SuperClassRef x = mkTypeRef 5 None /\ Fields x !! 0%nat = Some (mkField (mkTypeRef 0 (Some 1%nat)) (bstr "x") false).
Proof.
  intros infos. destruct (references_resolved [(bstr "dummyData", 5)] (fun _ => []) infos 0
    (AddField (bstr "B") (bstr "x") false (KyberTypeInfo_new (bstr "A") (Some (bstr "EntityData")))) ltac:(by repeat constructor) eq_refl)
    as (x & H1 & _ & _ & H2 & H3).
  exists x. split; [done|]. split; [by vm_compute in H2|]. by apply (H3 0%nat (mkFieldData (bstr "B") (bstr "x") false)).
Defined.

(** [HasCustomType] is true as soon as some type has another name. *)
Lemma HasCustomType_inverted name st :
  HasCustomType name st = true <-> exists x, x ∈ m_classInfoAssets st /\ TypeName x <> c_str name.
Proof.
  unfold HasCustomType. rewrite existsb_exists. setoid_rewrite list_elem_of_In. split; intros (x & H1 & H2); exists x; (split; [done|]).
  - by apply negb_true_iff, bool_decide_eq_false in H2.
  - by apply negb_true_iff, bool_decide_eq_false.
Qed.

End TypeRegistry.





(** ** Entities of the module *)

Module Behaviours.

(** A property of an entity: what is connected to it, if that has a value. *)
Definition Reader := list byte -> option (list byte).

(** *** [KyberFakeChatEntity] *)

Record FakeChatData := mkFakeChat { Name : list byte; Message : list byte; Channel : Z }.

(** What the server is made to broadcast: message, user name and channel. *)
Definition Broadcast : Type := list byte * list byte * Z.

(** [GetField] reads the property [Name] for every [fieldName]. *)
Definition GetField (reader : Reader) (data : FakeChatData) (fieldName : list byte) : list byte :=
  match reader (bstr "Name") with None => Name data | Some v => v end.

Definition FakeChat_Event (running : bool) (reader : Reader) (data : FakeChatData) (eventId : Z) : option Broadcast :=
  if eventId =? HashQuick (bstr "Send") then
    if negb running then None
    else Some (GetField reader data (bstr "Message"), GetField reader data (bstr "Name"), Channel data)
  else None.

(** The message of a fake chat entity is never sent: what it broadcasts as the
    message is the name of the sender, whatever its data and connections say. *)
Theorem fake_chat_sends_name running reader data eventId message name channel :
  FakeChat_Event running reader data eventId = Some (message, name, channel) ->
  message = name /\ forall other, FakeChat_Event running reader (mkFakeChat (Name data) other (Channel data)) eventId = Some (message, name, channel).
Proof.
  unfold FakeChat_Event, GetField. destruct (eventId =? _); [|done]. destruct (negb running); [done|].
  destruct (reader (bstr "Name")); intros [= <- <- <-]; done.
Qed.

Lemma fake_chat_sends_name_witness :
  let data := mkFakeChat (bstr "Han") (bstr "Hello") 2 in
  FakeChat_Event true (fun _ => None) data (HashQuick (bstr "Send")) = Some (bstr "Han", bstr "Han", 2) /\ bstr "Han" = bstr "Han".
Proof.
  intros data. split; [by vm_compute|].
  apply (fake_chat_sends_name true (fun _ => None) data (HashQuick (bstr "Send")) (bstr "Han") (bstr "Han") 2). by vm_compute.
Defined.

(** *** [KyberOpenWebsiteEntity] *)

Definition allowed : list (list byte) :=
  [bstr "https://kyber.gg"; bstr "https://nexusmods.com"; bstr "https://www.nexusmods.com"; bstr "https://battlefront.plus"].

(** The address handed to the shell. *)
Definition OpenWebsite_Event (URL : list byte) (event : Z) : option (list byte) :=
  if event =? HashQuick (bstr "Open") then if existsb (fun p => is_prefix p URL) allowed then Some URL else None else None.

(** Any continuation of an allowed address passes, another host included. *)
Lemma OpenWebsite_continues p rest : p ∈ allowed -> OpenWebsite_Event (p ++ rest) (HashQuick (bstr "Open")) = Some (p ++ rest).
Proof.
  intros Hp. unfold OpenWebsite_Event. rewrite Z.eqb_refl. rewrite (proj2 (existsb_exists _ _)); [done|].
  exists p. split; [by apply list_elem_of_In|]. clear Hp. induction p as [|c p IH]; [done|]. cbn. by rewrite IH, bool_decide_true.
Qed.

(** *** [KyberCompareLocalizedStringEntity] *)

Definition DoComparison (getString : list byte -> option (list byte)) (reader : Reader) (A B : list byte) : list byte :=
  let a := default A (reader (bstr "A")) in
  let b := default B (reader (bstr "B")) in
  match getString (c_str a), getString (c_str b) with
  | Some la, Some lb => if bool_decide (c_str la = c_str lb) then bstr "OnTrue" else bstr "OnFalse"
  | _, _ => bstr "OnFalse"
  end.

Definition Compare_Event (getString : list byte -> option (list byte)) (reader : Reader) (A B : list byte) (eventId : Z) : option (list byte) :=
  if eventId =? HashQuick (bstr "In") then Some (DoComparison getString reader A B) else None.
Definition Compare_PropertyChanged (getString : list byte -> option (list byte)) (reader : Reader) (A B : list byte)
    (TriggerOnPropertyChange : bool) : option (list byte) :=
  if negb TriggerOnPropertyChange then None else Some (DoComparison getString reader A B).

(** *** [LocalizedStringIdPickerEntity] *)

Definition CalcStringHash (s : list byte) : Z :=
  foldl (fun result c => i32 (swrap 8 (byte.unsigned c) + 33 * result)) (i32 0xFFFFFFFF) s.

Definition GetLocalized (reader : Reader) (Sid : list byte) : Z := CalcStringHash (default Sid (reader (bstr "Sid"))).

(** *** [WSPrintDebugTextEntity] *)

Definition PrintDebugText_Event (SubName : list byte) (Events : list (Z * list byte)) (eventId : Z) : option (list byte) :=
  match List.find (fun e => e.1 =? eventId) Events with
  | Some e => Some (bstr "[WSPrintDebugText] " ++ SubName ++ e.2)
  | None => None
  end.

End Behaviours.

(** ** Console commands of entities *)

Module Commands.

(** [ConsoleCommandTriggerEntity] *)
Record Trigger := mkTrigger { m_name : list byte; m_wantUpdates : bool; m_commandCount : Z }.

(** The registry of methods: the name and whose the function is, 0 for the game's
    own. [fired] are the events sent. *)
Record State := mkState { methods : list (list byte * Z); triggers : gmap Z Trigger; fired : list Z }.

(** [ConsoleRegistry_registerInstanceMethod]: a method of the name gets the new
    function. *)
Fixpoint registerInstanceMethod (owner : Z) (name : list byte) (l : list (list byte * Z)) : list (list byte * Z) :=
  match l with
  | [] => [(name, owner)]
  | (n, o) :: l' => if decide (n = name) then (n, owner) :: l' else (n, o) :: registerInstanceMethod owner name l'
  end.

Definition ConsoleCommandTrigger_new (id : Z) (CommandName : list byte) (st : State) : State :=
  if decide (CommandName = bstr "restart") then
    mkState (methods st) (<[id := mkTrigger CommandName false 0]> (triggers st)) (fired st)
  else
    mkState (registerInstanceMethod id CommandName (methods st)) (<[id := mkTrigger CommandName true 0]> (triggers st)) (fired st).

(** [Console::UnregisterCommand]: the first method of the name goes. *)
Fixpoint UnregisterCommand (name : list byte) (l : list (list byte * Z)) : list (list byte * Z) :=
  match l with
  | [] => []
  | (n, o) :: l' => if decide (n = name) then l' else (n, o) :: UnregisterCommand name l'
  end.

Definition ConsoleCommandTrigger_delete (id : Z) (st : State) : result State :=
  t ← of_option Undefined (triggers st !! id);
  Ok (mkState (UnregisterCommand (m_name t) (methods st)) (delete id (triggers st)) (fired st)).

(** The console calls the function of the method it finds; that of a deleted
    trigger is undefined. *)
Definition Execute (name : list byte) (st : State) : result State :=
  match List.find (fun m => bool_decide (m.1 = name)) (methods st) with
  | None => Ok st
  | Some m =>
    if m.2 =? 0 then Ok st else
    t ← of_option Undefined (triggers st !! m.2);
    if m_commandCount t =? 2 ^ 31 - 1 then Fault Undefined else
    Ok (mkState (methods st) (<[m.2 := mkTrigger (m_name t) (m_wantUpdates t) (m_commandCount t + 1)]> (triggers st)) (fired st))
  end.

Definition Trigger_Update (id : Z) (st : State) : result State :=
  t ← of_option Undefined (triggers st !! id);
  if m_commandCount t =? 0 then Ok st else
  Ok (mkState (methods st) (<[id := mkTrigger (m_name t) (m_wantUpdates t) 0]> (triggers st))
        (fired st ++ replicate (Z.to_nat (m_commandCount t)) id)).

(** *** Histories *)

Inductive event := New (id : Z) (name : list byte) | Delete (id : Z) | Run (name : list byte) | Frame (id : Z).

Inductive step (st : State) : event -> State -> Prop :=
  | step_new id name : id <> 0 -> triggers st !! id = None -> step st (New id name) (ConsoleCommandTrigger_new id name st)
  | step_delete id st' : ConsoleCommandTrigger_delete id st = Ok st' -> step st (Delete id) st'
  | step_run name st' : Execute name st = Ok st' -> step st (Run name) st'
  | step_frame id st' : Trigger_Update id st = Ok st' -> step st (Frame id) st'.

Inductive reachable (game : list (list byte)) : State -> Prop :=
  | reachable_start : reachable game (mkState (map (fun n => (n, 0)) game) ∅ [])
  | reachable_step st e st' : reachable game st -> step st e st' -> reachable game st'.

(** Names are registered once, for the game or for a trigger of that name. *)
Record commands_ok (st : State) : Prop := {
  co_names : NoDup (methods st).*1;
  co_owner n o : (n, o) ∈ methods st -> o = 0 \/ exists t, triggers st !! o = Some t /\ m_name t = n;
  co_id : triggers st !! 0 = None;
}.

Lemma register_names owner name l x : x ∈ (registerInstanceMethod owner name l).*1 <-> x = name \/ x ∈ l.*1.
Proof.
  induction l as [|[n o] l IH]; cbn [registerInstanceMethod].
  - cbn. rewrite list_elem_of_singleton. split; [by left|]. intros [->|H]; [done|by apply elem_of_nil in H].
  - destruct (decide (n = name)) as [->|Hne]; rewrite !fmap_cons, !elem_of_cons, ?IH; cbn; naive_solver.
Qed.

Lemma register_NoDup owner name l : NoDup l.*1 -> NoDup (registerInstanceMethod owner name l).*1.
Proof.
  induction l as [|[n o] l IH]; intros Hd; cbn [registerInstanceMethod]; [apply NoDup_singleton|].
  rewrite fmap_cons in Hd. apply list.NoDup_cons in Hd as [Hn Hd]. destruct (decide (n = name)) as [->|Hne]; rewrite fmap_cons; constructor; auto.
  rewrite register_names. naive_solver.
Qed.

Lemma register_elem owner name l n o :
  NoDup l.*1 -> (n, o) ∈ registerInstanceMethod owner name l -> (n, o) = (name, owner) \/ (n <> name /\ (n, o) ∈ l).
Proof.
  induction l as [|[n' o'] l IH]; intros Hd; cbn [registerInstanceMethod].
  - intros H%list_elem_of_singleton. by left.
  - rewrite fmap_cons in Hd. apply list.NoDup_cons in Hd as [Hn Hd]. destruct (decide (n' = name)) as [->|Hne]; rewrite elem_of_cons.
    + intros [H|H]; [by left|]. right. split; [|by right]. intros ->. apply Hn. apply list_elem_of_fmap. by exists (name, o).
    + intros [[= -> ->]|H]; [right; split; [done|by left]|]. destruct (IH Hd H) as [?|[? ?]]; [by left|right; split; [done|by right]].
Qed.

Lemma unregister_elem name l n o : NoDup l.*1 -> (n, o) ∈ UnregisterCommand name l <-> (n, o) ∈ l /\ n <> name.
Proof.
  induction l as [|[n' o'] l IH]; intros Hd; cbn [UnregisterCommand]; [split; [intros H; by apply elem_of_nil in H|by intros [? _]]|].
  rewrite fmap_cons in Hd. apply list.NoDup_cons in Hd as [Hn Hd]. destruct (decide (n' = name)) as [->|Hne]; rewrite !elem_of_cons.
  - split; [intros H; split; [by right|]|intros [[[= -> ->]|H] Hx]; [done|done]].
    intros ->. apply Hn. apply list_elem_of_fmap. by exists (name, o).
  - rewrite (IH Hd). naive_solver.
Qed.

Lemma unregister_NoDup name l : NoDup l.*1 -> NoDup (UnregisterCommand name l).*1.
Proof.
  induction l as [|[n o] l IH]; intros Hd; cbn [UnregisterCommand]; [done|]. rewrite fmap_cons in Hd. pose proof Hd as Hd'.
  apply list.NoDup_cons in Hd as [Hn Hd]. destruct (decide (n = name)); [done|]. rewrite fmap_cons. constructor; [|auto].
  intros ([n' o'] & He & H)%list_elem_of_fmap. cbn in He. subst n'. apply unregister_elem in H as [H _]; [|done].
  apply Hn, list_elem_of_fmap. by exists (n, o').
Qed.

(** A trigger that changes keeps its name. *)
Lemma commands_ok_update id t t' l f st :
  commands_ok st -> triggers st !! id = Some t -> m_name t' = m_name t -> l = methods st ->
  commands_ok (mkState l (<[id := t']> (triggers st)) f).
Proof.
  intros [H1 H2 H3] Ht Hn ->. split; cbn; [done| |].
  - intros n o Hin. destruct (H2 _ _ Hin) as [?|(u & Hu & Hun)]; [by left|]. right. destruct (decide (id = o)) as [->|].
    + exists t'. rewrite lookup_insert_eq. split; [done|]. congruence.
    + exists u. by rewrite lookup_insert_ne.
  - rewrite lookup_insert_ne; [done|]. intros ->. congruence.
Qed.

Lemma commands_step st e st' : commands_ok st -> step st e st' -> commands_ok st'.
Proof.
  intros H. destruct 1 as [id name Hid Hnew|id st' Hs|name st' Hs|id st' Hs].
  - destruct H as [H1 H2 H3]. unfold ConsoleCommandTrigger_new.
    assert (Hkeep : forall t n o, (n, o) ∈ methods st -> o = 0 \/ exists u, <[id := t]> (triggers st) !! o = Some u /\ m_name u = n).
    { intros t n o Hin. destruct (H2 _ _ Hin) as [?|(u & Hu & Hun)]; [by left|]. right. exists u. rewrite lookup_insert_ne; [done|].
      intros ->. congruence. }
    destruct (decide _); split; cbn; try (by rewrite lookup_insert_ne); try done.
    + apply Hkeep.
    + by apply register_NoDup.
    + intros n' o Hin. apply register_elem in Hin; [|done]. destruct Hin as [[= -> ->]|[_ Hin]]; [|by apply Hkeep].
      right. eexists. by rewrite lookup_insert_eq.
  - unfold ConsoleCommandTrigger_delete in Hs. destruct (triggers st !! id) as [t|] eqn:Et; [|done]. injection Hs as <-.
    destruct H as [H1 H2 H3]. split; cbn.
    + by apply unregister_NoDup.
    + intros n o Hin. apply unregister_elem in Hin as [Hin Hne]; [|done].
      destruct (H2 _ _ Hin) as [?|(u & Hu & Hun)]; [by left|]. right. exists u. rewrite lookup_delete_ne; [done|].
      intros ->. rewrite Et in Hu. injection Hu as <-. congruence.
    + destruct (decide (id = 0)) as [->|]; [apply lookup_delete_eq|by rewrite lookup_delete_ne].
  - unfold Execute in Hs. destruct (List.find _ _) as [[n o]|]; [|by injection Hs as <-]. destruct (_ =? 0); [by injection Hs as <-|].
    cbn in Hs. destruct (triggers st !! o) as [t|] eqn:Et; [|done]. cbn in Hs. destruct (_ =? _); [done|]. injection Hs as <-.
    by eapply commands_ok_update.
  - unfold Trigger_Update in Hs. destruct (triggers st !! id) as [t|] eqn:Et; [|done]. cbn in Hs.
    destruct (_ =? 0); [by injection Hs as <-|]. injection Hs as <-. by eapply commands_ok_update.
Qed.

(** However triggers come and go and share names, the console never calls a
    deleted one: a command runs the game's function or adds one to the count of a
    live trigger of that very name, or there is no such command. *)
Theorem commands_never_dangle game st name :
  NoDup game -> reachable game st -> (forall id t, triggers st !! id = Some t -> m_commandCount t < 2 ^ 31 - 1) ->
  Execute name st = Ok st \/
  exists id t, triggers st !! id = Some t /\ m_name t = name /\
    Execute name st = Ok (mkState (methods st) (<[id := mkTrigger name (m_wantUpdates t) (m_commandCount t + 1)]> (triggers st)) (fired st)).
Proof.
  intros Hg Hr Hc. assert (H : commands_ok st).
  { clear Hc. induction Hr as [|st e st' _ IH Hs]; [|by eapply commands_step]. split; cbn.
    - change (map (fun n => (n, 0)) game) with ((fun n => (n, 0)) <$> game). rewrite <- list_fmap_compose. by rewrite list_fmap_id.
    - intros n o (x & [= _ ->] & _)%list_elem_of_fmap. by left.
    - done. }
  unfold Execute. destruct (List.find _ (methods st)) as [[n o]|] eqn:Ef; [|by left].
  apply List.find_some in Ef as [Hin Hn]. apply list_elem_of_In in Hin. cbn in Hn. apply bool_decide_eq_true in Hn as ->. cbn [snd].
  destruct (Z.eqb_spec o 0) as [|Ho]; [by left|]. right. destruct (co_owner _ H _ _ Hin) as [?|(t & Ht & Hn)]; [done|].
  exists o, t. split; [done|]. split; [done|]. rewrite Ht. cbn. rewrite (proj2 (Z.eqb_neq _ _)) by (specialize (Hc _ _ Ht); lia). by rewrite Hn.
Qed.

Lemma commands_never_dangle_witness :
  let st := ConsoleCommandTrigger_new 1 (bstr "Door") (mkState [(bstr "Help", 0)] ∅ []) in
  Execute (bstr "Door") st = Ok st \/
  exists id t, triggers st !! id = Some t /\ m_name t = bstr "Door" /\
    Execute (bstr "Door") st =
    Ok (mkState (methods st) (<[id := mkTrigger (bstr "Door") (m_wantUpdates t) (m_commandCount t + 1)]> (triggers st)) (fired st)).
Proof.
  intros st. apply (commands_never_dangle [bstr "Help"] st (bstr "Door")).
  - apply NoDup_singleton.
  - eapply (reachable_step _ (mkState [(bstr "Help", 0)] ∅ []) (New 1 (bstr "Door"))); [apply reachable_start|by apply step_new].
  - intros id t Ht. change (triggers st) with (<[1 := mkTrigger (bstr "Door") true 0]> (∅ : gmap Z Trigger)) in Ht.
    destruct (decide (id = 1)) as [->|].
    + rewrite lookup_insert_eq in Ht. by injection Ht as <-.
    + by rewrite lookup_insert_ne in Ht.
Defined.

(** Of two triggers with one name only the newer is called, and the end of either
    leaves the other without its command. *)
Lemma shared_command st a b name t :
  commands_ok st -> a <> b -> name <> bstr "restart" -> triggers st !! a = Some t -> m_name t = name -> triggers st !! b = None ->
  exists st', ConsoleCommandTrigger_delete a (ConsoleCommandTrigger_new b name st) = Ok st' /\
    triggers st' !! b = Some (mkTrigger name true 0) /\ Execute name st' = Ok st'.
Proof.
  intros H Hab Hr Ha Hn Hb. unfold ConsoleCommandTrigger_new, ConsoleCommandTrigger_delete. rewrite decide_False by done.
  cbn [triggers methods fired]. rewrite lookup_insert_ne, Ha by done. cbn. eexists. split; [done|]. cbn.
  split; [by rewrite lookup_delete_ne, lookup_insert_eq|]. unfold Execute. cbn [methods].
  destruct (List.find _ _) as [[n o]|] eqn:Ef; [|done]. exfalso. apply List.find_some in Ef as [Hin Hx].
  apply list_elem_of_In, unregister_elem in Hin as [_ Hne]; [|by apply register_NoDup, H].
  cbn in Hx. apply bool_decide_eq_true in Hx. congruence.
Qed.

(** [TestCaseManager]: the manager exists while an entity does; the console's one
    method [List] keeps the function of the last manager. *)
Record TestCases := mkTestCases { s_manager : option (Z * list Z); listMethod : option Z; nextManager : Z }.

Definition TestCaseEntity_new (id : Z) (st : TestCases) : TestCases :=
  match s_manager st with
  | None => mkTestCases (Some (nextManager st, [id])) (Some (nextManager st)) (nextManager st + 1)
  | Some (m, l) => mkTestCases (Some (m, l ++ [id])) (listMethod st) (nextManager st)
  end.

Definition TestCaseEntity_delete (id : Z) (st : TestCases) : result TestCases :=
  '(m, l) ← of_option Undefined (s_manager st);
  let l := base.filter (fun x => x <> id) l in
  Ok (mkTestCases (if bool_decide (l = []) then None else Some (m, l)) (listMethod st) (nextManager st)).

Definition TestCase_List (st : TestCases) : result (list Z) :=
  match listMethod st with
  | None => Ok []
  | Some f => match s_manager st with Some (m, l) => if m =? f then Ok l else Fault Undefined | None => Fault Undefined end
  end.

(** Without test cases the command calls the deleted manager. *)
Lemma list_after_last id st m :
  s_manager st = Some (m, [id]) -> listMethod st = Some m ->
  exists st', TestCaseEntity_delete id st = Ok st' /\ TestCase_List st' = Fault Undefined.
Proof.
  intros Hm Hl. unfold TestCaseEntity_delete. rewrite Hm. cbn [of_option mbind result_bind]. eexists. split; [done|].
  rewrite list.filter_cons_False by (by intros ?). cbn. unfold TestCase_List. cbn. by rewrite Hl.
Qed.

End Commands.
