(* ===== verification/Owners.v ===== *)
(** The trees the game keeps its entities in, as the module walks them
    (Source/SDK/SDK.cpp): an owner has a list of entities and a chain of child
    owners, a bus a chain of child buses. The links are words of the process's
    memory ([Lua.Mem]), read at the offsets of the classes of Public/SDK/SDK.h;
    the trees they must form are predicates on that memory.

    [Reload] is the part of Source/ModLoader/LiveEditManager.cpp that picks the
    entities of a blueprint to destroy.

    The loops and recursions follow links, so they need fuel: the number of
    entities, owners or buses there are, which the theorems give. *)

From S2P Require Import Prelude.
From S2P Require Import ByteBuffer.
From S2P Require Import Lua.

(** ** Entities and their owners *)

Module Owners.
(** [EntityBase::IsSpatial] asks the game for the type of an entity. *)
Section owners.
Context (IsSpatial : Z -> bool) (m : Mem).

Definition word_at (a : Z) : result Z := load_int 8 a m.

(** [m_entityBus] and [m_data] of a [NativeEntity], 16 bytes further on in a
    [SpatialEntity]. *)
Definition native_bus (entity : Z) : result Z := word_at (entity + 0x20).
Definition GetEntityBus (entity : Z) : result Z :=
  if IsSpatial entity then word_at (entity + 0x30) else native_bus entity.
Definition GetData (entity : Z) : result Z :=
  if IsSpatial entity then word_at (entity + 0x38) else word_at (entity + 0x28).

(** The links of an owner; a node of its list is the address of [m_linkPrev], 8
    bytes into an entity. *)
Definition first_node (owner : Z) : result Z := word_at (owner + 0x10).
Definition next_node (node : Z) : result Z := word_at (node + 8).
Definition m_firstChild (owner : Z) : result Z := word_at (owner + 0x28).
Definition m_nextSibling (owner : Z) : result Z := word_at (owner + 0x30).

(** The bus is only read when one is asked for. *)
Definition on_bus (bus entity : Z) : result bool :=
  if bus =? 0 then Ok true else b ← GetEntityBus entity; Ok (b =? bus).

Fixpoint find_node (fuel : nat) (entityData bus node : Z) : result Z :=
  match fuel with
  | O => Fault OutOfFuel
  | S fuel' =>
    if node =? 0 then Ok 0 else
    let entity := node - 8 in
    here ← on_bus bus entity;
    if negb here then next ← next_node node; find_node fuel' entityData bus next else
    data ← GetData entity;
    if negb (data =? entityData) then next ← next_node node; find_node fuel' entityData bus next else
    Ok entity
  end.
Definition GetOwnedEntity (fuel : nat) (this entityData bus : Z) : result Z :=
  node ← first_node this; find_node fuel entityData bus node.

Fixpoint collect_nodes (fuel : nat) (bus node : Z) : result (list Z) :=
  match fuel with
  | O => Fault OutOfFuel
  | S fuel' =>
    if node =? 0 then Ok [] else
    let entity := node - 8 in
    next ← next_node node;
    here ← on_bus bus entity;
    rest ← collect_nodes fuel' bus next;
    Ok (if (here : bool) then entity :: rest else rest)
  end.
Definition GetOwnedEntities (fuel : nat) (this bus : Z) : result (list Z) :=
  node ← first_node this; collect_nodes fuel bus node.

(** The same fuel bounds the depth of the recursion and the length of a list. *)
Fixpoint GetOwnedEntitiesRecursively_at (depth fuel : nat) (this : Z) : result (list Z) :=
  match depth with
  | O => Fault OutOfFuel
  | S depth' =>
    ownedEntities ← GetOwnedEntities fuel this 0;
    child ← m_firstChild this;
    childEntities ← (if child =? 0 then Ok [] else GetOwnedEntitiesRecursively_at depth' fuel child);
    sibling ← m_nextSibling this;
    siblingEntities ← (if sibling =? 0 then Ok [] else GetOwnedEntitiesRecursively_at depth' fuel sibling);
    Ok (ownedEntities ++ childEntities ++ siblingEntities)
  end.
Definition GetOwnedEntitiesRecursively (fuel : nat) (this : Z) : result (list Z) := GetOwnedEntitiesRecursively_at fuel fuel this.

(** *** The trees *)

(** An owner with its entities and its children. *)
Inductive otree := Owner (address : Z) (entities : list Z) (children : list otree).

(** The list of an owner: a chain of nodes that ends in null. *)
Inductive node_list : Z -> list Z -> Prop :=
  | nodes_nil : node_list 0 []
  | nodes_cons e n es : e + 8 <> 0 -> next_node (e + 8) = Ok n -> node_list n es -> node_list (e + 8) (e :: es).

(** A pointer to the first of a chain of siblings. *)
Inductive forest : Z -> list otree -> Prop :=
  | forest_nil : forest 0 []
  | forest_cons a h c n es cs ts :
      a <> 0 -> first_node a = Ok h -> node_list h es -> m_firstChild a = Ok c -> forest c cs ->
      m_nextSibling a = Ok n -> forest n ts -> forest a (Owner a es cs :: ts).

Fixpoint owned (t : otree) : list Z := match t with Owner _ es cs => es ++ flat_map owned cs end.
Definition all_owned (ts : list otree) : list Z := flat_map owned ts.
Fixpoint owners (t : otree) : list Z := match t with Owner a _ cs => a :: flat_map owners cs end.
Definition all_owners (ts : list otree) : list Z := flat_map owners ts.

(** A tree whose lists of entities have at most so many. *)
Inductive short (k : nat) : list otree -> Prop :=
  | short_nil : short k []
  | short_cons a es cs ts : (length es < k)%nat -> short k cs -> short k ts -> short k (Owner a es cs :: ts).

Lemma node_list_zero p es : node_list p es -> p = 0 -> es = [].
Proof. by intros [|]. Qed.

Lemma node_entity e : e + 8 - 8 = e.
Proof. lia. Qed.

Lemma collect_all fuel p es : node_list p es -> (length es < fuel)%nat -> collect_nodes fuel 0 p = Ok es.
Proof.
  intros H. revert fuel. induction H as [|e n es Hne Hn H IH]; intros [|fuel] Hf; cbn in *; try lia; [done|].
  rewrite (proj2 (Z.eqb_neq _ _) Hne), Hn. cbn. rewrite IH by lia. cbn. by rewrite node_entity.
Qed.

(** The entities on a bus, among entities whose bus can be read. *)
Lemma collect_bus fuel bus p es (b : Z -> Z) :
  bus <> 0 -> node_list p es -> (forall e, e ∈ es -> GetEntityBus e = Ok (b e)) -> (length es < fuel)%nat ->
  collect_nodes fuel bus p = Ok (base.filter (fun e => b e = bus) es).
Proof.
  intros Hb H. revert fuel. induction H as [|e n es Hne Hn H IH]; intros [|fuel] Hbus Hf; cbn [length collect_nodes] in *; try lia; [done|].
  rewrite (proj2 (Z.eqb_neq _ _) Hne), Hn. cbn [mbind result_bind]. unfold on_bus. rewrite (proj2 (Z.eqb_neq _ _) Hb), node_entity, Hbus by by left. cbn [mbind result_bind].
  rewrite IH; [|intros x Hx; apply Hbus; by right|lia]. cbn [mbind result_bind]. rewrite list.filter_cons.
  destruct (Z.eqb_spec (b e) bus); [by rewrite decide_True|by rewrite decide_False].
Qed.

Lemma GetOwnedEntities_all fuel a h es : first_node a = Ok h -> node_list h es -> (length es < fuel)%nat -> GetOwnedEntities fuel a 0 = Ok es.
Proof. intros H Hes Hf. unfold GetOwnedEntities. rewrite H. by apply collect_all. Qed.

Lemma forest_pointer p ts : forest p ts -> (p = 0 /\ ts = []) \/ (p <> 0 /\ ts <> []).
Proof. intros [|]; [by left|by right]. Qed.

(** A recursion that follows a pointer to a chain. *)
Lemma follow {A} p ts (f : Z -> result (list A)) (r : list otree -> list A) :
  forest p ts -> r [] = [] -> (p <> 0 -> f p = Ok (r ts)) -> (if p =? 0 then Ok [] else f p) = Ok (r ts).
Proof.
  intros H H0 Hf. destruct (forest_pointer _ _ H) as [[-> ->]|[Hp _]]; [by rewrite H0|]. rewrite (proj2 (Z.eqb_neq _ _) Hp). by apply Hf.
Qed.

Lemma owners_pos ts : ts <> [] -> (0 < length (all_owners ts))%nat.
Proof. destruct ts as [|[a es cs] ts]; [done|]. cbn. lia. Qed.

Lemma recursively_forest depth fuel p ts :
  forest p ts -> p <> 0 -> short fuel ts -> (length (all_owners ts) <= depth)%nat ->
  GetOwnedEntitiesRecursively_at depth fuel p = Ok (all_owned ts).
Proof.
  intros H. revert depth. induction H as [|a h c n es cs ts Ha Hh Hes Hc Hcs IHc Hn Hts IHn]; intros depth Hp Hs Hd; [done|].
  inversion_clear Hs as [|? ? ? ? Hlen Hscs Hsts]. destruct depth as [|depth]; [cbn in Hd; lia|].
  assert (Hsplit : (length (all_owners cs) + length (all_owners ts) <= depth)%nat).
  { cbn in Hd. rewrite length_app in Hd. unfold all_owners. lia. }
  cbn [GetOwnedEntitiesRecursively_at]. rewrite (GetOwnedEntities_all fuel a h es) by done. cbn [mbind result_bind].
  rewrite Hc. cbn [mbind result_bind].
  rewrite (follow c cs _ all_owned Hcs eq_refl) by (intros Hc0; apply IHc; try done; lia). cbn [mbind result_bind].
  rewrite Hn. cbn [mbind result_bind].
  rewrite (follow n ts _ all_owned Hts eq_refl) by (intros Hn0; apply IHn; try done; lia). cbn.
  unfold all_owned. by rewrite app_assoc.
Qed.

Lemma short_mono k k' ts : short k ts -> (k <= k')%nat -> short k' ts.
Proof. intros H Hk. induction H; constructor; try done; lia. Qed.

(** Enough fuel for a chain: one for every owner and one for every entity. *)
Definition forest_fuel (ts : list otree) : nat := length (all_owners ts) + length (all_owned ts).

Lemma short_owned ts p : forest p ts -> ts <> [] -> short (forest_fuel ts) ts.
Proof.
  intros H. induction H as [|a h c n es cs ts Ha Hh Hes Hc Hcs IHc Hn Hts IHn]; intros _; [constructor|].
  assert (Hf : (length es < forest_fuel (Owner a es cs :: ts) /\ forest_fuel cs <= forest_fuel (Owner a es cs :: ts) /\
    forest_fuel ts <= forest_fuel (Owner a es cs :: ts))%nat).
  { unfold forest_fuel, all_owners, all_owned. cbn. rewrite !length_app. lia. }
  constructor; [lia| |].
  - destruct cs as [|t cs]; [constructor|]. eapply short_mono; [by apply IHc|lia].
  - destruct ts as [|t ts]; [constructor|]. eapply short_mono; [by apply IHn|lia].
Qed.

(** Over owners that form trees, the entities owned recursively are those of the
    owner and of all owners below it, each owner before its children and in the
    order of the lists — and those of the siblings that follow the owner and of
    what is below them, since the recursion does not tell its root from the
    owners below. The recursion ends, on any fuel from the number of owners and
    entities on. *)
Theorem owned_recursively p ts fuel :
  forest p ts -> p <> 0 -> (forest_fuel ts <= fuel)%nat -> GetOwnedEntitiesRecursively fuel p = Ok (all_owned ts).
Proof.
  intros H Hp Hf. destruct (forest_pointer _ _ H) as [[]|[_ Hts]]; [done|].
  apply recursively_forest; [done..| |].
  - eapply short_mono; [by eapply short_owned|done].
  - unfold forest_fuel in Hf. lia.
Qed.

(** The first entity with the data, on the bus when one is given. *)
Lemma GetOwnedEntity_first fuel a h es data bus (b d : Z -> Z) :
  first_node a = Ok h -> node_list h es -> (forall e, e ∈ es -> GetEntityBus e = Ok (b e) /\ GetData e = Ok (d e)) ->
  (length es < fuel)%nat ->
  GetOwnedEntity fuel a data bus = Ok (default 0 (head (base.filter (fun e => (bus = 0 \/ b e = bus) /\ d e = data) es))).
Proof.
  intros Hh H. unfold GetOwnedEntity. rewrite Hh. cbn [mbind result_bind]. clear Hh a. revert fuel.
  induction H as [|e n es Hne Hn H IH]; intros [|fuel] He Hf; cbn [length find_node] in *; try lia; [done|].
  rewrite (proj2 (Z.eqb_neq _ _) Hne), node_entity. destruct (He e ltac:(by left)) as [Eb Ed].
  assert (Hon : on_bus bus e = Ok (bool_decide (bus = 0 \/ b e = bus))).
  { unfold on_bus. destruct (Z.eqb_spec bus 0) as [->|Hb]; [by rewrite bool_decide_true by by left|]. rewrite Eb. cbn. f_equal.
    destruct (Z.eqb_spec (b e) bus); [by rewrite bool_decide_true by by right|]. rewrite bool_decide_false; [done|]. by intros [|]. }
  assert (IH' : forall fuel, (length es < fuel)%nat -> find_node fuel data bus n =
    Ok (default 0 (head (base.filter (fun e => (bus = 0 \/ b e = bus) /\ d e = data) es)))).
  { intros k Hk. apply IH; [|done]. intros x Hx. apply He. by right. }
  rewrite Hon. cbn [mbind result_bind]. case_bool_decide as Hbus; cbn [negb].
  - rewrite Ed. cbn [mbind result_bind]. destruct (Z.eqb_spec (d e) data) as [Hd|Hd]; cbn [negb].
    + by rewrite list.filter_cons_True.
    + rewrite Hn. cbn [mbind result_bind]. rewrite IH' by lia. by rewrite list.filter_cons_False by naive_solver.
  - rewrite Hn. cbn [mbind result_bind]. rewrite IH' by lia. by rewrite list.filter_cons_False by naive_solver.
Qed.
End owners.

(** *** Destruction *)

Section destruction.
(** [SimpleEntityOwner_destroyOwnedEntities], of the game. *)
Context (destroyOwnedEntities : Z -> Z -> Mem -> result Mem).

(** The memory and the owners whose entities were destroyed, in order. *)
Fixpoint DestroyOwnedEntitiesRecursively (fuel : nat) (realm this : Z) (st : Mem * list Z) : result (Mem * list Z) :=
  match fuel with
  | O => Fault OutOfFuel
  | S fuel' =>
    m ← destroyOwnedEntities this realm st.1;
    let st := (m, st.2 ++ [this]) in
    child ← m_firstChild m this;
    st ← (if child =? 0 then Ok st else DestroyOwnedEntitiesRecursively fuel' realm child st);
    sibling ← m_nextSibling st.1 this;
    if sibling =? 0 then Ok st else DestroyOwnedEntitiesRecursively fuel' realm sibling st
  end.

(** The chains of owners, whatever their entities. *)
Inductive linked (m : Mem) : Z -> list otree -> Prop :=
  | linked_nil : linked m 0 []
  | linked_cons a c n es cs ts :
      a <> 0 -> m_firstChild m a = Ok c -> linked m c cs -> m_nextSibling m a = Ok n -> linked m n ts ->
      linked m a (Owner a es cs :: ts).

Lemma forest_linked m p ts : forest m p ts -> linked m p ts.
Proof. induction 1; econstructor; eauto. Qed.

Definition same_links (m m' : Mem) : Prop := forall a, m_firstChild m' a = m_firstChild m a /\ m_nextSibling m' a = m_nextSibling m a.

Lemma same_links_trans m m' m'' : same_links m m' -> same_links m' m'' -> same_links m m''.
Proof. intros H H' a. destruct (H a), (H' a). split; congruence. Qed.

Lemma linked_same m m' p ts : same_links m m' -> linked m p ts -> linked m' p ts.
Proof.
  intros Hs. induction 1 as [|a c n es cs ts Ha Hc Hcs IHc Hn Hts IHn]; [constructor|].
  destruct (Hs a) as [E1 E2]. econstructor; [done| |exact IHc| |exact IHn]; congruence.
Qed.

(** When the game's function does its work and leaves the owners' links alone, the
    entities of every owner are destroyed once, each owner before its children. *)
Lemma destroyed_recursively realm fuel m p ts done :
  (forall a m, exists m', destroyOwnedEntities a realm m = Ok m' /\ same_links m m') ->
  linked m p ts -> p <> 0 -> (length (all_owners ts) <= fuel)%nat ->
  exists m', DestroyOwnedEntitiesRecursively fuel realm p (m, done) = Ok (m', done ++ all_owners ts) /\ same_links m m'.
Proof.
  intros Hd. revert m p ts done. induction fuel as [|fuel IH]; intros m p ts log H Hp Hf; inversion H as [|a c n es cs ts' Ha Hc Hcs Hn Hts]; subst; [done|cbn in Hf; lia|done|].
  assert (Hsplit : (length (all_owners cs) + length (all_owners ts') <= fuel)%nat) by (cbn in Hf; rewrite length_app in Hf; unfold all_owners; lia).
  cbn [DestroyOwnedEntitiesRecursively fst snd]. destruct (Hd p m) as (m1 & -> & Hs1). cbn [mbind result_bind fst snd].
  destruct (Hs1 p) as [Ec _]. rewrite Ec, Hc. cbn [mbind result_bind].
  assert (Hchild : exists m2, (if c =? 0 then Ok (m1, log ++ [p]) else DestroyOwnedEntitiesRecursively fuel realm c (m1, log ++ [p]))
    = Ok (m2, (log ++ [p]) ++ all_owners cs) /\ same_links m1 m2).
  { destruct (Z.eqb_spec c 0) as [->|Hc0].
    - inversion Hcs; subst; [|done]. exists m1. by rewrite app_nil_r.
    - apply IH; [by apply (linked_same m)|done|lia]. }
  destruct Hchild as (m2 & -> & Hs2). cbn [mbind result_bind fst snd].
  pose proof (same_links_trans _ _ _ Hs1 Hs2) as Hs12. destruct (Hs12 p) as [_ En]. rewrite En, Hn. cbn [mbind result_bind].
  replace (log ++ all_owners (Owner p es cs :: ts')) with (((log ++ [p]) ++ all_owners cs) ++ all_owners ts')
    by (cbn; unfold all_owners; by rewrite <- !app_assoc).
  destruct (Z.eqb_spec n 0) as [->|Hn0].
  - inversion Hts; subst; [|done]. exists m2. by rewrite app_nil_r.
  - destruct (IH m2 n ts' ((log ++ [p]) ++ all_owners cs)) as (m3 & E & Hs3); [by apply (linked_same m)|done|lia|].
    exists m3. split; [done|]. by eapply same_links_trans.
Qed.
End destruction.
End Owners.

(** ** Buses *)

Module Buses.
Import Owners.

Section buses.
Context (m : Mem).

Definition m_nextSibling (bus : Z) : result Z := word_at m (bus + 0x28).
Definition m_firstChild (bus : Z) : result Z := word_at m (bus + 0x30).
Definition m_entityBusBridgeOrExposedObject (bus : Z) : result Z := word_at m (bus + 0x78).

(** The loop over a chain of siblings, with the call for each. *)
Fixpoint chain_busses (fuel : nat) (child : Z) : result (list Z) :=
  match fuel with
  | O => Fault OutOfFuel
  | S fuel' =>
    if child =? 0 then Ok [] else
    first ← m_firstChild child;
    childBusses ← chain_busses fuel' first;
    next ← m_nextSibling child;
    others ← chain_busses fuel' next;
    Ok (child :: childBusses ++ others)
  end.
Definition GetAllChildBusses (fuel : nat) (this : Z) : result (list Z) := first ← m_firstChild this; chain_busses fuel first.

(** A word that is a bridge when it is even, and else an exposed object. *)
Definition GetEntityBusBridge (bus : Z) : result Z :=
  w ← m_entityBusBridgeOrExposedObject bus; Ok (if Z.land w 1 =? 0 then w else 0).
Definition GetExposedObject (bus : Z) : result Z :=
  w ← m_entityBusBridgeOrExposedObject bus; Ok (if negb (Z.land w 1 =? 0) then Z.land w (2 ^ 64 - 2) else 0).

(** [EntityBus_convertDataToEntity] is the game's. *)
Definition GetExposedPeer (convertDataToEntity : Z -> Z -> Z) (bus : Z) : result Z :=
  entityBusBridge ← GetEntityBusBridge bus;
  if negb (entityBusBridge =? 0) then Ok (Z.land (u64 (entityBusBridge + 0x18)) (2 ^ 64 - 4)) else
  exposed ← GetExposedObject bus;
  if negb (exposed =? 0) then Ok (convertDataToEntity bus exposed) else Ok 0.
Definition GetExposedPeerData (bus : Z) : result Z :=
  entityBusBridge ← GetEntityBusBridge bus;
  if negb (entityBusBridge =? 0) then word_at m (entityBusBridge + 0x10) else GetExposedObject bus.

Inductive btree := Bus (address : Z) (children : list btree).

Inductive chain : Z -> list btree -> Prop :=
  | chain_nil : chain 0 []
  | chain_cons a c n cs ts :
      a <> 0 -> m_firstChild a = Ok c -> chain c cs -> m_nextSibling a = Ok n -> chain n ts -> chain a (Bus a cs :: ts).

Fixpoint busses (t : btree) : list Z := match t with Bus a cs => a :: flat_map busses cs end.
Definition all_busses (ts : list btree) : list Z := flat_map busses ts.

Lemma chain_all fuel p ts : chain p ts -> (length (all_busses ts) < fuel)%nat -> chain_busses fuel p = Ok (all_busses ts).
Proof.
  intros H. revert fuel. induction H as [|a c n cs ts Ha Hc Hcs IHc Hn Hts IHn]; intros [|fuel] Hf; try lia; [done|].
  assert (Hsplit : (length (all_busses cs) + length (all_busses ts) < fuel)%nat) by (cbn in Hf; rewrite length_app in Hf; unfold all_busses; lia).
  cbn [chain_busses]. rewrite (proj2 (Z.eqb_neq _ _) Ha), Hc. cbn [mbind result_bind]. rewrite IHc by lia. cbn [mbind result_bind].
  rewrite Hn. cbn [mbind result_bind]. rewrite IHn by lia. done.
Qed.

(** The buses below a bus, without itself. *)
Lemma GetAllChildBusses_below fuel bus c cs :
  m_firstChild bus = Ok c -> chain c cs -> (length (all_busses cs) < fuel)%nat -> GetAllChildBusses fuel bus = Ok (all_busses cs).
Proof. intros Hc H Hf. unfold GetAllChildBusses. rewrite Hc. by apply chain_all. Qed.

(** One of the two, whatever the word. *)
Lemma bridge_or_object bus w : m_entityBusBridgeOrExposedObject bus = Ok w ->
  GetEntityBusBridge bus = Ok 0 \/ GetExposedObject bus = Ok 0.
Proof. intros H. unfold GetEntityBusBridge, GetExposedObject. rewrite H. cbn. destruct (Z.land w 1 =? 0); [by right|by left]. Qed.
End buses.
End Buses.

(** ** The reload of a blueprint *)

Module Reload.
Import Owners Buses.

Section reload.
(** [EntityOwner::DestroyEntity], of the game, on the owner the reload is for. *)
Context (IsSpatial : Z -> bool) (DestroyEntity : Z -> Mem -> result Mem).

(** [entity->m_entityBus] with the layout of a [NativeEntity], whatever the entity
    is. The state is the memory and the entities destroyed so far. *)
Definition destroy_relevant (relevantBusSet : list Z) (st : Mem * list Z) (entity : Z) : result (Mem * list Z) :=
  bus ← native_bus st.1 entity;
  if negb (bool_decide (bus ∈ relevantBusSet)) then Ok st else
  m ← DestroyEntity entity st.1; Ok (m, st.2 ++ [entity]).

Definition ReloadBus_destroy (fuel : nat) (inst owner : Z) (m : Mem) : result (Mem * list Z) :=
  childBusses ← GetAllChildBusses m fuel inst;
  ownedEntities ← GetOwnedEntitiesRecursively IsSpatial m fuel owner;
  foldM (destroy_relevant (inst :: childBusses)) (m, []) ownedEntities.

(** Destroying an entity leaves the bus words of the others. *)
Definition leaves_others (entities : list Z) : Prop :=
  forall e m, e ∈ entities -> exists m', DestroyEntity e m = Ok m' /\ forall e', e' ∈ entities -> e' <> e -> native_bus m' e' = native_bus m e'.

Lemma destroy_loop (busses : list Z) (b : Z -> Z) es rest m log :
  leaves_others (es ++ rest) -> NoDup rest -> (forall e, e ∈ rest -> native_bus m e = Ok (b e)) ->
  exists m', foldM (destroy_relevant busses) (m, log) rest = Ok (m', log ++ base.filter (fun e => b e ∈ busses) rest).
Proof.
  revert es m log. induction rest as [|e rest IH]; intros es m log Hd Hnd Hb; [exists m; by rewrite app_nil_r|].
  apply list.NoDup_cons in Hnd as [Hnew Hnd]. cbn [foldM]. unfold destroy_relevant at 1. cbn [fst snd].
  rewrite (Hb e) by by left. cbn [mbind result_bind].
  assert (Hd' : leaves_others ((es ++ [e]) ++ rest)) by by rewrite <- app_assoc.
  case_bool_decide as He; cbn [negb].
  - destruct (Hd e m) as (m1 & -> & Hs); [apply elem_of_app; right; by left|]. cbn [mbind result_bind].
    destruct (IH (es ++ [e]) m1 (log ++ [e]) Hd' Hnd) as (m2 & E).
    + intros x Hx. rewrite Hs; [apply Hb; by right|apply elem_of_app; right; by right|by intros ->].
    + exists m2. rewrite E, list.filter_cons_True by done. by rewrite <- app_assoc.
  - destruct (IH (es ++ [e]) m log Hd' Hnd) as (m2 & E); [intros x Hx; apply Hb; by right|].
    exists m2. by rewrite E, list.filter_cons_False.
Qed.

(** A reload destroys, once and in order, the entities below the owner (or below
    its siblings) whose bus is the blueprint's or one below it, and no other,
    where every entity has the layout that the loop reads. *)
Theorem reload_destroys inst owner c cs ts (b : Z -> Z) m fuel :
  m_firstChild m inst = Ok c -> chain m c cs -> forest m owner ts -> owner <> 0 ->
  (forall e, e ∈ all_owned ts -> native_bus m e = Ok (b e)) -> NoDup (all_owned ts) -> leaves_others (all_owned ts) ->
  (length (all_busses cs) < fuel)%nat -> (forest_fuel ts <= fuel)%nat ->
  exists m', ReloadBus_destroy fuel inst owner m =
    Ok (m', base.filter (fun e => b e = inst \/ b e ∈ all_busses cs) (all_owned ts)).
Proof.
  intros Hc Hcs Hts Ho Hb Hnd Hd Hf Hf'. unfold ReloadBus_destroy.
  rewrite (GetAllChildBusses_below m fuel inst c cs) by done. cbn [mbind result_bind]. unfold GetOwnedEntitiesRecursively.
  destruct (forest_pointer _ _ _ Hts) as [[]|[_ Hne]]; [done|].
  rewrite (recursively_forest IsSpatial m fuel fuel owner ts); [|done..|eapply short_mono; [by eapply short_owned|done]|unfold forest_fuel in Hf'; lia].
  cbn [mbind result_bind]. destruct (destroy_loop (inst :: all_busses cs) b [] (all_owned ts) m [] Hd Hnd Hb) as (m' & E).
  exists m'. rewrite E. cbn [app]. do 2 f_equal. apply list_filter_iff. intros e. apply elem_of_cons.
Qed.
End reload.
End Reload.

(** ** Samples *)

Module Sample.
Import Owners Buses Reload.

(** An owner with two entities and a child, and an owner after it; two buses. *)
Definition words (l : list (Z * Z)) : Mem :=
  list_to_map (flat_map (fun p : Z * Z => zip (seqZ p.1 8) (le_split 8 p.2)) l).
Definition memory : Mem := words
  [(0x1010, 0x5008); (0x1028, 0x1100); (0x1030, 0x1200); (0x1110, 0x5208); (0x1128, 0); (0x1130, 0); (0x1210, 0); (0x1228, 0); (0x1230, 0);
   (0x5010, 0x5108); (0x5110, 0); (0x5210, 0); (0x5020, 0x2000); (0x5120, 0x3000); (0x5220, 0x2100);
   (0x2030, 0x2100); (0x2128, 0); (0x2130, 0)].
Definition trees : list otree := [Owner 0x1000 [0x5000; 0x5100] [Owner 0x1100 [0x5200] []]; Owner 0x1200 [] []].

Lemma memory_forest : forest memory 0x1000 trees.
Proof.
  assert (Hn : forall e n, next_node memory (e + 8) = Ok n -> forall es, e + 8 <> 0 -> node_list memory n es -> node_list memory (e + 8) (e :: es))
    by (intros; by econstructor).
  eapply (forest_cons _ _ 0x5008 0x1100 0x1200); [done|by vm_compute| |by vm_compute| |by vm_compute|].
  - eapply (Hn 0x5000 0x5108); [by vm_compute|done|]. eapply (Hn 0x5100 0); [by vm_compute|done|]. constructor.
  - eapply (forest_cons _ _ 0x5208 0 0); [done|by vm_compute| |by vm_compute|constructor|by vm_compute|constructor].
    eapply (Hn 0x5200 0); [by vm_compute|done|]. constructor.
  - eapply (forest_cons _ _ 0 0 0); [done|by vm_compute|constructor|by vm_compute|constructor|by vm_compute|constructor].
Qed.

Lemma owned_recursively_witness :
  GetOwnedEntitiesRecursively (fun _ => false) memory 6 0x1000 = Ok [0x5000; 0x5100; 0x5200].
Proof. apply (owned_recursively (fun _ => false) memory 0x1000 trees 6); [apply memory_forest|done|vm_compute; lia]. Defined.

(** An entity that is destroyed is no longer mapped. *)
Definition destroy (e : Z) (m : Mem) : result Mem := Ok (delete (e + 0x20) m).

Lemma destroy_leaves : leaves_others destroy (all_owned trees).
Proof.
  intros e m He. exists (delete (e + 0x20) m). split; [done|]. intros e' He' Hne.
  unfold native_bus, word_at, load_int. f_equal. apply load_ext. intros b Hb. apply lookup_delete_ne.
  cbn in He, He'. repeat (apply elem_of_cons in He as [->|He]; [repeat (apply elem_of_cons in He' as [->|He']; [lia|]); by apply not_elem_of_nil in He'|]).
  by apply not_elem_of_nil in He.
Qed.

Lemma reload_destroys_witness :
  exists m', ReloadBus_destroy (fun _ => false) destroy 6 0x2000 0x1000 memory = Ok (m', [0x5000; 0x5200]).
Proof.
  pose (b := fun e => if e =? 0x5000 then 0x2000 else if e =? 0x5100 then 0x3000 else 0x2100).
  apply (reload_destroys (fun _ => false) destroy 0x2000 0x1000 0x2100 [Bus 0x2100 []] trees b memory 6); [by vm_compute| |apply memory_forest|done| | |apply destroy_leaves|vm_compute; lia|vm_compute; lia].
  - eapply (chain_cons _ _ 0 0); [done|by vm_compute|constructor|by vm_compute|constructor].
  - intros e He. cbn in He. repeat (apply elem_of_cons in He as [->|He]; [by vm_compute|]). by apply not_elem_of_nil in He.
  - apply (bool_decide_unpack _). by vm_compute.
Defined.
End Sample.
