(* ===== verification/Console.v ===== *)
(** The commands of the console that name a player (Source/Core/Console.cpp), the
    stream their arguments come from (Public/Core/Console.h), and the look-ups
    of players (Source/SDK/SDK.cpp).

    Numbers are printed and read as the C++ library does it: [<<] and
    [std::to_string] print decimals, [>>] reads a sign and digits and goes to the
    end of the range when there are too many, [std::stoull] throws then. Numbers
    of 64 bits have at most 20 digits, which is the fuel of [decimal]. *)

From S2P Require Import Prelude.
From S2P Require Import ByteBuffer.
From S2P Require Import StringUtils.
From S2P Require Import Server.

(** ** Numbers as text *)

Module Numbers.
Definition isspace (c : byte) : bool := (byte.unsigned c =? 32) || ((9 <=? byte.unsigned c) && (byte.unsigned c <=? 13)).
Definition digit (c : byte) : option Z :=
  if (48 <=? byte.unsigned c) && (byte.unsigned c <=? 57) then Some (byte.unsigned c - 48) else None.
Definition digit_char (d : Z) : byte := byte.of_Z (48 + d).

Fixpoint skip_space (s : list byte) : list byte :=
  match s with c :: s' => if isspace c then skip_space s' else s | [] => [] end.
Fixpoint word (s : list byte) : list byte :=
  match s with c :: s' => if isspace c then [] else c :: word s' | [] => [] end.

(** The digits a text starts with. *)
Fixpoint digits (s : list byte) : list Z :=
  match s with c :: s' => match digit c with Some d => d :: digits s' | None => [] end | [] => [] end.
Definition value (ds : list Z) : Z := foldl (fun a d => 10 * a + d) 0 ds.

(** A sign and digits: whether it is negative, and the magnitude. *)
Definition number (s : list byte) : option (bool * Z) :=
  let '(negative, s) := match s with
    | c :: s' => if decide (c = Byte.x2d) then (true, s') else if decide (c = Byte.x2b) then (false, s') else (false, s)
    | [] => (false, [])
    end in
  match digits s with [] => None | ds => Some (negative, value ds) end.

(** [>>] into an [int] that holds [old], if anything: no characters leave it alone,
    no number gives 0, one out of range the end of the range. *)
Definition read_int (token : list byte) (old : option Z) : option Z :=
  match skip_space token with
  | [] => old
  | s => match number s with
         | None => Some 0
         | Some (negative, n) => Some (Z.max (- 2 ^ 31) (Z.min (2 ^ 31 - 1) (if negative then - n else n)))
         end
  end.

(** [>>] into an unsigned number of so many bits: a negative one wraps. *)
Definition read_uint (w : Z) (token : list byte) (old : option Z) : option Z :=
  match skip_space token with
  | [] => old
  | s => match number s with
         | None => Some 0
         | Some (negative, n) => Some (if 2 ^ w <=? n then 2 ^ w - 1 else uwrap w (if negative then - n else n))
         end
  end.

(** [>>] into a string. *)
Definition read_word (token old : list byte) : list byte := match skip_space token with [] => old | s => word s end.

(** [std::stoull] *)
Definition stoull (s : list byte) : result Z :=
  match number (skip_space s) with
  | None => Fault Thrown
  | Some (negative, n) => if 2 ^ 64 <=? n then Fault Thrown else Ok (u64 (if negative then - n else n))
  end.

(** [std::to_string], and [<<] of a number. *)
Fixpoint decimal_at (fuel : nat) (n : Z) : list byte :=
  match fuel with
  | O => []
  | S fuel' => if n <? 10 then [digit_char n] else decimal_at fuel' (n / 10) ++ [digit_char (n mod 10)]
  end.
Definition decimal (z : Z) : list byte := if z <? 0 then Byte.x2d :: decimal_at 20 (- z) else decimal_at 20 z.

(** *** Lemmas *)

Lemma unsigned_digit_char d : 0 <= d < 10 -> byte.unsigned (digit_char d) = 48 + d.
Proof. intros H. unfold digit_char. rewrite byte.unsigned_of_Z. apply Z.mod_small. lia. Qed.

Lemma digit_digit_char d : 0 <= d < 10 -> digit (digit_char d) = Some d.
Proof.
  intros H. unfold digit. rewrite unsigned_digit_char by done.
  rewrite (proj2 (Z.leb_le 48 _)), (proj2 (Z.leb_le _ 57)) by lia. cbn. f_equal. lia.
Qed.

Lemma digits_app ds s : Forall (fun d => 0 <= d < 10) ds -> digits ((digit_char <$> ds) ++ s) = ds ++ digits s.
Proof. induction 1 as [|d ds Hd Hds IH]; [done|]. cbn [fmap list_fmap app digits]. rewrite digit_digit_char by done. by rewrite IH. Qed.

Lemma decimal_at_digits fuel n :
  0 <= n < 10 ^ Z.of_nat fuel ->
  exists ds, decimal_at fuel n = digit_char <$> ds /\ Forall (fun d => 0 <= d < 10) ds /\ value ds = n /\ (n = 0 -> fuel = O \/ ds <> []) /\ (0 < n -> ds <> []).
Proof.
  revert n. induction fuel as [|fuel IH]; intros n Hn; [exists []; cbn in *; split_and!; try done; (by left || lia)|].
  cbn [decimal_at]. destruct (Z.ltb_spec n 10).
  - exists [n]. split; [done|]. split; [by repeat constructor; lia|]. split; [unfold value; cbn [foldl]; lia|]. by split; [right|].
  - rewrite Nat2Z.inj_succ, Z.pow_succ_r in Hn by lia.
    destruct (IH (n / 10)) as (ds & -> & Hds & Hv & _); [split; [apply Z.div_pos; lia|apply Z.div_lt_upper_bound; lia]|].
    pose proof (Z.mod_pos_bound n 10). exists (ds ++ [n mod 10]). rewrite fmap_app. split; [done|]. split.
    { apply list.Forall_app. split; [done|]. repeat constructor; lia. }
    split; [unfold value; rewrite foldl_app; fold (value ds); rewrite Hv; cbn; pose proof (Z.div_mod n 10); lia|].
    split; [lia|]. by intros _ [_ [=]]%app_eq_nil.
Qed.

(** What a printed number starts with. *)
Lemma decimal_cases z :
  - 10 ^ 20 < z < 10 ^ 20 ->
  exists ds, ds <> [] /\ Forall (fun d => 0 <= d < 10) ds /\
    decimal z = (if z <? 0 then [Byte.x2d] else []) ++ (digit_char <$> ds) /\ value ds = Z.abs z.
Proof.
  intros Hz. destruct (decimal_at_digits 20 (Z.abs z)) as (ds & E & Hds & Hv & H0 & H1); [cbn; lia|].
  exists ds. split; [destruct (decide (Z.abs z = 0)) as [e|]; [by destruct (H0 e)|apply H1; lia]|]. split; [done|]. split; [|done].
  unfold decimal. destruct (Z.ltb_spec z 0); rewrite <- E; cbn [app]; do 2 f_equal; lia.
Qed.

Lemma digit_not_space d : 0 <= d < 10 -> isspace (digit_char d) = false.
Proof.
  intros H. unfold isspace. rewrite unsigned_digit_char by done.
  rewrite (proj2 (Z.eqb_neq _ 32)), (proj2 (Z.leb_gt _ 13)) by lia. by rewrite andb_false_r.
Qed.

Lemma digit_not_sign d : 0 <= d < 10 -> digit_char d <> Byte.x2d /\ digit_char d <> Byte.x2b.
Proof. intros H. split; intros E; pose proof (unsigned_digit_char d H) as Hu; rewrite E in Hu; cbn in Hu; lia. Qed.

(** A printed number is read back, whatever follows its digits. *)
Lemma number_decimal z rest :
  - 10 ^ 20 < z < 10 ^ 20 -> digits rest = [] ->
  skip_space (decimal z ++ rest) = decimal z ++ rest /\ decimal z <> [] /\
  number (decimal z ++ rest) = Some (z <? 0, Z.abs z).
Proof.
  intros Hz Hr. destruct (decimal_cases z Hz) as (ds & Hne & Hds & -> & Hv).
  destruct ds as [|d ds]; [done|]. pose proof (List.Forall_inv Hds) as Hd. destruct (digit_not_sign d Hd) as [H1 H2].
  destruct (Z.ltb_spec z 0); cbn [app].
  - split; [done|]. split; [done|]. unfold number. rewrite decide_True by done.
    rewrite digits_app by done. rewrite Hr, app_nil_r. by rewrite Hv.
  - rewrite fmap_cons. cbn [app]. split; [cbn [skip_space]; by rewrite digit_not_space|]. split; [done|].
    unfold number. rewrite !decide_False by done. change (digit_char d :: (digit_char <$> ds) ++ rest) with ((digit_char <$> d :: ds) ++ rest).
    rewrite digits_app by done. rewrite Hr, app_nil_r. by rewrite Hv.
Qed.

Lemma read_int_decimal z rest old : srange 32 z -> digits rest = [] -> read_int (decimal z ++ rest) old = Some z.
Proof.
  intros Hz Hr. unfold srange in Hz. destruct (number_decimal z rest ltac:(lia) Hr) as (Hs & Hne & Hn).
  unfold read_int. rewrite Hs. destruct (decimal z ++ rest) eqn:E; [by apply app_eq_nil in E as [? _]|]. rewrite Hn.
  f_equal. destruct (Z.ltb_spec z 0); lia.
Qed.

Lemma read_uint_decimal w z rest old : 0 <= w <= 64 -> urange w z -> digits rest = [] -> read_uint w (decimal z ++ rest) old = Some z.
Proof.
  intros Hw Hz Hr. pose proof (Z.pow_le_mono_r 2 w 64 ltac:(lia) ltac:(lia)). unfold urange in Hz.
  destruct (number_decimal z rest) as (Hs & Hne & Hn); [lia|done|].
  unfold read_uint. rewrite Hs. destruct (decimal z ++ rest) eqn:E; [by apply app_eq_nil in E as [? _]|]. rewrite Hn.
  rewrite (proj2 (Z.ltb_ge z 0)), Z.abs_eq, (proj2 (Z.leb_gt _ _)) by lia. f_equal. by apply uwrap_small.
Qed.

Lemma stoull_decimal z : urange 64 z -> stoull (decimal z) = Ok z.
Proof.
  intros Hz. unfold urange in Hz. destruct (number_decimal z [] ltac:(lia) eq_refl) as (Hs & _ & Hn). rewrite app_nil_r in Hs, Hn.
  unfold stoull. rewrite Hs, Hn, (proj2 (Z.ltb_ge z 0)), Z.abs_eq, (proj2 (Z.leb_gt _ _)) by lia. f_equal. by apply uwrap_small.
Qed.

Lemma decimal_inj z z' : urange 64 z -> urange 64 z' -> decimal z = decimal z' -> z = z'.
Proof. intros Hz Hz' E. apply stoull_decimal in Hz, Hz'. congruence. Qed.

(** A word: what [>>] reads as one string. *)
Definition is_word (s : list byte) : Prop := s <> [] /\ Forall (fun c => isspace c = false) s.

Lemma read_word_id s old : is_word s -> read_word s old = s.
Proof.
  intros [Hne Hs]. unfold read_word. assert (Hk : skip_space s = s) by (destruct Hs as [|c s Hc]; [done|cbn; by rewrite Hc]).
  rewrite Hk. destruct s as [|c s]; [done|]. clear Hne Hk. induction Hs as [|x l Hx Hl IH]; [done|]. cbn [word]. by rewrite Hx, IH.
Qed.

Lemma decimal_not_space z : - 10 ^ 20 < z < 10 ^ 20 -> Forall (fun c => isspace c = false) (decimal z).
Proof.
  intros Hz. destruct (decimal_cases z Hz) as (ds & _ & Hds & -> & _). apply list.Forall_app. split; [by destruct (z <? 0); repeat constructor|].
  apply list.Forall_fmap. eapply list.Forall_impl; [exact Hds|]. intros d. apply digit_not_space.
Qed.

Lemma decimal_no_nul z : - 10 ^ 20 < z < 10 ^ 20 -> Byte.x00 ∉ decimal z.
Proof.
  intros Hz. destruct (decimal_cases z Hz) as (ds & _ & Hds & -> & _). rewrite elem_of_app. intros [H|H].
  - destruct (z <? 0); [by apply list_elem_of_singleton in H|by apply not_elem_of_nil in H].
  - apply list_elem_of_fmap in H as (d & Hd & Hin). rewrite list.Forall_forall in Hds.
    pose proof (unsigned_digit_char d (Hds d Hin)) as Hu. rewrite <- Hd in Hu. cbn in Hu. specialize (Hds d Hin). cbn in Hds. lia.
Qed.
End Numbers.

(** ** The stream of arguments *)

Module Stream.
Import Numbers.

Definition delimiter : byte := Byte.x20.

(** [std::getline] up to the delimiter: the token and what is left. A stream at
    its end gives none, also when a delimiter was read last. *)
Fixpoint split_at (s : list byte) : list byte * list byte :=
  match s with
  | [] => ([], [])
  | c :: s' => if decide (c = delimiter) then ([], s') else let '(t, r) := split_at s' in (c :: t, r)
  end.
Definition getline (s : list byte) : option (list byte * list byte) := match s with [] => None | _ => Some (split_at s) end.

(** [ConsoleStream::operator>>] on a variable that holds [old]. *)
Definition extract {A} (read : list byte -> A -> A) (old : A) (s : list byte) : A * list byte :=
  match getline s with None => (old, s) | Some (token, rest) => (read token old, rest) end.

(** A variable that may not have a value when it is read. *)
Definition initialized {A} (v : option A) : result A := of_option Undefined v.

Lemma split_at_word t s : Forall (fun c => isspace c = false) t -> split_at (t ++ delimiter :: s) = (t, s).
Proof.
  induction 1 as [|c t Hc Ht IH]; [done|]. cbn [app split_at]. rewrite decide_False by by intros ->. by rewrite IH.
Qed.

Lemma split_at_last t : Forall (fun c => isspace c = false) t -> split_at t = (t, []).
Proof. induction 1 as [|c t Hc Ht IH]; [done|]. cbn [split_at]. rewrite decide_False by by intros ->. by rewrite IH. Qed.

(** A token without whitespace, followed by others or at the end. *)
Lemma extract_token {A} (read : list byte -> A -> A) old t s :
  Forall (fun c => isspace c = false) t -> extract read old (t ++ delimiter :: s) = (read t old, s).
Proof. intros Ht. unfold extract, getline. destruct (t ++ delimiter :: s) eqn:E; [by destruct t|]. rewrite <- E. by rewrite split_at_word. Qed.

Lemma extract_last {A} (read : list byte -> A -> A) old t :
  t <> [] -> Forall (fun c => isspace c = false) t -> extract read old t = (read t old, []).
Proof. intros Hne Ht. unfold extract, getline. destruct t; [done|]. by rewrite split_at_last. Qed.
End Stream.

(** ** Players *)

Module Players.
Import Teams.

(** The players of [ServerPlayerManager]; a null pointer among them is followed. *)
Fixpoint find_player (includeAI : bool) (p : ServerPlayer -> bool) (i : nat) (l : list (option ServerPlayer)) : result (option nat) :=
  match l with
  | [] => Ok None
  | None :: _ => Fault Undefined
  | Some player :: l' =>
    if negb includeAI && IsAIPlayer player then find_player includeAI p (S i) l' else
    if negb (p player) then find_player includeAI p (S i) l' else
    Ok (Some i)
  end.

Definition has_name (name : list byte) (p : ServerPlayer) : bool := bool_decide (c_str (m_name p) = c_str name).
Definition has_id (id : Z) (p : ServerPlayer) : bool := m_nativeData p =? id.

Definition GetPlayer_name (name : list byte) (players : list (option ServerPlayer)) : result (option nat) :=
  find_player false (has_name name) 0 players.
Definition GetPlayer (id : Z) (includeAI : bool) (players : list (option ServerPlayer)) : result (option nat) :=
  find_player includeAI (has_id id) 0 players.
Definition GetSpectator_name (name : list byte) (spectators : list (option ServerPlayer)) : result (option nat) :=
  find_player false (has_name name) 0 spectators.
Definition GetSpectator (id : Z) (spectators : list (option ServerPlayer)) : result (option nat) :=
  find_player false (has_id id) 0 spectators.

(** A player by the list and the position it was found at. *)
Inductive Found := Playing (i : nat) | Spectating (i : nat).

Definition GetPlayerOrSpectator (id : Z) (players spectators : list (option ServerPlayer)) : result (option Found) :=
  player ← GetPlayer id false players;
  match player with
  | Some i => Ok (Some (Playing i))
  | None => spectator ← GetSpectator id spectators; Ok (option_map Spectating spectator)
  end.
Definition GetPlayerOrSpectator_name (name : list byte) (players spectators : list (option ServerPlayer)) : result (option Found) :=
  player ← GetPlayer_name name players;
  match player with
  | Some i => Ok (Some (Playing i))
  | None => spectator ← GetSpectator_name name spectators; Ok (option_map Spectating spectator)
  end.

(** The first that qualifies. *)
Definition qualifies (includeAI : bool) (p : ServerPlayer -> bool) (x : ServerPlayer) : Prop :=
  (includeAI = true \/ IsAIPlayer x = false) /\ p x = true.

Lemma find_player_first ai p i l1 x l2 :
  Forall (fun o => exists y, o = Some y /\ ~ qualifies ai p y) l1 -> qualifies ai p x ->
  find_player ai p i (l1 ++ Some x :: l2) = Ok (Some (i + length l1)%nat).
Proof.
  intros H [Hx Hp]. revert i. induction H as [|o l1 (y & -> & Hy) H IH]; intros i; cbn [app find_player length].
  - rewrite Nat.add_0_r. destruct Hx as [-> | ->]; cbn [negb andb]; rewrite ?andb_false_r, Hp; done.
  - rewrite IH. replace (S i + length l1)%nat with (i + S (length l1))%nat by lia.
    destruct (negb ai && IsAIPlayer y) eqn:Ea; [done|]. destruct (p y) eqn:Ep; [|done]. destruct Hy. split; [|done].
    destruct ai; [by left|]. right. by destruct (IsAIPlayer y).
Qed.

Lemma find_player_none ai p i l :
  Forall (fun o => exists y, o = Some y /\ ~ qualifies ai p y) l -> find_player ai p i l = Ok None.
Proof.
  intros H. revert i. induction H as [|o l (y & -> & Hy) H IH]; intros i; [done|]. cbn [find_player]. rewrite !IH.
  destruct (negb ai && IsAIPlayer y) eqn:Ea; [done|]. destruct (p y) eqn:Ep; [|done]. destruct Hy. split; [|done].
  destruct ai; [by left|]. right. by destruct (IsAIPlayer y).
Qed.
End Players.

(** ** Commands *)

Module Commands.
Import Teams Numbers Stream Players.

Inductive Call := SetBattlepoints (player : nat) (amount : Z) | AddBattlepoints (player : nat) (amount : Z) | Broadcast (message : list byte).

(** What the commands work on: the players, whether a server runs, the calls made
    of the game, and the pieces of output. *)
Record ConsoleState := mkState { m_players : list (option ServerPlayer); m_running : bool; calls : list Call; out : list (list byte) }.

Definition print (pieces : list (list byte)) (st : ConsoleState) : ConsoleState := mkState (m_players st) (m_running st) (calls st) (out st ++ pieces).
Definition set_players l (st : ConsoleState) : ConsoleState := mkState l (m_running st) (calls st) (out st).
Definition call (c : Call) (st : ConsoleState) : ConsoleState := mkState (m_players st) (m_running st) (calls st ++ [c]) (out st).

Section commands.
(** The game's [SetTeam], and the points of a player after the calls made. *)
Context (SetTeam : ServerPlayer -> Z -> ServerPlayer) (m_battlepoints : nat -> list Call -> Z).

Definition set_team_of (i : nat) (team : Z) (st : ConsoleState) : ConsoleState := set_players (set_team SetTeam (m_players st) (i, team)) st.
Definition name_of (i : nat) (st : ConsoleState) : list byte := match m_players st !! i with Some (Some p) => c_str (m_name p) | _ => [] end.

Definition SetTeamCommand (rawArguments : list byte) (st : ConsoleState) : result ConsoleState :=
  let '(playerName, stream) := extract read_word [] (c_str rawArguments) in
  let '(team, _) := extract read_int None stream in
  player ← GetPlayer_name playerName (m_players st);
  match player with
  | None => Ok (print [bstr "Couldn't find player "; playerName] st)
  | Some i =>
    team ← initialized team;
    Ok (print [bstr "Set "; playerName; bstr " to team "; decimal team] (set_team_of i team st))
  end.

(** The size is compared as an unsigned number: no negative index is below it. *)
Definition SetTeamByIndexCommand (rawArguments : list byte) (st : ConsoleState) : result ConsoleState :=
  let '(index, stream) := extract read_int None (c_str rawArguments) in
  let '(team, _) := extract read_int None stream in
  index ← initialized index;
  if len (m_players st) <=? u64 index then Ok (print [bstr "Player index out of bounds"] st) else
  match m_players st !! Z.to_nat index with
  | Some (Some player) =>
    team ← initialized team;
    let st := set_team_of (Z.to_nat index) team st in
    Ok (print [bstr "Set "; name_of (Z.to_nat index) st; bstr " to team "; decimal team] st)
  | _ => Ok (print [bstr "Couldn't find player at "; decimal index] st)
  end.

Definition SetTeamByIdCommand (rawArguments : list byte) (st : ConsoleState) : result ConsoleState :=
  let '(id, stream) := extract (read_uint 64) None (c_str rawArguments) in
  let '(team, _) := extract read_int None stream in
  id ← initialized id;
  player ← GetPlayer id false (m_players st);
  match player with
  | None => Ok (print [bstr "Couldn't find player "; decimal id] st)
  | Some i =>
    team ← initialized team;
    let st := set_team_of i team st in
    Ok (print [bstr "Set "; name_of i st; bstr " to team "; decimal team] st)
  end.

Definition no_server : list byte := bstr "This is a server command, and you aren't running a server!".

Definition SetBattlepointsCommand (rawArguments : list byte) (st : ConsoleState) : result ConsoleState :=
  let '(playerName, stream) := extract read_word [] (c_str rawArguments) in
  let '(amount, _) := extract read_int None stream in
  if negb (m_running st) then Ok (print [no_server] st) else
  player ← GetPlayer_name playerName (m_players st);
  match player with
  | None => Ok (print [bstr "Couldn't find player "; playerName] st)
  | Some i =>
    amount ← initialized amount;
    Ok (print [bstr "Set "; playerName; bstr "'s battlepoints to "; decimal amount] (call (SetBattlepoints i (u32 amount)) st))
  end.

Definition GiveBattlepointsCommand (rawArguments : list byte) (st : ConsoleState) : result ConsoleState :=
  let '(playerName, stream) := extract read_word [] (c_str rawArguments) in
  let '(amount, _) := extract read_int None stream in
  if negb (m_running st) then Ok (print [no_server] st) else
  player ← GetPlayer_name playerName (m_players st);
  match player with
  | None => Ok (print [bstr "Couldn't find player "; playerName] st)
  | Some i =>
    amount ← initialized amount;
    let st := call (AddBattlepoints i amount) st in
    Ok (print [bstr "Gave "; playerName; bstr " "; decimal amount; bstr " battlepoints, now has ";
               decimal (m_battlepoints i (calls st)); bstr " total"] st)
  end.

(** The whole text of the arguments is the message. *)
Definition BroadcastCommand (rawArguments : list byte) (st : ConsoleState) : ConsoleState :=
  if negb (m_running st) then print [no_server] st else call (Broadcast (c_str rawArguments)) st.

(** *** Properties *)

Definition present (p : ServerPlayer -> bool) (i : nat) (x : ServerPlayer) (players : list (option ServerPlayer)) : Prop :=
  exists l1 l2, players = l1 ++ Some x :: l2 /\ length l1 = i /\ IsAIPlayer x = false /\ p x = true /\
    Forall (fun o => exists y, o = Some y /\ ~ qualifies false p y) l1.

Lemma present_found p i x players : present p i x players -> find_player false p 0 players = Ok (Some i) /\ players !! i = Some (Some x).
Proof.
  intros (l1 & l2 & -> & <- & Hai & Hp & Hl). split; [|by rewrite list_lookup_middle].
  rewrite find_player_first; [done|done|]. split; [by right|done].
Qed.

Lemma c_str_args t n : Byte.x00 ∉ t -> - 10 ^ 20 < n < 10 ^ 20 -> c_str (t ++ delimiter :: decimal n) = t ++ delimiter :: decimal n.
Proof. intros Ht Hn. apply c_str_id. rewrite elem_of_app, elem_of_cons. intros [|[|H]]; [done|done|]. by apply (decimal_no_nul n Hn). Qed.

(** The two arguments of a command, a word and a number. *)
Lemma two_arguments {A} (read : list byte -> A -> A) (old : A) t n :
  is_word t -> srange 32 n ->
  extract read old (t ++ delimiter :: decimal n) = (read t old, decimal n) /\ extract read_int None (decimal n) = (Some n, []).
Proof.
  intros [_ Ht] Hn. split; [by apply extract_token|]. unfold srange in Hn.
  destruct (number_decimal n [] ltac:(lia) eq_refl) as (_ & Hne & _).
  rewrite extract_last by (done || (apply decimal_not_space; lia)).
  rewrite <- (app_nil_r (decimal n)), (read_int_decimal n []) by done. done.
Qed.

Lemma decimal_is_word n : - 10 ^ 20 < n < 10 ^ 20 -> is_word (decimal n).
Proof.
  intros Hn. destruct (number_decimal n [] Hn eq_refl) as (_ & Hne & _). split; [done|]. by apply decimal_not_space.
Qed.

(** A team is set by name, by identifier or by position: the three commands,
    given what is printed of a player and of a team, set this player's team,
    leave every other player and everything else alone, and say so. A player is
    found by name or identifier when no other one before it (artificial ones
    aside) has them; the name must be one word. *)
Theorem team_set_alike i x team st :
  srange 32 team -> urange 64 (m_nativeData x) -> Z.of_nat i < 2 ^ 31 -> is_word (m_name x) -> Byte.x00 ∉ m_name x ->
  present (has_name (m_name x)) i x (m_players st) -> present (has_id (m_nativeData x)) i x (m_players st) ->
  exists l1 l2, m_players st = l1 ++ Some x :: l2 /\ length l1 = i /\
    let st' n := mkState (l1 ++ Some (SetTeam x team) :: l2) (m_running st) (calls st)
                   (out st ++ [bstr "Set "; n; bstr " to team "; decimal team]) in
    SetTeamCommand (m_name x ++ delimiter :: decimal team) st = Ok (st' (m_name x)) /\
    SetTeamByIdCommand (decimal (m_nativeData x) ++ delimiter :: decimal team) st = Ok (st' (c_str (m_name (SetTeam x team)))) /\
    SetTeamByIndexCommand (decimal (Z.of_nat i) ++ delimiter :: decimal team) st = Ok (st' (c_str (m_name (SetTeam x team)))).
Proof.
  intros Hteam Hid Hi Hw H0 Hname Hpid.
  destruct (present_found _ _ _ _ Hname) as [Fn Hx]. destruct (present_found _ _ _ _ Hpid) as [Fi _].
  destruct Hname as (l1 & l2 & Hl & Hlen & _). exists l1, l2. split; [done|]. split; [done|]. cbv zeta.
  assert (Hset : set_team SetTeam (m_players st) (i, team) = l1 ++ Some (SetTeam x team) :: l2).
  { unfold set_team. cbn [fst snd]. rewrite Hl, <- Hlen. replace (length l1) with (length l1 + 0)%nat by lia. by rewrite alter_app_r. }
  assert (Hnm : name_of i (set_team_of i team st) = c_str (m_name (SetTeam x team))).
  { unfold name_of, set_team_of. cbn [m_players set_players]. rewrite Hset, <- Hlen, list_lookup_middle by done. done. }
  unfold urange in Hid. unfold srange in Hteam.
  split; [|split].
  - unfold SetTeamCommand. rewrite c_str_args by (done || lia). destruct (two_arguments read_word [] (m_name x) team Hw Hteam) as [-> ->].
    rewrite read_word_id by done. unfold GetPlayer_name. rewrite Fn. cbn [mbind result_bind initialized of_option].
    unfold set_team_of. by rewrite Hset.
  - unfold SetTeamByIdCommand. pose proof (decimal_is_word (m_nativeData x) ltac:(lia)) as Hdw.
    rewrite c_str_args by (lia || apply decimal_no_nul; lia).
    destruct (two_arguments (read_uint 64) None _ team Hdw Hteam) as [-> ->].
    rewrite <- (app_nil_r (decimal (m_nativeData x))), (read_uint_decimal 64 _ []) by (done || lia). cbn [mbind result_bind initialized of_option].
    unfold GetPlayer. rewrite Fi. cbn [mbind result_bind]. rewrite Hnm. unfold set_team_of. by rewrite Hset.
  - unfold SetTeamByIndexCommand. pose proof (decimal_is_word (Z.of_nat i) ltac:(lia)) as Hdw.
    rewrite c_str_args by (lia || apply decimal_no_nul; lia).
    destruct (two_arguments read_int None _ team Hdw Hteam) as [-> ->].
    rewrite <- (app_nil_r (decimal (Z.of_nat i))), (read_int_decimal _ []) by (done || unfold srange; lia). cbn [mbind result_bind initialized of_option].
    rewrite uwrap_small by (unfold urange; lia). rewrite (proj2 (Z.leb_gt _ _)) by (apply lookup_lt_Some in Hx; lia).
    rewrite Nat2Z.id, Hx, Hnm. unfold set_team_of. by rewrite Hset.
Qed.

(** A command without the number of the team reads a variable that has no value,
    once the player is found. *)
Lemma team_missing name i st :
  is_word name -> Byte.x00 ∉ name -> GetPlayer_name name (m_players st) = Ok (Some i) -> SetTeamCommand name st = Fault Undefined.
Proof.
  intros Hw H0 Hf. unfold SetTeamCommand. rewrite c_str_id by done. rewrite extract_last by apply Hw. rewrite read_word_id by done.
  change (extract read_int None []) with (@None Z, @nil byte). cbv iota beta. by rewrite Hf.
Qed.
End commands.
End Commands.

(** ** Samples *)

Module Sample.
Import Teams Players Commands.

Definition ann : ServerPlayer := mkPlayer (bstr "Ann") 1 1000 1.
Definition bot : ServerPlayer := mkPlayer (bstr "Ann") 0xFF 133700 1.
Definition state : ConsoleState := mkState [Some bot; Some ann] true [] [].
Definition change (p : ServerPlayer) (t : Z) : ServerPlayer := mkPlayer (m_name p) (m_localPlayerId p) (m_nativeData p) t.

Lemma ann_present p : p ann = true -> present p 1 ann (m_players state).
Proof.
  intros H. exists [Some bot], []. repeat (split; [done|]). constructor; [|constructor]. exists bot. split; [done|]. by intros [[|] _].
Qed.

(** "SetTeam Ann -3", "SetTeamById 1000 -3" and "SetTeamByIndex 1 -3". *)
Lemma team_set_alike_witness :
  exists l1 l2, m_players state = l1 ++ Some ann :: l2 /\ length l1 = 1%nat /\
    let st' n := mkState (l1 ++ Some (change ann (-3)) :: l2) true [] [bstr "Set "; n; bstr " to team "; bstr "-3"] in
    SetTeamCommand change (bstr "Ann -3") state = Ok (st' (bstr "Ann")) /\
    SetTeamByIdCommand change (bstr "1000 -3") state = Ok (st' (bstr "Ann")) /\
    SetTeamByIndexCommand change (bstr "1 -3") state = Ok (st' (bstr "Ann")).
Proof.
  refine (team_set_alike change 1 ann (-3) state _ _ _ _ _ _ _); [by vm_compute|by vm_compute|done| | |by apply ann_present..].
  - split; [done|]. repeat constructor.
  - apply (bool_decide_unpack _). by vm_compute.
Defined.
End Sample.
