(* ===== verification/Management.v ===== *)
(** What a hosted server does beside the game: the statistics of its players
    (Source/Persistence/PersistenceManager.cpp and PersistenceDatabase.cpp), the
    messages to and from the server management (Source/RPC/API/
    ServerManagement.cpp) and the game messages that drive both
    (Source/Core/Program.cpp).

    Floating-point values are known by their bits; [Floats] gives the comparison
    that decides which of them are saved, with the Standard Library's
    specification of IEEE 754 arithmetic. *)

From Stdlib Require Import Floats.SpecFloat.
From S2P Require Import Prelude.
From S2P Require Import OrdMap.
From S2P Require Import ByteBuffer.
From S2P Require Import StringUtils.
From S2P Require Import Server.
From S2P Require Import Console.

(** ** Floats *)

Module Floats.
(** The value of the 32 bits of a [float]. *)
Definition float_of_bits (b : Z) : spec_float :=
  let s := Z.testbit b 31 in
  let e := Z.land (Z.shiftr b 23) 255 in
  let m := Z.land b (2 ^ 23 - 1) in
  if e =? 255 then (if m =? 0 then S754_infinity s else S754_nan)
  else if e =? 0 then match m with Zpos p => S754_finite s p (-149) | _ => S754_zero s end
  else match m + 2 ^ 23 with Zpos p => S754_finite s p (e - 150) | _ => S754_zero s end.

Definition fsub : spec_float -> spec_float -> spec_float := SFsub 24 128.
(** The promotion to [double]. *)
Definition to_double (x : spec_float) : spec_float :=
  match x with S754_finite s m e => binary_normalize 53 1024 (cond_Zopp s (Zpos m)) e s | _ => x end.
(** The [double] 0.000001. *)
Definition kEpsilon : spec_float := S754_finite false 0x10C6F7A0B5ED8D (-72).

(** [fabsf(current - reference) > 0.000001] *)
Definition differs (current reference : Z) : bool :=
  SFltb kEpsilon (to_double (SFabs (fsub (float_of_bits current) (float_of_bits reference)))).

Lemma fsub_self x : match fsub x x with S754_zero _ | S754_nan => True | _ => False end.
Proof.
  unfold fsub, SFsub. destruct x as [s|s| |s m e]; cbn; try done.
  - by destruct s.
  - by destruct s.
  - rewrite Z.min_id. by rewrite Z.sub_diag.
Qed.

(** A value differs from none that has the same bits. *)
Lemma differs_same x : differs x x = false.
Proof. unfold differs. pose proof (fsub_self (float_of_bits x)) as H. by destruct (fsub _ _). Qed.
End Floats.

(** ** Statistics *)

Module Stats.
Import Teams Numbers Floats.

(** [PersistentStorage::Value] without the value the game read first. *)
Record Value := mkValue { current : Z; reference : Z }.

(** A player with the storage of its persistence extent, which may be null. *)
Record Player := mkStatsPlayer { base : ServerPlayer; m_isSpectator : bool; m_persistentStorage : option (list Value) }.
Definition PlayerStatsMap : Type := omap (list byte) Z.

Definition set_storage (values : list Value) (p : Player) : Player := mkStatsPlayer (base p) (m_isSpectator p) (Some values).
Definition set_current (v : Z) (x : Value) : Value := mkValue v (reference x).

Definition kNoOffset : Z := 0xFFFFFFFF.

Section stats.
(** The game's template of the storage: how many values, their names and where
    they are. *)
Context (GetCount : Z) (GetName : Z -> list byte) (GetOffset : list byte -> Z).

Definition extract_value (values : list Value) (stats : PlayerStatsMap) (i : Z) : result PlayerStatsMap :=
  let name := GetName i in
  value ← of_option Undefined (values !! Z.to_nat (GetOffset name));
  Ok (if negb (differs (current value) (reference value)) then stats else omap_insert name (current value) stats).

Definition ExtractPlayerStats (player : Player) : result PlayerStatsMap :=
  if IsAIPlayer (base player) || m_isSpectator player then Ok [] else
  values ← of_option Undefined (m_persistentStorage player);
  foldM (extract_value values) [] (seqZ 0 GetCount).

Definition apply_entry (values : list Value) (entry : list byte * Z) : result (list Value) :=
  let offset := GetOffset (c_str entry.1) in
  if offset =? kNoOffset then Ok values else
  value ← of_option Undefined (values !! Z.to_nat offset);
  Ok (<[Z.to_nat offset := set_current entry.2 value]> values).

(** The player after it, and whether the game was told to replicate it. *)
Definition ApplyPlayerStats (player : Player) (stats : PlayerStatsMap) : result (Player * bool) :=
  match m_persistentStorage player with
  | None => Ok (player, false)
  | Some values => values ← foldM apply_entry values stats; Ok (set_storage values player, true)
  end.

(** *** The statistics of a player that is gone and one that comes *)

(** A template: names of its own at places of their own. *)
Record template_ok (n : nat) : Prop := {
  tp_count : GetCount <= Z.of_nat n;
  tp_offset i : 0 <= i < GetCount -> 0 <= GetOffset (GetName i) < Z.of_nat n;
  tp_small : Z.of_nat n <= kNoOffset;
  tp_inj i j : 0 <= i < GetCount -> 0 <= j < GetCount -> GetOffset (GetName i) = GetOffset (GetName j) -> i = j;
  tp_names i : 0 <= i < GetCount -> Byte.x00 ∉ GetName i;
}.

(** The value of a name. *)
Definition value_of (values : list Value) (i : Z) : option Value := values !! Z.to_nat (GetOffset (GetName i)).

Definition in_template (i : Z) : Prop := 0 <= i < GetCount.

Lemma value_of_Some n values i : template_ok n -> length values = n -> in_template i -> is_Some (value_of values i).
Proof. intros T Hl Hi. apply lookup_lt_is_Some. pose proof (tp_offset n T i Hi). lia. Qed.

Lemma names_inj n i j : template_ok n -> in_template i -> in_template j -> GetName i = GetName j -> i = j.
Proof. intros T Hi Hj E. apply (tp_inj n T); [done..|by rewrite E]. Qed.

Lemma places_inj n i j :
  template_ok n -> in_template i -> in_template j -> Z.to_nat (GetOffset (GetName i)) = Z.to_nat (GetOffset (GetName j)) -> i = j.
Proof. intros T Hi Hj E. apply (tp_inj n T); [done..|]. pose proof (tp_offset n T i Hi). pose proof (tp_offset n T j Hj). lia. Qed.

(** What is extracted: the values that differ, under their names. *)
Lemma extract_foldM n values ids (stats : PlayerStatsMap) :
  template_ok n -> length values = n -> NoDup ids -> Forall in_template ids -> omap_wf stats ->
  exists stats', foldM (extract_value values) stats ids = Ok stats' /\ omap_wf stats' /\
    (forall i v, i ∈ ids -> value_of values i = Some v ->
      omap_find (GetName i) stats' = if differs (current v) (reference v) then Some (current v) else omap_find (GetName i) stats) /\
    (forall name, (forall i, i ∈ ids -> GetName i <> name) -> omap_find name stats' = omap_find name stats).
Proof.
  intros T Hl Hnd. revert stats. induction Hnd as [|i ids Hi Hnd IH]; intros stats His Hwf.
  { exists stats. split; [done|]. split; [done|]. split; [|done]. intros i v H. by apply not_elem_of_nil in H. }
  apply list.Forall_cons in His as [Hit His]. destruct (value_of_Some n values i T Hl Hit) as [v Hv].
  cbn [foldM]. unfold extract_value at 1. fold (value_of values i). rewrite Hv. cbn [of_option mbind result_bind].
  set (stats1 := (if negb (differs (current v) (reference v)) then stats else omap_insert (GetName i) (current v) stats) : PlayerStatsMap).
  assert (Hwf1 : omap_wf stats1) by (unfold stats1; destruct (negb _); [done|by apply omap_insert_wf]).
  assert (Hne : forall j, j ∈ ids -> GetName j <> GetName i).
  { intros j Hj E. assert (j = i) as ->; [|done]. apply (names_inj n); [done| |done|done]. by eapply list.Forall_forall in His. }
  destruct (IH stats1 His Hwf1) as (stats' & -> & Hwf' & Hin & Hout). exists stats'. split; [done|]. split; [done|]. split.
  - intros j w [->|Hj]%elem_of_cons Hw.
    + assert (w = v) as -> by congruence. rewrite (Hout _ Hne). unfold stats1. destruct (differs _ _); cbn [negb]; [by rewrite omap_find_insert_eq|done].
    + rewrite (Hin j w Hj Hw). destruct (differs (current w) (reference w)); [done|]. unfold stats1. destruct (negb _); [done|]. apply omap_find_insert_ne. intros E. by apply (Hne j).
  - intros name Hn. rewrite Hout by (intros j Hj; apply Hn; by right). unfold stats1. destruct (negb _); [done|].
    apply omap_find_insert_ne. intros E. apply (Hn i); [by left|done].
Qed.

(** Applying entries under names of the template. *)
Definition named_entries (entries : PlayerStatsMap) : Prop := Forall (fun e => exists i, in_template i /\ e.1 = GetName i) entries.

Lemma apply_foldM n entries values :
  template_ok n -> length values = n -> NoDup entries.*1 -> named_entries entries ->
  exists values', foldM apply_entry values entries = Ok values' /\ length values' = n /\
    (forall i v, in_template i -> value_of values i = Some v ->
      value_of values' i = Some (match omap_find (GetName i) entries with Some c => set_current c v | None => v end)) /\
    (forall k, (forall i, in_template i -> Z.to_nat (GetOffset (GetName i)) <> k) -> values' !! k = values !! k).
Proof.
  intros T Hl. revert values Hl. induction entries as [|[name c] entries IH]; intros values Hl Hnd Hn; [by exists values|].
  apply list.Forall_cons in Hn as [(i & Hi & Hname) Hn]. cbn in Hname. subst name. cbn [fmap list_fmap fst] in Hnd.
  apply list.NoDup_cons in Hnd as [Hnew Hnd]. cbn [foldM]. unfold apply_entry at 1. cbn [fst snd].
  rewrite c_str_id by by apply (tp_names n T). pose proof (tp_offset n T i Hi) as Hoff. pose proof (tp_small n T).
  rewrite (proj2 (Z.eqb_neq _ _)) by lia. destruct (value_of_Some n values i T Hl Hi) as [v Hv]. unfold value_of in Hv.
  rewrite Hv. cbn [of_option mbind result_bind].
  destruct (IH (<[Z.to_nat (GetOffset (GetName i)) := set_current c v]> values)) as (values' & -> & Hl' & Hin & Hout);
    [by rewrite length_insert|done|done|]. exists values'. split; [done|]. split; [done|]. split.
  - intros j w Hj Hw. cbn [omap_find]. destruct (decide (j = i)) as [->|Hji].
    + rewrite key_compare_refl. rewrite (Hin i (set_current c v) Hi) by (unfold value_of; apply list_lookup_insert_eq; lia).
      assert (omap_find (GetName i) entries = None) as ->.
      { destruct (omap_find (GetName i) entries) as [d|] eqn:E; [|done]. apply omap_find_elem in E. destruct Hnew. apply list_elem_of_fmap. by exists (GetName i, d). }
      unfold value_of in Hw. rewrite Hv in Hw. by injection Hw as ->.
    + rewrite (Hin j w Hj); [|unfold value_of; rewrite list_lookup_insert_ne; [done|]; intros E; by apply Hji, (places_inj n)].
      pose proof (key_compare_ne (GetName j) (GetName i)) as Hk. destruct (key_compare (GetName j) (GetName i)) eqn:Ek; [|done..].
      destruct Hk; [intros E; by apply Hji, (names_inj n)|done].
  - intros k Hk. rewrite Hout by done. apply list_lookup_insert_ne. by apply Hk.
Qed.

(** A player with a storage of its own, whose statistics are kept. *)
Definition keeps_stats (p : Player) (values : list Value) : Prop :=
  IsAIPlayer (base p) = false /\ m_isSpectator p = false /\ m_persistentStorage p = Some values.

Lemma extract_named n values : template_ok n -> length values = n ->
  exists stats, foldM (extract_value values) [] (seqZ 0 GetCount) = Ok stats /\ omap_wf stats /\ named_entries stats /\
    forall i v, in_template i -> value_of values i = Some v ->
      omap_find (GetName i) stats = if differs (current v) (reference v) then Some (current v) else None.
Proof.
  intros T Hl. destruct (extract_foldM n values (seqZ 0 GetCount) [] T Hl) as (stats & E & Hwf & Hin & Hout).
  { apply NoDup_seqZ. }
  { apply list.Forall_forall. intros i Hi%elem_of_seqZ. unfold in_template. lia. }
  { apply omap_wf_nil. }
  exists stats. split; [done|]. split; [done|]. split.
  - apply list.Forall_forall. intros [name c] Hin'. apply omap_elem_find in Hin'; [|done].
    destruct (list_find (fun i => GetName i = name) (seqZ 0 GetCount)) as [[k i]|] eqn:Ef.
    + apply list_find_Some in Ef as (Hk & Hname & _). exists i. split; [|done]. apply list_elem_of_lookup_2, elem_of_seqZ in Hk. unfold in_template. lia.
    + apply list_find_None in Ef. rewrite Hout in Hin'; [done|]. intros i Hi. rewrite list.Forall_forall in Ef. by apply Ef.
  - intros i v Hi Hv. rewrite (Hin i v); [done| |done]. apply elem_of_seqZ. unfold in_template in Hi. lia.
Qed.

(** Saved and applied to a player with fresh storage. *)
Lemma carried n old vs new ws :
  template_ok n -> keeps_stats old vs -> length vs = n -> keeps_stats new ws -> length ws = n ->
  (forall i v w, in_template i -> value_of vs i = Some v -> value_of ws i = Some w -> reference w = reference v /\ current w = reference w) ->
  exists stats ws', ExtractPlayerStats old = Ok stats /\ ApplyPlayerStats new stats = Ok (set_storage ws' new, true) /\
    ExtractPlayerStats (set_storage ws' new) = Ok stats /\ length ws' = n /\
    (forall i v w, in_template i -> value_of vs i = Some v -> value_of ws i = Some w ->
      value_of ws' i = Some (if differs (current v) (reference v) then v else w)) /\
    (forall k, (forall i, in_template i -> Z.to_nat (GetOffset (GetName i)) <> k) -> ws' !! k = ws !! k).
Proof.
  intros T (Ha & Hs & Hv) Hl (Ha' & Hs' & Hw) Hl' Hfresh.
  destruct (extract_named n vs T Hl) as (stats & E & Hwf & Hn & Hfind).
  destruct (apply_foldM n stats ws T Hl') as (ws' & E' & Hlen & Hin & Hout); [by apply omap_wf_NoDup_keys|done|].
  assert (Hvals : forall i v w, in_template i -> value_of vs i = Some v -> value_of ws i = Some w ->
      value_of ws' i = Some (if differs (current v) (reference v) then v else w)).
  { intros i v w Hi Hvi Hwi. rewrite (Hin i w Hi Hwi), (Hfind i v Hi Hvi). destruct (Hfresh i v w Hi Hvi Hwi) as [Hr _].
    destruct (differs _ _); [|done]. destruct v as [c r]. unfold set_current. cbn in *. by rewrite Hr. }
  exists stats, ws'. unfold ExtractPlayerStats, ApplyPlayerStats. rewrite Ha, Hs, Hv, Hw. cbn [orb of_option mbind result_bind]. rewrite E'. split; [done|]. split; [done|].
  split; [|by split].
  unfold set_storage. cbn [base m_isSpectator m_persistentStorage]. rewrite Ha', Hs'. cbn [orb of_option mbind result_bind]. rewrite <- E. apply foldM_ext.
  intros st i Hi. apply elem_of_seqZ in Hi. assert (Ht : in_template i) by (unfold in_template; lia).
  destruct (value_of_Some n vs i T Hl Ht) as [v Hvi]. destruct (value_of_Some n ws i T Hl' Ht) as [w Hwi].
  unfold extract_value. fold (value_of ws' i) (value_of vs i). rewrite (Hvals i v w) by done. rewrite Hvi. cbn [of_option mbind result_bind].
  destruct (Hfresh i v w Ht Hvi Hwi) as [_ Hc]. destruct (differs (current v) (reference v)) eqn:Ed; [by rewrite Ed|].
  by rewrite Hc, differs_same.
Qed.

End stats.
End Stats.

(** ** Loading and saving *)

Module Sessions.
Import Teams Numbers Stats.

(** [players] are the objects of players that are alive, by address; [pending] the
    requests for statistics that are not answered, with what their callback
    captured; [saved] what was sent to the service; [replicated] the calls of the
    game's [ReplicatePersistence]. *)
Record PersistenceManager := mkPersistence {
  players : gmap Z Player; pending : list (Z * Z * list byte); saved : list (list byte * PlayerStatsMap); replicated : list (Z * Z) }.

Section sessions.
Context (GetCount : Z) (GetName : Z -> list byte) (GetOffset : list byte -> Z).

Definition the_player (player : Z) (st : PersistenceManager) : result Player := of_option Undefined (players st !! player).

(** [PersistenceManager::LoadPlayerStats] with [APIPersistenceDatabase::Load]. *)
Definition LoadPlayerStats (persistenceInst player : Z) (st : PersistenceManager) : result PersistenceManager :=
  p ← the_player player st;
  Ok (mkPersistence (players st) (pending st ++ [(persistenceInst, player, decimal (m_nativeData (base p)))]) (saved st) (replicated st)).

(** The answer to the n-th request. The callback uses the player it captured, when
    there is no answer for the text of the message. *)
Definition OnStats (n : nat) (stats : option PlayerStatsMap) (st : PersistenceManager) : result PersistenceManager :=
  match pending st !! n with
  | None => Ok st
  | Some (inst, player, _) =>
    p ← the_player player st;
    let rest := delete n (pending st) in
    match stats with
    | None => Ok (mkPersistence (players st) rest (saved st) (replicated st))
    | Some stats =>
      '(p, applied) ← ApplyPlayerStats GetOffset p stats;
      Ok (mkPersistence (<[player := p]> (players st)) rest (saved st)
            (replicated st ++ (if (applied : bool) then [(inst, player)] else [])))
    end
  end.

Definition save (p : Player) (stats : PlayerStatsMap) (st : PersistenceManager) : PersistenceManager :=
  mkPersistence (players st) (pending st) (saved st ++ [(decimal (m_nativeData (base p)), stats)]) (replicated st).

Definition SavePlayerStats (player : Z) (st : PersistenceManager) : result PersistenceManager :=
  p ← the_player player st;
  if IsAIPlayer (base p) || m_isSpectator p then Ok st else
  stats ← ExtractPlayerStats GetCount GetName GetOffset p; Ok (save p stats st).

(** The hook, after the game's own function. *)
Definition LoadPlayerPersistenceHk (running dedicated : bool) (inst player : Z) (st : PersistenceManager) : result PersistenceManager :=
  if negb running then Ok st else
  p ← the_player player st;
  if IsAIPlayer (base p) || m_isSpectator p || negb dedicated then Ok st else
  LoadPlayerStats inst player st.

(** The command [SaveData]. *)
Definition SavePlayerDataCommand (rawArguments : list byte) (list_of_players : list Z) (st : PersistenceManager) : result PersistenceManager :=
  let '(playerName, _) := Stream.extract read_word [] (c_str rawArguments) in
  objects ← foldM (fun l a => p ← the_player a st; Ok (l ++ [Some (base p)])) [] list_of_players;
  found ← Players.GetPlayer_name playerName objects;
  match found with
  | None => Ok st
  | Some i =>
    player ← of_option Undefined (list_of_players !! i);
    p ← the_player player st;
    stats ← ExtractPlayerStats GetCount GetName GetOffset p; Ok (save p stats st)
  end.

(** The game destroys a player. *)
Definition leave (player : Z) (st : PersistenceManager) : PersistenceManager :=
  mkPersistence (delete player (players st)) (pending st) (saved st) (replicated st).

(** An answer that comes when its player has left is applied to an object that is
    gone. *)
Lemma late_answer inst player p st stats :
  players st !! player = Some p -> IsAIPlayer (base p) = false -> m_isSpectator p = false ->
  exists st1, LoadPlayerPersistenceHk true true inst player st = Ok st1 /\
    OnStats (length (pending st)) stats (leave player st1) = Fault Undefined.
Proof.
  intros Hp Ha Hs. unfold LoadPlayerPersistenceHk, LoadPlayerStats, the_player. rewrite Hp. cbn. rewrite Ha, Hs. cbn.
  eexists. split; [done|]. unfold OnStats, leave, the_player. cbn. rewrite list_lookup_middle by done. by rewrite lookup_delete_eq.
Qed.

(** The hook asks for nothing but on a dedicated server that runs. *)
Lemma not_loaded running dedicated inst player st p :
  running && dedicated = false -> players st !! player = Some p -> LoadPlayerPersistenceHk running dedicated inst player st = Ok st.
Proof.
  intros Hd Hp. unfold LoadPlayerPersistenceHk, the_player. rewrite Hp. destruct running; [|done]. cbn in Hd. subst dedicated.
  cbn. by rewrite orb_true_r.
Qed.

(** C22: On a dedicated server that runs, a player that leaves and comes back, as
    another object with the same identifier and fresh storage, has its statistics
    again once the request the hook made for it is answered with what was saved:
    every value that differed from its reference, and no other. Saved again it
    saves the same. On a server that a client hosts the same is saved, but nothing
    is loaded: the player that comes back keeps its fresh values. *)
Theorem player_comes_back n a old vs b new ws inst running dedicated st :
  template_ok GetCount GetName GetOffset n -> players st !! a = Some old -> players st !! b = Some new -> a <> b ->
  keeps_stats old vs -> length vs = n -> keeps_stats new ws -> length ws = n -> m_nativeData (base new) = m_nativeData (base old) ->
  (forall i v w, in_template GetCount i -> value_of GetName GetOffset vs i = Some v -> value_of GetName GetOffset ws i = Some w ->
    reference w = reference v /\ current w = reference w) ->
  exists st1 user stats, SavePlayerStats a st = Ok st1 /\ list.last (saved st1) = Some (user, stats) /\
    if running && dedicated then
      exists st2 st3 ws',
        LoadPlayerPersistenceHk running dedicated inst b (leave a st1) = Ok st2 /\ list.last (pending st2) = Some (inst, b, user) /\
        OnStats (length (pending st1)) (Some stats) st2 = Ok st3 /\ players st3 !! b = Some (set_storage ws' new) /\
        list.last (replicated st3) = Some (inst, b) /\
        (forall i v w, in_template GetCount i -> value_of GetName GetOffset vs i = Some v -> value_of GetName GetOffset ws i = Some w ->
          value_of GetName GetOffset ws' i = Some (if Floats.differs (current v) (reference v) then v else w)) /\
        exists st4, SavePlayerStats b st3 = Ok st4 /\ list.last (saved st4) = Some (user, stats)
    else LoadPlayerPersistenceHk running dedicated inst b (leave a st1) = Ok (leave a st1) /\ players (leave a st1) !! b = Some new.
Proof.
  intros T Ho Hn Hab Hold Hl Hnew Hl' Hid Hfresh.
  destruct (carried GetCount GetName GetOffset n old vs new ws T Hold Hl Hnew Hl' Hfresh) as (stats & ws' & E & E' & E'' & _ & Hv & _).
  destruct Hold as (Ha & Hs & _), Hnew as (Ha' & Hs' & _).
  eexists _, _, stats. split.
  { unfold SavePlayerStats, the_player. rewrite Ho. cbn [of_option mbind result_bind]. rewrite Ha, Hs. cbn [orb]. rewrite E. done. }
  cbn [saved save]. rewrite last_snoc. split; [done|]. destruct (running && dedicated) eqn:Hd.
  2: { assert (Hb : players (leave a (save old stats st)) !! b = Some new) by (cbn [leave players save]; by rewrite lookup_delete_ne).
       split; [by apply (not_loaded _ _ _ _ _ new)|done]. }
  apply andb_true_iff in Hd as [-> ->]. eexists _, _, ws'. split.
  { unfold LoadPlayerPersistenceHk, LoadPlayerStats, the_player. cbn [negb leave players save]. rewrite lookup_delete_ne, Hn by done.
    cbn [of_option mbind result_bind]. rewrite Ha', Hs'. done. }
  cbn [pending]. rewrite last_snoc. split; [by rewrite Hid|]. split.
  { unfold OnStats. cbn [pending leave save]. rewrite list_lookup_middle by done. unfold the_player. cbn [players]. rewrite lookup_delete_ne, Hn by done.
    cbn [of_option mbind result_bind]. rewrite E'. done. }
  cbn [players replicated]. rewrite lookup_insert_eq, last_snoc. split; [done|]. split; [done|]. split; [done|].
  unfold SavePlayerStats, the_player. cbn [players]. rewrite lookup_insert_eq. cbn [of_option mbind result_bind set_storage base m_isSpectator].
  rewrite Ha', Hs'. cbn [orb]. rewrite E''. eexists. split; [done|]. cbn [saved save base set_storage]. by rewrite last_snoc, Hid.
Qed.
End sessions.
End Sessions.

(** ** The server management *)

Module API.
Import Teams Numbers Players Stats Sessions.

(** What the module sends, and what it receives. *)
Inductive ServerManagementAPIEvent :=
  | ConsoleMessage (message : list byte) | KeepAlive | PlayerList (players : list (list byte * list byte * Z)).
Inductive ServerAPIEvent :=
  | ServerKick (id reason : list byte) | ServerBan (id reason : list byte) | ServerMapRotation | ServerRunCommand (command : list byte)
  | BodyNotSet.

(** The fields of a [ServerConnection] that disconnect it. *)
Record ServerConnection := mkConnection { m_disconnectReason : Z; m_shouldDisconnect : bool; m_disconnectText : list byte }.

Definition SecureReason_KickedByAdmin : Z := 0xC765936.
Definition SecureReason_KickedViaFairFight : Z := 0x78B15894.

(** [ServerConnection::SafeDisconnect]; without a reason it is the second. *)
Definition SafeDisconnect (reasonText : list byte) (reason : Z) (c : ServerConnection) : ServerConnection :=
  mkConnection reason true (CopyWithArena reasonText).
Definition SafeDisconnect_text (reasonText : list byte) : ServerConnection -> ServerConnection :=
  SafeDisconnect reasonText SecureReason_KickedViaFairFight.

(** [m_playerManager] lists players and spectators, and is null when no server was
    made or it was stopped; [sent] is what went to the write queue
    ([Threads.WriteQueue]), [commands] to the console. *)
Record Host := mkHost {
  m_isRunning : bool; m_connectionEstablished : bool; m_playerManager : option (list Z * list Z); objects : gmap Z Player;
  connections : gmap Z ServerConnection; sent : list ServerManagementAPIEvent; commands : list (list byte) }.

Section api.
(** [ServerPeer::GetConnectionForPlayer], of the game. *)
Context (GetConnectionForPlayer : Z -> Z).

Definition Send (e : ServerManagementAPIEvent) (st : Host) : Host :=
  mkHost (m_isRunning st) (m_connectionEstablished st) (m_playerManager st) (objects st) (connections st) (sent st ++ [e]) (commands st).
Definition set_connections c (st : Host) : Host :=
  mkHost (m_isRunning st) (m_connectionEstablished st) (m_playerManager st) (objects st) c (sent st) (commands st).
Definition EnqueueCommand (cmd : list byte) (st : Host) : Host :=
  mkHost (m_isRunning st) (m_connectionEstablished st) (m_playerManager st) (objects st) (connections st) (sent st) (commands st ++ [c_str cmd]).

Definition online (st : Host) : bool := m_connectionEstablished st && m_isRunning st.
Definition SendConsoleMessage (message : list byte) (st : Host) : Host := if online st then Send (ConsoleMessage message) st else st.
Definition SendKeepAlive (st : Host) : Host := if online st then Send KeepAlive st else st.

(** The real players of the list, with their identifiers as text. *)
Definition list_player (st : Host) (l : list (list byte * list byte * Z)) (player : Z) : result (list (list byte * list byte * Z)) :=
  p ← of_option Undefined (objects st !! player);
  Ok (if IsAIPlayer (base p) then l else l ++ [(decimal (m_nativeData (base p)), m_name (base p), m_teamId (base p))]).
Definition SendPlayerList (st : Host) : result Host :=
  if negb (online st) then Ok st else
  match m_playerManager st with
  | None => Ok st
  | Some (players, _) => l ← foldM (list_player st) [] players; Ok (Send (PlayerList l) st)
  end.

(** The objects of a list of pointers; a player that was deleted cannot be read. *)
Definition of_pointers (st : Host) (l : list Z) : list (option ServerPlayer) := (fun a => base <$> (objects st !! a)) <$> l.

(** The look-up through [m_playerManager], which may be null. *)
Definition GetPlayerOrSpectator_at (id : Z) (st : Host) : result (option Z) :=
  '(players, spectators) ← of_option Undefined (m_playerManager st);
  found ← GetPlayerOrSpectator id (of_pointers st players) (of_pointers st spectators);
  Ok (match found with None => None | Some (Playing i) => players !! i | Some (Spectating i) => spectators !! i end).

Definition kicked (p : ServerPlayer) : list byte :=
  bstr "Kicked " ++ m_name p ++ bstr " (" ++ decimal (m_nativeData p) ++ bstr ") from the server".

(** [Server::KickPlayer]: [Server::SendConsoleMessage] asks whether the server runs,
    as the function it calls does. *)
Definition KickPlayer (player : Z) (reason : list byte) (st : Host) : result Host :=
  let c := GetConnectionForPlayer player in
  connection ← of_option Undefined (connections st !! c);
  p ← of_option Undefined (objects st !! player);
  let st := set_connections (<[c := SafeDisconnect reason SecureReason_KickedByAdmin connection]> (connections st)) st in
  Ok (if negb (m_isRunning st) then st else SendConsoleMessage (kicked (base p)) st).

(** The text of an identifier that is no number throws. *)
Definition kick_by_id (id reason verb : list byte) (st : Host) : result Host :=
  playerId ← stoull id;
  player ← GetPlayerOrSpectator_at playerId st;
  match player with
  | None => Ok (SendConsoleMessage (bstr "Failed to " ++ verb ++ bstr " " ++ decimal playerId ++ bstr ", player not found") st)
  | Some player => KickPlayer player (c_str reason) st
  end.

Definition ProcessReceivedEvent (event : ServerAPIEvent) (st : Host) : result Host :=
  match event with
  | ServerKick id reason => kick_by_id id reason (bstr "kick") st
  | ServerBan id reason => kick_by_id id reason (bstr "ban") st
  | ServerMapRotation => Ok st
  | ServerRunCommand command => Ok (EnqueueCommand command st)
  | BodyNotSet => Ok st
  end.

(** [Receive]: a message that parses is queued for the server's thread
    ([Threads.Executor]); here is what changes at once. *)
Inductive Notice := Opened | Closed | Failed (http_status : Z).
Definition Receive (n : Notice) (st : Host) : Host :=
  let set b := mkHost (m_isRunning st) b (m_playerManager st) (objects st) (connections st) (sent st) (commands st) in
  match n with Opened => set true | Closed => set false | Failed _ => st end.

(** [Server::Stop] as far as it matters here: the web socket stays open. *)
Definition Stop (dedicated : bool) (st : Host) : Host :=
  mkHost dedicated (m_connectionEstablished st) None (objects st) (connections st) (sent st) (commands st).

(** A kick that arrives when no server runs follows the null player manager. *)
Lemma kick_after_stop id reason dedicated st :
  urange 64 id -> ProcessReceivedEvent (ServerKick (decimal id) reason) (Stop dedicated st) = Fault Undefined.
Proof. intros H. cbn. unfold kick_by_id. by rewrite stoull_decimal. Qed.

(** *** A kick *)

(** The first of a list with the identifier, artificial players aside. *)
Definition holds (st : Host) (l : list Z) (id a : Z) : Prop :=
  exists l1 l2 p, l = l1 ++ a :: l2 /\ objects st !! a = Some p /\ qualifies false (has_id id) (base p) /\
    Forall (fun b => exists q, objects st !! b = Some q /\ ~ qualifies false (has_id id) (base q)) l1.
Definition lacks (st : Host) (l : list Z) (id : Z) : Prop :=
  Forall (fun b => exists q, objects st !! b = Some q /\ ~ qualifies false (has_id id) (base q)) l.

Lemma lacks_pointers st l id : lacks st l id -> Forall (fun o => exists y, o = Some y /\ ~ qualifies false (has_id id) y) (of_pointers st l).
Proof.
  intros H. apply list.Forall_fmap. eapply list.Forall_impl; [exact H|]. intros b (q & Hq & Hn). exists (base q). cbn. by rewrite Hq.
Qed.

Lemma holds_found st l id a : holds st l id a -> exists i, find_player false (has_id id) 0 (of_pointers st l) = Ok (Some i) /\ l !! i = Some a.
Proof.
  intros (l1 & l2 & p & -> & Ha & Hq & H). exists (length l1). split; [|by apply list_lookup_middle].
  unfold of_pointers. rewrite fmap_app. cbn [fmap list_fmap]. rewrite Ha. cbn [fmap option_fmap option_map].
  rewrite find_player_first; [by rewrite length_fmap|by apply lacks_pointers|done].
Qed.

Lemma lacks_none st l id : lacks st l id -> find_player false (has_id id) 0 (of_pointers st l) = Ok None.
Proof. intros H. by apply find_player_none, lacks_pointers. Qed.

(** What the look-up finds: a player, else a spectator. *)
Inductive looked_up (st : Host) (id : Z) : option Z -> Prop :=
  | is_player players spectators a : m_playerManager st = Some (players, spectators) -> holds st players id a -> looked_up st id (Some a)
  | is_spectator players spectators a :
      m_playerManager st = Some (players, spectators) -> lacks st players id -> holds st spectators id a -> looked_up st id (Some a)
  | is_nobody players spectators :
      m_playerManager st = Some (players, spectators) -> lacks st players id -> lacks st spectators id -> looked_up st id None.

Lemma looked_up_at st id o : looked_up st id o -> GetPlayerOrSpectator_at id st = Ok o.
Proof.
  intros H. unfold GetPlayerOrSpectator_at, GetPlayerOrSpectator, GetPlayer, GetSpectator.
  destruct H as [players spectators a E H|players spectators a E Hl H|players spectators E Hl Hl']; rewrite E; cbn [of_option mbind result_bind].
  - apply holds_found in H as (i & -> & Hi). cbn. by rewrite Hi.
  - rewrite (lacks_none _ _ _ Hl). apply holds_found in H as (i & Ei & Hi). cbn. rewrite Ei. cbn. by rewrite Hi.
  - rewrite (lacks_none _ _ _ Hl). cbn. by rewrite (lacks_none _ _ _ Hl').
Qed.

Lemma SendConsoleMessage_sent m st :
  SendConsoleMessage m st = mkHost (m_isRunning st) (m_connectionEstablished st) (m_playerManager st) (objects st) (connections st)
    (sent st ++ (if online st then [ConsoleMessage m] else [])) (commands st).
Proof. unfold SendConsoleMessage. destruct (online st); [done|]. rewrite app_nil_r. by destruct st. Qed.

(** C40: A kick of the service, of an identifier of 64 bits and while there is a player
    manager, requests the disconnection of the first real player (or else the
    spectator) with this identifier, for the reason given, when he has a
    connection, and of no other connection; when there is nobody with it, it
    changes nothing. Either way it says so, when the management is connected. A
    ban is a kick. *)
Theorem kick_reaches st id reason o :
  urange 64 id -> looked_up st id o ->
  match o with
  | None =>
    forall verb, verb = bstr "kick" \/ verb = bstr "ban" ->
    ProcessReceivedEvent (if decide (verb = bstr "kick") then ServerKick (decimal id) reason else ServerBan (decimal id) reason) st =
      Ok (mkHost (m_isRunning st) (m_connectionEstablished st) (m_playerManager st) (objects st) (connections st)
        (sent st ++ (if online st then [ConsoleMessage (bstr "Failed to " ++ verb ++ bstr " " ++ decimal id ++ bstr ", player not found")] else []))
        (commands st))
  | Some a =>
    forall c p, GetConnectionForPlayer a = c -> is_Some (connections st !! c) -> objects st !! a = Some p ->
    ProcessReceivedEvent (ServerKick (decimal id) reason) st =
      Ok (mkHost (m_isRunning st) (m_connectionEstablished st) (m_playerManager st) (objects st)
        (<[c := mkConnection SecureReason_KickedByAdmin true (c_str reason)]> (connections st))
        (sent st ++ (if online st then [ConsoleMessage (kicked (base p))] else [])) (commands st)) /\
    ProcessReceivedEvent (ServerBan (decimal id) reason) st = ProcessReceivedEvent (ServerKick (decimal id) reason) st
  end.
Proof.
  intros Hid Ho. apply looked_up_at in Ho as E. destruct o as [a|].
  - intros c p Hc [k Hk] Hp. split; cbn [ProcessReceivedEvent]; unfold kick_by_id; rewrite stoull_decimal by done; cbn [mbind result_bind]; rewrite E; [|done].
    cbn [mbind result_bind]. unfold KickPlayer. rewrite Hc, Hk, Hp. cbn [of_option mbind result_bind]. unfold SafeDisconnect, CopyWithArena.
    rewrite (c_str_id (c_str reason)) by apply c_str_no_nul. rewrite SendConsoleMessage_sent.
    unfold set_connections, online. cbn. destruct (m_isRunning st); cbn; [done|]. by rewrite andb_false_r, app_nil_r.
  - intros verb Hv. assert (Hg : kick_by_id (decimal id) reason verb st =
      Ok (SendConsoleMessage (bstr "Failed to " ++ verb ++ bstr " " ++ decimal id ++ bstr ", player not found") st)).
    { unfold kick_by_id. rewrite stoull_decimal by done. cbn [mbind result_bind]. by rewrite E. }
    rewrite <- SendConsoleMessage_sent, <- Hg. destruct (decide (verb = bstr "kick")) as [->|Hk]; [done|]. destruct Hv as [Hv|Hv]; [done|by rewrite Hv].
Qed.
End api.
End API.

(** ** The game's messages *)

Module Dispatch.
Import Teams Numbers Stats Sessions API.

Inductive Argument := PlayerArgument (player : Z) | TextArgument (text : option (list byte)).

(** A message as far as the hook reads it: the name of its type, when it has one,
    and the fields of the classes it is cast to. *)
Record Message := mkMessage {
  type_name : option (list byte); m_player : Z; m_message : list byte; m_inflictorPlayer : Z; killerWeaponName : option (list byte) }.

Definition named (name : list byte) : Message := mkMessage (Some name) 0 [] 0 None.

Section dispatch.
Context {Options : Type} (setup_init : Levels.LevelSetup Options) (SetInclusionOption : list byte -> list byte -> Options -> Options)
  (GetInclusionOption : list byte -> Options -> option (list byte)).
Context (GetCount : Z) (GetName : Z -> list byte) (GetOffset : list byte -> Z).

(** The objects of players are those of [host]. [fired] are the events plugins are
    told of ([Events.LuaEvents] has what telling them does), [forwarded] the
    messages the game went on with, [spawned] the level of a dedicated server's
    first simulation. *)
Record Program := mkProgram {
  m_messageDebugEnabled : bool; m_scripts : bool; m_mapRotation : Rotation.MapRotation; server : Levels.Server Options;
  host : Host; pending : list (Z * Z * list byte); saved : list (list byte * PlayerStatsMap); replicated : list (Z * Z);
  fired : list (list byte * list Argument); forwarded : list (option Message); spawned : option (Levels.LevelSetup Options) }.

Definition set_rotation r (st : Program) : Program :=
  mkProgram (m_messageDebugEnabled st) (m_scripts st) r (server st) (host st) (pending st) (saved st) (replicated st) (fired st) (forwarded st) (spawned st).
Definition set_server s (st : Program) : Program :=
  mkProgram (m_messageDebugEnabled st) (m_scripts st) (m_mapRotation st) s (host st) (pending st) (saved st) (replicated st) (fired st) (forwarded st) (spawned st).
Definition set_host h (st : Program) : Program :=
  mkProgram (m_messageDebugEnabled st) (m_scripts st) (m_mapRotation st) (server st) h (pending st) (saved st) (replicated st) (fired st) (forwarded st) (spawned st).
Definition set_saved l (st : Program) : Program :=
  mkProgram (m_messageDebugEnabled st) (m_scripts st) (m_mapRotation st) (server st) (host st) (pending st) l (replicated st) (fired st) (forwarded st) (spawned st).
Definition set_spawned s (st : Program) : Program :=
  mkProgram (m_messageDebugEnabled st) (m_scripts st) (m_mapRotation st) (server st) (host st) (pending st) (saved st) (replicated st) (fired st) (forwarded st) s.
Definition trampoline (m : option Message) (st : Program) : Program :=
  mkProgram (m_messageDebugEnabled st) (m_scripts st) (m_mapRotation st) (server st) (host st) (pending st) (saved st) (replicated st) (fired st)
    (forwarded st ++ [m]) (spawned st).

(** Plugins are told when there is a script manager. *)
Definition Fire (name : list byte) (args : list Argument) (st : Program) : Program :=
  if m_scripts st then
    mkProgram (m_messageDebugEnabled st) (m_scripts st) (m_mapRotation st) (server st) (host st) (pending st) (saved st) (replicated st)
      (fired st ++ [(name, args)]) (forwarded st) (spawned st)
  else st.

Definition persistence (st : Program) : PersistenceManager := mkPersistence (objects (host st)) (pending st) (saved st) (replicated st).

Definition LoadNextLevel (level mode : list byte) : Levels.Server Options -> result (Levels.Server Options) :=
  Levels.LoadNextLevel setup_init SetInclusionOption GetInclusionOption (c_str level) (c_str mode) [] [].
Definition OnLevelLoaded : Levels.Server Options -> result (Levels.Server Options) :=
  Levels.OnLevelLoaded setup_init SetInclusionOption GetInclusionOption.

Definition next_level (st : Program) : result Program :=
  '(entry, r) ← Rotation.GetNextEntry (m_mapRotation st);
  s ← LoadNextLevel (Rotation.level entry) (Rotation.mode entry) (server st);
  Ok (set_server s (set_rotation r st)).

Definition left_message (p : ServerPlayer) : list byte := m_name p ++ bstr " (" ++ decimal (m_nativeData p) ++ bstr ") left the server".

Definition disconnected (player : Z) (st : Program) : result Program :=
  if negb (m_isRunning (host st)) then Ok st else
  saves ← SavePlayerStats GetCount GetName GetOffset player (persistence st);
  h ← SendPlayerList (host st);
  p ← the_player player (persistence st);
  let st := set_host (SendConsoleMessage (left_message (base p)) h) (set_saved (Sessions.saved saves) st) in
  Ok (Fire (bstr "ServerPlayer:Disconnect") [PlayerArgument player] st).

(** A name that is compared with a literal. *)
Definition is_named (name : list byte) (s : String.string) : bool := bool_decide (name = bstr s).
Arguments is_named name s%_string_scope.

Definition react (name : list byte) (m : Message) (st : Program) : result Program :=
  if is_named name "ServerLevelCompletedMessage" then next_level (Fire (bstr "Level:Complete") [] st)
  else if is_named name "ServerLevelLoadedMessage" then s ← OnLevelLoaded (server st); Ok (set_server s st)
  else if is_named name "ServerPlayerDisconnectMessage" then disconnected (m_player m) st
  else if is_named name "ServerPlayerChatMessage" then
    p ← the_player (m_player m) (persistence st);
    Ok (set_host (SendConsoleMessage (c_str (m_name (base p)) ++ bstr ": " ++ c_str (m_message m)) (host st)) st)
  else if is_named name "ServerPlayerKilledMessage" then
    Ok (Fire (bstr "ServerPlayer:Killed") [PlayerArgument (m_player m); PlayerArgument (m_inflictorPlayer m); TextArgument (killerWeaponName m)] st)
  else if is_named name "NetworkOnPlayerSpawnedMessage" then Ok (Fire (bstr "ClientPlayer:Spawned") [] st)
  else if is_named name "ServerPlayerRespawnMessage" then Ok (Fire (bstr "ServerPlayer:Spawned") [PlayerArgument (m_player m)] st)
  else Ok st.

Definition MessageManagerDispatchMessageHk (message : option Message) (st : Program) : result Program :=
  match message with
  | None => Ok (trampoline message st)
  | Some m =>
    match type_name m with
    | None => Ok (trampoline message st)
    | Some name =>
      if m_messageDebugEnabled st && (is_named name "ClientInputUnchangedInputMessage" || is_named name "StreamInstallRequestSuspendMessage")
      then Ok st
      else st ← react name m st; Ok (trampoline message st)
    end
  end.

(** *** Starting *)

(** The rotation as both requests to start a server set it. *)
Definition fill_rotation (maps : list (list byte * list byte)) (r : Rotation.MapRotation) : Rotation.MapRotation :=
  foldl (fun r e => Rotation.AddEntry e.1 e.2 r) (Rotation.Reset r) maps.

(** [ServerInterfaceService::StartServer]: the first level is loaded at once. *)
Definition StartServer (maps : list (list byte * list byte)) (st : Program) : result Program :=
  let r := fill_rotation maps (m_mapRotation st) in
  '(entry, r) ← Rotation.GetNextEntry r;
  s ← Levels.StartLevel setup_init SetInclusionOption GetInclusionOption (c_str (Rotation.level entry)) (c_str (Rotation.mode entry)) (server st);
  Ok (set_server s (set_rotation r st)).

(** A dedicated server: [LauncherInterface::Initialize] takes the first entry for
    the creation info, and [GameSimulationInitDedicatedServerHk] takes one more,
    which it does not use. *)
Definition StartDedicated (maps : list (list byte * list byte)) (st : Program) : result Program :=
  let r := fill_rotation maps (m_mapRotation st) in
  '(entry, r) ← Rotation.GetNextEntry r;
  '(_, r) ← Rotation.GetNextEntry r;
  let '(setup, s) := Levels.InitLevelSetup setup_init SetInclusionOption (c_str (Rotation.level entry)) (Some (c_str (Rotation.mode entry))) [] [] (server st) in
  Ok (set_spawned (Some setup) (set_server s (set_rotation r st))).

(** *** The levels a server goes through *)

Context (Hoption : forall v o, GetInclusionOption Levels.kGameMode (SetInclusionOption Levels.kGameMode v o) = Some v).

(** The place of the rotation after so many entries. *)
Definition place (n c : nat) : Z := match c with O => 0 | S c => Z.of_nat (c mod n) + 1 end.
Definition entry_at (maps : list (list byte * list byte)) (c : nat) : list byte * list byte := default ([], []) (maps !! (c mod length maps)%nat).
Definition rotation_at (maps : list (list byte * list byte)) (c : nat) : Rotation.MapRotation :=
  Rotation.mkRotation ((fun e => Rotation.mkEntry e.1 e.2) <$> maps) (place (length maps) c).

Lemma fill_rotation_at maps r : fill_rotation maps r = rotation_at maps 0.
Proof.
  unfold fill_rotation, rotation_at. assert (H : forall r, foldl (fun r e => Rotation.AddEntry e.1 e.2 r) r maps =
    Rotation.mkRotation (Rotation.m_entries r ++ ((fun e => Rotation.mkEntry e.1 e.2) <$> maps)) (Rotation.m_current r)).
  { induction maps as [|e maps IH]; intros q; [cbn; rewrite app_nil_r; by destruct q|]. cbn [foldl]. rewrite IH. cbn. by rewrite <- app_assoc. }
  by rewrite H.
Qed.

Lemma next_entry maps c :
  maps <> [] -> len maps < 2 ^ 16 ->
  Rotation.GetNextEntry (rotation_at maps c) =
    Ok (Rotation.mkEntry (entry_at maps c).1 (entry_at maps c).2, rotation_at maps (S c)).
Proof.
  intros Hne Hlt. assert (Hn : (0 < length maps)%nat) by (destruct maps; [done|cbn; lia]).
  unfold Rotation.GetNextEntry, rotation_at. cbn [Rotation.m_entries Rotation.m_current]. rewrite length_fmap.
  assert (Hcur : (if len maps <? place (length maps) c + 1 then 0 else place (length maps) c) = Z.of_nat (c mod length maps)).
  { destruct c as [|c]; [cbn [place]; rewrite Nat.Div0.mod_0_l; destruct (Z.ltb_spec (len maps) (0 + 1)); lia|]. cbn [place].
    pose proof (Nat.mod_upper_bound c (length maps) ltac:(lia)) as Hb. pose proof (Nat.div_mod_eq c (length maps)) as Hd.
    destruct (Z.ltb_spec (len maps) (Z.of_nat (c mod length maps) + 1 + 1)).
    - rewrite <- (Nat.mod_unique (S c) (length maps) (S (c / length maps)) 0); lia.
    - rewrite <- (Nat.mod_unique (S c) (length maps) (c / length maps) (S (c mod length maps))); lia. }
  rewrite Hcur. pose proof (Nat.mod_upper_bound c (length maps) ltac:(lia)) as Hb.
  rewrite Nat2Z.id, list_lookup_fmap. unfold entry_at. destruct (lookup_lt_is_Some_2 maps (c mod length maps) Hb) as [e He]. rewrite He. cbn.
  by rewrite uwrap_small by (unfold urange; lia).
Qed.

(** One level after another: the i-th of the setups handed to the game is for the
    i-th entry from c on. *)
Definition in_turn (maps : list (list byte * list byte)) (c : nat) (setups : list (Levels.LevelSetup Options)) : Prop :=
  forall i setup, setups !! i = Some setup ->
    Levels.loads_level GetInclusionOption (Levels.mkRequest (c_str (entry_at maps (c + i)).1) (c_str (entry_at maps (c + i)).2)) setup.

Lemma in_turn_snoc maps c setups setup :
  in_turn maps c setups ->
  Levels.loads_level GetInclusionOption
    (Levels.mkRequest (c_str (entry_at maps (c + length setups)).1) (c_str (entry_at maps (c + length setups)).2)) setup ->
  in_turn maps c (setups ++ [setup]).
Proof.
  intros H Hs i x Hx. apply lookup_app_Some in Hx as [Hx|[Hi Hx]]; [by apply H|].
  destruct (i - length setups)%nat as [|j] eqn:Ej; [|done]. injection Hx as <-. by replace i with (length setups) by lia.
Qed.

(** A server whose level is loading, or has loaded, with no request that waits. *)
Record idle (loaded : bool) (maps : list (list byte * list byte)) (c : nat) (done : list (Levels.LevelSetup Options)) (st : Program) : Prop := {
  id_loaded : Levels.m_levelLoaded (server st) = loaded;
  id_request : Levels.m_latestLoadLevelRequest (server st) = Levels.mkRequest [] [];
  id_rotation : m_mapRotation st = rotation_at maps c;
  id_loads : Levels.loads (server st) = done;
}.

Lemma dispatch_named name st :
  is_named name "ClientInputUnchangedInputMessage" = false -> is_named name "StreamInstallRequestSuspendMessage" = false ->
  MessageManagerDispatchMessageHk (Some (named name)) st =
    (st' ← react name (named name) st; Ok (trampoline (Some (named name)) st')).
Proof. intros H1 H2. unfold MessageManagerDispatchMessageHk. cbn [type_name named]. rewrite H1, H2. cbn [orb]. by rewrite andb_false_r. Qed.

Definition completed : option Message := Some (named (bstr "ServerLevelCompletedMessage")).
Definition loaded : option Message := Some (named (bstr "ServerLevelLoadedMessage")).

Lemma dispatch_loaded b maps c l st :
  idle b maps c l st -> exists st', MessageManagerDispatchMessageHk loaded st = Ok st' /\ idle true maps c l st' /\ spawned st' = spawned st.
Proof.
  intros [Hl Hr Hm Hd]. unfold loaded. rewrite dispatch_named by done. unfold react.
  cbn [is_named]. unfold OnLevelLoaded, Levels.OnLevelLoaded. cbn [Levels.m_latestLoadLevelRequest Levels.set_levelLoaded].
  rewrite Hr. eexists. split; [reflexivity|]. by split.
Qed.

Lemma dispatch_completed maps c l st :
  maps <> [] -> len maps < 2 ^ 16 -> idle true maps c l st ->
  exists st' setup, MessageManagerDispatchMessageHk completed st = Ok st' /\ idle false maps (S c) (l ++ [setup]) st' /\ spawned st' = spawned st /\
    Levels.loads_level GetInclusionOption (Levels.mkRequest (c_str (entry_at maps c).1) (c_str (entry_at maps c).2)) setup.
Proof.
  intros Hne Hlt [Hl Hr Hm Hd]. unfold completed. rewrite dispatch_named by done.
  pose (st1 := Fire (bstr "Level:Complete") [] st).
  assert (H1 : server st1 = server st /\ m_mapRotation st1 = m_mapRotation st /\ spawned st1 = spawned st) by (unfold st1, Fire; by destruct (m_scripts st)).
  destruct H1 as (Hs1 & Hr1 & Hsp). change (react _ _ st) with (next_level st1). unfold next_level. rewrite Hr1, Hm, next_entry by done.
  cbn [mbind result_bind Rotation.level Rotation.mode]. unfold LoadNextLevel. rewrite Hs1.
  destruct (Levels.LoadNextLevel_loads setup_init SetInclusionOption GetInclusionOption Hoption
    (c_str (entry_at maps c).1) (c_str (entry_at maps c).2) [] [] (server st) Hl) as (setup & -> & Hsetup).
  cbn [mbind result_bind]. eexists _, setup. split; [reflexivity|]. split; [split; cbn; by rewrite ?Hd|]. by split.
Qed.

Fixpoint rounds (k : nat) : list (option Message) := match k with O => [] | S k => [completed; loaded] ++ rounds k end.

Lemma rounds_in_turn k maps c l st :
  maps <> [] -> len maps < 2 ^ 16 -> idle true maps c l st ->
  exists st' setups, foldM (fun st m => MessageManagerDispatchMessageHk m st) st (rounds k) = Ok st' /\ length setups = k /\
    idle true maps (c + k) (l ++ setups) st' /\ in_turn maps c setups /\ spawned st' = spawned st.
Proof.
  intros Hne Hlt. revert c l st. induction k as [|k IH]; intros c l st H.
  { exists st, []. rewrite Nat.add_0_r, app_nil_r. split; [done|]. split; [done|]. split; [done|]. split; [|done]. intros i x Hx. by rewrite lookup_nil in Hx. }
  cbn [rounds app foldM]. destruct (dispatch_completed maps c l st Hne Hlt H) as (st1 & setup & -> & H1 & Hs1 & Hsetup).
  destruct (dispatch_loaded false maps (S c) _ st1 H1) as (st2 & -> & H2 & Hs2).
  destruct (IH (S c) (l ++ [setup]) st2 H2) as (st3 & setups & -> & Hlen & H3 & Hturn & Hs3). exists st3, (setup :: setups). split; [done|]. split; [cbn; lia|].
  rewrite <- app_assoc in H3. replace (S c + k)%nat with (c + S k)%nat in H3 by lia. split; [done|]. split; [|congruence].
  intros [|i] x Hx; [injection Hx as <-; by rewrite Nat.add_0_r|]. replace (c + S i)%nat with (S c + i)%nat by lia. by apply Hturn.
Qed.

(** C18: A hosted server whose levels load and end one after another goes round its
    rotation from the first entry on; a dedicated server starts with the first
    entry and then goes round from the third, since it takes an entry it does
    not use. *)
Theorem rotation_served maps st k :
  maps <> [] -> len maps < 2 ^ 16 -> server st = Levels.Server_new ->
  (exists st1 st2 setups, StartServer maps st = Ok st1 /\
    foldM (fun st m => MessageManagerDispatchMessageHk m st) st1 (loaded :: rounds k) = Ok st2 /\
    Levels.loads (server st2) = setups /\ length setups = S k /\ in_turn maps 0 setups) /\
  (exists st1 st2 setups first, StartDedicated maps st = Ok st1 /\
    foldM (fun st m => MessageManagerDispatchMessageHk m st) st1 (loaded :: rounds k) = Ok st2 /\
    spawned st2 = Some first /\ in_turn maps 0 [first] /\
    Levels.loads (server st2) = setups /\ length setups = k /\ in_turn maps 2 setups).
Proof.
  intros Hne Hlt Hs. split.
  - unfold StartServer. rewrite fill_rotation_at, next_entry by done. cbn [mbind result_bind Rotation.level Rotation.mode]. unfold Levels.StartLevel.
    destruct (Levels.LoadNextLevel_loads setup_init SetInclusionOption GetInclusionOption Hoption
      (c_str (entry_at maps 0).1) (c_str (entry_at maps 0).2) [] [] (Levels.set_levelLoaded true (server st)) eq_refl) as (setup & -> & Hsetup).
    cbn [mbind result_bind]. match goal with |- exists st1 _ _, Ok ?s = Ok st1 /\ _ => set (st1 := s) end.
    assert (H1 : idle false maps 1 [setup] st1) by (split; cbn; by rewrite ?Hs).
    destruct (dispatch_loaded _ _ _ _ _ H1) as (st2 & E2 & H2 & _). destruct (rounds_in_turn k maps 1 [setup] st2 Hne Hlt H2) as (st3 & setups & E3 & Hlen & H3 & Hturn & _).
    exists st1, st3, ([setup] ++ setups). split; [done|]. split; [cbn [foldM]; by rewrite E2|]. split; [apply H3|]. split; [cbn; lia|].
    intros [|i] x Hx; [injection Hx as <-; done|]. by apply Hturn.
  - unfold StartDedicated. rewrite fill_rotation_at, next_entry by done. cbn [mbind result_bind]. rewrite next_entry by done.
    cbn [mbind result_bind Rotation.level Rotation.mode].
    destruct (Levels.InitLevelSetup_spec setup_init SetInclusionOption GetInclusionOption Hoption
      (c_str (entry_at maps 0).1) (c_str (entry_at maps 0).2) [] [] (server st)) as (first & -> & Hfirst).
    match goal with |- exists st1 _ _ _, Ok ?s = Ok st1 /\ _ => set (st1 := s) end.
    assert (H1 : idle false maps 2 [] st1) by (split; cbn; by rewrite ?Hs).
    destruct (dispatch_loaded _ _ _ _ _ H1) as (st2 & E2 & H2 & Hs2). destruct (rounds_in_turn k maps 2 [] st2 Hne Hlt H2) as (st3 & setups & E3 & Hlen & H3 & Hturn & Hs3).
    exists st1, st3, setups, first. split; [done|]. split; [cbn [foldM]; by rewrite E2|]. split; [by rewrite Hs3, Hs2|]. split.
    { intros [|i] x Hx; [by injection Hx as <-|done]. }
    split; [apply H3|]. by split.
Qed.
End dispatch.
End Dispatch.

(** ** Samples *)

Module Sample.
Import Teams Players Stats Sessions API.

(** A template with one value; a player with 5 kills that leaves and comes back. *)
Definition kills : list byte := bstr "kills".
Definition offset (name : list byte) : Z := if decide (name = kills) then 0 else kNoOffset.
Definition player (storage : list Value) : Player := mkStatsPlayer (mkPlayer (bstr "Ann") 1 1000 1) false (Some storage).
Definition old_values : list Value := [mkValue 0x40A00000 0].
Definition new_values : list Value := [mkValue 0 0].
Definition state : PersistenceManager := mkPersistence {[ 1 := player old_values; 2 := player new_values ]} [] [] [].

Lemma template : template_ok 1 (fun _ => kills) offset 1.
Proof.
  split; [done|done|done| |].
  - intros i j Hi Hj _. lia.
  - intros i _. apply (bool_decide_unpack _). by vm_compute.
Qed.

Lemma player_comes_back_witness :
  Floats.differs 0x40A00000 0 = true /\
  (exists st1 user stats st2 st3 ws',
    SavePlayerStats 1 (fun _ => kills) offset 1 state = Ok st1 /\ list.last (saved st1) = Some (user, stats) /\
    LoadPlayerPersistenceHk true true 7 2 (leave 1 st1) = Ok st2 /\ list.last (pending st2) = Some (7, 2, user) /\
    OnStats offset (length (pending st1)) (Some stats) st2 = Ok st3 /\ players st3 !! 2 = Some (set_storage ws' (player new_values)) /\
    (forall i v w, in_template 1 i -> value_of (fun _ => kills) offset old_values i = Some v -> value_of (fun _ => kills) offset new_values i = Some w ->
      value_of (fun _ => kills) offset ws' i = Some (if Floats.differs (current v) (reference v) then v else w))) /\
  exists st1, LoadPlayerPersistenceHk true false 7 2 (leave 1 st1) = Ok (leave 1 st1) /\
    players (leave 1 st1) !! 2 = Some (player new_values).
Proof.
  assert (Hfresh : forall i v w, in_template 1 i -> value_of (fun _ => kills) offset old_values i = Some v ->
    value_of (fun _ => kills) offset new_values i = Some w -> reference w = reference v /\ current w = reference w).
  { intros i v w _ Hv Hw. injection Hv as <-. injection Hw as <-. done. }
  split; [by vm_compute|]. split.
  - destruct (player_comes_back 1 (fun _ => kills) offset 1 1 (player old_values) old_values 2 (player new_values) new_values 7 true true state)
      as (st1 & user & stats & H1 & H2 & st2 & st3 & ws' & H3 & H4 & H5 & H6 & _ & H7 & _);
      [apply template|done|done|done|done|done|done|done|done|exact Hfresh|].
    exists st1, user, stats, st2, st3, ws'. auto 10.
  - destruct (player_comes_back 1 (fun _ => kills) offset 1 1 (player old_values) old_values 2 (player new_values) new_values 7 true false state)
      as (st1 & user & stats & H1 & H2 & H3 & H4); [apply template|done|done|done|done|done|done|done|done|exact Hfresh|].
    exists st1. split; [exact H3|exact H4].
Defined.

(** Two players on two connections; the second is kicked. *)
Definition host : Host :=
  mkHost true true (Some ([1; 2], [])) {[ 1 := player old_values; 2 := mkStatsPlayer (mkPlayer (bstr "Bob") 2 2000 1) false None ]}
    {[ 10 := mkConnection 0 false []; 20 := mkConnection 0 false [] ]} [] [].

Lemma kick_reaches_witness :
  ProcessReceivedEvent (fun a => 10 * a) (ServerKick (bstr "2000") (bstr "bye")) host =
    Ok (mkHost true true (Some ([1; 2], [])) (objects host)
      (<[20 := mkConnection SecureReason_KickedByAdmin true (bstr "bye")]> (connections host))
      [ConsoleMessage (bstr "Kicked Bob (2000) from the server")] []).
Proof.
  refine (proj1 (kick_reaches (fun a => 10 * a) host 2000 (bstr "bye") (Some 2) _ _ 20 (mkStatsPlayer (mkPlayer (bstr "Bob") 2 2000 1) false None) _ _ _));
    [by vm_compute| |done|by eexists|done].
  eapply is_player; [done|]. exists [1], [], (mkStatsPlayer (mkPlayer (bstr "Bob") 2 2000 1) false None). split; [done|]. split; [done|]. split; [by split; [right|]|].
  constructor; [|constructor]. exists (player old_values). split; [done|]. by intros [_ [=]].
Defined.

(** Three levels and four rounds. *)
Definition program : Dispatch.Program (Options := list byte) :=
  Dispatch.mkProgram false true (Rotation.mkRotation [] 0) Levels.Server_new host [] [] [] [] [] None.
Definition maps : list (list byte * list byte) := [(bstr "a", bstr "x"); (bstr "b", bstr "y"); (bstr "c", bstr "z")].

Lemma rotation_served_witness :
  let set := fun _ v _ => v in
  let dispatch := Dispatch.MessageManagerDispatchMessageHk Levels.ex_setup set Levels.ex_get 1 (fun _ => kills) offset in
  (exists st1 st2 setups, Dispatch.StartServer Levels.ex_setup set Levels.ex_get maps program = Ok st1 /\
    foldM (fun st m => dispatch m st) st1 (Dispatch.loaded :: Dispatch.rounds 4) = Ok st2 /\
    Levels.loads (Dispatch.server st2) = setups /\ length setups = 5%nat /\ Dispatch.in_turn Levels.ex_get maps 0 setups) /\
  (exists st1 st2 setups first, Dispatch.StartDedicated Levels.ex_setup set maps program = Ok st1 /\
    foldM (fun st m => dispatch m st) st1 (Dispatch.loaded :: Dispatch.rounds 4) = Ok st2 /\
    Dispatch.spawned st2 = Some first /\ Dispatch.in_turn Levels.ex_get maps 0 [first] /\
    Levels.loads (Dispatch.server st2) = setups /\ length setups = 4%nat /\ Dispatch.in_turn Levels.ex_get maps 2 setups).
Proof.
  intros set dispatch. apply (Dispatch.rotation_served Levels.ex_setup set Levels.ex_get 1 (fun _ => kills) offset ltac:(done) maps program 4); done.
Defined.
End Sample.
