(* ===== verification/Hooks.v ===== *)
(** The registry of function hooks (Source/Hook/HookManager.cpp and Hook.cpp).

    The patching of code is a third-party library's; its documented behaviour is
    the class [SafetyHook]: an inline hook makes calls of the target run the
    replacement, and gives the address of a trampoline, which runs what a call
    of the target ran before. Addresses are known by what a call of them runs. *)

From S2P Require Import Prelude.

(** What a call of an address runs: the function at another address, or its own. *)
Abbreviation Code := (gmap Z Z).
Definition runs (code : Code) (a : Z) : Z := default a (code !! a).

Class SafetyHook := {
  create_inline : Z -> Z -> Code -> Z * Code;
  create_inline_ok target replacement code t code' :
    create_inline target replacement code = (t, code') ->
    t <> 0 /\ t <> target /\ code !! t = None /\ runs code' target = replacement /\ runs code' t = runs code target /\
    is_Some (code' !! t) /\ (forall a, is_Some (code !! a) -> is_Some (code' !! a)) /\
    (forall a, a <> target -> a <> t -> runs code' a = runs code a);
  (** The destruction of the hook with this trampoline. *)
  reset : Z -> Code -> Code;
}.

(** ** Hooks *)

Record Hook := mkHook { target : Z; replacement : Z; trampoline : Z; m_hook : option Z }.
Inductive Status := success | unsupported_function.

Definition valid (h : Hook) : bool := negb (target h =? 0) && negb (replacement h =? 0) && negb (target h =? replacement h).
Definition installed (h : Hook) : bool := negb (trampoline h =? 0).

(** The hooks in the order they were made, and the code. *)
Record HookManager := mkManager { hooks : list Hook; code : Code }.

Section manager.
Context {SH : SafetyHook}.

(** An installed hook that is installed again is destroyed after the new one was
    made. *)
Definition install (h : Hook) (c : Code) : Status * Hook * Code :=
  if negb (valid h) then (unsupported_function, h, c) else
  let '(t, c) := create_inline (target h) (replacement h) c in
  let c := match m_hook h with Some old => reset old c | None => c end in
  (success, mkHook (target h) (replacement h) t (Some t), c).

(** The trampoline's address is kept. *)
Definition uninstall (h : Hook) (c : Code) : Status * Hook * Code :=
  (success, mkHook (target h) (replacement h) (trampoline h) None, match m_hook h with Some old => reset old c | None => c end).

(** [Hook::Call] asserts that the hook is installed. *)
Definition Hook_Call (h : Hook) : result Z := if installed h then Ok (trampoline h) else Fault Thrown.

Definition CreateHook (t r : Z) (st : HookManager) : HookManager :=
  let '(_, h, c) := install (mkHook t r t None) (code st) in mkManager (hooks st ++ [h]) c.

(** The first hook of a target, changed in place. *)
Fixpoint change_first (f : Hook -> Code -> Status * Hook * Code) (t : Z) (l : list Hook) (c : Code) : list Hook * Code :=
  match l with
  | [] => ([], c)
  | h :: l' =>
    if target h =? t then let '(_, h, c) := f h c in (h :: l', c)
    else let '(l', c) := change_first f t l' c in (h :: l', c)
  end.
Definition EnableHook (t : Z) (st : HookManager) : HookManager := let '(l, c) := change_first install t (hooks st) (code st) in mkManager l c.
Definition DisableHook (t : Z) (st : HookManager) : HookManager := let '(l, c) := change_first uninstall t (hooks st) (code st) in mkManager l c.

Fixpoint remove_first (t : Z) (l : list Hook) (c : Code) : list Hook * Code :=
  match l with
  | [] => ([], c)
  | h :: l' =>
    if target h =? t then let '(_, _, c) := uninstall h c in (l', c)
    else let '(l', c) := remove_first t l' c in (h :: l', c)
  end.
Definition RemoveHook (t : Z) (st : HookManager) : HookManager := let '(l, c) := remove_first t (hooks st) (code st) in mkManager l c.
Definition RemoveHooks (st : HookManager) : HookManager :=
  mkManager [] (foldl (fun c h => (uninstall h c).2) (code st) (hooks st)).

(** The hook [Call] looks for; 0 stands for a null argument. *)
Definition matches (r t : Z) (h : Hook) : bool :=
  if r =? 0 then target h =? t else (replacement h =? r) && ((t =? 0) || (target h =? t)).

(** The list is searched twice with the same outcome, as nothing changes it in
    between; both arguments null is an assertion. *)
Definition Call (r t : Z) (st : HookManager) : result Z :=
  if (t =? 0) && (r =? 0) then Fault Thrown else
  match List.find (matches r t) (hooks st) with
  | Some h => if valid h then Hook_Call h else Ok 0
  | None => Ok 0
  end.

(** ** The functions a call goes through *)

(** From an address: each replacement runs, calls the trampoline [Call] gives it,
    and that runs the next; the last runs the original function. *)
Inductive goes_through (st : HookManager) : Z -> list Z -> Z -> Prop :=
  | through_original a f : runs (code st) a = f -> goes_through st a [] f
  | through_hook a r rs t f : runs (code st) a = r -> Call r 0 st = Ok t -> t <> 0 -> goes_through st t rs f -> goes_through st a (r :: rs) f.

(** The requests to hook: real functions, replaced by functions of the module,
    each for one target. *)
Record requests_ok (l : list (Z * Z)) : Prop := {
  rq_valid t r : (t, r) ∈ l -> t <> 0 /\ r <> 0;
  rq_distinct : NoDup l.*2;
  rq_apart t r t' r' : (t, r) ∈ l -> (t', r') ∈ l -> t <> r';
}.

Definition create_all (l : list (Z * Z)) (st : HookManager) : HookManager := foldl (fun st p => CreateHook p.1 p.2 st) st l.

(** Addresses the library never gives: the targets. *)
Context (targets : gset Z).
Context (Hfresh : forall t r c, (create_inline t r c).1 ∉ targets).

(** The state after the requests: every hook is installed, with a trampoline that
    is no target, and calls of a target go through its hooks. *)
Definition chain (t : Z) (l : list (Z * Z)) : list Z := reverse (base.filter (fun p => p.1 = t) l).*2.

Record made (l : list (Z * Z)) (st : HookManager) : Prop := {
  md_hooks : (fun h => (target h, replacement h)) <$> hooks st = l;
  md_trampoline h : h ∈ hooks st -> trampoline h <> 0 /\ is_Some (code st !! trampoline h) /\ trampoline h ∉ targets;
  md_chain t : t ∈ targets -> goes_through st t (chain t l) t;
}.

Lemma Call_found r st x :
  r <> 0 -> Call r 0 st = Ok x -> x <> 0 -> exists h, h ∈ hooks st /\ trampoline h = x /\ List.find (matches r 0) (hooks st) = Some h /\ valid h = true.
Proof.
  intros Hr. unfold Call. rewrite (proj2 (Z.eqb_neq r 0)) by done. cbn [andb Z.eqb]. destruct (List.find _ _) as [h|] eqn:E; [|by intros [= <-]].
  destruct (valid h) eqn:Ev; [|by intros [= <-]]. unfold Hook_Call. destruct (installed h); [|done]. intros [= <-] _. exists h. split; [|done].
  apply List.find_some in E as [E _]. by apply list_elem_of_In.
Qed.

Lemma find_app_l {A} (f : A -> bool) l l' x : List.find f l = Some x -> List.find f (l ++ l') = Some x.
Proof. induction l as [|y l IH]; [done|]. cbn. by destruct (f y). Qed.

Lemma find_app_none {A} (f : A -> bool) l x : (forall y, y ∈ l -> f y = false) -> f x = true -> List.find f (l ++ [x]) = Some x.
Proof.
  induction l as [|y l IH]; intros H Hx; cbn; [by rewrite Hx|]. rewrite H by by left. apply IH; [|done]. intros z Hz. apply H. by right.
Qed.

(** What [Call] gives stays when hooks are added, and what it runs. *)
Definition extends (st st' : HookManager) : Prop :=
  forall r x, r <> 0 -> Call r 0 st = Ok x -> x <> 0 -> Call r 0 st' = Ok x /\ runs (code st') x = runs (code st) x.

Lemma through_later st st' a b rs f :
  extends st st' -> goes_through st a rs f -> Forall (fun r => r <> 0) rs -> runs (code st') b = runs (code st) a -> goes_through st' b rs f.
Proof.
  intros He H. revert b. induction H as [a f Hf|a r rs t f Hr Hc Ht H IH]; intros b Hrs Hb; [apply through_original; congruence|].
  apply list.Forall_cons in Hrs as [Hr0 Hrs]. destruct (He r t Hr0 Hc Ht) as [Hc' Hrt].
  apply (through_hook _ _ _ _ t); [congruence|done|done|by apply IH].
Qed.

Lemma chain_nonzero t l : (forall p, p ∈ l -> p.2 <> 0) -> Forall (fun r => r <> 0) (chain t l).
Proof.
  intros H. apply list.Forall_forall. intros r. unfold chain. rewrite elem_of_reverse, list_elem_of_fmap.
  intros (p & -> & [_ Hp]%list_elem_of_filter). by apply H.
Qed.

Lemma chain_snoc t l t' r : chain t (l ++ [(t', r)]) = (if decide (t' = t) then [r] else []) ++ chain t l.
Proof.
  unfold chain. rewrite list.filter_app, fmap_app, reverse_app. f_equal. destruct (decide (t' = t)).
  - by rewrite list.filter_cons_True.
  - by rewrite list.filter_cons_False.
Qed.

(** One more hook. *)
Lemma CreateHook_made l t r st :
  made l st -> requests_ok (l ++ [(t, r)]) -> (forall p, p ∈ l ++ [(t, r)] -> p.1 ∈ targets) -> made (l ++ [(t, r)]) (CreateHook t r st).
Proof.
  intros [Hh Ht Hch] [Hv Hd Ha] Htg. assert (Hin : (t, r) ∈ l ++ [(t, r)]) by (apply elem_of_app; right; by left).
  destruct (Hv t r Hin) as [Ht0 Hr0]. pose proof (Ha t r t r Hin Hin) as Htr.
  unfold CreateHook, install, valid. cbn [target replacement m_hook].
  rewrite (proj2 (Z.eqb_neq t 0)), (proj2 (Z.eqb_neq r 0)), (proj2 (Z.eqb_neq t r)) by done. cbn [negb andb].
  destruct (create_inline t r (code st)) as [tr c] eqn:E. pose proof (Hfresh t r (code st)) as Hnew. rewrite E in Hnew. cbn [fst] in Hnew.
  apply create_inline_ok in E as (Hn0 & Hnt & Hnone & Hrt & Hrtr & Hsome & Hmono & Hother).
  set (h := mkHook t r tr (Some tr)). set (st' := mkManager (hooks st ++ [h]) c).
  assert (Hext : extends st st').
  { intros q x Hq Hc Hx. destruct (Call_found q st x Hq Hc Hx) as (g & Hg & <- & Hfind & Hvalid). destruct (Ht g Hg) as (_ & Hmap & Hntg). split.
    - unfold Call, st'. cbn [hooks]. rewrite (proj2 (Z.eqb_neq q 0)) by done. cbn [andb Z.eqb]. rewrite (find_app_l _ _ _ _ Hfind), Hvalid.
      unfold Hook_Call, installed. by rewrite (proj2 (Z.eqb_neq _ _)).
    - apply Hother; [intros Eq; apply Hntg; rewrite Eq; by apply (Htg (t, r))|]. intros Eq. rewrite Eq, Hnone in Hmap. by destruct Hmap. }
  assert (Hnz : forall a, Forall (fun r => r <> 0) (chain a l)).
  { intros a. apply chain_nonzero. intros [t' r'] Hp. eapply Hv. apply elem_of_app. left. exact Hp. }
  split.
  - cbn. by rewrite fmap_app, Hh.
  - intros g [Hg|Hg%list_elem_of_singleton]%elem_of_app; cbn [code]; [|by rewrite Hg]. destruct (Ht g Hg) as (H1 & H2 & H3). split; [done|]. split; [by apply Hmono|done].
  - intros a Hat. rewrite chain_snoc. destruct (decide (t = a)) as [<-|Hne]; cbn [app].
    + apply (through_hook _ _ _ _ tr); [done| |done|by apply (through_later st _ t); auto].
      change (Call r 0 st' = Ok tr). unfold Call, st'. cbn [hooks]. rewrite (proj2 (Z.eqb_neq r 0)) by done. cbn [andb Z.eqb]. rewrite (find_app_none _ _ h).
      * unfold valid, h. cbn [target replacement]. rewrite (proj2 (Z.eqb_neq t 0)), (proj2 (Z.eqb_neq r 0)), (proj2 (Z.eqb_neq t r)) by done.
        unfold Hook_Call, installed. cbn [trampoline]. by rewrite (proj2 (Z.eqb_neq _ _)).
      * intros g Hg. unfold matches. rewrite (proj2 (Z.eqb_neq r 0)) by done. destruct (Z.eqb_spec (replacement g) r) as [Eg|]; [|done].
        rewrite fmap_app in Hd. apply list.NoDup_app in Hd as (_ & Hd & _). destruct (Hd r); [|by left]. rewrite <- Hh. apply list_elem_of_fmap.
        exists (target g, replacement g). split; [by rewrite Eg|]. apply list_elem_of_fmap. by exists g.
      * unfold matches. rewrite (proj2 (Z.eqb_neq r 0)) by done. cbn. by rewrite Z.eqb_refl.
    + apply (through_later st _ a); auto. cbn [code]. apply Hother; [by intros ->|]. by intros ->.
Qed.

(** C26: However many hooks are made, on one function or on several, a call of a
    function runs its replacements from the last to the first, each reached
    through what [Call] gives the one before, and in the end the function
    itself. *)
Theorem hooks_chain l t :
  requests_ok l -> (forall p, p ∈ l -> p.1 ∈ targets) -> t ∈ targets ->
  goes_through (create_all l (mkManager [] ∅)) t (chain t l) t.
Proof.
  intros Hl Htg Ht. enough (Hm : made l (create_all l (mkManager [] ∅))) by by apply (md_chain _ _ Hm).
  revert Hl Htg. induction l as [|[t' r] l IH] using rev_ind; intros Hl Htg.
  - split; [done|intros h H'; by apply not_elem_of_nil in H'|]. intros a _. apply through_original. unfold runs. cbn [code create_all foldl]. by rewrite lookup_empty.
  - unfold create_all. rewrite foldl_app. cbn [foldl fst snd]. apply CreateHook_made; [|done|done]. apply IH; [|intros p Hp; apply Htg, elem_of_app; by left].
    destruct Hl as [Hv Hd Ha]. split.
    + intros a b Hab. apply Hv, elem_of_app. by left.
    + rewrite fmap_app in Hd. by apply list.NoDup_app in Hd as (Hd & _ & _).
    + intros a b a' b' Hab Hab'. eapply Ha; apply elem_of_app; left; done.
Qed.

(** A hook that is taken out keeps the address of a trampoline that is gone, and
    [Call] hands it out. *)
Lemma DisableHook_stale t r st :
  made [(t, r)] st -> t <> 0 -> r <> 0 -> t <> r ->
  exists h, hooks st = [h] /\ Call r 0 (DisableHook t st) = Ok (trampoline h).
Proof.
  intros [Hh Ht _] Ht0 Hr0 Hne. destruct (hooks st) as [|[t' r' tr m] [|g l]] eqn:Eh; [done| |done]. injection Hh as E1 E2. cbn in E1, E2. subst t' r'.
  exists (mkHook t r tr m). split; [done|]. destruct (Ht (mkHook t r tr m)) as (Hn & _); [by left|]. cbn in Hn.
  unfold DisableHook. rewrite Eh. cbn [change_first target]. rewrite Z.eqb_refl. cbn [uninstall].
  unfold Call, matches, valid, Hook_Call, installed. cbn [hooks List.find target replacement trampoline].
  change (0 =? 0) with true. rewrite (proj2 (Z.eqb_neq r 0)), Z.eqb_refl by done. cbn [andb orb target replacement trampoline].
  rewrite (proj2 (Z.eqb_neq t 0)), (proj2 (Z.eqb_neq t r)) by done. cbn.
  by rewrite (proj2 (Z.eqb_neq r 0)), (proj2 (Z.eqb_neq tr 0)) by done.
Qed.
End manager.

(** ** Samples *)

Module Sample.
(** A library that takes an address nobody uses. *)

#[local] Instance library : SafetyHook.
Proof.
  refine {| create_inline := fun t r c =>
      let a := fresh ({[ 0; 100; 200; t ]} ∪ dom c : gset Z) in (a, <[t := r]> (<[a := runs c t]> c));
    reset := fun _ c => c |}.
  intros t r c a c' E. pose proof (is_fresh ({[ 0; 100; 200; t ]} ∪ dom c : gset Z)) as Hf.
  injection E as Ea <-. cbn in Hf. rewrite Ea in *. rewrite !not_elem_of_union, !not_elem_of_singleton, not_elem_of_dom in Hf.
  destruct Hf as [[[[H1 H2] H3] H4] H5]. split; [done|]. split; [done|]. split; [done|]. unfold runs. rewrite lookup_insert_eq.
  split; [done|]. split; [by rewrite lookup_insert_ne, lookup_insert_eq|]. split; [rewrite lookup_insert_ne, lookup_insert_eq by done; by eexists|]. split.
  - intros b [x Hx]. destruct (decide (b = t)) as [->|]; [rewrite lookup_insert_eq; by eexists|]. rewrite lookup_insert_ne by done.
    destruct (decide (b = a)) as [->|]; [by rewrite H5 in Hx|]. rewrite lookup_insert_ne by done. by eexists.
  - intros b Hb Hba. by rewrite !lookup_insert_ne.
Defined.

(** Two hooks of one function and one of another. *)
Lemma hooks_chain_witness :
  goes_through (create_all [(100, 1); (200, 2); (100, 3)] (mkManager [] ∅)) 100 [3; 1] 100.
Proof.
  apply (hooks_chain {[ 100; 200 ]}) with (l := [(100, 1); (200, 2); (100, 3)]).
  - intros t r c. cbn. pose proof (is_fresh ({[ 0; 100; 200; t ]} ∪ dom c : gset Z)) as Hf. set_solver.
  - split.
    + intros t r H. repeat (apply elem_of_cons in H as [[= -> ->]|H]; [done|]). by apply not_elem_of_nil in H.
    + apply (bool_decide_unpack _). by vm_compute.
    + intros t r t' r' H H'. repeat (apply elem_of_cons in H as [[= -> ->]|H]; [repeat (apply elem_of_cons in H' as [[= -> ->]|H']; [done|]); by apply not_elem_of_nil in H'|]).
      by apply not_elem_of_nil in H.
  - intros p H. repeat (apply elem_of_cons in H as [->|H]; [set_solver|]). by apply not_elem_of_nil in H.
  - set_solver.
Defined.
End Sample.
