(* ===== verification/Plugins.v ===== *)
(** Plugins: how they are found and started (Source/Script/ScriptManager.cpp and
    LuaGlobals.cpp), the console commands they register (LuaConsole.cpp) and
    their sockets (LuaSocketManager.cpp).

    The Lua interpreter that runs their scripts, the file system and the archives,
    and the operating system's sockets are arguments. *)

From S2P Require Import Prelude.
From S2P Require Import ByteBuffer.
From S2P Require Import StringUtils.
From S2P Require Import Lua.

(** ** Loading *)

Module Loader.
Inductive PluginRealm := PluginRealm_Client | PluginRealm_Server.
#[export] Instance PluginRealm_eq_dec : EqDecision PluginRealm.
Proof. solve_decision. Defined.

(** [LoadFile] of a plugin is a look-up in its directory or archive. *)
Record Plugin := mkPlugin { m_realm : PluginRealm; LoadFile : list byte -> option (list byte) }.

Definition realm_dir (r : PluginRealm) : list byte := match r with PluginRealm_Client => bstr "client" | PluginRealm_Server => bstr "server" end.

(** The file a module name stands for. *)
Definition module_path (realm : PluginRealm) (path : list byte) : list byte :=
  let path := if StartsWith path (bstr "common/") then path else realm_dir realm ++ bstr "/" ++ path in
  match find_sub (bstr ".lua") path with Some _ => path | None => path ++ bstr ".lua" end.

(** [ScriptLoader]: the function [luaL_loadstring] compiles, or nil. *)
Definition ScriptLoader {F} (compile : list byte -> option F) (plugin : Plugin) (name : list byte) : option F :=
  match LoadFile plugin (module_path (m_realm plugin) (c_str name)) with
  | None => None
  | Some content => if bool_decide (content = []) then None else compile (c_str content)
  end.

(** The scripts [LoadPlugin] runs, each whatever the one before did. *)
Definition init_scripts (plugin : Plugin) : list (list byte) :=
  let of_file path := match LoadFile plugin path with Some content => [c_str content] | None => [] end in
  of_file (bstr "common/__init__.lua") ++ of_file (realm_dir (m_realm plugin) ++ bstr "/__init__.lua").

(** [std::filesystem::path::extension] of a file's name. *)
Fixpoint last_dot (name : list byte) : option nat :=
  match name with
  | [] => None
  | c :: name' => match last_dot name' with Some i => Some (S i) | None => if decide (c = Byte.x2e) then Some 0%nat else None end
  end.
Definition extension (name : list byte) : list byte :=
  if bool_decide (name = bstr ".") || bool_decide (name = bstr "..") then [] else
  match last_dot name with Some (S i) => drop (S i) name | _ => [] end.

Inductive Source := Packaged (path : list byte) | Local (path : list byte).

(** What [LoadScripts] loads: the environment's variables, and the paths and names
    in the directory of the server's plugins. *)
Definition LoadPluginsFromDirectory (entries : list (list byte * list byte)) : list Source :=
  flat_map (fun e => if bool_decide (extension e.2 = bstr ".kbplugin") then [Packaged e.1] else []) entries.

Definition is_archive (path : list byte) : bool :=
  match find_sub (bstr ".zip") path, find_sub (bstr ".kbplugin") path with None, None => false | _, _ => true end.

Definition LoadScripts (realm : PluginRealm) (devPath : option (list byte)) (serverDirectory : option (list (list byte * list byte))) : list Source :=
  match realm with
  | PluginRealm_Client => []
  | PluginRealm_Server =>
    (match devPath with Some path => [if is_archive path then Packaged path else Local path] | None => [] end) ++
    (match serverDirectory with Some entries => LoadPluginsFromDirectory entries | None => [] end)
  end.

(** A module is looked for in the realm's directory or the common one, and the
    name of a file that has its extension is kept. *)
Lemma module_path_realm realm name :
  is_prefix (bstr "common/") name = false -> find_sub (bstr ".lua") (realm_dir realm ++ bstr "/" ++ name) = None ->
  module_path realm name = realm_dir realm ++ bstr "/" ++ name ++ bstr ".lua".
Proof. intros H1 H2. unfold module_path, StartsWith. rewrite H1, H2. by rewrite <- !app_assoc. Qed.

(** A module whose name only contains the extension is not found under its file. *)
Lemma extension_inside realm name rest :
  is_prefix (bstr "common/") (name ++ bstr ".luax" ++ rest) = false ->
  module_path realm (name ++ bstr ".luax" ++ rest) = realm_dir realm ++ bstr "/" ++ name ++ bstr ".luax" ++ rest.
Proof.
  intros H. unfold module_path, StartsWith. rewrite H. destruct (find_sub _ _) eqn:E; [done|].
  exfalso. assert (Hf : forall pre, find_sub (bstr ".lua") (pre ++ bstr ".luax" ++ rest) <> None).
  { induction pre as [|c pre IH]; [done|]. cbn [app find_sub]. destruct (is_prefix (bstr ".lua") (c :: _)); [done|]. intros Hn%fmap_None. done. }
  apply (Hf (realm_dir realm ++ bstr "/" ++ name)). rewrite <- E. f_equal. by rewrite <- !app_assoc.
Qed.

(** *** The functions that are taken from a plugin *)

Definition removed : list (list byte) :=
  [bstr "execute"; bstr "exit"; bstr "remove"; bstr "rename"; bstr "setlocale"; bstr "tmpname"].

Fixpoint remove_fields (names : list (list byte)) : LM unit :=
  match names with
  | [] => mret tt
  | name :: names' => _ ← lua_pushnil; _ ← lua_setfield (-2) name; remove_fields names'
  end.
Definition remove_os_functions : LM unit := _ ← lua_getglobal (bstr "os"); _ ← remove_fields removed; lua_pop 1.

Lemma setfield_nil w s id t name :
  frame (lua w) = s ++ [LUA_TTABLE id] -> tables (lua w) !! id = Some t ->
  (_ ← lua_pushnil; lua_setfield (-2) name) w =
    Ok (Some tt, mkWorld (mem w) (set_tables (<[id := delete (c_str name) t]> (tables (lua w))) (lua w))).
Proof.
  intros Hf Ht. set (w1 := in_frame (s ++ [LUA_TTABLE id; LUA_TNIL]) w).
  assert (E1 : lua_pushnil w = Ok (Some tt, w1)).
  { unfold lua_pushnil, push, modify, w1, in_frame. rewrite Hf. by rewrite <- app_assoc. }
  rewrite (LM_bind_ok _ _ _ _ _ E1). unfold lua_setfield.
  destruct (index2value_top w1 s (LUA_TTABLE id) LUA_TNIL eq_refl) as [Hi1 Hi2].
  rewrite (LM_bind_ok _ _ _ _ _ Hi2), (LM_bind_ok _ _ _ _ _ Hi1).
  set (w2 := mkWorld (mem w1) (set_tables (alter (set_key name LUA_TNIL) id (tables (lua w1))) (lua w1))).
  rewrite (LM_bind_ok _ _ _ tt w2) by done. rewrite (lua_pop_ok w2 (s ++ [LUA_TTABLE id]) LUA_TNIL) by (cbn; by rewrite <- app_assoc).
  do 2 f_equal. unfold w2, w1, in_frame, set_tables, set_frame. cbn. f_equal. f_equal; [done|]. apply map_eq. intros j.
  destruct (decide (j = id)) as [->|Hj]; [|by rewrite lookup_alter_ne, lookup_insert_ne].
  rewrite lookup_alter_eq, lookup_insert_eq, Ht. cbn. unfold set_key. by rewrite decide_True.
Qed.

Lemma remove_fields_ok names w s id t :
  frame (lua w) = s ++ [LUA_TTABLE id] -> tables (lua w) !! id = Some t ->
  remove_fields names w =
    Ok (Some tt, mkWorld (mem w) (set_tables (<[id := foldl (fun t name => delete (c_str name) t) t names]> (tables (lua w))) (lua w))).
Proof.
  revert w t. induction names as [|name names IH]; intros w t Hf Ht.
  - cbn. rewrite insert_id by done. destruct w as [m []]. done.
  - change (remove_fields (name :: names)) with (_ ← lua_pushnil; _ ← lua_setfield (-2) name; remove_fields names).
    assert (E : (_ ← lua_pushnil; _ ← lua_setfield (-2) name; remove_fields names) w
      = ((_ ← lua_pushnil; lua_setfield (-2) name) ≫= fun _ => remove_fields names) w).
    { unfold mbind, LM_bind. by destruct (lua_pushnil w) as [[[] ?]|]. }
    rewrite E. rewrite (LM_bind_ok _ _ _ _ _ (setfield_nil w s id t name Hf Ht)).
    rewrite (IH _ (delete (c_str name) t)); [|done|cbn; by rewrite lookup_insert_eq]. cbn [mem lua foldl].
    do 2 f_equal. unfold set_tables. cbn. by rewrite insert_insert_eq.
Qed.

(** Before a plugin's scripts run, the functions of the operating system's
    library that act on processes and files are gone, and nothing else of the
    state has changed. *)
Theorem os_functions_removed w id t :
  globals (lua w) !! bstr "os" = Some (LUA_TTABLE id) -> tables (lua w) !! id = Some t ->
  exists t', remove_os_functions w = Ok (Some tt, mkWorld (mem w) (set_tables (<[id := t']> (tables (lua w))) (lua w))) /\
    (forall name, name ∈ removed -> t' !! name = None) /\ (forall name, name ∉ removed -> t' !! name = t !! name).
Proof.
  intros Hg Ht. exists (foldl (fun t name => delete (c_str name) t) t removed). split.
  - unfold remove_os_functions. set (w1 := in_frame (frame (lua w) ++ [LUA_TTABLE id]) w).
    assert (E1 : lua_getglobal (bstr "os") w = Ok (Some tt, w1)).
    { unfold lua_getglobal. rewrite (LM_bind_ok _ _ _ (globals (lua w)) w) by done. change (c_str (bstr "os")) with (bstr "os"). by rewrite Hg. }
    rewrite (LM_bind_ok _ _ _ _ _ E1), (LM_bind_ok _ _ _ _ _ (remove_fields_ok removed w1 (frame (lua w)) id t eq_refl Ht)).
    rewrite (lua_pop_ok _ (frame (lua w)) (LUA_TTABLE id)) by done. done.
  - assert (Hid : forall name, name ∈ removed -> c_str name = name) by (intros name H; repeat (apply elem_of_cons in H as [->|H]; [done|]); by apply not_elem_of_nil in H).
    assert (Hgen : forall names (t : gmap (list byte) TValue), (forall name, name ∈ names -> c_str name = name) ->
      (forall name, name ∈ names -> foldl (fun t name => delete (c_str name) t) t names !! name = None) /\
      (forall name, name ∉ names -> foldl (fun t name => delete (c_str name) t) t names !! name = t !! name)).
    { clear. induction names as [|n names IH]; intros t Hc; [split; [intros ? H; by apply not_elem_of_nil in H|done]|]. cbn [foldl].
      destruct (IH (delete (c_str n) t)) as [H1 H2]; [intros x Hx; apply Hc; by right|]. rewrite (Hc n) in * by by left. split.
      - intros x Hx. destruct (decide (x ∈ names)) as [Hin|Hout]; [by apply H1|]. rewrite H2 by done. apply elem_of_cons in Hx as [->|]; [|done]. apply lookup_delete_eq.
      - intros x [Hxn Hx]%not_elem_of_cons. rewrite H2 by done. by apply lookup_delete_ne. }
    by apply Hgen.
Qed.
End Loader.

(** ** Console commands of plugins *)

Module LuaConsole.
Section command.
Context `{LuaNumbers}.
(** What a call of a function with these arguments gives: whether it succeeded, and
    the one result or the error. *)
Context (behaves : TValue -> list TValue -> bool * TValue).

(** [lua_pcall] for one result: the function and its arguments make way for it. *)
Definition lua_pcall (nargs : nat) : LM bool :=
  s ← gets frame;
  if (length s <? S nargs)%nat then crash Undefined else
  let rest := take (length s - S nargs) s in
  match drop (length s - S nargs) s with
  | func :: args => let '(ok, v) := behaves func args in _ ← modify (set_frame (rest ++ [v])); mret ok
  | [] => crash Undefined
  end.

Definition lua_tostring (idx : Z) : LM (option (list byte)) := v ← index2value idx; mret (tostring v).

(** [LuaConsoleCommand::Execute], with the values its references hold; the output
    of the console. *)
Definition Execute (instance callback : TValue) (rawArguments : list byte) : LM (list (list byte)) :=
  _ ← push instance; _ ← push callback; _ ← lua_pushvalue (-2); _ ← lua_pushstring rawArguments;
  ok ← lua_pcall 2;
  _ ← (if negb ok then lua_pop 1 else mret tt : LM unit);
  s ← lua_isstring (-1);
  out ← (if (s : bool) then text ← lua_tostring (-1); mret (match text with Some t => [c_str t] | None => [] end) else mret [] : LM (list (list byte)));
  _ ← lua_pop 1; mret out.

(** What is on the stack after a command. *)
Definition left_over (instance callback : TValue) (rawArguments : list byte) : list TValue :=
  if (behaves callback [instance; LUA_TSTRING (c_str rawArguments)]).1 then [instance] else [].
Definition is_text (v : TValue) : bool := match v with LUA_TSTRING _ | LUA_TINTEGER _ | LUA_TNUMBER _ => true | _ => false end.
Definition printed (instance callback : TValue) (rawArguments : list byte) : list (list byte) :=
  let '(ok, v) := behaves callback [instance; LUA_TSTRING (c_str rawArguments)] in
  if ok && is_text v then match tostring v with Some t => [c_str t] | None => [] end else [].

Lemma index2value_last w s v : frame (lua w) = s ++ [v] -> index2value (-1) w = Ok (Some v, w).
Proof.
  intros Hf. unfold index2value. rewrite (LM_bind_ok _ _ _ (s ++ [v]) w) by (unfold gets; by rewrite Hf).
  cbn [Z.ltb Z.compare Z.eqb orb Z.opp]. rewrite length_app. cbn [length].
  rewrite (proj2 (Z.ltb_ge _ _)) by lia. unfold lift.
  replace (Z.to_nat (Z.of_nat (length s + 1) + -1)) with (length s) by lia. by rewrite list_lookup_middle.
Qed.

Lemma push_ok v w : push v w = Ok (Some tt, in_frame (frame (lua w) ++ [v]) w).
Proof. done. Qed.

Lemma in_frame_in_frame s s' w : in_frame s (in_frame s' w) = in_frame s w.
Proof. done. Qed.

(** Four values are pushed and three of them replaced by one. *)
Lemma pcall_ok w s instance callback arg :
  frame (lua w) = s ++ [instance; callback; instance; arg] ->
  lua_pcall 2 w = Ok (Some (behaves callback [instance; arg]).1, in_frame (s ++ [instance; (behaves callback [instance; arg]).2]) w).
Proof.
  intros Hf. unfold lua_pcall. rewrite (LM_bind_ok _ _ _ (s ++ [instance; callback; instance; arg]) w) by (unfold gets; by rewrite Hf).
  rewrite length_app. cbn [length]. rewrite (proj2 (Nat.ltb_ge _ _)) by lia. replace (length s + 4 - 3)%nat with (length (s ++ [instance])) by (rewrite length_app; cbn; lia).
  replace (s ++ [instance; callback; instance; arg]) with ((s ++ [instance]) ++ [callback; instance; arg]) by by rewrite <- app_assoc.
  rewrite drop_app_length, take_app_length. destruct (behaves _ _) as [ok v]. rewrite <- app_assoc. done.
Qed.

Lemma Execute_ok id callback rawArguments w :
  let instance := LUA_TTABLE id in
  Execute instance callback rawArguments w =
    Ok (Some (printed instance callback rawArguments), in_frame (frame (lua w) ++ left_over instance callback rawArguments) w).
Proof.
  intros instance. set (s := frame (lua w)). set (arg := LUA_TSTRING (c_str rawArguments)). unfold Execute.
  rewrite (LM_bind_ok _ _ _ _ _ (push_ok instance w)). fold s.
  rewrite (LM_bind_ok _ _ _ _ _ (push_ok callback _)). cbn [lua in_frame frame set_frame].
  unfold lua_pushvalue. set (w2 := in_frame ((s ++ [instance]) ++ [callback]) (in_frame (s ++ [instance]) w)).
  assert (Hi : index2value (-2) w2 = Ok (Some instance, w2)).
  { apply (proj2 (index2value_top w2 s instance callback ltac:(cbn; by rewrite <- app_assoc))). }
  assert (Hp : (v ← index2value (-2); push v) w2 = Ok (Some tt, in_frame (s ++ [instance; callback; instance]) w)).
  { rewrite (LM_bind_ok _ _ _ _ _ Hi), push_ok. unfold w2, in_frame. cbn. by rewrite <- !app_assoc. }
  rewrite (LM_bind_ok _ _ _ _ _ Hp). unfold lua_pushstring. fold arg. rewrite (LM_bind_ok _ _ _ _ _ (push_ok arg _)).
  cbn [lua in_frame frame set_frame]. rewrite <- app_assoc. cbn [app].
  erewrite LM_bind_ok; [|apply (pcall_ok _ s instance callback arg); reflexivity]. rewrite !in_frame_in_frame. unfold printed, left_over. fold arg.
  destruct (behaves callback [instance; arg]) as [ok v]. cbn [fst snd].
  assert (Hpop : lua_pop 1 (in_frame (s ++ [instance; v]) w) = Ok (Some tt, in_frame (s ++ [instance]) w)).
  { by rewrite (lua_pop_ok _ (s ++ [instance]) v) by (cbn; by rewrite <- app_assoc). }
  assert (Hpop' : lua_pop 1 (in_frame (s ++ [instance]) w) = Ok (Some tt, in_frame s w)).
  { by rewrite (lua_pop_ok _ s instance). }
  destruct ok; cbn [negb andb].
  - rewrite (LM_bind_ok (mret tt) _ (in_frame (s ++ [instance; v]) w) tt _ eq_refl).
    unfold lua_isstring. rewrite !LM_bind_assoc. rewrite (LM_bind_ok _ _ _ _ _ (proj1 (index2value_top (in_frame (s ++ [instance; v]) w) s instance v eq_refl))).
    rewrite (LM_bind_ok _ _ _ (is_text v) (in_frame (s ++ [instance; v]) w)) by by destruct v. destruct (is_text v).
    + unfold lua_tostring. rewrite !LM_bind_assoc. rewrite (LM_bind_ok _ _ _ _ _ (proj1 (index2value_top (in_frame (s ++ [instance; v]) w) s instance v eq_refl))).
      rewrite (LM_bind_ok _ _ _ (tostring v) (in_frame (s ++ [instance; v]) w)) by done. rewrite (LM_bind_ok _ _ _ _ _ eq_refl).
      by rewrite (LM_bind_ok _ _ _ _ _ Hpop).
    + rewrite (LM_bind_ok _ _ _ _ _ eq_refl).
      by rewrite (LM_bind_ok _ _ _ _ _ Hpop).
  - rewrite (LM_bind_ok _ _ _ _ _ Hpop).
    unfold lua_isstring. rewrite !LM_bind_assoc. rewrite (LM_bind_ok _ _ _ _ _ (index2value_last (in_frame (s ++ [instance]) w) s instance eq_refl)).
    rewrite (LM_bind_ok _ _ _ false (in_frame (s ++ [instance]) w)) by done. rewrite (LM_bind_ok _ _ _ _ _ eq_refl).
    rewrite (LM_bind_ok _ _ _ _ _ Hpop'). by rewrite app_nil_r.
Qed.

(** A history of commands, each with its instance, callback and arguments. *)
Definition Command : Type := Z * TValue * list byte.
Fixpoint commands (l : list Command) : LM (list (list byte)) :=
  match l with
  | [] => mret []
  | (id, callback, args) :: l' => out ← Execute (LUA_TTABLE id) callback args; rest ← commands l'; mret (out ++ rest)
  end.

(** A command prints the text its function returns, and nothing when it fails;
    but every command that succeeds leaves its instance on the stack of the
    plugin's state, which grows by one value each time. *)
Theorem commands_pile_up l w :
  commands l w = Ok (Some (flat_map (fun c : Command => printed (LUA_TTABLE c.1.1) c.1.2 c.2) l),
    in_frame (frame (lua w) ++ flat_map (fun c : Command => left_over (LUA_TTABLE c.1.1) c.1.2 c.2) l) w).
Proof.
  revert w. induction l as [|[[id callback] args] l IH]; intros w.
  - cbn [commands flat_map]. rewrite app_nil_r. unfold in_frame. rewrite set_frame_id. by destruct w.
  - cbn [commands]. rewrite (LM_bind_ok _ _ _ _ _ (Execute_ok id callback args w)), (LM_bind_ok _ _ _ _ _ (IH _)).
    cbn [flat_map fst snd]. unfold in_frame. cbn [lua frame set_frame mem]. by rewrite <- app_assoc.
Qed.
End command.
End LuaConsole.

(** ** Sockets of plugins *)

Module Sockets.
(** The handles that are open, the Lua objects that hold one, the next object, the
    calls of [closesocket] for an object, and the bytes that were never freed. *)
Record Net := mkNet { open : gset Z; objects : gmap Z Z; next_object : Z; closes : list (Z * Z); leaked : Z }.
Definition Net_new : Net := mkNet ∅ ∅ 1 [] 0.

(** What a function gives Lua: an error, or its results. *)
Inductive Results := Error | Socket (object : Z) | Text (s : list byte) | Number (n : Z) | Nil | Nothing.

Definition open_handle (h : Z) (st : Net) : Net := mkNet ({[h]} ∪ open st) (objects st) (next_object st) (closes st) (leaked st).
(** Closing a handle that is not open does nothing. *)
Definition closesocket (by_object : option Z) (h : Z) (st : Net) : Net :=
  mkNet (open st ∖ {[h]}) (objects st) (next_object st)
    (closes st ++ match by_object with Some u => [(u, h)] | None => [] end) (leaked st).

Definition Push_SOCKET (h : Z) (st : Net) : Results * Net :=
  (Socket (next_object st), mkNet (open st) (<[next_object st := h]> (objects st)) (next_object st + 1) (closes st) (leaked st)).

(** [socket] is the handle the system gives, none for [INVALID_SOCKET]; a socket
    that cannot listen is closed before anybody has it. *)
Definition WinSocketCreate (port : option Z) (socket : option Z) (bound listening : bool) (st : Net) : Results * Net :=
  match port with
  | None => (Error, st)
  | Some _ =>
    match socket with
    | None => (Error, st)
    | Some h =>
      let st := open_handle h st in
      if negb bound then (Error, closesocket None h st) else
      if negb listening then (Error, closesocket None h st) else
      Push_SOCKET h st
    end
  end.

(** [GetSocket] on an object that was collected is not possible. *)
Definition GetSocket (object : Z) (st : Net) : result Z := of_option Undefined (objects st !! object).

Inductive Accepted := Client (h : Z) | WouldBlock | Failed.
Definition WinSocketAccept (object : Z) (accepted : Accepted) (st : Net) : result (Results * Net) :=
  _ ← GetSocket object st;
  Ok (match accepted with Client h => Push_SOCKET h (open_handle h st) | WouldBlock => (Nil, st) | Failed => (Error, st) end).

(** What [recv] fills the buffer with: nothing at the end of the stream. *)
Inductive Received := Data (s : list byte) | RecvWouldBlock | RecvFailed.
Definition leak (n : Z) (st : Net) : Net := mkNet (open st) (objects st) (next_object st) (closes st) (leaked st + n).
Definition WinSocketRecv (object length : Z) (received : Received) (st : Net) : result (Results * Net) :=
  _ ← GetSocket object st;
  let n := i32 length in
  if n <? 0 then Fault Thrown else
  Ok (match received with
      | RecvWouldBlock => (Nil, st)
      | RecvFailed => (Error, st)
      | Data [] => (Text [], leak n st)
      | Data s => (Text s, st)
      end).

(** [sent] is what [send] says of the bytes it is given. *)
Definition WinSocketSend (object : Z) (data : list byte) (sent : list byte -> option Z) (st : Net) : result (Results * Net) :=
  _ ← GetSocket object st;
  Ok (match sent (c_str data) with None => (Error, st) | Some n => (Number n, st) end).

Definition WinSocketClose (object : Z) (st : Net) : result (Results * Net) :=
  h ← GetSocket object st; Ok (Nothing, closesocket (Some object) h st).

(** Lua collects an object: its [__gc] is the same function. *)
Definition collect (object : Z) (st : Net) : result Net :=
  '(_, st) ← WinSocketClose object st;
  Ok (mkNet (open st) (delete object (objects st)) (next_object st) (closes st) (leaked st)).

(** *** Histories *)

Inductive Op :=
  | Create (port : option Z) (socket : option Z) (bound listening : bool) | Accept (object : Z) (accepted : Accepted)
  | Recv (object length : Z) (received : Received) | Send (object : Z) (data : list byte) (sent : list byte -> option Z)
  | Collect (object : Z).

Definition step (st : Net) (op : Op) : result Net :=
  match op with
  | Create port socket bound listening => Ok (WinSocketCreate port socket bound listening st).2
  | Accept object accepted => '(_, st) ← WinSocketAccept object accepted st; Ok st
  | Recv object length received => '(_, st) ← WinSocketRecv object length received st; Ok st
  | Send object data sent => '(_, st) ← WinSocketSend object data sent st; Ok st
  | Collect object => collect object st
  end.

(** The system gives handles that are not open. *)
Definition fresh_handle (op : Op) (st : Net) : Prop :=
  match op with Create _ (Some h) _ _ | Accept _ (Client h) => h ∉ open st | _ => True end.

Inductive runs : Net -> list Op -> Net -> Prop :=
  | runs_nil st : runs st [] st
  | runs_cons st op l st1 st2 : fresh_handle op st -> step st op = Ok st1 -> runs st1 l st2 -> runs st (op :: l) st2.

(** The open handles are those of the objects, one each; an object has closed its
    handle when it is gone, and no handle was closed by an object it was not of. *)
Record sockets_ok (st : Net) : Prop := {
  so_open h : h ∈ open st <-> exists u, objects st !! u = Some h;
  so_one u u' h : objects st !! u = Some h -> objects st !! u' = Some h -> u = u';
  so_next u : next_object st <= u -> objects st !! u = None;
  so_closes u h : (u, h) ∈ closes st -> u < next_object st /\ objects st !! u = None;
  so_once : NoDup (closes st).*1;
}.

Lemma sockets_ok_new : sockets_ok Net_new.
Proof.
  split; cbn.
  - intros h. split; [set_solver|]. intros [u Hu]. by rewrite lookup_empty in Hu.
  - intros u u' h Hu. by rewrite lookup_empty in Hu.
  - done.
  - intros u h H. by apply not_elem_of_nil in H.
  - constructor.
Qed.

Lemma sockets_ok_push h st : sockets_ok st -> h ∉ open st -> sockets_ok (Push_SOCKET h (open_handle h st)).2.
Proof.
  intros [Ho H1 Hn Hc Hd] Hh.
  assert (Hnew : forall u, objects st !! u <> Some h) by (intros u Hu; apply Hh, Ho; by exists u).
  split; cbn; [| | | |done].
  - intros x. rewrite elem_of_union, elem_of_singleton, Ho. split.
    + intros [->|[u Hu]]; [exists (next_object st); by rewrite lookup_insert_eq|]. exists u. rewrite lookup_insert_ne; [done|].
      intros <-. by rewrite Hn in Hu by lia.
    + intros [u Hu]. destruct (decide (u = next_object st)) as [->|Hne]; [rewrite lookup_insert_eq in Hu; injection Hu as ->; by left|].
      rewrite lookup_insert_ne in Hu by done. right. by exists u.
  - intros u u' x Hu Hu'. destruct (decide (u = next_object st)) as [->|Hne], (decide (u' = next_object st)) as [->|Hne']; [done| | |].
    + rewrite lookup_insert_eq in Hu. rewrite lookup_insert_ne in Hu' by done. injection Hu as <-. by destruct (Hnew u').
    + rewrite lookup_insert_eq in Hu'. rewrite lookup_insert_ne in Hu by done. injection Hu' as <-. by destruct (Hnew u).
    + rewrite !lookup_insert_ne in Hu, Hu' by done. by apply (H1 u u' x).
  - intros u Hu. rewrite lookup_insert_ne by lia. apply Hn. lia.
  - intros u x Hin. destruct (Hc u x Hin) as [Hlt Hnone]. split; [lia|]. rewrite lookup_insert_ne by lia. done.
Qed.

(** A handle that is closed before an object has it. *)
Lemma sockets_ok_failed h st : sockets_ok st -> h ∉ open st -> sockets_ok (closesocket None h (open_handle h st)).
Proof.
  intros [Ho H1 Hn Hc Hd] Hh. split; cbn; rewrite ?app_nil_r; try done.
  intros x. rewrite elem_of_difference, elem_of_union, !elem_of_singleton. rewrite <- Ho. split; [intros [[->|Hx] Hne]; done|].
  intros Hx. split; [by right|]. intros ->. done.
Qed.

Lemma sockets_ok_collect u st st' : sockets_ok st -> collect u st = Ok st' ->
  sockets_ok st' /\ exists h, objects st !! u = Some h /\ closes st' = closes st ++ [(u, h)] /\ open st' = open st ∖ {[h]}.
Proof.
  intros [Ho H1 Hn Hc Hd]. unfold collect, WinSocketClose, GetSocket. destruct (objects st !! u) as [h|] eqn:Eu; [|done]. intros [= <-].
  split; [|by exists h]. split; cbn.
  - intros x. rewrite elem_of_difference, elem_of_singleton, Ho. split.
    + intros [[v Hv] Hne]. exists v. rewrite lookup_delete_ne; [done|]. intros <-. rewrite Eu in Hv. by injection Hv as ->.
    + intros [v Hv]. destruct (decide (v = u)) as [->|Hvu]; [by rewrite lookup_delete_eq in Hv|]. rewrite lookup_delete_ne in Hv by done.
      split; [by exists v|]. intros ->. by apply Hvu, (H1 v u h).
  - intros v v' x Hv Hv'. apply lookup_delete_Some in Hv as [_ Hv], Hv' as [_ Hv']. by apply (H1 v v' x).
  - intros v Hv. apply lookup_delete_None. right. by apply Hn.
  - intros v x [Hin|Hin%list_elem_of_singleton]%elem_of_app.
    + destruct (Hc v x Hin) as [Hlt Hnone]. split; [done|]. apply lookup_delete_None. by right.
    + injection Hin as -> ->. split; [|by rewrite lookup_delete_eq]. destruct (decide (u < next_object st)); [done|]. by rewrite Hn in Eu by lia.
  - rewrite fmap_app. apply list.NoDup_app. split; [done|]. split; [|apply NoDup_singleton].
    intros v Hv ->%list_elem_of_singleton. apply list_elem_of_fmap in Hv as ([w x] & Hw & Hin). cbn in Hw. subst w.
    destruct (Hc u x Hin) as [_ Hnone]. by rewrite Eu in Hnone.
Qed.

Lemma sockets_ok_leak n st : sockets_ok st -> sockets_ok (leak n st).
Proof. by intros []. Qed.

Lemma sockets_ok_step st op st' : sockets_ok st -> fresh_handle op st -> step st op = Ok st' -> sockets_ok st'.
Proof.
  intros H Hf. destruct op as [port [h|] bound listening|u acc|u n r|u data sent|u]; cbn [step].
  - cbn in Hf. unfold WinSocketCreate. destruct port; [|by intros [= <-]]. destruct bound; cbn [negb]; [|intros [= <-]; by apply sockets_ok_failed].
    destruct listening; cbn [negb]; intros [= <-]; [by apply sockets_ok_push|by apply sockets_ok_failed].
  - unfold WinSocketCreate. by destruct port; intros [= <-].
  - unfold WinSocketAccept. destruct (GetSocket u st); [|done]. cbn [mbind result_bind]. destruct acc as [h| |]; intros [= <-]; [by apply sockets_ok_push|done|done].
  - unfold WinSocketRecv. destruct (GetSocket u st); [|done]. cbn [mbind result_bind]. destruct (i32 n <? 0); [done|].
    destruct r as [[|c s]| |]; intros [= <-]; try done. by apply sockets_ok_leak.
  - unfold WinSocketSend. destruct (GetSocket u st); [|done]. cbn [mbind result_bind]. by destruct (sent _); intros [= <-].
  - intros E. by apply (sockets_ok_collect u st).
Qed.

(** As long as scripts leave the closing to Lua, an open socket belongs to one
    object, and each object closes its own socket once, when it is collected. *)
Theorem sockets_closed_once l st :
  runs Net_new l st ->
  sockets_ok st /\
  forall u st', collect u st = Ok st' ->
    exists h, objects st !! u = Some h /\ h ∈ open st /\ open st' = open st ∖ {[h]} /\
      closes st' = closes st ++ [(u, h)] /\ u ∉ (closes st).*1 /\ (forall u', u' <> u -> objects st' !! u' <> Some h).
Proof.
  intros H. assert (Hok : sockets_ok st).
  { revert H. generalize sockets_ok_new. generalize Net_new. intros st0 H0 H. induction H as [|st op l st1 st2 Hf Hs H IH]; [done|].
    apply IH. by apply (sockets_ok_step st op). }
  split; [done|]. intros u st' E. destruct (sockets_ok_collect u st st' Hok E) as (Hok' & h & Hu & Hc & Ho). exists h. split; [done|].
  split; [apply (so_open _ Hok); by exists u|]. split; [done|]. split; [done|]. split.
  - intros Hin. pose proof (so_once _ Hok') as Hd. rewrite Hc, fmap_app in Hd. apply list.NoDup_app in Hd as (_ & Hd & _). apply (Hd u Hin). by left.
  - intros u' Hne Hu'. pose proof (so_open _ Hok' h) as Hh. rewrite Ho in Hh. destruct Hh as [_ Hh].
    assert (Hin : h ∈ open st ∖ {[h]}) by (apply Hh; by exists u'). set_solver.
Qed.

(** A script that closes a socket itself has it closed again when the object is
    collected: by then the handle may be another's. *)
Lemma foreign_close u h st st1 :
  sockets_ok st -> objects st !! u = Some h -> WinSocketClose u st = Ok (Nothing, st1) ->
  let st2 := (WinSocketCreate (Some 80) (Some h) true true st1).2 in
  h ∉ open st1 /\ objects st2 !! next_object st = Some h /\ h ∈ open st2 /\
  exists st3, collect u st2 = Ok st3 /\ h ∉ open st3 /\ objects st3 !! next_object st = Some h.
Proof.
  intros Hok Hu. unfold WinSocketClose, GetSocket. rewrite Hu. cbn [of_option mbind result_bind]. intros [= <-]. cbn.
  assert (Hne : u <> next_object st) by (intros ->; by rewrite (so_next _ Hok) in Hu by lia).
  rewrite lookup_insert_eq. split; [apply not_elem_of_difference; right; by apply elem_of_singleton|]. split; [done|].
  split; [by apply elem_of_union_l, elem_of_singleton|].
  unfold collect, WinSocketClose, GetSocket. cbn. rewrite lookup_insert_ne, Hu by done. cbn. eexists. split; [done|]. cbn.
  split; [apply not_elem_of_difference; right; by apply elem_of_singleton|]. by rewrite lookup_delete_ne, lookup_insert_eq.
Qed.

(** The buffer of a read at the end of a stream is never freed. *)
Lemma recv_leaks u h n st : objects st !! u = Some h -> 0 <= n < 2 ^ 31 -> WinSocketRecv u n (Data []) st = Ok (Text [], leak n st).
Proof.
  intros Hu Hn. unfold WinSocketRecv, GetSocket. rewrite Hu. cbn [of_option mbind result_bind]. rewrite swrap_small by (unfold srange; lia).
  by rewrite (proj2 (Z.ltb_ge _ _)) by lia.
Qed.
End Sockets.

(** ** Samples *)

Module Sample.
Import Loader Sockets.

Definition os_table : gmap (list byte) TValue :=
  {[ bstr "execute" := LUA_TFUNCTION (bstr "os_execute") None; bstr "clock" := LUA_TFUNCTION (bstr "os_clock") None ]}.
Definition world : World := mkWorld ∅ (mkLua [] ∅ {[ 5 := os_table ]} ∅ ∅ ∅ {[ bstr "os" := LUA_TTABLE 5 ]} 6).

Lemma os_functions_removed_witness :
  exists t', remove_os_functions world = Ok (Some tt, mkWorld (mem world) (set_tables (<[5 := t']> (tables (lua world))) (lua world))) /\
    (forall name, name ∈ removed -> t' !! name = None) /\ (forall name, name ∉ removed -> t' !! name = os_table !! name).
Proof. exact (os_functions_removed world 5 os_table eq_refl eq_refl). Defined.

(** A server socket, a client it accepts, and the collection of the server. *)
Definition history : list Op := [Create (Some 80) (Some 3) true true; Accept 1 (Client 4); Recv 2 16 (Data []); Collect 1].
Definition after : Net := mkNet (({[4]} ∪ ({[3]} ∪ ∅)) ∖ {[3]}) (delete 1 (<[2 := 4]> (<[1 := 3]> ∅))) 3 [(1, 3)] 16.

Lemma sockets_closed_once_witness :
  sockets_ok after /\
  forall u st', collect u after = Ok st' ->
    exists h, objects after !! u = Some h /\ h ∈ open after /\ open st' = open after ∖ {[h]} /\
      closes st' = closes after ++ [(u, h)] /\ u ∉ (closes after).*1 /\ (forall u', u' <> u -> objects st' !! u' <> Some h).
Proof.
  apply (sockets_closed_once history after). unfold history.
  eapply runs_cons; [cbn; set_solver|reflexivity|]. eapply runs_cons; [cbn; set_solver|reflexivity|].
  eapply runs_cons; [done|reflexivity|]. eapply runs_cons; [done|reflexivity|]. apply runs_nil.
Defined.
End Sample.
