(* ===== verification/PlayerBindings.v ===== *)
(** The game's players and entities as plugins see them (Source/Script/
    LuaPlayerManager.cpp and LuaEntityManager.cpp).

    Plugins run in Lua states of their own, and the bindings of entities keep one
    of them in a static variable; so the state is that of the process, with all
    the Lua states. The game's functions are recorded as calls; what they do to
    the players is the game's. *)

From S2P Require Import Prelude.
From S2P Require Import ByteBuffer.
From S2P Require Import StringUtils.
From S2P Require Import Guid.
From S2P Require Import Server.
From S2P Require Import Console.
From S2P Require Import Lua.
From S2P Require Import LuaData.
From S2P Require Import Owners.

(** ** The process *)

Module Process.
Import Teams.

(** A character: its current weapon, with whether it has a firing part, and its
    health component, with whether it is a [WSServerSoldierHealthComponent]. *)
Record Character := mkCharacter { GetCurrentWeapon : option bool; GetHealthComponent : option bool }.

(** What the bindings read of a player. The extents lie at fixed offsets in the
    player's object, so that there are always all of them. *)
Record Player := mkPlayerObject {
  base : ServerPlayer; m_battlepoints : Z; m_score : Z; m_kills : Z; m_assists : Z; m_deaths : Z; m_weapon : Z;
  GetCharacterEntity : Z; GetVehicleEntity : Z; m_activeKit : Z }.

Inductive GameCall :=
  | CreatePlayer (name : list byte) (created : Z) | SetTeam (player team : Z) | SetBattlepoints (player amount : Z) | AddBattlepoints (player amount : Z)
  | SetScore (player amount : Z) | SetKills (player amount : Z) | SetAssists (player amount : Z) | SetDeaths (player amount : Z)
  | OnPlayerSelectedWeaponMessage (player asset : Z) | SetSelectedCustomizationAsset (player asset : Z)
  | SetUnlock (player : Z) (guid : Guid) (grant : bool) | ForceInvisible (character : Z) (force : bool)
  | SetPrimaryAmmoMags (character count : Z) | SetHealth (character amount : Z) | SetMaxHealth (character amount : Z)
  | SetAbility (player ability : Z) | SendChatMessage (channel : Z) (message : list byte) (player : Z)
  | SetInputEnabled (player action : Z) (enabled : bool) | SendSyncedSettings (player : Z) | KickPlayer (player : Z) (reason : list byte)
  | CreateEntity (bus data transform realm created : Z) | Init (entity : Z) | FireEvent (entity event : Z) | SendEvent (entity event : Z)
  | WriteProperty (bus data field type value : Z).

(** [game_context] is whether there is a [ServerGameContext]; without one a server
    function follows a null pointer. *)
Record Game := mkGame {
  game_context : bool; players : gmap Z Player; m_players : list Z; characters : gmap Z Character; calls : list GameCall }.

(** An event a plugin made, in a userdata of its own. *)
Record Event := mkEvent { eventId : Z; event_player : option Z; m_sendToPlayerOnly : bool; m_team : Z }.

(** [s_lua] is the state [LuaEntityManager] was registered for last; [arrays] are
    the elements of tables with integer keys, by state and table; [events] those
    in userdata, by state and userdata. *)
Record World := mkProcess {
  memory : Mem; states : gmap Z lua_State; s_lua : Z; arrays : gmap (Z * Z) (gmap Z TValue); events : gmap (Z * Z) Event; game : Game }.

Definition set_game g (p : World) : World := mkProcess (memory p) (states p) (s_lua p) (arrays p) (events p) g.
Definition set_arrays a (p : World) : World := mkProcess (memory p) (states p) (s_lua p) a (events p) (game p).
Definition set_events e (p : World) : World := mkProcess (memory p) (states p) (s_lua p) (arrays p) e (game p).
Definition set_s_lua L (p : World) : World := mkProcess (memory p) (states p) L (arrays p) (events p) (game p).
Definition set_state (L : Z) (s : lua_State) (p : World) : World :=
  mkProcess (memory p) (<[L := s]> (states p)) (s_lua p) (arrays p) (events p) (game p).

(** A function of the bindings: [None] is an error of Lua, as in [LM]. *)
Definition PM (A : Type) : Type := World -> result (option A * World).
#[export] Instance PM_ret : MRet PM := fun A a p => Ok (Some a, p).
#[export] Instance PM_bind : MBind PM := fun A B f m p =>
  match m p with Ok (Some a, p') => f a p' | Ok (None, p') => Ok (None, p') | Fault e => Fault e end.

Definition pcrash {A} (e : fault) : PM A := fun _ => Fault e.
Definition perror {A} : PM A := fun p => Ok (None, p).
Definition asks {A} (f : World -> A) : PM A := fun p => Ok (Some (f p), p).
Definition change (f : World -> World) : PM unit := fun p => Ok (Some tt, f p).
Definition plift {A} (r : result A) : PM A := fun p => match r with Ok a => Ok (Some a, p) | Fault e => Fault e end.
Definition need {A} (o : option A) : PM A := plift (of_option Undefined o).

(** A function of Lua's interface in a state. *)
Definition on {A} (L : Z) (m : LM A) : PM A := fun p =>
  match states p !! L with
  | None => Fault Undefined
  | Some s =>
    match m (mkWorld (memory p) s) with
    | Ok (o, w) => Ok (o, mkProcess (mem w) (<[L := lua w]> (states p)) (s_lua p) (arrays p) (events p) (game p))
    | Fault e => Fault e
    end
  end.

(** The same in the state of [s_lua], for a function that runs in another: an
    error there has no handler. *)
Definition on_static {A} (L : Z) (m : LM A) : PM A := fun p =>
  if s_lua p =? L then on L m p else match on (s_lua p) m p with Ok (None, _) => Fault Undefined | r => r end.

(** The call of a C function in its state. *)
Definition call_in (L : Z) (f : PM nat) (args : list TValue) : PM (list TValue) :=
  s ← on L (gets frame); _ ← on L (modify (set_frame args)); n ← f; s' ← on L (gets frame); _ ← on L (modify (set_frame s));
  if (length s' <? n)%nat then pcrash Undefined else mret (drop (length s' - n) s').

Definition game_call (c : GameCall) : PM unit :=
  change (fun p => let g := game p in set_game (mkGame (game_context g) (players g) (m_players g) (characters g) (calls g ++ [c])) p).

(** A player whose object is gone cannot be used. *)
Definition the_player (player : Z) : PM Player := ps ← asks (fun p => players (game p)); need (ps !! player).
Definition the_character (c : Z) : PM Character := cs ← asks (fun p => characters (game p)); need (cs !! c).
Definition player_call (player : Z) (c : GameCall) : PM unit := _ ← the_player player; game_call c.

Definition lua_isinteger (idx : Z) : LM bool := v ← index2value idx; mret (match v with LUA_TINTEGER _ => true | _ => false end).
Definition lua_isboolean (idx : Z) : LM bool := v ← index2value idx; mret (match v with LUA_TBOOLEAN _ => true | _ => false end).

(** [lua_rawseti] of the value on top. *)
Definition set_element (i : Z) (v : TValue) (a : gmap Z TValue) : gmap Z TValue :=
  if decide (v = LUA_TNIL) then delete i a else <[i := v]> a.
Definition lua_rawseti (L idx i : Z) : PM unit :=
  t ← on L (index2value idx); v ← on L (index2value (-1));
  match t with
  | LUA_TTABLE id =>
    _ ← change (fun p => set_arrays (<[(L, id) := set_element i v (default ∅ (arrays p !! (L, id)))]> (arrays p)) p);
    on L (lua_pop 1)
  | _ => pcrash Undefined
  end.

(** [LuaUtils::Push] of a [NativeEntity] or an [EntityBus]: the userdata goes to
    the static state, its metatable to what is under the top of this one. *)
Definition WrapEntity (value : Z) : LM Z := ud ← lua_newuserdata 1; _ ← ud_set ud 0 value; mret ud.
Definition Push_static (tname : list byte) (L value : Z) : PM unit :=
  _ ← on_static L (WrapEntity value); on L (with_metatable tname).
Definition Push_NativeEntity : Z -> Z -> PM unit := Push_static (bstr "Entity").
Definition Push_EntityBus : Z -> Z -> PM unit := Push_static (bstr "EntityBus").

Definition is_key (key : list byte) (s : String.string) : bool := bool_decide (key = bstr s).
Arguments is_key key s%_string_scope.

Definition lua_createtable (L : Z) : PM unit := on L lua_newtable.
(** Values pushed one after another into the table below. *)
Fixpoint push_all (push : Z -> PM unit) (L i : Z) (l : list Z) : PM unit :=
  match l with [] => mret tt | x :: l' => _ ← push x; _ ← lua_rawseti L (-2) i; push_all push L (i + 1) l' end.

Definition read_memory {A} (f : Mem -> result A) : PM A := fun p => plift (f (memory p)) p.

(** *** Laws *)

Lemma PM_bind_ok {A B} (m : PM A) (f : A -> PM B) p a p' : m p = Ok (Some a, p') -> (m ≫= f) p = f a p'.
Proof. intros H0. unfold mbind, PM_bind. by rewrite H0. Qed.

Lemma PM_bind_eq {A B} (m m' : PM A) (f : A -> PM B) p : m p = m' p -> (m ≫= f) p = (m' ≫= f) p.
Proof. intros H0. unfold mbind, PM_bind. by rewrite H0. Qed.

Lemma PM_bind_fault {A B} (m : PM A) (f : A -> PM B) p e : m p = Fault e -> (m ≫= f) p = Fault e.
Proof. intros H0. unfold mbind, PM_bind. by rewrite H0. Qed.

(** A state with another frame. *)
Definition with_frame (L : Z) (s : list TValue) (l : lua_State) (p : World) : World := set_state L (set_frame s l) p.

Lemma on_ok {A} L (m : LM A) p l a w :
  states p !! L = Some l -> m (mkWorld (memory p) l) = Ok (Some a, w) -> mem w = memory p -> on L m p = Ok (Some a, set_state L (lua w) p).
Proof. intros Hl Hm E. unfold on. rewrite Hl, Hm, E. done. Qed.

(** A look at a state that changes nothing. *)
Lemma on_look {A} L (m : LM A) p l a :
  states p !! L = Some l -> m (mkWorld (memory p) l) = Ok (Some a, mkWorld (memory p) l) -> on L m p = Ok (Some a, p).
Proof. intros Hl Hm. rewrite (on_ok L m p l a _ Hl Hm) by done. unfold set_state. cbn. rewrite insert_id by done. by destruct p. Qed.

Lemma on_frame {A} L (m : LM A) l p s a :
  m (mkWorld (memory p) (set_frame s l)) = Ok (Some a, mkWorld (memory p) (set_frame s l)) -> on L m (with_frame L s l p) = Ok (Some a, with_frame L s l p).
Proof. intros H0. apply (on_look L _ _ (set_frame s l)); [cbn; by rewrite lookup_insert_eq|done]. Qed.

(** A call: the function's own frame is gone afterwards. *)
Lemma call_in_gen L f args p l n s l' p' rs :
  states p !! L = Some l -> f (with_frame L args l p) = Ok (Some n, with_frame L s l' p') -> (n <= length s)%nat -> drop (length s - n) s = rs ->
  call_in L f args p = Ok (Some rs, with_frame L (frame l) l' p').
Proof.
  intros Hl Hf Hn <-. unfold call_in. rewrite (PM_bind_ok _ _ _ _ _ (on_look L (gets frame) p l _ Hl eq_refl)).
  rewrite (PM_bind_ok _ _ _ tt (with_frame L args l p)) by by apply (on_ok L _ p l tt (mkWorld (memory p) (set_frame args l)) Hl).
  rewrite (PM_bind_ok _ _ _ _ _ Hf), (PM_bind_ok _ _ _ _ _ (on_frame L (gets frame) l' p' s s eq_refl)).
  rewrite (PM_bind_ok _ _ _ tt (with_frame L (frame l) l' p')).
  - by rewrite (proj2 (Nat.ltb_ge _ _)) by done.
  - unfold with_frame. rewrite (on_ok L _ _ (set_frame s l') tt (mkWorld (memory p') (set_frame (frame l) l'))); [|cbn; by rewrite lookup_insert_eq|done|done].
    unfold set_state. cbn. by rewrite insert_insert_eq.
Qed.

(** A new table. *)
Definition with_table (l : lua_State) : lua_State := set_tables (<[next_object l := ∅]> (tables l)) (set_next (next_object l + 1) l).

Lemma createtable_ok L l p s : lua_createtable L (with_frame L s l p) = Ok (Some tt, with_frame L (s ++ [LUA_TTABLE (next_object l)]) (with_table l) p).
Proof.
  unfold lua_createtable, with_frame. rewrite (on_ok L _ _ (set_frame s l) tt (mkWorld (memory p) (set_frame (s ++ [LUA_TTABLE (next_object l)]) (with_table l))));
    [|cbn; by rewrite lookup_insert_eq|done|done]. unfold set_state. cbn. by rewrite insert_insert_eq.
Qed.

Lemma with_frame_id L l p : states p !! L = Some l -> with_frame L (frame l) l p = p.
Proof. intros Hl. unfold with_frame, set_state. rewrite set_frame_id, insert_id by done. by destruct p. Qed.

(** A call whose function leaves the Lua states as they were, but for its frame. *)
Lemma call_in_ok L f args p l n g s rs :
  states p !! L = Some l ->
  f (with_frame L args l p) = Ok (Some n, set_game g (with_frame L s l p)) -> (n <= length s)%nat -> drop (length s - n) s = rs ->
  call_in L f args p = Ok (Some rs, set_game g p).
Proof.
  intros Hl Hf Hn Hrs. rewrite (call_in_gen L f args p l n s l (set_game g p) rs) by done. by rewrite (with_frame_id L l (set_game g p)).
Qed.

Lemma call_in_same L f args p l n s rs :
  states p !! L = Some l -> f (with_frame L args l p) = Ok (Some n, with_frame L s l p) -> (n <= length s)%nat -> drop (length s - n) s = rs ->
  call_in L f args p = Ok (Some rs, p).
Proof.
  intros Hl Hf Hn Hrs. pose proof (call_in_ok L f args p l n (game p) s rs Hl) as Hc.
  replace (set_game (game p) (with_frame L s l p)) with (with_frame L s l p) in Hc by by destruct p.
  replace (set_game (game p) p) with p in Hc by by destruct p. by apply Hc.
Qed.

Lemma on_push L l p s v : on L (push v) (with_frame L s l p) = Ok (Some tt, with_frame L (s ++ [v]) l p).
Proof.
  unfold with_frame. rewrite (on_ok L _ (set_state L (set_frame s l) p) (set_frame s l) tt (mkWorld (memory p) (set_frame (s ++ [v]) l))).
  - unfold set_state. cbn. by rewrite insert_insert_eq.
  - cbn. by rewrite lookup_insert_eq.
  - done.
  - done.
Qed.

Lemma on_seq {A B} L (m : LM A) (f : A -> LM B) p : (a ← on L m; on L (f a)) p = on L (m ≫= f) p.
Proof.
  unfold mbind, PM_bind, LM_bind, on. destruct (states p !! L) as [l|]; [|done]. destruct (m (mkWorld (memory p) l)) as [[[a|] w]|]; [|done|done].
  cbn. rewrite lookup_insert_eq. destruct w as [mm ll]. cbn. destruct (f a (mkWorld mm ll)) as [[o w']|]; [|done]. by rewrite insert_insert_eq.
Qed.

(** A table that is filled with objects from an index on. *)
Fixpoint filled (mt i : Z) (xs : list Z) (l : lua_State) (a : gmap Z TValue) : lua_State * gmap Z TValue :=
  match xs with [] => (l, a) | x :: xs' => filled mt (i + 1) xs' (element_state mt x l) (set_element i (element_value x l) a) end.

(** The elements are the objects, in order, and there are no others. *)
Record lists (mt : Z) (xs : list Z) (l : lua_State) (a : gmap Z TValue) : Prop := {
  li_at j x : xs !! j = Some x -> shows l mt x (default LUA_TNIL (a !! (Z.of_nat j + 1)));
  li_only i v : a !! i = Some v -> 0 < i <= len xs /\ v <> LUA_TNIL;
}.

Lemma lists_snoc mt xs x l a :
  lists mt xs l a -> lists mt (xs ++ [x]) (element_state mt x l) (set_element (len xs + 1) (element_value x l) a).
Proof.
  intros [Hat Ho]. assert (Hnew : element_value x l = LUA_TNIL \/ element_value x l <> LUA_TNIL) by (destruct (decide (element_value x l = LUA_TNIL)); auto).
  split.
  - intros j y [Hy|[Hj Hy]]%lookup_app_Some.
    + apply shows_later. unfold set_element. pose proof (lookup_lt_Some _ _ _ Hy) as Hlt.
      destruct (decide _); [rewrite lookup_delete_ne by lia|rewrite lookup_insert_ne by lia]; by apply Hat.
    + destruct (j - length xs)%nat as [|k] eqn:Ek; [|done]. injection Hy as <-. replace (Z.of_nat j + 1) with (len xs + 1) by lia.
      replace (default LUA_TNIL (set_element (len xs + 1) (element_value x l) a !! (len xs + 1))) with (element_value x l); [apply shows_element|].
      unfold set_element. destruct (decide (element_value x l = LUA_TNIL)) as [E|E]; [by rewrite lookup_delete_eq, E|by rewrite lookup_insert_eq].
  - intros i v. rewrite length_app. cbn [length]. unfold set_element. destruct (decide (element_value x l = LUA_TNIL)) as [E|E].
    + intros [_ Hv]%lookup_delete_Some. destruct (Ho i v Hv). split; [lia|done].
    + destruct (decide (i = len xs + 1)) as [->|Hne]; [rewrite lookup_insert_eq; intros [= <-]; split; [lia|done]|].
      rewrite lookup_insert_ne by done. intros Hv. destruct (Ho i v Hv). split; [lia|done].
Qed.

Lemma filled_lists mt pre xs l a :
  lists mt pre l a -> let '(l', a') := filled mt (len pre + 1) xs l a in lists mt (pre ++ xs) l' a'.
Proof.
  revert pre l a. induction xs as [|x xs IH]; intros pre l a Hl; cbn [filled]; [by rewrite app_nil_r|].
  pose proof (IH (pre ++ [x]) _ _ (lists_snoc mt pre x l a Hl)) as Hf. rewrite length_app, <- app_assoc in Hf. cbn [length app] in Hf.
  by replace (Z.of_nat (length pre + 1) + 1) with (len pre + 1 + 1) in Hf by lia.
Qed.

(** [lua_rawseti] with the table under the top. *)
Lemma rawseti_ok L l p s id v i :
  lua_rawseti L (-2) i (with_frame L (s ++ [LUA_TTABLE id; v]) l p) =
    Ok (Some tt, with_frame L (s ++ [LUA_TTABLE id]) l (set_arrays (<[(L, id) := set_element i v (default ∅ (arrays p !! (L, id)))]> (arrays p)) p)).
Proof.
  set (s2 := s ++ [LUA_TTABLE id; v]). set (p' := set_arrays _ p).
  destruct (index2value_top (mkWorld (memory p) (set_frame s2 l)) s (LUA_TTABLE id) v eq_refl) as [H1 H2].
  unfold lua_rawseti. rewrite (PM_bind_ok _ _ _ _ _ (on_frame L _ l p s2 _ H2)), (PM_bind_ok _ _ _ _ _ (on_frame L _ l p s2 _ H1)).
  rewrite (PM_bind_ok _ _ _ tt (with_frame L s2 l p')) by done.
  unfold with_frame. rewrite (on_ok L _ _ (set_frame s2 l) tt (mkWorld (memory p) (set_frame (s ++ [LUA_TTABLE id]) l))).
  - unfold set_state. cbn. by rewrite insert_insert_eq.
  - cbn. by rewrite lookup_insert_eq.
  - rewrite (lua_pop_ok _ (s ++ [LUA_TTABLE id]) v) by (cbn; unfold s2; by rewrite <- app_assoc). done.
  - done.
Qed.

(** A loop that fills a table, with a function that pushes objects. *)
Lemma push_all_ok (push : Z -> PM unit) L tname mt id s xs i l p :
  (forall x l q s, registry l !! tname = Some (LUA_TTABLE mt) -> s_lua q = s_lua p -> x ∈ xs ->
    push x (with_frame L s l q) = Ok (Some tt, with_frame L (s ++ [element_value x l]) (element_state mt x l) q)) ->
  registry l !! tname = Some (LUA_TTABLE mt) ->
  let '(l', a) := filled mt i xs l (default ∅ (arrays p !! (L, id))) in
  exists p', push_all push L i xs (with_frame L (s ++ [LUA_TTABLE id]) l p) = Ok (Some tt, with_frame L (s ++ [LUA_TTABLE id]) l' p') /\
    default ∅ (arrays p' !! (L, id)) = a /\ game p' = game p /\ states p' = states p /\ s_lua p' = s_lua p /\ memory p' = memory p.
Proof.
  revert i l p. induction xs as [|x xs IH]; intros i l p Hpush Hr; cbn [filled push_all]; [by exists p|].
  set (p1 := set_arrays (<[(L, id) := set_element i (element_value x l) (default ∅ (arrays p !! (L, id)))]> (arrays p)) p).
  pose proof (IH (i + 1) (element_state mt x l) p1) as IH1. cbn [arrays set_arrays] in IH1.
  replace (default ∅ (arrays p1 !! (L, id))) with (set_element i (element_value x l) (default ∅ (arrays p !! (L, id)))) in IH1
    by (unfold p1; cbn; by rewrite lookup_insert_eq).
  destruct (filled mt (i + 1) xs _ _) as [l' a']. destruct IH1 as (p' & E & Ha & Hg & Hs & Hsl & Hm).
  - intros y l0 q s0 Hr0 Hq Hy. apply Hpush; [done|done|by right].
  - unfold element_state. by destruct (x =? 0).
  - exists p'. split; [|by split_and!]. rewrite (PM_bind_ok _ _ _ _ _ (Hpush x l p _ Hr eq_refl ltac:(by left))), <- app_assoc. cbn [app].
    by rewrite (PM_bind_ok _ _ _ _ _ (rawseti_ok L (element_state mt x l) p s id (element_value x l) i)).
Qed.

Lemma lists_nil mt l : lists mt [] l ∅.
Proof. split; [done|]. intros i v Hv. by rewrite lookup_empty in Hv. Qed.

(** A new table filled with objects. *)
Lemma fill_new_table (push : Z -> PM unit) L tname mt s xs l p :
  (forall x l q s, registry l !! tname = Some (LUA_TTABLE mt) -> s_lua q = s_lua p -> x ∈ xs ->
    push x (with_frame L s l q) = Ok (Some tt, with_frame L (s ++ [element_value x l]) (element_state mt x l) q)) ->
  registry l !! tname = Some (LUA_TTABLE mt) -> arrays p !! (L, next_object l) = None ->
  exists p' l', push_all push L 1 xs (with_frame L (s ++ [LUA_TTABLE (next_object l)]) (with_table l) p) =
      Ok (Some tt, with_frame L (s ++ [LUA_TTABLE (next_object l)]) l' p') /\
    game p' = game p /\ lists mt xs l' (default ∅ (arrays p' !! (L, next_object l))).
Proof.
  intros Hpush Hr Ha. pose proof (push_all_ok push L tname mt (next_object l) s xs 1 (with_table l) p) as Hfill.
  pose proof (filled_lists mt [] xs (with_table l) ∅ (lists_nil mt (with_table l))) as Hlists.
  change (let '(l', a') := filled mt 1 xs (with_table l) ∅ in lists mt xs l' a') in Hlists. rewrite Ha in Hfill.
  change (default ∅ None) with (∅ : gmap Z TValue) in Hfill. destruct (filled mt 1 xs (with_table l) ∅) as [l2 a].
  destruct Hfill as (p2 & E & Ha2 & Hg & _); [intros; by apply Hpush|done|]. exists p2, l2. split; [done|]. split; [done|]. by rewrite Ha2.
Qed.
End Process.

(** ** Players *)

Module Players.
Import Teams Console.Players Process.

Section players.
Context `{LuaNumbers}.
(** The game: creating a player, looking up a container by name and an ability by
    identifier, and [SetAbility], which tells whether it worked. *)
Context (createPlayer : list byte -> Z) (LookupDataContainer : list byte -> Z) (getWsPlayerAbilityAsset : Z -> Z).

(** *** The userdata *)

Definition WrapServerPlayer (L player : Z) : PM Z := on L (ud ← lua_newuserdata 1; _ ← ud_set ud 0 player; mret ud).
Definition Push_ServerPlayer (L value : Z) : PM unit :=
  if value =? 0 then on L lua_pushnil else _ ← WrapServerPlayer L value; on L (with_metatable (bstr "ServerPlayer")).

(** Any userdata will do: its first word is taken for the player. *)
Definition GetServerPlayer (L index : Z) : PM Z := on L (p ← GetUserdata index; word p 0).

(** *** The table [PlayerManager] *)

Definition need_context : PM unit := c ← asks (fun p => game_context (game p)); if (c : bool) then mret tt else pcrash Undefined.

Definition CreatePlayerFunc (L : Z) : PM nat :=
  s ← on L (lua_isstring 1);
  if negb s then mret 0%nat else
  name ← on L (luaL_checkstring 1); _ ← need_context;
  let player := createPlayer name in
  _ ← game_call (CreatePlayer name player); _ ← game_call (SetTeam player 2); _ ← Push_ServerPlayer L player; mret 1%nat.

Definition player_list : PM (list (option ServerPlayer)) := asks (fun p => (fun a => base <$> (players (game p) !! a)) <$> m_players (game p)).
Definition by_name (name : list byte) : PM (option nat) := l ← player_list; plift (GetPlayer_name name l).

(** A player that is not found is nil on the stack, but the function says that it
    returns nothing. *)
Definition GetPlayerFunc (L : Z) : PM nat :=
  s ← on L (lua_isstring 1);
  if negb s then mret 0%nat else
  name ← on L (luaL_checkstring 1); _ ← need_context;
  found ← by_name name; l ← asks (fun p => m_players (game p));
  match found ≫= (l !!.) with
  | None => _ ← on L lua_pushnil; mret 0%nat
  | Some player => _ ← Push_ServerPlayer L player; mret 1%nat
  end.

Definition GetPlayersFunc (L : Z) : PM nat :=
  c ← asks (fun p => game_context (game p));
  if negb c then _ ← on L lua_pushnil; mret 1%nat else
  l ← asks (fun p => m_players (game p)); _ ← lua_createtable L; _ ← push_all (Push_ServerPlayer L) L 1 l; mret 1%nat.

(** *** The methods of a player *)

Definition with_player (L : Z) (f : Z -> PM nat) : PM nat :=
  player ← GetServerPlayer L 1; if player =? 0 then mret 0%nat else f player.

Definition ServerPlayerGetWeapon (L : Z) : PM nat := with_player L (fun player =>
  p ← the_player player; _ ← on L (Push_DataContainer (m_weapon p)); mret 1%nat).

Definition ServerPlayerSetWeapon (L : Z) : PM nat := with_player L (fun player =>
  weaponName ← on L (luaL_checkstring 2);
  let container := LookupDataContainer weaponName in
  if container =? 0 then mret 0%nat else _ ← player_call player (OnPlayerSelectedWeaponMessage player container); mret 1%nat).

(** The setters of a number; what the game gets is converted to the parameter's
    type. *)
Definition set_number (f : Z -> Z -> GameCall) (L : Z) : PM nat := with_player L (fun player =>
  amount ← on L (luaL_checkinteger 2); _ ← player_call player (f player (i32 amount)); mret 1%nat).
Definition ServerPlayerSetTeam : Z -> PM nat := set_number SetTeam.
Definition ServerPlayerSetBattlepoints : Z -> PM nat := set_number (fun p n => SetBattlepoints p (u32 n)).
Definition ServerPlayerGiveBattlepoints : Z -> PM nat := set_number AddBattlepoints.
Definition ServerPlayerSetScore : Z -> PM nat := set_number (fun p n => SetScore p (u32 n)).
Definition ServerPlayerSetKills : Z -> PM nat := set_number (fun p n => SetKills p (u32 n)).
Definition ServerPlayerSetAssists : Z -> PM nat := set_number (fun p n => SetAssists p (u32 n)).
Definition ServerPlayerSetDeaths : Z -> PM nat := set_number (fun p n => SetDeaths p (u32 n)).

Definition ServerPlayerSetCustomizationAsset (L : Z) : PM nat := with_player L (fun player =>
  assetName ← on L (luaL_checkstring 2);
  let container := LookupDataContainer assetName in
  if container =? 0 then mret 0%nat else _ ← player_call player (SetSelectedCustomizationAsset player container); mret 1%nat).

(** A function that looks at an argument's type first and otherwise does nothing. *)
Definition when_ (b : PM bool) (f : PM nat) : PM nat := c ← b; if (c : bool) then f else mret 0%nat.

Definition ServerPlayerSetUnlock (L : Z) : PM nat := with_player L (fun player =>
  when_ (on L (lua_isstring 2)) (when_ (on L (lua_isboolean 3)) (
    assetGuid ← on L (luaL_checkstring 2); grant ← on L (lua_toboolean 3);
    _ ← player_call player (SetUnlock player (Guid_FromString assetGuid) grant); mret 1%nat))).

Definition ServerPlayerSetInvisible (L : Z) : PM nat := with_player L (fun player =>
  when_ (on L (lua_isboolean 2)) (
    forceInvisible ← on L (lua_toboolean 2); p ← the_player player;
    if GetCharacterEntity p =? 0 then mret 0%nat else
    _ ← game_call (ForceInvisible (GetCharacterEntity p) forceInvisible); mret 1%nat)).

Definition ServerPlayerSetAmmo (L : Z) : PM nat := with_player L (fun player =>
  when_ (on L (lua_isinteger 2)) (
    count ← on L (luaL_checkinteger 2); p ← the_player player;
    if GetCharacterEntity p =? 0 then mret 0%nat else
    c ← the_character (GetCharacterEntity p);
    match GetCurrentWeapon c with
    | Some true => _ ← game_call (SetPrimaryAmmoMags (GetCharacterEntity p) (i32 count)); mret 1%nat
    | _ => mret 0%nat
    end)).

Definition with_health (L : Z) (f : Z -> bool -> Z -> PM unit) : PM nat := with_player L (fun player =>
  when_ (on L (lua_isinteger 2)) (
    amount ← on L (luaL_checkinteger 2); p ← the_player player;
    if GetCharacterEntity p =? 0 then mret 0%nat else
    c ← the_character (GetCharacterEntity p);
    match GetHealthComponent c with None => mret 0%nat | Some ws => _ ← f (GetCharacterEntity p) ws (i32 amount); mret 1%nat end)).
Definition ServerPlayerSetHealth (L : Z) : PM nat := with_health L (fun c _ amount => game_call (SetHealth c amount)).
Definition ServerPlayerSetMaxHealth (L : Z) : PM nat :=
  with_health L (fun c ws amount => if ws : bool then game_call (SetMaxHealth c amount) else mret tt).

Definition ServerPlayerSetAbility (L : Z) : PM nat := with_player L (fun player =>
  when_ (on L (lua_isinteger 2)) (
    abilityId ← on L (luaL_checkinteger 2);
    if getWsPlayerAbilityAsset (u32 abilityId) =? 0 then mret 0%nat else
    _ ← player_call player (SetAbility player (u32 abilityId)); mret 1%nat)).

(** Channel and message are both the second argument. *)
Definition ServerPlayerForceSendChatMessage (L : Z) : PM nat := with_player L (fun player =>
  when_ (on L (lua_isinteger 2)) (
    channel ← on L (luaL_checkinteger 2);
    when_ (on L (lua_isstring 2)) (
      message ← on L (luaL_checkstring 2); _ ← player_call player (SendChatMessage (i32 channel) message player); mret 1%nat))).

Definition ServerPlayerSetInputEnabled (L : Z) : PM nat := with_player L (fun player =>
  actionId ← on L (luaL_checkinteger 2); enabled ← on L (lua_toboolean 3);
  _ ← player_call player (SetInputEnabled player (i32 actionId) enabled); mret 1%nat).

Definition ServerPlayerSendSyncedSettings (L : Z) : PM nat := with_player L (fun player =>
  _ ← need_context; _ ← player_call player (SendSyncedSettings player); mret 0%nat).

Definition ServerPlayerKick (L : Z) : PM nat := with_player L (fun player =>
  when_ (on L (lua_isstring 2)) (
    kickReason ← on L (luaL_checkstring 2); _ ← need_context; _ ← player_call player (KickPlayer player kickReason); mret 1%nat)).

(** *** The fields of a player *)

Definition methods : list (list byte * (list byte * (Z -> PM nat))) := [
  (bstr "GetWeapon", (bstr "ServerPlayerGetWeapon", ServerPlayerGetWeapon));
  (bstr "SetWeapon", (bstr "ServerPlayerSetWeapon", ServerPlayerSetWeapon));
  (bstr "SetTeam", (bstr "ServerPlayerSetTeam", ServerPlayerSetTeam));
  (bstr "SetBattlepoints", (bstr "ServerPlayerSetBattlepoints", ServerPlayerSetBattlepoints));
  (bstr "GiveBattlepoints", (bstr "ServerPlayerGiveBattlepoints", ServerPlayerGiveBattlepoints));
  (bstr "SetScore", (bstr "ServerPlayerSetScore", ServerPlayerSetScore));
  (bstr "SetKills", (bstr "ServerPlayerSetKills", ServerPlayerSetKills));
  (bstr "SetAssists", (bstr "ServerPlayerSetAssists", ServerPlayerSetAssists));
  (bstr "SetDeaths", (bstr "ServerPlayerSetDeaths", ServerPlayerSetDeaths));
  (bstr "SetCustomizationAsset", (bstr "ServerPlayerSetCustomizationAsset", ServerPlayerSetCustomizationAsset));
  (bstr "SetUnlock", (bstr "ServerPlayerSetUnlock", ServerPlayerSetUnlock));
  (bstr "Kick", (bstr "ServerPlayerKick", ServerPlayerKick));
  (bstr "SetInvisible", (bstr "ServerPlayerSetInvisible", ServerPlayerSetInvisible));
  (bstr "SetAmmo", (bstr "ServerPlayerSetAmmo", ServerPlayerSetAmmo));
  (bstr "SetHealth", (bstr "ServerPlayerSetHealth", ServerPlayerSetHealth));
  (bstr "SetMaxHealth", (bstr "ServerPlayerSetMaxHealth", ServerPlayerSetMaxHealth));
  (bstr "SetAbility", (bstr "ServerPlayerSetAbility", ServerPlayerSetAbility));
  (bstr "ForceSendChatMessage", (bstr "ServerPlayerForceSendChatMessage", ServerPlayerForceSendChatMessage));
  (bstr "SetInputEnabled", (bstr "ServerPlayerSetInputEnabled", ServerPlayerSetInputEnabled));
  (bstr "SendSyncedSettings", (bstr "ServerPlayerSendSyncedSettings", ServerPlayerSendSyncedSettings))].

Definition find_key {A} (key : list byte) (l : list (list byte * A)) : option A :=
  snd <$> List.find (fun e => bool_decide (e.1 = key)) l.

Definition ServerPlayerIndex (L : Z) : PM nat :=
  player ← GetServerPlayer L 1; key ← on L (luaL_checkstring 2);
  match find_key key methods with
  | Some (f, _) => _ ← on L (lua_pushcfunction f); mret 1%nat
  | None =>
    let give (push : Player -> PM unit) : PM nat := p ← the_player player; _ ← push p; mret 1%nat in
    if is_key key "name" then give (fun p => on L (lua_pushstring (m_name (base p))))
    else if is_key key "playerId" then give (fun p => on L (lua_pushinteger (m_nativeData (base p))))
    else if is_key key "team" then give (fun p => on L (lua_pushinteger (m_teamId (base p))))
    else if is_key key "battlepoints" then give (fun p => on L (lua_pushinteger (m_battlepoints p)))
    else if is_key key "score" then give (fun p => on L (lua_pushinteger (m_score p)))
    else if is_key key "kills" then give (fun p => on L (lua_pushinteger (m_kills p)))
    else if is_key key "assists" then give (fun p => on L (lua_pushinteger (m_assists p)))
    else if is_key key "deaths" then give (fun p => on L (lua_pushinteger (m_deaths p)))
    else if is_key key "characterEntity" then give (fun p => Push_NativeEntity L (GetCharacterEntity p))
    else if is_key key "vehicleEntity" then give (fun p => Push_NativeEntity L (GetVehicleEntity p))
    else if is_key key "activeKit" then give (fun p => on L (Push_DataContainer (m_activeKit p)))
    else if is_key key "isBot" then give (fun p => on L (lua_pushboolean (IsAIPlayer (base p))))
    else if is_key key "isSpawned" then
      give (fun p => on L (lua_pushboolean (negb (GetCharacterEntity p =? 0) || negb (GetVehicleEntity p =? 0))))
    else mret 0%nat
  end.

(** A script calls a method: it indexes the player, whose metatable has
    [ServerPlayerIndex], and calls what it gets with the player first. *)
Definition call_method (L : Z) (player : TValue) (key : list byte) (args : list TValue) : PM (list TValue) :=
  f ← call_in L (ServerPlayerIndex L) [player; LUA_TSTRING key];
  match f with
  | [LUA_TFUNCTION f None] =>
    match List.find (fun e : list byte * (list byte * (Z -> PM nat)) => bool_decide (e.2.1 = f)) methods with
    | Some e => call_in L (e.2.2 L) (player :: args)
    | None => pcrash Undefined
    end
  | _ => perror
  end.

Definition Register (L : Z) : PM unit :=
  on L (_ ← luaL_newmetatable (bstr "ServerPlayer"); _ ← luaL_setfuncs [(bstr "__index", bstr "ServerPlayerIndex")];
        _ ← lua_newtable;
        _ ← luaL_setfuncs [(bstr "CreatePlayer", bstr "CreatePlayerFunc"); (bstr "GetPlayer", bstr "GetPlayerFunc"); (bstr "GetPlayers", bstr "GetPlayersFunc")];
        lua_setglobal (bstr "PlayerManager")).

(** *** Laws *)

(** The userdata of a player that is alive. *)
Record player_in (L ud player : Z) (x : Player) (l : lua_State) (p : World) : Prop := {
  pi_state : states p !! L = Some l;
  pi_word : exists ws, udata l !! ud = Some (Some player :: ws);
  pi_alive : players (game p) !! player = Some x;
  pi_null : player <> 0;
}.

Lemma GetServerPlayer_ok L ud player x l p s :
  player_in L ud player x l p -> s !! 0%nat = Some (LUA_TUSERDATA ud) ->
  GetServerPlayer L 1 (with_frame L s l p) = Ok (Some player, with_frame L s l p).
Proof.
  intros [Hl (ws & Hw) _ _] Hs. apply (on_look L _ _ (set_frame s l)); [cbn; by rewrite lookup_insert_eq|].
  rewrite (LM_bind_ok _ _ _ _ _ (userdata_arg (mkWorld (memory p) (set_frame s l)) 1 ud ltac:(done) Hs)).
  by apply (word_ok (mkWorld (memory p) (set_frame s l)) ud (Some player :: ws) 0 player).
Qed.

Lemma with_player_ok L ud player x l p s f :
  player_in L ud player x l p -> s !! 0%nat = Some (LUA_TUSERDATA ud) -> with_player L f (with_frame L s l p) = f player (with_frame L s l p).
Proof.
  intros Hp Hs. unfold with_player. rewrite (PM_bind_ok _ _ _ _ _ (GetServerPlayer_ok L ud player x l p s Hp Hs)).
  by rewrite (proj2 (Z.eqb_neq player 0)) by apply Hp.
Qed.

(** The game after a call. *)
Definition called (c : GameCall) (g : Game) : Game := mkGame (game_context g) (players g) (m_players g) (characters g) (calls g ++ [c]).

Lemma player_call_ok L ud player x l p s c :
  player_in L ud player x l p -> player_call player c (with_frame L s l p) = Ok (Some tt, set_game (called c (game p)) (with_frame L s l p)).
Proof.
  intros [_ _ Hx _]. unfold player_call. rewrite (PM_bind_ok _ _ _ x (with_frame L s l p)); [done|].
  unfold the_player. rewrite (PM_bind_ok _ _ _ (players (game p)) (with_frame L s l p)) by done. unfold need, plift. by rewrite Hx.
Qed.

Lemma index_method L ud player x l p key f g :
  player_in L ud player x l p -> c_str key = key -> find_key key methods = Some (f, g) ->
  call_in L (ServerPlayerIndex L) [LUA_TUSERDATA ud; LUA_TSTRING key] p = Ok (Some [LUA_TFUNCTION f None], p).
Proof.
  intros Hp Hk Hf. pose proof (pi_state _ _ _ _ _ _ Hp) as Hl. set (s := [LUA_TUSERDATA ud; LUA_TSTRING key]).
  apply (call_in_same L _ s p l 1 (s ++ [LUA_TFUNCTION f None])); [done| |cbn; lia|done].
  unfold ServerPlayerIndex. rewrite (PM_bind_ok _ _ _ _ _ (GetServerPlayer_ok L ud player x l p s Hp eq_refl)).
  assert (Hstr : on L (luaL_checkstring 2) (with_frame L s l p) = Ok (Some key, with_frame L s l p)).
  { apply on_frame. pose proof (string_arg (mkWorld (memory p) (set_frame s l)) 2 key ltac:(done) eq_refl) as Hs. by rewrite Hk in Hs. }
  rewrite (PM_bind_ok _ _ _ _ _ Hstr), Hf. by rewrite (PM_bind_ok _ _ _ _ _ (on_push L l p s (LUA_TFUNCTION f None))).
Qed.

(** A method whose call leaves its arguments on its frame gives the last of them
    back. *)
Lemma method_call L ud player x l p key f g args c n rs :
  player_in L ud player x l p -> c_str key = key -> find_key key methods = Some (f, g) ->
  List.find (fun e : list byte * (list byte * (Z -> PM nat)) => bool_decide (e.2.1 = f)) methods = Some (key, (f, g)) ->
  let s := LUA_TUSERDATA ud :: args in
  g L (with_frame L s l p) = Ok (Some n, set_game c (with_frame L s l p)) -> (n <= length s)%nat -> drop (length s - n) s = rs ->
  call_method L (LUA_TUSERDATA ud) key args p = Ok (Some rs, set_game c p).
Proof.
  intros Hp Hk Hf Hfind s Hg Hn Hrs. unfold call_method. rewrite (PM_bind_ok _ _ _ _ _ (index_method L ud player x l p key f g Hp Hk Hf)), Hfind.
  by apply (call_in_ok L _ s p l n c s); [apply Hp| | |].
Qed.

(** The methods that set a number, and the call each makes. *)
Definition number_setters : list (list byte * (Z -> Z -> GameCall)) := [
  (bstr "SetTeam", SetTeam); (bstr "SetBattlepoints", fun p n => SetBattlepoints p (u32 n)); (bstr "GiveBattlepoints", AddBattlepoints);
  (bstr "SetScore", fun p n => SetScore p (u32 n)); (bstr "SetKills", fun p n => SetKills p (u32 n));
  (bstr "SetAssists", fun p n => SetAssists p (u32 n)); (bstr "SetDeaths", fun p n => SetDeaths p (u32 n))].

Lemma set_number_ok f L ud player x l p v n :
  player_in L ud player x l p -> tointeger v = Some n ->
  set_number f L (with_frame L [LUA_TUSERDATA ud; v] l p) =
    Ok (Some 1%nat, set_game (called (f player (i32 n)) (game p)) (with_frame L [LUA_TUSERDATA ud; v] l p)).
Proof.
  intros Hp Hn. set (s := [LUA_TUSERDATA ud; v]). unfold set_number. rewrite (with_player_ok L ud player x l p s _ Hp eq_refl).
  assert (Hint : on L (luaL_checkinteger 2) (with_frame L s l p) = Ok (Some n, with_frame L s l p)).
  { apply on_frame. apply (checkinteger_ok 2 _ v n); [by apply index2value_ok|done]. }
  rewrite (PM_bind_ok _ _ _ _ _ Hint). by rewrite (PM_bind_ok _ _ _ _ _ (player_call_ok L ud player x l p s _ Hp)).
Qed.

Lemma number_setter_method key f :
  (key, f) ∈ number_setters -> exists name, c_str key = key /\ find_key key methods = Some (name, set_number f) /\
    List.find (fun e : list byte * (list byte * (Z -> PM nat)) => bool_decide (e.2.1 = name)) methods = Some (key, (name, set_number f)).
Proof.
  intros Hin. repeat (apply elem_of_cons in Hin as [[= -> ->]|Hin]; [by eexists|]). by apply not_elem_of_nil in Hin.
Qed.

(** A script that calls a method setting a number makes one call of the game,
    with that player and the number cut to 32 bits, and is given its own
    argument back; the Lua state is as before. *)
Theorem number_methods L ud player x l p key f v n :
  (key, f) ∈ number_setters -> player_in L ud player x l p -> tointeger v = Some n ->
  call_method L (LUA_TUSERDATA ud) key [v] p = Ok (Some [v], set_game (called (f player (i32 n)) (game p)) p).
Proof.
  intros Hin Hp Hn. destruct (number_setter_method key f Hin) as (name & Hk & Hf & Hfind).
  eapply (method_call L ud player x l p key name (set_number f) [v]); [done|done|done|done|by apply (set_number_ok f L ud player x)|cbn; lia|done].
Qed.

(** A chat message a plugin sends for a player is the number of its channel,
    whatever the message it was given; a channel that is no integer sends
    nothing. *)
Theorem chat_message_ignored L ud player x l p channel message :
  player_in L ud player x l p ->
  call_method L (LUA_TUSERDATA ud) (bstr "ForceSendChatMessage") [LUA_TINTEGER channel; LUA_TSTRING message] p =
    Ok (Some [LUA_TSTRING message],
        set_game (called (SendChatMessage (i32 channel) (c_str (number_tostring (LUA_TINTEGER channel))) player) (game p)) p) /\
  forall name, call_method L (LUA_TUSERDATA ud) (bstr "ForceSendChatMessage") [LUA_TSTRING name; LUA_TSTRING message] p = Ok (Some [], p).
Proof.
  intros Hp. split.
  - eapply (method_call L ud player x l p _ _ _ _ _ 1); [done|done|reflexivity|reflexivity| |cbn; lia|reflexivity]. cbn [fst snd].
    set (s := [LUA_TUSERDATA ud; LUA_TINTEGER channel; LUA_TSTRING message]). unfold ServerPlayerForceSendChatMessage.
    rewrite (with_player_ok L ud player x l p s _ Hp eq_refl). unfold when_.
    rewrite (PM_bind_ok _ _ _ true _ (on_frame L _ l p s true eq_refl)), (PM_bind_ok _ _ _ channel _ (on_frame L _ l p s channel eq_refl)).
    rewrite (PM_bind_ok _ _ _ true _ (on_frame L _ l p s true eq_refl)), (PM_bind_ok _ _ _ _ _ (on_frame L _ l p s _ eq_refl)).
    by rewrite (PM_bind_ok _ _ _ _ _ (player_call_ok L ud player x l p s _ Hp)).
  - intros name. pose proof (method_call L ud player x l p (bstr "ForceSendChatMessage") (bstr "ServerPlayerForceSendChatMessage")
      ServerPlayerForceSendChatMessage [LUA_TSTRING name; LUA_TSTRING message] (game p) 0 [] Hp eq_refl eq_refl eq_refl) as Hcall.
    replace (set_game (game p) p) with p in Hcall by by destruct p. apply Hcall; [|cbn; lia|done]. clear Hcall.
    replace (set_game (game p) _) with (with_frame L [LUA_TUSERDATA ud; LUA_TSTRING name; LUA_TSTRING message] l p) by by destruct p.
    set (s := [LUA_TUSERDATA ud; LUA_TSTRING name; LUA_TSTRING message]). unfold ServerPlayerForceSendChatMessage.
    rewrite (with_player_ok L ud player x l p s _ Hp eq_refl). unfold when_.
    by rewrite (PM_bind_ok _ _ _ false _ (on_frame L _ l p s false eq_refl)).
Qed.

(** *** The list of players *)

Lemma push_player L l p s x mt :
  registry l !! bstr "ServerPlayer" = Some (LUA_TTABLE mt) ->
  Push_ServerPlayer L x (with_frame L s l p) =
    Ok (Some tt, with_frame L (s ++ [element_value x l]) (element_state mt x l) p).
Proof.
  intros Hr. unfold Push_ServerPlayer, element_value, element_state. destruct (x =? 0); [apply on_push|]. unfold WrapServerPlayer. rewrite on_seq.
  unfold with_frame. rewrite (on_ok L _ _ (set_frame s l) tt (mkWorld (memory p) (with_object [Some x] mt (set_frame s l)))).
  - unfold set_state. cbn. by rewrite insert_insert_eq.
  - cbn. by rewrite lookup_insert_eq.
  - exact (push_container (mkWorld (memory p) (set_frame s l)) (bstr "ServerPlayer") x mt Hr).
  - done.
Qed.

(** [PlayerManager.GetPlayers()] gives a new table whose elements are the
    players of the game, in order: at the place of a player a userdata of that
    very player with the metatable of players, nothing at the place of a null
    one, and nothing else; the game is as before. *)
Theorem players_listed L l p mt :
  game_context (game p) = true -> states p !! L = Some l -> registry l !! bstr "ServerPlayer" = Some (LUA_TTABLE mt) ->
  arrays p !! (L, next_object l) = None ->
  exists p' l', call_in L (GetPlayersFunc L) [] p = Ok (Some [LUA_TTABLE (next_object l)], p') /\
    states p' !! L = Some l' /\ frame l' = frame l /\ game p' = game p /\
    lists mt (m_players (game p)) l' (default ∅ (arrays p' !! (L, next_object l))).
Proof.
  intros Hc Hl Hr Ha. set (id := next_object l). set (xs := m_players (game p)).
  destruct (fill_new_table (Push_ServerPlayer L) L (bstr "ServerPlayer") mt [] xs l p) as (p2 & l2 & E & Hg & Hlists); [intros; by apply push_player|done|done|].
  exists (with_frame L (frame l) l2 p2), (set_frame (frame l) l2). split.
  - apply (call_in_gen L _ [] p l 1 [LUA_TTABLE id]); [done| |cbn; lia|done]. unfold GetPlayersFunc.
    rewrite (PM_bind_ok _ _ _ (game_context (game p)) (with_frame L [] l p)), Hc by done. cbn [negb].
    rewrite (PM_bind_ok _ _ _ xs (with_frame L [] l p)) by done.
    rewrite (PM_bind_ok _ _ _ _ _ (createtable_ok L l p [])). by rewrite (PM_bind_ok _ _ _ _ _ E).
  - cbn. rewrite lookup_insert_eq. split; [done|]. split; [done|]. split; [done|]. destruct Hlists as [H1 H2]. by split.
Qed.
End players.
End Players.

(** ** Entities *)

Module Entities.
Import Process Players Owners.

Section entities.
Context `{LuaNumbers}.
(** The game: the kind of an entity and the name of its type, its types and the
    type of an object, the worlds by realm (null or with the root level and its
    bus), the transform of the active camera when there is a player with one,
    the making of an entity, and the property of an entity's bus and data. *)
Context (IsSpatial : Z -> bool) (TypeName : Z -> list byte) (T : Types) (getType : Mem -> Z -> result Z) (GetNativeType : list byte -> Z)
  (isKindOf : Z -> Z -> bool) (typeInfo_QueryEntityResult : Z) (gameWorld : gmap Z (option (Z * Z))) (camera : option Z) (create : Z -> Z -> Z -> Z -> Z)
  (property : Z -> Z -> Z -> option Z).
(** The realm of the plugin of a state. *)
Context (realm_of : Z -> Z).

Definition GetEntity (L index : Z) : PM Z := on_static L (p ← GetUserdata index; word p 0).
Definition GetEntityBus_arg : Z -> Z -> PM Z := GetEntity.

(** *** The table [EntityManager] *)

Definition PluginRealm_Client : Z := 0.

(** Without a world, a player or a camera it returns its argument. *)
Definition CreateEntityFunc (L : Z) : PM nat :=
  container ← on L (GetDataContainer 1); _ ← read_memory (fun m => getType m container);
  let realm := realm_of L in
  world ← need (gameWorld !! realm);
  match world with
  | None => mret 1%nat
  | Some (_, bus) =>
    match (if realm =? PluginRealm_Client then camera else Some 0) with
    | None => mret 1%nat
    | Some transform =>
      let entity := create bus container transform realm in
      _ ← game_call (CreateEntity bus container transform realm entity);
      _ ← (if entity =? 0 then mret tt else game_call (Init entity));
      _ ← Push_NativeEntity L entity; mret 1%nat
    end
  end.

(** [fuel] is for the walk over the owners, as in [Owners]. *)
Definition GetListFunc (fuel : nat) (L : Z) : PM nat :=
  s ← on L (lua_isstring 1);
  if negb s then mret 0%nat else
  entityName ← on L (luaL_checkstring 1);
  i ← on L (lua_isinteger 2);
  if negb i then perror else
  realm ← on L (luaL_checkinteger 2);
  world ← need (gameWorld !! i32 realm);
  match world with
  | None => mret 1%nat
  | Some (subLevel, _) =>
    entityList ← read_memory (fun m => GetOwnedEntitiesRecursively IsSpatial m fuel subLevel);
    _ ← lua_createtable L;
    _ ← push_all (Push_NativeEntity L) L 1 (base.filter (fun e => c_str (TypeName e) = entityName) entityList); mret 1%nat
  end.

(** *** Events *)

(** The number of words of the two kinds of event. *)
Definition new_event (L : Z) (words : nat) (e : Event) : PM unit :=
  id ← on L (lua_newuserdata words); change (fun p => set_events (<[(L, id) := e]> (events p)) p).

Definition ServerPlayerEventFunc (L : Z) : PM nat :=
  s ← on L (lua_isstring 1);
  if negb s then mret 0%nat else
  eventName ← on L (luaL_checkstring 1);
  player ← GetServerPlayer L 2;
  if player =? 0 then mret 0%nat else
  h ← plift (HashHexCheck eventName); x ← the_player player;
  _ ← new_event L 30 (mkEvent h (Some player) true (u32 (Teams.m_teamId (base x)))); mret 1%nat.

Definition EntityEventFunc (L : Z) : PM nat :=
  s ← on L (lua_isstring 1);
  if negb s then mret 0%nat else
  eventName ← on L (luaL_checkstring 1); h ← plift (HashHexCheck eventName);
  _ ← new_event L 2 (mkEvent h None false 0); mret 1%nat.

(** The event in a userdata; another userdata is taken for one. *)
Definition with_event (L : Z) (f : Z -> Z -> GameCall) : PM nat :=
  entity ← GetEntity L 1;
  if entity =? 0 then mret 0%nat else
  u ← on L (lua_isuserdata 2);
  if negb u then mret 0%nat else
  p ← on L (lua_touserdata 2);
  if is_null p then mret 0%nat else
  match p with
  | Full id => es ← asks events; e ← need (es !! (L, id)); _ ← game_call (f entity (eventId e)); mret 1%nat
  | Light _ => pcrash Undefined
  end.
Definition EntityFireEvent (L : Z) : PM nat := with_event L FireEvent.
Definition EntityEvent (L : Z) : PM nat := with_event L SendEvent.

(** *** Properties *)

Definition write_property (entity fieldHash type value : Z) : PM unit :=
  bus ← read_memory (fun m => GetEntityBus IsSpatial m entity); data ← read_memory (fun m => GetData IsSpatial m entity);
  game_call (WriteProperty bus data fieldHash type value).

Definition EntityWrite (L : Z) : PM nat :=
  entity ← GetEntity L 1;
  if entity =? 0 then mret 0%nat else
  key ← on L (luaL_checkstring 2); typeName ← on L (luaL_checkstring 3);
  fieldHash ← plift (HashHexCheck key);
  let type := GetNativeType typeName in
  code ← on L (getBasicType T type);
  match code with
  | kTypeCode_Void | kTypeCode_DbObject => mret 1%nat
  | kTypeCode_ValueType =>
    val ← on L (GetValueType 4); t ← on L (word val 0);
    if negb (t =? type) then mret 0%nat else
    value ← on L (word val 1); _ ← write_property entity (i32 fieldHash) type value; mret 1%nat
  | kTypeCode_Class =>
    val ← on L (GetDataContainer 4); t ← read_memory (fun m => getType m val);
    if negb (t =? type) then mret 0%nat else
    _ ← write_property entity (i32 fieldHash) type val; mret 1%nat
  | _ => mret 0%nat
  end.

Definition EntityRead (L : Z) : PM nat :=
  entity ← GetEntity L 1;
  if entity =? 0 then mret 0%nat else
  key ← on L (luaL_checkstring 2); typeName ← on L (luaL_checkstring 3);
  fieldHash ← plift (HashHexCheck key);
  bus ← read_memory (fun m => GetEntityBus IsSpatial m entity); data ← read_memory (fun m => GetData IsSpatial m entity);
  match property bus data (i32 fieldHash) with
  | None => mret 0%nat
  | Some value =>
    if value =? 0 then mret 0%nat else
    let type := GetNativeType typeName in
    code ← on L (getBasicType T type);
    match code with
    | kTypeCode_Void | kTypeCode_DbObject => mret 1%nat
    | kTypeCode_ValueType => _ ← on L (_ ← WrapValueType type value; with_metatable (bstr "ValueType")); mret 1%nat
    | kTypeCode_Class => _ ← on L (_ ← WrapDataContainer value; with_metatable (bstr "DataContainer")); mret 1%nat
    | _ => mret 0%nat
    end
  end.

(** *** The fields of an entity and of a bus *)

Definition EntityIndex (L : Z) : PM nat :=
  entity ← GetEntity L 1; key ← on L (luaL_checkstring 2);
  if is_key key "data" then data ← read_memory (fun m => GetData IsSpatial m entity); _ ← on L (Push_DataContainer data); mret 1%nat
  else if is_key key "bus" then bus ← read_memory (fun m => GetEntityBus IsSpatial m entity); _ ← Push_EntityBus L bus; mret 1%nat
  else if is_key key "FireEvent" then _ ← on L (lua_pushcfunction (bstr "EntityFireEvent")); mret 1%nat
  else if is_key key "Event" then _ ← on L (lua_pushcfunction (bstr "EntityEvent")); mret 1%nat
  else if is_key key "Write" then _ ← on L (lua_pushcfunction (bstr "EntityWrite")); mret 1%nat
  else if is_key key "Read" then _ ← on L (lua_pushcfunction (bstr "EntityRead")); mret 1%nat
  else mret 0%nat.

Definition EntityBusIndex (L : Z) : PM nat :=
  bus ← GetEntityBus_arg L 1; key ← on L (luaL_checkstring 2);
  if is_key key "data" then o ← read_memory (fun m => Buses.GetExposedObject m bus); _ ← on L (Push_DataContainer o); mret 1%nat
  else mret 0%nat.

(** The macro [CRASH] reads a null pointer. *)
Definition QueryEntityResultGetPlayer (L : Z) : PM nat :=
  val ← on L (GetValueType 2); t ← on L (word val 0);
  if negb (isKindOf t typeInfo_QueryEntityResult) then mret 0%nat else pcrash Undefined.

Definition Register (L : Z) : PM unit :=
  _ ← change (set_s_lua L);
  on L (
    _ ← lua_newtable; _ ← luaL_setfuncs [(bstr "Create", bstr "CreateEntityFunc"); (bstr "GetList", bstr "GetListFunc")]; _ ← lua_setglobal (bstr "EntityManager");
    _ ← lua_newtable; _ ← luaL_setfuncs [(bstr "GetPlayer", bstr "QueryEntityResultGetPlayer")]; _ ← lua_setglobal (bstr "QueryResultUtils");
    _ ← lua_pushcfunction (bstr "ServerPlayerEventFunc"); _ ← lua_setglobal (bstr "ServerPlayerEvent");
    _ ← lua_pushcfunction (bstr "EntityEventFunc"); _ ← lua_setglobal (bstr "EntityEvent");
    _ ← luaL_newmetatable (bstr "Entity"); _ ← luaL_setfuncs [(bstr "__index", bstr "EntityIndex")];
    _ ← luaL_newmetatable (bstr "EntityBus"); luaL_setfuncs [(bstr "__index", bstr "EntityBusIndex")]).

(** *** The list of entities *)

Lemma push_entity L l p s x mt :
  s_lua p = L -> x <> 0 -> registry l !! bstr "Entity" = Some (LUA_TTABLE mt) ->
  Push_NativeEntity L x (with_frame L s l p) = Ok (Some tt, with_frame L (s ++ [element_value x l]) (element_state mt x l) p).
Proof.
  intros Hs Hx Hr. unfold Push_NativeEntity, Push_static, element_value, element_state. rewrite (proj2 (Z.eqb_neq x 0)) by done.
  rewrite (PM_bind_eq _ (on L (WrapEntity x))) by (unfold on_static; cbn; by rewrite Hs, Z.eqb_refl). rewrite on_seq.
  unfold with_frame. rewrite (on_ok L _ _ (set_frame s l) tt (mkWorld (memory p) (with_object [Some x] mt (set_frame s l)))).
  - unfold set_state. cbn. by rewrite insert_insert_eq.
  - cbn. by rewrite lookup_insert_eq.
  - exact (push_container (mkWorld (memory p) (set_frame s l)) (bstr "Entity") x mt Hr).
  - done.
Qed.

(** A metatable for the table on top. *)
Lemma with_metatable_table w tname s id mt :
  frame (lua w) = s ++ [LUA_TTABLE id] -> registry (lua w) !! c_str tname = Some (LUA_TTABLE mt) ->
  with_metatable tname w = Ok (Some tt, mkWorld (mem w) (set_metatables (<[id := mt]> (metatables (lua w))) (lua w))).
Proof.
  destruct w as [m [f u t mts g r gl n]]. cbn. intros -> Hr. unfold with_metatable.
  rewrite (LM_bind_ok _ _ _ tt (mkWorld m (mkLua (s ++ [LUA_TTABLE id; LUA_TTABLE mt]) u t mts g r gl n))).
  2: { unfold luaL_getmetatable, push, modify, gets, mbind, LM_bind. cbn. rewrite Hr. cbn. by rewrite <- app_assoc. }
  destruct (index2value_top (mkWorld m (mkLua (s ++ [LUA_TTABLE id; LUA_TTABLE mt]) u t mts g r gl n)) s (LUA_TTABLE id) (LUA_TTABLE mt) eq_refl) as [H1 H2].
  unfold lua_setmetatable. rewrite (LM_bind_ok _ _ _ _ _ H2), (LM_bind_ok _ _ _ _ _ H1).
  erewrite LM_bind_ok by done. erewrite (lua_pop_ok _ (s ++ [LUA_TTABLE id])); [done|]. cbn. by rewrite <- app_assoc.
Qed.

(** In a plugin that was not registered last the userdata goes to the other's
    stack and the metatable to the table of the list; the element is then set in
    what lies below the table. *)
Lemma push_entity_elsewhere L l l2 p s id x mt i rest v :
  s_lua p <> L -> states p !! s_lua p = Some l2 -> registry l !! bstr "Entity" = Some (LUA_TTABLE mt) ->
  (forall t, v <> LUA_TTABLE t) ->
  push_all (Push_NativeEntity L) L i (x :: rest) (with_frame L (s ++ [v; LUA_TTABLE id]) l p) = Fault Undefined.
Proof.
  intros Hs Hl2 Hr Hv. set (s1 := s ++ [v; LUA_TTABLE id]).
  set (l2' := set_frame (frame l2 ++ [LUA_TUSERDATA (next_object l2)])
                (set_udata (<[next_object l2 := [Some x]]> (udata l2)) (set_next (next_object l2 + 1) l2))).
  set (p2 := set_state (s_lua p) l2' p). set (l' := set_metatables (<[id := mt]> (metatables l)) l).
  assert (E1 : on_static L (WrapEntity x) (with_frame L s1 l p) = Ok (Some (next_object l2), with_frame L s1 l p2)).
  { unfold on_static. cbn [s_lua with_frame set_state]. rewrite (proj2 (Z.eqb_neq _ _)) by done.
    unfold on. cbn [states with_frame set_state]. rewrite lookup_insert_ne, Hl2 by done. unfold WrapEntity, lua_newuserdata, ud_set, push, modify, gets, mbind, LM_bind, mret, LM_ret. cbn.
    rewrite alter_insert_eq. cbn. unfold with_frame, set_state, p2. cbn. by rewrite insert_insert_ne by done. }
  assert (E2 : on L (with_metatable (bstr "Entity")) (with_frame L s1 l p2) = Ok (Some tt, with_frame L s1 l' p2)).
  { unfold with_frame. rewrite (on_ok L _ _ (set_frame s1 l) tt (mkWorld (memory p) (set_frame s1 l'))).
    - unfold set_state. cbn. by rewrite insert_insert_eq.
    - cbn. by rewrite lookup_insert_eq.
    - rewrite (with_metatable_table _ (bstr "Entity") (s ++ [v]) id mt); [done|cbn; unfold s1; by rewrite <- app_assoc|done].
    - done. }
  assert (E3 : lua_rawseti L (-2) i (with_frame L s1 l' p2) = Fault Undefined).
  { destruct (index2value_top (mkWorld (memory p2) (set_frame s1 l')) s v (LUA_TTABLE id) eq_refl) as [H1 H2].
    unfold lua_rawseti. rewrite (PM_bind_ok _ _ _ _ _ (on_frame L _ l' p2 s1 _ H2)), (PM_bind_ok _ _ _ _ _ (on_frame L _ l' p2 s1 _ H1)).
    destruct v; try done. by destruct (Hv id0). }
  cbn [push_all]. assert (E : Push_NativeEntity L x (with_frame L s1 l p) = Ok (Some tt, with_frame L s1 l' p2)).
  { unfold Push_NativeEntity, Push_static. by rewrite (PM_bind_ok _ _ _ _ _ E1). }
  rewrite (PM_bind_ok _ _ _ _ _ E). by apply PM_bind_fault.
Qed.

(** [GetListFunc] up to the table. *)
Lemma list_start fuel L l p name realm subLevel bus ts :
  gameWorld !! i32 realm = Some (Some (subLevel, bus)) -> forest (memory p) subLevel ts -> subLevel <> 0 -> (forest_fuel ts <= fuel)%nat ->
  let args := [LUA_TSTRING name; LUA_TINTEGER realm] in
  GetListFunc fuel L (with_frame L args l p) =
    (_ ← push_all (Push_NativeEntity L) L 1 (base.filter (fun e => c_str (TypeName e) = c_str name) (all_owned ts)); mret 1%nat)
      (with_frame L (args ++ [LUA_TTABLE (next_object l)]) (with_table l) p).
Proof.
  intros Hw Hts Hsub Hf args. unfold GetListFunc. rewrite (PM_bind_ok _ _ _ _ _ (on_frame L _ l p args true eq_refl)). cbn [negb].
  rewrite (PM_bind_ok _ _ _ _ _ (on_frame L _ l p args (c_str name) eq_refl)), (PM_bind_ok _ _ _ _ _ (on_frame L _ l p args true eq_refl)). cbn [negb].
  rewrite (PM_bind_ok _ _ _ _ _ (on_frame L _ l p args realm eq_refl)).
  rewrite (PM_bind_ok _ _ _ (Some (subLevel, bus)) (with_frame L args l p)) by by (unfold need, plift; rewrite Hw).
  rewrite (PM_bind_ok _ _ _ (all_owned ts) (with_frame L args l p)).
  - by rewrite (PM_bind_ok _ _ _ _ _ (createtable_ok L l p args)).
  - unfold read_memory, plift. cbn [memory with_frame set_state]. unfold GetOwnedEntitiesRecursively.
    destruct (forest_pointer _ _ _ Hts) as [[]|[_ Hne]]; [done|].
    rewrite (recursively_forest IsSpatial (memory p) fuel fuel subLevel ts); [done..|eapply short_mono; [by eapply short_owned|done]|unfold forest_fuel in Hf; lia].
Qed.

(** [EntityManager.GetList(name, realm)] gives a table of the entities of the
    level whose type has that name, in the order of the owners, each a userdata
    of that very entity; that is so in the plugin that was loaded last. In any
    other the first entity found is undefined behaviour: its userdata goes to
    the other plugin's stack, and the element is set in the number of the
    realm. *)
Theorem entities_listed fuel L l p name realm subLevel bus ts mt :
  states p !! L = Some l -> registry l !! bstr "Entity" = Some (LUA_TTABLE mt) -> arrays p !! (L, next_object l) = None ->
  gameWorld !! i32 realm = Some (Some (subLevel, bus)) -> forest (memory p) subLevel ts -> subLevel <> 0 -> (forest_fuel ts <= fuel)%nat ->
  Forall (fun e => e <> 0) (all_owned ts) ->
  let found := base.filter (fun e => c_str (TypeName e) = c_str name) (all_owned ts) in
  let answer := call_in L (GetListFunc fuel L) [LUA_TSTRING name; LUA_TINTEGER realm] p in
  (s_lua p = L -> exists p' l', answer = Ok (Some [LUA_TTABLE (next_object l)], p') /\
    states p' !! L = Some l' /\ frame l' = frame l /\ game p' = game p /\ lists mt found l' (default ∅ (arrays p' !! (L, next_object l)))) /\
  (s_lua p <> L -> is_Some (states p !! s_lua p) -> found <> [] -> answer = Fault Undefined).
Proof.
  intros Hl Hr Ha Hw Hts Hsub Hf Hnz found answer. pose proof (list_start fuel L l p name realm subLevel bus ts Hw Hts Hsub Hf) as Hstart.
  cbn zeta in Hstart. set (args := [LUA_TSTRING name; LUA_TINTEGER realm]) in *. fold found in Hstart. split.
  - intros Hs. destruct (fill_new_table (Push_NativeEntity L) L (bstr "Entity") mt args found l p) as (p2 & l2 & E & Hg & Hlists); [|done|done|].
    { intros x l0 q s0 Hr0 Hq Hx. apply push_entity; [congruence| |done]. apply list_elem_of_filter in Hx as [_ Hx]. by apply (proj1 (list.Forall_forall _ _) Hnz). }
    exists (with_frame L (frame l) l2 p2), (set_frame (frame l) l2). split.
    + apply (call_in_gen L _ args p l 1 (args ++ [LUA_TTABLE (next_object l)])); [done| |cbn; lia|done]. rewrite Hstart. by rewrite (PM_bind_ok _ _ _ _ _ E).
    + cbn. rewrite lookup_insert_eq. split; [done|]. split; [done|]. split; [done|]. destruct Hlists as [H1 H2]. by split.
  - intros Hs [l2 Hl2] Hne. destruct found as [|x rest]; [done|]. subst answer. unfold call_in.
    rewrite (PM_bind_ok _ _ _ _ _ (on_look L (gets frame) p l _ Hl eq_refl)).
    rewrite (PM_bind_ok _ _ _ tt (with_frame L args l p)) by by apply (on_ok L _ p l tt (mkWorld (memory p) (set_frame args l)) Hl).
    apply PM_bind_fault. rewrite Hstart. apply PM_bind_fault.
    by apply (push_entity_elsewhere L (with_table l) l2 p [LUA_TSTRING name] (next_object l) x mt 1 rest (LUA_TINTEGER realm)).
Qed.
End entities.
End Entities.

(** ** Samples *)

Module Sample.
Import Teams Process Players.

(** Two plugins; the second was loaded last. Each has the metatables of players
    and entities. *)
Definition ann : Player := mkPlayerObject (mkPlayer (bstr "Ann") 1 1000 1) 0 0 0 0 0 0 0 0 0.
Definition plugin : lua_State :=
  mkLua [] {[ 1 := [Some 0x100] ]} ∅ {[ 1 := 2 ]} ∅ {[ bstr "ServerPlayer" := LUA_TTABLE 2; bstr "Entity" := LUA_TTABLE 3 ]} ∅ 4.
Definition process (last : Z) : World :=
  mkProcess Owners.Sample.memory {[ 1 := plugin; 2 := plugin ]} last ∅ ∅ (mkGame true {[ 0x100 := ann ]} [0x100; 0] ∅ []).

Lemma ann_in : player_in 1 1 0x100 ann plugin (process 2).
Proof. split; [done|by eexists|done|done]. Qed.

Definition lookup (name : list byte) : Z := 0.
Definition ability (id : Z) : Z := 0.

#[local] Existing Instance LuaData.Sample.numbers.

Lemma number_methods_witness :
  call_method lookup ability 1 (LUA_TUSERDATA 1) (bstr "SetScore") [LUA_TINTEGER (-1)] (process 2) =
    Ok (Some [LUA_TINTEGER (-1)], set_game (called (SetScore 0x100 4294967295) (game (process 2))) (process 2)).
Proof.
  apply (number_methods lookup ability 1 1 0x100 ann plugin (process 2) (bstr "SetScore") (fun p n => SetScore p (u32 n)) (LUA_TINTEGER (-1)) (-1));
    [do 3 (apply elem_of_cons; right); by left|apply ann_in|done].
Defined.

Lemma chat_message_ignored_witness :
  call_method lookup ability 1 (LUA_TUSERDATA 1) (bstr "ForceSendChatMessage") [LUA_TINTEGER 2; LUA_TSTRING (bstr "hi")] (process 2) =
    Ok (Some [LUA_TSTRING (bstr "hi")], set_game (called (SendChatMessage 2 [] 0x100) (game (process 2))) (process 2)).
Proof. exact (proj1 (chat_message_ignored lookup ability 1 1 0x100 ann plugin (process 2) 2 (bstr "hi") ann_in)). Defined.

Lemma players_listed_witness :
  exists p' l', call_in 1 (GetPlayersFunc 1) [] (process 2) = Ok (Some [LUA_TTABLE 4], p') /\
    states p' !! 1 = Some l' /\ frame l' = [] /\ game p' = game (process 2) /\ lists 2 [0x100; 0] l' (default ∅ (arrays p' !! (1, 4))).
Proof. apply (players_listed 1 plugin (process 2) 2); done. Defined.

(** The level of the owners' sample, and types that all have one name. *)
Lemma entities_listed_witness :
  let list L last := call_in L (Entities.GetListFunc (fun _ => false) (fun _ => bstr "Door") {[ 1 := Some (0x1000, 7) ]} 6 L)
    [LUA_TSTRING (bstr "Door"); LUA_TINTEGER 1] (process last) in
  (exists p' l', list 2 2 = Ok (Some [LUA_TTABLE 4], p') /\ states p' !! 2 = Some l' /\ frame l' = [] /\ game p' = game (process 2) /\
    lists 3 [0x5000; 0x5100; 0x5200] l' (default ∅ (arrays p' !! (2, 4)))) /\
  list 1 2 = Fault Undefined.
Proof.
  assert (Hnz : Forall (fun e => e <> 0) (Owners.all_owned Owners.Sample.trees)) by (apply (bool_decide_unpack _); by vm_compute).
  pose proof Owners.Sample.memory_forest as Hforest. split.
  - refine (proj1 (Entities.entities_listed (fun _ => false) (fun _ => bstr "Door") {[ 1 := Some (0x1000, 7) ]} 6 2 plugin (process 2)
      (bstr "Door") 1 0x1000 7 Owners.Sample.trees 3 eq_refl eq_refl eq_refl eq_refl Hforest _ _ Hnz) eq_refl); [done|vm_compute; lia].
  - refine (proj2 (Entities.entities_listed (fun _ => false) (fun _ => bstr "Door") {[ 1 := Some (0x1000, 7) ]} 6 1 plugin (process 2)
      (bstr "Door") 1 0x1000 7 Owners.Sample.trees 3 eq_refl eq_refl eq_refl eq_refl Hforest _ _ Hnz) _ _ _); [done|vm_compute; lia|done|by eexists|done].
Defined.
End Sample.
