(* ===== verification/Rpc.v ===== *)
(** The calls of the services (Public/RPC/AsyncRPCManager.h, Source/RPC/AsyncRPCManager.cpp
    and Source/RPC/API): asynchronous calls with their callbacks, what the callbacks
    of each service make of an answer, and the request that registers a server.

    gRPC itself is a parameter: when a call completes, with which answer, is an
    event of a history. *)

From S2P Require Import Prelude.
From S2P Require Import OrdMap.
From S2P Require Import ByteBuffer.
From S2P Require Import StringUtils.
From S2P Require Import Network.
From S2P Require Import Voip.
From S2P Require Import Server.
From S2P Require Import Client.
From S2P Require Import Console.
From S2P Require Import Management.
From S2P Require Import Hosting.

(** ** Asynchronous calls *)

Module Async.
(** [grpc::Status] *)
Record Status := mkStatus { error_code : Z; error_message : list byte }.
Definition status_ok (s : Status) : bool := error_code s =? 0.
Definition Status_OK : Status := mkStatus 0 [].
Definition UNKNOWN : Z := 2.
Definition call_failed : Status := mkStatus UNKNOWN (bstr "Async call failed").

Section async.
(** Callbacks, responses and the response a message starts as. [reaction] are the
    calls a callback starts, each with its callback, which may be empty. *)
Context {C R : Type} (empty_response : R) (reaction : C -> option R -> Status -> list (option C)).

Record AsyncClientCall := mkCall { m_status : Status; m_response : R; m_callback : option C }.

(** [arena] holds the calls that are allocated, by address; [m_cq] the completion
    queue; [started] and [called] the callbacks of all calls and those that were
    called with their arguments, in order. *)
Record AsyncRPCManager := mkManager {
  arena : gmap Z AsyncClientCall; m_cq : list (Z * bool); started : list (option C); called : list (C * option R * Status) }.

Definition AsyncRPCManager_new : AsyncRPCManager := mkManager ∅ [] [] [].

(** Memory that was freed can be given again. *)
Definition StartCall (callback : option C) (st : AsyncRPCManager) : AsyncRPCManager :=
  mkManager (<[fresh (dom (arena st)) := mkCall Status_OK empty_response callback]> (arena st)) (m_cq st) (started st ++ [callback]) (called st).

(** gRPC completes a call: it writes the status and, when there is one, the
    response, and queues the call. *)
Definition Complete (tag : Z) (ok : bool) (status : Status) (response : option R) (st : AsyncRPCManager) : result AsyncRPCManager :=
  call ← of_option Undefined (arena st !! tag);
  Ok (mkManager (<[tag := mkCall status (default (m_response call) response) (m_callback call)]> (arena st)) (m_cq st ++ [(tag, ok)]) (started st)
        (called st)).

(** What a callback is called with. *)
Definition arguments (ok : bool) (call : AsyncClientCall) : option R * Status :=
  if ok then (Some (m_response call), m_status call) else (None, call_failed).

Definition Process (call : AsyncClientCall) (ok : bool) (st : AsyncRPCManager) : AsyncRPCManager :=
  match m_callback call with
  | None => st
  | Some callback =>
    let '(response, status) := arguments ok call in
    let st := mkManager (arena st) (m_cq st) (started st) (called st ++ [(callback, response, status)]) in
    foldl (fun st c => StartCall c st) st (reaction callback response status)
  end.

(** [FB_GLOBAL_ARENA->free] *)
Definition free (tag : Z) (st : AsyncRPCManager) : AsyncRPCManager := mkManager (delete tag (arena st)) (m_cq st) (started st) (called st).
Definition set_cq (q : list (Z * bool)) (st : AsyncRPCManager) : AsyncRPCManager := mkManager (arena st) q (started st) (called st).

(** The loop of [Update], until the queue is empty. *)
Fixpoint update_loop (q : list (Z * bool)) (st : AsyncRPCManager) : result AsyncRPCManager :=
  match q with
  | [] => Ok (set_cq [] st)
  | (tag, ok) :: q =>
    let st := set_cq q st in
    call ← of_option Undefined (arena st !! tag);
    update_loop q (free tag (Process call ok st))
  end.
Definition Update (st : AsyncRPCManager) : result AsyncRPCManager := update_loop (m_cq st) st.

(** *** Histories

    The module starts calls and updates; gRPC completes each call at most once,
    which is what its completion queue promises. *)

Inductive step : AsyncRPCManager -> AsyncRPCManager -> Prop :=
  | step_start callback st : step st (StartCall callback st)
  | step_complete tag ok status response st st' :
      tag ∈ dom (arena st) -> tag ∉ (m_cq st).*1 -> Complete tag ok status response st = Ok st' -> step st st'
  | step_update st st' : Update st = Ok st' -> step st st'.

(** The callbacks of the calls that are allocated. *)
Definition live (st : AsyncRPCManager) : list (option C) := (map_to_list (m_callback <$> arena st)).*2.

(** What the queue will call. *)
Definition due (st : AsyncRPCManager) (e : Z * bool) : list (C * option R * Status) :=
  match arena st !! e.1 with
  | Some call => match m_callback call with Some c => [(c, (arguments e.2 call).1, (arguments e.2 call).2)] | None => [] end
  | None => []
  end.

Definition callbacks (l : list (option C)) : list C := base.omap id l.

(** Queued calls are allocated, each queued once; every call that was started is
    allocated or was called back. *)
Record calls_ok (st : AsyncRPCManager) : Prop := {
  co_queued tag : tag ∈ (m_cq st).*1 -> is_Some (arena st !! tag);
  co_once : NoDup (m_cq st).*1;
  co_started : callbacks (started st) ≡ₚ (called st).*1.*1 ++ callbacks (live st);
}.

Lemma callbacks_app l k : callbacks (l ++ k) = callbacks l ++ callbacks k.
Proof. apply list.omap_app. Qed.

Lemma callbacks_perm l k : l ≡ₚ k -> callbacks l ≡ₚ callbacks k.
Proof. intros H. unfold callbacks. by rewrite H. Qed.

Lemma live_insert st tag call : arena st !! tag = None ->
  (map_to_list (m_callback <$> <[tag := call]> (arena st))).*2 ≡ₚ m_callback call :: live st.
Proof. intros H. unfold live. by rewrite fmap_insert, map_to_list_insert by by rewrite lookup_fmap, H. Qed.

Lemma live_free st tag call : arena st !! tag = Some call -> live st ≡ₚ m_callback call :: live (free tag st).
Proof.
  intros H. unfold live, free. cbn [arena]. rewrite fmap_delete.
  by rewrite <- (map_to_list_delete (m_callback <$> arena st) tag (m_callback call)) by by rewrite lookup_fmap, H.
Qed.

Lemma fresh_arena st : arena st !! fresh (dom (arena st)) = None.
Proof. apply not_elem_of_dom, is_fresh. Qed.

Lemma StartCall_arena c st tag call : arena st !! tag = Some call -> arena (StartCall c st) !! tag = Some call.
Proof. intros H. cbn. rewrite lookup_insert_ne; [done|]. intros E. pose proof (fresh_arena st) as F. by rewrite E, H in F. Qed.

Lemma live_start c st : callbacks (live (StartCall c st)) ≡ₚ callbacks [c] ++ callbacks (live st).
Proof. rewrite (callbacks_perm _ _ (live_insert st _ (mkCall Status_OK empty_response c) (fresh_arena st))). by destruct c. Qed.

(** [x] are called and still allocated. *)
Definition accounted (x : list C) (st : AsyncRPCManager) : Prop := callbacks (started st) ++ x ≡ₚ (called st).*1.*1 ++ callbacks (live st).

Lemma StartCall_accounted x c st : accounted x st -> accounted x (StartCall c st).
Proof.
  unfold accounted. rewrite live_start. cbn [started called StartCall]. intros H.
  by rewrite callbacks_app, <- app_assoc, (Permutation_app_comm (callbacks [c]) x), app_assoc, H, <- app_assoc, (Permutation_app_comm (callbacks (live st))).
Qed.

Lemma StartCalls_accounted x l st : accounted x st -> accounted x (foldl (fun st c => StartCall c st) st l).
Proof. revert st. induction l as [|c l IH]; intros st H; [done|]. by apply IH, StartCall_accounted. Qed.

Lemma calls_ok_accounted st : calls_ok st -> accounted [] st.
Proof. intros H. unfold accounted. rewrite app_nil_r. exact (co_started st H). Qed.

Lemma StartCall_ok c st : calls_ok st -> calls_ok (StartCall c st).
Proof.
  intros H. pose proof (StartCall_accounted [] c st (calls_ok_accounted st H)) as Hs. unfold accounted in Hs. rewrite app_nil_r in Hs.
  destruct H as [H1 H2 _]. split; [|done|done]. intros tag Ht. destruct (H1 tag Ht) as [call Hc]. exists call. by apply StartCall_arena.
Qed.

Lemma StartCalls_same l st :
  m_cq (foldl (fun st c => StartCall c st) st l) = m_cq st /\ called (foldl (fun st c => StartCall c st) st l) = called st /\
  (forall tag call, arena st !! tag = Some call -> arena (foldl (fun st c => StartCall c st) st l) !! tag = Some call).
Proof.
  revert st. induction l as [|c l IH]; intros st; [done|]. cbn [foldl]. destruct (IH (StartCall c st)) as (-> & -> & H).
  split; [done|]. split; [done|]. intros tag call E. by apply H, StartCall_arena.
Qed.

Lemma Complete_ok tag ok status response st st' :
  calls_ok st -> tag ∈ dom (arena st) -> tag ∉ (m_cq st).*1 -> Complete tag ok status response st = Ok st' -> calls_ok st'.
Proof.
  intros [H1 H2 H3] Hd Hq. unfold Complete. destruct (arena st !! tag) as [call|] eqn:E; [|done]. cbn [of_option mbind result_bind].
  intros [= <-]. split; cbn.
  - intros t. rewrite fmap_app. intros [Ht| ->%list_elem_of_singleton]%elem_of_app; [|by rewrite lookup_insert_eq].
    destruct (decide (t = tag)) as [-> |Hn]; [by rewrite lookup_insert_eq|]. rewrite lookup_insert_ne by done. by apply H1.
  - rewrite fmap_app. apply list.NoDup_app. split; [done|]. split; [|apply NoDup_singleton]. by intros t Ht ->%list_elem_of_singleton.
  - rewrite H3. f_equiv. unfold live. cbn [arena]. rewrite fmap_insert, insert_id; [done|]. cbn [m_callback]. by rewrite lookup_fmap, E.
Qed.

Lemma due_Process call ok tag q st :
  arena st !! tag = Some call ->
  m_cq (Process call ok (set_cq q st)) = q /\ called (Process call ok (set_cq q st)) = called st ++ due st (tag, ok) /\
  (forall t k, arena st !! t = Some k -> arena (Process call ok (set_cq q st)) !! t = Some k).
Proof.
  intros E. unfold Process, due. cbn [fst snd]. rewrite E. destruct (m_callback call) as [c|]; [|by rewrite app_nil_r].
  destruct (arguments ok call) as [response status]. cbn [fst snd].
  match goal with |- context [foldl _ ?s ?l] => destruct (StartCalls_same l s) as (-> & -> & H) end. done.
Qed.

(** The callback that was called is the one more that is counted twice, until the
    call is freed. *)
Lemma Process_accounted call ok tag q st :
  arena st !! tag = Some call -> accounted [] st -> accounted [] (free tag (Process call ok (set_cq q st))).
Proof.
  intros E H. destruct (due_Process call ok tag q st E) as (_ & _ & Ha).
  assert (Hp : accounted (callbacks [m_callback call]) (Process call ok (set_cq q st))).
  { unfold Process. destruct (m_callback call) as [c|]; [|exact H]. destruct (arguments ok call) as [response status].
    apply StartCalls_accounted. unfold accounted in *. cbn [started called set_cq]. rewrite app_nil_r in H. rewrite !fmap_app. cbn.
    change (live _) with (live st). by rewrite H, <- !app_assoc, (Permutation_app_comm (callbacks (live st))). }
  unfold accounted in *. rewrite (callbacks_perm _ _ (live_free _ _ _ (Ha tag call E))) in Hp.
  change (m_callback call :: live ?s) with ([m_callback call] ++ live s) in Hp. rewrite callbacks_app in Hp.
  rewrite (Permutation_app_comm _ (callbacks [m_callback call])), Permutation_app_swap_app in Hp. apply Permutation_app_inv_l in Hp.
  by rewrite app_nil_r.
Qed.

(** An update calls back what is queued, in its order, and empties the queue. *)
Lemma update_loop_calls q st :
  (forall tag, tag ∈ q.*1 -> is_Some (arena st !! tag)) -> NoDup q.*1 -> accounted [] st ->
  exists st', update_loop q st = Ok st' /\ m_cq st' = [] /\ called st' = called st ++ (q ≫= due st) /\ accounted [] st'.
Proof.
  revert st. induction q as [|[tag ok] q IH]; intros st H1 H2 H3; cbn [update_loop].
  { exists (set_cq [] st). cbn. by rewrite app_nil_r. }
  cbn in H1, H2. apply list.NoDup_cons in H2 as [Hn H2]. destruct (H1 tag) as [call E]; [by left|].
  change (arena (set_cq q st)) with (arena st). rewrite E. cbn [of_option mbind result_bind].
  destruct (due_Process call ok tag q st E) as (Hq & Hc & Ha). pose proof (Process_accounted call ok tag q st E H3) as Hp.
  set (st1 := Process call ok (set_cq q st)) in *. clearbody st1.
  assert (Hs : forall t k, t ∈ q.*1 -> arena st !! t = Some k -> arena (free tag st1) !! t = Some k).
  { intros t k Ht Hk. cbn. rewrite lookup_delete_ne by (by intros ->). by apply Ha. }
  destruct (IH (free tag st1)) as (st' & -> & Hq' & Hc' & Hp'); [|done|done|].
  { intros t Ht. destruct (H1 t) as [k Hk]; [by right|]. exists k. by apply Hs. }
  exists st'. split; [done|]. split; [done|]. split; [|done]. rewrite Hc'. cbn [called free]. rewrite Hc, <- app_assoc. do 2 f_equal.
  change ((tag, ok) :: q) with ([(tag, ok)] ++ q). rewrite bind_app. cbn. rewrite app_nil_r. f_equal.
  apply bind_ext_in. intros [t b] Ht. destruct (H1 t) as [k Hk]; [right; by apply (list_elem_of_fmap_2 fst q (t, b))|].
  unfold due. cbn [fst snd]. by rewrite Hk, (Hs t k (list_elem_of_fmap_2 fst q (t, b) Ht) Hk).
Qed.

Lemma Update_ok st : calls_ok st ->
  exists st', Update st = Ok st' /\ calls_ok st' /\ m_cq st' = [] /\ called st' = called st ++ (m_cq st ≫= due st).
Proof.
  intros H. destruct (update_loop_calls (m_cq st) st (co_queued st H) (co_once st H) (calls_ok_accounted st H)) as (st' & E & Hq & Hc & Ha).
  exists st'. split; [exact E|]. split; [|done]. unfold accounted in Ha. rewrite app_nil_r in Ha. split; [|rewrite Hq; constructor|exact Ha].
  intros t Ht. rewrite Hq in Ht. by apply elem_of_nil in Ht.
Qed.

Lemma call_step_ok st st' : calls_ok st -> step st st' -> calls_ok st'.
Proof.
  intros H Hs. revert H. destruct Hs as [c s|tag ok status response s s' Hd Hq E|s s' E]; intros H; [by apply StartCall_ok|by apply (Complete_ok tag ok status response s)|].
  destruct (Update_ok s H) as (s1 & E1 & H1 & _). rewrite E in E1. by injection E1 as ->.
Qed.

Lemma new_ok : calls_ok AsyncRPCManager_new.
Proof. split; [by intros t ?%elem_of_nil|constructor|]. unfold live. cbn. by rewrite fmap_empty, map_to_list_empty. Qed.

(** C24: However calls, their completions and updates interleave, and whatever calls
    callbacks start: an update returns, calls back exactly the calls that completed
    since the last one, in that order and with what gRPC answered; and every call
    that was ever started has been called back once or is still allocated. *)
Theorem calls_answered_once st :
  rtc step AsyncRPCManager_new st ->
  exists st', Update st = Ok st' /\ m_cq st' = [] /\ called st' = called st ++ (m_cq st ≫= due st) /\
    callbacks (started st') ≡ₚ (called st').*1.*1 ++ callbacks (live st').
Proof.
  intros H. assert (Hk : calls_ok st).
  { revert H. generalize new_ok. generalize AsyncRPCManager_new. intros s Hs H. induction H as [s|s s1 s2 E _ IH]; [done|]. by apply IH, (call_step_ok s). }
  destruct (Update_ok st Hk) as (st' & E & H1 & H2 & H3). exists st'. split; [done|]. split; [done|]. split; [done|]. exact (co_started st' H1).
Qed.
End async.
Arguments AsyncRPCManager : clear implicits.
End Async.

(** ** The services *)

Module Services.
Import Async.

(** What the callbacks of the voice service and of the service of join tokens are
    given: nothing when the status is no success. *)
Definition on_response {R} (response : option R) (status : Status) : option R := if status_ok status then response else None.

(** *** Statistics *)

Section statistics.
Context {V : Type}.
(** A map of a message; it is walked in no order that is promised, here that of
    [map_to_list]. *)
Abbreviation ProtoMap := (gmap (list byte) V).

Definition convertProtoToStdMap (protoMap : ProtoMap) : omap (list byte) V :=
  foldl (fun m e => omap_insert e.1 e.2 m) [] (map_to_list protoMap).

(** The answer of [GetStats]: the status is not looked at. *)
Definition on_GetStats (response : option ProtoMap) (status : Status) : option (omap (list byte) V) :=
  convertProtoToStdMap <$> response.

(** The map that [UpdateStats] sends. *)
Definition UpdateStats (stats : omap (list byte) V) : ProtoMap := foldl (fun m e => <[e.1 := e.2]> m) ∅ stats.

Lemma insert_all_wf (l : list (list byte * V)) m : omap_wf m -> omap_wf (foldl (fun m e => omap_insert e.1 e.2 m) m l).
Proof. revert m. induction l as [|e l IH]; intros m H; [done|]. by apply IH, omap_insert_wf. Qed.

Lemma insert_all_find (l : list (list byte * V)) m k : NoDup l.*1 ->
  omap_find k (foldl (fun m e => omap_insert e.1 e.2 m) m l) =
    match (list_to_map l : ProtoMap) !! k with Some v => Some v | None => omap_find k m end.
Proof.
  revert m. induction l as [|[k' v] l IH]; intros m; [by rewrite list_to_map_nil, lookup_empty|]. intros [Hn Hd]%list.NoDup_cons. rewrite list_to_map_cons.
  cbn [foldl fst snd]. rewrite IH by done. destruct (decide (k = k')) as [-> |Hk].
  - rewrite lookup_insert_eq, not_elem_of_list_to_map_1 by done. by rewrite omap_find_insert_eq.
  - by rewrite lookup_insert_ne, omap_find_insert_ne by done.
Qed.

Lemma UpdateStats_lookup (stats : omap (list byte) V) (m : ProtoMap) k : omap_wf stats ->
  foldl (fun m e => <[e.1 := e.2]> m) m stats !! k = match omap_find k stats with Some v => Some v | None => m !! k end.
Proof.
  intros Hw%omap_wf_NoDup_keys. revert m Hw. unfold omap_keys. induction stats as [|[k' v] l IH]; intros m; [done|].
  intros [Hn Hd]%list.NoDup_cons. cbn [foldl fst snd omap_find]. rewrite IH by done.
  destruct (key_compare k k') eqn:E.
  - apply key_compare_eq in E as <-. assert (Hf : omap_find k l = None).
    { destruct (omap_find k l) as [w|] eqn:Hf; [|done]. apply omap_find_elem in Hf. exfalso. apply Hn. by apply (list_elem_of_fmap_2 fst l (k, w)). }
    by rewrite Hf, lookup_insert_eq.
  - rewrite lookup_insert_ne; [done|]. intros <-. by rewrite key_compare_refl in E.
  - rewrite lookup_insert_ne; [done|]. intros <-. by rewrite key_compare_refl in E.
Qed.

(** What is sent as the statistics of a player is what a request for them
    gives back, in the order of a map. *)
Theorem statistics_sent_back (stats : omap (list byte) V) :
  omap_wf stats -> on_GetStats (Some (UpdateStats stats)) Status_OK = Some stats.
Proof.
  intros Hw. unfold on_GetStats. cbn. f_equal. apply omap_ext; [by apply insert_all_wf, omap_wf_nil|done|]. intros k.
  unfold convertProtoToStdMap. rewrite insert_all_find by apply NoDup_fst_map_to_list. rewrite list_to_map_to_list.
  unfold UpdateStats. rewrite UpdateStats_lookup by done. rewrite lookup_empty. cbn. by destruct (omap_find k stats).
Qed.
End statistics.

Lemma failed_arguments (C R : Type) (c : option C) (status : Status) (empty_response : R) :
  arguments true (mkCall status empty_response c) = (Some empty_response, status).
Proof. done. Qed.

(** A request for statistics that the service refuses completes with a status
    that is no success and the response it started with: the callback takes it
    for a player without statistics, and the game is told to replicate the values
    the player has, as if they had been loaded. *)
Theorem failed_statistics_taken_for_none {C} GetOffset (c : option C) status inst player user p vs n (st : Management.Sessions.PersistenceManager) :
  status_ok status = false -> Management.Sessions.pending st !! n = Some (inst, player, user) ->
  Management.Sessions.players st !! player = Some p -> Management.Stats.m_persistentStorage p = Some vs ->
  exists st', let '(response, s) := arguments true (mkCall status (∅ : gmap (list byte) Z) c) in
    Management.Sessions.OnStats GetOffset n (on_GetStats response s) st = Ok st' /\
    Management.Sessions.players st' = Management.Sessions.players st /\
    Management.Sessions.replicated st' = Management.Sessions.replicated st ++ [(inst, player)].
Proof.
  intros _ Hn Hp Hv. rewrite failed_arguments. unfold Management.Sessions.OnStats, on_GetStats. cbn [fmap option_fmap option_map].
  rewrite Hn. unfold Management.Sessions.the_player. rewrite Hp. cbn [of_option mbind result_bind].
  unfold convertProtoToStdMap. rewrite map_to_list_empty. unfold Management.Stats.ApplyPlayerStats. rewrite Hv. cbn.
  eexists. split; [done|]. cbn. split; [|done]. apply insert_id. rewrite Hp. destruct p. cbn in *. by rewrite Hv.
Qed.

(** *** Level names, join tokens, proxies *)

(** [GetCustomLevelData]: the names of a level and a mode, when the launcher
    answers and knows the first. *)
Definition GetCustomLevelData (response : option (option (list byte) * list byte)) : option (list byte * list byte) :=
  match response with Some (Some mapName, modeName) => Some (mapName, modeName) | _ => None end.

(** [GetBlacklist] and [GetList] copy the answer, the second has an empty list for
    none. *)
Definition GetBlacklist (response : option (list (list byte))) : option (list (list byte)) := response.
Definition GetList {P} (response : option (list P)) : list P := default [] response.

(** *** The registration of a server *)

Definition GetEnv (value : option (list byte)) (def : list byte) : list byte := default def value.

Definition add_meta (metaMap : gmap (list byte) (list byte)) (pair : list byte) : result (gmap (list byte) (list byte)) :=
  keyValue ← Split pair (bstr "=");
  Ok (match keyValue with [key; value] => <[key := value]> metaMap | _ => metaMap end).

(** [KYBER_SERVER_META] is the variable. *)
Definition ParseMeta (KYBER_SERVER_META : option (list byte)) : result (gmap (list byte) (list byte)) :=
  pairs ← Split (GetEnv KYBER_SERVER_META []) (bstr ","); foldM add_meta ∅ pairs.

Record ModData (M : Type) := mkModData { basePath : list byte; modPaths : list (list byte); serverMods : list M; explodedMods : list M }.
Arguments mkModData {M}.
Arguments serverMods {M}.
Arguments explodedMods {M}.

Definition StatsSource_KYBER : Z := 3.

Record RegisterServerRequest (M : Type) := mkRegister {
  rs_name : list byte; rs_description : list byte; rs_dedicated : bool; rs_password : option (list byte); rs_map : list byte; rs_mode : list byte;
  rs_mapname : option (list byte); rs_modename : option (list byte); rs_maxplayercount : Z; rs_statssource : Z; rs_mods : list M; rs_explodedmods : list M;
  rs_meta : gmap (list byte) (list byte) }.
Arguments mkRegister {M}.

Definition register_request {M} (dedicated : bool) (names : option (list byte * list byte)) (modData : ModData M) (meta : gmap (list byte) (list byte))
    (serverInfo : Hosting.ServerCreationInfo) : RegisterServerRequest M :=
  mkRegister (Hosting.name serverInfo) (Hosting.description serverInfo) dedicated
    (if bool_decide (Hosting.password serverInfo = []) then None else Some (Hosting.password serverInfo))
    (Client.ci_level (Hosting.base serverInfo)) (Client.ci_mode (Hosting.base serverInfo)) (fst <$> names) (snd <$> names)
    (Client.maxPlayers (Hosting.base serverInfo)) StatsSource_KYBER (serverMods modData) (explodedMods modData) meta.

(** [RegisterServer]: the request, the identifier and the client's join token
    after it. [answer] is the service's, an identifier and a token for the
    proxies. *)
Definition RegisterServer {M} (dedicated : bool) (names : option (option (list byte) * list byte)) (modData : ModData M) (KYBER_SERVER_META : option (list byte))
    (answer : RegisterServerRequest M -> option (list byte * list byte)) (serverInfo : Hosting.ServerCreationInfo) (m_joinToken : list byte)
    : result (RegisterServerRequest M * option (list byte) * list byte) :=
  meta ← ParseMeta KYBER_SERVER_META;
  let request := register_request dedicated (GetCustomLevelData names) modData meta serverInfo in
  Ok (request, fst <$> answer request, match answer request with Some (_, proxytoken) => proxytoken | None => m_joinToken end).

(** A text of pairs, keys and values with [=] between and the pairs with commas. *)
Definition render (pairs : list (list byte * list byte)) : list byte := join (bstr ",") ((fun e => e.1 ++ bstr "=" ++ e.2) <$> pairs).

Definition plain (s : list byte) : Prop := (Byte.x2c ∉ s) /\ (Byte.x3d ∉ s).

Lemma add_meta_pair k v m : plain k -> plain v -> add_meta m (k ++ bstr "=" ++ v) = Ok (<[k := v]> m).
Proof. intros [_ Hk] [_ Hv]. unfold add_meta. change (bstr "=") with [Byte.x3d]. change (k ++ [Byte.x3d] ++ v) with (join [Byte.x3d] [k; v]).
  rewrite Split_joined; [done..|]. by repeat constructor. Qed.

(** The metadata of a server are those the variable names, the last of each key;
    without the variable, or with an empty one, there are none. *)
Theorem ParseMeta_render pairs :
  Forall (fun e => plain e.1 /\ plain e.2) pairs ->
  ParseMeta (Some (render pairs)) = Ok (list_to_map (reverse pairs)) /\ ParseMeta None = Ok ∅.
Proof.
  intros Hp. split; [|done]. destruct pairs as [|e pairs]; [done|]. set (l := e :: pairs) in *.
  change (ParseMeta (Some (render l))) with
    (pairs ← Split (join [Byte.x2c] ((fun e => e.1 ++ bstr "=" ++ e.2) <$> l)) [Byte.x2c]; foldM add_meta ∅ pairs).
  rewrite Split_joined; [|done|].
  - cbn [mbind result_bind]. assert (Hl : l <> []) by done. clearbody l. clear Hl.
    enough (H : forall m, foldM add_meta m ((fun e => e.1 ++ bstr "=" ++ e.2) <$> l) = Ok (list_to_map (reverse l) ∪ m)) by by rewrite H, map_union_empty.
    induction Hp as [|[k v] l' [H1 H2] _ IH]; intros m; [cbn; by rewrite map_empty_union|].
    cbn [fmap list_fmap foldM fst snd]. rewrite add_meta_pair by done. cbn [mbind result_bind]. rewrite IH, reverse_cons, list_to_map_app. cbn.
    f_equal. rewrite <- map_union_assoc. f_equal. by rewrite insert_union_singleton_l, insert_empty.
  - apply list.Forall_fmap. apply (list.Forall_impl _ _ _ Hp). intros [k v] [[H1 _] [H2 _]]. cbn. rewrite not_elem_of_app, not_elem_of_cons. by repeat split.
Qed.
End Services.

(** ** Samples *)

Module Sample.
Import Async Services.

(** A call that completes, another that fails; the first callback starts a third
    call. *)
Definition reaction (c : nat) (response : option (list byte)) (status : Status) : list (option nat) := match c with 1%nat => [Some 3%nat] | _ => [] end.
Definition sample_start : AsyncRPCManager nat (list byte) := StartCall [] (Some 2%nat) (StartCall [] (Some 1%nat) AsyncRPCManager_new).
Definition tag_of (n : nat) (st : AsyncRPCManager nat (list byte)) : Z :=
  default (-1) (fst <$> List.find (fun e => bool_decide (m_callback e.2 = Some n)) (map_to_list (arena st))).
Definition complete1 : result (AsyncRPCManager nat (list byte)) := Complete (tag_of 1 sample_start) true Status_OK (Some (bstr "x")) sample_start.

Lemma complete1_allowed : (tag_of 1 sample_start ∈ dom (arena sample_start)) /\ (tag_of 1 sample_start ∉ (m_cq sample_start).*1).
Proof. split; [apply (bool_decide_unpack _); by vm_compute|apply not_elem_of_nil]. Qed.

Definition updated1 : result (AsyncRPCManager nat (list byte)) := st ← complete1; Update [] reaction st.

Lemma calls_answered_once_witness :
  exists st', updated1 = Ok st' /\ called st' = [(1%nat, Some (bstr "x"), Status_OK)] /\ callbacks (started st') = [1; 2; 3]%nat.
Proof.
  destruct complete1 as [st|] eqn:E; [|vm_compute in E; discriminate].
  destruct (calls_answered_once [] reaction st) as (st' & E' & _).
  - apply (rtc_l _ _ (StartCall [] (Some 1%nat) AsyncRPCManager_new)); [apply step_start|].
    apply (rtc_l _ _ sample_start); [apply step_start|]. apply rtc_once. destruct complete1_allowed as [H1 H2].
    exact (step_complete [] reaction _ true Status_OK (Some (bstr "x")) sample_start st H1 H2 E).
  - exists st'. assert (H : updated1 = Ok st') by (unfold updated1; rewrite E; exact E'). split; [exact H|]. clear E E'.
    vm_compute in H. injection H as <-. split; by vm_compute.
Defined.

Definition sample_stats : omap (list byte) Z := omap_insert (bstr "kills") 7 (omap_insert (bstr "deaths") 3 []).
Lemma statistics_sent_back_witness : on_GetStats (Some (UpdateStats sample_stats)) Status_OK = Some sample_stats.
Proof. apply (statistics_sent_back sample_stats). apply omap_insert_wf, omap_insert_wf, omap_wf_nil. Defined.

Definition sample_meta : list (list byte * list byte) := [(bstr "region", bstr "eu"); (bstr "pinned", bstr "7"); (bstr "region", bstr "us")].
Lemma sample_meta_plain : Forall (fun e => plain e.1 /\ plain e.2) sample_meta.
Proof.
  assert (Hp : forall s, bool_decide (Byte.x2c ∈ s) = false -> bool_decide (Byte.x3d ∈ s) = false -> plain s)
    by (intros s H1 H2; split; by eapply bool_decide_eq_false_1).
  repeat constructor; by apply Hp; vm_compute.
Qed.

Lemma ParseMeta_render_witness :
  render sample_meta = bstr "region=eu,pinned=7,region=us" /\ ParseMeta (Some (render sample_meta)) = Ok (list_to_map (reverse sample_meta)) /\
  (list_to_map (reverse sample_meta) : gmap (list byte) (list byte)) !! bstr "region" = Some (bstr "us").
Proof. split; [by vm_compute|]. split; [exact (proj1 (ParseMeta_render sample_meta sample_meta_plain))|by vm_compute]. Defined.

Definition refused : Status := mkStatus 14 (bstr "unavailable").
Definition waiting : Management.Sessions.PersistenceManager :=
  Management.Sessions.mkPersistence {[ 2 := Management.Sample.player Management.Sample.new_values ]} [(7, 2, bstr "1000")] [] [].

Lemma failed_statistics_taken_for_none_witness :
  exists st', Management.Sessions.OnStats Management.Sample.offset 0 (on_GetStats (Some ∅) refused) waiting = Ok st' /\
    Management.Sessions.replicated st' = [(7, 2)].
Proof.
  destruct (failed_statistics_taken_for_none (C:=nat) Management.Sample.offset None refused 7 2 (bstr "1000") (Management.Sample.player Management.Sample.new_values)
    Management.Sample.new_values 0 waiting eq_refl eq_refl eq_refl eq_refl) as (st' & E & _ & H). by exists st'.
Defined.
End Sample.
