(* ===== verification/Startup.v ===== *)
(** The start of the module (Source/Core/Program.cpp, Source/RPC/API/Launcher.cpp)
    and the services through which the launcher drives it (Source/RPC/Interface):
    the handshake between the game's main thread and the module's, what the
    launcher's answer sets up, the requests that start servers, load levels and
    join, the console's commands for levels, the state that is reported, and the
    game code that is replaced by stubs. *)

From coqutil Require Import Datatypes.RecordSetters.
Import DoubleBraceUpdate.
From S2P Require Import Prelude.
From S2P Require Import ByteBuffer.
From S2P Require Import StringUtils.
From S2P Require Import Network.
From S2P Require Import Voip.
From S2P Require Import Server.
From S2P Require Import Client.
From S2P Require Import Console.
From S2P Require Import Events.
From S2P Require Import Management.
From S2P Require Import Hosting.
From S2P Require Import Rpc.

(** ** The handshake

    The module's thread hooks the game's [MainInit], makes the parts and asks the
    launcher; the game's main thread runs into the hook and waits on a condition
    variable. *)

Module Handshake.
(** The game's main thread: before [MainInit], waiting in the hook, past it. *)
Inductive Main := MBefore | MWaiting | MRunning.
(** The module's thread, in [InitializationThread]: before the hook, up to the
    token, in the call of the launcher, with its answer, after it (in the console's
    loop), and the end of the process, when there is no token. *)
Inductive Init := IStart | IHooked | IAsking | IAnswered | ILoop | IExit.

(** [initialized] is whether [Program::Initialize] was called. *)
Record State := mkState { main : Main; init : Init; m_startupInitialized : bool; initialized : bool }.

Definition start : State := mkState MBefore IStart false false.

(** The wait with its predicate. *)
Definition wait (st : State) : State := st{{main := if m_startupInitialized st then MRunning else MWaiting}}.

Inductive step : State -> State -> Prop :=
  | step_hook st : init st = IStart -> step st (st{{init := IHooked}})
  | step_token (KYBER_API_TOKEN : option (list byte)) st :
      init st = IHooked -> step st (st{{init := match KYBER_API_TOKEN with Some _ => IAsking | None => IExit end}})
  | step_refused st : init st = IAsking -> step st (st{{init := ILoop}})
  | step_answered st : init st = IAsking -> step st (st{{initialized := true; init := IAnswered}})
  | step_notify st : init st = IAnswered -> step st (st{{m_startupInitialized := true; init := ILoop}})
  | step_early st : main st = MBefore -> init st = IStart -> step st (st{{main := MRunning}})
  | step_main st : main st = MBefore -> init st <> IStart -> init st <> IExit -> step st (wait st)
  | step_wake st : main st = MWaiting -> init st <> IExit -> step st (wait st).

(** The flag says that the module was initialized; the main thread passes the hook
    only when the flag is set. *)
Record handshake_ok (st : State) : Prop := {
  hs_flag : m_startupInitialized st = true -> initialized st = true;
  hs_answered : init st = IAnswered -> initialized st = true;
  hs_running : main st = MRunning -> initialized st = true;
}.

(** Histories in which the main thread does not reach [MainInit] before the hook. *)
Definition hooked_in_time (st st' : State) : Prop := step st st' /\ ~ (main st = MBefore /\ init st = IStart /\ main st' = MRunning).

Lemma handshake_step st st' : handshake_ok st -> hooked_in_time st st' -> handshake_ok st'.
Proof.
  intros H [Hs Hn]. revert H. destruct Hs as [st E|token st E|st E|st E|st E|st E E'|st E E1 E2|st E E1]; intros [H1 H2 H3];
    destruct st as [m i f b]; cbn in *; subst.
  - by split.
  - split; cbn; [done|by destruct token|done].
  - by split.
  - by split.
  - split; cbn; auto.
  - by destruct Hn.
  - split; cbn; [done|done|by destruct f; auto].
  - split; cbn; [done|done|by destruct f; auto].
Qed.

Lemma start_ok : handshake_ok start.
Proof. by split. Qed.

(** The game does not start before the module is set up, if the hook is there in
    time: the main thread is past [MainInit] only after [Program::Initialize]. *)
Theorem game_waits_for_module st : rtc hooked_in_time start st -> main st = MRunning -> initialized st = true.
Proof.
  intros H Hm. enough (Hk : handshake_ok st) by by apply (hs_running st Hk).
  revert H. generalize start_ok. generalize start. intros s Hs H. induction H as [s|s s1 s2 E _ IH]; [done|]. by apply IH, (handshake_step s).
Qed.

(** Once the launcher has answered, the main thread passes at its next step, also
    when it came to the wait only after the notification. *)
Theorem game_starts st : m_startupInitialized st = true -> init st = ILoop -> main st <> MRunning -> exists st', step st st' /\ main st' = MRunning.
Proof.
  intros Hf Hi Hm. exists (wait st). split.
  - destruct (main st) eqn:E; [apply step_main; by rewrite ?Hi|apply step_wake; by rewrite ?Hi|done].
  - unfold wait. by rewrite Hf.
Qed.

(** When the call of the launcher fails nothing sets the flag any more: a main
    thread that has not passed the hook waits for ever. *)
Theorem refused_game_hangs st st' : init st = ILoop -> m_startupInitialized st = false -> main st <> MRunning -> rtc step st st' -> main st' <> MRunning.
Proof.
  intros Hi Hf Hm H. induction H as [s|s s1 s2 E _ IH]; [done|].
  assert (Hk : init s1 = ILoop /\ m_startupInitialized s1 = false /\ main s1 <> MRunning).
  { revert Hi Hf Hm. destruct E as [s E|t s E|s E|s E|s E|s E E'|s E E' _|s E E']; intros Hi Hf Hm; try congruence;
      unfold wait; rewrite Hf; destruct s; cbn in *; subst; done. }
  destruct Hk as (H1 & H2 & H3). by apply IH.
Qed.
End Handshake.

(** ** What the launcher asks for *)

Module Launch.
Section launch.
Context {Options F M : Type} (setup_init : Levels.LevelSetup Options) (SetInclusionOption : list byte -> list byte -> Options -> Options)
  (GetInclusionOption : list byte -> Options -> option (list byte)).
Context (IsOnlineMode dedicated scripts : bool) (registered : Client.ServerCreationInfo -> option (list byte)).
Context (GetServer : list byte -> option (option (list byte))) (proxies : list (list byte * list byte)).

Record StartServerRequest := mkStartServer {
  ss_name : list byte; ss_description : list byte; ss_password : list byte; maprotation : list (list byte * list byte); ss_maxplayers : Z }.
(** An identifier that is not present is the empty one. *)
Record JoinServerRequest := mkJoinServer {
  js_id : list byte; js_proxied : bool; js_ip : list byte; js_port : Z; js_spectate : bool; joinToken : list byte }.
Inductive StartState := StartServer (r : StartServerRequest) | JoinServer (r : JoinServerRequest) | STARTSTATE_NOT_SET.
Record InitializeRequest := mkInitialize { startState : StartState; moddata : option (Services.ModData M); startupCommands : list (list byte) }.

(** [game] has the client, and what of the server its operations change; the
    queues hold the events of the one type each manager is given here, which the
    server and the client listen to ([Events.NativeEvents] has the managers). *)
Record Program := mkProgram {
  server : Hosting.Server Options; game : Client.Game F; serverEvents : list Hosting.ServerCreationInfo;
  clientEvents : list Client.MainLoopInitJoinServerEvent; m_modData : Services.ModData M; m_startupInitialized : bool }.

(** What [StartServer] and the launcher's answer make of a request. *)
Definition creation_info (r : StartServerRequest) (commands : list (list byte)) (st : Hosting.Server Options)
    : result (Hosting.ServerCreationInfo * Hosting.Server Options) :=
  '(entry, rotation) ← Rotation.GetNextEntry (Management.Dispatch.fill_rotation (maprotation r) (Hosting.m_mapRotation st));
  Ok (Hosting.mkCreation (ss_name r) (ss_description r) (ss_password r)
        (Client.mkCreation (Rotation.level entry) (Rotation.mode entry) (ss_maxplayers r)) commands,
      st{{Hosting.m_mapRotation := rotation}}).

Definition join_event (r : JoinServerRequest) : Client.MainLoopInitJoinServerEvent :=
  Client.mkJoinEvent (js_id r) (js_ip r) (u16 (js_port r)) (js_spectate r) (js_proxied r).

Definition set_joinToken (token : list byte) (g : Client.Game F) : Client.Game F :=
  let c := Client.client g in
  Client.set_client (Client.mkClient (Client.m_joining c) (Client.m_spectator c) (Client.m_connected c) (Client.m_clientState c) token
    (Client.m_socketManager c) (Client.m_voipManager c)) g.

Definition start_state (request : InitializeRequest) (p : Program) : result Program :=
  match startState request with
  | StartServer r =>
    '(info, st) ← creation_info r (startupCommands request) (server p);
    Ok (p{{server := st; serverEvents := serverEvents p ++ [info] }})
  | JoinServer r => Ok (p{{game := set_joinToken (joinToken r) (game p); clientEvents := clientEvents p ++ [join_event r] }})
  | STARTSTATE_NOT_SET => Ok p
  end.

(** [response] is the launcher's answer, if it gives one. *)
Definition Initialize (response : option InitializeRequest) (p : Program) : result Program :=
  match response with
  | None => Ok p
  | Some request =>
    p ← start_state request (p{{server ::= Hosting.Initialize dedicated}});
    let p := match moddata request with Some modData => p{{m_modData := modData}} | None => p end in
    Ok (p{{m_startupInitialized := true}})
  end.

(** What follows the game's own [init]: the initial events. *)
Definition MainLoopInitHk (p : Program) : Program :=
  p{{server := foldl (fun st info => Hosting.OnEvent info st) (server p) (serverEvents p);
     game := foldl (fun g e => Client.OnEvent IsOnlineMode registered GetServer proxies e g) (game p) (clientEvents p);
     serverEvents := []; clientEvents := [] }}.

(** *** The requests of the interface *)

Definition StartServer_request (r : StartServerRequest) (response : option (list byte)) (st : Hosting.Server Options)
    : result (Hosting.Server Options) :=
  '(info, st) ← creation_info r [] st;
  Hosting.Start setup_init SetInclusionOption GetInclusionOption dedicated scripts info true response st.

Definition LoadLevel_request (level mode : list byte) (st : Hosting.Server Options) : result (Hosting.Server Options) :=
  Hosting.LoadNextLevel setup_init SetInclusionOption GetInclusionOption scripts (c_str level) (c_str mode) [] [] true st.

Definition JoinServer_request (r : JoinServerRequest) (g : Client.Game F) : Client.Game F :=
  Client.JoinServer IsOnlineMode registered GetServer proxies (js_id r) (js_ip r) (u16 (js_port r)) (js_spectate r) (js_proxied r) true g.

Context (Hoption : forall v o, GetInclusionOption Levels.kGameMode (SetInclusionOption Levels.kGameMode v o) = Some v).

Lemma creation_info_first r commands st m ms : maprotation r = m :: ms -> len (m :: ms) < 2 ^ 16 ->
  creation_info r commands st =
    Ok (Hosting.mkCreation (ss_name r) (ss_description r) (ss_password r) (Client.mkCreation m.1 m.2 (ss_maxplayers r)) commands,
        st{{Hosting.m_mapRotation := Management.Dispatch.rotation_at (m :: ms) 1}}).
Proof.
  intros E Hl. unfold creation_info. rewrite E, Management.Dispatch.fill_rotation_at, Management.Dispatch.next_entry by done.
  cbn [mbind result_bind Rotation.level Rotation.mode]. unfold Management.Dispatch.entry_at. by rewrite Nat.Div0.mod_0_l.
Qed.

(** A request for a server without levels indexes an empty vector. *)
Lemma creation_info_empty r commands st : maprotation r = [] -> creation_info r commands st = Fault Undefined.
Proof. intros E. unfold creation_info. by rewrite E. Qed.

Lemma register_services info response (st st' : Hosting.Server Options) :
  Hosting.m_onlineMode st = true -> Hosting.Register dedicated true response (Hosting.creating info st) = Ok st' ->
  Hosting.services (Hosting.effects st') = Hosting.services (Hosting.effects st) ++ [Hosting.RegisterServer info; Hosting.Connect (default (bstr "DUMMY") response)].
Proof.
  intros Ho. unfold Hosting.Register. cbn [negb andb]. change (Hosting.m_onlineMode (Hosting.creating info st)) with (Hosting.m_onlineMode st).
  rewrite Ho. change (Hosting.m_creationInfo (Hosting.creating info st)) with (Some info). cbn [negb of_option mbind result_bind].
  assert (H : forall e, Hosting.services ((Hosting.effects (Hosting.creating info st) ++ [Hosting.RegisterServer info]) ++ [Hosting.Connect e]) =
    Hosting.services (Hosting.effects st) ++ [Hosting.RegisterServer info; Hosting.Connect e])
    by (intros e; change (Hosting.effects (Hosting.creating info st)) with (Hosting.effects st); by rewrite <- app_assoc, Hosting.services_app).
  destruct response as [id|]; intros [= <-]; apply H.
Qed.

(** C32: In online mode a server the launcher asked for, when it is the first and
    nothing else is queued, runs when the client comes to its start-up state: with
    the first level of the rotation and the startup commands of the request,
    registered by this information, its hooks armed; the game's start waited for
    all of it. *)
Theorem launched_server_starts request r m ms response p :
  startState request = StartServer r -> maprotation r = m :: ms -> len (m :: ms) < 2 ^ 16 ->
  serverEvents p = [] -> Hosting.firstStartup (server p) = true -> Hosting.m_onlineMode (server p) = true ->
  let info := Hosting.mkCreation (ss_name r) (ss_description r) (ss_password r) (Client.mkCreation m.1 m.2 (ss_maxplayers r))
                (startupCommands request) in
  exists p1 st, Initialize (Some request) p = Ok p1 /\ m_startupInitialized p1 = true /\
    Hosting.OnClientStartup setup_init SetInclusionOption GetInclusionOption dedicated scripts response (server (MainLoopInitHk p1)) = Ok st /\
    Hosting.flags st = (false, true) /\ Hosting.m_creationInfo st = Some info /\
    Hosting.services (Hosting.effects st) = Hosting.services (Hosting.effects (server p)) ++ [Hosting.RegisterServer info; Hosting.Connect (default (bstr "DUMMY") response)].
Proof.
  intros E Em Hl Hq Hf Ho info. unfold Initialize, start_state. rewrite E. set (st0 := Hosting.Initialize dedicated (server p)).
  assert (H0 : Hosting.firstStartup st0 = true /\ Hosting.m_onlineMode st0 = true /\ Hosting.effects st0 = Hosting.effects (server p))
    by (unfold st0, Hosting.Initialize; by destruct dedicated).
  destruct H0 as (Hf0 & Ho0 & He0).
  change (server (p{{server ::= Hosting.Initialize dedicated}})) with st0. rewrite (creation_info_first r _ st0 m ms Em Hl). fold info.
  cbn [mbind result_bind]. clearbody st0.
  set (st1 := st0{{Hosting.m_mapRotation := Management.Dispatch.rotation_at (m :: ms) 1}}).
  set (st2 := Hosting.OnEvent info st1).
  assert (H2 : Hosting.firstStartup st2 = true /\ Hosting.m_onlineMode st2 = true /\ Hosting.effects st2 = Hosting.effects (server p) /\
    Hosting.m_creationInfo st2 = Some info) by by rewrite <- He0.
  destruct H2 as (Hf2 & Ho2 & He2 & Hi2).
  destruct (Hosting.Start_result setup_init SetInclusionOption GetInclusionOption dedicated scripts Hoption info false response
    (st2{{Hosting.firstStartup := false}})) as (st3 & l & es & E3 & Hi3 & Hes & E4).
  eexists _, _. split; [reflexivity|]. split; [by destruct (moddata request)|].
  match goal with |- Hosting.OnClientStartup _ _ _ _ _ _ ?s = _ /\ _ => replace s with (foldl (fun st i => Hosting.OnEvent i st) st1 (serverEvents p ++ [info])) by (by destruct (moddata request)) end.
  rewrite Hq. change (foldl (fun st i => Hosting.OnEvent i st) st1 ([] ++ [info])) with st2.
  unfold Hosting.OnClientStartup. rewrite Hf2, Hi2. cbn [negb]. clearbody st2.
  split; [exact E4|]. split; [done|]. split; [exact Hi3|].
  change (Hosting.services (Hosting.effects st3 ++ es) = Hosting.services (Hosting.effects (server p)) ++
    [Hosting.RegisterServer info; Hosting.Connect (default (bstr "DUMMY") response)]).
  rewrite Hosting.services_app, (Hosting.services_leveled es Hes), app_nil_r, <- He2.
  set (st4 := st2{{Hosting.firstStartup := false}}) in *. change (Hosting.effects st2) with (Hosting.effects st4).
  by apply register_services.
Qed.

(** *** Joining *)

Definition token (g : Client.Game F) : list byte := Client.m_joinToken (Client.client g).

Lemma store_join_token id ip port spectate proxied g : token (Client.store_join id ip port spectate proxied g) = token g.
Proof. by destruct g as [[] [] [] ? ? ? ?]. Qed.

Lemma stop_server_token g : token (Client.stop_server IsOnlineMode g) = token g.
Proof.
  unfold Client.stop_server, token. destruct (Client.m_runningHosted _).
  - destruct (Client.m_restarting _); reflexivity.
  - destruct (_ && _); reflexivity.
Qed.

Lemma startup_token g : token (Client.startup IsOnlineMode registered g) = token g.
Proof.
  unfold Client.startup, token. cbn [Client.set_started Client.client]. rewrite Client.OnClientStartup_client.
  transitivity (Client.m_joinToken (Client.client (Client.leave_server g))).
  - apply stop_server_token.
  - unfold Client.leave_server. destruct g as [[] ? ? ? ? ? ?]. cbn. destruct (_ && _), m_connected; done.
Qed.

Lemma join_at_token id ip port spectate proxied changeState g :
  token (Client.join_at IsOnlineMode registered id ip port spectate proxied changeState g) = token g.
Proof.
  unfold Client.join_at. rewrite <- (store_join_token id ip port spectate proxied g). destruct changeState; [|reflexivity].
  generalize (Client.store_join id ip port spectate proxied g). clear g. intros g. unfold Client.ChangeClientState.
  destruct (Client.ClientStateChangeHk_startup IsOnlineMode registered (Client.m_clientState (Client.client g)) g) as [e ->].
  transitivity (token (Client.startup IsOnlineMode registered (Client.set_clientState Client.ClientState_Startup g))); [reflexivity|].
  rewrite startup_token. by destruct g as [[] ? ? ? ? ? ?].
Qed.

Lemma JoinServer_token id ip port spectate proxied changeState g :
  token (Client.JoinServer IsOnlineMode registered GetServer proxies id ip port spectate proxied changeState g) = token g.
Proof. unfold Client.JoinServer. case_bool_decide; [apply join_at_token|]. destruct (GetServer id); [apply join_at_token|done]. Qed.

(** The name a client on its way to an online server gives is that of its token. *)
Lemma join_message message (g : Client.Game F) :
  Client.voip_ready g -> Client.m_joining (Client.client g) = true -> Client.m_onlineMode (Client.server g) = true ->
  exists g', Client.HandleClientServerJoin message g =
    Ok (Joins.mkMessage (CopyWithArena (Joins.kPrefix ++ token g)) (Client.m_spectator (Client.client g)), g').
Proof.
  intros Hv Hj Ho. unfold Client.HandleClientServerJoin. rewrite Hj, Ho. cbn [negb andb]. destruct (Client.AttemptJoinVoip_ok g Hv) as (g' & E & _). rewrite E.
  by exists g'.
Qed.

(** A client started to join a server joins it: once the game has initialized,
    the address, the port and the wish to spectate are those of the request, and
    the message that creates its player carries the request's token. *)
Theorem launched_client_joins request r p :
  startState request = JoinServer r -> clientEvents p = [] -> js_id r = [] \/ GetServer (js_id r) = Some None ->
  Client.voip_ready (game p) -> Client.m_onlineMode (Client.server (game p)) = true ->
  exists p1, Initialize (Some request) p = Ok p1 /\ m_startupInitialized p1 = true /\
    let g := game (MainLoopInitHk p1) in
    Client.ServerIp (Client.settings g) = CopyWithArena (js_ip r) /\ Client.ServerPort (Client.settings g) = u16 (js_port r) /\
    Client.m_socketSpawnInfo (Client.server g) = Client.mkInfo (js_proxied r) (if js_proxied r then js_ip r else []) (js_id r) [] /\
    forall message, exists g', Client.HandleClientServerJoin message g =
      Ok (Joins.mkMessage (CopyWithArena (Joins.kPrefix ++ joinToken r)) (js_spectate r), g').
Proof.
  intros E Hq Hid Hv Ho. unfold Initialize, start_state. rewrite E. cbn [mbind result_bind]. set (g0 := set_joinToken (joinToken r) (game p)).
  set (g1 := Client.store_join (js_id r) (js_ip r) (u16 (js_port r)) (js_spectate r) (js_proxied r) g0).
  assert (Hg : Client.OnEvent IsOnlineMode registered GetServer proxies (join_event r) g0 = g1).
  { unfold Client.OnEvent, Client.JoinServer. cbn [join_event Client.e_id Client.e_ip Client.e_port Client.e_spectate Client.e_proxied].
    case_bool_decide as Ei; [reflexivity|]. destruct Hid as [Hid|Hid]; [done|]. rewrite Hid. reflexivity. }
  eexists. split; [reflexivity|]. split; [by destruct (moddata request)|]. cbn zeta.
  match goal with |- context [game (MainLoopInitHk ?q)] => replace (game (MainLoopInitHk q)) with g1 end.
  2: { transitivity (foldl (fun g e => Client.OnEvent IsOnlineMode registered GetServer proxies e g) g0 (clientEvents p ++ [join_event r]));
       [rewrite Hq; cbn [app foldl]; by rewrite Hg|by destruct (moddata request)]. }
  assert (Hk : Client.voip_ready g1 /\ Client.m_joining (Client.client g1) = true /\ Client.m_onlineMode (Client.server g1) = true /\
    token g1 = joinToken r /\ Client.m_spectator (Client.client g1) = js_spectate r).
  { clear Hg. unfold g1, g0. revert Hv Ho. unfold Client.voip_ready. by destruct (game p) as [[] [] [] ? ? ? ?]. }
  destruct Hk as (Hv1 & Hj1 & Ho1 & Ht1 & Hs1). split; [|split; [|split]].
  1-3: clear; unfold g1, g0; by destruct (game p) as [[] [] [] ? ? ? ?].
  intros message. destruct (join_message message g1 Hv1 Hj1 Ho1) as (g' & E'). exists g'. by rewrite E', Ht1, Hs1.
Qed.

(** A request to join a server while the game runs does not store its token: the
    message that then creates the player carries the token the client had before,
    whatever the request's is. *)
Theorem remote_join_stale_token r g message message' g' :
  Client.HandleClientServerJoin message (JoinServer_request r g) = Ok (message', g') ->
  message' = message \/ Joins.playerName message' = CopyWithArena (Joins.kPrefix ++ token g).
Proof.
  pose proof (JoinServer_token (js_id r) (js_ip r) (u16 (js_port r)) (js_spectate r) (js_proxied r) true g) as Ht. unfold JoinServer_request.
  generalize dependent (Client.JoinServer IsOnlineMode registered GetServer proxies (js_id r) (js_ip r) (u16 (js_port r)) (js_spectate r) (js_proxied r) true g).
  intros g1 <-. unfold Client.HandleClientServerJoin. destruct (_ && _ && _); [intros [= <- _]; by left|]. destruct (negb _); [intros [= <- _]; by left|].
  destruct (Client.AttemptJoinVoip g1); [|done]. intros [= <- _]. by right.
Qed.
End launch.
Arguments StartServerRequest : clear implicits.
Arguments JoinServerRequest : clear implicits.
End Launch.

(** ** The commands for levels (Source/Core/Console.cpp) *)

Module LevelCommands.
Import Numbers Stream.
Section commands.
Context {Options : Type} (setup_init : Levels.LevelSetup Options) (SetInclusionOption : list byte -> list byte -> Options -> Options)
  (GetInclusionOption : list byte -> Options -> option (list byte)) (scripts : bool).

Definition LoadNextLevel (level mode startPoint initialSubLevel : list byte) (st : Hosting.Server Options) : result (Hosting.Server Options) :=
  Hosting.LoadNextLevel setup_init SetInclusionOption GetInclusionOption scripts (c_str level) (c_str mode) (c_str startPoint) (c_str initialSubLevel) true st.

Definition LoadLevelCommand (rawArguments : list byte) (st : Hosting.Server Options) : result (Hosting.Server Options) :=
  let '(level, s) := extract read_word [] (c_str rawArguments) in
  let '(mode, _) := extract read_word [] s in
  LoadNextLevel level mode [] [] st.

Definition kCampaign : list byte := bstr "Campaign".

Definition LoadSPLevelCommand (rawArguments : list byte) (st : Hosting.Server Options) : result (Hosting.Server Options) :=
  let '(level, s) := extract read_word [] (c_str rawArguments) in
  let '(startPoint, s) := extract read_word [] s in
  let '(initialSubLevel, _) := extract read_word [] s in
  LoadNextLevel level kCampaign startPoint initialSubLevel st.

Definition LoadSPLevel2Command (st : Hosting.Server Options) : result (Hosting.Server Options) :=
  LoadNextLevel (bstr "Levels/SP/RootLevel/RootLevel") kCampaign (bstr "S0700_GP_CP02_Escape") (bstr "Levels/SP/A2/M2BES/DS02/A2_M2BES_DS02") st.

Definition AddLevelCommand (rawArguments : list byte) (st : Hosting.Server Options) : Hosting.Server Options :=
  let '(level, s) := extract read_word [] (c_str rawArguments) in
  let '(mode, _) := extract read_word [] s in
  st{{Hosting.m_mapRotation ::= Rotation.AddEntry (c_str level) (c_str mode)}}.

(** A word that a C string can hold. *)
Definition argument (s : list byte) : Prop := is_word s /\ (Byte.x00 ∉ s).

Lemma two_words a b : argument a -> argument b ->
  c_str (a ++ delimiter :: b) = a ++ delimiter :: b /\ extract read_word [] (a ++ delimiter :: b) = (a, b) /\ extract read_word [] b = (b, []).
Proof.
  intros [Ha Hna] [Hb Hnb]. split.
  - apply c_str_id. rewrite elem_of_app, elem_of_cons. by intros [|[|]].
  - rewrite extract_token by apply Ha. rewrite extract_last by apply Hb. by rewrite !read_word_id.
Qed.

(** The command, the request of the interface and the server itself load a level
    alike; a level of the campaign is loaded at the start point and the sub-level
    that were named; an added level is the last of the rotation, and the levels
    before it and the place of the next one stay. *)
Theorem level_commands level mode startPoint initialSubLevel st :
  argument level -> argument mode -> argument startPoint -> argument initialSubLevel ->
  LoadLevelCommand (level ++ delimiter :: mode) st =
    Launch.LoadLevel_request setup_init SetInclusionOption GetInclusionOption scripts level mode st /\
  LoadSPLevelCommand (level ++ delimiter :: startPoint ++ delimiter :: initialSubLevel) st =
    Hosting.LoadNextLevel setup_init SetInclusionOption GetInclusionOption scripts level kCampaign startPoint initialSubLevel true st /\
  Rotation.m_entries (Hosting.m_mapRotation (AddLevelCommand (level ++ delimiter :: mode) st)) =
    Rotation.m_entries (Hosting.m_mapRotation st) ++ [Rotation.mkEntry level mode] /\
  Rotation.m_current (Hosting.m_mapRotation (AddLevelCommand (level ++ delimiter :: mode) st)) = Rotation.m_current (Hosting.m_mapRotation st).
Proof.
  intros Hl Hm Hs Hi. destruct (two_words level mode Hl Hm) as (E1 & E2 & E3). split; [|split].
  - unfold LoadLevelCommand. by rewrite E1, E2, E3.
  - unfold LoadSPLevelCommand. destruct (two_words startPoint initialSubLevel Hs Hi) as (E4 & E5 & E6).
    rewrite c_str_id by (rewrite elem_of_app, !elem_of_cons, elem_of_app, elem_of_cons; destruct Hl, Hs, Hi; by intros [|[|[|[|]]]]).
    rewrite extract_token by apply Hl. rewrite read_word_id by apply Hl. rewrite E5, E6. unfold LoadNextLevel.
    change (c_str kCampaign) with kCampaign. rewrite !c_str_id by (apply Hl || apply Hs || apply Hi). reflexivity.
  - unfold AddLevelCommand. rewrite E1, E2, E3. rewrite !c_str_id by (apply Hl || apply Hm). done.
Qed.
End commands.
End LevelCommands.

(** ** The state that is reported *)

Module Info.
Section info.
Context {Options F : Type} (setup_init : Levels.LevelSetup Options) (SetInclusionOption : list byte -> list byte -> Options -> Options)
  (GetInclusionOption : list byte -> Options -> option (list byte)).
Context (KYBER_ONLINE_MODE : option (list byte)) (dedicated scripts : bool).
(** The players of a player manager of the game. *)
Context (m_players : Z -> list Teams.ServerPlayer).

Record ProtoPlayer := mkProto { pp_id : list byte; pp_name : list byte; pp_teamid : Z }.
Record ServerState := mkServerState { sv_id : list byte; sv_map : list byte; sv_mode : list byte; sv_maprotationindex : Z; sv_playerlist : list ProtoPlayer }.
Record CommonState := mkCommon { cs_server : option ServerState; cs_client : option (list byte); vivoxInitialized : bool }.

Definition proto_player (player : Teams.ServerPlayer) : ProtoPlayer :=
  mkProto (Numbers.decimal (Teams.m_nativeData player)) (Teams.m_name player) (Teams.m_teamId player).

Definition add_player (l : list ProtoPlayer) (player : Teams.ServerPlayer) : list ProtoPlayer :=
  if Teams.IsAIPlayer player then l else l ++ [proto_player player].

Definition vivox (c : Client.Client F) : bool :=
  match Client.m_voipManager c with Some v => negb (bool_decide (Voip.m_renderDevices v = [])) | None => false end.

Definition GetInfo (st : Hosting.Server Options) (c : Client.Client F) : result CommonState :=
  if Hosting.IsRunning dedicated st && (match Hosting.m_serverInstance st with Some _ => true | None => false end) then
    manager ← of_option Undefined (Hosting.m_playerManager st);
    Ok (mkCommon
      (Some (mkServerState (Hosting.m_serverId st) (Levels.m_currentLevel (Hosting.levels st)) (Levels.m_currentMode (Hosting.levels st)) 0
               (foldl add_player [] (m_players manager))))
      None (vivox c))
  else if Client.m_connected c then Ok (mkCommon None (Some (Client.serverName (Hosting.m_socketSpawnInfo st))) (vivox c))
  else Ok (mkCommon None None (vivox c)).

(** The two pointers to the game's server are set and cleared together. *)
Definition pointers (st : Hosting.Server Options) : option Z * option Z := (Hosting.m_playerManager st, Hosting.m_serverInstance st).
Definition pointers_ok (st : Hosting.Server Options) : Prop := is_Some (pointers st).1 <-> is_Some (pointers st).2.

Lemma leveled_pointers (st st' : Hosting.Server Options) : Hosting.leveled st st' -> pointers st' = pointers st.
Proof. by intros (l & es & -> & _). Qed.

Lemma fire_pointers ev args (st : Hosting.Server Options) : pointers (Hosting.fire scripts ev args st) = pointers st.
Proof. unfold Hosting.fire. by destruct scripts. Qed.

Lemma Register_pointers force response (st st' : Hosting.Server Options) : Hosting.Register dedicated force response st = Ok st' -> pointers st' = pointers st.
Proof.
  unfold Hosting.Register. destruct (_ && _); [by intros [= <-]|]. destruct (negb _); [by intros [= <-]|].
  destruct (Hosting.m_creationInfo st); [|done]. cbn [of_option mbind result_bind]. by destruct response; intros [= <-].
Qed.

Context (Hoption : forall v o, GetInclusionOption Levels.kGameMode (SetInclusionOption Levels.kGameMode v o) = Some v).

Lemma Start_pointers info changeState response (st st' : Hosting.Server Options) :
  Hosting.Start setup_init SetInclusionOption GetInclusionOption dedicated scripts info changeState response st = Ok st' -> pointers st' = pointers st.
Proof.
  destruct (Hosting.Start_result setup_init SetInclusionOption GetInclusionOption dedicated scripts Hoption info changeState response st)
    as (st1 & l & es & E & _ & _ & ->). intros [= <-]. apply Register_pointers in E. exact E.
Qed.

Lemma Stop_pointers (st st' : Hosting.Server Options) : Hosting.Stop KYBER_ONLINE_MODE st = Ok st' -> pointers st' = (None, None).
Proof.
  unfold Hosting.Stop. cbn zeta. assert (H : pointers (Hosting.stopped KYBER_ONLINE_MODE st) = (None, None)) by done. revert H.
  generalize (Hosting.stopped KYBER_ONLINE_MODE st). clear st. intros st H.
  destruct (Hosting.m_socketManager st) as [[m|]|]; [|done|done]. destruct (list.last _); [|done]. cbn [of_option mbind result_bind].
  by case_bool_decide; intros [= <-].
Qed.

Lemma frame_pointers entities dt (st : Hosting.Server Options) :
  pointers (Hosting.ServerUpdatePassPreFrameHk dedicated scripts entities dt st) = pointers st.
Proof.
  unfold Hosting.ServerUpdatePassPreFrameHk, Hosting.Heartbeat. cbn zeta.
  set (s0 := if entities then _ else _). assert (H : pointers s0 = pointers st) by (unfold s0; by destruct entities). rewrite <- H. clearbody s0.
  destruct (negb _ || negb _); [|destruct (SpecFloat.SFltb _ _)]; destruct (Hosting.IsRunning _ _), scripts; reflexivity.
Qed.

Lemma enqueue_pointers l (st : Hosting.Server Options) :
  pointers (foldl (fun st command => Hosting.act (Hosting.EnqueueCommand (c_str command)) st) st l) = pointers st.
Proof. by rewrite Hosting.enqueue_all. Qed.

Lemma OnLevelLoaded_pointers (st st' : Hosting.Server Options) :
  Hosting.OnLevelLoaded setup_init SetInclusionOption GetInclusionOption scripts st = Ok st' -> pointers st' = pointers st.
Proof.
  destruct (Hosting.OnLevelLoaded_leveled setup_init SetInclusionOption GetInclusionOption scripts Hoption st) as (s & -> & H).
  intros [= <-]. by apply leveled_pointers.
Qed.

Lemma update_pointers s (st st' : Hosting.Server Options) :
  Hosting.ServerLevelUpdateLoadHk setup_init SetInclusionOption GetInclusionOption scripts s st = Ok st' -> pointers st' = pointers st.
Proof.
  unfold Hosting.ServerLevelUpdateLoadHk. destruct (Hosting.m_creationInfo st); [|by intros [= <-]]. destruct (_ =? _); [|by intros [= <-]].
  destruct (if Hosting.m_runningHosted st then _ else _) as [st1|] eqn:E; [|done]. cbn [mbind result_bind].
  destruct (of_option Undefined (Hosting.m_creationInfo st1)); [|done]. cbn [mbind result_bind]. intros [= <-].
  transitivity (pointers st1).
  - etransitivity; [|apply enqueue_pointers]. reflexivity.
  - destruct (Hosting.m_runningHosted st); [by apply OnLevelLoaded_pointers in E|by injection E as <-].
Qed.

Lemma dedicated_pointers alloc response (st st' : Hosting.Server Options) :
  Hosting.GameSimulationInitDedicatedServerHk setup_init SetInclusionOption dedicated scripts alloc response st = Ok st' -> pointers st' = pointers st.
Proof.
  unfold Hosting.GameSimulationInitDedicatedServerHk. destruct (Hosting.m_creationInfo st); [|by intros [= <-]].
  match goal with |- (if ?b then _ else _) = _ -> _ => destruct b; [by intros [= <-]|] end. cbn zeta.
  match goal with |- context [Hosting.m_onlineMode ?s] => set (st2 := s) end.
  assert (H2 : pointers st2 = pointers st) by (unfold st2; by destruct (Hosting.m_socketManager st)). rewrite <- H2. clearbody st2. clear H2.
  destruct (if Hosting.m_onlineMode st2 then _ else _) as [st3|] eqn:E; [|done]. cbn [mbind result_bind].
  assert (H3 : pointers st3 = pointers st2) by (destruct (Hosting.m_onlineMode st2); [by apply Register_pointers in E|by injection E as <-]).
  rewrite <- H3. clear E H3. destruct (Rotation.GetNextEntry _) as [[entry r]|]; [|done]. cbn [mbind result_bind].
  match goal with |- context [of_option Thrown ?o] => destruct o as [info'|]; [|done] end. cbn [of_option mbind result_bind].
  match goal with |- context [Hosting.InitLevelSetup _ _ _ ?a (Some ?b) [] [] ?s] =>
    pose proof (Hosting.InitLevelSetup_levels setup_init SetInclusionOption scripts a b [] [] s) as Hl; set (st4 := s) in * end.
  destruct (Hosting.InitLevelSetup _ _ _ _ _ _ _ st4) as [setup st5]. destruct Hl as [Hl _]. apply leveled_pointers in Hl.
  intros [= <-]. transitivity (pointers st5); [reflexivity|]. rewrite Hl. reflexivity.
Qed.

Abbreviation step := (Hosting.step setup_init SetInclusionOption GetInclusionOption KYBER_ONLINE_MODE dedicated scripts).
Abbreviation run := (Hosting.run setup_init SetInclusionOption GetInclusionOption KYBER_ONLINE_MODE dedicated scripts).

Lemma step_pointers (st st' : Hosting.Server Options) e : pointers_ok st -> step st e = Ok st' -> pointers_ok st'.
Proof.
  intros H. assert (Hk : pointers st' = pointers st -> pointers_ok st') by (intros E; unfold pointers_ok; by rewrite E).
  destruct e; cbn [Hosting.step].
  - intros E. by apply Hk, (Start_pointers info true response).
  - unfold Hosting.OnClientStartup. destruct (negb _); [by intros [= <-]|]. destruct (Hosting.m_creationInfo st) as [i|]; [|by intros [= <-]].
    intros E. apply Start_pointers in E. by apply Hk.
  - by intros [= <-].
  - intros E. apply Stop_pointers in E. unfold pointers_ok. by rewrite E.
  - destruct dedicated eqn:Ed; [|by intros [= <-]]. rewrite <- Ed. intros E. by apply Hk, (dedicated_pointers alloc response).
  - intros [= <-]. unfold Hosting.ServerCtorHk. destruct (Hosting.m_hooksRemoved st); [exact H|]. cbn zeta.
    unfold pointers_ok, pointers. unfold Hosting.fire. destruct dedicated, scripts; cbn; split; intros _; by eexists.
  - destruct dedicated; [by intros [= <-]|]. unfold Hosting.ServerStartHk. destruct (Hosting.m_hooksRemoved st); [by intros [= <-]|].
    destruct (Hosting.m_socketManager st) as [[m|]|]; cbn [negb Hosting.set_info mbind result_bind]; [|done|]; intros [= <-]; apply Hk; cbn;
      by match goal with |- pointers (if ?b then _ else _) = _ => destruct b end.
  - destruct dedicated; [by intros [= <-]|]. intros E. by apply Hk, (update_pointers loadState).
  - intros E. by apply Hk, OnLevelLoaded_pointers.
  - intros [= <-]. apply Hk, frame_pointers.
  - intros E. by apply Hk, (Register_pointers false response).
  - destruct (Hosting.LoadNextLevel_levels setup_init SetInclusionOption GetInclusionOption scripts Hoption (c_str level) (c_str mode) [] [] true st) as (s & -> & Hl & _).
    intros [= <-]. by apply Hk, leveled_pointers.
  - intros [= <-]. apply Hk. unfold Hosting.listened. by destruct (Hosting.m_socketManager st) as [[m|]|].
Qed.

Lemma run_pointers h (st st' : Hosting.Server Options) : pointers_ok st -> run st h = Ok st' -> pointers_ok st'.
Proof.
  unfold Hosting.run. revert st. induction h as [|e h IH]; intros st H; cbn [foldM]; [by intros [= <-]|].
  destruct (step st e) as [st1|] eqn:E; [|done]. apply IH. by apply (step_pointers st st1 e).
Qed.

Lemma foldl_add_player l k : foldl add_player k l = k ++ (proto_player <$> base.filter (fun p => Teams.IsAIPlayer p = false) l).
Proof.
  revert k. induction l as [|p l IH]; intros k; [cbn; by rewrite app_nil_r|]. cbn [foldl]. rewrite IH. unfold add_player. rewrite filter_cons.
  destruct (Teams.IsAIPlayer p); [by rewrite decide_False|]. rewrite decide_True by done. cbn. by rewrite <- app_assoc.
Qed.

(** Whatever happened to a server, the state that is reported is always one: that
    of the server when the game has constructed it, with its human players in
    order, and else that of the server the client is connected to, if any. *)
Theorem info_reported h useDirtySock game (st : Hosting.Server Options) (c : Client.Client F) :
  run (Hosting.Server_new KYBER_ONLINE_MODE useDirtySock game) h = Ok st ->
  exists info, GetInfo st c = Ok info /\
    match Hosting.m_playerManager st with
    | Some manager =>
      if Hosting.IsRunning dedicated st then
        cs_client info = None /\ exists s, cs_server info = Some s /\ sv_id s = Hosting.m_serverId st /\
          sv_playerlist s = proto_player <$> base.filter (fun p => Teams.IsAIPlayer p = false) (m_players manager)
      else cs_server info = None /\ cs_client info = if Client.m_connected c then Some (Client.serverName (Hosting.m_socketSpawnInfo st)) else None
    | None => cs_server info = None /\ cs_client info = if Client.m_connected c then Some (Client.serverName (Hosting.m_socketSpawnInfo st)) else None
    end.
Proof.
  intros H. apply run_pointers in H; [|by split; intros []]. unfold pointers_ok, pointers in H. cbn [fst snd] in H. unfold GetInfo.
  destruct (Hosting.m_serverInstance st) as [inst|].
  - destruct (Hosting.m_playerManager st) as [manager|]; [|by destruct (proj2 H (ex_intro _ inst eq_refl))].
    rewrite andb_true_r. destruct (Hosting.IsRunning dedicated st).
    + cbn [of_option mbind result_bind]. eexists. split; [reflexivity|]. split; [done|]. eexists. split; [reflexivity|]. split; [done|].
      cbn [sv_playerlist]. by rewrite foldl_add_player.
    + by destruct (Client.m_connected c); eexists.
  - destruct (Hosting.m_playerManager st) as [manager|]; [by destruct (proj1 H (ex_intro _ manager eq_refl))|].
    rewrite andb_false_r. by destruct (Client.m_connected c); eexists.
Qed.
End info.
End Info.

(** ** Stubs for the game's Lua

    The game registers its Lua libraries from tables of names and functions, each
    ended by an entry without a function. The module replaces the functions of
    those that reach the file system and the process. *)

Module Stubs.
Section stubs.
(** The memory of the tables, by word, and the strings of the names. *)
Context (strings : Z -> option (list byte)).
Abbreviation Memory := (gmap Z Z).

(** The function that does nothing. *)
Definition patchValue : Z := 0x1401840C0.

Fixpoint DummyLuaTable (fuel : nat) (table : Z) (mem : Memory) : result Memory :=
  match fuel with
  | O => Fault OutOfFuel
  | S fuel =>
    f ← of_option Undefined (mem !! (table + 8));
    if f =? 0 then Ok mem else
    name ← of_option Undefined (mem !! table);
    str ← of_option Undefined (strings name);
    let mem := match find_sub (bstr "time") str with None => <[table + 8 := patchValue]> mem | Some _ => mem end in
    DummyLuaTable fuel (table + 16) mem
  end.

(** debug, os, io and file, with the null that ends the list. *)
Definition tables : list Z := [0x14308A430; 0x143089BB0; 0x1430898A0; 0x143089960; 0].

Fixpoint dummy_tables (fuel : nat) (l : list Z) (mem : Memory) : result Memory :=
  match l with
  | [] => Fault Undefined
  | table :: l => if table =? 0 then Ok mem else mem ← DummyLuaTable fuel table mem; dummy_tables fuel l mem
  end.
Definition dummy_lua (fuel : nat) (mem : Memory) : result Memory := dummy_tables fuel tables mem.

(** A table of entries at an address. *)
Fixpoint table_at (a : Z) (l : list (Z * Z)) (mem : Memory) : Prop :=
  match l with
  | [] => mem !! (a + 8) = Some 0
  | (name, f) :: l => f <> 0 /\ is_Some (strings name) /\ mem !! a = Some name /\ mem !! (a + 8) = Some f /\ table_at (a + 16) l mem
  end.

(** What is left of an entry: functions with [time] in their names stay. *)
Definition patched (e : Z * Z) : Z * Z :=
  (e.1, match strings e.1 with Some str => match find_sub (bstr "time") str with None => patchValue | Some _ => e.2 end | None => e.2 end).

(** The addresses of a table. *)
Definition in_table (a : Z) (l : list (Z * Z)) (b : Z) : Prop := a <= b < a + 16 * (len l + 1).

Lemma table_at_frame a l mem mem' : (forall b, in_table a l b -> mem' !! b = mem !! b) -> table_at a l mem -> table_at a l mem'.
Proof.
  revert a. induction l as [|[name f] l IH]; intros a H; cbn [table_at]; unfold in_table in H; cbn [length] in H.
  - by rewrite H by lia.
  - intros (Hf & Hs & H1 & H2 & Ht). rewrite !H by lia. do 4 (split; [done|]). apply (IH (a + 16)); [|done].
    intros b Hb. apply H. unfold in_table in Hb. lia.
Qed.

(** A table's functions are replaced, those about time apart, its names and the
    rest of the memory stay, and the walk ends. *)
Lemma DummyLuaTable_spec fuel a l mem :
  table_at a l mem -> (length l < fuel)%nat ->
  exists mem', DummyLuaTable fuel a mem = Ok mem' /\ table_at a (patched <$> l) mem' /\ forall b, ~ in_table a l b -> mem' !! b = mem !! b.
Proof.
  revert fuel a mem. induction l as [|[name f] l IH]; intros [|fuel] a mem; cbn [table_at length]; try lia; cbn [DummyLuaTable].
  - intros H _. rewrite H. by exists mem.
  - intros (Hf & [str Hs] & H1 & H2 & Ht) Hl. rewrite H2. cbn [of_option mbind result_bind]. rewrite (proj2 (Z.eqb_neq f 0) Hf), H1.
    cbn [of_option mbind result_bind]. rewrite Hs. cbn [of_option mbind result_bind].
    set (mem1 := match find_sub (bstr "time") str with None => <[a + 8 := patchValue]> mem | Some _ => mem end).
    assert (Hm : (forall b, b <> a + 8 -> mem1 !! b = mem !! b) /\ mem1 !! (a + 8) = Some (patched (name, f)).2).
    { unfold mem1, patched. cbn [fst snd]. rewrite Hs. destruct (find_sub (bstr "time") str); [done|].
      split; [intros b Hb; by rewrite lookup_insert_ne|by rewrite lookup_insert_eq]. }
    destruct Hm as [Hm1 Hm2]. destruct (IH fuel (a + 16) mem1) as (mem' & E & Ht' & Hr); [|lia|].
    { apply (table_at_frame _ _ mem); [|done]. intros b Hb. apply Hm1. unfold in_table in Hb. lia. }
    exists mem'. split; [exact E|].
    assert (Hb : forall b, b < a + 16 -> mem' !! b = mem1 !! b) by (intros b Hb; apply Hr; unfold in_table; lia).
    split.
    + cbn [fmap list_fmap table_at patched fst snd]. rewrite Hs. split.
      { destruct (find_sub (bstr "time") str); [done|by vm_compute]. }
      split; [done|]. rewrite !Hb, Hm1 by lia. split; [done|]. split; [|done]. rewrite Hm2. unfold patched. cbn [fst snd]. by rewrite Hs.
    + intros b Hn. unfold in_table in Hn. cbn [length] in Hn. rewrite Hr by (unfold in_table; lia). apply Hm1. lia.
Qed.

(** A function a plugin of the game must not have: not the stub, and its name has
    no [time] in it. *)
Definition allowed (e : Z * Z) : Prop := e.2 = patchValue \/ exists str p, strings e.1 = Some str /\ find_sub (bstr "time") str = Some p.

Lemma patched_allowed l : Forall (fun e : Z * Z => is_Some (strings e.1)) l -> Forall allowed (patched <$> l).
Proof.
  intros H. apply list.Forall_fmap. apply (list.Forall_impl _ _ _ H). intros [name f] [str Hs]. cbn [fst] in Hs.
  change (allowed (patched (name, f))). unfold allowed, patched. cbn [fst snd]. rewrite Hs.
  destruct (find_sub (bstr "time") str) as [p|] eqn:E; [right; by exists str, p|left; reflexivity].
Qed.

Lemma table_names a l mem : table_at a l mem -> Forall (fun e : Z * Z => is_Some (strings e.1)) l.
Proof. revert a. induction l as [|[name f] l IH]; intros a; [done|]. intros (_ & Hs & _ & _ & H). constructor; [done|by apply (IH (a + 16))]. Qed.

(** Tables that do not overlap, at the addresses of a list. *)
Record layout (ls : list (Z * list (Z * Z))) (mem : Memory) : Prop := {
  ly_tables : Forall (fun t : Z * list (Z * Z) => t.1 <> 0 /\ table_at t.1 t.2 mem) ls;
  ly_apart : ForallOrdPairs (fun s t : Z * list (Z * Z) => forall b, in_table s.1 s.2 b -> ~ in_table t.1 t.2 b) ls;
}.

Lemma dummy_tables_spec fuel ls mem :
  layout ls mem -> Forall (fun t : Z * list (Z * Z) => (length t.2 < fuel)%nat) ls ->
  exists mem', dummy_tables fuel (ls.*1 ++ [0]) mem = Ok mem' /\
    Forall (fun t : Z * list (Z * Z) => table_at t.1 (patched <$> t.2) mem') ls /\
    forall b, Forall (fun t : Z * list (Z * Z) => ~ in_table t.1 t.2 b) ls -> mem' !! b = mem !! b.
Proof.
  revert mem. induction ls as [|[a l] ls IH]; intros mem [Ht Hp] Hf; [by exists mem|].
  apply list.Forall_cons in Ht as [[Ha Ht] Hts]. apply list.Forall_cons in Hf as [Hf Hfs]. inversion Hp as [|x y Hap Hps]; subst. cbn in Ha, Ht, Hf, Hap.
  destruct (DummyLuaTable_spec fuel a l mem Ht Hf) as (mem1 & E1 & H1 & Hr1). cbn [fmap list_fmap fst app dummy_tables].
  rewrite (proj2 (Z.eqb_neq a 0) Ha), E1. cbn [mbind result_bind]. destruct (IH mem1) as (mem' & E & H2 & Hr2); [|done|].
  { split; [|done]. apply list.Forall_forall. intros t Hin. pose proof (proj1 (list.Forall_forall _ _) Hts t Hin) as [H3 H4]. split; [done|].
    apply (table_at_frame _ _ mem); [|done]. intros b Hb. apply Hr1. intros Hb'. by apply (proj1 (list.Forall_forall _ _) Hap t Hin b). }
  exists mem'. split; [exact E|]. split.
  - constructor; [|done]. cbn. apply (table_at_frame _ _ mem1); [|done]. intros b Hb. apply Hr2. apply list.Forall_forall. intros t Hin.
    apply (proj1 (list.Forall_forall _ _) Hap t Hin b). unfold in_table in *. by rewrite length_fmap in Hb.
  - intros b [Hb Hbs]%list.Forall_cons. rewrite Hr2 by done. by apply Hr1.
Qed.

(** After the patches no function of the four libraries is left to the game's
    scripts but those about time, and nothing else of the memory has changed. *)
Theorem lua_functions_stubbed fuel debug os io file mem :
  let ls := [(0x14308A430, debug); (0x143089BB0, os); (0x1430898A0, io); (0x143089960, file)] in
  layout ls mem -> Forall (fun t : Z * list (Z * Z) => (length t.2 < fuel)%nat) ls ->
  exists mem', dummy_lua fuel mem = Ok mem' /\
    Forall (fun t : Z * list (Z * Z) => exists l', table_at t.1 l' mem' /\ l'.*1 = t.2.*1 /\ Forall allowed l') ls /\
    forall b, Forall (fun t : Z * list (Z * Z) => ~ in_table t.1 t.2 b) ls -> mem' !! b = mem !! b.
Proof.
  intros ls Hl Hf. destruct (dummy_tables_spec fuel ls mem Hl Hf) as (mem' & E & H & Hr). exists mem'. split; [exact E|]. split; [|done].
  apply list.Forall_forall. intros t Hin. exists (patched <$> t.2). split; [exact (proj1 (list.Forall_forall _ _) H t Hin)|].
  split; [by rewrite <- list_fmap_compose|]. apply patched_allowed.
  apply (table_names t.1 t.2 mem). by apply (proj1 (list.Forall_forall _ _) (ly_tables ls mem Hl) t Hin).
Qed.
End stubs.

(** *** Obfuscated files

    The signature before a file is skipped without a look at its size. *)

Definition kSignature : Z := 0x22C.
Definition ReadObfuscatedHk (data size : Z) : Z * Z := (data + kSignature, u32 (size - kSignature)).

(** What is read of a file of at least a signature is what follows it, and of a
    shorter one almost four gigabytes. *)
Theorem ReadObfuscated_bounds data size : 0 <= size < 2 ^ 32 ->
  let '(data', size') := ReadObfuscatedHk data size in
  if kSignature <=? size then data' = data + kSignature /\ data' + size' = data + size else size' = size + 2 ^ 32 - kSignature /\ size < size'.
Proof.
  intros H. unfold ReadObfuscatedHk. destruct (Z.leb_spec kSignature size) as [Hs|Hs]; unfold kSignature in *.
  - rewrite uwrap_small by (unfold urange; lia). lia.
  - unfold uwrap. replace (size - 0x22C) with (size + 2 ^ 32 - 0x22C + (-1) * 2 ^ 32) by lia. rewrite Z.mod_add, Z.mod_small by lia. lia.
Qed.

(** The port of the Origin SDK: the variable's, when it is set. *)
Definition OriginSDKInitializeHk (EALsxPort : option (list byte)) (lsxPort : Z) : Z :=
  match EALsxPort with Some lsxPortVar => u16 (Network.atoi (c_str lsxPortVar)) | None => lsxPort end.
End Stubs.

(** ** Samples *)

Module Sample.
Import Handshake Launch LevelCommands Info Stubs.
Import Hosting.Sample.

(** The launcher answers before the game reaches the hook. *)
Definition asked : State := mkState MBefore IAsking false false.
Definition told : State := mkState MBefore ILoop true true.

Lemma told_reached : rtc hooked_in_time start told.
Proof.
  apply (rtc_l _ _ (mkState MBefore IHooked false false)); [split; [exact (step_hook start eq_refl)|by intros (_ & _ & ?)]|].
  apply (rtc_l _ _ asked); [split; [exact (step_token (Some (bstr "t")) (mkState MBefore IHooked false false) eq_refl)|by intros (_ & ? & _)]|].
  apply (rtc_l _ _ (mkState MBefore IAnswered false true)); [split; [exact (step_answered asked eq_refl)|by intros (_ & ? & _)]|].
  apply rtc_once. split; [exact (step_notify (mkState MBefore IAnswered false true) eq_refl)|by intros (_ & ? & _)].
Qed.

Lemma game_waits_for_module_witness : initialized (wait told) = true.
Proof.
  apply (game_waits_for_module (wait told)); [|done]. apply (rtc_r _ told); [exact told_reached|].
  split; [by apply step_main|by intros (_ & ? & _)].
Defined.

Lemma game_starts_witness : exists st', step told st' /\ main st' = MRunning.
Proof. by apply (game_starts told). Defined.

(** The call of the launcher fails while the game waits. *)
Definition refused : State := mkState MWaiting ILoop false false.
Lemma refused_game_hangs_witness : main (wait refused) <> MRunning.
Proof. apply (refused_game_hangs refused (wait refused)); [done..|]. apply rtc_once. by apply step_wake. Defined.

Definition start_request : StartServerRequest := mkStartServer (bstr "ours") [] [] [(bstr "Hoth", bstr "HvV"); (bstr "Endor", bstr "HvV")] 40.
Definition init_request : InitializeRequest (M:=nat) := mkInitialize (StartServer start_request) None [bstr "a"].
Definition program0 : Program (Options:=Opts) (F:=Z) (M:=nat) :=
  mkProgram (Hosting.Server_new None false settings0) game0 [] [] (Services.mkModData [] [] [] []) false.

Lemma launched_server_starts_witness :
  exists p1 st, Initialize false (Some init_request) program0 = Ok p1 /\ m_startupInitialized p1 = true /\
    Hosting.OnClientStartup Levels.ex_setup set_option Levels.ex_get false false (Some (bstr "id"))
      (server (MainLoopInitHk true (fun _ => None) (fun _ => None) [] p1)) = Ok st /\ Hosting.flags st = (false, true).
Proof.
  destruct (launched_server_starts Levels.ex_setup set_option Levels.ex_get true false false (fun _ => None) (fun _ => None) [] option_set
    init_request start_request (bstr "Hoth", bstr "HvV") [(bstr "Endor", bstr "HvV")] (Some (bstr "id")) program0 eq_refl eq_refl eq_refl eq_refl eq_refl eq_refl)
    as (p1 & st & E1 & E2 & E3 & E4 & _). by exists p1, st.
Defined.

Definition join_request : JoinServerRequest := mkJoinServer [] false (bstr "1.2.3.4") (65536 + 25200) true (bstr "tok").
Definition joining0 : InitializeRequest (M:=nat) := mkInitialize (JoinServer join_request) None [].

Lemma launched_client_joins_witness :
  exists p1, Initialize false (Some joining0) program0 = Ok p1 /\
    Client.ServerPort (Client.settings (game (MainLoopInitHk true (fun _ => None) (fun _ => None) [] p1))) = 25200.
Proof.
  destruct (launched_client_joins true false (fun _ => None) (fun _ => None) [] joining0 join_request program0 eq_refl eq_refl (or_introl eq_refl) I eq_refl)
    as (p1 & E & _ & _ & Hp & _). exists p1. split; [exact E|]. rewrite Hp. by vm_compute.
Defined.

Lemma remote_join_stale_token_witness :
  exists message' g', Client.HandleClientServerJoin (Joins.mkMessage (bstr "Ann") false)
    (JoinServer_request true (fun _ => None) (fun _ => None) [] join_request game0) = Ok (message', g') /\
    (message' = Joins.mkMessage (bstr "Ann") false \/ Joins.playerName message' = CopyWithArena (Joins.kPrefix ++ token game0)).
Proof.
  destruct (Client.HandleClientServerJoin (Joins.mkMessage (bstr "Ann") false)
    (JoinServer_request true (fun _ => None) (fun _ => None) [] join_request game0)) as [[message' g']|] eqn:E; [|vm_compute in E; discriminate].
  exists message', g'. split; [done|].
  exact (remote_join_stale_token true (fun _ => None) (fun _ => None) [] join_request game0 (Joins.mkMessage (bstr "Ann") false) message' g' E).
Defined.

(** A dedicated server with a person and a bot. *)
Definition info_history : list (Hosting.event Opts) := [Hosting.EvConstruct 5 (Hosting.mkSpawn 9 Levels.ex_setup false true true) (Hosting.GameManager 3)].
Definition info_players (manager : Z) : list Teams.ServerPlayer :=
  [Teams.mkPlayer (bstr "Ann") 1 1000 1; Teams.mkPlayer (bstr "bot") 0xFF 0 2].
Definition info_server : result (Hosting.Server Opts) :=
  Hosting.run Levels.ex_setup set_option Levels.ex_get None true false (Hosting.Server_new None false settings0) info_history.

Lemma info_reported_witness :
  exists st info, info_server = Ok st /\ GetInfo true info_players st (Client.client game0) = Ok info /\
    (sv_playerlist <$> cs_server info) = Some [mkProto (bstr "1000") (bstr "Ann") 1].
Proof.
  destruct info_server as [st|] eqn:E; [|vm_compute in E; discriminate].
  destruct (info_reported Levels.ex_setup set_option Levels.ex_get None true false info_players option_set info_history false settings0 st
    (Client.client game0) E) as (info & Ei & Hi).
  exists st, info. split; [done|]. split; [exact Ei|].
  assert (Hm : Hosting.m_playerManager st = Some 9) by (clear -E; vm_compute in E; by injection E as <-). rewrite Hm in Hi.
  assert (Hr : Hosting.IsRunning true st = true) by (unfold Hosting.IsRunning; by rewrite orb_true_r). rewrite Hr in Hi.
  destruct Hi as (_ & s & -> & _ & Hl). cbn [fmap option_fmap option_map]. rewrite Hl. by vm_compute.
Defined.

(** Four tables, of which one has a function about time. *)
Definition lua_strings (p : Z) : option (list byte) := if p =? 1 then Some (bstr "difftime") else Some (bstr "execute").
Definition lua_table (a : Z) (l : list (Z * Z)) : gmap Z Z :=
  list_to_map (concat (imap (fun i e => [(a + 16 * Z.of_nat i, e.1); (a + 16 * Z.of_nat i + 8, e.2)]) (l ++ [(0, 0)]))).
Definition lua_os : list (Z * Z) := [(1, 100); (2, 101)].
Definition lua_mem : gmap Z Z := lua_table 0x14308A430 [] ∪ lua_table 0x143089BB0 lua_os ∪ lua_table 0x1430898A0 [(2, 102)] ∪ lua_table 0x143089960 [].

Lemma lua_layout : layout lua_strings [(0x14308A430, []); (0x143089BB0, lua_os); (0x1430898A0, [(2, 102)]); (0x143089960, [])] lua_mem.
Proof.
  split.
  - repeat constructor; try done; try (by vm_compute); try (by eexists).
  - repeat constructor; unfold in_table; cbn; lia.
Qed.

Lemma lua_functions_stubbed_witness :
  exists mem', dummy_lua lua_strings 3 lua_mem = Ok mem' /\ mem' !! 0 = lua_mem !! 0.
Proof.
  destruct (lua_functions_stubbed lua_strings 3 [] lua_os [(2, 102)] [] lua_mem lua_layout) as (mem' & E & _ & Hr); [by repeat constructor; cbn; lia|].
  exists mem'. split; [exact E|]. apply Hr. repeat constructor; unfold in_table; cbn; lia.
Defined.

Lemma ReadObfuscated_bounds_witness : snd (ReadObfuscatedHk 0x1000 4) = 2 ^ 32 + 4 - 0x22C.
Proof. pose proof (ReadObfuscated_bounds 0x1000 4 ltac:(lia)) as H. cbn [ReadObfuscatedHk] in H. exact (proj1 H). Defined.

Lemma word_argument s : bool_decide (s = []) = false -> forallb (fun c => negb (Numbers.isspace c)) s = true -> bool_decide (Byte.x00 ∈ s) = false ->
  LevelCommands.argument s.
Proof.
  intros H1 H2 H3. split; [split; [by eapply bool_decide_eq_false_1|]|by eapply bool_decide_eq_false_1].
  apply list.Forall_forall. intros c Hc. rewrite forallb_forall in H2. apply list_elem_of_In in Hc. by apply negb_true_iff, H2.
Qed.

Lemma level_commands_witness :
  LevelCommands.LoadLevelCommand Levels.ex_setup set_option Levels.ex_get false (bstr "Hoth" ++ Stream.delimiter :: bstr "HvV") client0 =
    Launch.LoadLevel_request Levels.ex_setup set_option Levels.ex_get false (bstr "Hoth") (bstr "HvV") client0.
Proof.
  apply (level_commands Levels.ex_setup set_option Levels.ex_get false (bstr "Hoth") (bstr "HvV") (bstr "a") (bstr "b") client0);
    by apply word_argument; vm_compute.
Defined.
End Sample.
